(* ===== verification/_CoqProject ===== *)
-Q . S2P
Prelude.v
HandleMgr.v
MemMgr.v
CfgParser.v
LxFixup.v
LxMod.v
LxLoad.v
PathSearch.v
ModMgr.v
LxLibrary.v
ModEnds.v
ExcApi.v
ModClosed.v
Dll.v
ProcMgr.v
Os2Api.v
FsRouter.v
FsServer.v
SharedMem.v
DosName.v
DosMsg.v
KalMem.v
CfgOpt.v
KalPath.v
KalMod.v
BootLib.v
BootCfg.v
BootVar.v
BootToggle.v
BootMod.v
BootMenu.v
BootPP.v
BootLoad.v
