(* ===== verification/Prelude.v ===== *)
(** * The OS/2 Server of osFree: configuration, loader, processes, files, memory

    osFree runs OS/2 programs on a microkernel.  Its OS/2 personality is a set
    of servers ([src/OS2/Server/shared]), a library of calls in the program
    ([src/OS2/CPI/doscalls]) and the code that carries the calls out on the
    host ([src/OS2/Server/platform]).  This development models the parts of
    them that are the system's own logic: what turns CONFIG.SYS into a
    configuration, finds a module along LIBPATH, reads an LX executable, places
    its objects, fixes its code up and links it to the libraries it imports,
    what makes a process of it and keeps the processes, the calls on processes
    and directories, what finds the file system of a drive and serves files,
    the memory of a program and what programs share of it, the names,
    environments and messages of the library of calls, and the tables of
    handles and of memory areas these parts keep.  What starts them is the boot
    loader ([src/bootseq/loader]), of which the development models the reading
    of configuration files, the preprocessor that selects among their lines, the
    variables these use, the toggles that set them, the menu that lets the user
    choose among the lines, and the loading of the modules that OS/2 is started
    with.  Paths of the form lib/ and server/ below are relative to
    [src/OS2/Server/shared].

    ** The parts and how they interact

      - [Prelude] (this file): the result type [C] of a piece of C code,
        machine integers, strings and buffers, the byte memory, the lemmas and
        tactics all parts share.
      - [HandleMgr]: lib/handle/handlemgr.c, and server/os2fs/handlemgr.c where
        it differs.  The state is [HANDLE_TABLE] and a byte memory; one
        definition per [Hnd...] function.
      - [MemMgr]: lib/memmgr/memmgr.c.  The state is [registry], the areas in
        the order of the linked list without its sentinel.
      - [CfgParser]: lib/compat/cfgparser.c and the functions of string.c it
        uses.  The state is [cfg], its global variables.
      - [LxFixup]: lib/ixf/lx/fixup.c, the fields of one fixup record.
      - [LxMod]: lib/ixf/lx/mod.c, and of load.c reading the sections.  The
        state is [LX_module]: header, loader section, fixup section and the
        stream they come from.
      - [LxLoad]: lib/ixf/lx/lx.c, loadobj.c and the objects of load.c.  It
        turns an [LX_module] into the format-independent [IXFModule], using
        [LxMod] and [LxFixup] for the fields and [MemMgr] for places.
      - [PathSearch]: lib/compat/path.c and token.c.  It reads the LIBPATH and
        PATH that [CfgParser] stored.
      - [ModMgr]: server/os2exec/modmgr.c and ixfmgr.c.  The state is [modmgr]:
        the list of modules, the structures that are allocated, the registry,
        the memory, the configuration and the tokenizer.  It finds files with
        [PathSearch] and reaches a format through [IXFHandler], a record of
        operations as in the source; what it needs of one is the class
        [FormatLaws], and [LX_laws] shows that the LX loader has it.
      - [LxLibrary]: no code of its own; what a file of a library holds
        ([lx_library]), and the theorem on loading it that puts [LxMod], [LxLoad]
        and [ModMgr] together.
      - [ModEnds]: the termination of [LoadModule] of [ModMgr].  The class
        [Library] says what is relied on of the files of a system; the measure
        is the number of its modules that are not loaded yet.
      - [ExcApi]: server/os2exec/api/api.c and api-local.c, the calls that open
        and load a module for a program and enumerate its imports and sections,
        and the formats the server is given at its start: LX of [LxLoad] and
        ne.c, which refuses every file.
      - [ModClosed]: what the calls of [ModMgr] and [ExcApi] leave behind: the
        states in which the imports of every loaded module are loaded too and
        no modules import each other in a circle ([closed]).
      - [Dll]: doubly linked lists of structures whose fields [next] and
        [prev] are pointers, as processmgr.c and api.c of os2exec link theirs
        by hand: the class [Links] says how a structure's fields are changed,
        and the lemmas on linking in front and unlinking hold for any instance.
      - [ProcMgr]: server/os2srv/processmgr.c.  The state is [prc_state]: the
        byte memory that holds the strings, PIBs and TIBs, the process
        structures by their addresses, the head of their list, and the tables
        of process and thread identifiers (of [HandleMgr]).
      - [Os2Api]: server/os2srv/api/api.c on the state of [ProcMgr]: end of a
        process and the parent that waits for it, current directory and disk,
        identifiers and information blocks.
      - [FsRouter]: os2fs/mountreg.c and globals.c, the lookup of api/misc.c
        and the path conversion.  The state is the list of mounted file systems
        and the map of drives; it turns a DOS name into the file system that
        holds it and the name the host knows it by.
      - [FsServer]: os2fs/api/api.c.  The state [server] holds the open files
        and searches, in handle tables of [HandleMgr]; the host's file calls
        are the class [Posix], and what is relied on of them the classes
        [ExclLaws] and [SeekLaws].
      - [SharedMem]: the shared-memory records of os2exec/api/api.c.  The state
        is [shm], the records by their addresses and the head of the list that
        [Dll] links; its specification is a list of areas with their owners.
      - [DosName]: in doscalls, the environment (env.c), the search along a
        path (dossearchpath.c), the editing of names (doseditname.c) and the
        string functions they use.  The environment is the block of bytes that
        [ProcMgr] builds.
      - [DosMsg]: msg.c of doscalls, message files and the insertion of texts
        into messages.
      - [KalMem]: the memory calls of kal.c in platform/l4env, the memory
        manager that runs in the client program: allocating, freeing,
        committing and querying the pages of areas.  The host's region mapper
        and dataspace manager are the class [HostMemory], what a program sees
        of them [HostView], and what is relied on of them [HostLaws].
      - [CfgOpt]: lib/compat/env.c and server/os2srv/api/cfg.c, which read the
        options of [CfgParser] back by their names.
      - [KalPath]: the calls of kal.c and util.c that take a file name and
        complete it with the current disk and directory.  What they ask the
        servers for is the class [Session], what is relied on of it
        [SessionLaws]; [os2_session] and [os2_laws] make the calls of [Os2Api]
        and [FsRouter] an instance, so that the theorems hold for the program
        and the two servers together.

      - [KalMod]: the modules of kal.c: opening and loading a module, attaching
        its sections and those of the modules it imports, names, entries and
        types.  It calls [ExcApi] for the modules and the region mapper of
        [KalMem] for the sections.

      - [BootLib]: the library of the boot loader, shared/*.c and cmdline.c of
        [src/bootseq/loader]: words, strings, numbers, memory.
      - [BootCfg]: cfgparse.c of the boot loader.  The state is [cfg_state], the
        static buffers of [process_cfg]; the function that executes a line is
        an argument, as loader and pre-loader each have their own.
      - [BootVar]: the variables of loader/commands.c.  The state is
        [var_state], the store of strings and the list of pointers into it;
        [means] relates it to a finite map.
      - [BootToggle]: the toggles of loader/commands.c, which take a variable
        from one block of values to the next.  The state is [toggle_state]: the
        toggles with their keys and blocks, which point to the variables, and
        what the last command was.
      - [BootMenu]: loader/loader.c, the lines of the configuration that make
        up the menu, the keys, and the execution of the item that was chosen.
        It reads the file with [BootCfg] and expands lines with [BootVar]; the
        commands that reach disks and kernels are the argument [host].
      - [BootMod]: the commands [module] and [modaddr] of loader/commands.c with
        [load_module] of loader/boot.c.  The state is [boot_modules]: the memory,
        the address for the next module and the list of modules.
      - [BootPP]: loader/pp.c, which includes files and selects lines by
        conditions on the variables of [BootVar]; the files are an argument.
      - [BootLoad]: kernels/cfgsys.c, which loads what the kernel of OS/2 needs as
        boot modules.  It reaches the loader through the class [BootLoader]; what
        it needs of it is the class [BootLoaderLaws], and [boot_laws] shows that
        [exec_line] of [BootMenu] with the commands of [BootMod] has it.

    A pointer is its address where the code computes with it or shares what it
    points to (the slots of a handle table, the memory of the loaded objects,
    module handles), a position in a list of bytes where it runs along one
    buffer (records, tables, paths), and an [option] where only being null
    matters.  Integers are in [Z], with [u8], [u16], [u32], [s8], [s16], [s32]
    written where the code stores them in a type of that width.  An access
    outside an object, a null pointer dereferenced or a buffer too small is
    [Undef], so that a theorem with [Ret] on its right-hand side also says that
    the code does none of these.

    ** What the theorems show

      - The configuration.  For a file with CRLF line ends, which is the
        sequence of its lines (a refinement of the character loop by
        [run_lines]), [CfgGetenv] finds the first line [SET name=value] whose
        name, in the letters it was set with, begins the name asked for in
        capitals ([config_getenv_roundtrip]); string options and keyword tables
        hold what their lines say, the parser ends on any input, and cleaning up
        frees the strings of the table lines and of IOPL once, but cannot be
        repeated ([cleanup_once]).  In every
        state the options are well typed ([options_well_typed]), and asking for
        an option gives what its line set ([config_getopt_roundtrip],
        [getopt_number]).
      - The LX loader.  The format is given independently by encoders
        ([LxFixup.encode], [LxLoad.enc_bundles], [LxMod.imp_names], ...),
        and what the code reads is what was encoded: the fields and the size of
        a fixup record, the entry table, the names, the imports of all objects;
        loading copies the header, sections and pages to their places; internal
        fixups set each source word to the address of its target and change
        nothing else, also when they are applied again; every loop over the
        file's data ends on any data.
      - The module manager.  Loading an LX library whose imports are loaded, from
        the bytes of its file to the objects, fixups and links in memory
        ([LxLibrary.load_library]), linking (each import is set to its
        displacement), the answer to a request for an entry point, which is the
        one at the end of its chain of forwarders ([forwarder_chain]), loading
        twice, and what happens to files of no known format, to cyclic imports
        and to cyclic forwarders.  Loading a module ends also when imports are
        cyclic, but only without forwarders ([load_terminates]).
        Loading a module keeps the state closed, and therefore sharing the
        module with a program ends and reaches all the modules it imports
        ([load_then_share]).
      - The modules of a program.  A program that loads a module has attached,
        afterwards, exactly the sections of the module and of the modules it
        imports, directly or not, at their places, when these are apart and lie
        in areas that are reserved and that the region mapper reports as
        [attach_module] expects ([load_module_attaches]); otherwise success is
        reported as well ([attach_reports_success]).
      - Processes.  The list of processes stays a list of allocated structures
        whose fields are valid under every operation ([process_list_invariant]);
        a child with one argument string inherits what the code lets it inherit
        and gets its argument and environment block, while with two the code
        writes behind its block ([create_child]); a destroyed process is no
        longer found.  A
        parent that waits is woken by its child's end with the child's code.
        A change to a relative directory follows its components, against a
        specification on lists of components.
      - The searches.  The file found is the first that exists along the path,
        and the path is as before afterwards; the parts of a path make up the
        path.
      - Files.  A name is routed to the file system mounted for its drive and
        converted to the host's form; a search over a directory returns each
        matching name, split over calls in any way, once but for the first entry,
        which comes twice when the first name does not have the attributes asked
        for ([search_complete]); the mode reported for a handle is that of the
        first file that had its number ([open_query_state]); the pointer of a
        file moves as the call says; the packed dates are the host's times.
      - Names and messages.  A variable of an environment block is found by
        its name, a search along a path gives the first directory that has the
        file, editing follows the pattern.  The format of message files is
        given by an encoder; a message is read back, and texts are inserted in
        the places the message marks.
      - The names of a program.  The name that opening, searching and starting a
        program ask a server for is given exactly, with the lengths that are
        refused and those that overflow ([open_name], [find_name],
        [exec_name]); opening and searching agree ([open_find_agree]); changing
        to a relative directory and opening a file there reaches the file, while
        the names fit the buffers ([chdir_then_open]).
      - The memory of a program.  Committing the pages of a range makes each of
        them accessible with the rights asked for and keeps the others; so do
        decommitting, allocating and freeing, over the state of the host.
      - Shared memory.  The records and their reference counts implement the
        specification by areas ([shared_memory_refines]), and the last
        reference removes the area.
      - The tables.  An invariant of the handle table (the free list and the
        handles in use share no slot and make up the committed pages) is kept
        by all operations for slots whose size is a power of two, allocation succeeds while a handle is free, a freed
        handle is given out next.  Areas that were registered are disjoint, and
        a place found is free.
      - The boot loader.  Executing a configuration file, which is read in
        pieces of 1024 bytes, is executing its lines, when each has its line end
        and fits ([process_cfg_lines]; what else it takes is said there).
        Setting a variable is inserting into a finite map ([var_set_get]),
        replacing references is substitution up to ten levels deep
        ([references_replaced]), and the command [set] together with a line
        that refers to the variable gives its value ([set_then_expand]).
        Numbers are read as they were written ([number_roundtrip]).  A toggle
        goes through its values in order and begins again
        ([toggle_cycles]).  The menu holds the titles and scripts of the first
        file that is read ([menu_from_file]), what is chosen with the keys is
        executed line by line, where without [default] none may be chosen
        ([chosen_item_runs]), and every line calls the command that stands before
        its first blank, or none ([exec_line_command]).  Preprocessing a text in
        the expected form gives the lines that nested conditions select in it
        with its included files ([preprocess_selects]), and each pass of it ends
        ([pass_ends]).  A module that is loaded leaves the modules before it as
        they are ([module_command]), and loading those of OS/2 reports success
        only when all that are needed are in memory, if no file's name is a part
        of the path of another one before it ([needed_files_loaded]).

    The theorems [index_ignores_handle], [source_list_decode],
    [forwarder_cycle], [module_name_unavailable], [unidentified_file],
    [setboot_unreachable], [destroy_first_dangles], [pib_two_arguments],
    [absolute_dir_appended], [exit_before_wait], [search_repeats],
    [directories_hide_files], [reopened_handle_mode], [create_if_new_denied],
    [path_info_year], [dup_refused], [newest_release_dangles],
    [last_section_twice], [edit_name_fails], [edit_name_overflow],
    [insert_message_overflow], [commit_hole], [neighbour_lost],
    [free_newest_dangles], [threads_truncated], [codepage_address],
    [swappath_unknown], [find_overflow], [other_drive], [attached_nowhere],
    [library_as_program], [reserved_not_attached], [attach_reports_success],
    [last_line_lost], [empty_line_below], [line_cut_behind], [value_lost],
    [unknown_at_end], [full_buffer], [memmove_result], [block_overwritten],
    [comma_in_value], [sixth_block_kept], [other_variable_ignored],
    [no_second_word], [stale_command], [tab_ignored], [title_prefix],
    [varexpand_off], [triggers_only_sets], [first_items], [far_right],
    [configfile_nothing], [unset_variable], [line_feeds_only],
    [condition_at_start], [include_mentioned], [no_line_end],
    [includes_itself], [terminator_lost], [type_in_name], [part_of_other],
    [loaded_twice], [blank_in_path], [beginning_of_name], [no_parenthesis],
    [libpath_end], [dpath_end], [no_comma] and [no_ifs]
    describe what the code does where that is not what its comments or names
    say.

    ** Bounds and fuel

    Functions with a loop that is not structural take [fuel] and give [NoFuel]
    when it runs out.
      - [link_page] has 4097 steps; a page has at most 4096 slots
        ([page_fuel]).
      - [parse_loop] has one step more than the file has bytes; each step
        advances ([parse_config_terminates]).
      - [walk_page], [count_entries], [fill_entries] have one step more than
        there are bytes; each record and each bundle has at least one
        ([loader_terminates]).
      - [scan], [host_seps], [module_path_loop], [path_loop] have at most two
        steps more than the string has bytes; the theorems on them have
        [Ret] on the right-hand side.
      - The searches of [ProcMgr] have one step more than there are process
        structures, the strings of its memory one more than it has bytes; the
        theorems on them have [Ret] on the right-hand side.
      - The list searches of [SharedMem] and [FsRouter] and the loop over the
        names of a directory in [FsServer] have one step more than there are
        entries; again the theorems have [Ret] on the right-hand side.
      - [scan_vars] has one step more than the environment has bytes,
        [search_loop] two more than the path, [insert_loop] one more than the
        message; the theorems on them have [Ret] on the right-hand side.
      - The loops of [KalMem] that commit, decommit and query have one step
        more than the range has bytes, as each goes on to the next region;
        [KalFreeMem] takes its bound as an argument, and two more than the
        size of the area is enough ([free_mem_spec]).
      - [strip_tail], [strip_head] and [getline_loop] of [BootCfg] have at least
        one step more than the buffer, [lines_loop] and [var_sprint_once] one
        more, [pieces_loop] one more than the file; a number has at most 32
        digits.  The loop that ends a text too long for [var_sprint] never
        ends in the code; the model gives [NoFuel] there.
      - The loops of [BootToggle] over blocks have one step more than the text
        has bytes, and a command that triggers another goes as deep; in
        [BootMenu] the loop that replaces the drive has one step more than the
        line, the one that joins the lines of a command one more than there are
        structures; [itm] of [run_item] is the number of the item.
      - [if_loop] and [include_loop] of [BootPP] have one step more than the
        text has bytes ([pass_ends]).  The number of passes is the argument
        [fuel]: more than the depth of the conditions is enough
        ([preprocess_selects]); including a file in itself never ends
        ([includes_itself]).
      - In [BootLoad], [library_loop], [video_loop] and [message_loop] have one
        step more than the text has bytes; [unicode_loop] has one more than there
        can be modules.  A list of screen libraries without its closing
        parenthesis never ends ([no_parenthesis]).
      - [ModQueryProcAddr] follows forwarders as deeply as the files say; its
        fuel is the bound on that depth, an argument.  The theorems say how
        much is enough for a chain, and [forwarder_cycle] that none is for a
        cycle.  For [LoadModule] the number of modules of the library and four
        more is enough ([load_terminates]), for [excShare] and [attach_all] the length
        of the longest chain of imports.

    Arguments of the definitions stand for what is not in the repository or
    not determined: whether [malloc] succeeds, the address it returns, the
    allocator of the host ([l4_alloc_mem]), the files that the file provider
    has ([io_load_file]), the addresses of new structures.

    ** What is not modelled

    Logging ([io_log]), IPC stubs and the platform layers other than the memory
    calls of kal.c are left out; each operation is modelled as running alone.
    The variants of [LxMod] functions that read from a disk file repeat those
    that read from a buffer.  The initialisation of the module manager reads a
    list of host functions with [sscanf] and is not modelled; neither are
    [lcase] and [next_slist], which nothing calls.  Of the boot loader, drawing
    the menu, the editors and the commands that load kernels or access disks are
    not modelled, nor is its own copy of the parser of CONFIG.SYS, whose results
    are an argument of [BootLoad].  The event semaphores of
    server/os2srv/api/api.c are left out because they are not finished: their
    table of handles is never created, and the call that creates a semaphore
    waits for an answer of the server it runs in. *)
From Stdlib Require Export ZArith Lia.
From stdpp Require Export base gmap list fin_maps option functions strings.
From Stdlib Require Export Ascii.

Open Scope Z_scope.

(** [lia] eliminates quotients and remainders by constants. *)
Ltac Zify.zify_post_hook ::= Z.div_mod_to_equations.

(** ** The result of running a piece of C code

    [Ret a]: the code returned [a].  [Exit c]: it called [exit(c)].
    [Undef]: its behaviour is undefined (an access outside an object, a null
    pointer dereference).  [NoFuel]: the recursion bound given to the model
    ran out; the termination theorems show that it does not. *)

Inductive C (A : Type) : Type :=
  | Ret (a : A)
  | Exit (code : Z)
  | Undef
  | NoFuel.
Arguments Ret {_} _.
Arguments Exit {_} _.
Arguments Undef {_}.
Arguments NoFuel {_}.

#[export] Instance C_ret : MRet C := fun _ a => Ret a.
#[export] Instance C_bind : MBind C := fun _ _ f m =>
  match m with
  | Ret a => f a
  | Exit c => Exit c
  | Undef => Undef
  | NoFuel => NoFuel
  end.
#[export] Instance C_fmap : FMap C := fun _ _ f m =>
  match m with
  | Ret a => Ret (f a)
  | Exit c => Exit c
  | Undef => Undef
  | NoFuel => NoFuel
  end.

(** A read that the C code is entitled to make only when it is in bounds. *)
Definition need {A} (o : option A) : C A :=
  match o with Some a => Ret a | None => Undef end.

(** An obligation of the C code, such as a buffer being large enough. *)
Definition require (b : bool) : C unit := if b then Ret tt else Undef.

(** The run ended normally. *)
Definition returns {A} (m : C A) : Prop := exists a, m = Ret a.

(** ** Return codes ([os2/os2def.h]) *)

Definition NO_ERROR : Z := 0.
Definition ERROR_FILE_NOT_FOUND : Z := 2.
Definition ERROR_INVALID_HANDLE : Z := 6.
Definition ERROR_NOT_ENOUGH_MEMORY : Z := 8.
Definition ERROR_INVALID_PARAMETER : Z := 87.
Definition ERROR_ENVVAR_NOT_FOUND : Z := 203.
Definition ERROR_TOO_MANY_HANDLES : Z := 290.

(** ** Machine integers *)

Definition u8 (z : Z) : Z := z mod 2 ^ 8.
Definition u16 (z : Z) : Z := z mod 2 ^ 16.
Definition u32 (z : Z) : Z := z mod 2 ^ 32.

Definition signed (w z : Z) : Z :=
  let r := z mod 2 ^ w in if r <? 2 ^ (w - 1) then r else r - 2 ^ w.
Definition s8 (z : Z) : Z := signed 8 z.
Definition s16 (z : Z) : Z := signed 16 z.
Definition s32 (z : Z) : Z := signed 32 z.

Definition is_byte (z : Z) : Prop := 0 <= z < 256.
Definition is_u32 (z : Z) : Prop := 0 <= z < 2 ^ 32.

(** ** Bytes and strings

    A [char] is its byte, 0 to 255; where the C code relies on [char] being
    signed the model says so with [s8].  A string constant is the list of its
    bytes, without the terminating zero. *)

Definition ch (a : ascii) : Z := Z.of_N (N_of_ascii a).

Fixpoint bstr (s : string) : list Z :=
  match s with
  | EmptyString => []
  | String a s' => ch a :: bstr s'
  end.

#[global] Arguments bstr : simpl never.

(** [toupper] and [tolower] of <ctype.h> in the C locale. *)
Definition toupper (c : Z) : Z :=
  if (97 <=? c) && (c <=? 122) then c - 32 else c.
Definition tolower (c : Z) : Z :=
  if (65 <=? c) && (c <=? 90) then c + 32 else c.

(** *** Buffers: an array of bytes is the list of its cells *)

Definition rd8 (b : list Z) (i : Z) : C Z :=
  if 0 <=? i then need (b !! Z.to_nat i) else Undef.

Definition wr8 (b : list Z) (i v : Z) : C (list Z) :=
  if (0 <=? i) && (i <? Z.of_nat (length b))
  then Ret (<[Z.to_nat i := u8 v]> b) else Undef.

Definition le16 (b0 b1 : Z) : Z := b0 + 256 * b1.
Definition le32 (b0 b1 b2 b3 : Z) : Z :=
  b0 + 256 * b1 + 65536 * b2 + 16777216 * b3.

Definition rd16 (b : list Z) (i : Z) : C Z :=
  b0 ← rd8 b i; b1 ← rd8 b (i + 1); mret (le16 b0 b1).

Definition rd32 (b : list Z) (i : Z) : C Z :=
  b0 ← rd8 b i; b1 ← rd8 b (i + 1);
  b2 ← rd8 b (i + 2); b3 ← rd8 b (i + 3); mret (le32 b0 b1 b2 b3).

Definition wr32 (b : list Z) (i v : Z) : C (list Z) :=
  b ← wr8 b i v; b ← wr8 b (i + 1) (v / 256);
  b ← wr8 b (i + 2) (v / 65536); wr8 b (i + 3) (v / 16777216).

(** The C string that starts at the beginning of a buffer: the bytes before
    the first zero. *)
Fixpoint cstr (b : list Z) : C (list Z) :=
  match b with
  | [] => Undef
  | c :: b' => if c =? 0 then Ret [] else (fun s => c :: s) <$> cstr b'
  end.

(** [strcpy(b + i, s)]: the bytes of [s] and its terminator. *)
Fixpoint wr_bytes (b : list Z) (i : Z) (s : list Z) : C (list Z) :=
  match s with
  | [] => Ret b
  | c :: s' => b ← wr8 b i c; wr_bytes b (i + 1) s'
  end.
Definition strcpy_at (b : list Z) (i : Z) (s : list Z) : C (list Z) :=
  wr_bytes b i (s ++ [0]).

(** A pointer to a heap string that nothing else points to. *)
Inductive cptr := Null | Str (s : list Z) | Freed.

(** The string read through it. *)
Definition deref (p : cptr) : C (list Z) :=
  match p with Str s => Ret s | _ => Undef end.

(** [free]. *)
Definition free (p : cptr) : C cptr :=
  match p with Null => Ret Null | Str _ => Ret Freed | Freed => Undef end.

(** *** Memory: the byte at each allocated address *)

Abbreviation mem := (gmap Z Z).

Definition ld8 (m : mem) (a : Z) : C Z := need (m !! a).

Definition st8 (m : mem) (a v : Z) : C mem :=
  match m !! a with
  | Some _ => Ret (<[a := u8 v]> m)
  | None => Undef
  end.

Definition ld32 (m : mem) (a : Z) : C Z :=
  b0 ← ld8 m a; b1 ← ld8 m (a + 1);
  b2 ← ld8 m (a + 2); b3 ← ld8 m (a + 3); mret (le32 b0 b1 b2 b3).

Definition st32 (m : mem) (a v : Z) : C mem :=
  m ← st8 m a v; m ← st8 m (a + 1) (v / 256);
  m ← st8 m (a + 2) (v / 65536); st8 m (a + 3) (v / 16777216).

(** [memset(a, v, n)]. *)
Fixpoint memset (m : mem) (a v : Z) (n : nat) : C mem :=
  match n with
  | O => Ret m
  | S n' => m ← st8 m a v; memset m (a + 1) v n'
  end.

(** [malloc]: the allocator answers with an address (0 when it fails) and
    the arbitrary contents of the fresh block. *)
Record malloc_answer := { ma_addr : Z; ma_fill : Z -> Z }.

Fixpoint add_block (m : mem) (a : Z) (fill : Z -> Z) (n : nat) : mem :=
  match n with
  | O => m
  | S n' => <[a := u8 (fill a)]> (add_block m (a + 1) fill n')
  end.

Definition malloc (m : mem) (size : Z) (o : malloc_answer) : mem * Z :=
  if ma_addr o =? 0 then (m, 0)
  else (add_block m (ma_addr o) (ma_fill o) (Z.to_nat size), ma_addr o).

(** What <stdlib.h> promises about an answer: a failed call returns 0; a
    successful one an aligned block of the address space that nothing uses. *)
Definition malloc_fresh (m : mem) (size : Z) (o : malloc_answer) : Prop :=
  ma_addr o = 0 \/
  (0 < ma_addr o /\ ma_addr o + size <= 2 ^ 32 /\
   forall a, ma_addr o <= a < ma_addr o + size -> m !! a = None).

Definition allocated (m : mem) (a n : Z) : Prop :=
  forall i, a <= i < a + n -> is_Some (m !! i).

(** [m'] differs from [m] at most in the contents of [[a, a+n)]. *)
Definition upd_in (a n : Z) (m m' : mem) : Prop :=
  (forall i, i < a \/ a + n <= i -> m' !! i = m !! i) /\
  (forall i, is_Some (m' !! i) <-> is_Some (m !! i)).

(** ** Lemmas on the monad *)

Lemma need_ret {A} (o : option A) a : need o = Ret a -> o = Some a.
Proof. destruct o; cbn; congruence. Qed.

Lemma require_ret b u : require b = Ret u -> b = true.
Proof. destruct b; cbn; congruence. Qed.

Lemma bind_ret {A B} (a : A) (f : A -> C B) : (Ret a ≫= f) = f a.
Proof. reflexivity. Qed.

Lemma bind_Ret_inv {A B} (m : C A) (f : A -> C B) b :
  (m ≫= f) = Ret b -> exists a, m = Ret a /\ f a = Ret b.
Proof. destruct m; cbn; try discriminate. eauto. Qed.

Lemma fmap_Ret_inv {A B} (m : C A) (f : A -> B) b :
  (f <$> m) = Ret b -> exists a, m = Ret a /\ b = f a.
Proof. destruct m; cbn; try discriminate. intros [= <-]. eauto. Qed.

(** ** Tactics *)

(** Read off the steps of a run that returned. *)
Ltac cinv1 :=
  match goal with
  | H : (_ ≫= _) = Ret _ |- _ =>
      unfold mbind, C_bind in H; cbn [mbind C_bind] in H
  | H : match ?m with Ret _ => _ | Exit _ => _ | Undef => _ | NoFuel => _ end
        = Ret _ |- _ =>
      let E := fresh "E" in destruct m eqn:E; try discriminate H
  | H : mret _ = Ret _ |- _ => unfold mret, C_ret in H
  | H : Ret _ = Ret _ |- _ => injection H; clear H; intros; subst
  | H : need _ = Ret _ |- _ => apply need_ret in H
  | H : require _ = Ret _ |- _ => apply require_ret in H
  end.
Ltac cinv := repeat cinv1.

(** Case analysis on the boolean comparisons of a goal or a hypothesis. *)
Ltac bcase :=
  repeat match goal with
  | |- context [if ?b then _ else _] => let E := fresh "B" in destruct b eqn:E
  end.
Ltac bcase_in H :=
  repeat match type of H with
  | context [if ?b then _ else _] => let E := fresh "B" in destruct b eqn:E
  end.

(** Membership in appends and conses. *)
Ltac mem_solve := rewrite ?elem_of_app, ?elem_of_cons in *; tauto.

(** [lia] over the boolean tests of the C conditions. *)
Ltac blia :=
  rewrite ?andb_true_iff, ?andb_false_iff, ?orb_true_iff, ?orb_false_iff,
    ?negb_true_iff, ?negb_false_iff, ?Z.leb_le, ?Z.leb_gt, ?Z.ltb_lt,
    ?Z.ltb_ge, ?Z.eqb_eq, ?Z.eqb_neq in *; lia.

(** ** Lemmas on machine integers *)

Lemma u8_byte z : is_byte (u8 z).
Proof. unfold is_byte, u8. lia. Qed.

Lemma u32_range z : is_u32 (u32 z).
Proof. unfold is_u32, u32. lia. Qed.

Lemma u32_id z : is_u32 z -> u32 z = z.
Proof. unfold is_u32, u32. lia. Qed.

Lemma u8_id z : is_byte z -> u8 z = z.
Proof. unfold is_byte, u8. lia. Qed.

Lemma u32_idemp z : u32 (u32 z) = u32 z.
Proof. apply u32_id, u32_range. Qed.

(** Four bytes of a word make the word modulo 2^32. *)
Lemma le32_split v :
  le32 (u8 v) (u8 (v / 256)) (u8 (v / 65536)) (u8 (v / 16777216)) = u32 v.
Proof. unfold le32, u8, u32. lia. Qed.

Lemma s32_small z : - 2 ^ 31 <= z < 2 ^ 31 -> s32 z = z.
Proof.
  unfold s32, signed. intros H.
  destruct (Z.ltb_spec (z mod 2 ^ 32) (2 ^ (32 - 1))); lia.
Qed.

Create HintDb cmodel.

#[export] Hint Resolve u8_byte u32_range : cmodel.

(** ** Lemmas on the byte memory *)

Section memory.
Implicit Types m : mem.

Lemma st8_inv m a v m' :
  st8 m a v = Ret m' -> is_Some (m !! a) /\ m' = <[a := u8 v]> m.
Proof. unfold st8. destruct (m !! a) eqn:E; [intros [= <-]|discriminate]; eauto. Qed.

Lemma st8_ok m a v : is_Some (m !! a) -> st8 m a v = Ret (<[a := u8 v]> m).
Proof. intros [x Hx]. unfold st8. by rewrite Hx. Qed.

Lemma upd_in_refl a n m : upd_in a n m m.
Proof. split; auto. Qed.

Lemma upd_in_trans a n m1 m2 m3 :
  upd_in a n m1 m2 -> upd_in a n m2 m3 -> upd_in a n m1 m3.
Proof.
  intros [A1 B1] [A2 B2]; split; intros i.
  - intros Hi. by rewrite A2, A1.
  - by rewrite B2, B1.
Qed.

Lemma upd_in_weaken a n a' n' m m' :
  upd_in a n m m' -> a' <= a -> a + n <= a' + n' -> upd_in a' n' m m'.
Proof. intros [A B] H1 H2; split; [intros i Hi; apply A; lia | auto]. Qed.

Lemma st8_upd m a v m' : st8 m a v = Ret m' -> upd_in a 1 m m'.
Proof.
  intros [[x Hx] ->]%st8_inv. split; intros i.
  - intros Hi. rewrite lookup_insert_ne; [done|lia].
  - rewrite lookup_insert. case_decide; subst; [rewrite Hx|done]; split; eauto.
Qed.

Lemma upd_in_allocated a n m m' b k :
  upd_in a n m m' -> allocated m b k -> allocated m' b k.
Proof. intros [_ B] H i Hi. by apply B, H. Qed.

Lemma upd_in_ld32 a n m m' b :
  upd_in a n m m' -> b + 4 <= a \/ a + n <= b -> ld32 m' b = ld32 m b.
Proof.
  intros [A _] Hb. unfold ld32, ld8. rewrite !A by lia. done.
Qed.

Lemma st32_total m a v : allocated m a 4 -> returns (st32 m a v).
Proof.
  intros H. unfold st32, returns.
  assert (K : forall i m', 0 <= i < 4 -> upd_in a 4 m m' -> is_Some (m' !! (a + i))).
  { intros i m' Hi Hu. eapply upd_in_allocated in H; eauto. apply H. lia. }
  destruct (st8 m a v) as [m1| | |] eqn:E1;
    [|rewrite st8_ok in E1 by (apply H; lia); discriminate..]; cbn.
  assert (U1 : upd_in a 4 m m1) by (eapply upd_in_weaken; [eapply st8_upd, E1|lia..]).
  rewrite (st8_ok m1) by (apply K; [lia|done]); cbn.
  set (m2 := <[a + 1 := _]> m1).
  assert (U2 : upd_in a 4 m m2).
  { eapply upd_in_trans; [done|]. eapply upd_in_weaken.
    - eapply st8_upd, st8_ok, K; [lia|done].
    - lia.
    - lia. }
  rewrite (st8_ok m2) by (apply K; [lia|done]); cbn.
  set (m3 := <[a + 2 := _]> m2).
  assert (U3 : upd_in a 4 m m3).
  { eapply upd_in_trans; [done|]. eapply upd_in_weaken.
    - eapply st8_upd, st8_ok, K; [lia|done].
    - lia.
    - lia. }
  rewrite (st8_ok m3) by (apply K; [lia|done]); eauto.
Qed.

Lemma st32_inv m a v m' :
  st32 m a v = Ret m' ->
  m' = <[a + 3 := u8 (v / 16777216)]> (<[a + 2 := u8 (v / 65536)]>
       (<[a + 1 := u8 (v / 256)]> (<[a := u8 v]> m))) /\ upd_in a 4 m m'.
Proof.
  unfold st32. intros H. cinv.
  split.
  - repeat match goal with E : st8 _ _ _ = Ret _ |- _ =>
      apply st8_inv in E as [_ ->] end. done.
  - repeat match goal with E : st8 _ _ _ = Ret _ |- _ =>
      apply st8_upd in E; eapply upd_in_weaken with (a' := a) (n' := 4) in E;
      [|lia..] end.
    eauto using upd_in_trans.
Qed.

Lemma st32_upd m a v m' : st32 m a v = Ret m' -> upd_in a 4 m m'.
Proof. by intros [_ H]%st32_inv. Qed.

(** A word written is the word read back, modulo 2^32. *)
Lemma ld32_st32 m a v m' : st32 m a v = Ret m' -> ld32 m' a = Ret (u32 v).
Proof.
  intros [-> _]%st32_inv. unfold ld32, ld8.
  rewrite (lookup_insert_ne _ (a + 3) a), (lookup_insert_ne _ (a + 2) a),
    (lookup_insert_ne _ (a + 1) a), lookup_insert_eq by lia; cbn.
  rewrite (lookup_insert_ne _ (a + 3) (a + 1)), (lookup_insert_ne _ (a + 2) (a + 1)),
    lookup_insert_eq by lia; cbn.
  rewrite (lookup_insert_ne _ (a + 3) (a + 2)), lookup_insert_eq by lia; cbn.
  rewrite lookup_insert_eq; cbn. by rewrite le32_split.
Qed.

(** Storing where nothing is allocated is undefined. *)
Lemma st32_null m a v : m !! a = None -> st32 m a v = Undef.
Proof. intros H. unfold st32, st8. by rewrite H. Qed.

Lemma memset_upd n : forall m a v m',
  memset m a v n = Ret m' -> upd_in a (Z.of_nat n) m m'.
Proof.
  induction n as [|n IH]; intros m a v m' H; cbn in H; cinv.
  - apply upd_in_refl.
  - eapply upd_in_trans; [eapply upd_in_weaken; [by eapply st8_upd|lia..]|].
    eapply upd_in_weaken; [by eapply IH|lia..].
Qed.

Lemma memset_total n : forall m a v,
  allocated m a (Z.of_nat n) -> returns (memset m a v n).
Proof.
  induction n as [|n IH]; intros m a v H; cbn; [eexists; done|].
  rewrite st8_ok by (apply H; lia); cbn. apply IH.
  intros i Hi. rewrite lookup_insert. case_decide; [eauto|apply H; lia].
Qed.

Lemma add_block_lookup n : forall m a fill i,
  add_block m a fill n !! i =
  if decide (a <= i < a + Z.of_nat n) then Some (u8 (fill i)) else m !! i.
Proof.
  induction n as [|n IH]; intros m a fill i; cbn [add_block].
  - case_decide; [lia|done].
  - rewrite lookup_insert, IH. repeat case_decide; subst; try lia; done.
Qed.

End memory.

(** *** Byte sequences in memory *)

Definition mem_at (s : mem) (a : Z) (l : list Z) : Prop :=
  forall i c, l !! i = Some c -> s !! (a + Z.of_nat i) = Some c.

Lemma mem_at_app s a l1 l2 : mem_at s a l1 -> mem_at s (a + Z.of_nat (length l1)) l2 ->
  mem_at s a (l1 ++ l2).
Proof.
  intros H1 H2 i c. rewrite lookup_app. destruct (l1 !! i) eqn:E.
  - intros [= <-]. by apply H1.
  - intros Hi. apply H2 in Hi. apply lookup_ge_None in E.
    by replace (a + Z.of_nat (length l1) + Z.of_nat (i - length l1))
      with (a + Z.of_nat i) in Hi by lia.
Qed.

Lemma mem_at_upd s s' a l b n : mem_at s a l -> upd_in b n s s' ->
  a + Z.of_nat (length l) <= b -> mem_at s' a l.
Proof.
  intros H [U _] Hb i c Hi. rewrite U; [by apply H|].
  apply lookup_lt_Some in Hi. lia.
Qed.

Lemma mem_at_app_inv s a l1 l2 : mem_at s a (l1 ++ l2) ->
  mem_at s a l1 /\ mem_at s (a + Z.of_nat (length l1)) l2.
Proof.
  intros H. split; intros i c Hi.
  - apply H. by apply lookup_app_l_Some.
  - replace (a + Z.of_nat (length l1) + Z.of_nat i) with (a + Z.of_nat (length l1 + i)) by lia.
    apply H. rewrite lookup_app_r by lia. by replace (length l1 + i - length l1)%nat with i by lia.
Qed.

Lemma mem_at_cons s a c l : mem_at s a (c :: l) <-> s !! a = Some c /\ mem_at s (a + 1) l.
Proof.
  split.
  - intros H. split; [rewrite <- (Z.add_0_r a); by apply (H O)|]. intros i d Hi.
    replace (a + 1 + Z.of_nat i) with (a + Z.of_nat (S i)) by lia. by apply H.
  - intros [H1 H2] [|i] d Hi; [injection Hi as <-; by rewrite Z.add_0_r|].
    replace (a + Z.of_nat (S i)) with (a + 1 + Z.of_nat i) by lia. by apply H2.
Qed.

Lemma mem_at_same s s' a l : mem_at s a l ->
  (forall i, a <= i < a + Z.of_nat (length l) -> s' !! i = s !! i) -> mem_at s' a l.
Proof.
  intros H E i c Hi. rewrite E; [by apply H|]. apply lookup_lt_Some in Hi. lia.
Qed.

Lemma mem_at_allocated s a l : mem_at s a l -> allocated s a (Z.of_nat (length l)).
Proof.
  intros H i Hi. destruct (lookup_lt_is_Some_2 l (Z.to_nat (i - a))) as [c Hc]; [lia|].
  exists c. replace i with (a + Z.of_nat (Z.to_nat (i - a))) by lia. by apply H.
Qed.

(** A memory has at least as many bytes as a sequence in it. *)
Lemma allocated_size (s : mem) a (n : nat) : allocated s a (Z.of_nat n) -> (n <= size s)%nat.
Proof.
  intros H. assert (E : list_to_set ((fun i => a + Z.of_nat i) <$> seq 0 n) ⊆ dom s).
  { intros x [i [-> Hi]]%elem_of_list_to_set%list_elem_of_fmap. apply elem_of_seq in Hi.
    apply elem_of_dom, H. lia. }
  apply subseteq_size in E. rewrite size_dom, size_list_to_set in E.
  - by rewrite length_fmap, length_seq in E.
  - apply NoDup_fmap_2; [intros i j; lia|apply NoDup_seq].
Qed.

#[export] Hint Resolve upd_in_refl st8_upd st32_upd memset_upd : cmodel.

(** ** Lemmas on buffers and C strings *)

(** The bytes of a C string: no zero among them. *)
Definition text (s : list Z) : Prop := Forall (fun c => 0 < c < 256) s.

Lemma rd8_nat b (i : nat) : rd8 b (Z.of_nat i) = need (b !! i).
Proof. unfold rd8. destruct (Z.leb_spec 0 (Z.of_nat i)); [by rewrite Nat2Z.id|lia]. Qed.

Lemma rd8_inside b i c : rd8 b i = Ret c -> 0 <= i < Z.of_nat (length b).
Proof.
  unfold rd8. destruct (Z.leb_spec 0 i); [|done]. intros E%need_ret%lookup_lt_Some. lia.
Qed.

Lemma rd8_range b p x : Forall is_byte b -> rd8 b p = Ret x ->
  0 <= x < 256 /\ 0 <= p < Z.of_nat (length b).
Proof.
  intros Hb Hx. pose proof (rd8_inside _ _ _ Hx). split; [|done]. revert Hx. unfold rd8.
  destruct (Z.leb_spec 0 p); [|done]. intros Hx%need_ret%list_elem_of_lookup_2.
  rewrite Forall_forall in Hb. by apply Hb.
Qed.

Lemma rd8_pre a c b i : i = Z.of_nat (length a) -> rd8 (a ++ c :: b) i = Ret c.
Proof. intros ->. rewrite rd8_nat, list_lookup_middle; done. Qed.

Lemma text_app a b : text (a ++ b) <-> text a /\ text b.
Proof. apply Forall_app. Qed.

Lemma text_check s : forallb (fun c => (0 <? c) && (c <? 256)) s = true -> text s.
Proof.
  rewrite forallb_forall. intros H. apply Forall_forall. intros c Hc.
  rewrite list_elem_of_In in Hc. specialize (H c Hc). blia.
Qed.

Lemma bytes_check l : forallb (fun c => (0 <=? c) && (c <? 256)) l = true -> Forall is_byte l.
Proof.
  rewrite forallb_forall. intros H. apply Forall_forall. intros c Hc.
  rewrite list_elem_of_In in Hc. specialize (H c Hc). unfold is_byte. blia.
Qed.

Lemma text_drop k s : text s -> text (drop k s).
Proof. apply Forall_drop. Qed.

Lemma cstr_text s r : text s -> cstr (s ++ 0 :: r) = Ret s.
Proof.
  induction 1 as [|c s Hc _ IH]; cbn; [done|].
  destruct (Z.eqb_spec c 0); [lia|]. by rewrite IH.
Qed.

Lemma cstr_inv b s : cstr b = Ret s -> exists r, b = s ++ 0 :: r.
Proof.
  revert s. induction b as [|c b IH]; intros s; cbn; [done|].
  destruct (Z.eqb_spec c 0) as [->|].
  - intros [= <-]. by exists b.
  - intros (s' & E & ->)%fmap_Ret_inv. destruct (IH _ E) as [r ->]. by exists r.
Qed.

Lemma cstr_drop k s r : text s -> (k <= length s)%nat ->
  cstr (drop k (s ++ 0 :: r)) = Ret (drop k s).
Proof. intros H Hk. rewrite drop_app_le by done. by apply cstr_text, text_drop. Qed.

Lemma wr8_inside b i v : 0 <= i < Z.of_nat (length b) -> wr8 b i v = Ret (<[Z.to_nat i := u8 v]> b).
Proof. intros Hi. unfold wr8. destruct (Z.leb_spec 0 i), (Z.ltb_spec i (Z.of_nat (length b))); lia || done. Qed.

Lemma wr8_length b i v b' : wr8 b i v = Ret b' -> length b' = length b.
Proof. unfold wr8. destruct (_ && _); [|done]. intros [= <-]. apply length_insert. Qed.

Lemma wr8_first b v : (0 < length b)%nat -> exists b', wr8 b 0 v = Ret b' /\ length b' = length b.
Proof.
  intros Hb. rewrite wr8_inside by lia. eexists. split; [done|]. apply length_insert.
Qed.

Lemma wr8_pre a c b i v :
  i = Z.of_nat (length a) -> wr8 (a ++ c :: b) i v = Ret (a ++ u8 v :: b).
Proof.
  intros ->. unfold wr8. rewrite length_app; cbn [length].
  destruct (Z.leb_spec 0 (Z.of_nat (length a))); [|lia].
  destruct (Z.ltb_spec (Z.of_nat (length a)) (Z.of_nat (length a + S (length b)))); [|lia].
  cbn. rewrite Nat2Z.id, insert_app_r_alt, Nat.sub_diag by lia. done.
Qed.

Lemma wr_bytes_pre s : forall a b c i,
  i = Z.of_nat (length a) -> length s = length b -> Forall is_byte s ->
  wr_bytes (a ++ b ++ c) i s = Ret (a ++ s ++ c).
Proof.
  induction s as [|x s IH]; intros a b c i -> Hl Hs; destruct b as [|y b]; try done.
  inversion_clear Hs as [|? ? Hx Hs']. injection Hl as Hl.
  cbn. rewrite wr8_pre by done; cbn. rewrite u8_id by done.
  specialize (IH (a ++ [x]) b c (Z.of_nat (length a) + 1)).
  rewrite <- !app_assoc in IH. cbn in IH. apply IH; [|done..].
  rewrite length_app; cbn. lia.
Qed.

Lemma text_bytes s : text s -> Forall is_byte s.
Proof. intros H. eapply Forall_impl; [exact H|]. unfold is_byte. lia. Qed.

(** [strcpy] to the beginning of a buffer that is long enough. *)
Lemma strcpy_at_0 b s :
  text s -> (length s < length b)%nat ->
  strcpy_at b 0 s = Ret (s ++ 0 :: drop (S (length s)) b).
Proof.
  intros Hs Hl. unfold strcpy_at.
  rewrite <- (take_drop (S (length s)) b) at 1.
  pose proof (wr_bytes_pre (s ++ [0]) [] (take (S (length s)) b)
    (drop (S (length s)) b) 0 eq_refl) as H.
  cbn [app] in H. rewrite H; [by rewrite <- app_assoc| |].
  - rewrite length_app, length_take; cbn [length]. lia.
  - apply Forall_app. split; [by apply text_bytes|].
    apply Forall_singleton. unfold is_byte. lia.
Qed.

Lemma toupper_nonzero c : toupper c = 0 <-> c = 0.
Proof.
  unfold toupper. destruct (Z.leb_spec 97 c), (Z.leb_spec c 122); cbn; lia.
Qed.

(** ** Runs that do not run out of fuel *)

Definition ends {A} (m : C A) : Prop := m <> NoFuel.

Lemma ends_ret {A} (a : A) : ends (Ret a).
Proof. done. Qed.
Lemma ends_exit {A} c : ends (@Exit A c).
Proof. done. Qed.
Lemma ends_undef {A} : ends (@Undef A).
Proof. done. Qed.
Lemma ends_bind {A B} (m : C A) (f : A -> C B) :
  ends m -> (forall a, ends (f a)) -> ends (m ≫= f).
Proof. unfold ends. destruct m; cbn; auto; congruence. Qed.
Lemma ends_fmap {A B} (m : C A) (f : A -> B) : ends m -> ends (f <$> m).
Proof. unfold ends. destruct m; cbn; auto; congruence. Qed.
Lemma ends_need {A} (o : option A) : ends (need o).
Proof. by destruct o. Qed.
Lemma ends_require b : ends (require b).
Proof. by destruct b. Qed.
Lemma ends_rd8 b i : ends (rd8 b i).
Proof. unfold rd8. destruct (0 <=? i); [apply ends_need|done]. Qed.
Lemma ends_wr8 b i v : ends (wr8 b i v).
Proof. unfold wr8. by destruct (_ && _). Qed.

Create HintDb ends.
#[export] Hint Resolve ends_ret ends_exit ends_undef ends_need ends_require
  ends_rd8 ends_wr8 : ends.

(** Follow the control flow of a definition. *)
Ltac solve_ends :=
  repeat (intros;
    match goal with
    | |- ends (_ ≫= _) => apply ends_bind
    | |- ends (_ <$> _) => apply ends_fmap
    | |- ends (mret _) => apply ends_ret
    | |- ends (if ?b then _ else _) => destruct b
    | |- ends (match ?x with _ => _ end) => destruct x
    | |- ends (let _ := _ in _) => cbv zeta
    | |- ends _ => solve [auto with ends]
    end).

Lemma ends_cstr b : ends (cstr b).
Proof. induction b; cbn; solve_ends. Qed.
Lemma ends_wr_bytes s : forall b i, ends (wr_bytes b i s).
Proof. induction s; cbn; solve_ends. Qed.
Lemma ends_strcpy_at b i s : ends (strcpy_at b i s).
Proof. apply ends_wr_bytes. Qed.
#[export] Hint Resolve ends_cstr ends_wr_bytes ends_strcpy_at : ends.

(** ** Bytes at a position of a buffer *)

Definition enc16 (v : Z) : list Z := [u8 v; u8 (v / 256)].
Definition enc32 (v : Z) : list Z :=
  [u8 v; u8 (v / 256); u8 (v / 65536); u8 (v / 16777216)].

(** The bytes [l] are stored in [b] from position [p]. *)
Definition bytes_at (b : list Z) (p : Z) (l : list Z) : Prop :=
  exists pre post, b = pre ++ l ++ post /\ p = Z.of_nat (length pre).

Lemma bytes_at_intro pre l post : bytes_at (pre ++ l ++ post) (Z.of_nat (length pre)) l.
Proof. by exists pre, post. Qed.

Lemma bytes_at_app b p l1 l2 :
  bytes_at b p (l1 ++ l2) ->
  bytes_at b p l1 /\ bytes_at b (p + Z.of_nat (length l1)) l2.
Proof.
  intros (pre & post & -> & ->). split.
  - exists pre, (l2 ++ post). by rewrite <- app_assoc.
  - exists (pre ++ l1), post. split; [by rewrite <- !app_assoc|].
    rewrite length_app. lia.
Qed.

Lemma bytes_at_cons b p c l :
  bytes_at b p (c :: l) -> rd8 b p = Ret c /\ bytes_at b (p + 1) l.
Proof.
  intros H. split.
  - destruct H as (pre & post & -> & ->). by apply rd8_pre.
  - by apply (bytes_at_app b p [c] l) in H as [_ H].
Qed.

Lemma bytes_at_rd16 b p v l :
  bytes_at b p (enc16 v ++ l) -> rd16 b p = Ret (u16 v).
Proof.
  intros [E0 [E1 _]%bytes_at_cons]%bytes_at_cons. unfold rd16.
  rewrite E0. cbn [mbind C_bind]. rewrite E1. cbn [mbind C_bind mret C_ret]. f_equal.
  unfold le16, u8, u16. lia.
Qed.

Lemma bytes_at_rd32 b p v l :
  bytes_at b p (enc32 v ++ l) -> rd32 b p = Ret (u32 v).
Proof.
  intros [E0 [E1 [E2 [E3 _]%bytes_at_cons]%bytes_at_cons]%bytes_at_cons]%bytes_at_cons.
  replace (p + 1 + 1 + 1) with (p + 3) in E3 by lia.
  replace (p + 1 + 1) with (p + 2) in E2 by lia.
  unfold rd32. rewrite E0. cbn [mbind C_bind].
  rewrite E1. cbn [mbind C_bind]. rewrite E2. cbn [mbind C_bind].
  rewrite E3. cbn [mbind C_bind mret C_ret]. by rewrite le32_split.
Qed.

Lemma ends_rd16 b i : ends (rd16 b i).
Proof. unfold rd16. solve_ends. Qed.
Lemma ends_rd32 b i : ends (rd32 b i).
Proof. unfold rd32. solve_ends. Qed.
#[export] Hint Resolve ends_rd16 ends_rd32 : ends.
