(* ===== verification/HandleMgr.v ===== *)
(** * The handle manager ([OS2/Server/shared/lib/handle/handlemgr.c])

    A handle table hands out fixed-size slots of one block of memory.  The
    free slots form a linked list threaded through their first word; slots
    are added to the list one 4096-byte page at a time.  The file models every
    operation of the component on the byte memory, and proves that, for slot
    sizes that divide the page, the table implements an allocator of
    [ulMaxHandleCount] disjoint slots. *)
From S2P Require Import Prelude.

(** The [HANDLE_TABLE] structure of [os3/handlemgr.h]. *)
Record HANDLE_TABLE := mkTable {
  ulMaxHandleCount : Z;
  ulHandleSize : Z;
  pNextFree : Z;
  pFirstHandle : Z;
  pMaxHandle : Z;
  pReservedMemory : Z
}.

Definition set_next (t : HANDLE_TABLE) (p : Z) : HANDLE_TABLE :=
  mkTable (ulMaxHandleCount t) (ulHandleSize t) p (pFirstHandle t)
    (pMaxHandle t) (pReservedMemory t).
Definition set_reserved (t : HANDLE_TABLE) (p : Z) : HANDLE_TABLE :=
  mkTable (ulMaxHandleCount t) (ulHandleSize t) (pNextFree t) (pFirstHandle t)
    (pMaxHandle t) p.

(** A table argument is a pointer; [None] is the null pointer. *)
Definition HndInitializeHandleTable (cnt size : Z) (pt : option HANDLE_TABLE)
    : Z * option HANDLE_TABLE :=
  match pt with
  | None => (ERROR_INVALID_PARAMETER, None)
  | Some _ =>
      if (cnt =? 0) || (size =? 0) then (ERROR_INVALID_PARAMETER, pt)
      else (NO_ERROR, Some (mkTable cnt size 0 0 0 0))
  end.

(** [free] of the block the table reserved: its addresses become invalid. *)
Definition free_block (m : mem) (p n : Z) : mem :=
  if p =? 0 then m
  else filter (fun '(a, _) => ~ (p <= a < p + n)) m.

Definition HndDestroyHandleTable (m : mem) (pt : option HANDLE_TABLE) : Z * mem :=
  match pt with
  | None => (ERROR_INVALID_PARAMETER, m)
  | Some t =>
      (NO_ERROR, free_block m (pFirstHandle t) (pMaxHandle t - pFirstHandle t))
  end.

Definition CommitSize : Z := 4096.

(** The [for] loop of [HndpAllocateSomeHandles] that links one page. *)
Fixpoint link_page (fuel : nat) (m : mem) (t : HANDLE_TABLE) (Offset FreeHandle : Z)
    : C (mem * Z) :=
  match fuel with
  | O => NoFuel
  | S fuel =>
      if Offset <? CommitSize then
        if pMaxHandle t <=? pReservedMemory t + Offset then Ret (m, FreeHandle)
        else
          let FreeHandle := pReservedMemory t + Offset in
          m ← st32 m FreeHandle (pReservedMemory t + Offset + ulHandleSize t);
          link_page fuel m t (u32 (Offset + ulHandleSize t)) FreeHandle
      else Ret (m, FreeHandle)
  end.

(** A page holds at most 4096 slots of at least one byte. *)
Definition page_fuel : nat := 4097.

Definition reserve (m : mem) (t : HANDLE_TABLE) (o : malloc_answer) : mem * HANDLE_TABLE :=
  if pFirstHandle t =? 0 then
    let MaxSize := u32 (ulMaxHandleCount t * ulHandleSize t) in
    let '(m, p) := malloc m MaxSize o in
    (m, mkTable (ulMaxHandleCount t) (ulHandleSize t) (pNextFree t) p (p + MaxSize) p)
  else (m, t).

Definition HndpAllocateSomeHandles (m : mem) (t : HANDLE_TABLE) (o : malloc_answer)
    : C (Z * mem * HANDLE_TABLE) :=
  let '(m, t) := reserve m t o in
  if pNextFree t =? 0 then
    if pMaxHandle t <=? pReservedMemory t then Ret (ERROR_NOT_ENOUGH_MEMORY, m, t)
    else
      '(m, FreeHandle) ← link_page page_fuel m t 0 0;
      if FreeHandle =? 0 then Ret (ERROR_NOT_ENOUGH_MEMORY, m, t)
      else
        m ← st32 m FreeHandle 0;
        Ret (NO_ERROR, m,
             set_reserved (set_next t (pReservedMemory t))
               (pReservedMemory t + CommitSize))
  else Ret (NO_ERROR, m, t).

(** The caller's variable that receives the handle lives at [Handle]; the
    index is asked for with [want_index].  A success yields the value stored
    in [*Handle] and the value stored in [*HandleIndex]. *)
Definition HndAllocateHandle (m : mem) (t : HANDLE_TABLE) (want_index : bool)
    (Handle : Z) (o : malloc_answer)
    : C (Z * mem * HANDLE_TABLE * option (Z * option Z)) :=
  '(rc, m, t) ← (if pNextFree t =? 0 then HndpAllocateSomeHandles m t o
                 else Ret (NO_ERROR, m, t));
  if negb (rc =? NO_ERROR) then Ret (ERROR_TOO_MANY_HANDLES, m, t, None)
  else
    let h := pNextFree t in
    next ← ld32 m h;
    let t := set_next t next in
    index ← (if want_index then
               d ← (if ulHandleSize t =? 0 then Undef
                    else Ret (u32 (Handle - pFirstHandle t) / ulHandleSize t));
               Ret (Some d)
             else Ret None);
    Ret (NO_ERROR, m, t, Some (h, index)).

Definition HndFreeHandle (m : mem) (t : HANDLE_TABLE) (Handle : Z)
    : C (Z * mem * HANDLE_TABLE) :=
  m ← memset m Handle 0 (Z.to_nat (ulHandleSize t));
  m ← st32 m Handle (pNextFree t);
  Ret (NO_ERROR, m, set_next t Handle).

Definition HndIsValidHandle (m : mem) (t : HANDLE_TABLE) (Handle : Z) : C bool :=
  if (pFirstHandle t <=? Handle) && (Handle <? pReservedMemory t)
     && (Z.land Handle (u32 (ulHandleSize t - 1)) =? 0)
  then next ← ld32 m Handle; Ret (negb (Z.land next 1 =? 0))
  else Ret false.

Definition HndIsValidIndexHandle (m : mem) (t : HANDLE_TABLE) (Index : Z)
    : C (option Z) :=
  let Handle := pFirstHandle t + u32 (Index * ulHandleSize t) in
  v ← HndIsValidHandle m t Handle;
  Ret (if (v : bool) then Some Handle else None).

(** The copy of the component in [os2fs/handlemgr.c] differs in
    [HndAllocateHandle] only: the handle is a by-value parameter that is
    overwritten, so the caller receives just the index. *)
Definition os2fs_HndAllocateHandle (m : mem) (t : HANDLE_TABLE) (want_index : bool)
    (o : malloc_answer) : C (Z * mem * HANDLE_TABLE * option Z) :=
  '(rc, m, t) ← (if pNextFree t =? 0 then HndpAllocateSomeHandles m t o
                 else Ret (NO_ERROR, m, t));
  if negb (rc =? NO_ERROR) then Ret (ERROR_TOO_MANY_HANDLES, m, t, None)
  else
    let h := pNextFree t in
    next ← ld32 m h;
    let t := set_next t next in
    if want_index then
      d ← (if ulHandleSize t =? 0 then Undef
           else Ret (u32 (h - pFirstHandle t) / ulHandleSize t));
      Ret (NO_ERROR, m, t, Some d)
    else Ret (NO_ERROR, m, t, None).

(** ** The invariant *)

(** The slot sizes for which the component works: powers of two from a
    pointer to a page. *)
Definition good_size (size : Z) : Prop :=
  exists k, 2 <= k <= 12 /\ size = 2 ^ k.

Definition slot (t : HANDLE_TABLE) (i : nat) : Z :=
  pFirstHandle t + Z.of_nat i * ulHandleSize t.
Definition slots (t : HANDLE_TABLE) (i n : nat) : list Z := slot t <$> seq i n.

(** The list of handles threaded through the first words, from [p]. *)
Fixpoint chain (m : mem) (p : Z) (l : list Z) : Prop :=
  match l with
  | [] => p = 0
  | x :: l' => p = x /\ x <> 0 /\ exists n, ld32 m x = Ret n /\ chain m n l'
  end.

Definition per_page (t : HANDLE_TABLE) : nat := Z.to_nat (CommitSize / ulHandleSize t).

(** Slots handed to the free list after [k] pages. *)
Definition committed (t : HANDLE_TABLE) (k : nat) : nat :=
  Nat.min (Z.to_nat (ulMaxHandleCount t)) (k * per_page t).

(** [fl] is the free list and [al] the handles that are in use. *)
Record wf (m : mem) (t : HANDLE_TABLE) (fl al : list Z) : Prop := {
  wf_size : good_size (ulHandleSize t);
  wf_cnt : 0 < ulMaxHandleCount t;
  wf_fit : ulMaxHandleCount t * ulHandleSize t < 2 ^ 32;
  wf_fresh : pFirstHandle t = 0 -> fl = [] /\ al = [];
  wf_block : pFirstHandle t <> 0 ->
    0 < pFirstHandle t /\
    pMaxHandle t = pFirstHandle t + ulMaxHandleCount t * ulHandleSize t /\
    pMaxHandle t <= 2 ^ 32 /\
    allocated m (pFirstHandle t) (ulMaxHandleCount t * ulHandleSize t) /\
    exists k, pReservedMemory t = pFirstHandle t + Z.of_nat k * CommitSize /\
      fl ++ al ≡ₚ slots t 0 (committed t k);
  wf_chain : chain m (pNextFree t) fl
}.

(** ** Lemmas on slots and chains *)

Lemma good_size_bounds s :
  good_size s -> 4 <= s <= 4096 /\ s * (4096 / s) = 4096 /\ 1 <= 4096 / s.
Proof.
  intros (k & Hk & ->).
  assert (k = 2 \/ k = 3 \/ k = 4 \/ k = 5 \/ k = 6 \/ k = 7 \/ k = 8 \/ k = 9
    \/ k = 10 \/ k = 11 \/ k = 12) as D by lia.
  repeat (destruct D as [->|D]; [vm_compute; intuition congruence|]).
  subst k; vm_compute; intuition congruence.
Qed.

Lemma slots_S t i n : slots t i (S n) = slot t i :: slots t (S i) n.
Proof. reflexivity. Qed.

Lemma slots_app t i n k : slots t i (n + k) = slots t i n ++ slots t (i + n) k.
Proof. unfold slots. by rewrite seq_app, fmap_app. Qed.

Lemma elem_of_slots t i n x :
  x ∈ slots t i n <-> exists j, (i <= j < i + n)%nat /\ x = slot t j.
Proof.
  unfold slots. rewrite list_elem_of_fmap. split.
  - intros (j & -> & Hj%elem_of_seq). exists j. split; [lia|done].
  - intros (j & Hj & ->). exists j. split; [done|]. apply elem_of_seq. lia.
Qed.

Lemma slots_NoDup t i n : 0 < ulHandleSize t -> NoDup (slots t i n).
Proof.
  intros Hs. unfold slots. apply NoDup_fmap_2_strong; [|apply NoDup_seq].
  unfold slot. intros a b _ _ Hab. nia.
Qed.

Lemma slot_gap t i j :
  0 < ulHandleSize t -> i <> j ->
  slot t i + ulHandleSize t <= slot t j \/ slot t j + ulHandleSize t <= slot t i.
Proof. unfold slot. intros. nia. Qed.

Lemma chain_frame m m' a n l : forall p,
  chain m p l -> upd_in a n m m' ->
  (forall x, x ∈ l -> x + 4 <= a \/ a + n <= x) -> chain m' p l.
Proof.
  induction l as [|x l IH]; intros p H Hu Hd; cbn in *; [done|].
  destruct H as (-> & Hx & v & Hv & Hc). split_and!; [done..|].
  exists v. split; [rewrite (upd_in_ld32 a n m); [done..|] |].
  - apply Hd. by left.
  - eapply IH; [done..|]. intros y Hy. apply Hd. by right.
Qed.

(** Pointwise links make a chain. *)
Lemma chain_slots m t (r : Z) (base : Z) n : forall i,
  (forall j, (i <= j < i + n)%nat ->
    ld32 m (base + Z.of_nat j * ulHandleSize t) =
      Ret (if decide (S j = i + n)%nat then 0
           else base + Z.of_nat (S j) * ulHandleSize t)) ->
  0 < base -> 0 < ulHandleSize t -> (0 < n)%nat ->
  chain m (base + Z.of_nat i * ulHandleSize t)
    ((fun j => base + Z.of_nat j * ulHandleSize t) <$> seq i n).
Proof.
  induction n as [|n IH]; intros i H Hb Hs Hn; [lia|].
  cbn. split_and!; [done|nia|].
  eexists. split; [apply H; lia|].
  case_decide as D.
  - assert (n = 0%nat) as -> by lia. done.
  - apply IH; [|done..|lia]. intros j Hj. rewrite H by lia.
    replace (S i + n)%nat with (i + S n)%nat by lia. done.
Qed.

Section link.
Variable t : HANDLE_TABLE.
Variable q : nat.
#[local] Abbreviation base := (pReservedMemory t).
#[local] Abbreviation s := (ulHandleSize t).
Hypothesis Hs : good_size s.
Hypothesis Hbase : 0 < base.
Hypothesis Hq : Z.of_nat q * s <= CommitSize.
Hypothesis Hmax : base + Z.of_nat q * s <= pMaxHandle t.
Hypothesis Hstop : Z.of_nat q * s = CommitSize \/ pMaxHandle t = base + Z.of_nat q * s.

Lemma link_page_spec d : forall j fuel m fh,
  (j + d = q)%nat -> (d < fuel)%nat -> allocated m base (Z.of_nat q * s) ->
  exists m',
    link_page fuel m t (Z.of_nat j * s) fh =
      Ret (m', if decide (d = 0%nat) then fh else base + Z.of_nat (q - 1) * s) /\
    upd_in (base + Z.of_nat j * s) (Z.of_nat d * s) m m' /\
    forall i, (j <= i < q)%nat ->
      ld32 m' (base + Z.of_nat i * s) = Ret (u32 (base + Z.of_nat (S i) * s)).
Proof.
  pose proof (good_size_bounds _ Hs) as Hb.
  induction d as [|d IH]; intros j fuel m fh Hj Hf Ha;
    (destruct fuel as [|fuel]; [lia|]); cbn [link_page].
  - assert (j = q) as -> by lia. exists m. split_and!; [|apply upd_in_refl|intros; lia].
    destruct (Z.ltb_spec (Z.of_nat q * s) CommitSize) as [Hl|]; [|done].
    destruct Hstop as [|Hm]; [lia|]. rewrite Hm. by rewrite Z.leb_refl.
  - assert (Z.of_nat j * s + s <= Z.of_nat q * s) as Hjq by nia.
    destruct (Z.ltb_spec (Z.of_nat j * s) CommitSize); [|lia].
    destruct (Z.leb_spec (pMaxHandle t) (base + Z.of_nat j * s)); [lia|].
    destruct (st32_total m (base + Z.of_nat j * s) (base + Z.of_nat j * s + s))
      as [m1 E1]; [intros i Hi; apply Ha; nia|].
    rewrite E1; cbn. rewrite u32_id by (unfold is_u32, CommitSize in *; lia).
    replace (Z.of_nat j * s + s) with (Z.of_nat (S j) * s) by lia.
    pose proof (st32_upd _ _ _ _ E1) as U1.
    destruct (IH (S j) fuel m1 (base + Z.of_nat j * s)) as (m2 & E2 & U2 & L2);
      [lia|lia|by eapply upd_in_allocated|].
    exists m2. split_and!.
    + rewrite E2. repeat case_decide; try lia; [|done]. do 2 f_equal. nia.
    + eapply upd_in_trans; eapply upd_in_weaken; [apply U1|lia|nia|apply U2|nia|nia].
    + intros i Hi. destruct (decide (i = j)) as [->|]; [|apply L2; lia].
      rewrite (upd_in_ld32 _ _ _ _ _ U2) by nia.
      rewrite (ld32_st32 _ _ _ _ E1). do 2 f_equal. lia.
Qed.

(** The page is linked from its first slot to its last, which ends the list. *)
Lemma link_page_chain m :
  (0 < q)%nat -> pMaxHandle t <= 2 ^ 32 -> allocated m base (Z.of_nat q * s) ->
  exists m1 m2 last,
    link_page page_fuel m t 0 0 = Ret (m1, last) /\ last <> 0 /\
    st32 m1 last 0 = Ret m2 /\
    upd_in base (Z.of_nat q * s) m m2 /\
    chain m2 base ((fun j => base + Z.of_nat j * s) <$> seq 0 q).
Proof.
  intros Hq0 H32 Ha. pose proof (good_size_bounds _ Hs) as Hb.
  destruct (link_page_spec q 0 page_fuel m 0) as (m1 & E1 & U1 & L1);
    [lia|unfold page_fuel, CommitSize in *; nia|done|].
  rewrite decide_False in E1 by lia.
  assert (Hl : allocated m1 (base + Z.of_nat (q - 1) * s) 4).
  { eapply upd_in_allocated; [exact U1|]. intros i Hi. apply Ha. nia. }
  destruct (st32_total _ _ 0 Hl) as [m2 E2].
  exists m1, m2, (base + Z.of_nat (q - 1) * s). split_and!; [done|nia|done| |].
  - eapply upd_in_trans; eapply upd_in_weaken; [apply U1|lia|lia|by eapply st32_upd|nia|nia].
  - pose proof (chain_slots m2 t 0 base q 0) as Hc.
    replace (base + Z.of_nat 0 * s) with base in Hc by lia.
    apply Hc; [|lia..]. intros j Hj. case_decide as D.
    + replace j with (q - 1)%nat by lia. by rewrite (ld32_st32 _ _ _ _ E2).
    + rewrite (upd_in_ld32 _ _ _ _ _ (st32_upd _ _ _ _ E2)) by nia.
      rewrite L1 by lia. f_equal. apply u32_id. unfold is_u32. nia.
Qed.
End link.

Lemma link_page_S fuel m t off fh :
  link_page (S fuel) m t off fh =
  if off <? CommitSize then
    if pMaxHandle t <=? pReservedMemory t + off then Ret (m, fh)
    else
      m ← st32 m (pReservedMemory t + off) (pReservedMemory t + off + ulHandleSize t);
      link_page fuel m t (u32 (off + ulHandleSize t)) (pReservedMemory t + off)
  else Ret (m, fh).
Proof. reflexivity. Qed.

#[global] Arguments link_page : simpl never.

Lemma slots_alt t i n :
  slots t i n = (fun j => slot t i + Z.of_nat j * ulHandleSize t) <$> seq 0 n.
Proof.
  apply list_eq. intros j. unfold slots. rewrite !list_lookup_fmap.
  destruct (decide (j < n)%nat).
  - rewrite !lookup_seq_lt by lia. cbn. f_equal. unfold slot. lia.
  - rewrite !lookup_seq_ge by lia. done.
Qed.

(** The memory of the handles in use is not touched. *)
Definition keeps (t : HANDLE_TABLE) (al : list Z) (m m' : mem) : Prop :=
  forall x i, x ∈ al -> x <= i < x + ulHandleSize t -> m' !! i = m !! i.

(** What the caller of the allocator provides when the block is not yet
    reserved: an answer of [malloc] that is not a failure. *)
Definition can_reserve (m : mem) (t : HANDLE_TABLE) (o : malloc_answer) : Prop :=
  pFirstHandle t = 0 ->
  ma_addr o <> 0 /\ malloc_fresh m (ulMaxHandleCount t * ulHandleSize t) o.

Definition same_shape (t t' : HANDLE_TABLE) : Prop :=
  ulHandleSize t' = ulHandleSize t /\ ulMaxHandleCount t' = ulMaxHandleCount t.

Lemma reserve_wf m t al o :
  wf m t [] al -> can_reserve m t o ->
  exists m' t', reserve m t o = (m', t') /\ wf m' t' [] al /\
    pFirstHandle t' <> 0 /\ pNextFree t' = pNextFree t /\ same_shape t t' /\
    keeps t al m m'.
Proof.
  intros W Hr. destruct W as [Wsz Wcnt Wfit Wfr Wbl Wch].
  pose proof (good_size_bounds _ Wsz) as Hb.
  unfold reserve. destruct (Z.eqb_spec (pFirstHandle t) 0) as [E|E].
  - destruct (Hr E) as [Ho [|(Ho1 & Ho2 & Ho3)]]; [done|].
    destruct (Wfr E) as [_ ->].
    rewrite u32_id by (unfold is_u32; nia). unfold malloc.
    destruct (Z.eqb_spec (ma_addr o) 0) as [|_]; [done|].
    do 2 eexists. split; [done|]. split_and!; try done; [|by intros ?? ?%not_elem_of_nil].
    split; cbn; try done. intros _. split_and!; try lia.
    + intros i Hi. rewrite add_block_lookup, decide_True by lia. eauto.
    + exists 0%nat. split; [lia|]. unfold committed. rewrite Nat.min_0_r. done.
  - exists m, t. split_and!; try done.
Qed.

Lemma committed_S t k :
  (k * per_page t < Z.to_nat (ulMaxHandleCount t))%nat ->
  let q := Nat.min (per_page t) (Z.to_nat (ulMaxHandleCount t) - k * per_page t) in
  committed t k = (k * per_page t)%nat /\ committed t (S k) = (k * per_page t + q)%nat.
Proof. unfold committed. cbn. lia. Qed.

(** One batch: a table whose free list is empty and that is not full gets a
    page of new handles, all of them unused slots. *)
Lemma HndpAllocateSomeHandles_spec m t al o :
  wf m t [] al -> can_reserve m t o -> Z.of_nat (length al) < ulMaxHandleCount t ->
  exists m' t' fl, HndpAllocateSomeHandles m t o = Ret (NO_ERROR, m', t') /\
    wf m' t' fl al /\ fl <> [] /\ same_shape t t' /\ keeps t al m m'.
Proof.
  intros W Hr Hfull. destruct (reserve_wf _ _ _ _ W Hr)
    as (m1 & t1 & E1 & W1 & Hf & Hn1 & [Hs1 Hc1] & K1).
  unfold HndpAllocateSomeHandles. rewrite E1. clear W Hr.
  pose proof W1 as [Wsz Wcnt Wfit _ Wbl Wch]. cbn in Wch. rewrite Wch. cbn.
  pose proof (good_size_bounds _ Wsz) as Hb.
  destruct (Wbl Hf) as (Hp & Hm & H32 & Ha & k & Hk & P). cbn in P.
  assert (Hper : Z.of_nat (per_page t1) * ulHandleSize t1 = CommitSize)
    by (unfold per_page, CommitSize; lia).
  assert (Hlen : length al = committed t1 k).
  { rewrite P. unfold slots. by rewrite length_fmap, length_seq. }
  assert (Hkp : (k * per_page t1 < Z.to_nat (ulMaxHandleCount t1))%nat)
    by (unfold committed in Hlen; lia).
  destruct (committed_S t1 k Hkp) as [Hck HcS].
  set (q := Nat.min (per_page t1) _) in *.
  assert (Hbase : pReservedMemory t1 = slot t1 (k * per_page t1))
    by (unfold slot; nia).
  assert (Hend : pReservedMemory t1 + Z.of_nat q * ulHandleSize t1 <= pMaxHandle t1)
    by (rewrite Hbase, Hm; unfold slot; nia).
  assert (Hq0 : (0 < q)%nat) by (unfold CommitSize in *; nia).
  destruct (Z.leb_spec (pMaxHandle t1) (pReservedMemory t1)); [nia|].
  assert (Hstop : Z.of_nat q * ulHandleSize t1 = CommitSize \/
    pMaxHandle t1 = pReservedMemory t1 + Z.of_nat q * ulHandleSize t1).
  { destruct (decide (q = per_page t1)) as [->|]; [by left|right].
    rewrite Hbase, Hm. unfold slot. nia. }
  destruct (link_page_chain t1 q Wsz ltac:(lia) ltac:(nia) Hend Hstop m1 Hq0 H32)
    as (m2 & m3 & last & E2 & Hl & E3 & U & Hch); [intros i Hi; apply Ha; nia|].
  rewrite E2; cbn. destruct (Z.eqb_spec last 0); [done|]. rewrite E3; cbn.
  rewrite Hbase in Hch.
  rewrite <- slots_alt in Hch.
  assert (Hal : forall x, x ∈ al -> x + ulHandleSize t1 <= pReservedMemory t1).
  { intros x Hx. rewrite P, Hck in Hx. apply elem_of_slots in Hx as (j & Hj & ->).
    rewrite Hbase. unfold slot. nia. }
  eexists m3, _, (slots t1 (k * per_page t1) q). split; [done|]. split_and!.
  - split; cbn; try done. intros _. split_and!; try done.
    + by eapply upd_in_allocated.
    + exists (S k). split; [unfold CommitSize in *; lia|].
      change (slots t1 (k * per_page t1) q ++ al ≡ₚ slots t1 0 (committed t1 (S k))).
      rewrite HcS, slots_app, Permutation_app_comm. by rewrite P, Hck.
    + rewrite Hbase. exact Hch.
  - unfold slots. destruct q; [lia|done].
  - done.
  - intros x i Hx Hi. destruct U as [U _]. rewrite U; [by eapply K1|].
    specialize (Hal x Hx). lia.
Qed.

(** ** Consequences of the invariant *)

Lemma wf_nonnull m t fl al x : wf m t fl al -> x ∈ fl ++ al -> pFirstHandle t <> 0.
Proof.
  intros W Hx E. destruct (wf_fresh _ _ _ _ W E) as [-> ->].
  by apply not_elem_of_nil in Hx.
Qed.

Lemma wf_slot m t fl al x :
  wf m t fl al -> x ∈ fl ++ al ->
  exists j, (j < Z.to_nat (ulMaxHandleCount t))%nat /\ x = slot t j.
Proof.
  intros W Hx. destruct (wf_block _ _ _ _ W) as (_ & _ & _ & _ & k & _ & P);
    [by eapply wf_nonnull|].
  rewrite P in Hx. apply elem_of_slots in Hx as (j & Hj & ->).
  exists j. split; [unfold committed in Hj; lia|done].
Qed.

Lemma wf_NoDup m t fl al : wf m t fl al -> NoDup (fl ++ al).
Proof.
  intros W. pose proof (good_size_bounds _ (wf_size _ _ _ _ W)).
  destruct (decide (fl ++ al = [])) as [->|Hne]; [constructor|].
  destruct (wf_block _ _ _ _ W) as (_ & _ & _ & _ & k & _ & P).
  { destruct (fl ++ al) as [|x l] eqn:E; [done|].
    eapply wf_nonnull; [done|]. rewrite E. by left. }
  rewrite P. apply slots_NoDup. lia.
Qed.

(** Two handles, free or in use, never share a byte. *)
Lemma wf_disjoint m t fl al x y :
  wf m t fl al -> x ∈ fl ++ al -> y ∈ fl ++ al -> x <> y ->
  x + ulHandleSize t <= y \/ y + ulHandleSize t <= x.
Proof.
  intros W Hx Hy Hxy. pose proof (good_size_bounds _ (wf_size _ _ _ _ W)).
  destruct (wf_slot _ _ _ _ _ W Hx) as (i & _ & ->).
  destruct (wf_slot _ _ _ _ _ W Hy) as (j & _ & ->).
  apply slot_gap; [lia|congruence].
Qed.

Lemma wf_in_block m t fl al x :
  wf m t fl al -> x ∈ fl ++ al ->
  0 < x /\ pFirstHandle t <= x /\ x + ulHandleSize t <= pMaxHandle t /\
  x + ulHandleSize t <= 2 ^ 32 /\ allocated m x (ulHandleSize t).
Proof.
  intros W Hx. pose proof (good_size_bounds _ (wf_size _ _ _ _ W)).
  destruct (wf_slot _ _ _ _ _ W Hx) as (j & Hj & ->).
  destruct (wf_block _ _ _ _ W) as (Hp & Hm & H32 & Ha & _);
    [by eapply wf_nonnull|].
  unfold slot. split_and!; try nia.
  intros i Hi. apply Ha. nia.
Qed.

Lemma wf_count m t fl al :
  wf m t fl al -> Z.of_nat (length fl + length al) <= ulMaxHandleCount t.
Proof.
  intros W. destruct (decide (pFirstHandle t = 0)) as [E|E].
  - destruct (wf_fresh _ _ _ _ W E) as [-> ->]. pose proof (wf_cnt _ _ _ _ W). cbn. lia.
  - destruct (wf_block _ _ _ _ W E) as (_ & _ & _ & _ & k & _ & P).
    rewrite <- length_app, P. unfold slots. rewrite length_fmap, length_seq.
    unfold committed. pose proof (wf_cnt _ _ _ _ W). lia.
Qed.

(** ** The operations keep the invariant *)

Definition index_of (t : HANDLE_TABLE) (want_index : bool) (p : Z) : option Z :=
  if want_index then Some (u32 (p - pFirstHandle t) / ulHandleSize t) else None.

Lemma pop_free m t h fl al w H o :
  wf m t (h :: fl) al ->
  exists t', HndAllocateHandle m t w H o =
    Ret (NO_ERROR, m, t', Some (h, index_of t w H)) /\
  wf m t' fl (h :: al) /\ same_shape t t'.
Proof.
  intros W. pose proof (good_size_bounds _ (wf_size _ _ _ _ W)) as Hb.
  destruct (wf_chain _ _ _ _ W) as (Hh & Hnz & n & Hn & Hc).
  exists (set_next t n). split_and!; [|split|done].
  - unfold HndAllocateHandle. rewrite Hh.
    destruct (Z.eqb_spec h 0); [done|]. cbn. rewrite Hh, Hn; cbn.
    destruct (Z.eqb_spec (ulHandleSize t) 0); [lia|]. by destruct w.
  - apply W.
  - apply W.
  - apply W.
  - intros E. by destruct (wf_fresh _ _ _ _ W E).
  - intros E. destruct (wf_block _ _ _ _ W E) as (? & ? & ? & ? & k & ? & P).
    split_and!; try done. exists k. split; [done|].
    change (fl ++ h :: al ≡ₚ slots t 0 (committed t k)).
    by rewrite <- P, <- Permutation_middle.
  - done.
Qed.

Lemma alloc_batches m t al w H o m' t' :
  wf m t [] al ->
  HndpAllocateSomeHandles m t o = Ret (NO_ERROR, m', t') -> pNextFree t' <> 0 ->
  HndAllocateHandle m t w H o = HndAllocateHandle m' t' w H o.
Proof.
  intros W E Hn. unfold HndAllocateHandle. pose proof (wf_chain _ _ _ _ W) as Hc.
  cbn in Hc. rewrite Hc. destruct (Z.eqb_spec 0 0); [|done]. rewrite E.
  destruct (Z.eqb_spec (pNextFree t') 0); done.
Qed.

Lemma alloc_succeeds m t fl al w H o :
  wf m t fl al -> (fl = [] -> can_reserve m t o) ->
  Z.of_nat (length al) < ulMaxHandleCount t ->
  exists m' t' fl' h i,
    HndAllocateHandle m t w H o = Ret (NO_ERROR, m', t', Some (h, i)) /\
    wf m' t' fl' (h :: al) /\ same_shape t t' /\ keeps t al m m'.
Proof.
  intros W Ho Hl. destruct fl as [|h fl].
  - destruct (HndpAllocateSomeHandles_spec m t al o W (Ho eq_refl) Hl)
      as (m1 & t1 & fl1 & E1 & W1 & Hne & [S1 C1] & K1).
    destruct fl1 as [|h fl1]; [done|].
    destruct (pop_free m1 t1 h fl1 al w H o W1) as (t2 & E2 & W2 & [S2 C2]).
    exists m1, t2, fl1, h, (index_of t1 w H). split_and!; [|done| |done].
    + rewrite <- E2. eapply alloc_batches; [done..|].
      by destruct (wf_chain _ _ _ _ W1) as (-> & ? & _).
    + split; congruence.
  - destruct (pop_free m t h fl al w H o W) as (t2 & E2 & W2 & S2).
    exists m, t2, fl, h, (index_of t w H). split_and!; try done.
Qed.

Lemma alloc_fails_when_full m t fl al w H o :
  wf m t fl al -> Z.of_nat (length al) = ulMaxHandleCount t ->
  HndAllocateHandle m t w H o = Ret (ERROR_TOO_MANY_HANDLES, m, t, None).
Proof.
  intros W Hl. pose proof (wf_count _ _ _ _ W). pose proof (wf_cnt _ _ _ _ W).
  pose proof (good_size_bounds _ (wf_size _ _ _ _ W)) as Hb.
  destruct fl as [|? ?]; [|cbn in *; lia].
  pose proof (wf_chain _ _ _ _ W) as Hc; cbn in Hc.
  assert (Hf : pFirstHandle t <> 0).
  { intros E. destruct (wf_fresh _ _ _ _ W E) as [_ ->]. cbn in *. lia. }
  destruct (wf_block _ _ _ _ W Hf) as (Hp & Hm & _ & _ & k & Hk & P). cbn in P.
  assert (length al = committed t k) as Hlen.
  { rewrite P. unfold slots. by rewrite length_fmap, length_seq. }
  unfold HndAllocateHandle. rewrite Hc; cbn.
  unfold HndpAllocateSomeHandles, reserve.
  destruct (Z.eqb_spec (pFirstHandle t) 0); [done|]. rewrite Hc; cbn.
  destruct (Z.leb_spec (pMaxHandle t) (pReservedMemory t)) as [|Hlt]; [done|exfalso].
  unfold committed, per_page, CommitSize in *. nia.
Qed.

Lemma wf_perm m t fl al al' : al ≡ₚ al' -> wf m t fl al -> wf m t fl al'.
Proof.
  intros P W. split; try apply W.
  - intros E. destruct (wf_fresh _ _ _ _ W E) as [-> ->].
    split; [done|]. by apply Permutation_nil_l in P.
  - intros E. destruct (wf_block _ _ _ _ W E) as (? & ? & ? & ? & k & ? & Q).
    split_and!; try done. exists k. split; [done|]. by rewrite <- P.
Qed.

(** A write inside a handle that is in use does not disturb the table. *)
Lemma wf_user_write m m' t fl al h :
  wf m t fl al -> h ∈ al -> upd_in h (ulHandleSize t) m m' -> wf m' t fl al.
Proof.
  intros W Hh U. pose proof (good_size_bounds _ (wf_size _ _ _ _ W)) as Hb.
  split; try apply W.
  - intros E. destruct (wf_block _ _ _ _ W E) as (? & ? & ? & Ha & k & ? & Q).
    split_and!; try done; [by eapply upd_in_allocated|eauto].
  - eapply chain_frame; [apply W|exact U|]. intros x Hx.
    assert (x <> h) as Hne.
    { intros ->. pose proof (wf_NoDup _ _ _ _ W) as N.
      apply NoDup_app in N as (_ & N & _). by apply (N h). }
    destruct (wf_disjoint m t fl al x h W); [mem_solve|mem_solve|done|lia..].
Qed.

Lemma free_succeeds m t fl al h :
  wf m t fl (h :: al) ->
  exists m' t', HndFreeHandle m t h = Ret (NO_ERROR, m', t') /\
    wf m' t' (h :: fl) al /\ same_shape t t' /\ keeps t al m m'.
Proof.
  intros W. pose proof (good_size_bounds _ (wf_size _ _ _ _ W)) as Hb.
  destruct (wf_in_block _ _ _ _ h W) as (Hp & _ & _ & H32 & Ha); [mem_solve|].
  unfold HndFreeHandle.
  destruct (memset_total (Z.to_nat (ulHandleSize t)) m h 0) as [m1 E1];
    [by rewrite Z2Nat.id by lia|].
  pose proof (memset_upd _ _ _ _ _ E1) as U1. rewrite Z2Nat.id in U1 by lia.
  destruct (st32_total m1 h (pNextFree t)) as [m2 E2].
  { eapply upd_in_allocated; [exact U1|]. intros i Hi. apply Ha. lia. }
  assert (U : upd_in h (ulHandleSize t) m m2).
  { eapply upd_in_trans; [exact U1|].
    eapply upd_in_weaken; [by eapply st32_upd|lia..]. }
  exists m2, (set_next t h). rewrite E1; cbn. rewrite E2; cbn.
  pose proof (wf_user_write m m2 t fl (h :: al) h W ltac:(mem_solve) U) as W2.
  split_and!; [done| |done|].
  - split; try apply W2.
    + intros E. by destruct (wf_fresh _ _ _ _ W2 E).
    + intros E. destruct (wf_block _ _ _ _ W2 E) as (? & ? & ? & ? & k & ? & Q).
      split_and!; try done. exists k. split; [done|].
      change (h :: fl ++ al ≡ₚ slots t 0 (committed t k)).
      by rewrite <- Q, <- Permutation_middle.
    + cbn. split_and!; [done|lia|]. eexists. split; [by eapply ld32_st32|].
      rewrite u32_id; [apply W2|]. unfold is_u32.
      pose proof (wf_chain _ _ _ _ W2) as Hc.
      destruct fl as [|x fl]; cbn in Hc; [lia|]. destruct Hc as (-> & _ & _).
      destruct (wf_in_block _ _ _ _ x W2) as (? & _ & _ & ? & _); [mem_solve|]. lia.
  - intros x i Hx Hi. destruct U as [U _]. apply U.
    assert (x <> h) as Hne.
    { intros ->. pose proof (wf_NoDup _ _ _ _ W) as N.
      apply NoDup_app in N as (_ & _ & N). by inversion N. }
    destruct (wf_disjoint m t fl (h :: al) x h W); [mem_solve|mem_solve|done|lia..].
Qed.

(** ** Runs of the component

    The states a table goes through from [HndInitializeHandleTable] on, under
    any sequence of allocations, releases of handles in use, and writes of
    clients inside the handles they hold. *)
Inductive reachable (cnt size : Z) : mem -> HANDLE_TABLE -> list Z -> Prop :=
  | reach_init m pt t :
      HndInitializeHandleTable cnt size pt = (NO_ERROR, Some t) ->
      reachable cnt size m t []
  | reach_alloc m t al w H o m' t' h i :
      reachable cnt size m t al -> can_reserve m t o ->
      HndAllocateHandle m t w H o = Ret (NO_ERROR, m', t', Some (h, i)) ->
      reachable cnt size m' t' (h :: al)
  | reach_free m t al al' h rc m' t' :
      reachable cnt size m t al -> al ≡ₚ h :: al' ->
      HndFreeHandle m t h = Ret (rc, m', t') ->
      reachable cnt size m' t' al'
  | reach_write m t al h m' :
      reachable cnt size m t al -> h ∈ al -> upd_in h size m m' ->
      reachable cnt size m' t al.

Definition init_ok (cnt size : Z) : Prop :=
  good_size size /\ 0 < cnt /\ cnt * size < 2 ^ 32.

Lemma reachable_wf cnt size m t al :
  init_ok cnt size -> reachable cnt size m t al ->
  exists fl, wf m t fl al /\ ulHandleSize t = size /\ ulMaxHandleCount t = cnt.
Proof.
  intros (Hs & Hc & Hf) R.
  induction R as [m pt t E|m t al w H o m' t' h i R (fl & W & Es & Ec) Ho E
    |m t al al' h rc m' t' R (fl & W & Es & Ec) P E|m t al h m' R (fl & W & Es & Ec) Hh U].
  - unfold HndInitializeHandleTable in E. destruct pt; [|done].
    destruct ((cnt =? 0) || (size =? 0)) eqn:B; [done|].
    injection E as <-. exists []. split_and!; [|done..]. split; cbn; try done.
  - destruct (decide (Z.of_nat (length al) < ulMaxHandleCount t)) as [Hl|Hl].
    + destruct (alloc_succeeds m t fl al w H o W) as (m1 & t1 & fl1 & h1 & i1 & E1 & W1 & [S1 C1] & _);
        [done..|]. rewrite E in E1. injection E1 as <- <- <- <-.
      exists fl1. split_and!; [done|congruence..].
    + rewrite (alloc_fails_when_full m t fl al w H o W) in E; [done|].
      pose proof (wf_count _ _ _ _ W). lia.
  - destruct (free_succeeds m t fl al' h) as (m1 & t1 & E1 & W1 & [S1 C1] & _);
      [by eapply wf_perm|]. rewrite E in E1. injection E1 as _ <- <-.
    exists (h :: fl). split_and!; [done|congruence..].
  - exists fl. split_and!; [|done..]. subst size. by eapply wf_user_write.
Qed.

(** ** Properties *)

(** C39: Whatever the clients do, the handles in use at any moment are
    pairwise disjoint slots of the reserved block, at most
    [ulMaxHandleCount] of them: no handle is given out twice.  The slot size is a power
    of two up to a page ([slots_overlap_odd_size] shows others overlap). *)
Theorem handles_in_use_disjoint cnt size m t al :
  init_ok cnt size -> reachable cnt size m t al ->
  NoDup al /\ Z.of_nat (length al) <= cnt /\
  (forall x, x ∈ al -> pFirstHandle t <= x /\ x + size <= pMaxHandle t /\
     allocated m x size) /\
  (forall x y, x ∈ al -> y ∈ al -> x <> y -> x + size <= y \/ y + size <= x).
Proof.
  intros H0 R. destruct (reachable_wf _ _ _ _ _ H0 R) as (fl & W & <- & <-).
  split_and!.
  - pose proof (wf_NoDup _ _ _ _ W) as N. by apply NoDup_app in N as (_ & _ & N).
  - pose proof (wf_count _ _ _ _ W). lia.
  - intros x Hx. destruct (wf_in_block _ _ _ _ x W) as (_ & ? & ? & _ & ?);
      [mem_solve|done].
  - intros x y Hx Hy. apply (wf_disjoint _ _ _ _ _ _ W); mem_solve.
Qed.

(** Allocation is complete: while fewer than [ulMaxHandleCount] handles
    are in use it returns a new one, and it reports ERROR_TOO_MANY_HANDLES,
    changing nothing, exactly when all are in use.  The contents of the
    handles in use survive. *)
Theorem allocation_complete cnt size m t al w H o :
  init_ok cnt size -> reachable cnt size m t al -> can_reserve m t o ->
  (Z.of_nat (length al) < cnt -> exists m' t' h i,
     HndAllocateHandle m t w H o = Ret (NO_ERROR, m', t', Some (h, i)) /\
     (h ∉ al) /\ (forall x j, x ∈ al -> x <= j < x + size -> m' !! j = m !! j)) /\
  (Z.of_nat (length al) = cnt ->
     HndAllocateHandle m t w H o = Ret (ERROR_TOO_MANY_HANDLES, m, t, None)).
Proof.
  intros H0 R Ho. destruct (reachable_wf _ _ _ _ _ H0 R) as (fl & W & <- & <-).
  split; intros Hl.
  - destruct (alloc_succeeds m t fl al w H o W) as (m1 & t1 & fl1 & h & i & E & W1 & _ & K);
      [done..|]. exists m1, t1, h, i. split_and!; [done| |done].
    pose proof (wf_NoDup _ _ _ _ W1) as N. apply NoDup_app in N as (_ & _ & N).
    by inversion N.
  - by eapply alloc_fails_when_full.
Qed.

(** Releasing a handle succeeds, leaves the contents of the other handles
    alone, and the next allocation returns that same handle. *)
Theorem free_then_allocate cnt size m t al al' h w H o :
  init_ok cnt size -> reachable cnt size m t al -> al ≡ₚ h :: al' ->
  exists m' t', HndFreeHandle m t h = Ret (NO_ERROR, m', t') /\
    (forall x j, x ∈ al' -> x <= j < x + size -> m' !! j = m !! j) /\
    exists t'' i, HndAllocateHandle m' t' w H o = Ret (NO_ERROR, m', t'', Some (h, i)).
Proof.
  intros H0 R P. destruct (reachable_wf _ _ _ _ _ H0 R) as (fl & W & <- & <-).
  destruct (free_succeeds m t fl al' h) as (m1 & t1 & E1 & W1 & _ & K);
    [by eapply wf_perm|].
  destruct (pop_free m1 t1 h fl al' w H o W1) as (t2 & E2 & _).
  exists m1, t1. split_and!; [done|done|eauto].
Qed.

Lemma land_ones_size s x : good_size s -> Z.land x (u32 (s - 1)) = x mod s.
Proof.
  intros Hs. pose proof (good_size_bounds _ Hs). destruct Hs as (k & Hk & ->).
  rewrite u32_id by (unfold is_u32; lia).
  rewrite <- Z.land_ones by lia. f_equal. rewrite Z.ones_equiv. lia.
Qed.

(** [HndIsValidHandle] on a handle in use tells whether its address is a
    multiple of the slot size and its first word is odd.  The first condition
    depends on where [malloc] put the block: when the block is not aligned to
    the slot size no handle is ever valid. *)
Theorem valid_handle_spec cnt size m t al x :
  init_ok cnt size -> reachable cnt size m t al -> x ∈ al ->
  exists next, ld32 m x = Ret next /\
  HndIsValidHandle m t x =
    Ret (((pFirstHandle t) mod size =? 0) && Z.odd next).
Proof.
  intros H0 R Hx. destruct (reachable_wf _ _ _ _ _ H0 R) as (fl & W & <- & <-).
  pose proof (good_size_bounds _ (wf_size _ _ _ _ W)) as Hb.
  assert (Hx' : x ∈ fl ++ al) by mem_solve.
  destruct (wf_in_block _ _ _ _ x W Hx') as (Hp & Hlo & Hhi & _ & Ha).
  assert (exists next, ld32 m x = Ret next) as [next En].
  { unfold ld32, ld8.
    destruct (Ha x) as [b0 ->]; [lia|]. destruct (Ha (x + 1)) as [b1 ->]; [lia|].
    destruct (Ha (x + 2)) as [b2 ->]; [lia|]. destruct (Ha (x + 3)) as [b3 ->]; [lia|].
    cbn. eauto. }
  exists next. split; [done|].
  destruct (wf_block _ _ _ _ W) as (_ & Hm & _ & _ & k & Hk & P);
    [by eapply wf_nonnull|].
  rewrite P in Hx'. apply elem_of_slots in Hx' as (j & Hj & Hxj).
  unfold HndIsValidHandle. rewrite land_ones_size by apply W.
  assert (x mod ulHandleSize t = (pFirstHandle t) mod ulHandleSize t) as ->.
  { rewrite Hxj. unfold slot. by rewrite Z.mod_add by lia. }
  destruct (Z.leb_spec (pFirstHandle t) x); [|lia].
  destruct (Z.ltb_spec x (pReservedMemory t)) as [|Hge]; cbn.
  - destruct (_ =? 0); [|done]. rewrite En; cbn.
    change 1 with (Z.ones 1). rewrite Z.land_ones, Zmod_odd by lia.
    by destruct (Z.odd next).
  - exfalso. unfold committed, per_page, CommitSize, slot in *. nia.
Qed.

Lemma some_handles_first m t o rc m' t' :
  pFirstHandle t <> 0 -> HndpAllocateSomeHandles m t o = Ret (rc, m', t') ->
  pFirstHandle t' = pFirstHandle t /\ ulHandleSize t' = ulHandleSize t.
Proof.
  intros Hf. unfold HndpAllocateSomeHandles, reserve.
  generalize (link_page page_fuel). intros L.
  destruct (Z.eqb_spec (pFirstHandle t) 0); [done|].
  destruct (pNextFree t =? 0); [|by intros [= <- <- <-]].
  destruct (pMaxHandle t <=? pReservedMemory t); [by intros [= <- <- <-]|].
  destruct (L m t 0 0) as [[m1 fh]| | |]; try done; cbn.
  destruct (fh =? 0); [by intros [= <- <- <-]|].
  destruct (st32 m1 fh 0); try done; cbn. by intros [= <- <- <-].
Qed.

(** A successful allocation from a reserved table stores this index. *)
Lemma alloc_index m t H o m' t' h i :
  pFirstHandle t <> 0 ->
  HndAllocateHandle m t true H o = Ret (NO_ERROR, m', t', Some (h, i)) ->
  i = index_of t true H /\ pFirstHandle t' = pFirstHandle t /\
  ulHandleSize t' = ulHandleSize t.
Proof.
  intros Hf. unfold HndAllocateHandle, index_of.
  destruct (if pNextFree t =? 0 then _ else _) as [[[rc m1] t1]| | |] eqn:E;
    try (by intros); cbn.
  assert (pFirstHandle t1 = pFirstHandle t /\ ulHandleSize t1 = ulHandleSize t) as [F S].
  { revert E. destruct (pNextFree t =? 0); [by apply some_handles_first|by intros [= <- <- <-]]. }
  destruct (negb _); [done|].
  destruct (ld32 m1 (pNextFree t1)) as [n| | |]; try (by intros); cbn.
  destruct (ulHandleSize t1 =? 0); cbn; [by intros|]. intros [= <- <- <- <-]; cbn.
  by rewrite F, S.
Qed.

(** Where the out-parameter version goes wrong: the index it stores is
    computed from the address of the caller's variable, so that two
    allocations into the same variable report the same index for different
    handles. *)
Theorem index_ignores_handle cnt size m t al H o m' t' h i m'' t'' h2 i2 o2 :
  init_ok cnt size -> reachable cnt size m t al -> pFirstHandle t <> 0 ->
  HndAllocateHandle m t true H o = Ret (NO_ERROR, m', t', Some (h, i)) ->
  HndAllocateHandle m' t' true H o2 = Ret (NO_ERROR, m'', t'', Some (h2, i2)) ->
  h2 <> h /\ i2 = i.
Proof.
  intros H0 R Hf E1 E2.
  assert (R1 : reachable cnt size m' t' (h :: al)).
  { eapply reach_alloc; [done| |done]. by intros ?. }
  destruct (reachable_wf _ _ _ _ _ H0 R1) as (fl1 & W1 & _ & _).
  assert (Hf1 : pFirstHandle t' <> 0) by (eapply (wf_nonnull _ _ _ _ h W1); mem_solve).
  assert (R2 : reachable cnt size m'' t'' (h2 :: h :: al)).
  { eapply reach_alloc; [done| |done]. by intros ?. }
  destruct (reachable_wf _ _ _ _ _ H0 R2) as (fl2 & W2 & _ & _).
  split.
  - pose proof (wf_NoDup _ _ _ _ W2) as N. apply NoDup_app in N as (_ & _ & N).
    inversion N as [|? ? Hni]. intros ->. apply Hni. by left.
  - apply alloc_index in E1 as [-> [F1 S1]], E2 as [-> _]; [|done..].
    unfold index_of. by rewrite F1, S1.
Qed.

(** Both versions of the allocator take the same step. *)
Lemma os2fs_same_step m t H o m' t' h i :
  HndAllocateHandle m t true H o = Ret (NO_ERROR, m', t', Some (h, i)) ->
  os2fs_HndAllocateHandle m t true o = Ret (NO_ERROR, m', t', index_of t' true h).
Proof.
  unfold HndAllocateHandle, os2fs_HndAllocateHandle, index_of.
  destruct (if pNextFree t =? 0 then _ else _) as [[[rc m1] t1]| | |];
    try (by intros); cbn.
  destruct (negb _); [done|].
  destruct (ld32 m1 (pNextFree t1)) as [n| | |]; try (by intros); cbn.
  destruct (ulHandleSize t1 =? 0); cbn; [by intros|]. by intros [= <- <- <- _].
Qed.

(** The copy in os2fs takes the same step and stores the right index: the
    slot that [HndIsValidIndexHandle] computes from the index is the handle
    that was taken from the free list. *)
Theorem os2fs_index_roundtrip cnt size m t al H o :
  init_ok cnt size -> reachable cnt size m t al -> can_reserve m t o ->
  Z.of_nat (length al) < cnt ->
  exists m' t' h i i',
    HndAllocateHandle m t true H o = Ret (NO_ERROR, m', t', Some (h, i')) /\
    os2fs_HndAllocateHandle m t true o = Ret (NO_ERROR, m', t', Some i) /\
    0 <= i < cnt /\ pFirstHandle t' + u32 (i * ulHandleSize t') = h.
Proof.
  intros H0 R Ho Hl. destruct (reachable_wf _ _ _ _ _ H0 R) as (fl & W & <- & <-).
  destruct (alloc_succeeds m t fl al true H o W) as
    (m1 & t1 & fl1 & h & i & E & W1 & [S1 C1] & _); [done..|].
  pose proof (good_size_bounds _ (wf_size _ _ _ _ W1)) as Hb.
  destruct (wf_slot _ _ _ _ h W1) as (j & Hj & Hh); [mem_solve|].
  destruct (wf_in_block _ _ _ _ h W1) as (_ & _ & _ & H32 & _); [mem_solve|].
  pose proof (wf_block _ _ _ _ W1 (wf_nonnull _ _ _ _ h W1 ltac:(mem_solve))) as (Hp & _).
  exists m1, t1, h, (Z.of_nat j), i. split_and!; [done| |lia|lia|].
  - rewrite (os2fs_same_step _ _ _ _ _ _ _ _ E). unfold index_of. do 3 f_equal.
    rewrite Hh. unfold slot in *. rewrite u32_id by (unfold is_u32; lia).
    replace (pFirstHandle t1 + _ - _) with (Z.of_nat j * ulHandleSize t1) by lia.
    apply Z.div_mul. lia.
  - rewrite u32_id; [done|]. unfold slot, is_u32 in *. lia.
Qed.

(** The result of [malloc] is not tested: when the first allocation finds
    no memory the code writes through a null pointer. *)
Theorem malloc_failure_undefined cnt size pt t m w H o :
  init_ok cnt size -> HndInitializeHandleTable cnt size pt = (NO_ERROR, Some t) ->
  ma_addr o = 0 -> m !! 0 = None ->
  HndAllocateHandle m t w H o = Undef.
Proof.
  intros (Hs & Hc & Hf) E Ho H0. pose proof (good_size_bounds _ Hs) as Hb.
  unfold HndInitializeHandleTable in E. destruct pt as [t0|]; [|done].
  destruct ((cnt =? 0) || (size =? 0)); [done|]. injection E as <-.
  unfold HndAllocateHandle, HndpAllocateSomeHandles, reserve, malloc; cbn.
  rewrite Ho; cbn. rewrite u32_id, Z.add_0_l by (unfold is_u32; nia).
  destruct (Z.leb_spec (cnt * size) 0); [nia|].
  change page_fuel with (S 4096). rewrite link_page_S. cbn.
  change (0 + 0) with 0. destruct (Z.leb_spec (cnt * size) 0); [nia|].
  by rewrite st32_null.
Qed.

(** A slot size that does not divide the page makes slots overlap: the third
    handle of a table of 3000-byte slots lies inside the second. *)
Definition alloc3 (size : Z) : C (Z * Z * Z) :=
  let o := {| ma_addr := 65536; ma_fill := fun _ => 0 |} in
  '(_, m, t, h1) ← HndAllocateHandle ∅ (mkTable 3 size 0 0 0 0) false 0 o;
  '(_, m, t, h2) ← HndAllocateHandle m t false 0 o;
  '(_, m, t, h3) ← HndAllocateHandle m t false 0 o;
  match h1, h2, h3 with
  | Some (a, _), Some (b, _), Some (c, _) => Ret (a, b, c)
  | _, _, _ => Undef
  end.

Theorem slots_overlap_odd_size :
  alloc3 3000 = Ret (65536, 68536, 69632) /\ 69632 < 68536 + 3000.
Proof. split; [vm_compute; reflexivity|lia]. Qed.

(** ** Instances of the properties *)

Definition demo_answer : malloc_answer := {| ma_addr := 65536; ma_fill := fun _ => 7 |}.
Definition demo_table : HANDLE_TABLE := mkTable 4 8 0 0 0 0.
Definition demo_alloc (m : mem) (t : HANDLE_TABLE) : mem * HANDLE_TABLE * Z :=
  match HndAllocateHandle m t true 1024 demo_answer with
  | Ret (_, m, t, Some (h, _)) => (m, t, h)
  | _ => (m, t, 0)
  end.
Definition demo1 := demo_alloc ∅ demo_table.
Definition demo2 := demo_alloc (fst (fst demo1)) (snd (fst demo1)).

Lemma demo_ok : init_ok 4 8.
Proof. split; [by exists 3|lia]. Qed.

Lemma demo_init : reachable 4 8 ∅ demo_table [].
Proof. by apply reach_init with (pt := Some demo_table). Qed.

Lemma demo_can_reserve : can_reserve ∅ demo_table demo_answer.
Proof. intros _. split; [done|]. right. cbn. split_and!; [lia|lia|done]. Qed.

Lemma demo1_reachable : reachable 4 8 (fst (fst demo1)) (snd (fst demo1)) [65536].
Proof.
  eapply reach_alloc with (w := true) (H := 1024) (o := demo_answer)
    (i := Some (u32 (1024 - 65536) / 8)); [apply demo_init|apply demo_can_reserve|].
  vm_compute. reflexivity.
Qed.

Lemma demo2_reachable : reachable 4 8 (fst (fst demo2)) (snd (fst demo2)) [65544; 65536].
Proof.
  eapply reach_alloc with (w := true) (H := 1024) (o := demo_answer)
    (i := Some (u32 (1024 - 65536) / 8));
    [apply demo1_reachable| |vm_compute; reflexivity].
  intros E. vm_compute in E. discriminate.
Qed.

#[local] Abbreviation dm := (fst (fst demo2)).
#[local] Abbreviation dt := (snd (fst demo2)).

Lemma handles_in_use_disjoint_witness :
  NoDup [65544; 65536] /\ Z.of_nat (length [65544; 65536]) <= 4 /\
  (forall x, x ∈ [65544; 65536] -> pFirstHandle dt <= x /\ x + 8 <= pMaxHandle dt /\
     allocated dm x 8) /\
  (forall x y, x ∈ [65544; 65536] -> y ∈ [65544; 65536] -> x <> y ->
     x + 8 <= y \/ y + 8 <= x).
Proof.
  exact (handles_in_use_disjoint 4 8 dm dt [65544; 65536] demo_ok demo2_reachable).
Defined.

Lemma demo2_can_reserve : can_reserve dm dt demo_answer.
Proof. intros E. vm_compute in E. discriminate. Qed.

Lemma allocation_complete_witness :
  exists m' t' h i,
     HndAllocateHandle dm dt true 1024 demo_answer = Ret (NO_ERROR, m', t', Some (h, i)) /\
     (h ∉ [65544; 65536]) /\
     (forall x j, x ∈ [65544; 65536] -> x <= j < x + 8 -> m' !! j = dm !! j).
Proof.
  apply (proj1 (allocation_complete 4 8 dm dt [65544; 65536] true 1024 demo_answer
    demo_ok demo2_reachable demo2_can_reserve)). vm_compute. reflexivity.
Defined.

Lemma free_then_allocate_witness :
  exists m' t', HndFreeHandle dm dt 65544 = Ret (NO_ERROR, m', t') /\
    (forall x j, x ∈ [65536] -> x <= j < x + 8 -> m' !! j = dm !! j) /\
    exists t'' i, HndAllocateHandle m' t' false 0 demo_answer =
      Ret (NO_ERROR, m', t'', Some (65544, i)).
Proof.
  exact (free_then_allocate 4 8 dm dt [65544; 65536] [65536] 65544 false 0 demo_answer
    demo_ok demo2_reachable (reflexivity _)).
Defined.

Lemma valid_handle_spec_witness :
  exists next, ld32 dm 65536 = Ret next /\
  HndIsValidHandle dm dt 65536 =
    Ret (((pFirstHandle dt) mod 8 =? 0) && Z.odd next).
Proof.
  apply (valid_handle_spec 4 8 dm dt [65544; 65536] 65536 demo_ok demo2_reachable).
  apply list_elem_of_further, list_elem_of_here.
Defined.

Lemma demo2_nonnull : pFirstHandle dt <> 0.
Proof. vm_compute. discriminate. Qed.

Definition demo3 := demo_alloc dm dt.
Definition demo4 := demo_alloc (fst (fst demo3)) (snd (fst demo3)).

Lemma index_ignores_handle_witness :
  snd demo4 <> snd demo3 /\
  Some (u32 (1024 - 65536) / 8) = Some (u32 (1024 - 65536) / 8).
Proof.
  apply (index_ignores_handle 4 8 dm dt [65544; 65536] 1024 demo_answer
    (fst (fst demo3)) (snd (fst demo3)) (snd demo3) (Some (u32 (1024 - 65536) / 8))
    (fst (fst demo4)) (snd (fst demo4)) (snd demo4) (Some (u32 (1024 - 65536) / 8))
    demo_answer demo_ok demo2_reachable demo2_nonnull);
  vm_compute; reflexivity.
Defined.

Lemma os2fs_index_roundtrip_witness :
  exists m' t' h i i',
    HndAllocateHandle dm dt true 1024 demo_answer = Ret (NO_ERROR, m', t', Some (h, i')) /\
    os2fs_HndAllocateHandle dm dt true demo_answer = Ret (NO_ERROR, m', t', Some i) /\
    0 <= i < 4 /\ pFirstHandle t' + u32 (i * ulHandleSize t') = h.
Proof.
  apply (os2fs_index_roundtrip 4 8 dm dt [65544; 65536] 1024 demo_answer
    demo_ok demo2_reachable demo2_can_reserve). vm_compute. reflexivity.
Defined.

Lemma malloc_failure_undefined_witness :
  HndAllocateHandle ∅ demo_table true 1024 {| ma_addr := 0; ma_fill := fun _ => 0 |} = Undef.
Proof.
  apply (malloc_failure_undefined 4 8 (Some demo_table) demo_table ∅ true 1024
    {| ma_addr := 0; ma_fill := fun _ => 0 |} demo_ok); reflexivity.
Defined.
