(* ===== verification/MemMgr.v ===== *)
(** * The memory-area registry ([OS2/Server/shared/lib/memmgr/memmgr.c])

    A list of areas (start and size) behind a sentinel; the loader registers
    each object it maps and asks for places that are free.  The file models
    all its operations, proves the registry keeps its areas apart and that the
    search for a free place is right on page-granular, sorted areas. *)
From stdpp Require Import sorting.
From S2P Require Import Prelude.

(** [struct t_mem_area]; the [next] links are the order of a list. *)
Record t_mem_area := mkArea { start : Z; size : Z }.

(** The registry: the sentinel [root_area] and the areas linked behind it. *)
Definition registry : Type := t_mem_area * list t_mem_area.

Definition init_memmgr : registry := (mkArea 0 0, []).

Definition page_sz : Z := 4096.

Definition round_up_to_4KiB (i : Z) : Z :=
  let align_i := i mod page_sz in
  if align_i =? 0 then i else u32 (i + (page_sz - align_i)).

Definition area_end (el : t_mem_area) : Z := u32 (size el + start el).

(** The first test: one end of the block lies in the area. *)
Definition touches (i_start i_size : Z) (el : t_mem_area) : bool :=
  ((start el <=? i_start) && (i_start <=? area_end el)) ||
  ((start el <=? u32 (i_size + i_start)) && (u32 (i_size + i_start) <=? area_end el)).

(** The second test: the block covers the area. *)
Definition covers (i_start i_size : Z) (el : t_mem_area) : bool :=
  (i_start <=? start el) && (area_end el <=? u32 (i_size + i_start)).

(** The two updates of [start_pos] for one area; the tests of both look at
    the position before the first update. *)
Definition skip (i_size start_pos : Z) (el : t_mem_area) : Z :=
  let i_start := start_pos in
  let start_pos := if touches i_start i_size el
                   then u32 (start_pos + area_end el) else start_pos in
  if covers i_start i_size el then u32 (start_pos + area_end el) else start_pos.

(** The loop walks to the last area and the code after it treats the last
    area once more. *)
Fixpoint seek_loop (i_size start_pos : Z) (el : t_mem_area) (next : list t_mem_area) : Z :=
  match next with
  | [] => skip i_size start_pos el
  | el' :: next' => seek_loop i_size (skip i_size start_pos el') el' next'
  end.

Definition seek_free_mem (r : registry) (i_size : Z) : Z :=
  let i_size := round_up_to_4KiB i_size in
  round_up_to_4KiB (seek_loop i_size 0 r.1 r.2).

Fixpoint used_loop (p_start i_size : Z) (el : t_mem_area) (next : list t_mem_area) : bool :=
  match next with
  | [] =>
      if touches p_start i_size el then true
      else if covers p_start i_size el then true else false
  | el' :: next' =>
      if touches p_start i_size el' then true
      else if covers p_start i_size el' then true
      else used_loop p_start i_size el' next'
  end.

Definition is_mem_used (r : registry) (p_start i_size : Z) : bool :=
  used_loop p_start i_size r.1 r.2.

(** [malloc_ok] tells whether [malloc] found memory for the list node. *)
Definition alloc_mem_area (r : registry) (p_start i_size : Z) (malloc_ok : bool)
    : Z * registry :=
  if is_mem_used r p_start i_size then (0, r)
  else if negb malloc_ok then (0, r)
  else (1, (r.1, r.2 ++ [mkArea p_start i_size])).

Definition dealloc_mem_area (r : registry) (p_start : Z) : Z * registry := (0, r).

(** The lines [print_used_mem] logs: start and end of each area. *)
Fixpoint print_loop (el : t_mem_area) (next : list t_mem_area) : list (Z * Z) :=
  (start el, area_end el) ::
  match next with [] => [] | el' :: next' => print_loop el' next' end.
Definition print_used_mem (r : registry) : list (Z * Z) := print_loop r.1 r.2.

(** ** Specification *)

(** An area that ends below 4 GiB. *)
Definition fits (el : t_mem_area) : Prop :=
  0 <= start el /\ 0 <= size el /\ start el + size el < 2 ^ 32.

(** At least one byte lies between the two areas. *)
Definition apart (a b : t_mem_area) : Prop :=
  start a + size a < start b \/ start b + size b < start a.

(** No common byte. *)
Definition disjoint_areas (a b : t_mem_area) : Prop :=
  start a + size a <= start b \/ start b + size b <= start a.

Inductive registered : registry -> Prop :=
  | reg_init : registered init_memmgr
  | reg_alloc r p n ok : registered r -> fits (mkArea p n) ->
      registered (alloc_mem_area r p n ok).2
  | reg_dealloc r p : registered r -> registered (dealloc_mem_area r p).2.

(** The areas a request is compared with. *)
Definition tested_of (el : t_mem_area) (next : list t_mem_area) : list t_mem_area :=
  match next with [] => [el] | _ :: _ => next end.
Definition tested (r : registry) : list t_mem_area := tested_of r.1 r.2.

Definition page_granular (el : t_mem_area) : Prop :=
  (start el) mod page_sz = 0 /\ (size el) mod page_sz = 0.

Definition before (a b : t_mem_area) : Prop := start a + size a <= start b.

Definition sum_ends (l : list t_mem_area) : Z :=
  foldr (fun a s => start a + size a + s) 0 l.

(** ** Lemmas *)

Lemma area_end_fits el : fits el -> area_end el = start el + size el.
Proof. unfold fits, area_end. intros. rewrite u32_id; unfold is_u32; lia. Qed.

Lemma hit_spec p n el :
  fits el -> fits (mkArea p n) ->
  (touches p n el || covers p n el) = true <-> ~ apart (mkArea p n) el.
Proof.
  intros F G. unfold touches, covers, apart. rewrite area_end_fits by done.
  unfold fits in *; cbn in *. rewrite u32_id by (unfold is_u32; lia). blia.
Qed.

Lemma miss_apart p n el :
  fits el -> fits (mkArea p n) ->
  (touches p n el || covers p n el) = false <-> apart (mkArea p n) el.
Proof.
  intros F G. pose proof (hit_spec p n el F G) as H.
  destruct (touches p n el || covers p n el).
  - split; [done|]. intros A. exfalso. by apply H.
  - split; [|done]. intros _. unfold apart in *; cbn in *. lia.
Qed.

Lemma used_loop_spec p n next : forall el,
  used_loop p n el next = false <->
  Forall (fun a => (touches p n a || covers p n a) = false)
    (tested_of el next).
Proof.
  induction next as [|a next IH]; intros el; cbn [used_loop tested_of].
  - rewrite Forall_singleton. by destruct (touches p n el), (covers p n el).
  - rewrite Forall_cons.
    destruct (touches p n a) eqn:T; cbn; [intuition discriminate|].
    destruct (covers p n a) eqn:V; cbn; [intuition discriminate|].
    rewrite IH. destruct next; cbn [tested_of]; [|tauto].
    rewrite Forall_singleton, Forall_nil, T, V. cbn. tauto.
Qed.

Lemma is_mem_used_apart r p n :
  Forall fits (tested r) -> fits (mkArea p n) ->
  is_mem_used r p n = false <-> Forall (apart (mkArea p n)) (tested r).
Proof.
  intros F G. unfold is_mem_used. rewrite used_loop_spec.
  unfold tested in *.
  rewrite !Forall_forall in *. split; intros H a Ha.
  - apply (miss_apart p n a (F a Ha) G), H, Ha.
  - apply (miss_apart p n a (F a Ha) G), H, Ha.
Qed.

Lemma registered_areas r :
  registered r -> r.1 = mkArea 0 0 /\ Forall fits r.2 /\
  forall i j a b, r.2 !! i = Some a -> r.2 !! j = Some b -> i <> j -> apart a b.
Proof.
  induction 1 as [|r p n ok R (E & F & A) G|]; [|unfold alloc_mem_area|done].
  - by split_and!.
  - destruct (is_mem_used r p n) eqn:U; [done|]. destruct ok; [|done]. cbn.
    apply is_mem_used_apart in U; [|unfold tested, tested_of; destruct r as [? []]; cbn in *; subst;
      [repeat constructor; cbn; lia|done] | done].
    assert (B : forall a, a ∈ r.2 -> apart (mkArea p n) a).
    { rewrite Forall_forall in U. intros a Ha. apply U. unfold tested, tested_of.
      destruct r as [? []]; cbn in *; [by inversion Ha|done]. }
    split_and!; [done| |].
    + apply Forall_app. split; [done|by constructor].
    + intros i j a b [Ha|[Li [Zi Ha]%list_lookup_singleton_Some]]%lookup_app_Some
        [Hb|[Lj [Zj Hb]%list_lookup_singleton_Some]]%lookup_app_Some Hij.
      * by eapply A.
      * subst. apply list_elem_of_lookup_2, B in Ha. unfold apart in *. cbn in *. lia.
      * subst. apply list_elem_of_lookup_2, B in Hb. done.
      * lia.
Qed.

(** Whatever sequence of requests below 4 GiB the registry receives, the
    areas it holds have no byte in common. *)
Theorem areas_disjoint r i j a b :
  registered r -> r.2 !! i = Some a -> r.2 !! j = Some b -> i <> j ->
  disjoint_areas a b.
Proof.
  intros R Ha Hb Hij. destruct (registered_areas r R) as (_ & _ & A).
  specialize (A i j a b Ha Hb Hij). unfold apart, disjoint_areas in *. lia.
Qed.

Lemma tested_fits r : registered r -> Forall fits (tested r).
Proof.
  intros R. destruct (registered_areas r R) as (E & F & _). unfold tested, tested_of.
  destruct r as [? []]; cbn in *; [subst; by repeat constructor|done].
Qed.

(** A request is granted exactly when a byte separates it from each area
    of the registry (the sentinel stands in for an empty registry) and there
    is memory for the list node; the area is then appended to the registry,
    which a refused request leaves as it was. *)
Theorem alloc_mem_area_spec r p n ok :
  registered r -> fits (mkArea p n) ->
  (Forall (apart (mkArea p n)) (tested r) /\ ok = true /\
   alloc_mem_area r p n ok = (1, (r.1, r.2 ++ [mkArea p n]))) \/
  (~ (Forall (apart (mkArea p n)) (tested r) /\ ok = true) /\
   alloc_mem_area r p n ok = (0, r)).
Proof.
  intros R G. pose proof (is_mem_used_apart r p n (tested_fits r R) G) as U.
  unfold alloc_mem_area. destruct (is_mem_used r p n).
  - right. split; [|done]. intros [H _]. by apply U in H.
  - destruct ok; [left; split_and!; [by apply U|done..] |].
    right. split; [|done]. by intros [_ ?].
Qed.

(** *** The search for a free place *)

Lemma round_up_spec i :
  0 <= i -> i + page_sz <= 2 ^ 32 ->
  (round_up_to_4KiB i) mod page_sz = 0 /\ i <= round_up_to_4KiB i < i + page_sz.
Proof.
  unfold round_up_to_4KiB, page_sz. intros H0 H1.
  destruct (Z.eqb_spec (i mod 4096) 0); [lia|].
  rewrite u32_id by (unfold is_u32; lia). lia.
Qed.

Lemma round_up_id i : i mod page_sz = 0 -> round_up_to_4KiB i = i.
Proof. intros H. unfold round_up_to_4KiB. by rewrite H. Qed.

Lemma sum_ends_cons a l : sum_ends (a :: l) = start a + size a + sum_ends l.
Proof. reflexivity. Qed.
#[global] Arguments sum_ends : simpl never.

Lemma sum_ends_nonneg l : Forall fits l -> 0 <= sum_ends l.
Proof.
  induction 1 as [|a l F _ IH]; [done|]. rewrite sum_ends_cons.
  unfold fits in F. lia.
Qed.

Section seek.
Variable n : Z.
Hypothesis Hn : 0 <= n.

Lemma skip_ok S el :
  fits el -> 0 <= S -> S + n + 2 * (start el + size el) < 2 ^ 32 ->
  (skip n S el = S /\ apart (mkArea S n) el) \/
  (exists k, 1 <= k <= 2 /\ skip n S el = S + k * (start el + size el)).
Proof.
  intros F H0 Hb. assert (G : fits (mkArea S n)) by (unfold fits in *; cbn; lia).
  pose proof (hit_spec S n el F G) as Hh. pose proof (miss_apart S n el F G) as Hm.
  unfold skip. rewrite (area_end_fits el F).
  assert (U : forall x, 0 <= x <= S + n + 2 * (start el + size el) -> u32 x = x)
    by (intros; apply u32_id; unfold is_u32; lia).
  unfold fits in F. destruct (touches S n el), (covers S n el); cbn in *.
  - right. exists 2. rewrite (U (S + _)), U by lia. lia.
  - right. exists 1. rewrite U by lia. lia.
  - right. exists 1. rewrite U by lia. lia.
  - left. split; [done|]. by apply Hm.
Qed.

(** The position only moves past every area seen so far. *)
Lemma seek_loop_ok next : forall S el seen,
  Forall fits (el :: seen ++ next) -> Forall page_granular (el :: seen ++ next) ->
  StronglySorted before next -> Forall (fun b => Forall (before b) next) seen ->
  Forall (fun b => start b + size b <= start el + size el) seen ->
  Forall (disjoint_areas (mkArea S n)) seen ->
  0 <= S -> S mod page_sz = 0 ->
  S + n + 2 * (start el + size el) + 4 * sum_ends next < 2 ^ 32 ->
  let S' := seek_loop n S el next in
  Forall (disjoint_areas (mkArea S' n)) (seen ++ next) /\
  S' mod page_sz = 0 /\ 0 <= S' /\
  S' <= S + 2 * (start el + size el) + 4 * sum_ends next.
Proof.
  induction next as [|a next IH]; intros S el seen F P Hs Hseen Hel Hd H0 Hp Hb; cbn in *.
  - rewrite app_nil_r in *. inversion_clear F as [|? ? Fe F']. inversion_clear P as [|? ? Pe P'].
    change (sum_ends []) with 0 in *.
    assert (K : 0 <= start el + size el /\ (start el + size el) mod page_sz = 0)
      by (unfold fits, page_granular, page_sz in *; lia).
    destruct (skip_ok S el) as [[-> _]|(k & Hk & ->)]; [done|lia|lia|split_and!; [done|done|lia|lia]|].
    split_and!; [|unfold page_sz in *; assert (k = 1 \/ k = 2) as [-> | ->] by lia; lia|nia|nia].
    eapply Forall_impl; [exact Hel|]. intros b Hbe. right. cbn in *. nia.
  - inversion_clear F as [|? ? Fe F']. inversion_clear P as [|? ? Pe P'].
    apply Forall_app in F' as [Fs F']. inversion_clear F' as [|? ? Fa Fn].
    apply Forall_app in P' as [Ps P']. inversion_clear P' as [|? ? Pa Pn].
    inversion_clear Hs as [|? ? Hsn Ha].
    pose proof (sum_ends_nonneg _ Fn) as Hsum. rewrite sum_ends_cons in *.
    assert (K : 0 <= start a + size a /\ (start a + size a) mod page_sz = 0)
      by (unfold fits, page_granular, page_sz in *; lia).
    assert (Ke : 0 <= start el + size el) by (unfold fits in *; lia).
    assert (Hba : Forall (fun b => start b + size b <= start a) seen).
    { eapply Forall_impl; [exact Hseen|]. intros b HB. by inversion HB. }
    assert (St : exists S1, skip n S a = S1 /\ S <= S1 <= S + 2 * (start a + size a) /\
      S1 mod page_sz = 0 /\ Forall (disjoint_areas (mkArea S1 n)) (seen ++ [a])).
    { destruct (skip_ok S a) as [[-> Ap]|(k & Hk & ->)]; [done|lia|lia|exists S|eexists];
        (split_and!; [done|nia|nia| | ]); [done| | | ].
      - apply Forall_app. split; [done|]. apply Forall_singleton.
        unfold apart, disjoint_areas in *. lia.
      - unfold page_sz in *; assert (k = 1 \/ k = 2) as [-> | ->] by lia; lia.
      - apply Forall_app. split; [|apply Forall_singleton; right; cbn; nia].
        eapply Forall_impl; [exact Hba|]. intros b HB. right. cbn in *.
        unfold fits in Fa. nia. }
    destruct St as (S1 & -> & HS1 & HP1 & HD1).
    destruct (IH S1 a (seen ++ [a])) as (D' & P' & N' & B'); try done.
    + rewrite Forall_cons, !Forall_app, Forall_singleton. tauto.
    + rewrite Forall_cons, !Forall_app, Forall_singleton. tauto.
    + apply Forall_app. split; [|by apply Forall_singleton].
      eapply Forall_impl; [exact Hseen|]. intros b HB. by inversion HB.
    + apply Forall_app. split; [|by apply Forall_singleton].
      eapply Forall_impl; [exact Hba|]. intros b HB. cbn in *. unfold fits in Fa. lia.
    + lia.
    + lia.
    + split_and!; [by rewrite <- app_assoc in D'|done|done|lia].
Qed.
End seek.

(** On a registry of page-granular areas in ascending order the search
    returns a page-aligned place whose bytes belong to no area, as long as the
    sums it forms stay below 4 GiB. *)
Theorem seek_free_mem_sound l i_size :
  Forall fits l -> Forall page_granular l -> StronglySorted before l ->
  0 <= i_size -> i_size + page_sz + 4 * sum_ends l < 2 ^ 32 ->
  let p := seek_free_mem (mkArea 0 0, l) i_size in
  p mod page_sz = 0 /\ Forall (disjoint_areas (mkArea p i_size)) l.
Proof.
  intros F P Hs H0 Hb. pose proof (sum_ends_nonneg _ F) as Hsum.
  destruct (round_up_spec i_size) as [Hr1 Hr2]; [lia|lia|].
  unfold seek_free_mem; cbn. set (n := round_up_to_4KiB i_size) in *.
  destruct (seek_loop_ok n ltac:(lia) l 0 (mkArea 0 0) []) as (D & P' & _); cbn;
    try done; try lia; [by constructor|by constructor|].
  rewrite round_up_id by done. split; [done|].
  eapply Forall_impl; [exact D|]. intros a. unfold disjoint_areas; cbn. lia.
Qed.

(** The order of the areas matters: here the search skips the second area and
    lands on the first one. *)
Example seek_unsorted :
  let r := (mkArea 0 0, [mkArea 8192 4096; mkArea 0 4096]) in
  seek_free_mem r 4096 = 8192 /\ is_mem_used r 8192 4096 = true.
Proof. by vm_compute. Qed.

(** Where the search goes wrong: it adds the end of an area to the
    position instead of moving to it, so on areas that are not sorted it can
    return a place that is taken; the registration of that place is then
    refused. *)
Theorem seek_free_mem_used :
  exists r p, registered r /\ seek_free_mem r 4096 = p /\
    is_mem_used r p 4096 = true /\ alloc_mem_area r p 4096 true = (0, r).
Proof.
  exists (alloc_mem_area (alloc_mem_area init_memmgr 8192 4096 true).2 1 4095 true).2, 8192.
  split_and!; [|vm_compute; reflexivity..].
  apply reg_alloc; [apply reg_alloc; [apply reg_init|]|]; unfold fits; cbn; lia.
Qed.

(** ** Instances of the properties *)

Definition demo_registry : registry :=
  (alloc_mem_area (alloc_mem_area init_memmgr 65536 4096 true).2 73728 8192 true).2.

Lemma demo_registered : registered demo_registry.
Proof.
  apply reg_alloc; [apply reg_alloc; [apply reg_init|]|]; unfold fits; cbn; lia.
Qed.

Lemma areas_disjoint_witness :
  disjoint_areas (mkArea 65536 4096) (mkArea 73728 8192).
Proof.
  apply (areas_disjoint demo_registry 0 1 _ _ demo_registered eq_refl eq_refl). lia.
Defined.

Lemma alloc_mem_area_spec_witness :
  (Forall (apart (mkArea 4096 4096)) (tested demo_registry) /\ true = true /\
   alloc_mem_area demo_registry 4096 4096 true =
     (1, (demo_registry.1, demo_registry.2 ++ [mkArea 4096 4096]))) \/
  (~ (Forall (apart (mkArea 4096 4096)) (tested demo_registry) /\ true = true) /\
   alloc_mem_area demo_registry 4096 4096 true = (0, demo_registry)).
Proof.
  apply (alloc_mem_area_spec demo_registry 4096 4096 true demo_registered).
  unfold fits; cbn; lia.
Defined.

Lemma seek_free_mem_sound_witness :
  let p := seek_free_mem (mkArea 0 0, [mkArea 0 4096; mkArea 16384 8192]) 5000 in
  p mod page_sz = 0 /\
  Forall (disjoint_areas (mkArea p 5000)) [mkArea 0 4096; mkArea 16384 8192].
Proof.
  apply (seek_free_mem_sound [mkArea 0 4096; mkArea 16384 8192] 5000).
  - repeat constructor; cbn; lia.
  - repeat constructor.
  - repeat constructor; unfold before; cbn; lia.
  - lia.
  - vm_compute. reflexivity.
Defined.
