(* ===== verification/CfgParser.v ===== *)
(** * The CONFIG.SYS parser ([OS2/Server/shared/lib/compat/cfgparser.c])

    [CfgParseConfig] cuts a file into lines, [CfgParseLine] stores each one
    in the table of its keyword or in a field of [options], [CfgGetenv] looks
    a variable up among the [SET] lines and [CfgCleanup] frees the strings.
    The global variables are the state [cfg]; [error] is [Exit (-1)]; whether
    [malloc] succeeds is an argument.  A [strcpy] between overlapping buffers
    copies in ascending order. *)
From S2P Require Import Prelude.

Definition MAXLENGTH : Z := 1512.

(** ** The data ([os3/cfgparser.h]) *)

(** The fields of [cfg_opts], by their C types. *)
Inductive short_field :=
  | autofail | buffers | clockscale | closefiles | dllbasing | earlymeminit
  | fakeiss | i13pages | javanofpk | ldrstackopt | maxwait | ndwtimer
  | pauseonerror | priority | priority_disk_io | protectonly | raskdata | reipl
  | sxfakehwfpu | truemode | vme | workplace_native | workplace_primary_cp
  | workplace_process | debugmodmgr | debugixfmgr | debugprcmgr | debugmemmgr.
Inductive char_field :=
  | dumpprocess | lastdrive | remote_install_state | reservedriveletter
  | suppresspopups.
Inductive int_field :=
  | threads | tracebuf | virtualaddresslimit | wp_objhandle.
Inductive string_field :=
  | country | devinfo_kbd | devinfo_vio | diskcache | ibm_java_options | iopl
  | iropt | libpath | memman | printmonbufsize | protshell | setboot
  | sourcepath | strace | swappath | sysdump | timeslice | trace | trapdump
  | traplog | configfile | bootdrive.

#[export] Instance short_field_eq : EqDecision short_field.
Proof. solve_decision. Defined.
#[export] Instance char_field_eq : EqDecision char_field.
Proof. solve_decision. Defined.
#[export] Instance int_field_eq : EqDecision int_field.
Proof. solve_decision. Defined.
#[export] Instance string_field_eq : EqDecision string_field.
Proof. solve_decision. Defined.

(** [mode] holds the first [mode_id] elements of the array of 20. *)
Record cfg_opts := mkOpts {
  shorts : short_field -> Z;
  chars : char_field -> Z;
  ints : int_field -> Z;
  strings : string_field -> cptr;
  codepage : list Z;
  mode : list cptr
}.

Definition set_short (o : cfg_opts) (f : short_field) (v : Z) : cfg_opts :=
  mkOpts (<[f := v]> (shorts o)) (chars o) (ints o) (strings o) (codepage o) (mode o).
Definition set_char (o : cfg_opts) (f : char_field) (v : Z) : cfg_opts :=
  mkOpts (shorts o) (<[f := v]> (chars o)) (ints o) (strings o) (codepage o) (mode o).
Definition set_int (o : cfg_opts) (f : int_field) (v : Z) : cfg_opts :=
  mkOpts (shorts o) (chars o) (<[f := v]> (ints o)) (strings o) (codepage o) (mode o).
Definition set_string (o : cfg_opts) (f : string_field) (v : cptr) : cfg_opts :=
  mkOpts (shorts o) (chars o) (ints o) (<[f := v]> (strings o)) (codepage o) (mode o).
Definition set_codepage (o : cfg_opts) (v : list Z) : cfg_opts :=
  mkOpts (shorts o) (chars o) (ints o) (strings o) v (mode o).
Definition set_mode (o : cfg_opts) (v : list cptr) : cfg_opts :=
  mkOpts (shorts o) (chars o) (ints o) (strings o) (codepage o) v.

(** [struct name]: the line number and the text of a stored line. *)
Record name := mkName { nm_line : Z; nm_string : cptr }.

(** [struct types]: a keyword and the array its lines go to; [sp] holds the
    first [ip] elements of an array of [cap]. *)
Record types := mkTypes { ty_name : list Z; sp : list name; cap : nat }.
Definition ip (t : types) : nat := length (sp t).

Record cfg := mkCfg { type : list types; options : cfg_opts }.

Definition CALL : list Z := bstr "CALL".
Definition RUNSERVER : list Z := bstr "RUNSERVER".
Definition RUN : list Z := bstr "RUN".
Definition SET : list Z := bstr "SET".
Definition IXF : list Z := bstr "IXF".

(** The arrays and [options] before the program runs: static storage. *)
Definition static_cfg : cfg :=
  mkCfg [mkTypes CALL [] 30; mkTypes RUNSERVER [] 30; mkTypes RUN [] 30;
         mkTypes SET [] 150; mkTypes IXF [] 30]
    (mkOpts (fun _ => 0) (fun _ => 0) (fun _ => 0) (fun _ => Null)
       (replicate 7 0) []).

Definition options_list : list (list Z) := bstr <$>
  ["AUTOFAIL"; "BUFFERS"; "CLOCKSCALE"; "CLOSEFILES";
   "CODEPAGE"; "COUNTRY"; "DEVINFO"; "DISKCACHE"; "DLLBASING";
   "DUMPPROCESS"; "EARLYMEMINIT"; "FAKEISS"; "I13PAGES"; "IBM_JAVA_OPTIONS"; "IOPL";
   "IROPT"; "JAVANOFPK"; "LASTDRIVE"; "LDRSTACKOPT"; "LIBPATH"; "MAXWAIT"; "MEMMAN";
   "MODE"; "NDWTIMER"; "PAUSEONERROR"; "PRINTMONBUFSIZE"; "PRIORITY";
   "PRIORITY_DISK_IO"; "PROTECTONLY"; "PROTSHELL"; "RASKDATA"; "REIPL";
   "REMOTE_INSTALL_STATE"; "RESERVEDRIVELETTER"; "SETBOOT"; "SOURCEPATH"; "STRACE";
   "SUPPRESSPOPUPS"; "SWAPPATH"; "SXFAKEHWFPU"; "SYSDUMP"; "THREADS"; "TIMESLICE";
   "TRACE"; "TRACEBUF"; "TRAPDUMP"; "TRAPLOG"; "TRUEMODE"; "VIRTUALADDRESSLIMIT";
   "VME"; "WORKPLACE_NATIVE"; "WORKPLACE_PRIMARY_CP"; "WORKPLACE_PROCESS"; "WP_OBJHANDLE";
   "DEBUGMODMGR"; "DEBUGIXFMGR"; "DEBUGPRCMGR"]%string.

(** [error]: log a message and leave the program. *)
Definition error {A} : C A := Exit (-1).

(** [malloc] of a string constant and [strcpy] into it. *)
Definition init_string (malloc_ok : bool) (o : cfg_opts) (f : string_field) (s : string)
    : C cfg_opts :=
  if malloc_ok then Ret (set_string o f (Str (bstr s))) else error.

Definition CfgInitOptions (malloc_ok : nat -> bool) (o : cfg_opts) : C (Z * cfg_opts) :=
  let o := set_short o autofail 0 in
  let o := set_short o dllbasing 1 in
  o ← init_string (malloc_ok 0%nat) o iopl "YES";
  let o := set_short o ldrstackopt 1 in
  let o := set_short o maxwait 3 in
  let o := set_mode o [] in
  let o := set_short o pauseonerror 1 in
  let o := set_short o priority 1 in
  let o := set_short o priority_disk_io 1 in
  let o := set_short o reipl 0 in
  let o := set_string o protshell Null in
  let o := set_short o debugmodmgr 0 in
  let o := set_short o debugixfmgr 0 in
  let o := set_short o debugprcmgr 0 in
  let o := set_short o debugmemmgr 0 in
  o ← init_string (malloc_ok 1%nat) o configfile "config.sys";
  o ← init_string (malloc_ok 2%nat) o bootdrive "C:";
  Ret (NO_ERROR, o).

(** ** Parsing one line *)

(** The comparison loop: the number of characters of the keyword that the
    line starts with, in either case. *)
Fixpoint cmp_keyword (line : list Z) (kw : list Z) (count : nat) : C nat :=
  match kw with
  | [] => Ret count
  | k :: kw' =>
      x ← rd8 line (Z.of_nat count);
      if toupper x =? k then cmp_keyword line kw' (S count) else Ret count
  end.

(** [strcpy(line, line + count)]. *)
Definition shift_line (line : list Z) (count : nat) : C (list Z) :=
  s ← cstr (drop count line); strcpy_at line 0 s.

(** [strcpy(pc, line)] into the block of [(size_t)len + 1] bytes. *)
Definition copy_line (line : list Z) (len : Z) : C cptr :=
  s ← cstr line;
  _ ← require (Z.of_nat (length s) + 1 <=? u32 (u32 len + 1));
  Ret (Str s).

Definition dup_line (malloc_ok : bool) (line : list Z) (len : Z) : C cptr :=
  if malloc_ok then copy_line line len else error.

(** [strupr] ([lib/compat/string.c]). *)
Fixpoint strupr (s : list Z) : C (list Z) :=
  match s with
  | [] => Undef
  | c :: s' => if c =? 0 then Ret s else (fun r => toupper c :: r) <$> strupr s'
  end.

(** [toupper(line[i]) == w[0] && toupper(line[i+1]) == w[1] && ...] *)
Fixpoint is_word (line : list Z) (i : Z) (w : list Z) : C bool :=
  match w with
  | [] => Ret true
  | c :: w' =>
      x ← rd8 line i;
      if toupper x =? c then is_word line (i + 1) w' else Ret false
  end.

(** [atoi]: white space, a sign, digits; undefined when the number is not an
    [int]. *)
Definition isspace (c : Z) : bool := (c =? 32) || ((9 <=? c) && (c <=? 13)).
Definition isdigit (c : Z) : bool := (48 <=? c) && (c <=? 57).
Fixpoint atoi_digits (s : list Z) (acc : Z) : Z :=
  match s with
  | c :: s' => if isdigit c then atoi_digits s' (10 * acc + (c - 48)) else acc
  | [] => acc
  end.
Fixpoint skip_space (s : list Z) : list Z :=
  match s with
  | c :: s' => if isspace c then skip_space s' else s
  | [] => []
  end.
Definition atoi (line : list Z) : C Z :=
  s ← cstr line;
  let n := match skip_space s with
           | c :: s' => if c =? 45 then - atoi_digits s' 0
                        else if c =? 43 then atoi_digits s' 0
                        else atoi_digits (c :: s') 0
           | [] => 0
           end in
  _ ← require ((- 2 ^ 31 <=? n) && (n <? 2 ^ 31));
  Ret n.

(** The shapes of the cases of the [switch]: two words with two values,
    otherwise a warning; one word and two values; one character and two
    values; a string; a character; a number. *)
Definition two_words (o : cfg_opts) (line : list Z) (f : short_field)
    (w1 : string) (v1 : Z) (w2 : string) (v2 : Z) : C cfg_opts :=
  a ← is_word line 0 (bstr w1);
  if (a : bool) then Ret (set_short o f v1)
  else
    b ← is_word line 0 (bstr w2);
    if (b : bool) then Ret (set_short o f v2) else Ret o.

Definition one_word (o : cfg_opts) (line : list Z) (f : short_field)
    (w : string) (v1 v2 : Z) : C cfg_opts :=
  a ← is_word line 0 (bstr w);
  Ret (set_short o f (if (a : bool) then v1 else v2)).

Definition one_char (o : cfg_opts) (line : list Z) (f : short_field)
    (c : Z) (v1 v2 : Z) : C cfg_opts :=
  x ← rd8 line 0;
  Ret (set_short o f (if x =? c then v1 else v2)).

Definition a_string (o : cfg_opts) (line : list Z) (len : Z) (malloc_ok : bool)
    (f : string_field) : C cfg_opts :=
  pc ← dup_line malloc_ok line len;
  Ret (set_string o f pc).

(** These keep the line that [strupr] has converted in place. *)
Definition upper_line (line : list Z) (len : Z) (malloc_ok : bool)
    : C (list Z * cptr) :=
  if malloc_ok then
    line ← strupr line;
    pc ← copy_line line len;
    Ret (line, pc)
  else error.

Definition upper_string (o : cfg_opts) (line : list Z) (len : Z) (malloc_ok : bool)
    (f : string_field) : C (list Z * cfg_opts) :=
  '(line, pc) ← upper_line line len malloc_ok;
  Ret (line, set_string o f pc).

Definition a_char (o : cfg_opts) (line : list Z) (f : char_field) : C cfg_opts :=
  x ← rd8 line 0; Ret (set_char o f x).

Definition a_number (o : cfg_opts) (line : list Z) (f : int_field) : C cfg_opts :=
  n ← atoi line; Ret (set_int o f n).

(** The [switch] of [CfgParseLine], in six ranges of cases. *)
Definition options_0_8 (i : nat) (o : cfg_opts) (line : list Z) (len : Z)
    (malloc_ok : bool) : C (list Z * cfg_opts) :=
  let keep (r : C cfg_opts) : C (list Z * cfg_opts) := (fun o => (line, o)) <$> r in
  match i with
  | 0%nat => keep (two_words o line autofail "NO" 0 "YES" 1)
  | 1%nat => keep (n ← atoi line; Ret (set_short o buffers (s16 n)))
  | 2%nat => keep (helper ← atoi line;
               if (helper =? 1) || (helper =? 2) || (helper =? 4)
               then Ret (set_short o clockscale (s16 helper)) else error)
  | 3%nat => keep (one_word o line closefiles "TRUE" 1 0)
  | 4%nat => keep (c0 ← rd8 line 0; c1 ← rd8 line 1; c2 ← rd8 line 2; c3 ← rd8 line 3;
               c4 ← rd8 line 4; c5 ← rd8 line 5; c6 ← rd8 line 6;
               Ret (set_codepage o [c0; c1; c2; c3; c4; c5; c6]))
  | 5%nat => upper_string o line len malloc_ok country
  | 6%nat => '(line, pc) ← upper_line line len malloc_ok;
         text ← deref pc;
         let pcs := text ++ [0] in
         kbd ← (c0 ← rd8 pcs 0; if negb (c0 =? ch "K"%char) then Ret false else
                c1 ← rd8 pcs 1; if negb (c1 =? ch "B"%char) then Ret false else
                c2 ← rd8 pcs 2; Ret (c2 =? ch "D"%char));
         if (kbd : bool) then Ret (line, set_string o devinfo_kbd pc)
         else
           scr ← (c0 ← rd8 pcs 0; if negb (c0 =? ch "S"%char) then Ret false else
                  c1 ← rd8 pcs 1; if negb (c1 =? ch "C"%char) then Ret false else
                  c2 ← rd8 pcs 2; Ret (c2 =? ch "R"%char));
           if (scr : bool) then Ret (line, set_string o devinfo_vio pc)
           else Ret (line, o)
  | 7%nat => upper_string o line len malloc_ok diskcache
  | _ => keep (two_words o line dllbasing "ON" 1 "OFF" 0)
  end.

Definition options_9_18 (i : nat) (o : cfg_opts) (line : list Z) (len : Z)
    (malloc_ok : bool) : C cfg_opts :=
  match i with
  | 9%nat => a_char o line dumpprocess
  | 10%nat => one_word o line earlymeminit "TRUE" 1 0
  | 11%nat => one_word o line fakeiss "YES" 1 0
  | 12%nat => one_char o line i13pages (ch "1"%char) 1 0
  | 13%nat => a_string o line len malloc_ok ibm_java_options
  | 14%nat => a_string o line len malloc_ok iopl
  | 15%nat => a_string o line len malloc_ok iropt
  | 16%nat => one_word o line javanofpk "YES" 1 0
  | 17%nat => a_char o line lastdrive
  | _ => two_words o line ldrstackopt "TRUE" 1 "FALSE" 0
  end.

Definition options_19_26 (i : nat) (o : cfg_opts) (line : list Z) (len : Z)
    (malloc_ok : bool) : C cfg_opts :=
  match i with
  | 19%nat => a_string o line len malloc_ok libpath
  | 20%nat => helper ← atoi line;
          if (1 <=? helper) && (helper <=? 255)
          then Ret (set_short o maxwait (s16 helper)) else error
  | 21%nat => a_string o line len malloc_ok memman
  | 22%nat => if (length (mode o) <? 20)%nat then
            pc ← dup_line malloc_ok line len;
            Ret (set_mode o (mode o ++ [pc]))
          else Ret o
  | 23%nat => one_word o line ndwtimer "OFF" 0 1
  | 24%nat => two_words o line pauseonerror "NO" 0 "YES" 1
  | 25%nat => a_string o line len malloc_ok printmonbufsize
  | _ => two_words o line priority "DYNAMIC" 1 "ABSOLUTE" 0
  end.

Definition options_27_36 (i : nat) (o : cfg_opts) (line : list Z) (len : Z)
    (malloc_ok : bool) : C cfg_opts :=
  match i with
  | 27%nat => two_words o line priority_disk_io "NO" 0 "YES" 1
  | 28%nat => two_words o line protectonly "NO" 0 "YES" 1
  | 29%nat => a_string o line len malloc_ok protshell
  | 30%nat => one_word o line raskdata "OTE" 1 0
  | 31%nat => two_words o line reipl "ON" 1 "OFF" 0
  | 32%nat => a_char o line remote_install_state
  | 33%nat => a_char o line reservedriveletter
  | 34%nat => a_string o line len malloc_ok setboot
  | 35%nat => a_string o line len malloc_ok sourcepath
  | _ => a_string o line len malloc_ok strace
  end.

Definition options_37_46 (i : nat) (o : cfg_opts) (line : list Z) (len : Z)
    (malloc_ok : bool) : C cfg_opts :=
  match i with
  | 37%nat => a_char o line suppresspopups
  | 38%nat => a_string o line len malloc_ok swappath
  | 39%nat => one_char o line sxfakehwfpu (ch "1"%char) 1 0
  | 40%nat => a_string o line len malloc_ok sysdump
  | 41%nat => a_number o line threads
  | 42%nat => a_string o line len malloc_ok timeslice
  | 43%nat => a_string o line len malloc_ok trace
  | 44%nat => a_number o line tracebuf
  | 45%nat => a_string o line len malloc_ok trapdump
  | _ => a_string o line len malloc_ok traplog
  end.

Definition options_47_56 (i : nat) (o : cfg_opts) (line : list Z)
    : C cfg_opts :=
  match i with
  | 47%nat => one_char o line truemode (ch "1"%char) 1 0
  | 48%nat => a_number o line virtualaddresslimit
  | 49%nat => one_word o line vme "NO" 0 1
  | 50%nat => one_char o line workplace_native (ch "0"%char) 0 1
  | 51%nat => one_char o line workplace_primary_cp (ch "1"%char) 1 0
  | 52%nat => one_word o line workplace_process "NO" 0 1
  | 53%nat => a_number o line wp_objhandle
  | 54%nat => one_word o line debugmodmgr "NO" 0 1
  | 55%nat => one_word o line debugixfmgr "NO" 0 1
  | 56%nat => one_word o line debugprcmgr "NO" 0 1
  | _ => Ret o
  end.

Definition set_option (i : nat) (o : cfg_opts) (line : list Z) (len : Z)
    (malloc_ok : bool) : C (list Z * cfg_opts) :=
  let keep (r : C cfg_opts) : C (list Z * cfg_opts) := (fun o => (line, o)) <$> r in
  if (i <=? 8)%nat then options_0_8 i o line len malloc_ok
  else if (i <=? 18)%nat then keep (options_9_18 i o line len malloc_ok)
  else if (i <=? 26)%nat then keep (options_19_26 i o line len malloc_ok)
  else if (i <=? 36)%nat then keep (options_27_36 i o line len malloc_ok)
  else if (i <=? 46)%nat then keep (options_37_46 i o line len malloc_ok)
  else keep (options_47_56 i o line).

(** The second loop: options need an equals sign after the keyword. *)
Fixpoint options_loop (todo : list (list Z)) (i : nat) (st : cfg) (line : list Z)
    (len : Z) (malloc_ok : bool) : C (Z * list Z * cfg) :=
  match todo with
  | [] => Ret (2, line, st)
  | kw :: todo' =>
      count ← cmp_keyword line kw 0;
      hit ← (if (count =? length kw)%nat
             then x ← rd8 line (Z.of_nat count); Ret (toupper x =? ch "="%char)
             else Ret false);
      if (hit : bool) then
        let count := S count in
        line ← shift_line line count;
        '(line, o) ← set_option i (options st) line (len - Z.of_nat count) malloc_ok;
        Ret (1, line, mkCfg (type st) o)
      else options_loop todo' (S i) st line len malloc_ok
  end.

(** [type[i].sp[type[i].ip]] is written and [type[i].ip] incremented. *)
Definition add_name (t : types) (n : name) : C types :=
  _ ← require (ip t <? cap t)%nat;
  Ret (mkTypes (ty_name t) (sp t ++ [n]) (cap t)).

(** The first loop: whatever follows the keyword, one character of it is
    dropped. *)
Fixpoint types_loop (todo : list types) (i : nat) (st : cfg) (line : list Z)
    (len lineno : Z) (malloc_ok : bool) : C (option (Z * list Z * cfg)) :=
  match todo with
  | [] => Ret None
  | t :: todo' =>
      count ← cmp_keyword line (ty_name t) 0;
      if (count =? length (ty_name t))%nat then
        let count := S count in
        line ← shift_line line count;
        if malloc_ok then
          pc ← copy_line line (len - Z.of_nat count);
          t ← add_name t (mkName lineno pc);
          Ret (Some (1, line, mkCfg (<[i := t]> (type st)) (options st)))
        else Ret (Some (0, line, st))
      else types_loop todo' (S i) st line len lineno malloc_ok
  end.

Definition CfgParseLine (st : cfg) (line : list Z) (len lineno : Z) (malloc_ok : bool)
    : C (Z * list Z * cfg) :=
  r ← types_loop (type st) 0 st line len lineno malloc_ok;
  match r with
  | Some res => Ret res
  | None => options_loop options_list 0 st line len malloc_ok
  end.

(** ** Parsing the file *)

Definition is_eol (c : Z) : bool := (c =? 13) || (c =? 10).

(** [malloc_ok] tells for each line number whether [malloc] succeeds. *)
Fixpoint parse_loop (fuel : nat) (addr : list Z) (size : Z) (malloc_ok : Z -> bool)
    (off : Z) (line : list Z) (len lineno : Z) (st : cfg) : C cfg :=
  match fuel with
  | O => NoFuel
  | S fuel =>
      if (off <? size) && (len <? MAXLENGTH) then
        c ← rd8 addr off;
        line ← wr8 line len c;
        '(line, len, lineno, st) ←
          (if is_eol c then
             line ← wr8 line len 0;
             '(rc, line, st) ← CfgParseLine st line len lineno (malloc_ok lineno);
             if rc =? 0 then error else Ret (line, 0, lineno + 1, st)
           else Ret (line, len + 1, lineno, st));
        let off := off + 1 in
        off ← (if off <? size then
                 c ← rd8 addr off; Ret (if is_eol c then off + 1 else off)
               else Ret off);
        parse_loop fuel addr size malloc_ok off line len lineno st
      else Ret st
  end.

(** [line0] is what the local array holds before it is written. *)
Definition CfgParseConfig (addr : list Z) (size : Z) (line0 : list Z)
    (malloc_ok : Z -> bool) (st : cfg) : C (Z * cfg) :=
  st ← parse_loop (S (Z.to_nat size)) addr size malloc_ok 0 line0 0 0 st;
  Ret (0, st).

(** ** Looking up a variable *)

(** The comparison loop of [CfgGetenv]: the rest of the entry from where it
    stopped. *)
Fixpoint getenv_cmp (p nm : list Z) (j : Z) : C (list Z) :=
  match p with
  | [] => Ret []
  | c :: p' =>
      if c =? ch "="%char then Ret p
      else
        x ← rd8 nm j;
        if c =? toupper x then getenv_cmp p' nm (j + 1) else Ret p
  end.

(** [nm] is the array that holds the terminated name; the value is copied to
    the caller's buffer of [vcap] bytes. *)
Fixpoint getenv_loop (todo : list name) (nm : list Z) (vcap : Z)
    : C (Z * option (list Z)) :=
  match todo with
  | [] => Ret (ERROR_ENVVAR_NOT_FOUND, None)
  | n :: todo' =>
      s ← deref (nm_string n);
      p ← getenv_cmp s nm 0;
      match p with
      | c :: v =>
          if c =? ch "="%char then
            _ ← require (Z.of_nat (length v) + 1 <=? vcap);
            Ret (NO_ERROR, Some v)
          else getenv_loop todo' nm vcap
      | [] => getenv_loop todo' nm vcap
      end
  end.

Definition CfgGetenv (st : cfg) (nm : list Z) (vcap : Z) : C (Z * option (list Z)) :=
  t ← need (type st !! 3%nat);
  getenv_loop (sp t) nm vcap.

(** ** Cleaning up *)

Fixpoint free_names (l : list name) : C (list name) :=
  match l with
  | [] => Ret []
  | n :: l' =>
      p ← free (nm_string n);
      l' ← free_names l';
      Ret (mkName (nm_line n) p :: l')
  end.

Fixpoint free_types (l : list types) : C (list types) :=
  match l with
  | [] => Ret []
  | t :: l' =>
      s ← free_names (sp t);
      l' ← free_types l';
      Ret (mkTypes (ty_name t) s (cap t) :: l')
  end.

Definition CfgCleanup (st : cfg) : C (Z * cfg) :=
  ty ← free_types (type st);
  p ← free (strings (options st) iopl);
  Ret (0, mkCfg ty (set_string (options st) iopl p)).

(** ** Specification of the line parser *)

Definition upper (s : list Z) : list Z := toupper <$> s.

(** The line begins with the keyword, in either case. *)
Definition starts (kw l : list Z) : bool :=
  bool_decide (kw `prefix_of` upper l).

(** The first keyword table the line belongs to. *)
Definition find_type (ty : list types) (l : list Z) : option (nat * types) :=
  list_find (fun t => starts (ty_name t) l = true) ty.

(** The option the line names: its keyword with an equals sign. *)
Definition find_option (l : list Z) : option (nat * list Z) :=
  list_find (fun kw => starts (kw ++ bstr "=") l = true) options_list.

(** A line in its buffer: a string, the terminator and stale bytes. *)
Definition in_buffer (l r : list Z) : list Z := l ++ 0 :: r.

(** ** Lemmas on keywords *)

Fixpoint common (u kw : list Z) : nat :=
  match u, kw with
  | x :: u', k :: kw' => if x =? k then S (common u' kw') else 0
  | _, _ => 0
  end.

Lemma common_spec kw : forall u, common u kw = length kw <-> kw `prefix_of` u.
Proof.
  induction kw as [|k kw IH]; intros u.
  - destruct u; cbn; split; try done; intros _; apply prefix_nil.
  - destruct u as [|x u]; cbn.
    + split; [done|]. intros H. by apply prefix_nil_not in H.
    + destruct (Z.eqb_spec x k) as [->|Hne].
      * split; [intros [= H]; by apply prefix_cons, IH|].
        intros H%prefix_cons_inv_2. f_equal. by apply IH.
      * split; [done|]. intros H%prefix_cons_inv_1. congruence.
Qed.

Lemma upper_cons x l : upper (x :: l) = toupper x :: upper l.
Proof. reflexivity. Qed.

Lemma cmp_keyword_spec kw r : Forall (fun k => k <> 0) kw -> forall l pre,
  cmp_keyword (pre ++ in_buffer l r) kw (length pre) =
    Ret (length pre + common (upper l) kw)%nat.
Proof.
  unfold in_buffer. induction 1 as [|k kw Hk _ IH]; intros l pre; cbn [cmp_keyword].
  - destruct l; cbn; f_equal; lia.
  - destruct l as [|x l]; cbn [app]; rewrite rd8_pre by done;
      rewrite ?upper_cons; cbn -[cmp_keyword toupper upper].
    + destruct (Z.eqb_spec (toupper 0) k) as [<-|]; [done|]. f_equal; cbn; lia.
    + destruct (toupper x =? k); [|f_equal; lia].
      specialize (IH l (pre ++ [x])). rewrite <- app_assoc, length_app in IH.
      cbn [app length] in IH. rewrite Nat.add_1_r in IH. rewrite IH.
      f_equal; lia.
Qed.

Lemma keyword_test kw l r : Forall (fun k => k <> 0) kw ->
  exists n, cmp_keyword (in_buffer l r) kw 0 = Ret n /\
            (n =? length kw)%nat = starts kw l.
Proof.
  intros H. pose proof (cmp_keyword_spec kw r H l []) as E. cbn -[cmp_keyword] in E.
  exists (common (upper l) kw). split; [done|]. unfold starts.
  destruct (Nat.eqb_spec (common (upper l) kw) (length kw)) as [E'|E'].
  - rewrite common_spec in E'. by rewrite bool_decide_eq_true_2.
  - rewrite common_spec in E'. by rewrite bool_decide_eq_false_2.
Qed.

Lemma shift_line_spec l r k :
  text l -> (k <= length l)%nat ->
  exists r', shift_line (in_buffer l r) k = Ret (in_buffer (drop k l) r') /\
    length (in_buffer (drop k l) r') = length (in_buffer l r).
Proof.
  intros Ht Hk. unfold shift_line, in_buffer. rewrite cstr_drop by done. cbn.
  rewrite strcpy_at_0; [|by apply text_drop|rewrite length_drop, length_app; cbn; lia].
  eexists. split; [done|].
  rewrite !length_app. cbn [length]. rewrite !length_drop, length_app.
  cbn [length]. lia.
Qed.

Lemma copy_line_spec l r : text l -> Z.of_nat (length l) + 1 < 2 ^ 32 ->
  copy_line (in_buffer l r) (Z.of_nat (length l)) = Ret (Str l).
Proof.
  intros Ht Hl. unfold copy_line, in_buffer. rewrite cstr_text by done. cbn.
  rewrite !(u32_id) by (rewrite ?u32_id; unfold is_u32; lia). rewrite Z.leb_refl. done.
Qed.

(** No block holds the line when the given length is negative. *)
Lemma copy_line_negative line s : cstr line = Ret s -> copy_line line (-1) = Undef.
Proof.
  intros E. unfold copy_line. rewrite E.
  change (u32 (u32 (-1) + 1)) with 0. cbn.
  destruct (Z.leb_spec (Z.of_nat (length s) + 1) 0); [lia|done].
Qed.

Lemma starts_length kw l : starts kw l = true -> (length kw <= length l)%nat.
Proof.
  unfold starts. intros H%bool_decide_eq_true. apply prefix_length in H.
  unfold upper in H. by rewrite length_fmap in H.
Qed.

(** ** Lines of the keyword tables *)

Definition proper (t : types) : Prop := Forall (fun k => k <> 0) (ty_name t).

Definition stored (t : types) (lineno : Z) (l : list Z) : types :=
  mkTypes (ty_name t)
    (sp t ++ [mkName lineno (Str (drop (S (length (ty_name t))) l))]) (cap t).

Lemma types_loop_none todo l r : forall i st len lineno ok,
  Forall proper todo -> find_type todo l = None ->
  types_loop todo i st (in_buffer l r) len lineno ok = Ret None.
Proof.
  induction todo as [|t todo IH]; intros i st len lineno ok Hp Hf; [done|].
  inversion_clear Hp as [|? ? Ht Hp']. cbn [types_loop].
  destruct (keyword_test _ l r Ht) as (n & -> & E). cbn -[Nat.eqb types_loop].
  unfold find_type in Hf. cbn in Hf. case_decide as D; [done|].
  rewrite E. destruct (starts _ l); [done|].
  apply IH; [done|]. by apply fmap_None in Hf.
Qed.

Lemma types_loop_some todo l r : forall i j t st len lineno,
  Forall proper todo -> find_type todo l = Some (j, t) ->
  types_loop todo i st (in_buffer l r) len lineno true =
  (line ← shift_line (in_buffer l r) (S (length (ty_name t)));
   pc ← copy_line line (len - Z.of_nat (S (length (ty_name t))));
   t ← add_name t (mkName lineno pc);
   Ret (Some (1, line, mkCfg (<[(i + j)%nat := t]> (type st)) (options st)))).
Proof.
  induction todo as [|t0 todo IH]; intros i j t st len lineno Hp Hf; [done|].
  inversion_clear Hp as [|? ? Ht Hp']. cbn [types_loop].
  destruct (keyword_test _ l r Ht) as (n & -> & E). cbn -[Nat.eqb types_loop].
  unfold find_type in Hf. cbn in Hf. rewrite E. case_decide as D.
  - rewrite D. injection Hf as <- <-. rewrite D in E. apply Nat.eqb_eq in E as ->.
    by rewrite Nat.add_0_r.
  - destruct (starts _ l); [done|].
    destruct (list_find _ todo) as [[j' t']|] eqn:F; cbn in Hf; [|done].
    injection Hf as <- ->. rewrite (IH (S i) j' t) by done.
    by rewrite Nat.add_succ_comm.
Qed.

(** ** Lines of the options *)

Lemma starts_snoc kw e l : starts kw l = true ->
  starts (kw ++ [e]) l =
    match l !! length kw with Some c => toupper c =? e | None => false end.
Proof.
  unfold starts. intros [u Hu]%bool_decide_eq_true.
  assert (El : upper l !! length kw = u !! 0%nat)
    by (rewrite Hu, lookup_app_r, Nat.sub_diag; done).
  unfold upper in El. rewrite list_lookup_fmap in El. change (toupper <$> l) with (upper l) in El.
  destruct u as [|x u]; cbn in El.
  - destruct (l !! length kw); [done|]. apply bool_decide_eq_false_2.
    intros P%prefix_length. rewrite Hu, !length_app in P. cbn in P. lia.
  - destruct (l !! length kw) as [c|]; [|done]. injection El as El. rewrite El.
    rewrite Hu. destruct (Z.eqb_spec x e) as [->|Hne].
    + apply bool_decide_eq_true_2. exists u. by rewrite <- app_assoc.
    + apply bool_decide_eq_false_2. intros [v Hv]. rewrite <- app_assoc in Hv.
      apply app_inv_head in Hv. cbn in Hv. congruence.
Qed.

Lemma starts_app_inv kw s l : starts (kw ++ s) l = true -> starts kw l = true.
Proof.
  unfold starts. rewrite !bool_decide_eq_true. intros [u Hu].
  exists (s ++ u). by rewrite Hu, app_assoc.
Qed.

Lemma hit_test kw l r : Forall (fun k => k <> 0) kw ->
  (count ← cmp_keyword (in_buffer l r) kw 0;
   hit ← (if (count =? length kw)%nat
          then x ← rd8 (in_buffer l r) (Z.of_nat count);
               Ret (toupper x =? ch "="%char)
          else Ret false);
   Ret (count, hit : bool)) =
  Ret (common (upper l) kw, starts (kw ++ bstr "=") l).
Proof.
  intros H. pose proof (cmp_keyword_spec kw r H l []) as E.
  destruct (keyword_test kw l r H) as (n & En & Et).
  cbn -[cmp_keyword] in E. rewrite En in E. injection E as ->. rewrite En. cbn -[Nat.eqb].
  rewrite Et. destruct (starts kw l) eqn:S.
  - apply Nat.eqb_eq in Et as ->. change (bstr "=") with [ch "="%char].
    rewrite starts_snoc by done.
    rewrite rd8_nat. unfold in_buffer.
    destruct (l !! length kw) as [c|] eqn:L; cbn.
    + by rewrite (lookup_app_l_Some _ _ _ _ L).
    + pose proof (starts_length _ _ S). apply lookup_ge_None in L.
      rewrite lookup_app_r by lia. replace (length kw - length l)%nat with 0%nat by lia.
      done.
  - cbn. destruct (starts (kw ++ _) l) eqn:S2; [|done].
    by apply starts_app_inv in S2; rewrite S2 in S.
Qed.

Lemma bind2_run {A B D} (m : C A) (f : A -> C B) (k : A -> B -> C D) a b :
  (x ← m; y ← f x; Ret (x, y)) = Ret (a, b) ->
  (x ← m; y ← f x; k x y) = k a b.
Proof.
  destruct m as [x| | |]; try discriminate. cbn.
  destruct (f x); try discriminate. cbn. by intros [= -> ->].
Qed.

Lemma options_loop_cons kw todo i st l r len ok : Forall (fun k => k <> 0) kw ->
  options_loop (kw :: todo) i st (in_buffer l r) len ok =
  if starts (kw ++ bstr "=") l then
    line ← shift_line (in_buffer l r) (S (length kw));
    '(line, o) ← set_option i (options st) line (len - Z.of_nat (S (length kw))) ok;
    Ret (1, line, mkCfg (type st) o)
  else options_loop todo (S i) st (in_buffer l r) len ok.
Proof.
  intros H. cbn [options_loop].
  rewrite (bind2_run _ _ _ _ _ (hit_test kw l r H)).
  destruct (starts (kw ++ bstr "=") l) eqn:S; [|done].
  apply starts_app_inv in S.
  assert (common (upper l) kw = length kw) as ->; [|done].
  apply common_spec. unfold starts in S. by apply bool_decide_eq_true in S.
Qed.

#[global] Arguments options_loop : simpl never.

Lemma options_loop_some todo l r : forall i j kw st len ok,
  Forall (Forall (fun k => k <> 0)) todo ->
  list_find (fun kw => starts (kw ++ bstr "=") l = true) todo = Some (j, kw) ->
  options_loop todo i st (in_buffer l r) len ok =
  (line ← shift_line (in_buffer l r) (S (length kw));
   '(line, o) ← set_option (i + j) (options st) line (len - Z.of_nat (S (length kw))) ok;
   Ret (1, line, mkCfg (type st) o)).
Proof.
  induction todo as [|kw0 todo IH]; intros i j kw st len ok Hp Hf; [done|].
  inversion_clear Hp as [|? ? Hk Hp']. rewrite options_loop_cons by done.
  cbn in Hf. case_decide as D.
  - rewrite D. injection Hf as <- <-. by rewrite Nat.add_0_r.
  - destruct (starts (kw0 ++ bstr "=") l); [done|].
    destruct (list_find _ todo) as [[j' kw']|] eqn:F; cbn in Hf; [|done].
    injection Hf as <- ->. rewrite (IH (S i) j' kw) by done.
    by rewrite Nat.add_succ_comm.
Qed.

Lemma options_loop_none todo l r : forall i st len ok,
  Forall (Forall (fun k => k <> 0)) todo ->
  list_find (fun kw => starts (kw ++ bstr "=") l = true) todo = None ->
  options_loop todo i st (in_buffer l r) len ok = Ret (2, in_buffer l r, st).
Proof.
  induction todo as [|kw0 todo IH]; intros i st len ok Hp Hf; [done|].
  inversion_clear Hp as [|? ? Hk Hp']. rewrite options_loop_cons by done.
  cbn in Hf. case_decide as D; [done|].
  destruct (starts (kw0 ++ bstr "=") l); [done|].
  apply fmap_None in Hf. by apply IH.
Qed.

Lemma options_list_proper : Forall (Forall (fun k => k <> 0)) options_list.
Proof.
  assert (H : forallb (forallb (fun k => negb (k =? 0))) options_list = true)
    by (vm_compute; reflexivity).
  apply Forall_forall. intros kw Hkw. apply Forall_forall. intros k Hk.
  rewrite forallb_forall in H. specialize (H kw). rewrite list_elem_of_In in Hkw.
  specialize (H Hkw). rewrite forallb_forall in H.
  rewrite list_elem_of_In in Hk. specialize (H k Hk). lia.
Qed.

(** ** What one line does *)

(** The tables keep their keywords and capacities. *)
Definition shaped (st : cfg) : Prop :=
  (fun t => (ty_name t, cap t)) <$> type st =
  (fun t => (ty_name t, cap t)) <$> type static_cfg.

Lemma shaped_proper st : shaped st -> Forall proper (type st).
Proof.
  intros H. unfold shaped in H. cbn in H. unfold proper.
  destruct (type st) as [|t1 [|t2 [|t3 [|t4 [|t5 [|]]]]]]; try discriminate H.
  cbn in H. injection H as H1 _ H2 _ H3 _ H4 _ H5 _.
  repeat constructor; rewrite ?H1, ?H2, ?H3, ?H4, ?H5; cbn;
    repeat (apply Forall_cons; split); try done.
Qed.

Lemma find_type_length ty l i t :
  find_type ty l = Some (i, t) -> (length (ty_name t) <= length l)%nat /\ ty !! i = Some t.
Proof.
  unfold find_type. intros (Hl & Hs & _)%list_find_Some. split; [|done].
  by apply starts_length.
Qed.

Lemma add_name_ok t n : (ip t < cap t)%nat ->
  add_name t n = Ret (mkTypes (ty_name t) (sp t ++ [n]) (cap t)).
Proof. intros H. unfold add_name. by apply Nat.ltb_lt in H as ->. Qed.

Lemma add_name_full t n : ip t = cap t -> add_name t n = Undef.
Proof. intros H. unfold add_name. by rewrite H, Nat.ltb_irrefl. Qed.

Lemma parse_line_table_run st l r lineno i t :
  shaped st -> text l -> Z.of_nat (length l) + 1 < 2 ^ 32 ->
  find_type (type st) l = Some (i, t) -> (length (ty_name t) < length l)%nat ->
  (ip t < cap t)%nat ->
  exists r', length (in_buffer (drop (S (length (ty_name t))) l) r') =
               length (in_buffer l r) /\
  CfgParseLine st (in_buffer l r) (Z.of_nat (length l)) lineno true =
    Ret (1, in_buffer (drop (S (length (ty_name t))) l) r',
         mkCfg (<[i := stored t lineno l]> (type st)) (options st)).
Proof.
  intros Hs Ht Hl Hf Hk Hip. unfold CfgParseLine.
  rewrite (types_loop_some _ _ _ 0 _ _ _ _ _ (shaped_proper _ Hs) Hf).
  destruct (shift_line_spec l r (S (length (ty_name t)))) as (r' & -> & Hr'); [done|lia|].
  exists r'. split; [done|]. cbn [mbind C_bind].
  replace (_ - _) with (Z.of_nat (length (drop (S (length (ty_name t))) l)))
    by (rewrite length_drop; lia).
  rewrite copy_line_spec; [|by apply text_drop|rewrite length_drop; lia].
  cbn [mbind C_bind]. rewrite add_name_ok by done. done.
Qed.

(** ** What any line can do

    These lemmas hold for every buffer, terminated or not. *)

Lemma cmp_keyword_prefix a b line : forall c,
  cmp_keyword line (a ++ b) c = Ret (c + length (a ++ b))%nat ->
  cmp_keyword line a c = Ret (c + length a)%nat.
Proof.
  induction a as [|k a IH]; intros c; cbn; [intros _; f_equal; lia|].
  destruct (rd8 line (Z.of_nat c)) as [x| | |]; cbn; try done.
  destruct (toupper x =? k).
  - rewrite <- !Nat.add_succ_comm. apply IH.
  - intros [= H]. lia.
Qed.

Lemma types_loop_inv todo : forall i st line len lineno ok r,
  types_loop todo i st line len lineno ok = Ret r ->
  match r with
  | None => forall t, t ∈ todo -> exists n,
      cmp_keyword line (ty_name t) 0 = Ret n /\ n <> length (ty_name t)
  | Some (rc, line', st') =>
      (rc = 0 /\ st' = st) \/
      (rc = 1 /\ options st' = options st /\ exists j t s,
         todo !! j = Some t /\
         type st' = <[(i + j)%nat := mkTypes (ty_name t)
           (sp t ++ [mkName lineno (Str s)]) (cap t)]> (type st))
  end.
Proof.
  induction todo as [|t todo IH]; intros i st line len lineno ok r; cbn [types_loop].
  - intros [= <-] t Ht. by apply elem_of_nil in Ht.
  - intros H. cinv. destruct (Nat.eqb_spec a (length (ty_name t))) as [->|Hne].
    + cinv. destruct ok; cinv; [|by left].
      right. unfold copy_line, add_name in *. cinv. split_and!; [done|done|].
      eexists 0%nat, t, _. rewrite Nat.add_0_r. done.
    + apply IH in H. destruct r as [[[rc l'] st']|].
      * destruct H as [H|(-> & Ho & j & t' & s & Hj & Ht)]; [by left|right].
        split_and!; [done|done|]. exists (S j), t', s. by rewrite <- Nat.add_succ_comm.
      * intros t' [->|Ht']%elem_of_cons; [by exists a|by apply H].
Qed.

Lemma options_loop_inv todo : forall i st line len ok rc line' st',
  options_loop todo i st line len ok = Ret (rc, line', st') ->
  (rc = 2 /\ st' = st) \/
  (rc = 1 /\ exists j kw l1 len1 o, todo !! j = Some kw /\
     cmp_keyword line kw 0 = Ret (length kw) /\
     set_option (i + j) (options st) l1 len1 ok = Ret (line', o) /\
     st' = mkCfg (type st) o).
Proof.
  induction todo as [|kw todo IH]; intros i st line len ok rc line' st';
    unfold options_loop; fold options_loop.
  - intros [= <- <- <-]. by left.
  - intros H. cinv. rename a into n, a0 into hit.
    destruct hit.
    + cinv. destruct (Nat.eqb_spec n (length kw)) as [->|]; [|done].
      right. destruct a0 as [l2 o]. cinv. split; [done|].
      eexists 0%nat, kw, _, _, o. rewrite Nat.add_0_r. split_and!; done.
    + apply IH in H as [H|(-> & j & kw' & l1 & len1 & o & Hj & Hc & Hs & ->)];
        [by left|right]. split; [done|].
      exists (S j), kw', l1, len1, o. by rewrite <- Nat.add_succ_comm.
Qed.

(** A case of the [switch] leaves the string fields alone, or stores a fresh
    string in one of them; [setboot] is stored by case 34 only. *)
Definition string_effect (i : nat) (o o' : cfg_opts) : Prop :=
  strings o' = strings o \/
  exists f s, strings o' = <[f := Str s]> (strings o) /\ (i <> 34%nat -> f <> setboot).

Lemma copy_line_inv line len p : copy_line line len = Ret p -> exists s, p = Str s.
Proof. unfold copy_line. intros H. cinv. eauto. Qed.

Lemma dup_line_inv ok line len p : dup_line ok line len = Ret p -> exists s, p = Str s.
Proof. unfold dup_line. destruct ok; [apply copy_line_inv|done]. Qed.

Ltac effect_same :=
  match goal with
  | H : two_words _ _ _ _ _ _ _ = Ret _ |- _ => unfold two_words in H
  | H : one_word _ _ _ _ _ _ = Ret _ |- _ => unfold one_word in H
  | H : one_char _ _ _ _ _ _ = Ret _ |- _ => unfold one_char in H
  | H : a_char _ _ _ = Ret _ |- _ => unfold a_char in H
  | H : a_number _ _ _ = Ret _ |- _ => unfold a_number in H
  end;
  cinv; repeat (match goal with
    | H : (if ?b then _ else _) = Ret _ |- _ => destruct b
    end; cinv); by left.

Lemma a_string_effect i o line len ok f o' :
  a_string o line len ok f = Ret o' -> (i <> 34%nat -> f <> setboot) ->
  string_effect i o o'.
Proof.
  unfold a_string. intros H Hf. cinv. apply dup_line_inv in E as [s ->].
  right. by exists f, s.
Qed.

Lemma upper_line_inv line len ok line' p :
  upper_line line len ok = Ret (line', p) -> exists s, p = Str s.
Proof.
  unfold upper_line. destruct ok; [|done]. intros H. cinv. by eapply copy_line_inv.
Qed.

Ltac effect_case H :=
  first [effect_same
        |apply (a_string_effect _ _ _ _ _ _ _ H); (done || (intros ?; lia))
        |cinv; by left].

Lemma options_0_8_effect i o line len ok line' o' :
  options_0_8 i o line len ok = Ret (line', o') -> string_effect i o o'.
Proof.
  unfold options_0_8. intros H.
  destruct i as [|[|[|[|[|[|[|[|i]]]]]]]];
    try (apply fmap_Ret_inv in H as (x & H & [= <- <-]); try effect_same; cinv;
         try (by left)).
  - destruct (_ || _); [cinv; by left|done].
  - unfold upper_string in H. cinv. destruct a as [l p]. cinv.
    apply upper_line_inv in E as [s ->]. right. by exists country, s.
  - cinv. destruct a as [l p]. cinv.
    apply upper_line_inv in E as [s ->]. cbn in E0.
    destruct a0; [cinv; right; by eexists devinfo_kbd, _|].
    cinv. destruct a0; cinv; [right; by eexists devinfo_vio, _|by left].
  - unfold upper_string in H. cinv. destruct a as [l p]. cinv.
    apply upper_line_inv in E as [s ->]. right. by exists diskcache, s.
Qed.

Lemma options_9_18_effect i o line len ok o' :
  options_9_18 i o line len ok = Ret o' -> string_effect i o o'.
Proof.
  unfold options_9_18. intros H.
  do 9 (destruct i as [|i]; [effect_case H|]).
  destruct i as [|[|[|[|[|[|[|[|[|i]]]]]]]]]; effect_case H.
Qed.

Lemma options_19_26_effect i o line len ok o' :
  options_19_26 i o line len ok = Ret o' -> string_effect i o o'.
Proof.
  unfold options_19_26. intros H.
  do 19 (destruct i as [|i]; [effect_case H|]).
  destruct i as [|[|[|[|[|[|[|i]]]]]]]; try effect_case H.
  - cinv. destruct (_ && _); [cinv; by left|done].
  - destruct (_ <? _)%nat; cinv; by left.
Qed.

Lemma options_27_36_effect i o line len ok o' :
  options_27_36 i o line len ok = Ret o' -> string_effect i o o'.
Proof.
  unfold options_27_36. intros H.
  do 27 (destruct i as [|i]; [effect_case H|]).
  destruct i as [|[|[|[|[|[|[|[|[|i]]]]]]]]]; effect_case H.
Qed.

Lemma options_37_46_effect i o line len ok o' :
  options_37_46 i o line len ok = Ret o' -> string_effect i o o'.
Proof.
  unfold options_37_46. intros H.
  do 37 (destruct i as [|i]; [effect_case H|]).
  destruct i as [|[|[|[|[|[|[|[|[|i]]]]]]]]]; effect_case H.
Qed.

Lemma options_47_56_effect i o line o' :
  options_47_56 i o line = Ret o' -> string_effect i o o'.
Proof.
  unfold options_47_56. intros H.
  do 47 (destruct i as [|i]; [effect_case H|]).
  destruct i as [|[|[|[|[|[|[|[|[|[|i]]]]]]]]]]; effect_case H.
Qed.

Lemma set_option_effect i o line len ok line' o' :
  set_option i o line len ok = Ret (line', o') -> string_effect i o o'.
Proof.
  unfold set_option. intros H.
  destruct (i <=? 8)%nat; [by eapply options_0_8_effect|].
  destruct (i <=? 18)%nat;
    [apply fmap_Ret_inv in H as (x & H & [= <- <-]); by eapply options_9_18_effect|].
  destruct (i <=? 26)%nat;
    [apply fmap_Ret_inv in H as (x & H & [= <- <-]); by eapply options_19_26_effect|].
  destruct (i <=? 36)%nat;
    [apply fmap_Ret_inv in H as (x & H & [= <- <-]); by eapply options_27_36_effect|].
  destruct (i <=? 46)%nat;
    [apply fmap_Ret_inv in H as (x & H & [= <- <-]); by eapply options_37_46_effect|].
  apply fmap_Ret_inv in H as (x & H & [= <- <-]); by eapply options_47_56_effect.
Qed.

(** The effect of a line on the state. *)
Definition line_effect (st st' : cfg) : Prop :=
  st' = st \/
  (options st' = options st /\ exists j t lineno s, type st !! j = Some t /\
     type st' = <[j := mkTypes (ty_name t) (sp t ++ [mkName lineno (Str s)]) (cap t)]>
                  (type st)) \/
  (type st' = type st /\
   (strings (options st') = strings (options st) \/
    exists f s, strings (options st') = <[f := Str s]> (strings (options st)) /\
      (SET ∈ (ty_name <$> type st) -> f <> setboot))).

Lemma keyword_set_setboot line :
  cmp_keyword line (bstr "SETBOOT") 0 = Ret 7%nat -> cmp_keyword line SET 0 = Ret 3%nat.
Proof.
  change (bstr "SETBOOT") with (SET ++ bstr "BOOT"). intros H.
  apply (cmp_keyword_prefix SET (bstr "BOOT") line 0), H.
Qed.

Lemma CfgParseLine_effect st line len lineno ok rc line' st' :
  CfgParseLine st line len lineno ok = Ret (rc, line', st') -> line_effect st st'.
Proof.
  unfold CfgParseLine. intros H. cinv. apply types_loop_inv in E.
  destruct a as [[[rc1 l1] st1]|].
  - cinv. destruct E as [(_ & ->)|(_ & Ho & j & t & s & Hj & Ht)]; [by left|].
    right. left. split; [done|]. by exists j, t, lineno, s.
  - apply options_loop_inv in H
      as [(_ & ->)|(_ & j & kw & l1 & len1 & o & Hj & Hc & Hs & ->)]; [by left|].
    right. right. split; [done|]. cbn.
    apply set_option_effect in Hs as [Hs|(f & s & Hs & Hf)]; [by left|].
    right. exists f, s. split; [done|]. intros HS. apply Hf.
    intros E34. cbn in E34. subst j.
    apply list_elem_of_fmap in HS as (t & Et & Ht).
    assert (kw = bstr "SETBOOT") as -> by (by injection Hj). apply keyword_set_setboot in Hc.
    apply E in Ht as (n & En & Hn). rewrite <- Et, Hc in En. rewrite <- Et in Hn.
    by injection En as <-.
Qed.

(** ** The file parser *)

Lemma parse_loop_S fuel addr size ok off line len lineno st :
  parse_loop (S fuel) addr size ok off line len lineno st =
  if (off <? size) && (len <? MAXLENGTH) then
    c ← rd8 addr off;
    line ← wr8 line len c;
    '(line, len, lineno, st) ←
      (if is_eol c then
         line ← wr8 line len 0;
         '(rc, line, st) ← CfgParseLine st line len lineno (ok lineno);
         if rc =? 0 then error else Ret (line, 0, lineno + 1, st)
       else Ret (line, len + 1, lineno, st));
    off ← (if off + 1 <? size then
             c ← rd8 addr (off + 1); Ret (if is_eol c then off + 1 + 1 else off + 1)
           else Ret (off + 1));
    parse_loop fuel addr size ok off line len lineno st
  else Ret st.
Proof. reflexivity. Qed.
#[global] Arguments parse_loop : simpl never.
#[global] Arguments CfgParseLine : simpl never.

(** A property that lines preserve is preserved by whole files. *)
Lemma parse_loop_preserves (P : cfg -> Prop) addr size ok :
  (forall st st', P st -> line_effect st st' -> P st') ->
  forall fuel off line len lineno st st',
  parse_loop fuel addr size ok off line len lineno st = Ret st' -> P st -> P st'.
Proof.
  intros HP. induction fuel as [|fuel IH]; intros off line len lineno st st'; [done|].
  rewrite parse_loop_S. destruct (_ && _); [|by intros [= <-]].
  intros H Hst. cinv. destruct a1 as [[[l1 len1] n1] st1]. cinv.
  apply IH in H; [done|]. revert E1.
  destruct (is_eol a); [|by intros [= <- <- <- <-]].
  intros E1. cinv. destruct a3 as [[rc l3] st3].
  destruct (rc =? 0); [done|]. cinv. by eapply HP, CfgParseLine_effect.
Qed.

Lemma CfgParseConfig_preserves (P : cfg -> Prop) addr size line0 ok st rc st' :
  (forall st st', P st -> line_effect st st' -> P st') ->
  CfgParseConfig addr size line0 ok st = Ret (rc, st') -> P st -> P st'.
Proof.
  intros HP H. unfold CfgParseConfig in H. cinv. by eapply parse_loop_preserves.
Qed.

Lemma shaped_effect st st' : shaped st -> line_effect st st' -> shaped st'.
Proof.
  unfold shaped. intros H [->|[(_ & j & t & n & s & Hj & ->)|[-> _]]]; [done| |done].
  rewrite <- H. rewrite list_fmap_insert. cbn. apply list_insert_id.
  by rewrite list_lookup_fmap, Hj.
Qed.

Lemma shaped_SET st : shaped st -> SET ∈ (ty_name <$> type st).
Proof.
  unfold shaped. intros H.
  assert (ty_name <$> type st = [CALL; RUNSERVER; RUN; SET; IXF]) as ->.
  { change [CALL; RUNSERVER; RUN; SET; IXF] with (ty_name <$> type static_cfg).
    apply (f_equal (fmap fst)) in H. by rewrite <- !list_fmap_compose in H. }
  rewrite !elem_of_cons. tauto.
Qed.

(** The SETBOOT option can never be set: its lines begin with SET and
    are filed among the environment variables, whatever the file holds. *)
Theorem setboot_unreachable addr size line0 ok st rc st' :
  shaped st -> CfgParseConfig addr size line0 ok st = Ret (rc, st') ->
  strings (options st') setboot = strings (options st) setboot.
Proof.
  intros Hs H.
  apply (CfgParseConfig_preserves (fun st' => shaped st' /\
    strings (options st') setboot = strings (options st) setboot)) in H;
    [by apply H| |done].
  clear. intros st1 st2 [Hs He] Hl. split; [by eapply shaped_effect|].
  rewrite <- He. destruct Hl as [->|[(-> & _)|(_ & [->|(f & s & -> & Hf)])]]; try done.
  rewrite fn_lookup_insert_ne; [done|]. by apply Hf, shaped_SET.
Qed.

(** The sequence of lines that a file in CRLF format contains. *)
Fixpoint run_lines (ok : Z -> bool) (ls : list (list Z)) (line : list Z) (lineno : Z)
    (st : cfg) : C cfg :=
  match ls with
  | [] => Ret st
  | l :: ls' =>
      line ← strcpy_at line 0 l;
      '(rc, line, st) ← CfgParseLine st line (Z.of_nat (length l)) lineno (ok lineno);
      if rc =? 0 then error else run_lines ok ls' line (lineno + 1) st
  end.

Definition crlf (l : list Z) : list Z := l ++ [13; 10].
Definition crlf_text (ls : list (list Z)) : list Z := mjoin (crlf <$> ls).

Definition line_char (c : Z) : Prop := is_byte c /\ is_eol c = false.
Definition file_line (l : list Z) : Prop :=
  Forall line_char l /\ Z.of_nat (length l) < MAXLENGTH.

Lemma wr_bytes_length s : forall b i b', wr_bytes b i s = Ret b' -> length b' = length b.
Proof.
  induction s as [|c s IH]; intros b i b'; cbn; [by intros [= <-]|].
  intros H. cinv. apply IH in H. apply wr8_length in E. congruence.
Qed.

Lemma shift_line_length b k b' : shift_line b k = Ret b' -> length b' = length b.
Proof. unfold shift_line. intros H. cinv. by eapply wr_bytes_length. Qed.

Lemma strupr_length s : forall s', strupr s = Ret s' -> length s' = length s.
Proof.
  induction s as [|c s IH]; intros s'; cbn; [done|].
  destruct (c =? 0); [by intros [= <-]|].
  intros (r & E & ->)%fmap_Ret_inv. cbn. f_equal. by apply IH.
Qed.

Lemma upper_line_length line len ok line' p :
  upper_line line len ok = Ret (line', p) -> length line' = length line.
Proof.
  unfold upper_line. destruct ok; [|done]. intros H. cinv. by apply strupr_length.
Qed.

Lemma options_0_8_length i o line len ok line' o' :
  options_0_8 i o line len ok = Ret (line', o') -> length line' = length line.
Proof.
  unfold options_0_8, upper_string. intros H.
  destruct i as [|[|[|[|[|[|[|[|i]]]]]]]];
    try (by apply fmap_Ret_inv in H as (x & H & [= <- <-]));
    cinv; destruct a as [l p]; cinv; apply upper_line_length in E; try done.
  destruct a0; cinv; [done|]. by destruct a0; cinv.
Qed.

Lemma set_option_length i o line len ok line' o' :
  set_option i o line len ok = Ret (line', o') -> length line' = length line.
Proof.
  unfold set_option. intros H.
  destruct (i <=? 8)%nat; [by eapply options_0_8_length|].
  repeat match type of H with
  | (if ?b then _ else _) = _ => destruct b
  end; by apply fmap_Ret_inv in H as (x & _ & [= <- _]).
Qed.

Lemma types_loop_length todo : forall i st line len lineno ok rc line' st',
  types_loop todo i st line len lineno ok = Ret (Some (rc, line', st')) ->
  length line' = length line.
Proof.
  induction todo as [|t todo IH]; intros i st line len lineno ok rc line' st';
    cbn [types_loop]; [done|].
  intros H. cinv. destruct (_ =? _)%nat; [|by eapply IH].
  cinv. destruct ok; cinv; by eapply shift_line_length.
Qed.

Lemma options_loop_length todo : forall i st line len ok rc line' st',
  options_loop todo i st line len ok = Ret (rc, line', st') ->
  length line' = length line.
Proof.
  induction todo as [|kw todo IH]; intros i st line len ok rc line' st';
    unfold options_loop; fold options_loop; [by intros [= <- <- <-]|].
  intros H. cinv. destruct a0; [|by eapply IH].
  cinv. destruct a1 as [l2 o]. cinv.
  apply set_option_length in E2. apply shift_line_length in E1. congruence.
Qed.

Lemma CfgParseLine_length st line len lineno ok rc line' st' :
  CfgParseLine st line len lineno ok = Ret (rc, line', st') -> length line' = length line.
Proof.
  unfold CfgParseLine. intros H. cinv. destruct a as [[[rc1 l1] st1]|].
  - cinv. by eapply types_loop_length.
  - by eapply options_loop_length.
Qed.

(** *** The loop on the lines of a CRLF file *)

Lemma wr8_in b i v : 0 <= i < Z.of_nat (length b) ->
  wr8 b i v = Ret (<[Z.to_nat i := u8 v]> b).
Proof.
  intros H. unfold wr8. destruct (Z.leb_spec 0 i); [|lia].
  destruct (Z.ltb_spec i (Z.of_nat (length b))); [done|lia].
Qed.

Definition skip_eol (off : Z) (rest : list Z) : Z :=
  match rest with
  | c :: _ => if is_eol c then off + 1 else off
  | [] => off
  end.

Section crlf_file.
Variable ok : Z -> bool.
Variable addr : list Z.
#[local] Abbreviation size := (Z.of_nat (length addr)).

(** One turn of the loop that stays in the line. *)
Lemma step_char fuel pre c rest b len lineno st :
  addr = pre ++ c :: rest -> is_eol c = false -> 0 <= len < MAXLENGTH ->
  length b = Z.to_nat MAXLENGTH ->
  parse_loop (S fuel) addr size ok (Z.of_nat (length pre)) b len lineno st =
  parse_loop fuel addr size ok (skip_eol (Z.of_nat (length pre) + 1) rest)
    (<[Z.to_nat len := u8 c]> b) (len + 1) lineno st.
Proof.
  intros Ha Hc Hl Hb. rewrite parse_loop_S.
  assert (Hs : size = Z.of_nat (length pre) + 1 + Z.of_nat (length rest))
    by (rewrite Ha, length_app; cbn [length]; lia).
  destruct (Z.ltb_spec (Z.of_nat (length pre)) size); [|lia].
  destruct (Z.ltb_spec len MAXLENGTH); [|lia]. cbn [andb].
  rewrite Ha at 1. rewrite rd8_pre by done. cbn [mbind C_bind].
  rewrite wr8_in by (unfold MAXLENGTH in *; lia). cbn [mbind C_bind].
  rewrite Hc. cbn [mbind C_bind]. destruct rest as [|d rest]; cbn [skip_eol].
  - cbn in Hs. rewrite Hs. by rewrite Z.add_0_r, Z.ltb_irrefl.
  - destruct (Z.ltb_spec (Z.of_nat (length pre) + 1) size); [|cbn [length] in Hs; lia].
    assert (rd8 addr (Z.of_nat (length pre) + 1) = Ret d) as ->; [|done].
    rewrite Ha, cons_middle, app_assoc. apply rd8_pre. rewrite length_app. cbn. lia.
Qed.

(** One turn of the loop that ends the line. *)
Lemma step_eol fuel pre c rest b len lineno st :
  addr = pre ++ c :: rest -> is_eol c = true -> 0 <= len < MAXLENGTH ->
  length b = Z.to_nat MAXLENGTH ->
  parse_loop (S fuel) addr size ok (Z.of_nat (length pre)) b len lineno st =
  ('(rc, b, st) ← CfgParseLine st (<[Z.to_nat len := 0]> b) len lineno (ok lineno);
   if rc =? 0 then error
   else parse_loop fuel addr size ok (skip_eol (Z.of_nat (length pre) + 1) rest)
          b 0 (lineno + 1) st).
Proof.
  intros Ha Hc Hl Hb. rewrite parse_loop_S.
  assert (Hs : size = Z.of_nat (length pre) + 1 + Z.of_nat (length rest))
    by (rewrite Ha, length_app; cbn [length]; lia).
  destruct (Z.ltb_spec (Z.of_nat (length pre)) size); [|lia].
  destruct (Z.ltb_spec len MAXLENGTH); [|lia]. cbn [andb].
  rewrite Ha at 1. rewrite rd8_pre by done. cbn [mbind C_bind].
  rewrite wr8_in by (unfold MAXLENGTH in *; lia). cbn [mbind C_bind]. rewrite Hc.
  rewrite wr8_in by (rewrite length_insert; unfold MAXLENGTH in *; lia).
  cbn [mbind C_bind]. rewrite list_insert_insert_eq.
  change (u8 0) with 0.
  destruct (CfgParseLine _ _ _ _ _) as [[[rc b'] st']| | |]; cbn [mbind C_bind]; try done.
  destruct (rc =? 0); [done|]. cbn [mbind C_bind].
  destruct rest as [|d rest]; cbn [skip_eol].
  - cbn in Hs. rewrite Hs. by rewrite Z.add_0_r, Z.ltb_irrefl.
  - destruct (Z.ltb_spec (Z.of_nat (length pre) + 1) size); [|cbn [length] in Hs; lia].
    assert (rd8 addr (Z.of_nat (length pre) + 1) = Ret d) as ->; [|done].
    rewrite Ha, cons_middle, app_assoc. apply rd8_pre. rewrite length_app. cbn. lia.
Qed.
End crlf_file.

Fixpoint puts (b : list Z) (k : nat) (l : list Z) : list Z :=
  match l with [] => b | c :: l' => puts (<[k := u8 c]> b) (S k) l' end.

Lemma puts_length l : forall b k, length (puts b k l) = length b.
Proof.
  induction l as [|c l IH]; intros b k; cbn; [done|]. by rewrite IH, length_insert.
Qed.

Lemma wr_bytes_puts l : forall b (k : nat), (k + length l <= length b)%nat ->
  wr_bytes b (Z.of_nat k) l = Ret (puts b k l).
Proof.
  induction l as [|c l IH]; intros b k Hk; cbn; [done|]. cbn in Hk.
  rewrite wr8_in by lia. cbn. rewrite Nat2Z.id.
  replace (Z.of_nat k + 1) with (Z.of_nat (S k)) by lia.
  apply IH. rewrite length_insert. lia.
Qed.

Lemma puts_app l1 l2 : forall b k, puts b k (l1 ++ l2) = puts (puts b k l1) (k + length l1) l2.
Proof.
  induction l1 as [|c l1 IH]; intros b k; cbn; [by rewrite Nat.add_0_r|].
  by rewrite IH, Nat.add_succ_comm.
Qed.

Lemma strcpy_puts b l : (length l < length b)%nat ->
  strcpy_at b 0 l = Ret (<[length l := 0]> (puts b 0 l)).
Proof.
  intros H. unfold strcpy_at. rewrite (wr_bytes_puts _ _ 0); [by rewrite puts_app|].
  rewrite length_app; cbn [length]. lia.
Qed.

Lemma crlf_text_cons l ls : crlf_text (l :: ls) = l ++ 13 :: 10 :: crlf_text ls.
Proof. unfold crlf_text, crlf. cbn. by rewrite <- app_assoc. Qed.

(** The position between two lines: at the next line, or, when that line is
    empty, possibly already behind its carriage return. *)
Definition between (off : Z) (pre : list Z) (ls : list (list Z)) : Prop :=
  off = Z.of_nat (length pre) \/
  (off = Z.of_nat (length pre) + 1 /\ head ls = Some []).

Lemma between_skip pre ls :
  Forall file_line ls ->
  between (skip_eol (Z.of_nat (length pre)) (crlf_text ls)) pre ls.
Proof.
  intros H. destruct ls as [|l ls]; [by left|]. rewrite crlf_text_cons.
  destruct l as [|c l]; cbn [app skip_eol]; [by right|].
  apply Forall_cons in H as [[[[_ Hc] _]%Forall_cons _] _]. rewrite Hc. by left.
Qed.

Section crlf_lines.
Variable ok : Z -> bool.
Variable addr : list Z.
#[local] Abbreviation size := (Z.of_nat (length addr)).

(** The characters of a line, up to and including the first end-of-line
    character. *)
Lemma chars_run l : forall fuel pre e rest b (k : nat) lineno st,
  l <> [] -> Forall line_char l -> is_eol e = true ->
  addr = pre ++ l ++ e :: rest -> Z.of_nat (k + length l) < MAXLENGTH ->
  length b = Z.to_nat MAXLENGTH ->
  parse_loop (length l + fuel) addr size ok (Z.of_nat (length pre)) b (Z.of_nat k) lineno st =
  parse_loop fuel addr size ok (Z.of_nat (length (pre ++ l ++ [e])))
    (puts b k l) (Z.of_nat (k + length l)) lineno st.
Proof.
  induction l as [|c l IH]; intros fuel pre e rest b k lineno st Hn Hl He Ha Hk Hb;
    [done|].
  inversion_clear Hl as [|? ? [Hc1 Hc2] Hl']. cbn [length] in *.
  rewrite Nat.add_succ_l.
  rewrite (step_char ok addr _ pre c (l ++ e :: rest)); [|done|done|lia|done].
  cbn [puts]. rewrite Nat2Z.id. replace (Z.of_nat k + 1) with (Z.of_nat (S k)) by lia.
  destruct l as [|d l].
  - cbn [app skip_eol length puts]. rewrite He. cbn [Nat.add].
    rewrite !length_app. cbn [length]. rewrite ?length_app. cbn [length]. f_equal; lia.
  - assert (Hd : is_eol d = false) by (inversion Hl' as [|? ? [? ?]]; done).
    cbn [app skip_eol]. rewrite Hd.
    specialize (IH fuel (pre ++ [c]) e rest (<[k := u8 c]> b) (S k) lineno st).
    rewrite length_app in IH. cbn [length] in *.
    replace (Z.of_nat (length pre + 1)) with (Z.of_nat (length pre) + 1) in IH by lia.
    rewrite IH; [|done|done|done|by rewrite Ha, <- app_assoc|lia|by rewrite length_insert].
    rewrite !length_app. cbn [length]. rewrite ?length_app. cbn [length]. f_equal; lia.
Qed.

Lemma parse_loop_lines ls : forall fuel pre b off lineno st,
  Forall file_line ls -> addr = pre ++ crlf_text ls -> between off pre ls ->
  length b = Z.to_nat MAXLENGTH -> (length (crlf_text ls) < fuel)%nat ->
  parse_loop fuel addr size ok off b 0 lineno st = run_lines ok ls b lineno st.
Proof.
  induction ls as [|l ls IH]; intros fuel pre b off lineno st Hls Ha Hoff Hb Hf.
  - destruct fuel as [|fuel]; [cbn in Hf; lia|]. rewrite parse_loop_S.
    destruct Hoff as [->|[_ Hh]]; [|done].
    change (crlf_text []) with (@nil Z) in Ha. rewrite Ha, app_nil_r.
    by rewrite Z.ltb_irrefl.
  - inversion_clear Hls as [|? ? [Hl Hlen] Hls']. rewrite crlf_text_cons in Ha, Hf.
    rewrite length_app in Hf. cbn [length] in Hf. cbn [run_lines].
    rewrite strcpy_puts by (unfold MAXLENGTH in *; lia). cbn [mbind C_bind].
    assert (Next : forall fuel' e pre' off',
      (length (crlf_text ls) < fuel')%nat -> is_eol e = true ->
      off' = Z.of_nat (length pre') -> addr = pre' ++ e :: crlf_text ls ->
      parse_loop (S fuel') addr size ok off' (puts b 0 l) (Z.of_nat (length l)) lineno st =
      ('(rc, line, st) ← CfgParseLine st (<[length l := 0]> (puts b 0 l))
          (Z.of_nat (length l)) lineno (ok lineno);
       if rc =? 0 then error else run_lines ok ls line (lineno + 1) st)).
    { intros fuel' e pre' off' Hf' He -> Ha'.
      rewrite (step_eol ok addr _ pre' e (crlf_text ls)); [|done|done|lia|by rewrite puts_length].
      rewrite Nat2Z.id.
      destruct (CfgParseLine _ _ _ _ _) as [[[rc b'] st']| | |] eqn:E; cbn [mbind C_bind]; try done.
      destruct (rc =? 0); [done|].
      apply CfgParseLine_length in E. rewrite length_insert, puts_length in E.
      apply (IH _ (pre' ++ [e])); [done|by rewrite Ha', <- app_assoc| |congruence|lia].
      replace (Z.of_nat (length pre') + 1) with (Z.of_nat (length (pre' ++ [e])))
        by (rewrite length_app; cbn [length]; lia).
      by apply between_skip. }
    destruct l as [|c l'].
    + (* an empty line: at its CR, or behind it *)
      cbn [app puts length] in *. destruct fuel as [|fuel]; [lia|].
      destruct Hoff as [->|[-> _]].
      * rewrite (step_eol ok addr _ pre 13 (10 :: crlf_text ls)); [|done|done|unfold MAXLENGTH; lia|done].
        destruct (CfgParseLine _ _ _ _ _) as [[[rc b'] st']| | |] eqn:E; cbn [mbind C_bind]; try done.
        destruct (rc =? 0); [done|].
        apply CfgParseLine_length in E. rewrite length_insert in E.
        apply (IH _ (pre ++ [13; 10])); [done|by rewrite Ha, <- app_assoc| |congruence|lia].
        left. cbn [skip_eol]. change (is_eol 10) with true. cbv iota.
        rewrite length_app. cbn [length]. lia.
      * apply (Next fuel 10 (pre ++ [13])); [lia|done|rewrite length_app; cbn [length]; lia|].
        by rewrite Ha, <- app_assoc.
    + destruct Hoff as [->|[_ [=]]]. set (l := c :: l') in *.
      assert (exists f, fuel = (length l + S f)%nat /\ (length (crlf_text ls) < f)%nat)
        as (f & -> & Hf') by (exists (fuel - length l - 1)%nat; lia).
      change 0 with (Z.of_nat 0). rewrite (chars_run l _ pre 13 (10 :: crlf_text ls)); try done.
      apply (Next f 10 (pre ++ l ++ [13])); [done|done|done|].
      by rewrite Ha, <- !app_assoc.
Qed.
End crlf_lines.

(** C2: A file in CRLF format is parsed line by line: the parser ends in the
    state that its lines, numbered from 0, produce one after the other. *)
Theorem parse_crlf ok ls line0 st :
  Forall file_line ls -> length line0 = Z.to_nat MAXLENGTH ->
  CfgParseConfig (crlf_text ls) (Z.of_nat (length (crlf_text ls))) line0 ok st =
  (st ← run_lines ok ls line0 0 st; Ret (0, st)).
Proof.
  intros Hls Hb. unfold CfgParseConfig.
  rewrite (parse_loop_lines ok (crlf_text ls) ls _ [] line0 0); try done; [by left|lia].
Qed.

(** No two end-of-line characters are adjacent and none comes first. *)
Fixpoint lone_eols (s : list Z) : bool :=
  match s with
  | [] => true
  | c :: s1 =>
      negb (is_eol c) &&
      match s1 with
      | [] => true
      | e :: s2 => if is_eol e then lone_eols s2 else lone_eols s1
      end
  end.

Lemma parse_loop_lone ok addr : forall fuel pre s b len lineno st,
  addr = pre ++ s -> lone_eols s = true -> 0 <= len -> (length s < fuel)%nat ->
  length b = Z.to_nat MAXLENGTH ->
  parse_loop fuel addr (Z.of_nat (length addr)) ok (Z.of_nat (length pre)) b len lineno st =
    Ret st.
Proof.
  induction fuel as [|fuel IH]; intros pre s b len lineno st Ha Hs Hlen Hf Hb; [lia|].
  destruct (decide (len < MAXLENGTH)) as [Hm|Hm].
  2:{ rewrite parse_loop_S. destruct (Z.ltb_spec len MAXLENGTH); [lia|].
      by rewrite andb_false_r. }
  destruct s as [|c s].
  { rewrite parse_loop_S, Ha, app_nil_r. by rewrite Z.ltb_irrefl. }
  cbn [lone_eols length] in *. apply andb_true_iff in Hs as [Hc%negb_true_iff Hs].
  rewrite (step_char ok addr _ pre c s) by done.
  assert (Next : forall pre' s', addr = pre' ++ s' -> lone_eols s' = true ->
    (length s' < fuel)%nat ->
    parse_loop fuel addr (Z.of_nat (length addr)) ok (Z.of_nat (length pre'))
      (<[Z.to_nat len := u8 c]> b) (len + 1) lineno st = Ret st).
  { intros pre' s' Ha' Hs' Hf'. apply (IH pre' s'); try done; [lia|].
    by rewrite length_insert. }
  destruct s as [|e s]; cbn [skip_eol].
  - rewrite <- (Next (pre ++ [c]) []); [|by rewrite app_nil_r|done|cbn; lia].
    f_equal. rewrite length_app. cbn. lia.
  - destruct (is_eol e) eqn:He; cbn [length] in Hf.
    + rewrite <- (Next (pre ++ [c; e]) s); [|by rewrite Ha, <- app_assoc|done|lia].
      f_equal. rewrite length_app. cbn. lia.
    + rewrite <- (Next (pre ++ [c]) (e :: s)); [|by rewrite Ha, <- app_assoc|done|cbn; lia].
      f_equal. rewrite length_app. cbn. lia.
Qed.

(** Where the end-of-line handling goes wrong: after every character the
    parser steps over an end-of-line character, so in a file whose lines end
    with a single CR or LF, with no line empty, it never sees the end of a
    line: nothing is parsed. *)
Theorem lone_eols_unparsed addr line0 ok st :
  lone_eols addr = true -> length line0 = Z.to_nat MAXLENGTH ->
  CfgParseConfig addr (Z.of_nat (length addr)) line0 ok st = Ret (0, st).
Proof.
  intros Hs Hb. unfold CfgParseConfig.
  change 0 with (Z.of_nat (@length Z [])) at 1.
  by rewrite (parse_loop_lone ok addr _ [] addr) by (done || lia).
Qed.

(** ** Lines of the keyword tables, in all cases *)

Lemma copy_line_minus1 line : copy_line line (-1) = Undef.
Proof.
  destruct (cstr line) as [s| | |] eqn:E; [by eapply copy_line_negative| | |];
    unfold copy_line; rewrite E; cbn; try done.
  all: exfalso; revert E; clear; induction line as [|c line IH]; cbn; try done;
    destruct (c =? 0); try done; by destruct (cstr line); intros; try (apply IH).
Qed.

Lemma shift_line_cases line k :
  (exists l', shift_line line k = Ret l') \/ shift_line line k = Undef.
Proof.
  unfold shift_line, strcpy_at.
  assert (Hc : forall b, (exists s, cstr b = Ret s) \/ cstr b = Undef).
  { induction b as [|c b IH]; cbn; [by right|]. destruct (c =? 0); [eauto|].
    destruct IH as [[s ->]| ->]; cbn; eauto. }
  assert (Hw : forall s b i, (exists b', wr_bytes b i s = Ret b') \/ wr_bytes b i s = Undef).
  { induction s as [|c s IH]; intros b i; cbn; [eauto|].
    unfold wr8. destruct (_ && _); cbn; [apply IH|by right]. }
  destruct (Hc (drop k line)) as [[s ->]| ->]; cbn; [apply Hw|by right].
Qed.

(** A line that begins with a keyword of the tables, in either case: when
    nothing follows the keyword, or the table is full, the behaviour is
    undefined (a block of no bytes is written, an array overflows);
    otherwise the text after the keyword and one more character, whatever it
    is, is appended to the table with the line number, and nothing else
    changes. *)
Theorem table_line_spec st l r lineno i t :
  shaped st -> text l -> Z.of_nat (length l) + 1 < 2 ^ 32 ->
  find_type (type st) l = Some (i, t) -> (ip t <= cap t)%nat ->
  if decide (length l = length (ty_name t) \/ ip t = cap t) then
    CfgParseLine st (in_buffer l r) (Z.of_nat (length l)) lineno true = Undef
  else exists r',
    CfgParseLine st (in_buffer l r) (Z.of_nat (length l)) lineno true =
      Ret (1, in_buffer (drop (S (length (ty_name t))) l) r',
           mkCfg (<[i := stored t lineno l]> (type st)) (options st)).
Proof.
  intros Hs Ht Hl Hf Hip. pose proof (find_type_length _ _ _ _ Hf) as [Hlen _].
  destruct (decide (length l = length (ty_name t))) as [Hk|Hk].
  { rewrite decide_True by by left. unfold CfgParseLine.
    rewrite (types_loop_some _ _ _ 0 _ _ _ _ _ (shaped_proper _ Hs) Hf), Hk.
    replace (_ - _) with (-1) by lia.
    destruct (shift_line_cases (in_buffer l r) (S (length (ty_name t)))) as [[b ->]| ->];
      [|done]. cbn [mbind C_bind]. by rewrite copy_line_minus1. }
  destruct (decide (ip t = cap t)) as [Hfull|Hfull].
  { rewrite decide_True by by right. unfold CfgParseLine.
    rewrite (types_loop_some _ _ _ 0 _ _ _ _ _ (shaped_proper _ Hs) Hf).
    destruct (shift_line_spec l r (S (length (ty_name t)))) as (r' & -> & Hr'); [done|lia|].
    cbn [mbind C_bind].
    replace (_ - _) with (Z.of_nat (length (drop (S (length (ty_name t))) l)))
      by (rewrite length_drop; lia).
    rewrite copy_line_spec; [|by apply text_drop|rewrite length_drop; lia].
    cbn [mbind C_bind]. by rewrite add_name_full. }
  rewrite decide_False by tauto.
  destruct (parse_line_table_run st l r lineno i t) as (r' & _ & E); [done..|lia|lia|].
  by exists r'.
Qed.

(** A line that is neither is skipped. *)
Lemma parse_line_ignored st l r lineno ok :
  shaped st -> find_type (type st) l = None -> find_option l = None ->
  CfgParseLine st (in_buffer l r) (Z.of_nat (length l)) lineno ok =
    Ret (2, in_buffer l r, st).
Proof.
  intros Hs Hf Ho. unfold CfgParseLine.
  rewrite types_loop_none by (done || by apply shaped_proper). cbn [mbind C_bind].
  apply options_loop_none; [apply options_list_proper|done].
Qed.

Lemma parse_line_option st l r lineno ok i kw :
  shaped st -> text l -> find_type (type st) l = None -> find_option l = Some (i, kw) ->
  exists r', length (in_buffer (drop (S (length kw)) l) r') = length (in_buffer l r) /\
  CfgParseLine st (in_buffer l r) (Z.of_nat (length l)) lineno ok =
    ('(line, o) ← set_option i (options st) (in_buffer (drop (S (length kw)) l) r')
                    (Z.of_nat (length (drop (S (length kw)) l))) ok;
     Ret (1, line, mkCfg (type st) o)).
Proof.
  intros Hs Ht Hf Ho. unfold CfgParseLine.
  rewrite types_loop_none by (done || by apply shaped_proper). cbn [mbind C_bind].
  pose proof Ho as Hl. apply list_find_Some in Hl as (_ & Hl%starts_length & _).
  rewrite length_app in Hl. change (length (bstr "=")) with 1%nat in Hl.
  rewrite (options_loop_some _ _ _ _ i kw) by (done || apply options_list_proper).
  destruct (shift_line_spec l r (S (length kw))) as (r' & -> & Hr'); [done|lia|].
  exists r'. split; [done|]. cbn [mbind C_bind Nat.add].
  rewrite length_drop. replace (_ - _) with (Z.of_nat (length l - S (length kw))) by lia.
  done.
Qed.

(** The tables' keywords are those of the program. *)
Lemma find_type_names st l : shaped st ->
  fst <$> find_type (type st) l =
  fst <$> find_type (type static_cfg) l.
Proof.
  unfold shaped, find_type. intros H.
  assert (G : forall ty ty' : list types,
    (fun t => (ty_name t, cap t)) <$> ty = (fun t => (ty_name t, cap t)) <$> ty' ->
    fst <$> list_find (fun t => starts (ty_name t) l = true) ty =
    fst <$> list_find (fun t => starts (ty_name t) l = true) ty');
    [|by apply G].
  clear. induction ty as [|t ty IH]; intros [|t' ty'] H; try done.
  injection H as Hn Hc H. cbn [list_find]. rewrite Hn.
  case_decide; [done|]. specialize (IH _ H).
  destruct (list_find _ ty) as [[? ?]|], (list_find _ ty') as [[? ?]|]; cbn in *; congruence.
Qed.

Lemma find_type_none st l : shaped st ->
  find_type (type static_cfg) l = None -> find_type (type st) l = None.
Proof.
  intros H E. pose proof (find_type_names st l H) as F. rewrite E in F.
  by apply fmap_None in F.
Qed.

(** The options that take a string, the field each is stored in, and whether
    the string is converted to upper case.  SETBOOT is missing, see
    [setboot_unreachable]. *)
Definition string_options : list (string * string_field * bool) :=
  [("COUNTRY", country, true); ("DISKCACHE", diskcache, true);
   ("IBM_JAVA_OPTIONS", ibm_java_options, false); ("IOPL", iopl, false);
   ("IROPT", iropt, false); ("LIBPATH", libpath, false); ("MEMMAN", memman, false);
   ("PRINTMONBUFSIZE", printmonbufsize, false); ("PROTSHELL", protshell, false);
   ("SOURCEPATH", sourcepath, false); ("STRACE", strace, false);
   ("SWAPPATH", swappath, false); ("SYSDUMP", sysdump, false);
   ("TIMESLICE", timeslice, false); ("TRACE", trace, false);
   ("TRAPDUMP", trapdump, false); ("TRAPLOG", traplog, false)]%string.

Lemma text_upper l : text l -> text (upper l).
Proof.
  intros H. apply Forall_fmap. eapply Forall_impl; [exact H|]. cbn. intros c Hc.
  unfold toupper. destruct (Z.leb_spec 97 c), (Z.leb_spec c 122); cbn; lia.
Qed.

Lemma strupr_text l r : text l -> strupr (in_buffer l r) = Ret (in_buffer (upper l) r).
Proof.
  unfold in_buffer. induction 1 as [|c l Hc _ IH]; cbn; [done|].
  destruct (Z.eqb_spec c 0); [lia|]. by rewrite IH.
Qed.

Definition store_string (up : bool) (f : string_field) (o : cfg_opts) (line : list Z)
    (len : Z) (ok : bool) : C (list Z * cfg_opts) :=
  if up then upper_string o line len ok f
  else (fun o => (line, o)) <$> a_string o line len ok f.

Lemma store_string_spec up f o v r :
  text v -> Z.of_nat (length v) + 1 < 2 ^ 32 ->
  exists line, store_string up f o (in_buffer v r) (Z.of_nat (length v)) true =
    Ret (line, set_string o f (Str (if up then upper v else v))).
Proof.
  intros Hv Hl. destruct up; cbn [store_string];
    unfold upper_string, upper_line, a_string, dup_line.
  - rewrite strupr_text by done. cbn [mbind C_bind].
    replace (Z.of_nat (length v)) with (Z.of_nat (length (upper v)))
      by (unfold upper; by rewrite length_fmap).
    rewrite copy_line_spec; [by eexists|by apply text_upper|].
    unfold upper. by rewrite length_fmap.
  - rewrite copy_line_spec by done. by eexists.
Qed.

Lemma string_case i kw f up st v r lineno :
  (forall o line len ok, set_option i o line len ok = store_string up f o line len ok) ->
  find_type (type static_cfg) (kw ++ bstr "=" ++ v) = None ->
  find_option (kw ++ bstr "=" ++ v) = Some (i, kw) ->
  shaped st -> text kw -> text v -> Z.of_nat (length v) + 1 < 2 ^ 32 ->
  exists line', CfgParseLine st (in_buffer (kw ++ bstr "=" ++ v) r)
      (Z.of_nat (length (kw ++ bstr "=" ++ v))) lineno true =
    Ret (1, line', mkCfg (type st)
      (set_string (options st) f (Str (if up then upper v else v)))).
Proof.
  intros Hi Hf Ho Hs Hk Hv Hl.
  destruct (parse_line_option st (kw ++ bstr "=" ++ v) r lineno true i kw)
    as (r' & _ & ->); [done| |by apply find_type_none|done|].
  { rewrite !text_app. split_and!; [done|by apply text_check|done]. }
  assert (drop (S (length kw)) (kw ++ bstr "=" ++ v) = v) as ->.
  { change (bstr "=") with [ch "="%char]. rewrite app_assoc.
    apply drop_app_length'. rewrite length_app. cbn. lia. }
  rewrite Hi. destruct (store_string_spec up f (options st) v r' Hv Hl) as [line ->].
  by eexists.
Qed.

Lemma option_line_run st (kw : string) (f : string_field) (up : bool) v r lineno :
  (kw, f, up) ∈ string_options ->
  shaped st -> text v -> Z.of_nat (length v) + 1 < 2 ^ 32 ->
  exists line', CfgParseLine st (in_buffer (bstr kw ++ bstr "=" ++ v) r)
      (Z.of_nat (length (bstr kw ++ bstr "=" ++ v))) lineno true =
    Ret (1, line', mkCfg (type st)
      (set_string (options st) f (Str (if up then upper v else v)))).
Proof.
  intros Hin Hs Hv Hl. unfold string_options in Hin.
  repeat (apply elem_of_cons in Hin as [E|Hin];
    [injection E as Ek Ef Eu; rewrite Ek, Ef, Eu; clear kw f up Ek Ef Eu;
     first [eapply (string_case _ _ _ true)|eapply (string_case _ _ _ false)];
     [|reflexivity|reflexivity|done|by apply text_check|done|done]; reflexivity|]).
  by apply elem_of_nil in Hin.
Qed.

(** Each of these options stores the text after the equals sign in its
    field, whatever the text is, and changes nothing else. *)
Theorem string_option_stored st (kw : string) (f : string_field) (up : bool) v r lineno :
  (kw, f, up) ∈ string_options ->
  shaped st -> text v -> Z.of_nat (length v) + 1 < 2 ^ 32 ->
  exists line', CfgParseLine st (in_buffer (bstr kw ++ bstr "=" ++ v) r)
      (Z.of_nat (length (bstr kw ++ bstr "=" ++ v))) lineno true =
    Ret (1, line', mkCfg (type st)
      (set_string (options st) f (Str (if up then upper v else v)))).
Proof. apply option_line_run. Qed.

(** ** Environment variables *)

(** An entry cut at its first equals sign. *)
Fixpoint split_eq (s : list Z) : option (list Z * list Z) :=
  match s with
  | [] => None
  | c :: s' => if c =? ch "="%char then Some ([], s')
               else prod_map (cons c) id <$> split_eq s'
  end.

(** The value an entry gives to the variable [nm]: the entry's name must be a
    prefix of [nm] in upper case. *)
Definition entry_value (nm s : list Z) : option (list Z) :=
  '(k, v) ← split_eq s;
  if bool_decide (k `prefix_of` upper nm) then Some v else None.

Fixpoint env_lookup (nm : list Z) (es : list (list Z)) : option (list Z) :=
  match es with
  | [] => None
  | s :: es' => match entry_value nm s with Some v => Some v | None => env_lookup nm es' end
  end.

(** The entries of the environment table. *)
Definition has_env (st : cfg) (es : list (list Z)) : Prop :=
  exists t, type st !! 3%nat = Some t /\ nm_string <$> sp t = Str <$> es.

Lemma split_eq_cons k v : Forall (fun c => c <> ch "="%char) k ->
  split_eq (k ++ ch "="%char :: v) = Some (k, v).
Proof.
  induction 1 as [|c k Hc _ IH]; cbn [app split_eq].
  - by rewrite Z.eqb_refl.
  - destruct (Z.eqb_spec c (ch "="%char)); [done|]. by rewrite IH.
Qed.

Lemma getenv_cmp_spec r s : text s -> forall nm pre,
  exists p, getenv_cmp s (pre ++ nm ++ 0 :: r) (Z.of_nat (length pre)) = Ret p /\
    match p with
    | c :: v => if c =? ch "="%char then entry_value nm s = Some v
                else entry_value nm s = None
    | [] => entry_value nm s = None
    end.
Proof.
  induction 1 as [|c s Hc _ IH]; intros nm pre; cbn [getenv_cmp].
  - by exists [].
  - destruct (Z.eqb_spec c (ch "="%char)) as [->|Hne].
    { eexists. split; [done|]. cbv beta iota. rewrite Z.eqb_refl. unfold entry_value.
      change (split_eq _) with (Some (@nil Z, s)). cbn.
      by rewrite bool_decide_eq_true_2 by apply prefix_nil. }
    assert (Es : split_eq (c :: s) = prod_map (cons c) id <$> split_eq s).
    { cbn [split_eq]. destruct (Z.eqb_spec c (ch "="%char)); done. }
    destruct nm as [|x nm]; cbn [app]; rewrite rd8_pre by done; cbn [mbind C_bind].
    + change (toupper 0) with 0. destruct (Z.eqb_spec c 0); [lia|].
      eexists. split; [done|]. cbv beta iota. destruct (Z.eqb_spec c (ch "="%char)); [done|].
      unfold entry_value. rewrite Es. destruct (split_eq s) as [[k v]|]; [|done]. cbn.
      rewrite bool_decide_eq_false_2; [done|]. by intros ?%prefix_nil_not.
    + destruct (Z.eqb_spec c (toupper x)) as [->|Hx].
      * destruct (IH nm (pre ++ [x])) as (p & E & Hp).
        rewrite <- app_assoc, length_app, Nat2Z.inj_add in E. cbn in E.
        exists p. split; [done|].
        assert (entry_value (x :: nm) (toupper x :: s) = entry_value nm s) as ->; [|done].
        unfold entry_value. rewrite Es, upper_cons.
        destruct (split_eq s) as [[k v]|]; [|done]. cbn.
        assert (bool_decide (toupper x :: k `prefix_of` toupper x :: upper nm) =
                bool_decide (k `prefix_of` upper nm)) as ->; [|done].
        apply bool_decide_ext. split; [apply prefix_cons_inv_2|apply prefix_cons].
      * eexists. split; [done|]. cbv beta iota. destruct (Z.eqb_spec c (ch "="%char)); [done|].
        unfold entry_value. rewrite Es, upper_cons.
        destruct (split_eq s) as [[k v]|]; [|done]. cbn.
        rewrite bool_decide_eq_false_2; [done|]. by intros ?%prefix_cons_inv_1.
Qed.

(** [CfgGetenv] finds the first entry whose name is a prefix of the
    upper-cased argument and copies its value; without one it reports
    ERROR_ENVVAR_NOT_FOUND. *)
Lemma getenv_spec st es nm r vcap :
  has_env st es -> Forall text es -> Forall (fun s => Z.of_nat (length s) < vcap) es ->
  CfgGetenv st (in_buffer nm r) vcap =
  Ret (match env_lookup nm es with
       | Some v => (NO_ERROR, Some v)
       | None => (ERROR_ENVVAR_NOT_FOUND, None)
       end).
Proof.
  intros (t & Ht & Hes) Htext Hcap. unfold CfgGetenv. rewrite Ht. cbn [need mbind C_bind].
  revert Hes Htext Hcap. generalize (sp t). clear.
  induction es as [|s es IH]; intros [|n l] Hes Htext Hcap; try done.
  injection Hes as Hn Hes. inversion_clear Htext as [|? ? Hs Htext'].
  inversion_clear Hcap as [|? ? Hc Hcap']. cbn [getenv_loop env_lookup].
  rewrite Hn. cbn [deref mbind C_bind].
  destruct (getenv_cmp_spec r s Hs nm []) as (p & E & Hp). cbn [app length] in E.
  change (Z.of_nat 0) with 0 in E. unfold in_buffer. rewrite E. cbn [mbind C_bind].
  destruct p as [|c v]; [rewrite Hp; by apply IH|].
  destruct (c =? ch "="%char); rewrite Hp; [|by apply IH].
  assert (Hv : (length v < length s)%nat).
  { clear - Hp. unfold entry_value in Hp. revert v Hp.
    assert (forall k v, split_eq s = Some (k, v) -> (length v < length s)%nat) as G.
    { induction s as [|c s IH]; intros k v; cbn; [done|].
      destruct (c =? _); [intros [= <- <-]; lia|].
      destruct (split_eq s) as [[k' v']|]; [|done]. intros [= <- <-]. cbn.
      specialize (IH k' v' eq_refl). lia. }
    intros v Hp. destruct (split_eq s) as [[k v']|] eqn:E; [|done]. cbn in Hp.
    destruct (bool_decide _); [|done]. injection Hp as ->. by eapply G. }
  destruct (Z.leb_spec (Z.of_nat (length v) + 1) vcap); [done|lia].
Qed.

(** A line of a file: a variable or a line that the parser skips. *)
Inductive item := Var (k v : list Z) | Other (l : list Z).

Definition render (i : item) : list Z :=
  match i with
  | Var k v => bstr "SET " ++ k ++ bstr "=" ++ v
  | Other l => l
  end.

Definition item_ok (i : item) : Prop :=
  file_line (render i) /\ text (render i) /\
  match i with
  | Var k v => Forall (fun c => c <> ch "="%char) k
  | Other l => find_type (type static_cfg) l = None /\ find_option l = None
  end.

Definition variables (its : list item) : list (list Z) :=
  omap (fun i => match i with
                 | Var k v => Some (k ++ bstr "=" ++ v)
                 | Other _ => None
                 end) its.

Lemma find_type_SET x : fst <$> find_type (type static_cfg) (bstr "SET " ++ x) = Some 3%nat.
Proof. reflexivity. Qed.

Lemma shaped_cap st i t : shaped st -> type st !! i = Some t ->
  exists t0, type static_cfg !! i = Some t0 /\ ty_name t = ty_name t0 /\ cap t = cap t0.
Proof.
  unfold shaped. intros H Ht. apply (f_equal (lookup i)) in H.
  rewrite !list_lookup_fmap, Ht in H. destruct (type static_cfg !! i) as [t0|]; [|done].
  exists t0. by injection H as -> ->.
Qed.

Lemma parse_line_var st k v r lineno es :
  shaped st -> has_env st es -> (length es < 150)%nat ->
  text (render (Var k v)) -> Z.of_nat (length (render (Var k v))) + 1 < 2 ^ 32 ->
  exists line st', length line = length (in_buffer (render (Var k v)) r) /\
  CfgParseLine st (in_buffer (render (Var k v)) r)
    (Z.of_nat (length (render (Var k v)))) lineno true = Ret (1, line, st') /\
  shaped st' /\ has_env st' (es ++ [k ++ bstr "=" ++ v]).
Proof.
  intros Hs (t & Ht & Hes) Hn Htx Hl.
  destruct (shaped_cap st 3 t Hs Ht) as (t0 & E0 & Hname & Hcap).
  injection E0 as <-. cbn in Hname, Hcap.
  assert (Hf : find_type (type st) (render (Var k v)) = Some (3%nat, t)).
  { pose proof (find_type_names st (render (Var k v)) Hs) as F.
    cbn [render] in *. rewrite find_type_SET in F.
    destruct (find_type (type st) _) as [[i t']|] eqn:E; [|done].
    injection F as ->. apply find_type_length in E as [_ E]. congruence. }
  assert (Hip : ip t = length es).
  { unfold ip. apply (f_equal length) in Hes. by rewrite !length_fmap in Hes. }
  destruct (parse_line_table_run st (render (Var k v)) r lineno 3 t) as (r' & Hr' & E);
    [done..| |lia|].
  { rewrite Hname. cbn [render]. rewrite length_app.
    change (length SET) with 3%nat. change (length (bstr "SET ")) with 4%nat. lia. }
  eexists _, _. split_and!; [exact Hr'|exact E| |].
  - eapply shaped_effect; [exact Hs|]. right. left. split; [done|].
    exists 3%nat, t, lineno, (drop (S (length (ty_name t))) (render (Var k v))). done.
  - exists (stored t lineno (render (Var k v))). cbn [type]. split.
    + apply list_lookup_insert_eq. by eapply lookup_lt_Some.
    + unfold stored. cbn [sp]. rewrite !fmap_app, Hes. cbn. rewrite Hname. done.
Qed.

(** Lines that each do a step, from an invariant of the lines so far. *)
Section run_items.
Context {A : Type} (rend : A -> list Z) (its : list A) (I : list A -> cfg -> Prop).
Hypothesis Hits : Forall (fun i => file_line (rend i) /\ text (rend i)) its.
Hypothesis Hstep : forall pre i post st r lineno, its = pre ++ i :: post -> I pre st ->
  text (rend i) -> Z.of_nat (length (rend i)) + 1 < 2 ^ 32 ->
  exists rc line st', CfgParseLine st (in_buffer (rend i) r) (Z.of_nat (length (rend i)))
      lineno true = Ret (rc, line, st') /\ rc <> 0 /\ I (pre ++ [i]) st'.

Lemma run_lines_steps post : forall pre st lineno buf,
  its = pre ++ post -> I pre st -> length buf = Z.to_nat MAXLENGTH ->
  exists st', run_lines (fun _ => true) (rend <$> post) buf lineno st = Ret st' /\ I its st'.
Proof using Hits Hstep.
  induction post as [|i post IH]; intros pre st lineno buf E HI Hb; cbn [fmap list_fmap run_lines].
  - exists st. rewrite app_nil_r in E. by subst pre.
  - assert (Hi : file_line (rend i) /\ text (rend i)).
    { pose proof Hits as H. rewrite E in H. apply Forall_app in H as [_ H]. by inversion H. }
    destruct Hi as [[_ Hlen] Htx]. unfold MAXLENGTH in *.
    rewrite strcpy_at_0 by (done || lia). cbn [mbind C_bind].
    fold (in_buffer (rend i) (drop (S (length (rend i))) buf)).
    destruct (Hstep pre i post st (drop (S (length (rend i))) buf) lineno)
      as (rc & line & st' & EL & Hrc & HI'); [done..|lia|].
    rewrite EL. cbn [mbind C_bind]. apply CfgParseLine_length in EL.
    destruct (Z.eqb_spec rc 0); [done|]. apply (IH (pre ++ [i])); [by rewrite <- app_assoc|done|].
    rewrite EL. unfold in_buffer. rewrite length_app. cbn [length]. rewrite length_drop. lia.
Qed.

Lemma parse_items st line0 : I [] st -> length line0 = Z.to_nat MAXLENGTH ->
  let file := crlf_text (rend <$> its) in
  exists st', CfgParseConfig file (Z.of_nat (length file)) line0 (fun _ => true) st =
    Ret (0, st') /\ I its st'.
Proof using Hits Hstep.
  intros HI Hb file. unfold file, CfgParseConfig.
  rewrite (parse_loop_lines (fun _ => true) _ (rend <$> its) _ [] line0 0); try done;
    [|apply Forall_fmap; eapply Forall_impl; [exact Hits|]; by intros i [H _]|by left|lia].
  destruct (run_lines_steps its [] st 0 line0) as (st' & -> & HI'); [done..|]. by exists st'.
Qed.
End run_items.

Lemma item_step its es : Forall item_ok its -> (length es + length (variables its) <= 150)%nat ->
  forall pre i post st r lineno, its = pre ++ i :: post ->
  shaped st /\ has_env st (es ++ variables pre) ->
  text (render i) -> Z.of_nat (length (render i)) + 1 < 2 ^ 32 ->
  exists rc line st', CfgParseLine st (in_buffer (render i) r) (Z.of_nat (length (render i)))
      lineno true = Ret (rc, line, st') /\ rc <> 0 /\
    shaped st' /\ has_env st' (es ++ variables (pre ++ [i])).
Proof.
  intros Hi Hn pre i post st r lineno -> [Hs He] Htx Hl.
  apply Forall_app in Hi as [_ (_ & _ & Hk)%Forall_cons_1%proj1].
  unfold variables in *. rewrite omap_app, length_app in Hn. rewrite omap_app.
  destruct i as [k v|o]; cbn [omap list_omap length] in *.
  - destruct (parse_line_var st k v r lineno (es ++ variables pre))
      as (line & st' & _ & E & Hs' & He'); [done..|rewrite length_app; unfold variables; lia|done|done|].
    exists 1, line, st'. rewrite app_assoc. done.
  - eexists 2, _, st. rewrite app_nil_r. split; [|done].
    apply parse_line_ignored; [done|apply find_type_none; [done|apply Hk]|apply Hk].
Qed.

(** C1: A CONFIG.SYS in CRLF format of up to 150 variables, mixed with lines the
    parser skips, is parsed completely into an empty environment, and then a lookup
    of any name gives the value of the first variable whose name, as it was written,
    is a prefix of the name asked for in upper case: one that was set in lower case
    letters is never found.  A file with other line ends is not parsed
    ([lone_eols_unparsed]). *)
Theorem config_getenv_roundtrip its st line0 nm r vcap :
  Forall item_ok its -> (length (variables its) <= 150)%nat ->
  shaped st -> has_env st [] -> length line0 = Z.to_nat MAXLENGTH ->
  Forall (fun s => Z.of_nat (length s) < vcap) (variables its) ->
  let file := crlf_text (render <$> its) in
  exists st', CfgParseConfig file (Z.of_nat (length file)) line0 (fun _ => true) st
                = Ret (0, st') /\
    CfgGetenv st' (in_buffer nm r) vcap =
      Ret (match env_lookup nm (variables its) with
           | Some v => (NO_ERROR, Some v)
           | None => (ERROR_ENVVAR_NOT_FOUND, None)
           end).
Proof.
  intros Hi Hn Hs He Hb Hcap file.
  destruct (parse_items render its (fun pre st => shaped st /\ has_env st (variables pre)))
    with (st := st) (line0 := line0) as (st' & E & _ & He'); [|by apply (item_step its [])|done..|].
  { eapply Forall_impl; [exact Hi|]. by intros i (H & Ht & _). }
  exists st'. split; [done|]. apply getenv_spec; [done| |done].
  clear - Hi. induction Hi as [|i its (_ & Htx & _) _ IH]; [done|].
  destruct i as [k v|l]; cbn; [|done]. constructor; [|done].
  cbn in Htx. apply text_app in Htx. by apply Htx.
Qed.

(** ** Numeric options *)

Lemma atoi_buffer v r : text v -> atoi (in_buffer v r) = atoi (in_buffer v []).
Proof. intros H. unfold atoi, in_buffer. by rewrite !cstr_text. Qed.

Lemma find_option_MAXWAIT v :
  find_option (bstr "MAXWAIT" ++ bstr "=" ++ v) = Some (20%nat, bstr "MAXWAIT").
Proof. reflexivity. Qed.

(** MAXWAIT stores the number read by [atoi] when it lies in the
    documented range 1 to 255 and ends the program otherwise. *)
Theorem maxwait_range st v n r lineno ok :
  shaped st -> text v -> atoi (in_buffer v []) = Ret n ->
  let l := bstr "MAXWAIT" ++ bstr "=" ++ v in
  if decide (1 <= n <= 255) then
    exists line', CfgParseLine st (in_buffer l r) (Z.of_nat (length l)) lineno ok =
      Ret (1, line', mkCfg (type st) (set_short (options st) maxwait n))
  else CfgParseLine st (in_buffer l r) (Z.of_nat (length l)) lineno ok = Exit (-1).
Proof.
  intros Hs Hv Hn l.
  destruct (parse_line_option st l r lineno ok 20 (bstr "MAXWAIT"))
    as (r' & _ & E); [done| |by apply find_type_none|apply find_option_MAXWAIT|].
  { unfold l. rewrite !text_app. split_and!; [by apply text_check..|done]. }
  change (drop (S (length (bstr "MAXWAIT"))) l) with v in E. rewrite E.
  unfold set_option. cbn -[atoi in_buffer s16]. rewrite atoi_buffer, Hn by done.
  cbn -[in_buffer s16].
  case_decide as D.
  - destruct (Z.leb_spec 1 n); [|lia]. destruct (Z.leb_spec n 255); [|lia].
    assert (s16 n = n) as ->; [|by eexists].
    unfold s16, signed. destruct (Z.ltb_spec (n mod 2 ^ 16) (2 ^ (16 - 1))); lia.
  - destruct (Z.leb_spec 1 n), (Z.leb_spec n 255); cbn; try done. lia.
Qed.

(** ** Termination *)

Lemma ends_cmp_keyword line kw : forall c, ends (cmp_keyword line kw c).
Proof. induction kw; cbn; solve_ends. Qed.
Lemma ends_shift_line line k : ends (shift_line line k).
Proof. unfold shift_line. solve_ends. Qed.
Lemma ends_copy_line line len : ends (copy_line line len).
Proof. unfold copy_line. solve_ends. Qed.
Lemma ends_error A : ends (@error A).
Proof. done. Qed.
#[local] Hint Resolve ends_cmp_keyword ends_shift_line ends_copy_line ends_error : ends.
Lemma ends_strupr s : ends (strupr s).
Proof. induction s; cbn; solve_ends. Qed.
Lemma ends_is_word line w : forall i, ends (is_word line i w).
Proof. induction w; cbn; solve_ends. Qed.
Lemma ends_atoi line : ends (atoi line).
Proof. unfold atoi. solve_ends. Qed.
Lemma ends_deref p : ends (deref p).
Proof. by destruct p. Qed.
#[local] Hint Resolve ends_strupr ends_is_word ends_atoi ends_deref : ends.
Lemma ends_dup_line ok line len : ends (dup_line ok line len).
Proof. unfold dup_line. solve_ends. Qed.
Lemma ends_upper_line ok line len : ends (upper_line line len ok).
Proof. unfold upper_line. solve_ends. Qed.
#[local] Hint Resolve ends_dup_line ends_upper_line : ends.

Lemma ends_set_option i o line len ok : ends (set_option i o line len ok).
Proof.
  unfold set_option, options_0_8, options_9_18, options_19_26, options_27_36,
    options_37_46, options_47_56, upper_string, a_string, a_char, a_number,
    two_words, one_word, one_char.
  solve_ends.
Qed.
#[local] Hint Resolve ends_set_option : ends.

Lemma ends_types_loop todo : forall i st line len lineno ok,
  ends (types_loop todo i st line len lineno ok).
Proof. induction todo; cbn [types_loop]; unfold add_name; solve_ends. Qed.
Lemma ends_options_loop todo : forall i st line len ok,
  ends (options_loop todo i st line len ok).
Proof. induction todo; unfold options_loop; fold options_loop; solve_ends. Qed.
#[local] Hint Resolve ends_types_loop ends_options_loop : ends.

Lemma ends_CfgParseLine st line len lineno ok : ends (CfgParseLine st line len lineno ok).
Proof. unfold CfgParseLine. solve_ends. Qed.
#[local] Hint Resolve ends_CfgParseLine : ends.

Lemma ends_parse_loop addr size ok : forall fuel off line len lineno st,
  Z.max 0 (size - off) < Z.of_nat fuel ->
  ends (parse_loop fuel addr size ok off line len lineno st).
Proof.
  induction fuel as [|fuel IH]; intros off line len lineno st Hf; [lia|].
  rewrite parse_loop_S. destruct (Z.ltb_spec off size) as [Ho|]; [|done].
  destruct (len <? MAXLENGTH); [|done]. cbn [andb].
  apply ends_bind; [auto with ends|intros c]. apply ends_bind; [auto with ends|intros b].
  apply ends_bind; [solve_ends|intros [[[b' len'] n'] st']].
  destruct (Z.ltb_spec (off + 1) size); cbn [mbind C_bind].
  - destruct (rd8 addr (off + 1)) as [d| | |] eqn:E; try done; cbn [mbind C_bind].
    + apply IH. destruct (is_eol d); lia.
    + by pose proof (ends_rd8 addr (off + 1)).
  - apply IH. lia.
Qed.

(** C5: [CfgParseConfig] terminates on every file, whatever the buffer and
    the tables hold. *)
Theorem parse_config_terminates addr size line0 ok st :
  CfgParseConfig addr size line0 ok st <> NoFuel.
Proof.
  unfold CfgParseConfig. apply ends_bind; [|by intros].
  apply ends_parse_loop. lia.
Qed.

(** ** The life of the tables *)

(** Initialised, then any number of files parsed. *)
Inductive booted : cfg -> Prop :=
  | boot_init ok o :
      CfgInitOptions ok (options static_cfg) = Ret (NO_ERROR, o) ->
      booted (mkCfg (type static_cfg) o)
  | boot_parse st addr size line0 ok rc st' :
      booted st -> CfgParseConfig addr size line0 ok st = Ret (rc, st') -> booted st'.

Definition live (st : cfg) : Prop :=
  Forall (fun t => Forall (fun n => exists s, nm_string n = Str s) (sp t)) (type st) /\
  exists s, strings (options st) iopl = Str s.

Lemma live_effect st st' : live st -> line_effect st st' -> live st'.
Proof.
  intros [Ht [s0 Hi]] [->|[(Ho & j & t & n & s & Hj & Hty)|(Hty & Hs)]]; [by split; eauto| |].
  - split; [|rewrite Ho; eauto]. rewrite Hty. apply Forall_insert; [done|]. cbn.
    rewrite Forall_forall in Ht. apply Forall_app. split.
    + apply Ht. by eapply list_elem_of_lookup_2.
    + apply Forall_singleton. cbn. eauto.
  - split; [by rewrite Hty|]. destruct Hs as [->|(f & s & -> & _)]; [eauto|].
    destruct (decide (f = iopl)) as [->|Hne].
    + rewrite fn_lookup_insert. eauto.
    + rewrite fn_lookup_insert_ne by done. eauto.
Qed.

Lemma booted_live st : booted st -> live st.
Proof.
  induction 1 as [ok o H|st addr size line0 ok rc st' _ IH H].
  - split; [repeat constructor|]. unfold CfgInitOptions, init_string in H.
    cinv. destruct (ok 0%nat), (ok 1%nat), (ok 2%nat); try done; cinv. cbn.
    by eexists.
  - by apply (CfgParseConfig_preserves live) in H; [|apply live_effect|].
Qed.

Definition freed_name (n : name) : name := mkName (nm_line n) Freed.
Definition freed_type (t : types) : types :=
  mkTypes (ty_name t) (freed_name <$> sp t) (cap t).

Lemma free_names_live l :
  Forall (fun n => exists s, nm_string n = Str s) l ->
  free_names l = Ret (freed_name <$> l).
Proof. induction 1 as [|n l [s Hs] _ IH]; cbn; [done|]. by rewrite Hs; cbn; rewrite IH. Qed.

Lemma free_types_live l :
  Forall (fun t => Forall (fun n => exists s, nm_string n = Str s) (sp t)) l ->
  free_types l = Ret (freed_type <$> l).
Proof.
  induction 1 as [|t l Ht _ IH]; cbn; [done|]. by rewrite free_names_live, IH by done.
Qed.

Lemma free_names_freed l : (exists l', free_names l = Ret l') \/ free_names l = Undef.
Proof.
  induction l as [|n l IH]; cbn; [eauto|].
  destruct (nm_string n); cbn; [..|by right]; destruct IH as [[l' ->]| ->]; cbn; eauto.
Qed.

Lemma free_types_freed l : (exists l', free_types l = Ret l') \/ free_types l = Undef.
Proof.
  induction l as [|t l IH]; cbn; [eauto|].
  destruct (free_names_freed (sp t)) as [[s ->]| ->]; cbn; [|eauto].
  destruct IH as [[l' ->]| ->]; cbn; eauto.
Qed.

(** C40: After initialisation and any number of parsed files, [CfgCleanup]
    frees every stored line and the IOPL string exactly once; the tables keep
    the freed pointers, so that a second cleanup is undefined. *)
Theorem cleanup_once st :
  booted st ->
  exists st', CfgCleanup st = Ret (0, st') /\
    type st' = freed_type <$> type st /\ strings (options st') iopl = Freed /\
    CfgCleanup st' = Undef.
Proof.
  intros [Ht [s Hs]]%booted_live. unfold CfgCleanup.
  rewrite (free_types_live _ Ht). cbn [mbind C_bind]. rewrite Hs. cbn [free mbind C_bind].
  eexists. split; [done|]. split_and!; [done|by cbn; rewrite fn_lookup_insert|].
  cbn [type options strings set_string]. rewrite fn_lookup_insert. cbn [free].
  by destruct (free_types_freed (freed_type <$> type st)) as [[l ->]| ->].
Qed.

(** ** Instances of the properties *)

Definition demo_cfg : cfg :=
  match CfgInitOptions (fun _ => true) (options static_cfg) with
  | Ret (_, o) => mkCfg (type static_cfg) o
  | _ => static_cfg
  end.
Definition stale : list Z := replicate 1512 7.

Lemma demo_shaped : shaped demo_cfg.
Proof. reflexivity. Qed.
Lemma demo_env : has_env demo_cfg [].
Proof. by exists (mkTypes SET [] 150). Qed.

Definition demo_items : list item :=
  [Other (bstr "REM start"); Var (bstr "PATH") (bstr "C:\OS2"); Other [];
   Var (bstr "TMP") (bstr "C:\TMP")].

Lemma file_line_check l :
  forallb (fun c => (0 <=? c) && (c <? 256) && negb (is_eol c)) l = true ->
  Z.of_nat (length l) < MAXLENGTH -> file_line l.
Proof.
  rewrite forallb_forall. intros H Hl. split; [|done]. apply Forall_forall.
  intros c Hc. rewrite list_elem_of_In in Hc. specialize (H c Hc).
  unfold line_char, is_byte. destruct (is_eol c); [by rewrite andb_false_r in H|].
  split; [|done]. blia.
Qed.

Lemma demo_items_ok : Forall item_ok demo_items.
Proof.
  unfold demo_items.
  constructor; [|constructor; [|constructor; [|constructor; [|constructor]]]];
    (split; [by apply file_line_check|split; [by apply text_check|]]); cbv beta iota;
    first [split; reflexivity
          |repeat (apply Forall_cons; split; [vm_compute; discriminate|]); apply Forall_nil_2].
Qed.

Lemma config_getenv_roundtrip_witness :
  let file := crlf_text (render <$> demo_items) in
  exists st', CfgParseConfig file (Z.of_nat (length file)) stale (fun _ => true) demo_cfg
                = Ret (0, st') /\
    CfgGetenv st' (in_buffer (bstr "tmp") []) 100 =
      Ret (match env_lookup (bstr "tmp") (variables demo_items) with
           | Some v => (NO_ERROR, Some v)
           | None => (ERROR_ENVVAR_NOT_FOUND, None)
           end).
Proof.
  apply (config_getenv_roundtrip demo_items demo_cfg stale (bstr "tmp") [] 100
    demo_items_ok); [vm_compute; lia|apply demo_shaped|apply demo_env|reflexivity|].
  repeat (apply Forall_cons; split; [vm_compute; reflexivity|]). apply Forall_nil_2.
Defined.

Lemma parse_crlf_witness :
  CfgParseConfig (crlf_text (render <$> demo_items))
      (Z.of_nat (length (crlf_text (render <$> demo_items)))) stale (fun _ => true) demo_cfg =
  (st ← run_lines (fun _ => true) (render <$> demo_items) stale 0 demo_cfg; Ret (0, st)).
Proof.
  apply (parse_crlf (fun _ => true) (render <$> demo_items) stale demo_cfg); [|reflexivity].
  repeat (apply Forall_cons; split; [by apply file_line_check|]). apply Forall_nil_2.
Defined.

Definition lf_file : list Z := bstr "SET A=b" ++ [10] ++ bstr "SET C=d" ++ [10].

Lemma lone_eols_unparsed_witness :
  CfgParseConfig lf_file (Z.of_nat (length lf_file)) stale (fun _ => true) demo_cfg =
    Ret (0, demo_cfg).
Proof. apply (lone_eols_unparsed lf_file stale (fun _ => true) demo_cfg); reflexivity. Defined.

Definition setboot_file : list Z := crlf_text [bstr "SETBOOT=/T:NO"].

Lemma setboot_unreachable_witness :
  exists rc st', CfgParseConfig setboot_file (Z.of_nat (length setboot_file)) stale
    (fun _ => true) demo_cfg = Ret (rc, st') /\
  strings (options st') setboot = strings (options demo_cfg) setboot.
Proof.
  eexists 0, _. split; [|eapply (setboot_unreachable setboot_file
    (Z.of_nat (length setboot_file)) stale (fun _ => true) demo_cfg 0 _ demo_shaped)];
    vm_compute; reflexivity.
Defined.

Lemma table_line_spec_witness :
  CfgParseLine demo_cfg (in_buffer (bstr "set") stale) 3 7 true = Undef.
Proof.
  apply (table_line_spec demo_cfg (bstr "set") stale 7 3 (mkTypes SET [] 150)
    demo_shaped); [by apply text_check|vm_compute; reflexivity|reflexivity|vm_compute; lia].
Defined.

Lemma string_option_stored_witness :
  exists line', CfgParseLine demo_cfg (in_buffer (bstr "LIBPATH" ++ bstr "=" ++ bstr ".;C:\") stale)
      (Z.of_nat (length (bstr "LIBPATH" ++ bstr "=" ++ bstr ".;C:\"))) 4 true =
    Ret (1, line', mkCfg (type demo_cfg)
      (set_string (options demo_cfg) libpath (Str (bstr ".;C:\")))).
Proof.
  apply (string_option_stored demo_cfg "LIBPATH" libpath false (bstr ".;C:\") stale 4);
    [unfold string_options; do 5 right; by left|apply demo_shaped|by apply text_check
    |vm_compute; reflexivity].
Defined.

Lemma maxwait_range_witness :
  CfgParseLine demo_cfg (in_buffer (bstr "MAXWAIT" ++ bstr "=" ++ bstr "300") stale)
    (Z.of_nat (length (bstr "MAXWAIT" ++ bstr "=" ++ bstr "300"))) 0 true = Exit (-1).
Proof.
  apply (maxwait_range demo_cfg (bstr "300") 300 stale 0 true demo_shaped);
    [by apply text_check|reflexivity].
Defined.

Lemma cleanup_once_witness :
  exists st', CfgCleanup demo_cfg = Ret (0, st') /\
    type st' = freed_type <$> type demo_cfg /\ strings (options st') iopl = Freed /\
    CfgCleanup st' = Undef.
Proof.
  apply (cleanup_once demo_cfg). by apply (boot_init (fun _ => true)).
Defined.
