(* ===== verification/LxFixup.v ===== *)
(** * Fixup records of LX executables ([OS2/Server/shared/lib/ixf/lx/fixup.c])

    A fixup record is a packed sequence of fields whose presence and width
    depend on its two flag bytes.  The file models the functions that compute
    the size of a record and read its fields, specifies the format by an
    encoder, and proves that the functions decode what the encoder writes and
    where they do not. *)
From S2P Require Import Prelude.

(** ** The flag bytes ([os3/fixuplx.h], [os2/exe386.h]) *)

Definition NRSTYP : Z := 15.
Definition NRSSEG : Z := 2.
Definition NRCHAIN : Z := 32.
Definition NRADD : Z := 4.
Definition NRRTYP : Z := 3.
Definition NRRINT : Z := 0.
Definition NRRORD : Z := 1.
Definition NRRNAM : Z := 2.
Definition NRRENT : Z := 3.
Definition NR32BITOFF : Z := 16.
Definition NR16OBJMOD : Z := 64.
Definition NR8BITORD : Z := 128.

(** [(x & f) == f] *)
Definition flag (x f : Z) : bool := Z.land x f =? f.

(** ** Reading a record

    A record ([struct r32_rlc], two flag bytes and a packed tail) is the
    buffer it lies in and its position. *)
Section record.
Variable b : list Z.
Variable p : Z.

Definition nr_stype : C Z := rd8 b p.
Definition nr_flags : C Z := rd8 b (p + 1).

Definition get_SRC_FLAGS_size : Z := 2.

Definition get_srcoff_cnt1_size : C Z :=
  stype ← nr_stype;
  Ret (if negb (flag stype NRCHAIN) then 2 else 1).

Definition get_mod_ord1_size : C Z :=
  flags ← nr_flags;
  Ret (if flag flags NR16OBJMOD then 2 else 1).

Definition get_imp_ord1_size : C Z :=
  flags ← nr_flags;
  Ret (if flag flags NR8BITORD then 1
       else if negb (flag flags NR32BITOFF) then 2
       else if flag flags NR32BITOFF then 4
       else 0).

Definition get_additive_size : C Z :=
  flags ← nr_flags;
  Ret (if flag flags NRADD then if flag flags NRCHAIN then 4 else 2 else 0).

Definition get_trgoff_size : C Z :=
  flags ← nr_flags;
  Ret (if negb (flag flags NRSSEG) then if flag flags NR32BITOFF then 4 else 2
       else 0).

Definition get_imp_name_size : C Z :=
  flags ← nr_flags;
  Ret (if flag flags NR32BITOFF then 4 else 2).

Definition get_ord1_entry_size : Z := 2.

(** [r32_soff] is a [short]. *)
Definition get_srcoff_cnt1_rlc : C Z :=
  stype ← nr_stype;
  if negb (flag stype NRCHAIN) then soff ← rd16 b (p + 2); Ret (s16 soff)
  else rd8 b (p + 2).

Definition get_mod_ord1_rlc : C Z :=
  n ← get_srcoff_cnt1_size;
  let mod_ord1_offs := get_SRC_FLAGS_size + n in
  mod_ord1_size ← get_mod_ord1_size;
  if mod_ord1_size =? 1 then rd8 b (p + mod_ord1_offs)
  else if mod_ord1_size =? 2 then rd16 b (p + mod_ord1_offs)
  else Ret 0.

Definition get_imp_ord1_rlc : C Z :=
  n1 ← get_srcoff_cnt1_size;
  n2 ← get_mod_ord1_size;
  let imp_ord1_offs := get_SRC_FLAGS_size + n1 + n2 in
  imp_ord1_size ← get_imp_ord1_size;
  if imp_ord1_size =? 1 then rd8 b (p + imp_ord1_offs)
  else if imp_ord1_size =? 2 then rd16 b (p + imp_ord1_offs)
  else if imp_ord1_size =? 4 then v ← rd32 b (p + imp_ord1_offs); Ret (s32 v)
  else Ret 0.

(** The offset of the field after the target, as [get_additive_rlc] and
    [get_srcoff12_rlc] compute it: the last test that succeeds decides. *)
Definition after_target : C Z :=
  flags ← nr_flags;
  n1 ← get_srcoff_cnt1_size;
  n2 ← get_mod_ord1_size;
  n3 ← get_imp_ord1_size;
  n4 ← get_imp_name_size;
  let offs := 0 in
  let offs := if flag flags NRRORD then get_SRC_FLAGS_size + n1 + n2 + n3 else offs in
  let offs := if flag flags NRRNAM then get_SRC_FLAGS_size + n1 + n2 + n4 else offs in
  let offs := if flag flags NRRENT then get_SRC_FLAGS_size + n1 + get_ord1_entry_size
              else offs in
  Ret offs.

Definition get_additive_rlc : C Z :=
  additive_offs ← after_target;
  additive_size ← get_additive_size;
  if additive_size =? 2 then rd16 b (p + additive_offs)
  else if additive_size =? 4 then v ← rd32 b (p + additive_offs); Ret (s32 v)
  else Ret 0.

Definition get_srcoff12_rlc (idx : Z) : C Z :=
  srcoff12_offs ← after_target;
  rd16 b (p + srcoff12_offs + idx * 2).

Definition get_imp_name_rlc : C Z :=
  n1 ← get_srcoff_cnt1_size;
  n2 ← get_mod_ord1_size;
  let imp_name_offs := get_SRC_FLAGS_size + n1 + n2 in
  imp_name_size ← get_imp_ord1_size;
  v ← (if imp_name_size =? 2 then rd16 b (p + imp_name_offs)
       else if imp_name_size =? 4 then rd32 b (p + imp_name_offs)
       else Ret 0);
  Ret (u32 v).

Definition get_reloc_size_rlc : C Z :=
  stype ← nr_stype;
  reloc_size ← (if flag stype NRCHAIN
                then count1 ← get_srcoff_cnt1_rlc; Ret (count1 * 2)
                else Ret 0);
  flags ← nr_flags;
  n1 ← get_srcoff_cnt1_size;
  n2 ← get_mod_ord1_size;
  n3 ← get_imp_ord1_size;
  n4 ← get_imp_name_size;
  n5 ← get_additive_size;
  let ty := Z.land flags NRRTYP in
  if ty =? NRRINT then Ret (reloc_size + (get_SRC_FLAGS_size + n1 + n2 + n3))
  else if ty =? NRRORD then Ret (reloc_size + (get_SRC_FLAGS_size + n1 + n2 + n3 + n5))
  else if ty =? NRRNAM then Ret (reloc_size + (get_SRC_FLAGS_size + n1 + n2 + n4 + n5))
  else if ty =? NRRENT then
    Ret (reloc_size + (get_SRC_FLAGS_size + n1 + get_ord1_entry_size + n5))
  else Ret reloc_size.

(** What [print_struct_r32_rlc_info] logs when debugging is on: source type,
    flags, source offset, target, additive value and the source list.  The name
    offset is passed for a string. *)
Fixpoint srcoffs (n : nat) (i : Z) : C (list Z) :=
  match n with
  | O => Ret []
  | S n => x ← get_srcoff12_rlc i; l ← srcoffs n (i + 1); Ret (x :: l)
  end.

Definition print_struct_r32_rlc_info (debugixfmgr : bool) : C (option (list Z)) :=
  if negb debugixfmgr then Ret None
  else
    stype ← nr_stype;
    flags ← nr_flags;
    soff ← get_srcoff_cnt1_rlc;
    m ← get_mod_ord1_rlc;
    ord ← (if flag flags NRRORD then x ← get_imp_ord1_rlc; Ret [x] else Ret []);
    nam ← (if flag flags NRRNAM then Undef else Ret []);
    trg ← (if (Z.land flags NRRTYP =? NRRINT) && negb (Z.land stype NRSTYP =? NRSSEG)
           then x ← get_imp_ord1_rlc; Ret [x] else Ret []);
    lst ← (if flag stype NRCHAIN
           then count1 ← get_srcoff_cnt1_rlc; srcoffs (Z.to_nat count1) 0
           else Ret []);
    add ← (if flag flags NRADD then x ← get_additive_rlc; Ret [x] else Ret []);
    Ret (Some ([stype; flags; soff; m] ++ ord ++ nam ++ trg ++ lst ++ add)).
End record.

(** ** The format

    An encoder for records, after the comment at the top of [fixup.c]:
    source type, flags, source offset or count, target, additive value, list
    of source offsets. *)
Inductive source := Single (off : Z) | SrcList (offs : list Z).

Inductive width := W8 | W16 | W32.

Inductive target :=
  | Internal (obj : Z) (trgoff : option Z)
  | ByOrdinal (module ord : Z)
  | ByName (module nameoff : Z)
  | Entry (ord : Z).

Record fixup := mkFixup {
  fx_stype : Z;                      (* source type and alias bit *)
  fx_source : source;
  fx_obj16 : bool;                   (* object, module or entry number of 16 bits *)
  fx_width : width;                  (* of the offset or ordinal *)
  fx_target : target;
  fx_add : option (bool * Z)         (* additive value, of 32 bits or 16 *)
}.

Definition enc_num (wide : bool) (v : Z) : list Z := if wide then enc16 v else [u8 v].
Definition enc_width (w : width) (v : Z) : list Z :=
  match w with W8 => [u8 v] | W16 => enc16 v | W32 => enc32 v end.

Definition target_type (t : target) : Z :=
  match t with
  | Internal _ _ => NRRINT
  | ByOrdinal _ _ => NRRORD
  | ByName _ _ => NRRNAM
  | Entry _ => NRRENT
  end.

Definition enc_flags (f : fixup) : Z :=
  target_type (fx_target f)
  + (match fx_add f with
     | Some (true, _) => NRADD + NRCHAIN
     | Some (false, _) => NRADD
     | None => 0
     end)
  + (match fx_width f with W8 => NR8BITORD | W16 => 0 | W32 => NR32BITOFF end)
  + (if fx_obj16 f then NR16OBJMOD else 0).

Definition enc_stype (f : fixup) : Z :=
  fx_stype f + match fx_source f with SrcList _ => NRCHAIN | Single _ => 0 end.

Definition enc_source (s : source) : list Z :=
  match s with
  | Single off => enc16 off
  | SrcList offs => [u8 (Z.of_nat (length offs))]
  end.

Definition enc_target (f : fixup) : list Z :=
  match fx_target f with
  | Internal obj o =>
      enc_num (fx_obj16 f) obj ++
      match o with Some off => enc_width (fx_width f) off | None => [] end
  | ByOrdinal m ord => enc_num (fx_obj16 f) m ++ enc_width (fx_width f) ord
  | ByName m off => enc_num (fx_obj16 f) m ++ enc_width (fx_width f) off
  | Entry ord => enc_num (fx_obj16 f) ord
  end.

Definition enc_add (f : fixup) : list Z :=
  match fx_add f with
  | Some (true, v) => enc32 v
  | Some (false, v) => enc16 v
  | None => []
  end.

Definition enc_list (s : source) : list Z :=
  match s with SrcList offs => mjoin (enc16 <$> offs) | Single _ => [] end.

Definition encode (f : fixup) : list Z :=
  [enc_stype f; enc_flags f] ++ enc_source (fx_source f) ++ enc_target f ++
  enc_add f ++ enc_list (fx_source f).

(** The records the functions handle. *)
Definition supported (f : fixup) : Prop :=
  0 <= fx_stype f < 32 /\
  (forall offs, fx_source f = SrcList offs -> Z.of_nat (length offs) < 256) /\
  match fx_target f with
  | Internal _ o => (o <> None) /\ fx_width f <> W8 /\ fx_add f = None
  | ByOrdinal _ _ => True
  | ByName _ _ => fx_width f <> W8
  | Entry _ => fx_obj16 f = true
  end.

(** ** Lemmas *)

Lemma flag_list s : 0 <= s < 32 -> flag s NRCHAIN = false /\ flag (s + 32) NRCHAIN = true.
Proof.
  intros H.
  assert (T : forallb (fun n => negb (flag (Z.of_nat n) NRCHAIN) &&
                flag (Z.of_nat n + 32) NRCHAIN) (seq 0 32) = true) by reflexivity.
  rewrite forallb_forall in T. specialize (T (Z.to_nat s)).
  rewrite Z2Nat.id in T by lia. rewrite in_seq, andb_true_iff, negb_true_iff in T.
  apply T. lia.
Qed.

Definition width_len (w : width) : Z := match w with W8 => 1 | W16 => 2 | W32 => 4 end.

Lemma enc_width_len w v : Z.of_nat (length (enc_width w v)) = width_len w.
Proof. by destruct w. Qed.
Lemma enc_num_len w v : Z.of_nat (length (enc_num w v)) = if w then 2 else 1.
Proof. by destruct w. Qed.
Lemma enc_list_len offs :
  Z.of_nat (length (enc_list (SrcList offs))) = Z.of_nat (length offs) * 2.
Proof.
  cbn [enc_list]. induction offs as [|o offs IH]; [done|].
  change (mjoin (enc16 <$> o :: offs)) with (enc16 o ++ mjoin (enc16 <$> offs)).
  rewrite length_app.
  change (length (enc16 o)) with 2%nat. cbn [length]. lia.
Qed.

Section decode.
Variables (b : list Z) (p : Z) (f : fixup).
Hypothesis Hf : bytes_at b p (encode f).
Hypothesis Hs : supported f.

Lemma at_stype : nr_stype b p = Ret (enc_stype f).
Proof. by apply bytes_at_cons in Hf as [E _]. Qed.
Lemma at_flags : nr_flags b p = Ret (enc_flags f).
Proof. apply bytes_at_cons in Hf as [_ H]. by apply bytes_at_cons in H as [E _]. Qed.
Lemma at_source :
  bytes_at b (p + 2) (enc_source (fx_source f) ++ enc_target f ++ enc_add f ++
                      enc_list (fx_source f)).
Proof.
  apply bytes_at_cons in Hf as [_ H]. apply bytes_at_cons in H as [_ H].
  by replace (p + 2) with (p + 1 + 1) by lia.
Qed.

Lemma stype_list : flag (enc_stype f) NRCHAIN =
  match fx_source f with SrcList _ => true | Single _ => false end.
Proof.
  destruct Hs as (H & _). destruct (flag_list _ H) as [F T].
  unfold enc_stype. destruct (fx_source f); [by rewrite Z.add_0_r|done].
Qed.

(** The tests of the flag byte, by cases on its bits. *)
Ltac flag_cases :=
  rewrite at_flags; cbn [mbind C_bind]; unfold enc_flags;
  destruct (fx_target f), (fx_add f) as [[[] ?]|], (fx_width f), (fx_obj16 f); reflexivity.

Lemma size_source :
  get_srcoff_cnt1_size b p = Ret (Z.of_nat (length (enc_source (fx_source f)))).
Proof.
  unfold get_srcoff_cnt1_size. rewrite at_stype. cbn [mbind C_bind]. rewrite stype_list.
  by destruct (fx_source f).
Qed.
Lemma size_num : get_mod_ord1_size b p = Ret (if fx_obj16 f then 2 else 1).
Proof. unfold get_mod_ord1_size. flag_cases. Qed.
Lemma size_width : get_imp_ord1_size b p = Ret (width_len (fx_width f)).
Proof. unfold get_imp_ord1_size. flag_cases. Qed.
Lemma size_name :
  get_imp_name_size b p = Ret (match fx_width f with W32 => 4 | _ => 2 end).
Proof. unfold get_imp_name_size. flag_cases. Qed.
Lemma size_add : get_additive_size b p = Ret (Z.of_nat (length (enc_add f))).
Proof.
  unfold get_additive_size, enc_add. rewrite at_flags; cbn [mbind C_bind]; unfold enc_flags.
  destruct (fx_target f), (fx_add f) as [[[] ?]|], (fx_width f), (fx_obj16 f); reflexivity.
Qed.
Lemma type_flag : Z.land (enc_flags f) NRRTYP = target_type (fx_target f).
Proof.
  unfold enc_flags.
  destruct (fx_target f), (fx_add f) as [[[] ?]|], (fx_width f), (fx_obj16 f); reflexivity.
Qed.

Lemma len_target :
  Z.of_nat (length (enc_target f)) =
  match fx_target f with
  | Internal _ None => if fx_obj16 f then 2 else 1
  | Entry _ => if fx_obj16 f then 2 else 1
  | _ => (if fx_obj16 f then 2 else 1) + width_len (fx_width f)
  end.
Proof.
  unfold enc_target. destruct (fx_target f) as [obj [o|]| | |];
    rewrite ?length_app, ?Nat2Z.inj_add, ?enc_num_len, ?enc_width_len; cbn [length]; lia.
Qed.

Lemma len_encode :
  Z.of_nat (length (encode f)) =
  2 + Z.of_nat (length (enc_source (fx_source f))) + Z.of_nat (length (enc_target f)) +
  Z.of_nat (length (enc_add f)) + Z.of_nat (length (enc_list (fx_source f))).
Proof. unfold encode. rewrite !length_app. cbn [length]. lia. Qed.

Lemma read_source :
  get_srcoff_cnt1_rlc b p =
    Ret (match fx_source f with
         | Single off => s16 off
         | SrcList offs => Z.of_nat (length offs)
         end).
Proof.
  unfold get_srcoff_cnt1_rlc. rewrite at_stype. cbn [mbind C_bind]. rewrite stype_list.
  pose proof at_source as H. destruct Hs as (_ & Hl & _).
  destruct (fx_source f) as [off|offs]; cbn [negb enc_source] in *.
  - rewrite (bytes_at_rd16 _ _ _ _ H). cbn [mbind C_bind]. f_equal.
    unfold s16, signed, u16. by rewrite Z.mod_mod by done.
  - apply bytes_at_cons in H as [-> _]. f_equal. apply u8_id.
    specialize (Hl _ eq_refl). unfold is_byte. lia.
Qed.

(** The number of bytes up to the source list. *)
Lemma sum_size :
  Z.of_nat (length (encode f)) =
  match fx_source f with SrcList offs => Z.of_nat (length offs) * 2 | Single _ => 0 end +
  (2 + Z.of_nat (length (enc_source (fx_source f))) + Z.of_nat (length (enc_target f)) +
   Z.of_nat (length (enc_add f))).
Proof.
  rewrite len_encode. destruct (fx_source f) as [|offs]; [cbn; lia|].
  rewrite enc_list_len. lia.
Qed.

Lemma reloc_size_encode_in : get_reloc_size_rlc b p = Ret (Z.of_nat (length (encode f))).
Proof.
  unfold get_reloc_size_rlc.
  rewrite at_stype, at_flags, size_source, size_num, size_width, size_name, size_add,
    read_source. cbn [mbind C_bind].
  rewrite stype_list, type_flag, sum_size, len_target.
  destruct Hs as (_ & _ & Ht). unfold get_SRC_FLAGS_size, get_ord1_entry_size.
  destruct (fx_target f) as [obj [o|]| | |]; cbn [target_type] in *;
    [|by destruct Ht as [[] _]| | |].
  - destruct Ht as (_ & _ & Ha).
    assert (enc_add f = []) as -> by (unfold enc_add; by rewrite Ha).
    destruct (fx_source f); cbn -[Z.of_nat Z.add Z.mul]; f_equal; cbn [length]; lia.
  - destruct (fx_source f); cbn -[Z.of_nat Z.add Z.mul]; f_equal; lia.
  - destruct (fx_width f); try done;
      destruct (fx_source f); cbn -[Z.of_nat Z.add Z.mul]; f_equal; lia.
  - rewrite Ht. destruct (fx_source f); cbn -[Z.of_nat Z.add Z.mul]; f_equal; lia.
Qed.
End decode.

Section fields.
Variables (b : list Z) (p : Z) (f : fixup).
Hypothesis Hf : bytes_at b p (encode f).
Hypothesis Hs : supported f.
#[local] Abbreviation src_len := (Z.of_nat (length (enc_source (fx_source f)))).

Lemma at_target :
  bytes_at b (p + (2 + src_len)) (enc_target f ++ enc_add f ++ enc_list (fx_source f)).
Proof.
  pose proof (at_source b p f Hf) as H. apply bytes_at_app in H as [_ H].
  by rewrite <- Z.add_assoc in H.
Qed.

Lemma at_add :
  bytes_at b (p + (2 + src_len + Z.of_nat (length (enc_target f))))
    (enc_add f ++ enc_list (fx_source f)).
Proof.
  pose proof at_target as H. apply bytes_at_app in H as [_ H].
  by rewrite <- Z.add_assoc in H.
Qed.

Lemma read_num wide q v l : bytes_at b q (enc_num wide v ++ l) ->
  (if wide then rd16 b q else rd8 b q) = Ret (if wide then u16 v else u8 v).
Proof.
  destruct wide; cbn [enc_num]; [apply bytes_at_rd16|].
  intros H. by apply bytes_at_cons in H as [E _].
Qed.

(** The object, module or entry number of a record. *)
Definition fx_num : Z :=
  match fx_target f with
  | Internal v _ | ByOrdinal v _ | ByName v _ | Entry v => if fx_obj16 f then u16 v else u8 v
  end.

Lemma read_mod : get_mod_ord1_rlc b p = Ret fx_num.
Proof.
  unfold get_mod_ord1_rlc, fx_num, get_SRC_FLAGS_size.
  rewrite (size_source b p f Hf Hs), (size_num b p f Hf). cbn [mbind C_bind].
  pose proof at_target as H. unfold enc_target in H.
  assert (G : forall v l, bytes_at b (p + (2 + src_len)) (enc_num (fx_obj16 f) v ++ l) ->
    (if (if fx_obj16 f then 2 else 1) =? 1 then rd8 b (p + (2 + src_len))
     else if (if fx_obj16 f then 2 else 1) =? 2 then rd16 b (p + (2 + src_len)) else Ret 0) =
    Ret (if fx_obj16 f then u16 v else u8 v)).
  { intros v l HG. apply read_num in HG. by destruct (fx_obj16 f). }
  destruct (fx_target f) as [obj [o|]| | |]; rewrite <- ?app_assoc in H; by eapply G.
Qed.

(** The value of the second field, as the function that reads it returns it. *)
Definition width_val (w : width) (v : Z) : Z :=
  match w with W8 => u8 v | W16 => u16 v | W32 => s32 v end.

Lemma s32_u32 v : s32 (u32 v) = s32 v.
Proof. unfold s32, signed, u32. by rewrite Z.mod_mod by done. Qed.

Lemma read_ord v :
  (exists obj, fx_target f = Internal obj (Some v)) \/
  (exists m, fx_target f = ByOrdinal m v) \/ (exists m, fx_target f = ByName m v) ->
  get_imp_ord1_rlc b p = Ret (width_val (fx_width f) v).
Proof.
  intros Ht. unfold get_imp_ord1_rlc, get_SRC_FLAGS_size.
  rewrite (size_source b p f Hf Hs), (size_num b p f Hf), (size_width b p f Hf).
  cbn [mbind C_bind]. pose proof at_target as H. unfold enc_target in H.
  assert (H' : bytes_at b (p + (2 + src_len + (if fx_obj16 f then 2 else 1)))
                 (enc_width (fx_width f) v ++ enc_add f ++ enc_list (fx_source f))).
  { rewrite Z.add_assoc. destruct Ht as [[m E]|[[m E]|[m E]]]; rewrite E in H;
      rewrite <- app_assoc in H; apply bytes_at_app in H as [_ H];
      by rewrite enc_num_len in H. }
  destruct (fx_width f); cbn [width_len enc_width width_val Z.eqb Pos.eqb] in *.
  - by apply bytes_at_cons in H' as [-> _].
  - by rewrite (bytes_at_rd16 _ _ _ _ H').
  - rewrite (bytes_at_rd32 _ _ _ _ H'). cbn [mbind C_bind]. by rewrite s32_u32.
Qed.

Definition external (t : target) : Prop :=
  match t with Internal _ _ => False | _ => True end.

Lemma flags_types :
  flag (enc_flags f) NRRORD = match fx_target f with ByOrdinal _ _ | Entry _ => true | _ => false end /\
  flag (enc_flags f) NRRNAM = match fx_target f with ByName _ _ | Entry _ => true | _ => false end /\
  flag (enc_flags f) NRRENT = match fx_target f with Entry _ => true | _ => false end.
Proof.
  unfold enc_flags.
  destruct (fx_target f), (fx_add f) as [[[] ?]|], (fx_width f), (fx_obj16 f);
    by split_and!.
Qed.

Lemma after_target_ext : external (fx_target f) ->
  after_target b p = Ret (2 + src_len + Z.of_nat (length (enc_target f))).
Proof.
  intros Hx. unfold after_target, get_SRC_FLAGS_size, get_ord1_entry_size.
  rewrite (at_flags b p f Hf), (size_source b p f Hf Hs), (size_num b p f Hf),
    (size_width b p f Hf), (size_name b p f Hf). cbn [mbind C_bind].
  destruct flags_types as (-> & -> & ->). rewrite (len_target f).
  destruct Hs as (_ & _ & Ht).
  destruct (fx_target f); try done; cbn -[Z.of_nat Z.add].
  - by rewrite Z.add_assoc.
  - destruct (fx_width f); try done; f_equal; cbn [width_len]; lia.
  - by rewrite Ht.
Qed.

Definition add_val : Z :=
  match fx_add f with
  | Some (true, v) => s32 v
  | Some (false, v) => u16 v
  | None => 0
  end.

Lemma read_add_ext : external (fx_target f) -> get_additive_rlc b p = Ret add_val.
Proof.
  intros Hx. unfold get_additive_rlc, add_val. rewrite (size_add b p f Hf).
  rewrite after_target_ext by done. cbn [mbind C_bind].
  pose proof at_add as H. unfold enc_add in *.
  destruct (fx_add f) as [[[] v]|]; [| |done]; cbn -[Z.of_nat Z.add rd32 rd16].
  - rewrite (bytes_at_rd32 _ _ _ _ H). cbn. by rewrite s32_u32.
  - by rewrite (bytes_at_rd16 _ _ _ _ H).
Qed.

Lemma read_add : get_additive_rlc b p = Ret add_val.
Proof.
  destruct (fx_target f) as [obj o| | |] eqn:T; [|apply read_add_ext; by rewrite T..].
  destruct Hs as (_ & _ & Ht). rewrite T in Ht. destruct Ht as (_ & _ & Ha).
  unfold get_additive_rlc, add_val. rewrite (size_add b p f Hf).
  unfold enc_add. rewrite Ha. unfold after_target.
  by rewrite (at_flags b p f Hf), (size_source b p f Hf Hs), (size_num b p f Hf),
    (size_width b p f Hf), (size_name b p f Hf).
Qed.

End fields.

(** ** Theorems *)

(** The size computed for a record is the number of bytes the encoder
    writes, wherever the record lies. *)
Theorem reloc_size_encode f pre post :
  supported f ->
  get_reloc_size_rlc (pre ++ encode f ++ post) (Z.of_nat (length pre)) =
    Ret (Z.of_nat (length (encode f))).
Proof. intros Hs. apply reloc_size_encode_in; [apply bytes_at_intro|done]. Qed.

(** The accessors decode the fields of an encoded record: source offset or
    count, object, module or entry number, target offset, ordinal or name
    offset at its width, additive value. *)
Theorem fields_decode f pre post :
  supported f ->
  let b := pre ++ encode f ++ post in
  let p := Z.of_nat (length pre) in
  get_srcoff_cnt1_rlc b p =
    Ret (match fx_source f with
         | Single off => s16 off
         | SrcList offs => Z.of_nat (length offs)
         end) /\
  get_mod_ord1_rlc b p = Ret (fx_num f) /\
  match fx_target f with
  | Internal _ (Some v) | ByOrdinal _ v | ByName _ v =>
      get_imp_ord1_rlc b p = Ret (width_val (fx_width f) v)
  | _ => True
  end /\
  get_additive_rlc b p = Ret (add_val f).
Proof.
  intros Hs b p. assert (Hf : bytes_at b p (encode f)) by apply bytes_at_intro.
  split_and!; [by apply read_source|by apply read_mod| |by apply read_add].
  destruct (fx_target f) as [obj [v|]|m v|m v|] eqn:T; try done;
    apply (read_ord b p f Hf Hs); rewrite T; eauto.
Qed.

Lemma list_at b q offs (i : nat) v :
  bytes_at b q (enc_list (SrcList offs)) -> offs !! i = Some v ->
  rd16 b (q + Z.of_nat i * 2) = Ret (u16 v).
Proof.
  revert q i. cbn [enc_list]. induction offs as [|o offs IH]; intros q i H Hi; [done|].
  change (mjoin (enc16 <$> o :: offs)) with (enc16 o ++ mjoin (enc16 <$> offs)) in H.
  destruct i as [|i].
  - injection Hi as ->. rewrite Z.add_0_r. by apply bytes_at_rd16 in H.
  - apply bytes_at_app in H as [_ H]. change (Z.of_nat (length (enc16 o))) with 2 in H.
    replace (q + Z.of_nat (S i) * 2) with (q + 2 + Z.of_nat i * 2) by lia.
    by apply IH.
Qed.

(** The source list of an external record without an additive value is
    read back element by element. *)
Theorem source_list_decode f pre post offs i v :
  supported f -> external (fx_target f) -> fx_add f = None ->
  fx_source f = SrcList offs -> offs !! i = Some v ->
  get_srcoff12_rlc (pre ++ encode f ++ post) (Z.of_nat (length pre)) (Z.of_nat i) =
    Ret (u16 v).
Proof.
  intros Hs Hx Ha Hl Hi. set (b := pre ++ encode f ++ post).
  set (p := Z.of_nat (length pre)).
  assert (Hf : bytes_at b p (encode f)) by apply bytes_at_intro.
  unfold get_srcoff12_rlc. rewrite (after_target_ext b p f Hf Hs Hx). cbn [mbind C_bind].
  apply (list_at b _ offs); [|done]. pose proof (at_add b p f Hf) as H.
  unfold enc_add in H. rewrite Ha, Hl in H. rewrite Hl. exact H.
Qed.

(** Where the source list is misread: for an internal record no offset is
    computed and the function returns the record's flag bytes; for a record
    with an additive value it returns that value first. *)
Theorem source_list_misread f pre post offs :
  supported f -> fx_source f = SrcList offs ->
  let b := pre ++ encode f ++ post in
  let p := Z.of_nat (length pre) in
  (~ external (fx_target f) ->
   get_srcoff12_rlc b p 0 = Ret (le16 (enc_stype f) (enc_flags f))) /\
  (forall w v, external (fx_target f) -> fx_add f = Some (w, v) ->
   get_srcoff12_rlc b p 0 = Ret (u16 v)).
Proof.
  intros Hs Hl b p. assert (Hf : bytes_at b p (encode f)) by apply bytes_at_intro.
  unfold get_srcoff12_rlc. split.
  - intros Hx. unfold after_target, rd16.
    rewrite (at_flags b p f Hf), (size_source b p f Hf Hs), (size_num b p f Hf),
      (size_width b p f Hf), (size_name b p f Hf). cbn [mbind C_bind].
    destruct (flags_types f) as (-> & -> & ->).
    destruct (fx_target f) as [obj o| | |]; [|by destruct Hx..].
    rewrite !Z.add_0_r. pose proof (at_stype b p f Hf) as E0.
    pose proof (at_flags b p f Hf) as E1. unfold nr_stype, nr_flags in *.
    rewrite E0. cbn [mbind C_bind]. by rewrite E1.
  - intros w v Hx Ha. rewrite (after_target_ext b p f Hf Hs Hx). cbn [mbind C_bind].
    pose proof (at_add b p f Hf) as H. unfold enc_add in H. rewrite Ha in H.
    rewrite Z.add_0_r. destruct w; [|by apply bytes_at_rd16 in H].
    assert (H' : bytes_at b (p + (2 + Z.of_nat (length (enc_source (fx_source f))) +
      Z.of_nat (length (enc_target f)))) (enc16 v ++ [u8 (v / 65536); u8 (v / 16777216)]
        ++ enc_list (fx_source f))) by exact H.
    by apply bytes_at_rd16 in H'.
Qed.

(** A 16-bit selector fixup carries no target offset, but its size is
    computed as if it did: the next record is looked for 2 or 4 bytes too
    far. *)
Theorem selector_size_wrong f pre post obj :
  supported (mkFixup (fx_stype f) (fx_source f) (fx_obj16 f) (fx_width f)
               (Internal obj (Some 0)) None) ->
  fx_target f = Internal obj None -> fx_add f = None ->
  get_reloc_size_rlc (pre ++ encode f ++ post) (Z.of_nat (length pre)) =
    Ret (Z.of_nat (length (encode f)) + width_len (fx_width f)).
Proof.
  intros Hs T Ha. set (g := mkFixup _ _ _ _ _ _) in Hs.
  set (b := pre ++ encode f ++ post). set (p := Z.of_nat (length pre)).
  assert (Hf : bytes_at b p (encode f)) by apply bytes_at_intro.
  unfold get_reloc_size_rlc, get_SRC_FLAGS_size.
  rewrite (at_stype b p f Hf), (at_flags b p f Hf), (size_num b p f Hf),
    (size_width b p f Hf), (size_name b p f Hf), (size_add b p f Hf).
  assert (Es : flag (enc_stype f) NRCHAIN =
    match fx_source f with SrcList _ => true | Single _ => false end)
    by apply (stype_list g Hs).
  unfold get_srcoff_cnt1_size, get_srcoff_cnt1_rlc.
  rewrite (at_stype b p f Hf). cbn [mbind C_bind]. rewrite Es, type_flag, T.
  unfold enc_add. rewrite Ha. rewrite sum_size.
  pose proof (at_source b p f Hf) as H. destruct Hs as (_ & Hl & _). cbn [g fx_source] in Hl.
  rewrite (len_target f), T. unfold enc_add. rewrite Ha.
  destruct (fx_source f) as [off|offs]; cbn -[Z.of_nat Z.add Z.mul rd8] in *.
  - f_equal. lia.
  - apply bytes_at_cons in H as [-> _]. cbn -[Z.of_nat Z.add Z.mul].
    rewrite u8_id by (specialize (Hl _ eq_refl); unfold is_byte; lia).
    f_equal. lia.
Qed.

(** Whatever the bytes of a record are, when its size can be computed at all it
    lies between 5 and 526: a loop over records that advances by it
    terminates. *)
Lemma reloc_size_bounds b p n :
  Forall is_byte b -> get_reloc_size_rlc b p = Ret n -> 5 <= n <= 526.
Proof.
  intros Hb. unfold get_reloc_size_rlc, get_srcoff_cnt1_size, get_mod_ord1_size,
    get_imp_ord1_size, get_imp_name_size, get_additive_size, get_srcoff_cnt1_rlc,
    get_SRC_FLAGS_size, get_ord1_entry_size.
  destruct (nr_stype b p) as [st| | |]; try done; cbn [mbind C_bind].
  intros H. cinv.
  assert (Hrd : forall i x, rd8 b i = Ret x -> 0 <= x < 256).
  { intros i x. unfold rd8. destruct (0 <=? i); [|done]. intros Hx%need_ret.
    rewrite Forall_forall in Hb. by apply list_elem_of_lookup_2, Hb in Hx. }
  assert (Hcnt : 0 <= a <= 510).
  { destruct (flag st NRCHAIN); cbn [negb] in *; cinv; [|lia].
    match goal with E : rd8 b (p + 2) = Ret _ |- _ => apply Hrd in E end. lia. }
  assert (Hty : Z.land a0 NRRTYP = a0 mod 4)
    by (change NRRTYP with (Z.ones 2); by rewrite Z.land_ones).
  rewrite Hty in H. clear - H Hcnt. unfold NRRINT, NRRORD, NRRNAM, NRRENT in H.
  pose proof (Z.mod_pos_bound a0 4 ltac:(lia)).
  destruct (a0 mod 4 =? 0) eqn:T0, (a0 mod 4 =? 1) eqn:T1, (a0 mod 4 =? 2) eqn:T2,
    (a0 mod 4 =? 3) eqn:T3; try blia;
    injection H as <-; repeat match goal with
    | |- context [flag ?x ?y] => destruct (flag x y)
    end; cbn [negb]; lia.
Qed.

(** ** Instances of the properties *)

Definition demo_fixup : fixup :=
  mkFixup 7 (SrcList [16; 4092]) true W32 (ByOrdinal 2 70000) (Some (true, 5)).
Definition demo_fixup0 : fixup :=
  mkFixup 7 (SrcList [16; 4092]) false W16 (ByName 2 300) None.
Definition demo_internal : fixup :=
  mkFixup 7 (SrcList [16; 4092]) false W32 (Internal 1 (Some 65536)) None.

Lemma demo_supported f : f ∈ [demo_fixup; demo_fixup0; demo_internal] -> supported f.
Proof.
  rewrite !elem_of_cons, elem_of_nil. intros [->|[->|[->|[]]]];
    (split; [cbn; lia|split; [intros offs [= <-]; cbn; lia|done]]).
Qed.

Lemma reloc_size_encode_witness :
  get_reloc_size_rlc ([1; 2] ++ encode demo_fixup ++ [9])
    (Z.of_nat (length [1; 2])) = Ret (Z.of_nat (length (encode demo_fixup))).
Proof. apply (reloc_size_encode demo_fixup [1; 2] [9]), demo_supported. by left. Defined.

Lemma fields_decode_witness :
  let b := [] ++ encode demo_fixup ++ [] in
  get_srcoff_cnt1_rlc b 0 = Ret 2 /\
  get_mod_ord1_rlc b 0 = Ret (fx_num demo_fixup) /\
  get_imp_ord1_rlc b 0 = Ret (width_val W32 70000) /\
  get_additive_rlc b 0 = Ret (add_val demo_fixup).
Proof. apply (fields_decode demo_fixup [] []), demo_supported. by left. Defined.

Lemma source_list_decode_witness :
  get_srcoff12_rlc ([] ++ encode demo_fixup0 ++ []) (Z.of_nat (@length Z [])) (Z.of_nat 1) =
    Ret (u16 4092).
Proof.
  apply (source_list_decode demo_fixup0 [] [] [16; 4092] 1 4092);
    [apply demo_supported; right; by left|done|done|done|done].
Defined.

Lemma source_list_misread_witness :
  get_srcoff12_rlc ([] ++ encode demo_internal ++ []) (Z.of_nat (@length Z [])) 0 =
    Ret (le16 (enc_stype demo_internal) (enc_flags demo_internal)).
Proof.
  apply (source_list_misread demo_internal [] [] [16; 4092]);
    [apply demo_supported; do 2 right; by left|done|by intros []].
Defined.

Definition demo_selector : fixup := mkFixup 2 (Single 8) false W16 (Internal 1 None) None.

Lemma selector_size_wrong_witness :
  get_reloc_size_rlc ([] ++ encode demo_selector ++ []) (Z.of_nat (@length Z [])) =
    Ret (Z.of_nat (length (encode demo_selector)) + 2).
Proof.
  apply (selector_size_wrong demo_selector [] [] 1); [|done|done].
  split; [cbn; lia|split; done].
Defined.
