(* ===== verification/LxMod.v ===== *)
(** * LX modules ([OS2/Server/shared/lib/ixf/lx/mod.c] and [load.c])

    A module is read from a memory buffer: the header, the loader section and
    the fixup section are copied out, and small functions find objects, pages,
    names and entries in them.  The file models them on the bytes, and proves
    that loading copies the right parts and that names and ordinals are
    found. *)
From S2P Require Import Prelude LxFixup.

(** ** Data ([os3/modlx.h], [os2/exe386.h])

    [struct LX_module] of a module in a buffer.  The header is the 196 bytes
    of [struct e32_exe]; a part that is not allocated has no bytes. *)
Record LX_module := mkLX {
  lx_head_e32_exe : list Z;
  loader_section : list Z;
  fixup_section : list Z;
  offs_lx_head : Z;
  lx_file_stream : list Z;
  lx_stream_size : Z;
  lx_stream_pos : Z
}.

Definition set_pos (m : LX_module) (pos : Z) : LX_module :=
  mkLX (lx_head_e32_exe m) (loader_section m) (fixup_section m) (offs_lx_head m)
    (lx_file_stream m) (lx_stream_size m) pos.
Definition set_offs (m : LX_module) (o : Z) : LX_module :=
  mkLX (lx_head_e32_exe m) (loader_section m) (fixup_section m) o
    (lx_file_stream m) (lx_stream_size m) (lx_stream_pos m).
Definition set_head (m : LX_module) (h : list Z) : LX_module :=
  mkLX h (loader_section m) (fixup_section m) (offs_lx_head m)
    (lx_file_stream m) (lx_stream_size m) (lx_stream_pos m).
Definition set_loader (m : LX_module) (b : list Z) : LX_module :=
  mkLX (lx_head_e32_exe m) b (fixup_section m) (offs_lx_head m)
    (lx_file_stream m) (lx_stream_size m) (lx_stream_pos m).
Definition set_fixup (m : LX_module) (b : list Z) : LX_module :=
  mkLX (lx_head_e32_exe m) (loader_section m) b (offs_lx_head m)
    (lx_file_stream m) (lx_stream_size m) (lx_stream_pos m).

(** [sizeof(struct e32_exe)] and the fields of the packed structure. *)
Definition sizeof_e32_exe : Z := 196.

Definition e32_magic (m : LX_module) (i : Z) : C Z := rd8 (lx_head_e32_exe m) i.
Definition e32_field (off : Z) (m : LX_module) : C Z := rd32 (lx_head_e32_exe m) off.
Definition e32_mflags := e32_field 16.
Definition e32_mpages := e32_field 20.
Definition e32_startobj := e32_field 24.
Definition e32_eip := e32_field 28.
Definition e32_stackobj := e32_field 32.
Definition e32_esp := e32_field 36.
Definition e32_pagesize := e32_field 40.
Definition e32_pageshift := e32_field 44.
Definition e32_fixupsize := e32_field 48.
Definition e32_ldrsize := e32_field 56.
Definition e32_objtab := e32_field 64.
Definition e32_objcnt := e32_field 68.
Definition e32_objmap := e32_field 72.
Definition e32_restab := e32_field 88.
Definition e32_enttab := e32_field 92.
Definition e32_fpagetab := e32_field 104.
Definition e32_frectab := e32_field 108.
Definition e32_impmod := e32_field 112.
Definition e32_impmodcnt := e32_field 116.
Definition e32_impproc := e32_field 120.
Definition e32_datapage := e32_field 128.
Definition e32_stacksize := e32_field 172.

(** ** The buffer as a file *)

Inductive whence := SEEK_SET | SEEK_END | SEEK_CUR.

Definition lx_fseek_stream (m : LX_module) (pos : Z) (direction : whence)
    : Z * LX_module :=
  if (pos <=? lx_stream_size m) && (0 <=? pos) then
    let pos := match direction with
               | SEEK_SET => pos
               | SEEK_END => lx_stream_size m - pos
               | SEEK_CUR => lx_stream_pos m + pos
               end in
    (pos, set_pos m pos)
  else (-1, m).

(** [memcpy] out of a buffer. *)
Definition rdn (b : list Z) (i n : Z) : C (list Z) :=
  if (0 <=? i) && (0 <=? n) && (i + n <=? Z.of_nat (length b))
  then Ret (take (Z.to_nat n) (drop (Z.to_nat i) b)) else Undef.

(** The bytes that are stored at [ptr]. *)
Fixpoint lx_fread_stream (size : Z) (nmemb : nat) (m : LX_module)
    : C (list Z * LX_module) :=
  match nmemb with
  | O => Ret ([], m)
  | S n =>
      x ← rdn (lx_file_stream m) (lx_stream_pos m) size;
      '(l, m) ← lx_fread_stream size n (set_pos m (lx_stream_pos m + size));
      Ret (x ++ l, m)
  end.

(** ** Loading (load.c) *)

Definition is_sig (sig : list Z) (a b : ascii) : bool :=
  bool_decide (sig = [ch a; ch b]).

Definition ENEWHDR : Z := 60.

(** A failed [malloc] is not tested; [malloc_ok] tells whether it succeeds. *)
Definition alloc (malloc_ok : bool) : C unit := require malloc_ok.

Definition LXLoadHeader (malloc_ok : bool) (m : LX_module) : C (bool * LX_module) :=
  let m := (lx_fseek_stream m 0 SEEK_SET).2 in
  '(exe_sig, m) ← lx_fread_stream 2 1 m;
  '(exe_sig, hdr, m) ←
    (if is_sig exe_sig "M" "Z" || is_sig exe_sig "Z" "M" then
       let m := (lx_fseek_stream m ENEWHDR SEEK_SET).2 in
       '(o, m) ← lx_fread_stream 4 1 m;
       h ← rd32 o 0;
       let hdr := s32 h in
       let m := (lx_fseek_stream m hdr SEEK_SET).2 in
       '(exe_sig, m) ← lx_fread_stream 1 2 m;
       Ret (exe_sig, hdr, set_offs m hdr)
     else Ret (exe_sig, 0, m));
  let m := if hdr =? 0 then set_offs m 0 else m in
  if is_sig exe_sig "L" "X" then
    _ ← alloc malloc_ok;
    let m := (lx_fseek_stream m hdr SEEK_SET).2 in
    '(h, m) ← lx_fread_stream sizeof_e32_exe 1 m;
    Ret (true, set_head m h)
  else Ret (false, m).

Definition LXLoadLoaderSection (malloc_ok : bool) (m : LX_module) : C LX_module :=
  objtab ← e32_objtab m;
  let m := (lx_fseek_stream m (s32 (offs_lx_head m + objtab)) SEEK_SET).2 in
  ldrsize ← e32_ldrsize m;
  _ ← alloc malloc_ok;
  '(b, m) ← lx_fread_stream ldrsize 1 m;
  Ret (set_loader m b).

Definition LXLoadFixupSection (malloc_ok : bool) (m : LX_module) : C LX_module :=
  fixupsize ← e32_fixupsize m;
  _ ← alloc malloc_ok;
  '(b, m) ← lx_fread_stream fixupsize 1 m;
  Ret (set_fixup m b).

(** [None] is the null pointer. *)
Definition LXLoadStream (malloc_ok : bool) (stream_fh : list Z) (str_size : Z)
    : C (option LX_module) :=
  let m := mkLX [] [] [] 0 stream_fh str_size 0 in
  '(ok, m) ← LXLoadHeader malloc_ok m;
  if (ok : bool) then
    m ← LXLoadLoaderSection malloc_ok m;
    m ← LXLoadFixupSection malloc_ok m;
    Ret (Some m)
  else Ret None.

(** ** Objects and pages (mod.c)

    A pointer to an object is its offset in the loader section. *)
Definition sizeof_o32_obj : Z := 24.
Definition o32_size (m : LX_module) (p : Z) : C Z := rd32 (loader_section m) p.
Definition o32_base (m : LX_module) (p : Z) : C Z := rd32 (loader_section m) (p + 4).
Definition o32_pagemap (m : LX_module) (p : Z) : C Z := rd32 (loader_section m) (p + 12).
Definition o32_mapsize (m : LX_module) (p : Z) : C Z := rd32 (loader_section m) (p + 16).
Definition o32_reserved (m : LX_module) (p : Z) : C Z := rd32 (loader_section m) (p + 20).
Definition set_o32 (off : Z) (m : LX_module) (p v : Z) : C LX_module :=
  b ← wr32 (loader_section m) (p + off) v; Ret (set_loader m b).

Definition get_obj (m : LX_module) (nr : Z) : Z := sizeof_o32_obj * (nr - 1).
Definition get_obj_num (m : LX_module) : C Z := e32_objcnt m.
Definition get_obj_map_num (m : LX_module) : C Z := e32_mpages m.

Definition get_code (m : LX_module) : C (option Z) :=
  startobj ← e32_startobj m;
  Ret (if startobj =? 0 then None else Some (get_obj m startobj)).
Definition get_code_num (m : LX_module) : C Z := e32_startobj m.
Definition get_eip (m : LX_module) : C Z := e32_eip m.

Definition get_data_stack (m : LX_module) : C (option Z) :=
  stackobj ← e32_stackobj m;
  num ← get_obj_num m;
  Ret (if (stackobj =? 0) || (num <? stackobj) then None
       else Some (get_obj m stackobj)).
Definition get_data_stack_num (m : LX_module) : C Z := n ← e32_stackobj m; Ret (s32 n).
Definition get_esp (m : LX_module) : C Z := e32_esp m.

(** The page table is looked for as if the object table began right after
    the header. *)
Definition get_obj_page_tbl (m : LX_module) : C Z :=
  objmap ← e32_objmap m; Ret (s32 (objmap - sizeof_e32_exe)).
Definition get_obj_map (m : LX_module) (nr : Z) : C Z :=
  t ← get_obj_page_tbl m; Ret (t + 8 * (nr - 1)).
Definition o32_pagedataoffset (m : LX_module) (p : Z) : C Z := rd32 (loader_section m) p.
Definition o32_pagesize (m : LX_module) (p : Z) : C Z := rd16 (loader_section m) (p + 4).

Definition get_ldrsize (m : LX_module) : C Z := n ← e32_ldrsize m; Ret (s32 n).
Definition get_fixupsize (m : LX_module) : C Z := n ← e32_fixupsize m; Ret (s32 n).
Definition get_e32_pagesize (m : LX_module) : C Z := n ← e32_pagesize m; Ret (s32 n).
Definition get_e32_datapage (m : LX_module) : C Z := n ← e32_datapage m; Ret (s32 n).
Definition get_e32_pageshift (m : LX_module) : C Z := n ← e32_pageshift m; Ret (s32 n).
Definition get_mflags (m : LX_module) : C Z := e32_mflags m.

Definition get_fixup_pg_tbl_offs (m : LX_module) (logisk_sida : Z) : C Z :=
  v ← rd32 (fixup_section m) (4 * (logisk_sida - 1)); Ret (s32 v).

(** The position of a record in the fixup section. *)
Definition get_fixup_rec_tbl_obj (m : LX_module) (offs : Z) : C Z :=
  frectab ← e32_frectab m;
  fpagetab ← e32_fpagetab m;
  Ret (offs + s32 (frectab - fpagetab)).

(** ** Names *)

(** [copy_pas_str]: the length byte is a signed [char]. *)
Definition copy_pas_str (b : list Z) (p : Z) : C (list Z) :=
  n ← rd8 b p;
  rdn b (p + 1) (Z.max 0 (s8 n)).

(** The walk over the names before the requested one. *)
Fixpoint skip_names (n : nat) (b : list Z) (p : Z) : C Z :=
  match n with
  | O => Ret p
  | S n => len ← rd8 b p; skip_names n b (p + s8 len + 1)
  end.

(** The names are logged first, up to a zero byte.  For an index below one
    the counter runs until it overflows. *)
Definition get_imp_mod_name (m : LX_module) (mod_idx : Z) : C Z :=
  impmod ← e32_impmod m;
  fpagetab ← e32_fpagetab m;
  let offs_mod_table := s32 (impmod - fpagetab) in
  _ ← require (0 <=? offs_mod_table);
  _ ← cstr (drop (Z.to_nat offs_mod_table) (fixup_section m));
  _ ← require (1 <=? mod_idx);
  skip_names (Z.to_nat (mod_idx - 1)) (fixup_section m) offs_mod_table.

Definition get_imp_mod_name_cstr (m : LX_module) (mod_idx : Z) : C (list Z) :=
  p ← get_imp_mod_name m mod_idx;
  copy_pas_str (fixup_section m) p.

Definition get_imp_proc_name (m : LX_module) (proc_idx : Z) : C Z :=
  impproc ← e32_impproc m;
  fpagetab ← e32_fpagetab m;
  let offs_imp_proc_table := s32 (impproc - fpagetab) in
  _ ← rd8 (fixup_section m) (offs_imp_proc_table + proc_idx);
  let proc_idx := if proc_idx =? 0 then 1 else proc_idx in
  Ret (offs_imp_proc_table + proc_idx).

Definition get_imp_proc_name_2 (m : LX_module) (proc_idx : Z) : C Z :=
  impproc ← e32_impproc m;
  fpagetab ← e32_fpagetab m;
  let offs_imp_proc_table := s32 (impproc - fpagetab) in
  _ ← rd8 (fixup_section m) (offs_imp_proc_table + proc_idx);
  Ret (offs_imp_proc_table + proc_idx).

(** The string that [strcmp] sees in the buffer after [copy_pas_str]. *)
Definition pas_cstr (s : list Z) : C (list Z) := cstr (s ++ [0]).

(** The loop over the resident names; a name is at most 127 characters, the
    buffer holds 255. *)
Fixpoint res_name_loop (fuel : nat) (m : LX_module) (offs size entry_lenghts : Z)
    (entry_name : list Z) : C Z :=
  match fuel with
  | O => NoFuel
  | S fuel =>
      if entry_lenghts <? size - 1 then
        let p := offs + entry_lenghts in
        len ← rd8 (loader_section m) p;
        let c_len := s8 len in
        buf ← copy_pas_str (loader_section m) p;
        ordinal ← rd16 (loader_section m) (offs + c_len + 1 + entry_lenghts);
        name ← pas_cstr buf;
        if bool_decide (entry_name = name) then Ret ordinal
        else res_name_loop fuel m offs size (entry_lenghts + c_len + 1 + 2) entry_name
      else Ret 0
  end.

Definition get_res_name_tbl_entry (fuel : nat) (m : LX_module) (entry_name : list Z)
    : C Z :=
  restab ← e32_restab m;
  objtab ← e32_objtab m;
  enttab ← e32_enttab m;
  let offs_res_name_table := s32 (restab - objtab) in
  let size_res_name_table := s32 (enttab - restab) in
  _ ← rd8 (loader_section m) offs_res_name_table;
  res_name_loop fuel m offs_res_name_table size_res_name_table 0 entry_name.

Definition get_non_res_name_tbl_entry (m : LX_module) (entry_name : list Z) : Z := 0.

Definition get_module_name_res_name_tbl_entry (m : LX_module) : C Z :=
  restab ← e32_restab m;
  objtab ← e32_objtab m;
  let offs_res_name_table := s32 (restab - objtab) in
  _ ← copy_pas_str (loader_section m) offs_res_name_table;
  Ret offs_res_name_table.

(** ** Lemmas *)

Lemma rdn_at b p l : bytes_at b p l -> rdn b p (Z.of_nat (length l)) = Ret l.
Proof.
  intros (pre & post & -> & ->). unfold rdn. rewrite !length_app.
  destruct (Z.leb_spec 0 (Z.of_nat (length pre))); [|lia].
  destruct (Z.leb_spec 0 (Z.of_nat (length l))); [|lia].
  destruct (Z.leb_spec (Z.of_nat (length pre) + Z.of_nat (length l))
    (Z.of_nat (length pre + (length l + length post)))); [|lia].
  cbn [andb]. rewrite !Nat2Z.id, drop_app_length, take_app_length. done.
Qed.

Lemma rdn_at' b p n l : bytes_at b p l -> n = Z.of_nat (length l) -> rdn b p n = Ret l.
Proof. intros H ->. by apply rdn_at. Qed.

Lemma rdn_short b p n : Z.of_nat (length b) < p + n -> rdn b p n = Undef.
Proof.
  intros H. unfold rdn. destruct (Z.leb_spec (p + n) (Z.of_nat (length b))); [lia|].
  by rewrite andb_false_r.
Qed.

Lemma bytes_at_range b p l :
  bytes_at b p l -> 0 <= p /\ p + Z.of_nat (length l) <= Z.of_nat (length b).
Proof. intros (pre & post & -> & ->). rewrite !length_app. lia. Qed.

(** *** Loading *)

Section load.
Variable m : LX_module.
#[local] Abbreviation stream := (lx_file_stream m).
Hypothesis Hsize : lx_stream_size m = Z.of_nat (length stream).

Lemma fseek_in pos : 0 <= pos <= Z.of_nat (length stream) ->
  (lx_fseek_stream m pos SEEK_SET).2 = set_pos m pos.
Proof.
  intros H. unfold lx_fseek_stream. rewrite Hsize.
  destruct (Z.leb_spec pos (Z.of_nat (length stream))); [|lia].
  destruct (Z.leb_spec 0 pos); [done|lia].
Qed.
End load.

Lemma fread_1 size m l : bytes_at (lx_file_stream m) (lx_stream_pos m) l ->
  size = Z.of_nat (length l) ->
  lx_fread_stream size 1 m = Ret (l, set_pos m (lx_stream_pos m + size)).
Proof.
  intros H ->. cbn [lx_fread_stream]. rewrite (rdn_at _ _ _ H). cbn [mbind C_bind].
  by rewrite app_nil_r.
Qed.

Lemma fread_bytes m c d : bytes_at (lx_file_stream m) (lx_stream_pos m) [c; d] ->
  lx_fread_stream 1 2 m = Ret ([c; d], set_pos m (lx_stream_pos m + 1 + 1)).
Proof.
  intros H. destruct (bytes_at_app _ _ [c] [d] H) as [H1 H2].
  change (Z.of_nat (length [c])) with 1 in H2. cbn [lx_fread_stream].
  rewrite (rdn_at' _ _ 1 [c] H1 eq_refl).
  cbn [mbind C_bind lx_file_stream set_pos lx_stream_pos].
  by rewrite (rdn_at' _ _ 1 [d] H2 eq_refl).
Qed.

(** Where the LX header of a file is: at the beginning, or where the DOS stub
    says. *)
Definition header_at (stream : list Z) (off : Z) : Prop :=
  off = 0 \/
  (0 < off < 2 ^ 31 /\ (bytes_at stream 0 (bstr "MZ") \/ bytes_at stream 0 (bstr "ZM")) /\
   bytes_at stream ENEWHDR (enc32 off)).

Lemma bytes_at_end b p l : bytes_at b p l -> 0 <= p <= Z.of_nat (length b).
Proof. intros H%bytes_at_range. lia. Qed.

Lemma load_header stream off h :
  header_at stream off -> bytes_at stream off h -> Z.of_nat (length h) = sizeof_e32_exe ->
  (exists h', h = bstr "LX" ++ h') ->
  exists pos,
  LXLoadHeader true (mkLX [] [] [] 0 stream (Z.of_nat (length stream)) 0) =
    Ret (true, mkLX h [] [] off stream (Z.of_nat (length stream)) pos).
Proof.
  intros Hat Hh Hlen [h' Eh]. unfold LXLoadHeader.
  set (m0 := mkLX [] [] [] 0 stream (Z.of_nat (length stream)) 0).
  assert (HLX : bytes_at stream off (bstr "LX"))
    by (rewrite Eh in Hh; by apply bytes_at_app in Hh as [Hh _]).
  pose proof (bytes_at_end _ _ _ Hh) as Hoff.
  rewrite (fseek_in m0) by (done || cbn; lia).
  destruct Hat as [->|(Ho & Hsig & Hptr)].
  - rewrite (fread_1 2 _ (bstr "LX")) by done. cbn [mbind C_bind].
    change (is_sig (bstr "LX") "M" "Z" || is_sig (bstr "LX") "Z" "M") with false.
    cbn [mbind C_bind]. change (0 =? 0) with true. cbv iota.
    change (is_sig (bstr "LX") "L" "X") with true. cbv iota. cbn [alloc require mbind C_bind].
    rewrite fseek_in by (done || cbn; lia).
    rewrite (fread_1 _ _ h) by done. cbn [mbind C_bind]. by eexists.
  - assert (exists s, bytes_at stream 0 s /\ length s = 2%nat /\
      is_sig s "M" "Z" || is_sig s "Z" "M" = true) as (s & Hs & Ls & Es).
    { destruct Hsig as [H|H]; eexists; (split; [exact H|by split]). }
    rewrite (fread_1 2 _ s) by (done || by rewrite Ls). cbn [mbind C_bind]. rewrite Es.
    pose proof (bytes_at_end _ _ _ Hptr) as Hp.
    rewrite fseek_in by (done || cbn; lia).
    rewrite (fread_1 4 _ (enc32 off)) by done. cbn [mbind C_bind].
    assert (rd32 (enc32 off) 0 = Ret off) as ->.
    { pose proof (bytes_at_rd32 (enc32 off) 0 off []) as R. rewrite R.
      - by rewrite u32_id by (unfold is_u32; lia).
      - by exists [], []. }
    cbn [mbind C_bind]. rewrite s32_small by lia.
    rewrite fseek_in by (done || cbn; lia).
    change (bstr "LX") with [ch "L"%char; ch "X"%char] in HLX.
    rewrite (fread_bytes _ (ch "L"%char) (ch "X"%char)) by done. cbn [mbind C_bind].
    destruct (Z.eqb_spec off 0); [lia|].
    change (is_sig [ch "L"%char; ch "X"%char] "L" "X") with true. cbv iota.
    cbn [alloc require mbind C_bind].
    rewrite fseek_in by (done || cbn; lia).
    rewrite (fread_1 _ _ h) by done. cbn [mbind C_bind]. by eexists.
Qed.

(** Loading a well-formed file, with or without a DOS stub: the header,
    the loader section and the fixup section of the module are those bytes of
    the file; the fixup section is read from where the loader section ends. *)
Theorem load_stream_spec stream off h L F objtab :
  header_at stream off -> bytes_at stream off h -> Z.of_nat (length h) = sizeof_e32_exe ->
  (exists h', h = bstr "LX" ++ h') ->
  rd32 h 64 = Ret objtab -> off + objtab < 2 ^ 31 ->
  rd32 h 56 = Ret (Z.of_nat (length L)) -> rd32 h 48 = Ret (Z.of_nat (length F)) ->
  0 <= objtab -> bytes_at stream (off + objtab) (L ++ F) ->
  exists m, LXLoadStream true stream (Z.of_nat (length stream)) = Ret (Some m) /\
    lx_head_e32_exe m = h /\ loader_section m = L /\ fixup_section m = F /\
    offs_lx_head m = off /\ lx_file_stream m = stream /\
    lx_stream_size m = Z.of_nat (length stream).
Proof.
  intros Hat Hh Hlen HLX Hobj Hlt HL HF Hobj0 HLF.
  destruct (load_header stream off h Hat Hh Hlen HLX) as [pos E].
  unfold LXLoadStream. rewrite E. cbn [mbind C_bind].
  pose proof (bytes_at_end _ _ _ Hh) as Hoff. pose proof (bytes_at_end _ _ _ HLF) as Hend.
  apply bytes_at_app in HLF as [BL BF].
  unfold LXLoadLoaderSection, e32_objtab, e32_ldrsize, e32_field. cbn [lx_head_e32_exe].
  rewrite Hobj. cbn [mbind C_bind offs_lx_head]. rewrite s32_small by lia.
  rewrite fseek_in by (done || cbn; lia).
  cbn [lx_head_e32_exe set_pos lx_file_stream lx_stream_size]. rewrite HL.
  cbn [alloc require mbind C_bind].
  rewrite (fread_1 _ _ L) by done. cbn [mbind C_bind].
  unfold LXLoadFixupSection, e32_fixupsize, e32_field.
  cbn [lx_head_e32_exe set_pos set_loader]. rewrite HF. cbn [alloc require mbind C_bind].
  rewrite (fread_1 _ _ F) by done. cbn [mbind C_bind]. by eexists.
Qed.

(** A file whose first two bytes are neither a DOS nor an LX signature is
    rejected; a file too short to hold the header is read beyond its end. *)
Theorem load_stream_errors stream c d rest :
  stream = c :: d :: rest ->
  is_sig [c; d] "M" "Z" || is_sig [c; d] "Z" "M" = false ->
  if is_sig [c; d] "L" "X" then
    Z.of_nat (length stream) < sizeof_e32_exe ->
    LXLoadStream true stream (Z.of_nat (length stream)) = Undef
  else LXLoadStream true stream (Z.of_nat (length stream)) = Ret None.
Proof.
  intros Es Hmz. set (m0 := mkLX [] [] [] 0 stream (Z.of_nat (length stream)) 0).
  assert (B : bytes_at stream 0 [c; d]) by (exists [], rest; by rewrite Es).
  assert (E : LXLoadHeader true m0 =
    if is_sig [c; d] "L" "X" then
      '(h, m) ← lx_fread_stream sizeof_e32_exe 1 (set_pos m0 0); Ret (true, set_head m h)
    else Ret (false, set_offs (set_pos m0 2) 0)).
  { unfold LXLoadHeader. rewrite (fseek_in m0) by (done || cbn; lia).
    rewrite (fread_1 2 _ [c; d]) by done. cbn [mbind C_bind]. rewrite Hmz.
    cbn [mbind C_bind]. change (0 =? 0) with true. cbv iota.
    destruct (is_sig [c; d] "L" "X"); [|done]. cbn [alloc require mbind C_bind].
    by rewrite fseek_in by (done || cbn; lia). }
  unfold LXLoadStream. fold m0. rewrite E. destruct (is_sig [c; d] "L" "X"); [|done].
  intros Hlen. cbn [lx_fread_stream set_pos lx_stream_pos lx_file_stream m0].
  by rewrite rdn_short by lia.
Qed.

(** ** Names *)

(** A Pascal string. *)
Definition pas (s : list Z) : list Z := Z.of_nat (length s) :: s.

Definition short (s : list Z) : Prop := Z.of_nat (length s) < 128.

Lemma s8_small z : 0 <= z < 128 -> s8 z = z.
Proof.
  intros H. unfold s8, signed. destruct (Z.ltb_spec (z mod 2 ^ 8) (2 ^ (8 - 1))); lia.
Qed.

Lemma copy_pas_at b p s : bytes_at b p (pas s) -> short s -> copy_pas_str b p = Ret s.
Proof.
  intros [E H]%bytes_at_cons Hs. unfold copy_pas_str. rewrite E. cbn [mbind C_bind].
  unfold short in Hs. rewrite s8_small, Z.max_r by lia. by apply rdn_at.
Qed.

(** A length byte of 128 or more is a negative [char]: the name is read as
    empty. *)
Lemma copy_pas_long b p s n rest :
  bytes_at b p (n :: s ++ rest) -> 128 <= n < 256 -> copy_pas_str b p = Ret [].
Proof.
  intros H Hn. apply bytes_at_cons in H as [E H]. unfold copy_pas_str.
  rewrite E. cbn [mbind C_bind].
  assert (s8 n <= 0).
  { unfold s8, signed. destruct (Z.ltb_spec (n mod 2 ^ 8) (2 ^ (8 - 1))); lia. }
  rewrite Z.max_l by done. apply bytes_at_range in H. apply (rdn_at' _ _ _ []); [|done].
  exists (take (Z.to_nat (p + 1)) b), (drop (Z.to_nat (p + 1)) b). cbn [app].
  rewrite take_drop. split; [done|]. rewrite length_take. lia.
Qed.

Definition imp_names (names : list (list Z)) : list Z := mjoin (pas <$> names).

Lemma imp_names_cons n names : imp_names (n :: names) = pas n ++ imp_names names.
Proof. reflexivity. Qed.

Lemma skip_names_at names : forall b p i name rest,
  bytes_at b p (imp_names names ++ rest) -> Forall short names ->
  names !! i = Some name ->
  exists q, skip_names i b p = Ret q /\ bytes_at b q (pas name).
Proof.
  induction names as [|n names IH]; intros b p i name rest H Hs Hi; [done|].
  inversion_clear Hs as [|? ? Hn Hs']. rewrite imp_names_cons, <- app_assoc in H.
  apply bytes_at_app in H as [H1 H2]. destruct i as [|i].
  - injection Hi as ->. by exists p.
  - cbn [skip_names]. apply bytes_at_cons in H1 as [-> _]. cbn [mbind C_bind].
    unfold short in Hn. rewrite s8_small by lia.
    apply (IH b _ i name rest); [|done|done].
    cbn [pas length] in H2. by replace (p + Z.of_nat (length n) + 1)
      with (p + Z.of_nat (S (length n))) by lia.
Qed.

Lemma cstr_has_zero b p l : bytes_at b p (l ++ [0]) -> returns (cstr (drop (Z.to_nat p) b)).
Proof.
  intros (pre & post & -> & ->). rewrite Nat2Z.id, drop_app_length, <- app_assoc.
  change ([0] ++ post) with (0 :: post).
  induction l as [|c l IH]; cbn; [by eexists|].
  destruct (c =? 0); [by eexists|]. destruct IH as [s ->]. by eexists.
Qed.

(** The import module table: index [i], counted from 1, gives the [i]-th
    name. *)
Theorem imp_mod_name_spec m names (i : nat) name rest impmod fpagetab :
  e32_impmod m = Ret impmod -> e32_fpagetab m = Ret fpagetab ->
  0 <= impmod - fpagetab < 2 ^ 31 ->
  bytes_at (fixup_section m) (impmod - fpagetab) (imp_names names ++ rest ++ [0]) ->
  Forall short names -> names !! i = Some name ->
  get_imp_mod_name_cstr m (Z.of_nat (S i)) = Ret name.
Proof.
  intros E1 E2 Hr H Hs Hi. unfold get_imp_mod_name_cstr, get_imp_mod_name.
  rewrite E1, E2. cbn [mbind C_bind]. rewrite s32_small by lia.
  destruct (Z.leb_spec 0 (impmod - fpagetab)); [|lia]. cbn [require mbind C_bind].
  rewrite app_assoc in H. destruct (cstr_has_zero _ _ _ H) as [s ->]. cbn [mbind C_bind].
  destruct (Z.leb_spec 1 (Z.of_nat (S i))); [|lia]. cbn [require mbind C_bind].
  replace (Z.to_nat (Z.of_nat (S i) - 1)) with i by lia. rewrite <- app_assoc in H.
  destruct (skip_names_at _ _ _ _ _ _ H Hs Hi) as (q & -> & Hq). cbn [mbind C_bind].
  apply copy_pas_at; [done|]. rewrite Forall_forall in Hs.
  by apply Hs, list_elem_of_lookup_2 with i.
Qed.

(** The resident name table: names with their ordinals and a zero byte. *)
Definition res_entry (e : list Z * Z) : list Z := pas e.1 ++ enc16 e.2.
Definition res_entries (es : list (list Z * Z)) : list Z := mjoin (res_entry <$> es).
Definition res_table (es : list (list Z * Z)) : list Z := res_entries es ++ [0].

Definition good_entry (e : list Z * Z) : Prop := text e.1 /\ short e.1 /\ 0 <= e.2 < 65536.

Fixpoint find_name (nm : list Z) (es : list (list Z * Z)) : Z :=
  match es with
  | [] => 0
  | e :: es' => if bool_decide (nm = e.1) then e.2 else find_name nm es'
  end.

Lemma res_entries_cons e es : res_entries (e :: es) = res_entry e ++ res_entries es.
Proof. reflexivity. Qed.

Lemma res_name_loop_spec m offs nm es : forall fuel e size,
  bytes_at (loader_section m) (offs + e) (res_entries es ++ [0]) ->
  size - 1 = e + Z.of_nat (length (res_entries es)) -> Forall good_entry es ->
  (length es < fuel)%nat ->
  res_name_loop fuel m offs size e nm = Ret (find_name nm es).
Proof.
  induction es as [|[n o] es IH]; intros fuel e size H Hsz Hg Hf;
    (destruct fuel as [|fuel]; [cbn in Hf; lia|]); cbn [res_name_loop].
  - change (length (res_entries [])) with 0%nat in Hsz.
    destruct (Z.ltb_spec e (size - 1)); [lia|done].
  - inversion_clear Hg as [|? ? (Ht & Hn & Ho) Hg']. cbn [fst snd] in *.
    rewrite res_entries_cons, length_app in Hsz. rewrite res_entries_cons, <- app_assoc in H.
    assert (Le : length (res_entry (n, o)) = (length n + 3)%nat)
      by (unfold res_entry, pas, enc16; rewrite length_app; cbn [length fst snd]; lia).
    destruct (Z.ltb_spec e (size - 1)); [|lia].
    apply bytes_at_app in H as [H1 H2]. unfold res_entry in H1. cbn [fst snd] in H1.
    apply bytes_at_app in H1 as [H1 H3].
    pose proof H1 as [-> _]%bytes_at_cons. cbn [mbind C_bind].
    rewrite (copy_pas_at _ _ _ H1 Hn). cbn [mbind C_bind].
    unfold short in Hn. rewrite s8_small by lia. cbn [pas length] in H3.
    replace (offs + Z.of_nat (length n) + 1 + e) with (offs + e + Z.of_nat (S (length n))) by lia.
    rewrite <- (app_nil_r (enc16 o)) in H3. rewrite (bytes_at_rd16 _ _ _ _ H3).
    cbn [mbind C_bind]. unfold pas_cstr. rewrite cstr_text by done. cbn [mbind C_bind find_name fst snd].
    destruct (bool_decide (nm = n)); [f_equal; unfold u16; lia|].
    apply IH; [|lia|done|cbn in Hf; lia].
    rewrite Le in H2. replace (offs + (e + Z.of_nat (length n) + 1 + 2))
      with (offs + e + Z.of_nat (length n + 3)) by lia. done.
Qed.

(** A lookup in the resident name table returns the ordinal of the first
    entry with that name, or 0 when there is none. *)
Theorem res_name_lookup m es nm fuel restab objtab enttab :
  e32_restab m = Ret restab -> e32_objtab m = Ret objtab -> e32_enttab m = Ret enttab ->
  0 <= restab - objtab < 2 ^ 31 ->
  enttab - restab = Z.of_nat (length (res_table es)) -> enttab - restab < 2 ^ 31 ->
  bytes_at (loader_section m) (restab - objtab) (res_table es) ->
  Forall good_entry es -> (length es < fuel)%nat ->
  get_res_name_tbl_entry fuel m nm = Ret (find_name nm es).
Proof.
  intros E1 E2 E3 Hr Hsz Hlt H Hg Hf. unfold get_res_name_tbl_entry.
  rewrite E1, E2, E3. cbn [mbind C_bind].
  unfold res_table in *. rewrite length_app in Hsz. cbn [length] in Hsz.
  rewrite !s32_small by lia.
  assert (exists c, rd8 (loader_section m) (restab - objtab) = Ret c) as [c ->].
  { destruct (res_entries es ++ [0]) as [|c l] eqn:El; [by destruct (res_entries es)|].
    apply bytes_at_cons in H as [-> _]. by eexists. }
  cbn [mbind C_bind]. apply res_name_loop_spec; [by rewrite Z.add_0_r|lia|done|done].
Qed.

(** ** Instances of the properties *)

Definition demo_h (objtab ldrsize fixupsize restab enttab fpagetab impmod : Z) : list Z :=
  bstr "LX" ++ replicate 46 0 ++ enc32 fixupsize ++ replicate 4 0 ++ enc32 ldrsize ++
  replicate 4 0 ++ enc32 objtab ++ replicate 20 0 ++ enc32 restab ++ enc32 enttab ++
  replicate 8 0 ++ enc32 fpagetab ++ replicate 4 0 ++ enc32 impmod ++ replicate 80 0.

Definition demo_head : list Z := demo_h 196 3 2 0 0 0 0.
Definition demo_stub : list Z := bstr "MZ" ++ replicate 58 0 ++ enc32 64.
Definition demo_stream : list Z := demo_stub ++ demo_head ++ [1; 2; 3] ++ [4; 5] ++ [9].

Lemma load_stream_spec_witness :
  exists m, LXLoadStream true demo_stream (Z.of_nat (length demo_stream)) = Ret (Some m) /\
    lx_head_e32_exe m = demo_head /\ loader_section m = [1; 2; 3] /\
    fixup_section m = [4; 5] /\ offs_lx_head m = 64 /\ lx_file_stream m = demo_stream /\
    lx_stream_size m = Z.of_nat (length demo_stream).
Proof.
  apply (load_stream_spec demo_stream 64 demo_head [1; 2; 3] [4; 5] 196).
  - right. split; [lia|]. split.
    + left. by exists [], (drop 2 demo_stream).
    + by exists (take 60 demo_stream), (drop 64 demo_stream).
  - by exists demo_stub, ([1; 2; 3] ++ [4; 5] ++ [9]).
  - reflexivity.
  - by exists (drop 2 demo_head).
  - vm_compute. reflexivity.
  - lia.
  - vm_compute. reflexivity.
  - vm_compute. reflexivity.
  - lia.
  - by exists (demo_stub ++ demo_head), [9].
Defined.

Lemma load_stream_errors_witness :
  LXLoadStream true (bstr "LX...") (Z.of_nat (length (bstr "LX..."))) = Undef.
Proof.
  refine (load_stream_errors (bstr "LX...") (ch "L"%char) (ch "X"%char) (bstr "...") _ _ _);
    reflexivity.
Defined.

Definition demo_names : list (list Z) := [bstr "DOSCALLS"; bstr "NLS"].
Definition demo_module (loader fixup : list Z) (restab enttab fpagetab impmod : Z) : LX_module :=
  mkLX (demo_h 196 0 0 restab enttab fpagetab impmod) loader fixup 0 [] 0 0.

Lemma short_check names : forallb (fun s => Z.of_nat (length s) <? 128) names = true ->
  Forall short names.
Proof.
  rewrite forallb_forall. intros H. apply Forall_forall. intros s Hs.
  rewrite list_elem_of_In in Hs. specialize (H s Hs). unfold short. lia.
Qed.

Lemma imp_mod_name_spec_witness :
  get_imp_mod_name_cstr (demo_module [] ([7; 7] ++ imp_names demo_names ++ [] ++ [0]) 0 0 300 302)
    (Z.of_nat 2) = Ret (bstr "NLS").
Proof.
  apply (imp_mod_name_spec _ demo_names 1 (bstr "NLS") [] 302 300);
    [vm_compute; reflexivity|vm_compute; reflexivity|lia| |by apply short_check|reflexivity].
  by exists [7; 7], [].
Defined.

Definition demo_res : list (list Z * Z) := [(bstr "MYDLL", 0); (bstr "MyFunc", 5)].

Lemma demo_res_good : Forall good_entry demo_res.
Proof.
  repeat constructor; cbn; try lia; unfold ch; cbn; lia.
Qed.

Lemma res_name_lookup_witness :
  get_res_name_tbl_entry 3
    (demo_module (res_table demo_res) [] 196 (196 + Z.of_nat (length (res_table demo_res))) 0 0)
    (bstr "MyFunc") = Ret (find_name (bstr "MyFunc") demo_res).
Proof.
  apply (res_name_lookup _ demo_res _ 3 196 196 (196 + Z.of_nat (length (res_table demo_res))));
    [vm_compute; reflexivity|vm_compute; reflexivity|vm_compute; reflexivity
    |lia|lia|vm_compute; reflexivity|by exists [], []|apply demo_res_good|cbn; lia].
Defined.
