(* ===== verification/LxLoad.v ===== *)
(** * Loading LX executables ([OS2/Server/shared/lib/ixf/lx/lx.c],
      [loadobj.c] and the objects of [load.c])

    From the parsed module ([LxMod]) the loader builds the format-independent
    tables of the executable-format layer: names of imported modules, exported
    entries, imported fixups; it places the objects in memory and applies
    internal fixups.  The memory of the server is a byte memory; its allocator
    is an argument. *)
From S2P Require Import Prelude MemMgr LxFixup LxMod.

(** ** Data ([os3/ixfmgr.h])

    The code does not set [Address] in the entries of forwarders and of imports;
    0 stands for the indeterminate value there (the linker overwrites it). *)

Record IXFMODULEENTRY := mkEntry {
  FunctionName : option (list Z);
  Address : Z;
  ModuleName : option (list Z);
  Ordinal : Z
}.

Record IXFFIXUPENTRY := mkFixupEntry {
  SrcAddress : Z;
  SrcVmAddress : Z;
  ImportEntry : IXFMODULEENTRY
}.

(** A section of the host-dependent list ([IXFSYSDEP]). *)
Record section := mkSection { sec_addr : Z; sec_size : Z; sec_id : Z }.

(** The fields of [IXFModule] and its [IXFSYSDEP] that the loader fills; the
    counters of the tables are their lengths. *)
Record IXFModule := mkIxf {
  FormatStruct : LX_module;
  Entries : list IXFMODULEENTRY;
  Modules : list (list Z);
  Fixups : list IXFFIXUPENTRY;
  EntryPoint : Z;
  Stack : Z;
  PIC : bool;
  seclist : list section;
  stack_low : Z;
  stack_high : Z
}.

Definition set_format (x : IXFModule) (m : LX_module) : IXFModule :=
  mkIxf m (Entries x) (Modules x) (Fixups x) (EntryPoint x) (Stack x) (PIC x)
    (seclist x) (stack_low x) (stack_high x).
Definition set_entries (x : IXFModule) (l : list IXFMODULEENTRY) : IXFModule :=
  mkIxf (FormatStruct x) l (Modules x) (Fixups x) (EntryPoint x) (Stack x) (PIC x)
    (seclist x) (stack_low x) (stack_high x).
Definition set_modules (x : IXFModule) (l : list (list Z)) (pic : bool) : IXFModule :=
  mkIxf (FormatStruct x) (Entries x) l (Fixups x) (EntryPoint x) (Stack x) pic
    (seclist x) (stack_low x) (stack_high x).
Definition set_fixups (x : IXFModule) (l : list IXFFIXUPENTRY) : IXFModule :=
  mkIxf (FormatStruct x) (Entries x) (Modules x) l (EntryPoint x) (Stack x) (PIC x)
    (seclist x) (stack_low x) (stack_high x).
Definition set_entrypoint (x : IXFModule) (v : Z) : IXFModule :=
  mkIxf (FormatStruct x) (Entries x) (Modules x) (Fixups x) v (Stack x) (PIC x)
    (seclist x) (stack_low x) (stack_high x).
Definition set_stack (x : IXFModule) (st lo hi : Z) : IXFModule :=
  mkIxf (FormatStruct x) (Entries x) (Modules x) (Fixups x) (EntryPoint x) st (PIC x)
    (seclist x) lo hi.
Definition add_section (x : IXFModule) (s : section) : IXFModule :=
  mkIxf (FormatStruct x) (Entries x) (Modules x) (Fixups x) (EntryPoint x) (Stack x) (PIC x)
    (seclist x ++ [s]) (stack_low x) (stack_high x).

(** ** Identification *)

Definition chars_are (b : list Z) (p : Z) (c d : ascii) : C bool :=
  x ← rd8 b p;
  if x =? ch c then y ← rd8 b (p + 1); Ret (y =? ch d) else Ret false.

Definition LXIdentify (addr : list Z) : C Z :=
  mz ← chars_are addr 0 "M" "Z";
  stub ← (if (mz : bool) then Ret true else chars_are addr 0 "Z" "M");
  lx_module_header_offset ← (if (stub : bool) then rd32 addr ENEWHDR else Ret 0);
  lx ← chars_are addr lx_module_header_offset "L" "X";
  Ret (if (lx : bool) then NO_ERROR else 11).

(** ** The entry table *)

Definition EMPTY : Z := 0.
Definition ENTRY32 : Z := 3.
Definition ENTRYFWD : Z := 4.
Definition UNUSED_ENTRY_SIZE : Z := 2.
Definition ENTRY_HEADER_SIZE : Z := 4.
Definition _32BIT_ENTRY_SIZE : Z := 5.
Definition FORWARD_ENTRY_SIZE : Z := 7.

Definition entry_type_ok (ty : Z) : bool :=
  (ty =? EMPTY) || (ty =? ENTRYFWD) || (ty =? ENTRY32).

(** The first pass counts the entries; [None] is the error return. *)
Fixpoint count_entries (fuel : nat) (b : list Z) (p cbEntries : Z) : C (option Z) :=
  match fuel with
  | O => NoFuel
  | S fuel =>
      b32_cnt ← rd8 b p;
      if b32_cnt =? 0 then Ret (Some cbEntries)
      else
        b32_type ← rd8 b (p + 1);
        if negb (entry_type_ok b32_type) then Ret None
        else if b32_type =? EMPTY then
          count_entries fuel b (p + UNUSED_ENTRY_SIZE) (u32 (cbEntries + b32_cnt))
        else if b32_type =? ENTRY32 then
          count_entries fuel b (p + ENTRY_HEADER_SIZE + _32BIT_ENTRY_SIZE * b32_cnt)
            (u32 (cbEntries + b32_cnt))
        else
          count_entries fuel b (p + ENTRY_HEADER_SIZE + FORWARD_ENTRY_SIZE * b32_cnt)
            (u32 (cbEntries + b32_cnt))
  end.

(** Writing one element: the array of [cap] elements is filled from its
    beginning. *)
Definition put {A} (cap : Z) (l : list A) (x : A) : C (list A) :=
  _ ← require (Z.of_nat (length l) <? cap); Ret (l ++ [x]).

Fixpoint fill_empty (n : nat) (cap : Z) (l : list IXFMODULEENTRY) : C (list IXFMODULEENTRY) :=
  match n with
  | O => Ret l
  | S n => l ← put cap l (mkEntry None 0 None 0); fill_empty n cap l
  end.

Fixpoint fill_entry32 (n : nat) (m : LX_module) (obj p cap : Z) (l : list IXFMODULEENTRY)
    : C (list IXFMODULEENTRY) :=
  match n with
  | O => Ret l
  | S n =>
      offset32 ← rd32 (loader_section m) (p + 1);
      base ← o32_base m (get_obj m obj);
      l ← put cap l (mkEntry None (u32 (offset32 + base)) None 0);
      fill_entry32 n m obj (p + _32BIT_ENTRY_SIZE) cap l
  end.

Fixpoint fill_forward (n : nat) (m : LX_module) (p cap : Z) (l : list IXFMODULEENTRY)
    : C (list IXFMODULEENTRY) :=
  match n with
  | O => Ret l
  | S n =>
      value ← rd32 (loader_section m) (p + 3);
      modord ← rd16 (loader_section m) (p + 1);
      buf ← get_imp_mod_name_cstr m modord;
      name ← pas_cstr buf;
      l ← put cap l (mkEntry None 0 (Some name) (s32 value));
      fill_forward n m (p + FORWARD_ENTRY_SIZE) cap l
  end.

Fixpoint fill_entries (fuel : nat) (m : LX_module) (p cap : Z) (l : list IXFMODULEENTRY)
    : C (list IXFMODULEENTRY) :=
  match fuel with
  | O => NoFuel
  | S fuel =>
      b32_cnt ← rd8 (loader_section m) p;
      if b32_cnt =? 0 then Ret l
      else
        b32_type ← rd8 (loader_section m) (p + 1);
        if negb (entry_type_ok b32_type) then Ret l
        else if b32_type =? EMPTY then
          l ← fill_empty (Z.to_nat b32_cnt) cap l;
          fill_entries fuel m (p + UNUSED_ENTRY_SIZE) cap l
        else if b32_type =? ENTRY32 then
          b32_obj ← rd16 (loader_section m) (p + 2);
          l ← fill_entry32 (Z.to_nat b32_cnt) m b32_obj (p + ENTRY_HEADER_SIZE) cap l;
          fill_entries fuel m (p + ENTRY_HEADER_SIZE + _32BIT_ENTRY_SIZE * b32_cnt) cap l
        else
          l ← fill_forward (Z.to_nat b32_cnt) m (p + ENTRY_HEADER_SIZE) cap l;
          fill_entries fuel m (p + ENTRY_HEADER_SIZE + FORWARD_ENTRY_SIZE * b32_cnt) cap l
  end.

(** Every bundle takes at least two bytes of the section. *)
Definition convert_entry_table_to_BFF (malloc_ok : bool) (x : IXFModule)
    : C (Z * IXFModule) :=
  let m := FormatStruct x in
  let fuel := S (length (loader_section m)) in
  enttab ← e32_enttab m;
  objtab ← e32_objtab m;
  let offs_to_entry_tbl := s32 (enttab - objtab) in
  cnt ← count_entries fuel (loader_section m) offs_to_entry_tbl 0;
  match cnt with
  | None => Ret (1, x)
  | Some cbEntries =>
      _ ← alloc malloc_ok;
      l ← fill_entries fuel m offs_to_entry_tbl cbEntries [];
      Ret (NO_ERROR, set_entries x l)
  end.

(** ** Walking the fixups of an object *)

(** The loop over the records of a page, with the work done for a record of
    an import, [on_import], and for an internal one, [on_internal]. *)
Section walk.
Context {S : Type}.
Variable m : LX_module.
Variable on_internal on_entry on_ordinal on_name : S -> Z -> C S.

Fixpoint walk_page (fuel : nat) (fixup_offset pg_end_offs_fix : Z) (s : S) : C S :=
  match fuel with
  | O => NoFuel
  | Datatypes.S fuel =>
      if fixup_offset <? pg_end_offs_fix then
        min_rlc ← get_fixup_rec_tbl_obj m fixup_offset;
        _ ← nr_stype (fixup_section m) min_rlc;
        flags ← nr_flags (fixup_section m) min_rlc;
        let ty := Z.land flags NRRTYP in
        s ← (if ty =? NRRINT then on_internal s min_rlc
             else if ty =? NRRENT then on_entry s min_rlc
             else if ty =? NRRORD then on_ordinal s min_rlc
             else on_name s min_rlc);
        size ← get_reloc_size_rlc (fixup_section m) min_rlc;
        walk_page fuel (fixup_offset + size) pg_end_offs_fix s
      else Ret s
  end.
End walk.

(** The loop over the pages [page_nr] to [lastpage - 1] of an object; [page]
    does the work for one of them. *)
Fixpoint walk_pages {S} (page : Z -> S -> C S) (n : nat) (page_nr : Z) (s : S) : C S :=
  match n with
  | O => Ret s
  | Datatypes.S n => s ← page page_nr s; walk_pages page n (page_nr + 1) s
  end.

Definition object_pages (m : LX_module) (obj : Z) : C (Z * nat) :=
  pagemap ← o32_pagemap m obj;
  mapsize ← o32_mapsize m obj;
  let startpage := s32 pagemap in
  let lastpage := s32 (pagemap + mapsize) in
  Ret (startpage, Z.to_nat (lastpage - startpage)).

(** A record takes at least five bytes. *)
Definition page_records {S} (m : LX_module) (h0 h1 h2 h3 : S -> Z -> C S) (page_nr : Z) (s : S)
    : C S :=
  pg_offs_fix ← get_fixup_pg_tbl_offs m page_nr;
  pg_end_offs_fix ← get_fixup_pg_tbl_offs m (page_nr + 1);
  walk_page m h0 h1 h2 h3 (Datatypes.S (Z.to_nat (pg_end_offs_fix - pg_offs_fix)))
    pg_offs_fix pg_end_offs_fix s.

Definition calc_imp_fixup_obj_lx (m : LX_module) (obj : Z) : C Z :=
  '(startpage, n) ← object_pages m obj;
  walk_pages
    (page_records m (fun s _ => Ret s) (fun s _ => Ret s)
       (fun s _ => Ret (u32 (s + 1))) (fun s _ => Ret (u32 (s + 1))))
    n startpage 0.

(** The address of page [page_nr] of an object that is placed at [base]. *)
Definition page_address (m : LX_module) (obj base page_nr : Z) : C Z :=
  pagesize ← get_e32_pagesize m;
  pagemap ← o32_pagemap m obj;
  Ret (u32 (base + pagesize * (page_nr - pagemap))).

Definition import_ordinal (m : LX_module) (cap vm_start_of_page start_of_page : Z)
    (l : list IXFFIXUPENTRY) (rlc : Z) : C (list IXFFIXUPENTRY) :=
  let b := fixup_section m in
  mod_nr ← get_mod_ord1_rlc b rlc;
  import_ord ← get_imp_ord1_rlc b rlc;
  srcoff_cnt1 ← get_srcoff_cnt1_rlc b rlc;
  buf ← get_imp_mod_name_cstr m mod_nr;
  mod_name ← pas_cstr buf;
  put cap l (mkFixupEntry (u32 (start_of_page + srcoff_cnt1))
               (u32 (vm_start_of_page + srcoff_cnt1))
               (mkEntry None 0 (Some mod_name) import_ord)).

Definition import_name (m : LX_module) (cap vm_start_of_page start_of_page : Z)
    (l : list IXFFIXUPENTRY) (rlc : Z) : C (list IXFFIXUPENTRY) :=
  let b := fixup_section m in
  mod_nr ← get_mod_ord1_rlc b rlc;
  import_name_offs ← get_imp_ord1_rlc b rlc;
  srcoff_cnt1 ← get_srcoff_cnt1_rlc b rlc;
  pas_imp_proc_name ← get_imp_proc_name m import_name_offs;
  buf_import_name ← copy_pas_str b pas_imp_proc_name;
  name ← pas_cstr buf_import_name;
  buf ← get_imp_mod_name_cstr m mod_nr;
  mod_name ← pas_cstr buf;
  put cap l (mkFixupEntry (u32 (start_of_page + srcoff_cnt1))
               (u32 (vm_start_of_page + srcoff_cnt1))
               (mkEntry (Some name) 0 (Some mod_name) 0)).

Definition convert_page (m : LX_module) (obj cap page_nr : Z) (l : list IXFFIXUPENTRY)
    : C (list IXFFIXUPENTRY) :=
  reserved ← o32_reserved m obj;
  base ← o32_base m obj;
  vm_start_of_page ← page_address m obj reserved page_nr;
  start_of_page ← page_address m obj base page_nr;
  page_records m (fun l _ => Ret l) (fun l _ => Ret l)
    (import_ordinal m cap vm_start_of_page start_of_page)
    (import_name m cap vm_start_of_page start_of_page) page_nr l.

Definition convert_imp_fixup_obj_lx (m : LX_module) (obj cap : Z) (l : list IXFFIXUPENTRY)
    : C (list IXFFIXUPENTRY) :=
  '(startpage, n) ← object_pages m obj;
  walk_pages (convert_page m obj cap) n startpage l.

Fixpoint calc_objects (n : nat) (i : Z) (m : LX_module) (cb : Z) : C Z :=
  match n with
  | O => Ret cb
  | S n => k ← calc_imp_fixup_obj_lx m (get_obj m i); calc_objects n (i + 1) m (u32 (cb + k))
  end.
Fixpoint convert_objects (n : nat) (i : Z) (m : LX_module) (cap : Z) (l : list IXFFIXUPENTRY)
    : C (list IXFFIXUPENTRY) :=
  match n with
  | O => Ret l
  | S n => l ← convert_imp_fixup_obj_lx m (get_obj m i) cap l; convert_objects n (i + 1) m cap l
  end.

Definition convert_fixup_table_to_BFF (malloc_ok : bool) (x : IXFModule) : C (Z * IXFModule) :=
  let m := FormatStruct x in
  num ← get_obj_num m;
  cbFixups ← calc_objects (Z.to_nat num) 1 m 0;
  if cbFixups =? 0 then Ret (NO_ERROR, set_fixups x [])
  else
    _ ← alloc malloc_ok;
    l ← convert_objects (Z.to_nat num) 1 m cbFixups [];
    Ret (NO_ERROR, set_fixups x l).

(** ** Internal fixups (loadobj.c)

    The objects lie in the memory of the server; a fixup stores four bytes,
    whatever its source type is. *)
Definition apply_internal_fixup (m : LX_module) (vm_start_of_page : Z) (s : mem) (rlc : Z)
    : C mem :=
  let b := fixup_section m in
  srcoff_cnt1 ← get_srcoff_cnt1_rlc b rlc;
  object1 ← get_mod_ord1_rlc b rlc;
  addit ← get_additive_rlc b rlc;
  vm_start_target_obj ← o32_reserved m (get_obj m object1);
  trgoffs ← get_imp_ord1_rlc b rlc;
  let vm_target := u32 (vm_start_target_obj + trgoffs) in
  let vm_source := u32 (vm_start_of_page + srcoff_cnt1) in
  st32 s vm_source vm_target.

Definition apply_internal_entry_table_fixup (s : mem) (rlc : Z) : C mem := Ret s.

(** Imports are read here and resolved elsewhere. *)
Definition skip_ordinal (m : LX_module) (s : mem) (rlc : Z) : C mem :=
  mod_nr ← get_mod_ord1_rlc (fixup_section m) rlc;
  _ ← get_imp_mod_name_cstr m mod_nr;
  Ret s.
Definition skip_name (m : LX_module) (s : mem) (rlc : Z) : C mem :=
  mod_nr ← get_mod_ord1_rlc (fixup_section m) rlc;
  import_name_offs ← get_imp_ord1_rlc (fixup_section m) rlc;
  p ← get_imp_proc_name m import_name_offs;
  _ ← copy_pas_str (fixup_section m) p;
  _ ← get_imp_mod_name_cstr m mod_nr;
  Ret s.

Definition fixup_page (m : LX_module) (obj page_nr : Z) (s : mem) : C mem :=
  reserved ← o32_reserved m obj;
  vm_start_of_page ← page_address m obj reserved page_nr;
  page_records m (apply_internal_fixup m vm_start_of_page)
    apply_internal_entry_table_fixup (skip_ordinal m) (skip_name m) page_nr s.

Definition do_fixup_obj_lx (m : LX_module) (obj : Z) (s : mem) : C mem :=
  '(startpage, n) ← object_pages m obj;
  walk_pages (fixup_page m obj) n startpage s.

Fixpoint fixup_objects (n : nat) (i : Z) (m : LX_module) (s : mem) : C mem :=
  match n with
  | O => Ret s
  | S n => s ← do_fixup_obj_lx m (get_obj m i) s; fixup_objects n (i + 1) m s
  end.

Definition do_fixup_code_data_lx (m : LX_module) (s : mem) : C mem :=
  num ← get_obj_num m; fixup_objects (Z.to_nat num) 1 m s.

Definition LXFixup (m : LX_module) (s : mem) : C (Z * mem) :=
  s ← do_fixup_code_data_lx m s; Ret (NO_ERROR, s).

(** ** Loading the objects *)

(** [memcpy] into the memory. *)
Fixpoint st_bytes (s : mem) (a : Z) (l : list Z) : C mem :=
  match l with
  | [] => Ret s
  | c :: l' => s ← st8 s a c; st_bytes s (a + 1) l'
  end.

(** The loop of [load_obj_lx]; the file position of a page is its data offset
    shifted by the page shift, from the data pages. *)
Fixpoint load_pages (n : nat) (page_nr : Z) (m : LX_module) (vm_ptr_obj code_mmap_pos : Z)
    (s : mem) : C (LX_module * mem) :=
  match n with
  | O => Ret (m, s)
  | S n =>
      obj_pg_sta ← get_obj_map m page_nr;
      off ← o32_pagedataoffset m obj_pg_sta;
      shift ← get_e32_pageshift m;
      data_pages_offs ← get_e32_datapage m;
      _ ← require ((0 <=? shift) && (shift <? 32));
      let ofs_page_sta := s32 (Z.shiftl off shift + data_pages_offs) in
      let m := (lx_fseek_stream m ofs_page_sta SEEK_SET).2 in
      o32_pagesize ← o32_pagesize m obj_pg_sta;
      '(bytes, m) ← lx_fread_stream o32_pagesize 1 m;
      s ← st_bytes s (u32 (code_mmap_pos + vm_ptr_obj)) bytes;
      load_pages n (page_nr + 1) m vm_ptr_obj (u32 (code_mmap_pos + o32_pagesize)) s
  end.

Definition load_obj_lx (m : LX_module) (obj vm_ptr_obj : Z) (s : mem) : C (LX_module * mem) :=
  '(startpage, n) ← object_pages m obj;
  load_pages n startpage m vm_ptr_obj 0 s.

Section allocator.
(** [l4_alloc_mem area base size flags area_is_shared]: the memory with the
    new block and its address. *)
Variable l4_alloc_mem : mem -> Z -> Z -> bool -> mem * Z.

Definition MAP_FAILED : Z := 2 ^ 32 - 1.

Definition vm_alloc_obj_lx (malloc_ok : bool) (x : IXFModule) (obj : Z) (s : mem)
    : C (Z * IXFModule * mem) :=
  let m := FormatStruct x in
  code_obj ← get_code m;
  stack_obj ← get_data_stack m;
  base ← o32_base m obj;
  size ← o32_size m obj;
  let '(s, mmap_obj) := l4_alloc_mem s base size (PIC x) in
  x ← (if bool_decide (stack_obj = Some obj) then
         esp ← get_esp m;
         stacksize ← e32_stacksize m;
         let hi := u32 (base + esp) in
         Ret (set_stack x hi (u32 (hi - stacksize)) hi)
       else Ret x);
  x ← (if bool_decide (code_obj = Some obj) then
         eip ← get_eip m; Ret (set_entrypoint x (u32 (base + eip)))
       else Ret x);
  _ ← alloc malloc_ok;
  let addr := if PIC x then mmap_obj else base in
  let id := u16 (Z.of_nat (length (seclist x))) in
  Ret (mmap_obj, add_section x (mkSection addr size id), s).

(** One turn of the loop of [LXLoadObjects]; the flag tells whether the loop
    goes on. *)
Definition load_object (malloc_ok : bool) (x : IXFModule) (obj : Z) (root_area : registry)
    (s : mem) : C (bool * IXFModule * registry * mem) :=
  '(vm_code_obj, x, s) ← vm_alloc_obj_lx malloc_ok x obj s;
  m ← set_o32 20 (FormatStruct x) obj vm_code_obj;
  m ← (if PIC x then r ← o32_reserved m obj; set_o32 4 m obj r else Ret m);
  reserved ← o32_reserved m obj;
  size ← o32_size m obj;
  let root_area := (alloc_mem_area root_area reserved size malloc_ok).2 in
  if vm_code_obj =? MAP_FAILED then Ret (false, set_format x m, root_area, s)
  else
    '(m, s) ← load_obj_lx m obj vm_code_obj s;
    Ret (true, set_format x m, root_area, s).

Fixpoint load_objects (n : nat) (obj_cnt : Z) (malloc_ok : bool) (x : IXFModule)
    (root_area : registry) (s : mem) : C (Z * IXFModule * registry * mem) :=
  match n with
  | O => Ret (1, x, root_area, s)
  | S n =>
      '(go, x, root_area, s) ←
        load_object malloc_ok x (get_obj (FormatStruct x) obj_cnt) root_area s;
      if (go : bool) then load_objects n (obj_cnt + 1) malloc_ok x root_area s
      else Ret (0, x, root_area, s)
  end.

Definition LXLoadObjects (malloc_ok : bool) (x : IXFModule) (root_area : registry) (s : mem)
    : C (Z * IXFModule * registry * mem) :=
  number_of_objects ← get_obj_num (FormatStruct x);
  load_objects (Z.to_nat number_of_objects) 1 malloc_ok x root_area s.

Definition E32MODDLL : Z := 32768.
Definition E32MODMASK : Z := 229376.
Definition ISDLL (m : LX_module) : C bool :=
  flags ← get_mflags m; Ret (Z.land flags E32MODMASK =? E32MODDLL).

Fixpoint module_names (n : nat) (i : Z) (m : LX_module) : C (list (list Z)) :=
  match n with
  | O => Ret []
  | S n =>
      buf ← get_imp_mod_name_cstr m i;
      name ← pas_cstr buf;
      l ← module_names n (i + 1) m;
      Ret (name :: l)
  end.

Definition LXLoad (malloc_ok : bool) (addr : list Z) (x : IXFModule)
    (root_area : registry) (s : mem) : C (Z * IXFModule * registry * mem) :=
  _ ← alloc malloc_ok;
  r ← LXLoadStream malloc_ok addr (Z.of_nat (length addr));
  match r with
  | None => Ret (NO_ERROR, x, root_area, s)
  | Some m =>
      let x := set_format x m in
      cbModules ← e32_impmodcnt m;
      l ← module_names (Z.to_nat cbModules) 1 m;
      pic ← ISDLL m;
      let x := set_modules x l pic in
      '(_, x, root_area, s) ← LXLoadObjects malloc_ok x root_area s;
      dll ← ISDLL (FormatStruct x);
      '(rc, x) ← (if (dll : bool) then convert_entry_table_to_BFF malloc_ok x
                  else Ret (NO_ERROR, x));
      if negb (rc =? NO_ERROR) then Ret (rc, x, root_area, s)
      else
        '(_, x) ← convert_fixup_table_to_BFF malloc_ok x;
        code ← get_code (FormatStruct x);
        let x := match code with None => set_entrypoint x 0 | Some _ => x end in
        stack ← get_data_stack (FormatStruct x);
        let x := match stack with
                 | None => set_stack x 0 (stack_low x) (stack_high x)
                 | Some _ => x
                 end in
        Ret (NO_ERROR, x, root_area, s)
  end.
End allocator.

(** ** The entry table: format and proofs *)

(** A bundle of the table: unused ordinals, entries of an object (flags and
    offset), forwarders (flags, number of the module, value). *)
Inductive bundle :=
  | Unused (n : Z)
  | Bundle32 (obj : Z) (es : list (Z * Z))
  | Forwards (es : list (Z * Z * Z)).

Definition enc_entry32 (e : Z * Z) : list Z := u8 e.1 :: enc32 e.2.
Definition enc_forward (e : Z * Z * Z) : list Z := u8 e.1.1 :: enc16 e.1.2 ++ enc32 e.2.

Definition enc_bundle (d : bundle) : list Z :=
  match d with
  | Unused n => [n; EMPTY]
  | Bundle32 obj es =>
      Z.of_nat (length es) :: ENTRY32 :: enc16 obj ++ mjoin (enc_entry32 <$> es)
  | Forwards es =>
      Z.of_nat (length es) :: ENTRYFWD :: enc16 0 ++ mjoin (enc_forward <$> es)
  end.
Definition enc_bundles (ds : list bundle) : list Z := mjoin (enc_bundle <$> ds).

Definition bundle_count (d : bundle) : Z :=
  match d with
  | Unused n => n
  | Bundle32 _ es => Z.of_nat (length es)
  | Forwards es => Z.of_nat (length es)
  end.

Definition no_entry : IXFMODULEENTRY := mkEntry None 0 None 0.

(** The exported entries of a bundle. *)
Definition bundle_entries (base : Z -> Z) (modname : Z -> list Z) (d : bundle)
    : list IXFMODULEENTRY :=
  match d with
  | Unused n => replicate (Z.to_nat n) no_entry
  | Bundle32 obj es => (fun e => mkEntry None (u32 (e.2 + base obj)) None 0) <$> es
  | Forwards es => (fun e => mkEntry None 0 (Some (modname e.1.2)) (s32 e.2)) <$> es
  end.

(** The bundle is well-formed for the module: its object has a base address,
    its forwarders name imported modules. *)
Definition bundle_ok (m : LX_module) (base : Z -> Z) (modname : Z -> list Z) (d : bundle)
    : Prop :=
  1 <= bundle_count d < 256 /\
  match d with
  | Unused _ => True
  | Bundle32 obj _ => 0 <= obj < 65536 /\ o32_base m (get_obj m obj) = Ret (base obj)
  | Forwards es => Forall (fun e => 0 <= e.1.2 < 65536 /\ text (modname e.1.2) /\
                     get_imp_mod_name_cstr m e.1.2 = Ret (modname e.1.2)) es
  end.

Lemma mjoin_cons {A} (l : list A) ls : mjoin (l :: ls) = l ++ mjoin ls.
Proof. reflexivity. Qed.

Lemma enc_bundle_shape d : exists ty l, enc_bundle d = bundle_count d :: ty :: l.
Proof. destruct d; cbn; eauto. Qed.

Lemma join_len {A} (f : A -> list Z) k l : (forall x, length (f x) = k) ->
  length (mjoin (f <$> l)) = (length l * k)%nat.
Proof.
  intros H. induction l as [|x l IH]; [done|].
  rewrite fmap_cons, mjoin_cons, length_app, H, IH. cbn [length]. lia.
Qed.

(** The distance to the next bundle. *)
Lemma enc_bundle_len d : Z.of_nat (length (enc_bundle d)) =
  match d with
  | Unused _ => UNUSED_ENTRY_SIZE
  | Bundle32 _ _ => ENTRY_HEADER_SIZE + _32BIT_ENTRY_SIZE * bundle_count d
  | Forwards _ => ENTRY_HEADER_SIZE + FORWARD_ENTRY_SIZE * bundle_count d
  end.
Proof.
  unfold UNUSED_ENTRY_SIZE, ENTRY_HEADER_SIZE, _32BIT_ENTRY_SIZE, FORWARD_ENTRY_SIZE.
  destruct d as [n|obj es|es]; cbn [enc_bundle bundle_count enc16 app length]; [done| |].
  - rewrite (join_len enc_entry32 5) by done. lia.
  - rewrite (join_len enc_forward 7) by done. lia.
Qed.

Definition total (ds : list bundle) : Z :=
  Z.of_nat (sum_list_with (fun d => Z.to_nat (bundle_count d)) ds).

Lemma bundle_entries_len base modname d : 0 <= bundle_count d ->
  Z.of_nat (length (bundle_entries base modname d)) = bundle_count d.
Proof.
  destruct d; cbn [bundle_entries bundle_count]; intros H;
    rewrite ?length_replicate, ?length_fmap; lia.
Qed.

Lemma put_ok {A} cap (l : list A) x : Z.of_nat (length l) < cap -> put cap l x = Ret (l ++ [x]).
Proof. intros H. unfold put. destruct (Z.ltb_spec (Z.of_nat (length l)) cap); [done|lia]. Qed.

Lemma fill_empty_ok cap n : forall l, Z.of_nat (length l + n) <= cap ->
  fill_empty n cap l = Ret (l ++ replicate n no_entry).
Proof.
  induction n as [|n IH]; intros l H; cbn [fill_empty replicate]; [by rewrite app_nil_r|].
  rewrite put_ok by lia. cbn [mbind C_bind]. rewrite IH.
  - by rewrite <- app_assoc.
  - rewrite length_app. cbn [length]. lia.
Qed.

Section entries.
Variables (m : LX_module) (base : Z -> Z) (modname : Z -> list Z).
#[local] Abbreviation b := (loader_section m).

Lemma fill_entry32_ok cap obj es : o32_base m (get_obj m obj) = Ret (base obj) ->
  forall p l rest, bytes_at b p (mjoin (enc_entry32 <$> es) ++ rest) ->
  Z.of_nat (length l + length es) <= cap ->
  fill_entry32 (length es) m obj p cap l =
    Ret (l ++ bundle_entries base modname (Bundle32 obj es)).
Proof.
  intros Hb. induction es as [|[fl off] es IH]; intros p l rest H Hc;
    cbn [fill_entry32 length]; [by rewrite app_nil_r|].
  rewrite fmap_cons, mjoin_cons, <- app_assoc in H.
  pose proof (bytes_at_app _ _ _ _ H) as [_ H2].
  apply bytes_at_cons in H as [_ H]. cbn [fst snd] in H.
  rewrite (bytes_at_rd32 _ _ _ _ H), Hb. cbn [mbind C_bind length] in *.
  rewrite put_ok by lia. cbn [mbind C_bind].
  rewrite (IH _ _ rest); [|exact H2|rewrite length_app; cbn [length]; lia].
  rewrite <- app_assoc. unfold u32. by rewrite Zplus_mod_idemp_l.
Qed.

Lemma fill_forward_ok cap es :
  Forall (fun e => 0 <= e.1.2 < 65536 /\ text (modname e.1.2) /\
            get_imp_mod_name_cstr m e.1.2 = Ret (modname e.1.2)) es ->
  forall p l rest, bytes_at b p (mjoin (enc_forward <$> es) ++ rest) ->
  Z.of_nat (length l + length es) <= cap ->
  fill_forward (length es) m p cap l = Ret (l ++ bundle_entries base modname (Forwards es)).
Proof.
  induction 1 as [|[[fl mo] v] es (Hmo & Ht & Hn) _ IH]; intros p l rest H Hc;
    cbn [fill_forward length]; [by rewrite app_nil_r|]. cbn [fst snd] in *.
  rewrite fmap_cons, mjoin_cons, <- app_assoc in H.
  pose proof (bytes_at_app _ _ _ _ H) as [_ H2].
  assert (H' : bytes_at b (p + 1) (enc16 mo ++ enc32 v ++ mjoin (enc_forward <$> es) ++ rest))
    by (by apply bytes_at_cons in H as [_ H]).
  pose proof (bytes_at_app _ _ _ _ H') as [_ H3].
  change (Z.of_nat (length (enc16 mo))) with 2 in H3.
  replace (p + 1 + 2) with (p + 3) in H3 by lia.
  rewrite (bytes_at_rd32 _ _ _ _ H3). cbn [mbind C_bind].
  rewrite (bytes_at_rd16 _ _ _ _ H'). cbn [mbind C_bind].
  replace (u16 mo) with mo by (unfold u16; lia). rewrite Hn. cbn [mbind C_bind].
  unfold pas_cstr. rewrite cstr_text by done. cbn [mbind C_bind length] in *.
  rewrite put_ok by lia. cbn [mbind C_bind].
  rewrite (IH _ _ rest); [|exact H2|rewrite length_app; cbn [length]; lia].
  rewrite <- app_assoc. by rewrite s32_u32.
Qed.

(** Both passes over the bundles; [k] is what the pass does behind them. *)
Lemma count_entries_ok ds : forall fuel p c rest,
  bytes_at b p (enc_bundles ds ++ rest) -> Forall (bundle_ok m base modname) ds ->
  0 <= c -> c + total ds < 2 ^ 32 ->
  count_entries (length ds + fuel) b p c =
    count_entries fuel b (p + Z.of_nat (length (enc_bundles ds))) (c + total ds).
Proof.
  induction ds as [|d ds IH]; intros fuel p c rest H Hok Hc Ht.
  - cbn. by rewrite !Z.add_0_r.
  - inversion_clear Hok as [|? ? [Hn _] Hok']. unfold enc_bundles, total in *.
    rewrite fmap_cons, mjoin_cons in *. rewrite <- app_assoc in H.
    cbn [sum_list_with] in *. pose proof (bytes_at_app _ _ _ _ H) as [H1 H2].
    rewrite length_app, Nat2Z.inj_add, Z.add_assoc, Nat2Z.inj_add, Z2Nat.id, Z.add_assoc
      in * by lia.
    rewrite <- (IH fuel _ _ rest H2 Hok') by lia. rewrite enc_bundle_len.
    assert (Eu : u32 (c + bundle_count d) = c + bundle_count d)
      by (apply u32_id; unfold is_u32; lia).
    cbn [length Nat.add count_entries].
    destruct d as [n|obj es|es]; cbn [enc_bundle bundle_count] in *;
      apply bytes_at_cons in H1 as [-> [-> _]%bytes_at_cons]; cbn [mbind C_bind];
      (destruct (Z.eqb_spec n 0) || destruct (Z.eqb_spec (Z.of_nat (length es)) 0));
      try lia; cbn [entry_type_ok EMPTY ENTRY32 ENTRYFWD Z.eqb Pos.eqb orb negb];
      rewrite Eu; done || (f_equal; lia).
Qed.

Lemma fill_entries_ok cap ds : forall fuel p l rest,
  bytes_at b p (enc_bundles ds ++ rest) -> Forall (bundle_ok m base modname) ds ->
  Z.of_nat (length l) + total ds <= cap ->
  fill_entries (length ds + fuel) m p cap l =
    fill_entries fuel m (p + Z.of_nat (length (enc_bundles ds))) cap
      (l ++ mjoin (bundle_entries base modname <$> ds)).
Proof.
  induction ds as [|d ds IH]; intros fuel p l rest H Hok Hc.
  - cbn. by rewrite Z.add_0_r, app_nil_r.
  - inversion_clear Hok as [|? ? [Hn Hd] Hok']. unfold enc_bundles, total in *.
    rewrite !fmap_cons, !mjoin_cons in *. rewrite <- app_assoc in H.
    cbn [sum_list_with] in *. pose proof (bytes_at_app _ _ _ _ H) as [H1 H2].
    rewrite length_app, Nat2Z.inj_add, Z.add_assoc. rewrite Nat2Z.inj_add, Z2Nat.id in Hc by lia.
    pose proof (bundle_entries_len base modname d ltac:(lia)) as Hl.
    rewrite (app_assoc l).
    rewrite <- (IH fuel _ _ rest H2 Hok') by (rewrite length_app; lia).
    rewrite enc_bundle_len. cbn [length Nat.add fill_entries].
    destruct d as [n|obj es|es]; cbn [enc_bundle bundle_count] in *;
      apply bytes_at_cons in H1 as [-> [-> H1]%bytes_at_cons]; cbn [mbind C_bind];
      (destruct (Z.eqb_spec n 0) || destruct (Z.eqb_spec (Z.of_nat (length es)) 0));
      try lia; cbn [entry_type_ok EMPTY ENTRY32 ENTRYFWD Z.eqb Pos.eqb orb negb].
    + by rewrite fill_empty_ok by lia.
    + replace (p + 1 + 1) with (p + 2) in H1 by lia. destruct Hd as [Ho Hb].
      rewrite (bytes_at_rd16 _ _ _ _ H1). cbn [mbind C_bind].
      replace (u16 obj) with obj by (unfold u16; lia).
      apply bytes_at_app in H1 as [_ H1]. change (Z.of_nat (length (enc16 obj))) with 2 in H1.
      replace (p + 2 + 2) with (p + ENTRY_HEADER_SIZE) in H1 by (unfold ENTRY_HEADER_SIZE; lia).
      rewrite <- (app_nil_r (mjoin _)) in H1. rewrite Nat2Z.id.
      rewrite (fill_entry32_ok cap obj es Hb _ _ _ H1) by lia. cbn [mbind C_bind].
      f_equal. lia.
    + apply (bytes_at_app _ _ (enc16 0)) in H1 as [_ H1].
      change (Z.of_nat (length (enc16 0))) with 2 in H1.
      replace (p + 1 + 1 + 2) with (p + ENTRY_HEADER_SIZE) in H1 by (unfold ENTRY_HEADER_SIZE; lia).
      rewrite <- (app_nil_r (mjoin _)) in H1. rewrite Nat2Z.id.
      rewrite (fill_forward_ok cap es Hd _ _ _ H1) by lia. cbn [mbind C_bind].
      f_equal. lia.
Qed.
End entries.

(** A bundle is at least two bytes: the fuel covers the table. *)
Lemma bundles_len ds : (2 * length ds <= length (enc_bundles ds))%nat.
Proof.
  induction ds as [|d ds IH]; [done|]. unfold enc_bundles in *.
  rewrite fmap_cons, mjoin_cons, length_app.
  destruct (enc_bundle_shape d) as (ty & l & ->). cbn [length]. lia.
Qed.

(** The entry table of a library becomes the list of its exported entries
    in the order of their ordinals: unused ordinals give empty entries, entries
    of an object its base address plus their offset, forwarders the name of
    the module and the value; both passes agree on the number of entries, so
    that the table is filled exactly. *)
Theorem entry_table_spec x base modname ds enttab objtab :
  let m := FormatStruct x in
  e32_enttab m = Ret enttab -> e32_objtab m = Ret objtab -> 0 <= enttab - objtab < 2 ^ 31 ->
  bytes_at (loader_section m) (enttab - objtab) (enc_bundles ds ++ [0]) ->
  Forall (bundle_ok m base modname) ds -> total ds < 2 ^ 32 ->
  convert_entry_table_to_BFF true x =
    Ret (NO_ERROR, set_entries x (mjoin (bundle_entries base modname <$> ds))).
Proof.
  intros m E1 E2 Hr H Hok Ht. unfold convert_entry_table_to_BFF. fold m.
  rewrite E1, E2. cbn [mbind C_bind]. rewrite s32_small by lia.
  pose proof (bytes_at_range _ _ _ H) as [_ Hrng]. rewrite length_app in Hrng.
  pose proof (bundles_len ds).
  replace (S (length (loader_section m)))
    with (length ds + S (length (loader_section m) - length ds))%nat by lia.
  rewrite (count_entries_ok m base modname ds _ _ 0 _ H) by (done || lia).
  pose proof (bytes_at_app _ _ _ _ H) as [_ Hz]. apply bytes_at_cons in Hz as [Hz _].
  cbn [count_entries]. rewrite Hz. cbn [mbind C_bind]. change (0 =? 0) with true. cbv iota.
  cbn [alloc require mbind C_bind].
  rewrite (fill_entries_ok m base modname _ ds _ _ [] _ H) by (done || cbn [length]; lia).
  cbn [fill_entries]. rewrite Hz. done.
Qed.

(** A bundle of another type (16-bit entries, call gates) makes the
    conversion fail with error 1, and the module has no entries. *)
Theorem entry_table_unsupported x base modname ds enttab objtab n ty rest :
  let m := FormatStruct x in
  e32_enttab m = Ret enttab -> e32_objtab m = Ret objtab -> 0 <= enttab - objtab < 2 ^ 31 ->
  bytes_at (loader_section m) (enttab - objtab) (enc_bundles ds ++ n :: ty :: rest) ->
  n <> 0 -> entry_type_ok ty = false ->
  Forall (bundle_ok m base modname) ds -> total ds < 2 ^ 32 ->
  convert_entry_table_to_BFF true x = Ret (1, x).
Proof.
  intros m E1 E2 Hr H Hn Hty Hok Ht. unfold convert_entry_table_to_BFF. fold m.
  rewrite E1, E2. cbn [mbind C_bind]. rewrite s32_small by lia.
  pose proof (bytes_at_range _ _ _ H) as [_ Hrng]. rewrite length_app in Hrng.
  pose proof (bundles_len ds).
  replace (S (length (loader_section m)))
    with (length ds + S (length (loader_section m) - length ds))%nat by lia.
  rewrite (count_entries_ok m base modname ds _ _ 0 _ H) by (done || lia).
  pose proof (bytes_at_app _ _ _ _ H) as [_ Hz].
  apply bytes_at_cons in Hz as [Hz [Hy _]%bytes_at_cons].
  cbn [count_entries]. rewrite Hz. cbn [mbind C_bind].
  destruct (Z.eqb_spec n 0); [done|]. rewrite Hy. cbn [mbind C_bind]. by rewrite Hty.
Qed.

(** ** Fixups: format and proofs

    The fixups of an object are the records of its pages; the fixup page table
    says where the records of a page begin and end. *)
Definition enc_fixups (fs : list fixup) : list Z := mjoin (encode <$> fs).

Fixpoint pages_at (m : LX_module) (page_nr : Z) (pages : list (list fixup)) : Prop :=
  match pages with
  | [] => True
  | fs :: pages =>
      (exists offs q, get_fixup_pg_tbl_offs m page_nr = Ret offs /\
         get_fixup_pg_tbl_offs m (page_nr + 1) =
           Ret (offs + Z.of_nat (length (enc_fixups fs))) /\
         get_fixup_rec_tbl_obj m offs = Ret q /\
         bytes_at (fixup_section m) q (enc_fixups fs)) /\
      Forall supported fs /\ pages_at m (page_nr + 1) pages
  end.

(** What a run does for the records of a page, one after the other. *)
Fixpoint walk_fixups {S} (step : S -> fixup -> Z -> C S) (fs : list fixup) (q : Z) (s : S)
    : C S :=
  match fs with
  | [] => Ret s
  | f :: fs => s ← step s f q; walk_fixups step fs (q + Z.of_nat (length (encode f))) s
  end.

Definition dispatch {S} (h0 h1 h2 h3 : S -> Z -> C S) (s : S) (f : fixup) (q : Z) : C S :=
  match fx_target f with
  | Internal _ _ => h0 s q
  | Entry _ => h1 s q
  | ByOrdinal _ _ => h2 s q
  | ByName _ _ => h3 s q
  end.

Lemma encode_pos f : (2 <= length (encode f))%nat.
Proof. unfold encode. cbn [length app]. lia. Qed.

Lemma rec_tbl_add m offs q n : get_fixup_rec_tbl_obj m offs = Ret q ->
  get_fixup_rec_tbl_obj m (offs + n) = Ret (q + n).
Proof. unfold get_fixup_rec_tbl_obj. intros H. cinv. cbn [mbind C_bind].
  f_equal. lia.
Qed.

Section walking.
Context {S : Type}.
Variables (m : LX_module) (h0 h1 h2 h3 : S -> Z -> C S).

Lemma walk_page_encoded fs : forall fuel offs q s,
  get_fixup_rec_tbl_obj m offs = Ret q ->
  bytes_at (fixup_section m) q (enc_fixups fs) -> Forall supported fs ->
  (length fs < fuel)%nat ->
  walk_page m h0 h1 h2 h3 fuel offs (offs + Z.of_nat (length (enc_fixups fs))) s =
    walk_fixups (dispatch h0 h1 h2 h3) fs q s.
Proof.
  induction fs as [|f fs IH]; intros fuel offs q s Hq H Hs Hf;
    (destruct fuel as [|fuel]; [cbn in Hf; lia|]); cbn [walk_page walk_fixups].
  - change (Z.of_nat (length (enc_fixups []))) with 0.
    destruct (Z.ltb_spec offs (offs + 0)); [lia|done].
  - inversion_clear Hs as [|? ? Hsf Hs'].
    change (enc_fixups (f :: fs)) with (encode f ++ enc_fixups fs) in *.
    pose proof (encode_pos f). rewrite length_app.
    rewrite (proj2 (Z.ltb_lt _ _)) by lia.
    apply bytes_at_app in H as [H1 H2]. rewrite Hq. cbn [mbind C_bind].
    rewrite (at_stype _ _ _ H1), (at_flags _ _ _ H1). cbn [mbind C_bind].
    rewrite type_flag, (reloc_size_encode_in _ _ _ H1 Hsf).
    replace (if target_type (fx_target f) =? NRRINT then h0 s q
             else if target_type (fx_target f) =? NRRENT then h1 s q
             else if target_type (fx_target f) =? NRRORD then h2 s q else h3 s q)
      with (dispatch h0 h1 h2 h3 s f q) by (unfold dispatch; by destruct (fx_target f)).
    destruct (dispatch h0 h1 h2 h3 s f q) as [s'| | |]; try done. cbn [mbind C_bind].
    rewrite Nat2Z.inj_add, Z.add_assoc. apply IH; [by apply rec_tbl_add|done|done|].
    cbn in Hf. lia.
Qed.
End walking.

Lemma fixups_len fs : (length fs <= length (enc_fixups fs))%nat.
Proof.
  induction fs as [|f fs IH]; [done|].
  change (enc_fixups (f :: fs)) with (encode f ++ enc_fixups fs). rewrite length_app.
  pose proof (encode_pos f). cbn [length]. lia.
Qed.

Lemma page_records_encoded {S} m (h0 h1 h2 h3 : S -> Z -> C S) page_nr fs pages s :
  pages_at m page_nr (fs :: pages) ->
  exists q, bytes_at (fixup_section m) q (enc_fixups fs) /\
    page_records m h0 h1 h2 h3 page_nr s = walk_fixups (dispatch h0 h1 h2 h3) fs q s.
Proof.
  intros [(offs & q & E1 & E2 & Hq & H) [Hs _]]. exists q. split; [done|].
  unfold page_records. rewrite E1, E2. cbn [mbind C_bind].
  apply walk_page_encoded; [done|done|done|]. pose proof (fixups_len fs). lia.
Qed.

(** A walk whose step has a known result for every record. *)
Lemma walk_fixups_fold {S} (step : S -> fixup -> Z -> C S) (g : S -> fixup -> S)
    (ok : S -> list fixup -> Prop) b :
  (forall s f fs q, ok s (f :: fs) -> bytes_at b q (encode f) -> supported f ->
     step s f q = Ret (g s f) /\ ok (g s f) fs) ->
  forall fs q s, bytes_at b q (enc_fixups fs) -> Forall supported fs -> ok s fs ->
  walk_fixups step fs q s = Ret (fold_left g fs s).
Proof.
  intros Hstep. induction fs as [|f fs IH]; intros q s H Hs Hok; [done|].
  inversion_clear Hs as [|? ? Hsf Hs'].
  change (enc_fixups (f :: fs)) with (encode f ++ enc_fixups fs) in H.
  apply bytes_at_app in H as [H1 H2]. cbn [walk_fixups fold_left].
  destruct (Hstep s f fs q Hok H1 Hsf) as [-> Hok']. cbn [mbind C_bind]. by apply IH.
Qed.

(** *** Imports *)

Definition imported (f : fixup) : bool :=
  match fx_target f with ByOrdinal _ _ | ByName _ _ => true | _ => false end.
Definition imports (fs : list fixup) : nat := length (filter (fun f => imported f = true) fs).

(** The offset in the page that is used for a record: for a source list the
    number of its elements. *)
Definition source_value (f : fixup) : Z :=
  match fx_source f with
  | Single off => s16 off
  | SrcList offs => Z.of_nat (length offs)
  end.

Lemma imports_cons f fs : imports (f :: fs) = ((if imported f then 1 else 0) + imports fs)%nat.
Proof.
  unfold imports. rewrite filter_cons.
  destruct (decide (imported f = true)) as [E|E]; [by rewrite E|].
  by destruct (imported f).
Qed.

Lemma count_page m fs q s :
  bytes_at (fixup_section m) q (enc_fixups fs) -> Forall supported fs ->
  0 <= s -> s + Z.of_nat (imports fs) < 2 ^ 32 ->
  walk_fixups (dispatch (fun s _ => Ret s) (fun s _ => Ret s)
    (fun s _ => Ret (u32 (s + 1))) (fun s _ => Ret (u32 (s + 1)))) fs q s =
    Ret (s + Z.of_nat (imports fs)).
Proof.
  revert q s. induction fs as [|f fs IH]; intros q s H Hs H0 Hc.
  - cbn. by rewrite Z.add_0_r.
  - inversion_clear Hs as [|? ? _ Hs'].
    change (enc_fixups (f :: fs)) with (encode f ++ enc_fixups fs) in H.
    apply bytes_at_app in H as [_ H]. rewrite imports_cons in *.
    assert (dispatch (fun s _ => Ret s) (fun s _ => Ret s)
      (fun s _ => Ret (u32 (s + 1))) (fun s _ => Ret (u32 (s + 1))) s f q =
      Ret (s + if imported f then 1 else 0)) as E.
    { unfold dispatch, imported in *. destruct (fx_target f); f_equal;
        rewrite ?u32_id by (unfold is_u32; lia); lia. }
    cbn [walk_fixups]. rewrite E. cbn [mbind C_bind].
    rewrite IH; [f_equal| | | |]; try done; destruct (imported f); lia.
Qed.

(** The names the import tables give. *)
Section imports.
Variables (m : LX_module) (modname procname : Z -> list Z).

Definition names_ok (f : fixup) : Prop :=
  match fx_target f with
  | ByOrdinal _ _ =>
      get_imp_mod_name_cstr m (fx_num f) = Ret (modname (fx_num f)) /\
      text (modname (fx_num f))
  | ByName _ v =>
      get_imp_mod_name_cstr m (fx_num f) = Ret (modname (fx_num f)) /\
      text (modname (fx_num f)) /\
      (exists p, get_imp_proc_name m (width_val (fx_width f) v) = Ret p /\
         copy_pas_str (fixup_section m) p = Ret (procname (width_val (fx_width f) v))) /\
      text (procname (width_val (fx_width f) v))
  | _ => True
  end.

Definition import_entry (f : fixup) : IXFMODULEENTRY :=
  match fx_target f with
  | ByName _ v => mkEntry (Some (procname (width_val (fx_width f) v))) 0
                    (Some (modname (fx_num f))) 0
  | ByOrdinal _ v => mkEntry None 0 (Some (modname (fx_num f))) (width_val (fx_width f) v)
  | _ => no_entry
  end.

(** The entries of a page at [vm] in the server, [at] in the program. *)
Definition add_import (vm addr : Z) (l : list IXFFIXUPENTRY) (f : fixup) : list IXFFIXUPENTRY :=
  if imported f then
    l ++ [mkFixupEntry (u32 (addr + source_value f)) (u32 (vm + source_value f)) (import_entry f)]
  else l.

Definition page_imports (vm addr : Z) (fs : list fixup) (l : list IXFFIXUPENTRY) :=
  fold_left (add_import vm addr) fs l.

Lemma import_step cap vm addr l f q :
  bytes_at (fixup_section m) q (encode f) -> supported f -> names_ok f ->
  Z.of_nat (length l + if imported f then 1 else 0) <= cap ->
  dispatch (fun l _ => Ret l) (fun l _ => Ret l) (import_ordinal m cap vm addr)
    (import_name m cap vm addr) l f q = Ret (add_import vm addr l f).
Proof.
  intros H Hs Hn Hc.
  unfold dispatch, add_import, imported, import_entry, names_ok, import_ordinal, import_name
    in *.
  destruct (fx_target f) as [| md v | md v |] eqn:T; try done; cbv beta iota zeta in *;
    rewrite (read_mod _ _ _ H Hs); cbn [mbind C_bind];
    rewrite (read_ord _ _ _ H Hs v) by (rewrite T; eauto); cbn [mbind C_bind];
    rewrite (read_source _ _ _ H Hs); cbn [mbind C_bind]; fold (source_value f).
  - destruct Hn as [-> Ht]. cbn [mbind C_bind]. unfold pas_cstr.
    rewrite cstr_text by done. cbn [mbind C_bind]. by rewrite put_ok by lia.
  - destruct Hn as (-> & Ht & (p & -> & Hp) & Htp). cbn [mbind C_bind].
    rewrite Hp. cbn [mbind C_bind]. unfold pas_cstr.
    rewrite !cstr_text by done. cbn [mbind C_bind]. by rewrite put_ok by lia.
Qed.

Lemma add_import_len vm addr l f :
  length (add_import vm addr l f) = (length l + if imported f then 1 else 0)%nat.
Proof. unfold add_import. destruct (imported f); rewrite ?length_app; cbn [length]; lia. Qed.

Lemma page_imports_len vm addr fs : forall l,
  length (page_imports vm addr fs l) = (length l + imports fs)%nat.
Proof.
  unfold page_imports. induction fs as [|f fs IH]; intros l; [cbn; lia|].
  cbn [fold_left]. rewrite IH, add_import_len, imports_cons. lia.
Qed.

Lemma import_page cap vm addr fs q l :
  bytes_at (fixup_section m) q (enc_fixups fs) -> Forall supported fs ->
  Forall names_ok fs -> Z.of_nat (length l + imports fs) <= cap ->
  walk_fixups (dispatch (fun l _ => Ret l) (fun l _ => Ret l) (import_ordinal m cap vm addr)
    (import_name m cap vm addr)) fs q l = Ret (page_imports vm addr fs l).
Proof.
  intros H Hs Hn Hc.
  apply (walk_fixups_fold _ _ (fun l fs => Forall names_ok fs /\
    Z.of_nat (length l + imports fs) <= cap) (fixup_section m)); [|done|done|done].
  clear. intros l f fs q [Hn Hc] H Hs.
  inversion_clear Hn. rewrite imports_cons in Hc.
  split; [apply import_step; (done || lia)|]. split; [done|]. rewrite add_import_len. lia.
Qed.
End imports.

(** *** Objects *)

(** An object as the loader sees it: its address in the program, its address
    in the server, the fixups of its pages. *)
Record object := mkObject {
  ob_base : Z;
  ob_reserved : Z;
  ob_pages : list (list fixup)
}.

Definition object_at (m : LX_module) (p : Z) (o : object) : Prop :=
  o32_base m p = Ret (ob_base o) /\ o32_reserved m p = Ret (ob_reserved o) /\
  exists start, o32_pagemap m p = Ret start /\
    o32_mapsize m p = Ret (Z.of_nat (length (ob_pages o))) /\
    0 <= start /\ start + Z.of_nat (length (ob_pages o)) < 2 ^ 31 /\
    pages_at m start (ob_pages o).

Fixpoint objects_at (m : LX_module) (i : Z) (os : list object) : Prop :=
  match os with
  | [] => True
  | o :: os => object_at m (get_obj m i) o /\ objects_at m (i + 1) os
  end.

Definition all_fixups (os : list object) : list fixup := mjoin (mjoin ∘ ob_pages <$> os).

Lemma object_pages_at m p o : object_at m p o ->
  exists start, o32_pagemap m p = Ret start /\
    object_pages m p = Ret (start, length (ob_pages o)) /\ pages_at m start (ob_pages o).
Proof.
  intros (_ & _ & start & E1 & E2 & H0 & Hlt & H). exists start. split; [done|].
  unfold object_pages. rewrite E1, E2. cbn [mbind C_bind].
  rewrite !s32_small by lia. split; [|done]. do 2 f_equal. lia.
Qed.

Lemma page_address_at m obj start base pagesize (i : nat) :
  o32_pagemap m obj = Ret start -> get_e32_pagesize m = Ret pagesize ->
  page_address m obj base (start + Z.of_nat i) = Ret (u32 (base + pagesize * Z.of_nat i)).
Proof.
  intros E1 E2. unfold page_address. rewrite E1, E2. cbn [mbind C_bind]. do 3 f_equal. lia.
Qed.

Lemma imports_app l1 l2 : imports (l1 ++ l2) = (imports l1 + imports l2)%nat.
Proof. unfold imports. by rewrite filter_app, length_app. Qed.

Lemma count_pages m pages : forall page_nr s,
  pages_at m page_nr pages -> 0 <= s -> s + Z.of_nat (imports (mjoin pages)) < 2 ^ 32 ->
  walk_pages (page_records m (fun s _ => Ret s) (fun s _ => Ret s)
    (fun s _ => Ret (u32 (s + 1))) (fun s _ => Ret (u32 (s + 1)))) (length pages) page_nr s =
    Ret (s + Z.of_nat (imports (mjoin pages))).
Proof.
  induction pages as [|fs pages IH]; intros page_nr s H H0 Hc.
  - cbn. by rewrite Z.add_0_r.
  - rewrite mjoin_cons, imports_app in *. cbn [length walk_pages].
    destruct (page_records_encoded m (fun s _ => Ret s) (fun s _ => Ret s)
      (fun s _ => Ret (u32 (s + 1))) (fun s _ => Ret (u32 (s + 1))) page_nr fs pages s H)
      as (q & Hq & ->).
    destruct H as (_ & Hs & H).
    rewrite (count_page m) by (done || lia). cbn [mbind C_bind].
    rewrite IH by (done || lia). f_equal. lia.
Qed.

Lemma calc_object m p o : object_at m p o ->
  Z.of_nat (imports (mjoin (ob_pages o))) < 2 ^ 32 ->
  calc_imp_fixup_obj_lx m p = Ret (Z.of_nat (imports (mjoin (ob_pages o)))).
Proof.
  intros H Hc. unfold calc_imp_fixup_obj_lx.
  destruct (object_pages_at _ _ _ H) as (start & _ & -> & Hp). cbn [mbind C_bind].
  by rewrite count_pages.
Qed.

Lemma calc_all m os : forall i c, objects_at m i os -> 0 <= c ->
  c + Z.of_nat (imports (all_fixups os)) < 2 ^ 32 ->
  calc_objects (length os) i m c = Ret (c + Z.of_nat (imports (all_fixups os))).
Proof.
  unfold all_fixups. induction os as [|o os IH]; intros i c H H0 Hc.
  - cbn. by rewrite Z.add_0_r.
  - rewrite fmap_cons, mjoin_cons, imports_app in *. unfold compose in Hc at 1.
    unfold compose at 1.
    destruct H as [Ho H]. cbn [length calc_objects].
    rewrite (calc_object _ _ _ Ho) by lia. cbn [mbind C_bind].
    rewrite u32_id by (unfold is_u32; lia). rewrite IH by (done || lia). f_equal. lia.
Qed.

Section object.
Variables (m : LX_module) (pagesize : Z).
Hypothesis Hps : get_e32_pagesize m = Ret pagesize.

Variables modname procname : Z -> list Z.

(** The import entries of the pages from number [i]. *)
Fixpoint pages_imports (o : object) (i : nat) (pages : list (list fixup))
    (l : list IXFFIXUPENTRY) : list IXFFIXUPENTRY :=
  match pages with
  | [] => l
  | fs :: pages =>
      pages_imports o (S i) pages
        (page_imports modname procname (ob_reserved o + pagesize * Z.of_nat i)
           (ob_base o + pagesize * Z.of_nat i) fs l)
  end.

Lemma page_imports_mod vm addr fs : forall l,
  page_imports modname procname (u32 vm) (u32 addr) fs l =
    page_imports modname procname vm addr fs l.
Proof.
  unfold page_imports. induction fs as [|f fs IH]; intros l; [done|]. cbn [fold_left].
  rewrite IH. f_equal. unfold add_import, u32. by rewrite !Zplus_mod_idemp_l.
Qed.

Lemma convert_page_at p o cap start fs pages i l :
  object_at m p o -> o32_pagemap m p = Ret start ->
  pages_at m (start + Z.of_nat i) (fs :: pages) -> Forall (names_ok m modname procname) fs ->
  Z.of_nat (length l + imports fs) <= cap ->
  convert_page m p cap (start + Z.of_nat i) l =
    Ret (page_imports modname procname (ob_reserved o + pagesize * Z.of_nat i)
           (ob_base o + pagesize * Z.of_nat i) fs l).
Proof.
  intros (Hb & Hr & _) Hst H Hn Hc. unfold convert_page.
  rewrite Hb, Hr. cbn [mbind C_bind].
  rewrite !(page_address_at _ _ _ _ _ _ Hst Hps). cbn [mbind C_bind].
  match goal with |- page_records m ?a ?b ?c ?d _ _ = _ =>
    destruct (page_records_encoded m a b c d _ fs pages l H) as (q & Hq & ->) end.
  destruct H as (_ & Hs & H).
  rewrite (import_page m modname procname) by (done || lia). by rewrite page_imports_mod.
Qed.

Lemma convert_pages p o cap start pages : forall i l,
  object_at m p o -> o32_pagemap m p = Ret start ->
  pages_at m (start + Z.of_nat i) pages ->
  Forall (names_ok m modname procname) (mjoin pages) ->
  Z.of_nat (length l + imports (mjoin pages)) <= cap ->
  walk_pages (convert_page m p cap) (length pages) (start + Z.of_nat i) l =
    Ret (pages_imports o i pages l).
Proof.
  intros i l Hat Hst. revert i l. 
  induction pages as [|fs pages IH]; intros i l H Hn Hc; [done|].
  rewrite mjoin_cons, imports_app in *. apply Forall_app in Hn as [Hn1 Hn2].
  cbn [length walk_pages pages_imports].
  rewrite (convert_page_at p o cap start fs pages i l) by (done || lia). cbn [mbind C_bind].
  destruct H as (_ & _ & H).
  replace (start + Z.of_nat i + 1) with (start + Z.of_nat (S i)) in * by lia.
  apply IH; [done|done|]. rewrite page_imports_len. lia.
Qed.

Lemma pages_imports_len o pages : forall i l,
  length (pages_imports o i pages l) = (length l + imports (mjoin pages))%nat.
Proof.
  induction pages as [|fs pages IH]; intros i l; [cbn; lia|].
  cbn [pages_imports]. rewrite IH, page_imports_len, mjoin_cons, imports_app. lia.
Qed.

Lemma convert_object p o cap l : object_at m p o ->
  Forall (names_ok m modname procname) (mjoin (ob_pages o)) ->
  Z.of_nat (length l + imports (mjoin (ob_pages o))) <= cap ->
  convert_imp_fixup_obj_lx m p cap l = Ret (pages_imports o 0 (ob_pages o) l).
Proof.
  intros H Hn Hc. unfold convert_imp_fixup_obj_lx.
  destruct (object_pages_at _ _ _ H) as (start & Hst & -> & Hp). cbn [mbind C_bind].
  pose proof (convert_pages p o cap start (ob_pages o) 0 l H Hst) as G.
  rewrite Z.add_0_r in G. by apply G.
Qed.

Definition module_imports (os : list object) (l : list IXFFIXUPENTRY) : list IXFFIXUPENTRY :=
  fold_left (fun l o => pages_imports o 0 (ob_pages o) l) os l.

Lemma convert_all cap os : forall i l, objects_at m i os ->
  Forall (names_ok m modname procname) (all_fixups os) ->
  Z.of_nat (length l + imports (all_fixups os)) <= cap ->
  convert_objects (length os) i m cap l = Ret (module_imports os l).
Proof.
  unfold all_fixups. induction os as [|o os IH]; intros i l H Hn Hc; [done|].
  rewrite fmap_cons, mjoin_cons, ?imports_app in *. unfold compose in Hc at 1.
  apply Forall_app in Hn as [Hn1 Hn2]. unfold compose in Hn1.
  destruct H as [Ho H]. cbn [length convert_objects module_imports fold_left].
  rewrite (convert_object _ _ _ _ Ho) by (done || lia). cbn [mbind C_bind].
  apply IH; [done|done|]. rewrite pages_imports_len. lia.
Qed.
End object.

(** The table of imported fixups holds one entry for each fixup record by
    ordinal or by name, in the order of objects, pages and records: where the
    address goes, in the server and in the program, and which function of
    which module it is.  The counting pass and the filling pass agree.  A
    record with a source list gives one entry as well, at the offset that is
    the number of its sources. *)
Theorem imports_spec x modname procname pagesize os :
  let m := FormatStruct x in
  get_e32_pagesize m = Ret pagesize ->
  get_obj_num m = Ret (Z.of_nat (length os)) -> objects_at m 1 os ->
  Forall (names_ok m modname procname) (all_fixups os) ->
  Z.of_nat (imports (all_fixups os)) < 2 ^ 32 ->
  convert_fixup_table_to_BFF true x =
    Ret (NO_ERROR, set_fixups x (module_imports pagesize modname procname os [])).
Proof.
  intros m Hps Hnum H Hn Hc. unfold convert_fixup_table_to_BFF. fold m.
  rewrite Hnum. cbn [mbind C_bind]. rewrite Nat2Z.id.
  rewrite (calc_all m os 1 0 H) by lia. cbn [mbind C_bind].
  pose proof (convert_all m pagesize Hps modname procname
    (Z.of_nat (imports (all_fixups os))) os 1 [] H Hn ltac:(cbn [length]; lia)) as E.
  rewrite Z.add_0_l. destruct (Z.eqb_spec (Z.of_nat (imports (all_fixups os))) 0) as [Z0|_].
  - assert (L : forall os l, length (module_imports pagesize modname procname os l) =
      (length l + imports (all_fixups os))%nat).
    { clear. unfold module_imports, all_fixups. induction os as [|o os IH]; intros l;
        [cbn; lia|]. cbn [fold_left]. rewrite IH, pages_imports_len, fmap_cons, mjoin_cons,
        imports_app. unfold compose at 2. lia. }
    specialize (L os []). destruct (module_imports _ _ _ os []); [done|].
    cbn [length] in L. lia.
  - cbn [alloc require mbind C_bind]. by rewrite E.
Qed.

(** *** Internal fixups *)

(** The words stored, in order. *)
Fixpoint apply_patches (l : list (Z * Z)) (s : mem) : C mem :=
  match l with [] => Ret s | (a, v) :: l => s ← st32 s a v; apply_patches l s end.

Lemma apply_patches_app l1 l2 : forall s,
  apply_patches (l1 ++ l2) s = s ← apply_patches l1 s; apply_patches l2 s.
Proof.
  induction l1 as [|[a v] l1 IH]; intros s; [done|]. cbn [app apply_patches].
  destruct (st32 s a v); try done. cbn [mbind C_bind]. apply IH.
Qed.

Definition word_apart (p q : Z * Z) : Prop := p.1 + 4 <= q.1 \/ q.1 + 4 <= p.1.

(** Patches of different words: each word holds its target afterwards, and
    nothing else has changed. *)
Lemma apply_patches_spec l : forall s,
  Forall (fun p => allocated s p.1 4) l -> ForallOrdPairs word_apart l ->
  exists s', apply_patches l s = Ret s' /\
    Forall (fun p => ld32 s' p.1 = Ret (u32 p.2)) l /\
    (forall a, (forall p, p ∈ l -> a + 4 <= p.1 \/ p.1 + 4 <= a) -> ld32 s' a = ld32 s a) /\
    (forall a n, allocated s a n -> allocated s' a n).
Proof.
  induction l as [|[a v] l IH]; intros s Hal Hap.
  { exists s. by split_and!. }
  inversion_clear Hal as [|? ? Ha Hal']. inversion_clear Hap as [|? ? Hp Hap'].
  cbn [fst] in Ha. destruct (st32_total s a v Ha) as [s1 E].
  pose proof (st32_upd _ _ _ _ E) as U.
  destruct (IH s1) as (s' & E' & Hl & Hother & Hkeep); [|done|].
  { eapply Forall_impl; [exact Hal'|]. intros p H. by eapply upd_in_allocated. }
  exists s'. cbn [apply_patches]. rewrite E. split; [exact E'|]. split_and!.
  - apply Forall_cons. split; [|done]. cbn [fst snd]. rewrite Hother.
    + by apply (ld32_st32 s).
    + intros p Hin. rewrite Forall_forall in Hp. specialize (Hp p Hin).
      unfold word_apart in Hp. cbn [fst] in Hp. lia.
  - intros b Hb. rewrite Hother; [|intros p Hin; apply Hb; by right].
    apply (upd_in_ld32 a 4); [done|]. specialize (Hb (a, v) ltac:(by left)).
    cbn [fst] in Hb. lia.
  - intros b n H. apply Hkeep. by eapply upd_in_allocated.
Qed.

Section internal.
Variables (m : LX_module) (pagesize : Z).
Variables (modname procname : Z -> list Z) (os : list object).

(** The address in the server of object [n], counted from 1. *)
Definition reserved_of (n : Z) : Z :=
  match os !! Z.to_nat (n - 1) with Some o => ob_reserved o | None => 0 end.

Definition internal_ok (f : fixup) : Prop :=
  match fx_target f with
  | Internal _ _ => 1 <= fx_num f <= Z.of_nat (length os)
  | _ => names_ok m modname procname f
  end.

(** The word a record patches and its value, for a page at [vm]. *)
Definition fixup_patch (vm : Z) (f : fixup) : list (Z * Z) :=
  match fx_target f with
  | Internal _ (Some off) =>
      [(u32 (vm + source_value f), u32 (reserved_of (fx_num f) + width_val (fx_width f) off))]
  | _ => []
  end.

Fixpoint page_patches (o : object) (i : nat) (pages : list (list fixup)) : list (Z * Z) :=
  match pages with
  | [] => []
  | fs :: pages =>
      mjoin (fixup_patch (ob_reserved o + pagesize * Z.of_nat i) <$> fs) ++
      page_patches o (S i) pages
  end.

Definition module_patches : list (Z * Z) :=
  mjoin ((fun o => page_patches o 0 (ob_pages o)) <$> os).

Lemma objects_at_lookup l : forall i k o, objects_at m i l -> l !! k = Some o ->
  object_at m (get_obj m (i + Z.of_nat k)) o.
Proof.
  induction l as [|o' l IH]; intros i k o H Hk; [done|]. destruct H as [Ho H].
  destruct k as [|k].
  - injection Hk as <-. by rewrite Z.add_0_r.
  - replace (i + Z.of_nat (S k)) with (i + 1 + Z.of_nat k) by lia. by apply IH.
Qed.

Hypothesis Hos : objects_at m 1 os.
Hypothesis Hps : get_e32_pagesize m = Ret pagesize.

Lemma reserved_at n : 1 <= n <= Z.of_nat (length os) ->
  o32_reserved m (get_obj m n) = Ret (reserved_of n).
Proof.
  intros Hn. unfold reserved_of.
  destruct (lookup_lt_is_Some_2 os (Z.to_nat (n - 1)) ltac:(lia)) as [o E]. rewrite E.
  pose proof (objects_at_lookup os 1 _ o Hos E) as (_ & Hr & _).
  by replace (1 + Z.of_nat (Z.to_nat (n - 1))) with n in Hr by lia.
Qed.

Lemma fixup_step vm s f q :
  bytes_at (fixup_section m) q (encode f) -> supported f -> internal_ok f ->
  dispatch (apply_internal_fixup m (u32 vm)) apply_internal_entry_table_fixup (skip_ordinal m)
    (skip_name m) s f q = apply_patches (fixup_patch vm f) s.
Proof.
  intros H Hs Hn.
  unfold dispatch, fixup_patch, internal_ok, names_ok, skip_ordinal, skip_name,
    apply_internal_fixup, apply_internal_entry_table_fixup in *.
  destruct (fx_target f) as [obj v| md v | md v |] eqn:T; try done; cbv zeta.
  - pose proof Hs as (_ & _ & Hs'). rewrite T in Hs'.
    destruct v as [v|]; [|by destruct Hs' as [[] _]].
    rewrite (read_source _ _ _ H Hs), (read_mod _ _ _ H Hs), (read_add _ _ _ H Hs).
    cbn [mbind C_bind]. rewrite reserved_at by done. cbn [mbind C_bind].
    rewrite (read_ord _ _ _ H Hs v) by (rewrite T; eauto). cbn [mbind C_bind].
    fold (source_value f).
    replace (u32 (u32 vm + source_value f)) with (u32 (vm + source_value f))
      by (unfold u32; by rewrite Zplus_mod_idemp_l).
    cbn [apply_patches]. by destruct (st32 _ _ _).
  - rewrite (read_mod _ _ _ H Hs). cbn [mbind C_bind]. by destruct Hn as [-> _].
  - rewrite (read_mod _ _ _ H Hs). cbn [mbind C_bind].
    rewrite (read_ord _ _ _ H Hs v) by (rewrite T; eauto). cbn [mbind C_bind].
    destruct Hn as (-> & _ & (p & -> & Hp) & _). cbn [mbind C_bind]. by rewrite Hp.
Qed.

Lemma fixup_records vm fs : forall q s,
  bytes_at (fixup_section m) q (enc_fixups fs) -> Forall supported fs ->
  Forall internal_ok fs ->
  walk_fixups (dispatch (apply_internal_fixup m (u32 vm)) apply_internal_entry_table_fixup
    (skip_ordinal m) (skip_name m)) fs q s =
    apply_patches (mjoin (fixup_patch vm <$> fs)) s.
Proof.
  induction fs as [|f fs IH]; intros q s H Hs Hi; [done|].
  inversion_clear Hs as [|? ? Hsf Hs']. inversion_clear Hi as [|? ? Hif Hi'].
  change (enc_fixups (f :: fs)) with (encode f ++ enc_fixups fs) in H.
  apply bytes_at_app in H as [H1 H2]. cbn [walk_fixups].
  rewrite fmap_cons, mjoin_cons, apply_patches_app.
  rewrite fixup_step by done. destruct (apply_patches _ s); try done.
  cbn [mbind C_bind]. by apply IH.
Qed.

Lemma fixup_pages p o start pages : forall i s,
  object_at m p o -> o32_pagemap m p = Ret start ->
  pages_at m (start + Z.of_nat i) pages -> Forall internal_ok (mjoin pages) ->
  walk_pages (fixup_page m p) (length pages) (start + Z.of_nat i) s =
    apply_patches (page_patches o i pages) s.
Proof.
  intros i s Hat Hst. revert i s. pose proof Hat as (_ & Hr & _).
  induction pages as [|fs pages IH]; intros i s H Hi; [done|].
  rewrite mjoin_cons in Hi. apply Forall_app in Hi as [Hi1 Hi2].
  cbn [length walk_pages page_patches]. rewrite apply_patches_app.
  assert (E : fixup_page m p (start + Z.of_nat i) s =
    apply_patches (mjoin (fixup_patch (ob_reserved o + pagesize * Z.of_nat i) <$> fs)) s).
  { unfold fixup_page. rewrite Hr. cbn [mbind C_bind].
    rewrite (page_address_at _ _ _ _ _ _ Hst Hps). cbn [mbind C_bind].
    match goal with |- page_records m ?a ?b ?c ?d _ _ = _ =>
      destruct (page_records_encoded m a b c d _ fs pages s H) as (q & Hq & ->) end.
    destruct H as (_ & Hs & _). by apply fixup_records. }
  rewrite E. destruct (apply_patches _ s); try done. cbn [mbind C_bind].
  destruct H as (_ & _ & H).
  replace (start + Z.of_nat i + 1) with (start + Z.of_nat (S i)) in * by lia. by apply IH.
Qed.

Lemma fixup_object p o s : object_at m p o -> Forall internal_ok (mjoin (ob_pages o)) ->
  do_fixup_obj_lx m p s = apply_patches (page_patches o 0 (ob_pages o)) s.
Proof.
  intros H Hi. unfold do_fixup_obj_lx.
  destruct (object_pages_at _ _ _ H) as (start & Hst & -> & Hp). cbn [mbind C_bind].
  pose proof (fixup_pages p o start (ob_pages o) 0 s H Hst) as G.
  rewrite Z.add_0_r in G. by apply G.
Qed.

Lemma fixup_all l : forall i s, objects_at m i l -> Forall internal_ok (all_fixups l) ->
  fixup_objects (length l) i m s =
    apply_patches (mjoin ((fun o => page_patches o 0 (ob_pages o)) <$> l)) s.
Proof.
  unfold all_fixups. induction l as [|o l IH]; intros i s H Hi; [done|].
  rewrite fmap_cons, mjoin_cons in *. apply Forall_app in Hi as [Hi1 Hi2].
  destruct H as [Ho H]. cbn [length fixup_objects]. rewrite apply_patches_app.
  rewrite (fixup_object _ _ _ Ho) by done. destruct (apply_patches _ s); try done.
  cbn [mbind C_bind]. by apply IH.
Qed.
End internal.

(** Applying the internal fixups of a module whose objects are in memory:
    the word at every internal fixup's source holds the address of its target
    (the place of the target object plus the offset), no other word changes,
    and nothing is done for imports. *)
Theorem internal_fixups_spec m pagesize modname procname os s :
  get_e32_pagesize m = Ret pagesize ->
  get_obj_num m = Ret (Z.of_nat (length os)) -> objects_at m 1 os ->
  Forall (internal_ok m modname procname os) (all_fixups os) ->
  Forall (fun p => allocated s p.1 4) (module_patches pagesize os) ->
  ForallOrdPairs word_apart (module_patches pagesize os) ->
  exists s', LXFixup m s = Ret (NO_ERROR, s') /\
    Forall (fun p => ld32 s' p.1 = Ret (u32 p.2)) (module_patches pagesize os) /\
    (forall a, (forall p, p ∈ module_patches pagesize os -> a + 4 <= p.1 \/ p.1 + 4 <= a) ->
       ld32 s' a = ld32 s a).
Proof.
  intros Hps Hnum Hos Hi Hal Hap.
  destruct (apply_patches_spec (module_patches pagesize os) s Hal Hap)
    as (s' & E & Hl & Ho & _).
  exists s'. split; [|done]. unfold LXFixup, do_fixup_code_data_lx. rewrite Hnum.
  cbn [mbind C_bind]. rewrite Nat2Z.id.
  rewrite (fixup_all m pagesize modname procname os Hos Hps os 1 s Hos Hi).
  unfold module_patches in E. by rewrite E.
Qed.

(** ** Termination

    Whatever the bytes of a module are, the loops over its tables end: the
    fuel of the definitions is never used up. *)
Lemma ends_rdn b i n : ends (rdn b i n).
Proof. unfold rdn. solve_ends. Qed.
Lemma ends_st8 s a v : ends (st8 s a v).
Proof. unfold st8. solve_ends. Qed.
#[local] Hint Resolve ends_rdn ends_st8 : ends.

Lemma ends_st32 s a v : ends (st32 s a v).
Proof. unfold st32. solve_ends. Qed.
Lemma ends_put {A} cap (l : list A) x : ends (put cap l x).
Proof. unfold put. solve_ends. Qed.
Lemma ends_alloc b : ends (alloc b).
Proof. apply ends_require. Qed.
Lemma ends_skip_names n : forall b p, ends (skip_names n b p).
Proof. induction n; cbn; solve_ends. Qed.
Lemma ends_copy_pas_str b p : ends (copy_pas_str b p).
Proof. unfold copy_pas_str. solve_ends. Qed.
Lemma ends_field off m : ends (e32_field off m).
Proof. apply ends_rd32. Qed.
#[local] Hint Resolve ends_st32 ends_put ends_alloc ends_skip_names ends_copy_pas_str
  ends_field : ends.

(** [solve_ends] through the definitions that only read. *)
Ltac open_ends :=
  unfold import_ordinal, import_name, pas_cstr, apply_internal_fixup,
    apply_internal_entry_table_fixup, skip_ordinal, skip_name, get_imp_mod_name_cstr,
    get_imp_mod_name, get_imp_proc_name, get_reloc_size_rlc, get_srcoff_cnt1_rlc,
    get_mod_ord1_rlc, get_imp_ord1_rlc, get_additive_rlc, after_target,
    get_srcoff_cnt1_size, get_mod_ord1_size, get_imp_ord1_size, get_imp_name_size,
    get_additive_size, nr_stype, nr_flags, get_fixup_rec_tbl_obj, get_fixup_pg_tbl_offs,
    page_address, get_e32_pagesize, object_pages, get_obj_num, e32_pagesize, e32_impmod,
    e32_fpagetab, e32_frectab, e32_impproc, e32_objcnt, o32_reserved, o32_base,
    o32_pagemap, o32_mapsize in *;
  solve_ends.

Section walk_ends.
Context {S : Type}.
Variables (m : LX_module) (h0 h1 h2 h3 : S -> Z -> C S).
Hypothesis H0 : forall s p, ends (h0 s p).
Hypothesis H1 : forall s p, ends (h1 s p).
Hypothesis H2 : forall s p, ends (h2 s p).
Hypothesis H3 : forall s p, ends (h3 s p).
Hypothesis Hb : Forall is_byte (fixup_section m).

Lemma walk_page_ends fuel : forall offs e s,
  (Z.to_nat (e - offs) < fuel)%nat -> ends (walk_page m h0 h1 h2 h3 fuel offs e s).
Proof.
  induction fuel as [|fuel IH]; intros offs e s Hf; [lia|]. cbn [walk_page].
  destruct (Z.ltb_spec offs e); [|done].
  apply ends_bind; [open_ends|intros p]. apply ends_bind; [open_ends|intros ?].
  apply ends_bind; [open_ends|intros fl].
  apply ends_bind; [bcase; auto|intros s'].
  destruct (get_reloc_size_rlc (fixup_section m) p) as [n| | |] eqn:E; try done.
  - cbn [mbind C_bind]. apply reloc_size_bounds in E; [|done]. apply IH. lia.
  - assert (G : ends (get_reloc_size_rlc (fixup_section m) p)) by open_ends.
    by rewrite E in G.
Qed.

Lemma page_records_ends page_nr s : ends (page_records m h0 h1 h2 h3 page_nr s).
Proof.
  unfold page_records. apply ends_bind; [open_ends|intros o]. apply ends_bind;
    [open_ends|intros e]. apply walk_page_ends. lia.
Qed.
End walk_ends.

Lemma walk_pages_ends {S} (page : Z -> S -> C S) n : (forall i s, ends (page i s)) ->
  forall i s, ends (walk_pages page n i s).
Proof. intros H. induction n; cbn; [done|]. intros i s. apply ends_bind; auto. Qed.

Section module_ends.
Variable m : LX_module.
Hypothesis Hb : Forall is_byte (fixup_section m).

Lemma calc_ends n : forall i c, ends (calc_objects n i m c).
Proof.
  induction n as [|n IH]; cbn [calc_objects]; [done|]. intros i c.
  apply ends_bind; [|auto]. unfold calc_imp_fixup_obj_lx.
  apply ends_bind; [open_ends|intros [start k]]. apply walk_pages_ends. intros pg s.
  by apply page_records_ends.
Qed.

Lemma convert_ends cap n : forall i l, ends (convert_objects n i m cap l).
Proof.
  induction n as [|n IH]; cbn [convert_objects]; [done|]. intros i l.
  apply ends_bind; [|auto]. unfold convert_imp_fixup_obj_lx.
  apply ends_bind; [open_ends|intros [start k]]. apply walk_pages_ends. intros pg s.
  unfold convert_page. do 4 (apply ends_bind; [open_ends|intros ?]).
  apply page_records_ends; try done; open_ends.
Qed.

Lemma fixup_ends n : forall i s, ends (fixup_objects n i m s).
Proof.
  induction n as [|n IH]; cbn [fixup_objects]; [done|]. intros i l.
  apply ends_bind; [|auto]. unfold do_fixup_obj_lx.
  apply ends_bind; [open_ends|intros [start k]]. apply walk_pages_ends. intros pg s.
  unfold fixup_page. do 2 (apply ends_bind; [open_ends|intros ?]).
  apply page_records_ends; try done; open_ends.
Qed.
End module_ends.

(** *** The entry table *)

Lemma count_entries_ends b fuel : Forall is_byte b -> forall p c,
  (Z.to_nat (Z.of_nat (length b) - p) < fuel)%nat -> ends (count_entries fuel b p c).
Proof.
  intros Hb. induction fuel as [|fuel IH]; intros p c Hf; [lia|]. cbn [count_entries].
  destruct (rd8 b p) as [n| | |] eqn:E; try done; [|by destruct (ends_rd8 b p)].
  apply rd8_range in E as [Hn Hp]; [|done]. cbn [mbind C_bind].
  destruct (Z.eqb_spec n 0); [done|]. apply ends_bind; [auto with ends|intros ty].
  unfold UNUSED_ENTRY_SIZE, ENTRY_HEADER_SIZE, _32BIT_ENTRY_SIZE, FORWARD_ENTRY_SIZE.
  destruct (negb _); [done|].
  destruct (ty =? EMPTY); [|destruct (ty =? ENTRY32)]; apply IH; lia.
Qed.

Lemma fill_entry32_ends n : forall m obj p cap l, ends (fill_entry32 n m obj p cap l).
Proof. induction n; cbn; open_ends. Qed.
Lemma fill_forward_ends n : forall m p cap l, ends (fill_forward n m p cap l).
Proof. induction n; cbn; open_ends. Qed.
Lemma fill_empty_ends n : forall cap l, ends (fill_empty n cap l).
Proof. induction n; cbn; open_ends. Qed.

Lemma fill_entries_ends m cap fuel : Forall is_byte (loader_section m) -> forall p l,
  (Z.to_nat (Z.of_nat (length (loader_section m)) - p) < fuel)%nat ->
  ends (fill_entries fuel m p cap l).
Proof.
  intros Hb. induction fuel as [|fuel IH]; intros p l Hf; [lia|]. cbn [fill_entries].
  destruct (rd8 (loader_section m) p) as [n| | |] eqn:E; try done;
    [|by destruct (ends_rd8 (loader_section m) p)].
  apply rd8_range in E as [Hn Hp]; [|done]. cbn [mbind C_bind].
  destruct (Z.eqb_spec n 0); [done|]. apply ends_bind; [auto with ends|intros ty].
  unfold UNUSED_ENTRY_SIZE, ENTRY_HEADER_SIZE, _32BIT_ENTRY_SIZE, FORWARD_ENTRY_SIZE.
  destruct (negb _); [done|].
  destruct (ty =? EMPTY); [|destruct (ty =? ENTRY32)].
  - apply ends_bind; [apply fill_empty_ends|intros l']. apply IH. lia.
  - apply ends_bind; [auto with ends|intros obj].
    apply ends_bind; [apply fill_entry32_ends|intros l']. apply IH. lia.
  - apply ends_bind; [apply fill_forward_ends|intros l']. apply IH. lia.
Qed.

(** Whatever the loader and fixup sections contain, converting the entry
    table, converting the imported fixups and applying the internal fixups
    terminate: every record and every bundle advances the loop that reads
    it. *)
Theorem loader_terminates x s malloc_ok :
  Forall is_byte (loader_section (FormatStruct x)) ->
  Forall is_byte (fixup_section (FormatStruct x)) ->
  ends (convert_entry_table_to_BFF malloc_ok x) /\
  ends (convert_fixup_table_to_BFF malloc_ok x) /\ ends (LXFixup (FormatStruct x) s).
Proof.
  intros HL HF. set (m := FormatStruct x) in *. split_and!.
  - unfold convert_entry_table_to_BFF. fold m.
    destruct (e32_enttab m) as [a| | |] eqn:E1; try done;
      [|by destruct (ends_field 92 m)].
    destruct (e32_objtab m) as [b| | |] eqn:E2; try done;
      [|by destruct (ends_field 64 m)].
    cbn [mbind C_bind]. destruct (Z.leb_spec 0 (s32 (a - b))).
    2: { cbn [count_entries]. unfold rd8.
         by destruct (Z.leb_spec 0 (s32 (a - b))); [lia|]. }
    apply ends_bind; [apply count_entries_ends; [done|lia]|intros [c|]; [|done]].
    apply ends_bind; [apply ends_alloc|intros _].
    apply ends_bind; [apply fill_entries_ends; [done|lia]|done].
  - unfold convert_fixup_table_to_BFF. fold m. apply ends_bind; [open_ends|intros n].
    apply ends_bind; [by apply calc_ends|intros c]. destruct (c =? 0); [done|].
    apply ends_bind; [apply ends_alloc|intros _].
    apply ends_bind; [by apply convert_ends|done].
  - unfold LXFixup, do_fixup_code_data_lx. apply ends_bind; [|done].
    apply ends_bind; [open_ends|intros n]. by apply fixup_ends.
Qed.

(** ** The pages of an object *)

Lemma st_bytes_spec l : forall s a,
  allocated s a (Z.of_nat (length l)) -> Forall is_byte l ->
  exists s', st_bytes s a l = Ret s' /\ mem_at s' a l /\
    upd_in a (Z.of_nat (length l)) s s'.
Proof.
  induction l as [|c l IH]; intros s a Ha Hl; cbn [st_bytes length] in *.
  { exists s. split_and!; [done|by intros i c|apply upd_in_refl]. }
  inversion_clear Hl as [|? ? Hc Hl']. rewrite st8_ok by (apply Ha; lia). cbn [mbind C_bind].
  assert (U : upd_in a 1 s (<[a := u8 c]> s)) by (apply st8_upd with c, st8_ok, Ha; lia).
  destruct (IH (<[a := u8 c]> s) (a + 1)) as (s' & E & Hm & U'); [|done|].
  { intros i Hi. eapply upd_in_allocated; [exact U|exact Ha|lia]. }
  exists s'. split_and!; [done| |].
  - intros [|i] d Hd.
    + injection Hd as <-. destruct U' as [U' _]. rewrite U' by lia.
      by rewrite Z.add_0_r, lookup_insert_eq, u8_id.
    + replace (a + Z.of_nat (S i)) with (a + 1 + Z.of_nat i) by lia. by apply Hm.
  - eapply upd_in_trans; eapply upd_in_weaken; [exact U|lia|lia|exact U'|lia|lia].
Qed.

(** The page table gives for the pages of an object where their data lie. *)
Fixpoint page_data_at (m : LX_module) (page_nr shift datapage : Z) (datas : list (list Z))
    : Prop :=
  match datas with
  | [] => True
  | d :: datas =>
      (exists t off, get_obj_map m page_nr = Ret t /\ o32_pagedataoffset m t = Ret off /\
         o32_pagesize m t = Ret (Z.of_nat (length d)) /\
         0 <= Z.shiftl off shift + datapage < 2 ^ 31 /\
         bytes_at (lx_file_stream m) (Z.shiftl off shift + datapage) d /\
         Forall is_byte d) /\
      page_data_at m (page_nr + 1) shift datapage datas
  end.

Lemma page_data_pos m pos shift datapage datas : forall page_nr,
  page_data_at m page_nr shift datapage datas ->
  page_data_at (set_pos m pos) page_nr shift datapage datas.
Proof. induction datas as [|d datas IH]; [done|]. intros nr [H1 H2]. split; [exact H1|auto]. Qed.

Lemma load_pages_spec vm shift datapage datas : forall m page_nr k s,
  get_e32_pageshift m = Ret shift -> get_e32_datapage m = Ret datapage -> 0 <= shift < 32 ->
  lx_stream_size m = Z.of_nat (length (lx_file_stream m)) ->
  page_data_at m page_nr shift datapage datas -> 0 <= k -> 0 <= vm ->
  vm + k + Z.of_nat (length (mjoin datas)) <= 2 ^ 31 ->
  allocated s (vm + k) (Z.of_nat (length (mjoin datas))) ->
  exists pos s', load_pages (length datas) page_nr m vm k s = Ret (set_pos m pos, s') /\
    mem_at s' (vm + k) (mjoin datas) /\
    upd_in (vm + k) (Z.of_nat (length (mjoin datas))) s s'.
Proof.
  induction datas as [|d datas IH]; intros m page_nr k s Esh Edp Hsh Hsz H Hk Hvm Hlt Ha.
  { exists (lx_stream_pos m), s. split_and!; [by destruct m|by intros i c|apply upd_in_refl]. }
  rewrite mjoin_cons, length_app, Nat2Z.inj_add in *.
  destruct H as [(t & off & E1 & E2 & E3 & Hr & Hd & Hby) H].
  cbn [length load_pages]. rewrite E1. cbn [mbind C_bind]. rewrite E2, Esh, Edp.
  cbn [mbind C_bind].
  destruct (Z.leb_spec 0 shift); [|lia]. destruct (Z.ltb_spec shift 32); [|lia].
  cbn [andb require mbind C_bind]. rewrite s32_small by lia.
  pose proof (bytes_at_range _ _ _ Hd) as [_ Hend].
  rewrite fseek_in by (done || lia).
  change (o32_pagesize (set_pos m (Z.shiftl off shift + datapage)) t)
    with (o32_pagesize m t). rewrite E3. cbn [mbind C_bind].
  rewrite (fread_1 _ _ d) by done. cbn [mbind C_bind].
  destruct (st_bytes_spec d s (vm + k)) as (s1 & E & M1 & U1);
    [intros i Hi; apply Ha; lia|done|].
  rewrite (u32_id (k + vm)) by (unfold is_u32; lia). replace (k + vm) with (vm + k) by lia.
  rewrite E. cbn [mbind C_bind]. rewrite (u32_id (k + _)) by (unfold is_u32; lia).
  match goal with |- context [load_pages _ _ ?m' _ _ _] =>
    destruct (IH m' (page_nr + 1) (k + Z.of_nat (length d)) s1) as (pos & s' & E' & M' & U')
  end; try done; try lia.
  { by do 2 apply page_data_pos. }
  { intros i Hi. eapply upd_in_allocated; [exact U1|exact Ha|lia]. }
  exists pos, s'. rewrite Z.add_assoc in M', U'. split_and!; [exact E'| |].
  - apply mem_at_app; [|done]. by eapply mem_at_upd.
  - eapply upd_in_trans; eapply upd_in_weaken; [exact U1|lia|lia|exact U'|lia|lia].
Qed.

(** Loading an object copies the data of its pages, one after the other, to
    the memory allocated for it and changes nothing else. *)
Theorem load_obj_spec m obj start datas shift datapage vm s :
  object_pages m obj = Ret (start, length datas) ->
  get_e32_pageshift m = Ret shift -> get_e32_datapage m = Ret datapage -> 0 <= shift < 32 ->
  lx_stream_size m = Z.of_nat (length (lx_file_stream m)) ->
  page_data_at m start shift datapage datas -> 0 <= vm ->
  vm + Z.of_nat (length (mjoin datas)) <= 2 ^ 31 ->
  allocated s vm (Z.of_nat (length (mjoin datas))) ->
  exists pos s', load_obj_lx m obj vm s = Ret (set_pos m pos, s') /\
    mem_at s' vm (mjoin datas) /\ upd_in vm (Z.of_nat (length (mjoin datas))) s s'.
Proof.
  intros E Esh Edp Hsh Hsz H Hvm Hlt Ha. unfold load_obj_lx. rewrite E. cbn [mbind C_bind].
  pose proof (load_pages_spec vm shift datapage datas m start 0 s) as G.
  rewrite Z.add_0_r in G. by apply G.
Qed.

(** ** Identification *)

Lemma chars_are_ok b p c d : bytes_at b p [ch c; ch d] -> chars_are b p c d = Ret true.
Proof.
  intros [E0 [E1 _]%bytes_at_cons]%bytes_at_cons. unfold chars_are.
  rewrite E0. cbn [mbind C_bind]. rewrite Z.eqb_refl, E1. cbn [mbind C_bind].
  by rewrite Z.eqb_refl.
Qed.

Lemma chars_are_not b p c d x y : bytes_at b p [x; y] ->
  x <> ch c \/ y <> ch d -> chars_are b p c d = Ret false.
Proof.
  intros [E0 [E1 _]%bytes_at_cons]%bytes_at_cons H. unfold chars_are.
  rewrite E0. cbn [mbind C_bind]. destruct (Z.eqb_spec x (ch c)); [|done].
  rewrite E1. cbn [mbind C_bind]. destruct (Z.eqb_spec y (ch d)); [by destruct H|done].
Qed.

Lemma is_sig_eq c d a b : is_sig [c; d] a b = true <-> c = ch a /\ d = ch b.
Proof. unfold is_sig. rewrite bool_decide_eq_true. split; [by intros [= -> ->]|by intros [-> ->]]. Qed.

Lemma is_sig_ne c d a b : is_sig [c; d] a b = false -> c <> ch a \/ d <> ch b.
Proof.
  unfold is_sig. rewrite bool_decide_eq_false. intros H.
  destruct (Z.eq_dec c (ch a)) as [->|]; [|by left].
  destruct (Z.eq_dec d (ch b)) as [->|]; [by destruct H|by right].
Qed.

Lemma chars_are_sig b p c d x y : bytes_at b p [x; y] ->
  chars_are b p c d = Ret (is_sig [x; y] c d).
Proof.
  intros H. destruct (is_sig [x; y] c d) eqn:E.
  - apply is_sig_eq in E as [-> ->]. by apply chars_are_ok.
  - apply is_sig_ne in E. by eapply chars_are_not.
Qed.

(** The signature the loader tests. *)
Lemma load_header_sig stream off c d :
  header_at stream off -> bytes_at stream off [c; d] ->
  (off = 0 -> is_sig [c; d] "M" "Z" || is_sig [c; d] "Z" "M" = false) ->
  is_sig [c; d] "L" "X" = false ->
  exists m, LXLoadHeader true (mkLX [] [] [] 0 stream (Z.of_nat (length stream)) 0) =
    Ret (false, m).
Proof.
  intros Hat Hcd Hmz Hlx. unfold LXLoadHeader.
  set (m0 := mkLX [] [] [] 0 stream (Z.of_nat (length stream)) 0).
  rewrite (fseek_in m0) by (done || cbn; lia).
  destruct Hat as [->|(Ho & Hsig & Hptr)].
  - rewrite (fread_1 2 _ [c; d]) by done. cbn [mbind C_bind].
    rewrite Hmz by done. cbn [mbind C_bind]. rewrite Hlx. by eexists.
  - assert (exists s, bytes_at stream 0 s /\ length s = 2%nat /\
      is_sig s "M" "Z" || is_sig s "Z" "M" = true) as (s & Hs & Ls & Es).
    { destruct Hsig as [H|H]; eexists; (split; [exact H|by split]). }
    rewrite (fread_1 2 _ s) by (done || by rewrite Ls). cbn [mbind C_bind]. rewrite Es.
    pose proof (bytes_at_end _ _ _ Hptr) as Hp. pose proof (bytes_at_end _ _ _ Hcd) as Hoff.
    rewrite fseek_in by (done || cbn; lia).
    rewrite (fread_1 4 _ (enc32 off)) by done. cbn [mbind C_bind].
    assert (rd32 (enc32 off) 0 = Ret off) as ->.
    { rewrite (bytes_at_rd32 (enc32 off) 0 off []) by (by exists [], []).
      by rewrite u32_id by (unfold is_u32; lia). }
    cbn [mbind C_bind]. rewrite s32_small by lia.
    rewrite fseek_in by (done || cbn; lia).
    rewrite (fread_bytes _ c d) by done. cbn [mbind C_bind]. rewrite Hlx. by eexists.
Qed.

(** The place of the header is read from a DOS stub, if there is one. *)
Lemma module_header {B} stream off c d (k : Z -> C B) :
  header_at stream off -> bytes_at stream off [c; d] ->
  (off = 0 -> is_sig [c; d] "M" "Z" || is_sig [c; d] "Z" "M" = false) ->
  (mz ← chars_are stream 0 "M" "Z";
   stub ← (if (mz : bool) then Ret true else chars_are stream 0 "Z" "M");
   o ← (if (stub : bool) then rd32 stream ENEWHDR else Ret 0);
   k o) = k off.
Proof.
  intros Hat Hcd Hmz. destruct Hat as [->|(Ho & Hsig & Hptr)].
  - specialize (Hmz eq_refl). apply orb_false_iff in Hmz as [Z1 Z2].
    by rewrite !(chars_are_sig _ _ _ _ _ _ Hcd), Z1, Z2.
  - assert (exists x y, bytes_at stream 0 [x; y] /\
      is_sig [x; y] "M" "Z" || is_sig [x; y] "Z" "M" = true) as (x & y & Hs & Es).
    { destruct Hsig as [H|H]; do 2 eexists; (split; [exact H|done]). }
    rewrite !(chars_are_sig _ _ _ _ _ _ Hs).
    assert (E : rd32 stream ENEWHDR = Ret off).
    { rewrite (bytes_at_rd32 _ _ off []) by (by rewrite app_nil_r).
      by rewrite u32_id by (unfold is_u32; lia). }
    destruct (is_sig [x; y] "M" "Z"); cbn [mbind C_bind orb] in *; rewrite ?Es, E; done.
Qed.

Lemma identify_sig stream off c d :
  header_at stream off -> bytes_at stream off [c; d] ->
  (off = 0 -> is_sig [c; d] "M" "Z" || is_sig [c; d] "Z" "M" = false) ->
  LXIdentify stream = Ret (if is_sig [c; d] "L" "X" then NO_ERROR else 11).
Proof.
  intros Hat Hcd Hmz. unfold LXIdentify. rewrite (module_header _ off c d) by done.
  by rewrite (chars_are_sig _ _ _ _ _ _ Hcd).
Qed.

(** A file is identified as an LX executable exactly where the loader finds
    its header: at the beginning or behind a DOS stub.  A file without LX
    signature at that place is rejected with error 11, but loading it all the
    same returns no error and leaves the module as it was. *)
Theorem identify_spec alloc_mem stream off c d x areas s :
  header_at stream off -> bytes_at stream off [c; d] ->
  (off = 0 -> is_sig [c; d] "M" "Z" || is_sig [c; d] "Z" "M" = false) ->
  if is_sig [c; d] "L" "X" then LXIdentify stream = Ret NO_ERROR
  else LXIdentify stream = Ret 11 /\
       LXLoad alloc_mem true stream x areas s = Ret (NO_ERROR, x, areas, s).
Proof.
  intros Hat Hcd Hmz. rewrite (identify_sig _ _ _ _ Hat Hcd Hmz).
  destruct (is_sig [c; d] "L" "X") eqn:E; [done|split; [done|]].
  destruct (load_header_sig _ _ _ _ Hat Hcd Hmz E) as [m Em].
  unfold LXLoad, LXLoadStream. cbn [alloc require mbind C_bind]. by rewrite Em.
Qed.

(** ** Applying fixups again

    What a run of the internal fixups stores does not depend on the memory, so
    a second run changes nothing. *)

(** [g] stores the words of a fixed list and then goes on as [tail] says. *)
Definition patching (g : mem -> C mem) : Prop :=
  exists ps (tail : C unit), forall s, g s = (s ← apply_patches ps s; _ ← tail; Ret s).

Lemma patching_ret : patching (fun s => Ret s).
Proof. by exists [], (Ret tt). Qed.

Lemma patching_bind g h : patching g -> patching h -> patching (fun s => s ← g s; h s).
Proof.
  intros (ps1 & t1 & E1) (ps2 & t2 & E2). destruct t1 as [[]|c| |] eqn:Et.
  - exists (ps1 ++ ps2), t2. intros s. rewrite E1, apply_patches_app.
    destruct (apply_patches ps1 s); try done. cbn [mbind C_bind]. apply E2.
  - exists ps1, (Exit c). intros s. rewrite E1. by destruct (apply_patches ps1 s).
  - exists ps1, Undef. intros s. rewrite E1. by destruct (apply_patches ps1 s).
  - exists ps1, NoFuel. intros s. rewrite E1. by destruct (apply_patches ps1 s).
Qed.

Lemma patching_read {A} (c : C A) (g : A -> mem -> C mem) :
  (forall a, patching (g a)) -> patching (fun s => a ← c; g a s).
Proof.
  intros H. destruct c as [a|c| |].
  - apply H.
  - by exists [], (Exit c).
  - by exists [], Undef.
  - by exists [], NoFuel.
Qed.

Lemma patching_store a v : patching (fun s => st32 s a v).
Proof.
  exists [(a, v)], (Ret tt). intros s. cbn [apply_patches]. by destruct (st32 s a v).
Qed.

Lemma patching_error (c : C mem) : (forall s, c <> Ret s) -> patching (fun _ => c).
Proof.
  intros H. destruct c as [s|c| |]; [by destruct (H s)| | |].
  - by exists [], (Exit c).
  - by exists [], Undef.
  - by exists [], NoFuel.
Qed.

Section patching_walk.
Variables (m : LX_module) (h0 h1 h2 h3 : mem -> Z -> C mem).
Hypothesis H0 : forall p, patching (fun s => h0 s p).
Hypothesis H1 : forall p, patching (fun s => h1 s p).
Hypothesis H2 : forall p, patching (fun s => h2 s p).
Hypothesis H3 : forall p, patching (fun s => h3 s p).

Lemma patching_page fuel : forall offs e, patching (walk_page m h0 h1 h2 h3 fuel offs e).
Proof.
  induction fuel as [|fuel IH]; intros offs e; [by exists [], NoFuel|]. cbn [walk_page].
  destruct (offs <? e); [|apply patching_ret].
  apply patching_read; intros p. apply patching_read; intros _.
  apply patching_read; intros fl.
  apply (patching_bind (fun s => if Z.land fl NRRTYP =? NRRINT then h0 s p
    else if Z.land fl NRRTYP =? NRRENT then h1 s p
    else if Z.land fl NRRTYP =? NRRORD then h2 s p else h3 s p)); [bcase; auto|].
  apply patching_read; intros n. apply IH.
Qed.

Lemma patching_records page_nr : patching (page_records m h0 h1 h2 h3 page_nr).
Proof. unfold page_records. do 2 (apply patching_read; intros ?). apply patching_page. Qed.
End patching_walk.

Lemma patching_pages page n : (forall i, patching (page i)) -> forall i,
  patching (walk_pages page n i).
Proof.
  intros H. induction n as [|n IH]; intros i; cbn [walk_pages]; [apply patching_ret|].
  by apply patching_bind.
Qed.

Lemma patching_object m p : patching (do_fixup_obj_lx m p).
Proof.
  unfold do_fixup_obj_lx. apply patching_read. intros [start n]. apply patching_pages.
  intros i. unfold fixup_page. do 2 (apply patching_read; intros ?). apply patching_records;
    intros q; unfold apply_internal_fixup, apply_internal_entry_table_fixup, skip_ordinal,
      skip_name; repeat (apply patching_read; intros ?);
    apply patching_ret || apply patching_store.
Qed.

Lemma patching_fixups m : patching (do_fixup_code_data_lx m).
Proof.
  unfold do_fixup_code_data_lx. apply patching_read. intros num. generalize 1.
  induction (Z.to_nat num) as [|n IH]; intros i; cbn [fixup_objects]; [apply patching_ret|].
  apply patching_bind; [apply patching_object|apply IH].
Qed.

(** The byte that is stored last at an address. *)
Definition word_byte (p : Z * Z) (i : Z) : option Z :=
  if i =? p.1 + 3 then Some (u8 (p.2 / 16777216))
  else if i =? p.1 + 2 then Some (u8 (p.2 / 65536))
  else if i =? p.1 + 1 then Some (u8 (p.2 / 256))
  else if i =? p.1 then Some (u8 p.2) else None.
Fixpoint written (ps : list (Z * Z)) (i : Z) : option Z :=
  match ps with
  | [] => None
  | p :: ps => match written ps i with Some c => Some c | None => word_byte p i end
  end.

Lemma st32_bytes s a v s' i : st32 s a v = Ret s' ->
  s' !! i = match word_byte (a, v) i with Some c => Some c | None => s !! i end.
Proof.
  intros [-> _]%st32_inv. unfold word_byte. cbn [fst snd]. rewrite !lookup_insert.
  destruct (Z.eqb_spec i (a + 3)) as [->|H3]; [by rewrite decide_True|].
  rewrite (decide_False (P := a + 3 = i)) by lia.
  destruct (Z.eqb_spec i (a + 2)) as [->|H2]; [by rewrite decide_True|].
  rewrite (decide_False (P := a + 2 = i)) by lia.
  destruct (Z.eqb_spec i (a + 1)) as [->|H1]; [by rewrite decide_True|].
  rewrite (decide_False (P := a + 1 = i)) by lia.
  destruct (Z.eqb_spec i a) as [->|H0]; [by rewrite decide_True|].
  by rewrite decide_False by lia.
Qed.

Lemma apply_patches_bytes ps : forall s s' i, apply_patches ps s = Ret s' ->
  s' !! i = match written ps i with Some c => Some c | None => s !! i end.
Proof.
  induction ps as [|[a v] ps IH]; intros s s' i H; cbn [apply_patches written] in *.
  { by injection H as ->. }
  destruct (st32 s a v) as [s1| | |] eqn:E; try done. cbn [mbind C_bind] in H.
  rewrite (IH _ _ i H), (st32_bytes _ _ _ _ i E). by destruct (written ps i).
Qed.

Lemma st32_allocated s a v s' : st32 s a v = Ret s' -> allocated s a 4.
Proof.
  intros E i Hi. pose proof (st32_bytes _ _ _ _ i E) as B.
  destruct (st32_inv _ _ _ _ E) as [_ [_ D]]. apply D. rewrite B. unfold word_byte.
  cbn [fst snd]. bcase; try by eexists. blia.
Qed.

Lemma apply_patches_dom ps : forall s s', apply_patches ps s = Ret s' ->
  (forall i, is_Some (s' !! i) <-> is_Some (s !! i)) /\
  Forall (fun p => allocated s p.1 4) ps.
Proof.
  induction ps as [|[a v] ps IH]; intros s s' H; cbn [apply_patches] in H.
  { by injection H as ->. }
  destruct (st32 s a v) as [s1| | |] eqn:E; try done. cbn [mbind C_bind] in H.
  destruct (IH _ _ H) as [D F]. destruct (st32_inv _ _ _ _ E) as [_ [_ D1]].
  split; [intros i; by rewrite D, D1|]. constructor; [by apply st32_allocated in E|].
  eapply Forall_impl; [exact F|]. intros p Hp i Hi. by apply D1, Hp.
Qed.

Lemma apply_patches_total ps : forall s, Forall (fun p => allocated s p.1 4) ps ->
  returns (apply_patches ps s).
Proof.
  induction ps as [|[a v] ps IH]; intros s H; [by eexists|]. inversion_clear H as [|? ? Ha H'].
  cbn [apply_patches]. destruct (st32_total s a v Ha) as [s1 E]. rewrite E.
  cbn [mbind C_bind]. apply IH. eapply Forall_impl; [exact H'|]. intros p Hp.
  eapply upd_in_allocated; [by eapply st32_upd|done].
Qed.

Lemma apply_patches_idem ps s s' : apply_patches ps s = Ret s' -> apply_patches ps s' = Ret s'.
Proof.
  intros H. destruct (apply_patches_dom _ _ _ H) as [D F].
  destruct (apply_patches_total ps s') as [s'' H'].
  { eapply Forall_impl; [exact F|]. intros p Hp i Hi. by apply D, Hp. }
  rewrite H'. f_equal. apply map_eq. intros i.
  rewrite (apply_patches_bytes _ _ _ i H'), (apply_patches_bytes _ _ _ i H).
  by destruct (written ps i).
Qed.

(** The records of a module are a list of patches: running them again leaves
    the memory as the first run did. *)
Lemma LXFixup_again m s s' rc : LXFixup m s = Ret (rc, s') -> LXFixup m s' = Ret (rc, s').
Proof.
  unfold LXFixup. destruct (patching_fixups m) as (ps & tail & E). rewrite !E.
  destruct (apply_patches ps s) as [s1| | |] eqn:E1; try done. cbn [mbind C_bind].
  destruct tail as [[]| | |]; try done. cbn [mbind C_bind]. intros [= <- <-].
  by rewrite (apply_patches_idem _ _ _ E1).
Qed.

(** Applying the internal fixups of a module a second time, as the module
    manager does before it loads each imported module, leaves the memory as the
    first time did, whatever the records are; so the order of the imports and
    their number do not matter to the patched code. *)
Theorem fixup_idempotent m s s' rc :
  LXFixup m s = Ret (rc, s') -> LXFixup m s' = Ret (rc, s').
Proof. apply LXFixup_again. Qed.

(** ** Instances of the properties

    A library with one object of two pages, three fixups and an entry table. *)

Definition put32 (b : list Z) (f : Z * Z) : list Z :=
  take (Z.to_nat f.1) b ++ enc32 f.2 ++ drop (Z.to_nat f.1 + 4) b.

Definition demo_ord : fixup := mkFixup 7 (Single 16) false W16 (ByOrdinal 1 5) None.
Definition demo_int : fixup := mkFixup 7 (Single 32) false W16 (Internal 1 (Some 100)) None.
Definition demo_nam : fixup := mkFixup 7 (Single 8) false W16 (ByName 1 1) None.
Definition demo_pages : list (list fixup) := [[demo_ord; demo_int]; [demo_nam]].
Definition demo_object : object := mkObject 65536 4096 demo_pages.

Definition page1_len : Z := Z.of_nat (length (enc_fixups [demo_ord; demo_int])).
Definition page2_len : Z := Z.of_nat (length (enc_fixups [demo_nam])).
Definition demo_procs : list Z := 0 :: pas (bstr "DosBeep") ++ [0].
Definition demo_fixups : list Z :=
  enc32 0 ++ enc32 page1_len ++ enc32 (page1_len + page2_len) ++
  enc_fixups [demo_ord; demo_int] ++ enc_fixups [demo_nam] ++ imp_names [bstr "DOSCALLS"] ++
  demo_procs.

Definition demo_bundles : list bundle :=
  [Unused 1; Bundle32 1 [(3, 256); (3, 512)]; Forwards [(0, 1, 7)]].
Definition demo_loader (table : list Z) : list Z :=
  enc32 8192 ++ enc32 65536 ++ enc32 0 ++ enc32 1 ++ enc32 2 ++ enc32 4096 ++ table ++
  enc32 0 ++ enc16 3 ++ enc16 0 ++ enc32 1 ++ enc16 2 ++ enc16 0.

Definition demo_lx (table : list Z) : LX_module :=
  let impmod := 12 + page1_len + page2_len in
  mkLX (foldl put32 (replicate 196 0)
          [(40, 4096); (44, 4); (64, 196); (68, 1);
           (72, 196 + 24 + Z.of_nat (length table)); (92, 220); (104, 1000); (108, 1012);
           (112, 1000 + impmod); (120, 1000 + impmod + 9); (128, 2)])
    (demo_loader table) demo_fixups 0 (Z.of_nat <$> seq 0 64) 64 0.

Definition demo_ixf (table : list Z) : IXFModule :=
  mkIxf (demo_lx table) [] [] [] 0 0 true [] 0 0.

Definition demo_modname (n : Z) : list Z := if n =? 1 then bstr "DOSCALLS" else [].
Definition demo_procname (n : Z) : list Z := if n =? 1 then bstr "DosBeep" else [].
Definition demo_table : list Z := enc_bundles demo_bundles ++ [0].

Lemma bytes_at_check b p l : 0 <= p ->
  b = take (Z.to_nat p) b ++ l ++ drop (Z.to_nat p + length l) b ->
  (Z.to_nat p <= length b)%nat -> bytes_at b p l.
Proof.
  intros Hp E Hl. exists (take (Z.to_nat p) b), (drop (Z.to_nat p + length l) b).
  split; [done|]. rewrite length_take. lia.
Qed.
Ltac bytes := apply bytes_at_check; [vm_compute; discriminate|vm_compute; reflexivity|vm_compute; lia].

Lemma demo_supported1 f : f ∈ [demo_ord; demo_int; demo_nam] -> supported f.
Proof.
  rewrite !elem_of_cons, elem_of_nil. intros [->|[->|[->|[]]]];
    (split; [cbn; lia|split; [by intros offs|done]]).
Qed.

Lemma demo_pages_at : pages_at (demo_lx demo_table) 1 demo_pages.
Proof.
  assert (Hs : forall fs, (forall f, f ∈ fs -> f ∈ [demo_ord; demo_int; demo_nam]) ->
    Forall supported fs) by (intros fs H; apply Forall_forall; auto using demo_supported1).
  split; [exists 0, 12|split; [apply Hs; intros f; rewrite !elem_of_cons; tauto|]].
  - split_and!; [vm_compute; reflexivity..|bytes].
  - split; [exists page1_len, (12 + page1_len)|split; [apply Hs; intros f; rewrite !elem_of_cons; tauto|done]].
    split_and!; [vm_compute; reflexivity..|bytes].
Qed.

Lemma demo_object_at : objects_at (demo_lx demo_table) 1 [demo_object].
Proof.
  split; [|done]. split_and!; [vm_compute; reflexivity..|]. exists 1.
  split_and!; [vm_compute; reflexivity..|lia|cbn; lia|apply demo_pages_at].
Qed.

Lemma demo_names f : f ∈ [demo_ord; demo_int; demo_nam] ->
  names_ok (demo_lx demo_table) demo_modname demo_procname f.
Proof.
  rewrite !elem_of_cons, elem_of_nil. intros [->|[->|[->|[]]]]; [| done|].
  - split; [vm_compute; reflexivity|by apply text_check].
  - split_and!; [vm_compute; reflexivity|by apply text_check| |by apply text_check].
    exists (12 + page1_len + page2_len + 9 + 1). split; vm_compute; reflexivity.
Qed.

Lemma demo_bundles_ok : Forall (bundle_ok (demo_lx demo_table) (fun _ => 65536) demo_modname)
  demo_bundles.
Proof.
  repeat (apply Forall_cons; split); try apply Forall_nil_2; (split; [cbn; lia|]); [done| |].
  - split; [lia|vm_compute; reflexivity].
  - apply Forall_singleton.
    split_and!; [cbn; lia|cbn; lia|by apply text_check|vm_compute; reflexivity].
Qed.

Lemma entry_table_spec_witness :
  convert_entry_table_to_BFF true (demo_ixf demo_table) =
    Ret (NO_ERROR, set_entries (demo_ixf demo_table)
      (mjoin (bundle_entries (fun _ => 65536) demo_modname <$> demo_bundles))).
Proof.
  apply (entry_table_spec _ _ _ _ 220 196);
    [vm_compute; reflexivity|vm_compute; reflexivity|lia|bytes|apply demo_bundles_ok
    |vm_compute; reflexivity].
Defined.

Definition demo_bad_table : list Z := enc_bundles [Unused 1] ++ 1 :: 2 :: [].

Lemma entry_table_unsupported_witness :
  convert_entry_table_to_BFF true (demo_ixf demo_bad_table) =
    Ret (1, demo_ixf demo_bad_table).
Proof.
  apply (entry_table_unsupported _ (fun _ => 0) demo_modname [Unused 1] 220 196 1 2 []);
    [vm_compute; reflexivity|vm_compute; reflexivity|lia|bytes|lia|reflexivity| 
    |vm_compute; reflexivity].
  apply Forall_singleton. split; [cbn; lia|done].
Defined.

Lemma imports_spec_witness :
  convert_fixup_table_to_BFF true (demo_ixf demo_table) =
    Ret (NO_ERROR, set_fixups (demo_ixf demo_table)
      [mkFixupEntry 65552 4112 (mkEntry None 0 (Some (bstr "DOSCALLS")) 5);
       mkFixupEntry 69640 8200
         (mkEntry (Some (bstr "DosBeep")) 0 (Some (bstr "DOSCALLS")) 0)]).
Proof.
  refine (imports_spec (demo_ixf demo_table) demo_modname demo_procname 4096 [demo_object]
    _ _ demo_object_at _ _); [vm_compute; reflexivity|vm_compute; reflexivity| 
    |vm_compute; reflexivity].
  apply Forall_forall. intros f Hf. by apply demo_names.
Defined.

Definition demo_mem : mem := add_block ∅ 4096 (fun _ => 0) 64.

Lemma demo_allocated a n : 4096 <= a -> a + n <= 4160 -> allocated demo_mem a n.
Proof.
  intros H1 H2 i Hi. unfold demo_mem. rewrite add_block_lookup.
  rewrite decide_True by lia. by eexists.
Qed.

Lemma internal_fixups_spec_witness :
  exists s', LXFixup (demo_lx demo_table) demo_mem = Ret (NO_ERROR, s') /\
    Forall (fun p => ld32 s' p.1 = Ret (u32 p.2)) [(4128, 4196)] /\
    (forall a, (forall p, p ∈ [(4128, 4196)] -> a + 4 <= p.1 \/ p.1 + 4 <= a) ->
       ld32 s' a = ld32 demo_mem a).
Proof.
  refine (internal_fixups_spec (demo_lx demo_table) 4096 demo_modname demo_procname
    [demo_object] demo_mem _ _ demo_object_at _ _ _);
    [vm_compute; reflexivity|vm_compute; reflexivity| | |].
  - apply Forall_cons. split; [apply (demo_names demo_ord); by left|].
    apply Forall_cons. split; [split; vm_compute; discriminate|]. apply Forall_singleton.
    apply (demo_names demo_nam). do 2 right. by left.
  - apply Forall_singleton. apply demo_allocated; vm_compute; discriminate.
  - apply FOP_cons; [apply Forall_nil_2|apply FOP_nil].
Defined.

Definition demo_fixed : mem :=
  match LXFixup (demo_lx demo_table) demo_mem with Ret (_, s) => s | _ => ∅ end.

Lemma fixup_idempotent_witness :
  LXFixup (demo_lx demo_table) demo_mem = Ret (NO_ERROR, demo_fixed) /\
  LXFixup (demo_lx demo_table) demo_fixed = Ret (NO_ERROR, demo_fixed) /\
  ld32 demo_fixed 4128 = Ret 4196.
Proof.
  assert (E : LXFixup (demo_lx demo_table) demo_mem = Ret (NO_ERROR, demo_fixed))
    by (vm_compute; reflexivity).
  split_and!; [exact E|exact (fixup_idempotent _ _ _ _ E)|vm_compute; reflexivity].
Defined.

Lemma loader_terminates_witness :
  ends (convert_entry_table_to_BFF true (demo_ixf demo_bad_table)) /\
  ends (convert_fixup_table_to_BFF true (demo_ixf demo_bad_table)) /\
  ends (LXFixup (demo_lx demo_bad_table) demo_mem).
Proof.
  apply (loader_terminates (demo_ixf demo_bad_table)); apply bytes_check; vm_compute;
    reflexivity.
Defined.

Lemma load_obj_spec_witness :
  exists pos s', load_obj_lx (demo_lx demo_table) 0 4096 demo_mem =
      Ret (set_pos (demo_lx demo_table) pos, s') /\
    mem_at s' 4096 [2; 3; 4; 18; 19] /\ upd_in 4096 5 demo_mem s'.
Proof.
  apply (load_obj_spec (demo_lx demo_table) 0 1 [[2; 3; 4]; [18; 19]] 4 2 4096 demo_mem);
    [vm_compute; reflexivity|vm_compute; reflexivity|vm_compute; reflexivity|lia
    |vm_compute; reflexivity| |lia|cbn; lia|apply demo_allocated; cbn; lia].
  split; [exists (24 + Z.of_nat (length demo_table)), 0
    |split; [exists (32 + Z.of_nat (length demo_table)), 1|done]];
    (split; [vm_compute; reflexivity|]; split; [vm_compute; reflexivity|];
     split; [vm_compute; reflexivity|];
     split; [split; [vm_compute; discriminate|vm_compute; reflexivity]|];
     split; [bytes|apply bytes_check; reflexivity]).
Defined.

Lemma identify_spec_witness :
  LXIdentify (demo_stub ++ bstr "NE") = Ret 11 /\
  LXLoad (fun s _ _ _ => (s, 0)) true (demo_stub ++ bstr "NE") (demo_ixf [])
    init_memmgr demo_mem = Ret (NO_ERROR, demo_ixf [], init_memmgr, demo_mem).
Proof.
  apply (identify_spec (fun s _ _ _ => (s, 0)) (demo_stub ++ bstr "NE") 64
    (ch "N"%char) (ch "E"%char)); [|bytes|done].
  right. split; [lia|]. split; [left; bytes|bytes].
Defined.
