(* ===== verification/PathSearch.v ===== *)
(** * Paths and their search ([OS2/Server/shared/lib/compat/path.c] and [token.c])

    The parts of a path, the tokenizer over a string that it changes while it
    runs, and the searches along LIBPATH and PATH.  The tokenizer keeps its
    position and the character it overwrote in two static variables, the
    record [tok]; a pointer into the string is its position in the array. *)
From S2P Require Import Prelude CfgParser.

(** ** Parts of a path

    The argument is the contents of the terminated string. *)
Definition get_drv (s_path : list Z) : C Z :=
  c ← rd8 (s_path ++ [0]) 1;
  if c =? ch ":"%char then rd8 (s_path ++ [0]) 0 else Ret 0.

(** The position of the last [c], from position [i] on; [e] if there is none. *)
Fixpoint last_pos (c : Z) (l : list Z) (i e : Z) : Z :=
  match l with
  | [] => e
  | x :: l => last_pos c l (i + 1) (if x =? c then i else e)
  end.

Definition backslash : Z := 92.

(** [None] is the null pointer. *)
Definition get_directory (s_path : list Z) : C (option (list Z)) :=
  c ← rd8 (s_path ++ [0]) 1;
  let s := if c =? ch ":"%char then 2 else 0 in
  let e := last_pos backslash (drop (Z.to_nat s) s_path) s 0 in
  if e =? 0 then Ret None
  else Ret (Some (take (Z.to_nat (e - s + 1)) (drop (Z.to_nat s) s_path))).

Definition get_name (s_path : list Z) : list Z :=
  let s := last_pos backslash s_path 0 (-1) + 1 in
  drop (Z.to_nat s) s_path.

Definition get_fname (s_path : list Z) : list Z :=
  let e := last_pos (ch "."%char) s_path 0 (-1) in
  let e := if e =? -1 then Z.of_nat (length s_path) else e in
  take (Z.to_nat e) s_path.

(** ** The tokenizer (token.c) *)

Record tok := mkTok { nxtToken : option Z; saved_ch : Z }.

(** [strchr(token, c)] also finds the terminator. *)
Definition is_delim (token : list Z) (c : Z) : bool := (c =? 0) || bool_decide (c ∈ token).

Fixpoint scan (fuel : nat) (token b : list Z) (q : Z) : C Z :=
  match fuel with
  | O => NoFuel
  | S fuel => c ← rd8 b q; if is_delim token c then Ret q else scan fuel token b (q + 1)
  end.

(** The rest of [StrTokenize], from the string [str] on. *)
Definition tokenize_at (str : Z) (token : option (list Z)) (b : list Z) (t : tok)
    : C (option Z * list Z * tok) :=
  match token with
  | None | Some [] => Ret (Some str, b, mkTok None (saved_ch t))
  | Some token =>
      q ← scan (S (length b)) token b str;
      c ← rd8 b q;
      b ← wr8 b q 0;
      Ret (Some str, b, mkTok (Some q) c)
  end.

Definition StrTokenize (str : option Z) (token : option (list Z)) (b : list Z) (t : tok)
    : C (option Z * list Z * tok) :=
  match str with
  | Some str => tokenize_at str token b t
  | None =>
      match nxtToken t with
      | None => Ret (None, b, mkTok None (saved_ch t))
      | Some q =>
          b ← wr8 b q (saved_ch t);
          if saved_ch t =? 0 then Ret (None, b, mkTok None (saved_ch t))
          else tokenize_at (q + 1) token b t
      end
  end.

Definition StrTokSave (t : tok) : tok := t.
Definition StrTokRestore (st : tok) : tok := st.
Definition StrTokStop (b : list Z) (t : tok) : C (list Z * tok) :=
  '(_, b, t) ← StrTokenize None None b t; Ret (b, t).

(** ** The searches

    [io_load_file] asks the file provider; [None] is an error. *)
Section search.
Variable io_load_file : list Z -> option (list Z).

Definition loads (path : list Z) : bool :=
  match io_load_file path with Some _ => true | None => false end.

Definition psep : list Z := bstr ";".

(** The bytes at [full_path_name], and at [file_to_find] in
    [find_module_path]. *)
Definition path_cap : Z := 4097.
Definition file_cap : Z := 251.

Fixpoint host_seps (fuel : nat) (hostsep : Z) (b : list Z) (q : Z) : C (list Z) :=
  match fuel with
  | O => NoFuel
  | S fuel =>
      c ← rd8 b q;
      if c =? 0 then Ret b
      else
        b ← (if c =? backslash then wr8 b q hostsep else Ret b);
        host_seps fuel hostsep b (q + 1)
  end.

(** A search ends with its return code, the path in [full_path_name], the
    string searched and the state of the tokenizer. *)
Definition outcome : Type := Z * list Z * list Z * tok.

Fixpoint module_path_loop (fuel : nat) (hostsep : Z) (name : list Z) (st : tok)
    (p : option Z) (full : list Z) (b : list Z) (t : tok) : C outcome :=
  match fuel with
  | O => NoFuel
  | S fuel =>
      match p with
      | None => Ret (ERROR_FILE_NOT_FOUND, full, b, StrTokRestore st)
      | Some q =>
          c ← rd8 b q;
          if c =? 0 then
            '(p, b, t) ← StrTokenize None (Some psep) b t;
            module_path_loop fuel hostsep name st p full b t
          else
            b ← host_seps (S (length b)) hostsep b q;
            dir ← cstr (drop (Z.to_nat q) b);
            l ← rd8 b (q + Z.of_nat (length dir) - 1);
            let full := dir ++ (if l =? hostsep then [] else [hostsep]) ++ name in
            _ ← require (Z.of_nat (length full) <? path_cap);
            _ ← require (Z.of_nat (length name) <? file_cap);
            if loads full then
              '(b, t) ← StrTokStop b t;
              Ret (NO_ERROR, full, b, t)
            else
              '(p, b, t) ← StrTokenize None (Some psep) b t;
              module_path_loop fuel hostsep name st p full b t
      end
  end.

(** [libpath] is the array with the terminated LIBPATH. *)
Definition find_module_path (hostsep : Z) (name libpath : list Z) (t : tok) : C outcome :=
  let st := StrTokSave t in
  '(p, b, t) ← StrTokenize (Some 0) (Some psep) libpath t;
  module_path_loop (S (S (length libpath))) hostsep name st p [] b t.

Fixpoint path_loop (fuel : nat) (name bootdrive : list Z) (st : tok)
    (p : option Z) (full : list Z) (b : list Z) (t : tok) : C outcome :=
  match fuel with
  | O => NoFuel
  | S fuel =>
      match p with
      | None => Ret (ERROR_FILE_NOT_FOUND, full, b, StrTokRestore st)
      | Some q =>
          c ← rd8 b q;
          if c =? 0 then
            '(p, b, t) ← StrTokenize None (Some psep) b t;
            path_loop fuel name bootdrive st p full b t
          else
            dir ← cstr (drop (Z.to_nat q) b);
            let dir := if bool_decide (dir = bstr ".") then bootdrive else dir in
            let full := dir ++ [backslash] ++ name in
            _ ← require (Z.of_nat (length full) <? path_cap);
            if loads full then
              '(b, t) ← StrTokStop b t;
              Ret (NO_ERROR, full, b, t)
            else
              '(p, b, t) ← StrTokenize None (Some psep) b t;
              path_loop fuel name bootdrive st p full b t
      end
  end.

(** The variable PATH is copied to a local array; without it the array is not
    initialised. *)
Definition find_path (st : cfg) (name : list Z) (t : tok) : C outcome :=
  '(rc, v) ← CfgGetenv st (bstr "PATH" ++ [0]) path_cap;
  match v with
  | None => Undef
  | Some path =>
      bootdrive ← deref (strings (options st) bootdrive);
      let st := StrTokSave t in
      '(p, b, t) ← StrTokenize (Some 0) (Some psep) (path ++ [0]) t;
      path_loop (S (S (length path))) name bootdrive st p [] b t
  end.
End search.

(** ** Parts of a path: proofs *)

Lemma last_pos_none c l : c ∉ l -> forall i e, last_pos c l i e = e.
Proof.
  induction l as [|x l IH]; intros Hc i e; [done|]. apply not_elem_of_cons in Hc as [Hx Hl].
  cbn [last_pos]. rewrite IH by done. by destruct (Z.eqb_spec x c).
Qed.

Lemma last_pos_some c p q : c ∉ q -> forall i e,
  last_pos c (p ++ c :: q) i e = i + Z.of_nat (length p).
Proof.
  intros Hq. induction p as [|x p IH]; intros i e; cbn [app last_pos length].
  - rewrite Z.eqb_refl, last_pos_none by done. lia.
  - rewrite IH. lia.
Qed.

Lemma get_name_last p q : backslash ∉ q -> get_name (p ++ backslash :: q) = q.
Proof.
  intros Hq. unfold get_name. rewrite last_pos_some by done.
  change (p ++ backslash :: q) with (p ++ [backslash] ++ q). rewrite app_assoc.
  replace (Z.to_nat _) with (length (p ++ [backslash]))
    by (rewrite length_app; cbn [length]; lia).
  apply drop_app_length.
Qed.

Lemma get_name_whole p : backslash ∉ p -> get_name p = p.
Proof. intros Hp. unfold get_name. by rewrite last_pos_none. Qed.

Definition drive_part (s_path : list Z) : list Z :=
  match s_path with
  | d :: c :: _ => if c =? ch ":"%char then [d; c] else []
  | _ => []
  end.

Lemma directory_shape s_path : s_path <> [] ->
  exists rest, s_path = drive_part s_path ++ rest /\
  get_directory s_path =
    let k := Z.of_nat (length (drive_part s_path)) in
    let e := last_pos backslash rest k 0 in
    if e =? 0 then Ret None else Ret (Some (take (Z.to_nat (e - k + 1)) rest)).
Proof.
  destruct s_path as [|d [|c l]]; [done|by exists [d]|]. intros _. unfold get_directory.
  change (rd8 ((d :: c :: l) ++ [0]) 1) with (Ret c). cbn [mbind C_bind drive_part].
  destruct (c =? ch ":"%char); by eexists.
Qed.

(** A path that has a directory is its drive, its directory with the last
    backslash, and its name, which has no backslash.  Without a directory the
    name is the whole path, drive included, or the path names a file of the
    root directory without a drive. *)
Theorem path_parts s_path :
  s_path <> [] -> backslash ∉ drive_part s_path ->
  (backslash ∉ get_name s_path) /\
  exists od, get_directory s_path = Ret od /\
    match od with
    | Some d => s_path = drive_part s_path ++ d ++ get_name s_path
    | None => get_name s_path = s_path \/ s_path = backslash :: get_name s_path
    end.
Proof.
  intros Hne Hd. destruct (directory_shape s_path Hne) as (rest & Es & Hdir).
  set (dr := drive_part s_path) in *. rewrite Hdir. cbv zeta.
  destruct (decide (backslash ∈ rest)) as [Hin|Hout].
  - apply list_elem_of_split_r in Hin as (p & q & -> & Hq).
    rewrite last_pos_some by done.
    assert (En : get_name s_path = q) by (rewrite Es, app_assoc; by apply get_name_last).
    rewrite En. split; [done|].
    destruct (Z.eqb_spec (Z.of_nat (length dr) + Z.of_nat (length p)) 0) as [E0|_].
    + exists None. split; [done|right]. etransitivity; [exact Es|].
      destruct dr; [|cbn in E0; lia]. by destruct p; [|cbn in E0; lia].
    + eexists. split; [done|]. cbv beta iota. etransitivity; [exact Es|]. f_equal.
      change (p ++ backslash :: q) with (p ++ [backslash] ++ q). rewrite app_assoc.
      replace (Z.to_nat _) with (length (p ++ [backslash]))
        by (rewrite length_app; cbn [length]; lia).
      by rewrite take_app_length.
  - assert (Hs : backslash ∉ s_path) by (rewrite Es; by apply not_elem_of_app).
    rewrite last_pos_none, get_name_whole by done. split; [done|]. exists None. by split; [|left].
Qed.

(** The module name of a file is everything up to its last dot: directories
    are kept. *)
Theorem get_fname_spec name ext :
  ch "."%char ∉ ext -> get_fname (name ++ ch "."%char :: ext) = name /\
  (ch "."%char ∉ name -> get_fname name = name).
Proof.
  intros He. unfold get_fname. split.
  - rewrite last_pos_some by done. destruct (Z.eqb_spec (0 + Z.of_nat (length name)) (-1)); [lia|].
    by rewrite Z.add_0_l, Nat2Z.id, take_app_length.
  - intros Hn. rewrite last_pos_none by done. change (-1 =? -1) with true. cbv iota.
    by rewrite Nat2Z.id, firstn_all.
Qed.

(** ** The searches: proofs *)

Definition semicolon : Z := ch ";"%char.

(** A list of directories as it is written in LIBPATH. *)
Fixpoint join (d : list Z) (ds : list (list Z)) : list Z :=
  match ds with
  | [] => d
  | d' :: ds => d ++ semicolon :: join d' ds
  end.

Definition dir_ok (d : list Z) : Prop := text d /\ semicolon ∉ d.

(** The array while the directory [d] is looked at: it is terminated there,
    and [next] is what the tokenizer remembers. *)
Definition cut (pre d : list Z) (ds : list (list Z)) : list Z :=
  match ds with
  | [] => pre ++ d ++ [0]
  | d' :: ds => pre ++ d ++ 0 :: join d' ds ++ [0]
  end.
Definition next (pre d : list Z) (ds : list (list Z)) : tok :=
  mkTok (Some (Z.of_nat (length (pre ++ d)))) (match ds with [] => 0 | _ => semicolon end).

Lemma scan_token token d x rest : Forall (fun c => is_delim token c = false) d ->
  is_delim token x = true -> forall pre fuel, (length d < fuel)%nat ->
  scan fuel token (pre ++ d ++ x :: rest) (Z.of_nat (length pre)) =
    Ret (Z.of_nat (length (pre ++ d))).
Proof.
  intros Hd Hx. induction Hd as [|c d Hc _ IH]; intros pre fuel Hf;
    (destruct fuel as [|fuel]; [cbn in Hf; lia|]); cbn [scan app].
  - rewrite rd8_pre by done. cbn [mbind C_bind]. by rewrite Hx, app_nil_r.
  - rewrite rd8_pre by done. cbn [mbind C_bind]. rewrite Hc.
    replace (Z.of_nat (length pre) + 1) with (Z.of_nat (length (pre ++ [c])))
      by (rewrite length_app; cbn [length]; lia).
    replace (pre ++ c :: d ++ x :: rest) with ((pre ++ [c]) ++ d ++ x :: rest)
      by (by rewrite <- app_assoc).
    rewrite IH by (cbn [length] in Hf; lia). by rewrite <- app_assoc.
Qed.

Lemma psep_delim c : is_delim psep c = (c =? 0) || (c =? semicolon).
Proof.
  unfold is_delim, psep. change (bstr ";") with [semicolon]. f_equal.
  destruct (Z.eqb_spec c semicolon) as [->|Hc].
  - apply bool_decide_eq_true. by left.
  - apply bool_decide_eq_false. by rewrite list_elem_of_singleton.
Qed.

Lemma dir_chars d : dir_ok d -> Forall (fun c => is_delim psep c = false) d.
Proof.
  intros [Ht Hs]. apply Forall_forall. intros c Hc. rewrite psep_delim.
  unfold text in Ht. rewrite Forall_forall in Ht. apply Ht in Hc as Hb.
  destruct (Z.eqb_spec c 0); [lia|]. by destruct (Z.eqb_spec c semicolon); [subst|].
Qed.

(** From the whole string, at [pre], the tokenizer cuts off the first
    directory. *)
Lemma tokenize_cut pre d ds t : dir_ok d ->
  tokenize_at (Z.of_nat (length pre)) (Some psep) (pre ++ join d ds ++ [0]) t =
    Ret (Some (Z.of_nat (length pre)), cut pre d ds, next pre d ds).
Proof.
  intros Hd. unfold tokenize_at.
  set (x := match ds with [] => 0 | _ => semicolon end).
  set (rest := match ds with [] => [] | d' :: ds => join d' ds ++ [0] end).
  assert (E : join d ds ++ [0] = d ++ x :: rest)
    by (unfold x, rest; destruct ds; [done|cbn [join]; by rewrite <- app_assoc]).
  rewrite E. change psep with [semicolon] at 1. cbv beta iota.
  assert (Hx : is_delim psep x = true).
  { rewrite psep_delim. unfold x. destruct ds; [done|]. by rewrite Z.eqb_refl, orb_true_r. }
  change [semicolon] with psep.
  rewrite (scan_token psep d x rest (dir_chars d Hd) Hx) by (rewrite !length_app; lia).
  cbn [mbind C_bind]. rewrite app_assoc, rd8_pre by done. cbn [mbind C_bind].
  rewrite wr8_pre by done. cbn [mbind C_bind]. unfold cut, next, x, rest.
  destruct ds; by rewrite <- app_assoc.
Qed.

(** The next token. *)
Lemma tokenize_next pre d ds : Forall dir_ok ds ->
  StrTokenize None (Some psep) (cut pre d ds) (next pre d ds) =
    match ds with
    | [] => Ret (None, pre ++ d ++ [0], mkTok None 0)
    | d' :: ds' =>
        let pre' := pre ++ d ++ [semicolon] in
        Ret (Some (Z.of_nat (length pre')), cut pre' d' ds', next pre' d' ds')
    end.
Proof.
  intros Hds. unfold StrTokenize, cut, next. cbn [nxtToken saved_ch].
  destruct ds as [|d' ds].
  - rewrite app_assoc, wr8_pre by done. reflexivity.
  - rewrite app_assoc, wr8_pre by done. cbn [mbind C_bind].
    change (semicolon =? 0) with false. cbv iota. inversion_clear Hds as [|? ? Hd' _].
    replace ((pre ++ d) ++ u8 semicolon :: join d' ds ++ [0])
      with ((pre ++ d ++ [semicolon]) ++ join d' ds ++ [0]) by (by rewrite <- !app_assoc).
    replace (Z.of_nat (length (pre ++ d)) + 1)
      with (Z.of_nat (length (pre ++ d ++ [semicolon])))
      by (rewrite !length_app; cbn [length]; lia).
    by apply tokenize_cut.
Qed.

Lemma tok_stop pre d ds :
  StrTokStop (cut pre d ds) (next pre d ds) =
    Ret (pre ++ join d ds ++ [0], mkTok None (saved_ch (next pre d ds))).
Proof.
  unfold StrTokStop, StrTokenize, cut, next. cbn [nxtToken saved_ch].
  destruct ds as [|d' ds]; rewrite app_assoc, wr8_pre by done; cbn [mbind C_bind].
  - change (0 =? 0) with true. cbn [join mbind C_bind]. by rewrite <- app_assoc.
  - change (semicolon =? 0) with false. cbn [tokenize_at mbind C_bind join].
    by rewrite <- !app_assoc.
Qed.

Lemma cut_shape pre d ds : exists rest, cut pre d ds = pre ++ d ++ 0 :: rest.
Proof. destruct ds; by eexists. Qed.

Lemma host_seps_id d rest : text d -> forall pre fuel, (length d < fuel)%nat ->
  host_seps fuel backslash (pre ++ d ++ 0 :: rest) (Z.of_nat (length pre)) =
    Ret (pre ++ d ++ 0 :: rest).
Proof.
  induction 1 as [|c d Hc _ IH]; intros pre fuel Hf;
    (destruct fuel as [|fuel]; [cbn in Hf; lia|]); cbn [host_seps app].
  - by rewrite rd8_pre.
  - rewrite rd8_pre by done. cbn [mbind C_bind]. destruct (Z.eqb_spec c 0); [lia|].
    assert (E : (if c =? backslash
                 then wr8 (pre ++ c :: d ++ 0 :: rest) (Z.of_nat (length pre)) backslash
                 else Ret (pre ++ c :: d ++ 0 :: rest)) = Ret (pre ++ c :: d ++ 0 :: rest)).
    { destruct (Z.eqb_spec c backslash) as [->|]; [|done]. by rewrite wr8_pre. }
    rewrite E. cbn [mbind C_bind].
    replace (Z.of_nat (length pre) + 1) with (Z.of_nat (length (pre ++ [c])))
      by (rewrite length_app; cbn [length]; lia).
    replace (pre ++ c :: d ++ 0 :: rest) with ((pre ++ [c]) ++ d ++ 0 :: rest)
      by (by rewrite <- app_assoc).
    rewrite IH; [done|]. cbn [length] in Hf. lia.
Qed.

(** The file that is tried in a directory, and the first one there is. *)
Definition module_file (name d : list Z) : list Z :=
  d ++ (if bool_decide (last d = Some backslash) then [] else [backslash]) ++ name.
Definition path_file (name bootdrive d : list Z) : list Z :=
  (if bool_decide (d = bstr ".") then bootdrive else d) ++ [backslash] ++ name.

Section searches.
Variable io_load_file : list Z -> option (list Z).
#[local] Abbreviation loads := (loads io_load_file).

Fixpoint first_file (file : list Z -> list Z) (ds : list (list Z)) : option (list Z) :=
  match ds with
  | [] => None
  | d :: ds =>
      if bool_decide (d <> []) && loads (file d) then Some (file d) else first_file file ds
  end.

(** What a search over the directories [d :: ds] behind [pre] returns. *)
Definition search_ok (file : list Z -> list Z) (pre d : list Z) (ds : list (list Z)) (st : tok)
    (r : C outcome) : Prop :=
  exists full t, r = Ret (match first_file file (d :: ds) with
                          | Some f => (NO_ERROR, f, pre ++ join d ds ++ [0], t)
                          | None => (ERROR_FILE_NOT_FOUND, full, pre ++ join d ds ++ [0], st)
                          end).

Definition fits (file : list Z -> list Z) (d : list Z) : Prop :=
  Z.of_nat (length (file d)) < path_cap.

Lemma last_byte pre d rest : d <> [] ->
  exists x, last d = Some x /\
  rd8 (pre ++ d ++ rest) (Z.of_nat (length pre) + Z.of_nat (length d) - 1) = Ret x.
Proof.
  intros Hd. destruct (exists_last Hd) as (d0 & x & ->). exists x. split; [by rewrite last_snoc|].
  rewrite <- app_assoc, app_assoc. cbn [app]. apply rd8_pre.
  rewrite !length_app. cbn [length]. lia.
Qed.

(** One directory: the name of the file that is tried, with which the turn of the
    loop goes on. *)
Lemma module_dir {A} (k : list Z -> list Z -> C A) name pre d ds : text d -> d <> [] ->
  Z.of_nat (length name) < file_cap -> fits (module_file name) d ->
  (b ← host_seps (S (length (cut pre d ds))) backslash (cut pre d ds) (Z.of_nat (length pre));
   dir ← cstr (drop (Z.to_nat (Z.of_nat (length pre))) b);
   l ← rd8 b (Z.of_nat (length pre) + Z.of_nat (length dir) - 1);
   let full := dir ++ (if l =? backslash then [] else [backslash]) ++ name in
   _ ← require (Z.of_nat (length full) <? path_cap);
   _ ← require (Z.of_nat (length name) <? file_cap);
   k b full) = k (cut pre d ds) (module_file name d).
Proof.
  intros Ht Hd Hn Hf. destruct (cut_shape pre d ds) as [rest ->].
  rewrite host_seps_id by (done || rewrite !length_app; lia). cbn [mbind C_bind].
  rewrite Nat2Z.id, drop_app_length, cstr_text by done. cbn [mbind C_bind].
  destruct (last_byte pre d (0 :: rest) Hd) as (x & Hl & ->). cbn [mbind C_bind].
  assert (E : d ++ (if x =? backslash then [] else [backslash]) ++ name = module_file name d).
  { unfold module_file. rewrite Hl. f_equal. destruct (Z.eqb_spec x backslash) as [->|Hx].
    - by rewrite bool_decide_eq_true_2.
    - rewrite bool_decide_eq_false_2; [done|]. congruence. }
  rewrite E. unfold fits in Hf.
  destruct (Z.ltb_spec (Z.of_nat (length (module_file name d))) path_cap); [|lia].
  destruct (Z.ltb_spec (Z.of_nat (length name)) file_cap); [|lia]. done.
Qed.

Lemma cut_byte pre d ds : text d ->
  exists c, rd8 (cut pre d ds) (Z.of_nat (length pre)) = Ret c /\
    (c =? 0) = bool_decide (d = []).
Proof.
  intros Ht. destruct (cut_shape pre d ds) as [rest ->]. destruct Ht as [|c d Hc _].
  - exists 0. split; [by apply rd8_pre|done].
  - exists c. split; [by apply rd8_pre|]. by destruct (Z.eqb_spec c 0); [lia|].
Qed.

(** One turn of either loop, for a directory. *)
Definition turn (loop : nat -> option Z -> list Z -> list Z -> tok -> C outcome)
    (file : list Z -> list Z) : Prop :=
  forall fuel pre d ds full, dir_ok d -> fits file d ->
  loop (S fuel) (Some (Z.of_nat (length pre))) full (cut pre d ds) (next pre d ds) =
    if bool_decide (d <> []) && loads (file d) then
      Ret (NO_ERROR, file d, pre ++ join d ds ++ [0], mkTok None (saved_ch (next pre d ds)))
    else
      '(p, b, t) ← StrTokenize None (Some psep) (cut pre d ds) (next pre d ds);
      loop fuel p (if bool_decide (d = []) then full else file d) b t.

Lemma module_turn name st : Z.of_nat (length name) < file_cap ->
  turn (fun fuel p full b t => module_path_loop io_load_file fuel backslash name st p full b t)
    (module_file name).
Proof.
  intros Hn fuel pre d ds full [Ht _] Hf. cbn [module_path_loop].
  destruct (cut_byte pre d ds Ht) as (c & -> & Ec). cbn [mbind C_bind]. rewrite Ec.
  destruct (decide (d = [])) as [->|Hd]; [done|].
  rewrite (bool_decide_eq_false_2 (d = [])), (bool_decide_eq_true_2 (d <> [])) by done.
  cbn [andb]. rewrite (module_dir (fun b full => if loads full then
      '(b, t) ← StrTokStop b (next pre d ds); Ret (NO_ERROR, full, b, t)
    else '(p, b, t) ← StrTokenize None (Some psep) b (next pre d ds);
      module_path_loop io_load_file fuel backslash name st p full b t)) by done.
  destruct (loads (module_file name d)); [|done]. by rewrite tok_stop.
Qed.

Lemma path_turn name bootdrive st :
  turn (fun fuel p full b t => path_loop io_load_file fuel name bootdrive st p full b t)
    (path_file name bootdrive).
Proof.
  intros fuel pre d ds full [Ht _] Hf. cbn [path_loop].
  destruct (cut_byte pre d ds Ht) as (c & -> & Ec). cbn [mbind C_bind]. rewrite Ec.
  destruct (decide (d = [])) as [->|Hd]; [done|].
  rewrite (bool_decide_eq_false_2 (d = [])), (bool_decide_eq_true_2 (d <> [])) by done.
  cbn [andb]. destruct (cut_shape pre d ds) as [rest Es]. rewrite Es, Nat2Z.id,
    drop_app_length, cstr_text by done. cbn [mbind C_bind]. fold (path_file name bootdrive d).
  unfold fits in Hf. rewrite <- Es.
  destruct (Z.ltb_spec (Z.of_nat (length (path_file name bootdrive d))) path_cap); [|lia].
  cbn [require mbind C_bind]. destruct (loads _); [|done]. by rewrite tok_stop.
Qed.

Lemma search_run loop file st ds :
  turn loop file ->
  (forall fuel full b t, loop (S fuel) None full b t = Ret (ERROR_FILE_NOT_FOUND, full, b, st)) ->
  forall pre d full fuel, Forall dir_ok (d :: ds) -> Forall (fits file) (d :: ds) ->
  (length ds + 2 <= fuel)%nat ->
  search_ok file pre d ds st
    (loop fuel (Some (Z.of_nat (length pre))) full (cut pre d ds) (next pre d ds)).
Proof.
  intros Hturn Hnone. induction ds as [|d' ds IH]; intros pre d full fuel Hok Hf Hfuel;
    (destruct fuel as [|fuel]; [cbn in Hfuel; lia|]);
    inversion_clear Hok as [|? ? Hd Hds]; inversion_clear Hf as [|? ? Hfd Hfds];
    rewrite Hturn by done; unfold search_ok; cbn [first_file];
    (destruct (bool_decide (d <> []) && loads (file d)); [exists full; by eexists|]);
    rewrite tokenize_next by done; cbn [mbind C_bind].
  - destruct fuel as [|fuel]; [cbn in Hfuel; lia|]. rewrite Hnone. by exists (if bool_decide
      (d = []) then full else file d), (mkTok None 0).
  - destruct (IH (pre ++ d ++ [semicolon]) d' (if bool_decide (d = []) then full else file d)
      fuel Hds Hfds ltac:(cbn [length] in Hfuel; lia)) as (full' & t' & E).
    exists full', t'. rewrite E. cbn [first_file join].
    destruct (bool_decide (d' <> []) && loads (file d')); [|destruct (first_file file ds)];
      by rewrite <- !app_assoc.
Qed.
End searches.

Lemma join_count d ds : (length ds <= length (join d ds))%nat.
Proof.
  revert d. induction ds as [|d' ds IH]; intros d; cbn [join length]; [lia|].
  rewrite length_app. cbn [length]. specialize (IH d'). lia.
Qed.

(** The search along LIBPATH finds the first of its directories (empty ones
    are passed over) with a file of that name, and reports
    ERROR_FILE_NOT_FOUND when there is none; the string with the directories is
    afterwards as it was, and the tokenizer is idle or in the state saved. *)
Theorem find_module_path_spec io_load_file name d ds t :
  Forall dir_ok (d :: ds) -> Z.of_nat (length name) < file_cap ->
  Forall (fits (module_file name)) (d :: ds) ->
  exists full t', find_module_path io_load_file backslash name (join d ds ++ [0]) t =
    Ret (match first_file io_load_file (module_file name) (d :: ds) with
         | Some f => (NO_ERROR, f, join d ds ++ [0], t')
         | None => (ERROR_FILE_NOT_FOUND, full, join d ds ++ [0], t)
         end).
Proof.
  intros Hok Hn Hf. unfold find_module_path, StrTokenize, StrTokSave.
  inversion_clear Hok as [|? ? Hd Hds].
  rewrite (tokenize_cut [] d ds t Hd : tokenize_at 0 _ (join d ds ++ [0]) t = _).
  cbn [mbind C_bind].
  apply (search_run io_load_file (fun fuel p full b t' =>
    module_path_loop io_load_file fuel backslash name t p full b t') (module_file name) t ds
    (module_turn io_load_file name t Hn) ltac:(done) [] d []); [by constructor|done|].
  rewrite length_app. cbn [length]. pose proof (join_count d ds). lia.
Qed.

(** The search along PATH finds the first of the directories of the variable
    with a file of that name; the current directory stands for the root of the
    boot drive.  When the variable is not set, an array is searched that was
    never written. *)
Theorem find_path_spec io_load_file st es name bd t :
  has_env st es -> Forall text es -> Forall (fun s => Z.of_nat (length s) < path_cap) es ->
  strings (options st) bootdrive = Str bd ->
  match env_lookup (bstr "PATH") es with
  | None => find_path io_load_file st name t = Undef
  | Some path => forall d ds, path = join d ds ->
      Forall dir_ok (d :: ds) -> Forall (fits (path_file name bd)) (d :: ds) ->
      exists full t', find_path io_load_file st name t =
        Ret (match first_file io_load_file (path_file name bd) (d :: ds) with
             | Some f => (NO_ERROR, f, join d ds ++ [0], t')
             | None => (ERROR_FILE_NOT_FOUND, full, join d ds ++ [0], t)
             end)
  end.
Proof.
  intros He Hte Hle Hbd. unfold find_path.
  change (bstr "PATH" ++ [0]) with (in_buffer (bstr "PATH") []).
  rewrite (getenv_spec st es) by done.
  destruct (env_lookup (bstr "PATH") es) as [path|]; [|done].
  intros d ds -> Hok Hf. rewrite Hbd. cbn [mbind C_bind deref].
  unfold StrTokenize, StrTokSave. inversion_clear Hok as [|? ? Hd Hds].
  rewrite (tokenize_cut [] d ds t Hd : tokenize_at 0 _ (join d ds ++ [0]) t = _).
  cbn [mbind C_bind].
  apply (search_run io_load_file (fun fuel p full b t' =>
    path_loop io_load_file fuel name bd t p full b t') (path_file name bd) t ds
    (path_turn io_load_file name bd t) ltac:(done) [] d []); [by constructor|done|].
  pose proof (join_count d ds). lia.
Qed.

(** ** Instances of the properties *)

Lemma path_parts_witness :
  (backslash ∉ get_name (bstr "C:\OS2\CMD.EXE")) /\
  exists od, get_directory (bstr "C:\OS2\CMD.EXE") = Ret od /\
    match od with
    | Some d => bstr "C:\OS2\CMD.EXE" = bstr "C:" ++ d ++ bstr "CMD.EXE"
    | None => get_name (bstr "C:\OS2\CMD.EXE") = bstr "C:\OS2\CMD.EXE" \/
              bstr "C:\OS2\CMD.EXE" = backslash :: bstr "CMD.EXE"
    end.
Proof.
  apply (path_parts (bstr "C:\OS2\CMD.EXE")); [done|].
  apply (bool_decide_unpack _). vm_compute. exact I.
Defined.

Lemma get_fname_spec_witness :
  get_fname (bstr "C:\OS2\CMD.EXE") = bstr "C:\OS2\CMD" /\
  (ch "."%char ∉ bstr "C:\OS2\CMD" -> get_fname (bstr "C:\OS2\CMD") = bstr "C:\OS2\CMD").
Proof.
  apply (get_fname_spec (bstr "C:\OS2\CMD") (bstr "EXE")).
  apply (bool_decide_unpack _). vm_compute. exact I.
Defined.

Definition demo_files (path : list Z) : option (list Z) :=
  if bool_decide (path = bstr "C:\OS2\DLL\NLS.DLL") then Some [] else None.

Lemma dir_check d : forallb (fun c => (0 <? c) && (c <? 256) && negb (c =? semicolon)) d = true ->
  dir_ok d.
Proof.
  rewrite forallb_forall. intros H. split.
  - apply text_check. apply forallb_forall. intros c Hc. specialize (H c Hc). blia.
  - intros Hin. apply list_elem_of_In in Hin. specialize (H _ Hin).
    rewrite Z.eqb_refl, andb_false_r in H. done.
Qed.

Lemma find_module_path_spec_witness :
  exists t', find_module_path demo_files backslash (bstr "NLS.DLL")
      (join (bstr "C:\") [[]; bstr "C:\OS2\DLL"] ++ [0]) (mkTok None 0) =
    Ret (NO_ERROR, bstr "C:\OS2\DLL\NLS.DLL",
         join (bstr "C:\") [[]; bstr "C:\OS2\DLL"] ++ [0], t').
Proof.
  destruct (find_module_path_spec demo_files (bstr "NLS.DLL") (bstr "C:\")
    [[]; bstr "C:\OS2\DLL"] (mkTok None 0)) as (full & t' & E).
  - repeat (apply Forall_cons; split); try apply Forall_nil_2; by apply dir_check.
  - reflexivity.
  - repeat (apply Forall_cons; split); try apply Forall_nil_2; reflexivity.
  - exists t'. exact E.
Defined.

Definition demo_cfg_path : cfg :=
  mkCfg [mkTypes CALL [] 30; mkTypes RUNSERVER [] 30; mkTypes RUN [] 30;
         mkTypes SET [mkName 1 (Str (bstr "PATH=.;C:\OS2\DLL"))] 150; mkTypes IXF [] 30]
    (set_string (options static_cfg) bootdrive (Str (bstr "C:"))).

Lemma find_path_spec_witness :
  exists t', find_path demo_files demo_cfg_path (bstr "NLS.DLL") (mkTok None 0) =
    Ret (NO_ERROR, bstr "C:\OS2\DLL\NLS.DLL", bstr ".;C:\OS2\DLL" ++ [0], t').
Proof.
  assert (E : exists full t', find_path demo_files demo_cfg_path (bstr "NLS.DLL") (mkTok None 0) =
    Ret (match first_file demo_files (path_file (bstr "NLS.DLL") (bstr "C:"))
                 [bstr "."; bstr "C:\OS2\DLL"] with
         | Some f => (NO_ERROR, f, bstr ".;C:\OS2\DLL" ++ [0], t')
         | None => (ERROR_FILE_NOT_FOUND, full, bstr ".;C:\OS2\DLL" ++ [0], mkTok None 0)
         end)).
  { apply (find_path_spec demo_files demo_cfg_path [bstr "PATH=.;C:\OS2\DLL"]
      (bstr "NLS.DLL") (bstr "C:") (mkTok None 0)) with (d := bstr ".") (ds := [bstr "C:\OS2\DLL"]).
    - by eexists.
    - apply Forall_singleton. by apply text_check.
    - by apply Forall_singleton.
    - reflexivity.
    - reflexivity.
    - repeat (apply Forall_cons; split); try apply Forall_nil_2; by apply dir_check.
    - repeat (apply Forall_cons; split); try apply Forall_nil_2; reflexivity. }
  destruct E as (full & t' & E). exists t'. exact E.
Defined.
