(* ===== verification/ModMgr.v ===== *)
(** * The module manager ([OS2/Server/shared/server/os2exec/modmgr.c] and [ixfmgr.c])

    The list of loaded modules, loading with all imported modules, linking of
    imports, and the lookup of entry points through forwarders.  The format of
    a file is found by trying handlers one after the other.  A module handle is
    the address of the structure; [modules] holds the structures that are
    allocated. *)
From S2P Require Import Prelude MemMgr CfgParser LxMod LxLoad PathSearch.

(** ** Names *)

Definition str_at (s : list Z) : Z := match s with [] => 0 | c :: _ => c end.

(** The arguments are the contents of the terminated strings. *)
Fixpoint stricmp (s t : list Z) : Z :=
  match s, t with
  | [], _ => 0 - tolower (str_at t)
  | c1 :: _, [] => tolower c1
  | c1 :: s, c2 :: t =>
      if tolower c1 =? tolower c2 then stricmp s t else tolower c1 - tolower c2
  end.

Fixpoint strnicmp (n : nat) (s t : list Z) : Z :=
  match n, s, t with
  | O, _, _ => 0
  | S _, [], _ => 0 - tolower (str_at t)
  | S _, c1 :: _, [] => tolower c1
  | S n, c1 :: s, c2 :: t =>
      if tolower c1 =? tolower c2 then strnicmp n s t else tolower c1 - tolower c2
  end.

(** ** The list of modules ([os3/modmgr.h])

    [struct module_rec]: a node of the list is its record and the records of
    the further instances, linked by [up]. *)
Definition LOADING : Z := 1.
Definition DONE_LOADING : Z := 0.

Record module_rec := mkRec {
  rec_addr : Z;
  mod_name : list Z;
  module_struct : Z;
  instance : Z;
  load_status : Z
}.
Record node := mkNode { first : module_rec; up : list module_rec }.

Definition last_instance (n : node) : module_rec := List.last (up n) (first n).

(** The search returns its code and the node. *)
Fixpoint getrec (mname : list Z) (l : list node) : Z * option node :=
  match l with
  | [] => (1, None)
  | n :: l =>
      if stricmp mname (mod_name (first n)) =? 0 then
        if load_status (first n) =? LOADING then (-1, None) else (0, Some n)
      else getrec mname l
  end.

Fixpoint getrec2 (hmod : Z) (l : list node) : Z * option node :=
  match l with
  | [] => (1, None)
  | n :: l =>
      if hmod =? rec_addr (first n) then
        if load_status (first n) =? LOADING then (-1, None) else (0, Some n)
      else getrec2 hmod l
  end.

Definition set_rec_status (a st : Z) (r : module_rec) : module_rec :=
  if rec_addr r =? a then mkRec (rec_addr r) (mod_name r) (module_struct r) (instance r) st
  else r.
(** [load_status] of the record at [a]. *)
Definition set_status (a st : Z) (l : list node) : list node :=
  (fun n => mkNode (set_rec_status a st (first n)) (set_rec_status a st <$> up n)) <$> l.

(** Append an instance to the node [getrec] finds. *)
Fixpoint add_instance (mname : list Z) (r : module_rec) (l : list node) : list node :=
  match l with
  | [] => []
  | n :: l =>
      if stricmp mname (mod_name (first n)) =? 0 then mkNode (first n) (up n ++ [r]) :: l
      else n :: add_instance mname r l
  end.

(** [new_addr] is the address of the new record; the result is the list. *)
Definition ModRegister (new_addr : Z) (name : list Z) (mod_struct : Z) (exeflag : bool)
    (l : list node) : list node :=
  match getrec name l with
  | (0, Some n) =>
      if exeflag then
        let k := instance (last_instance n) + 1 in
        add_instance name (mkRec new_addr name mod_struct k DONE_LOADING) l
      else l ++ [mkNode (mkRec new_addr name mod_struct 0 DONE_LOADING) []]
  | _ => l ++ [mkNode (mkRec new_addr name mod_struct 0 DONE_LOADING) []]
  end.

(** ** Executable formats (ixfmgr.c) *)

Record IXFHandler := mkHandler {
  Identify : list Z -> C Z;
  Load : list Z -> IXFModule -> registry -> mem -> C (Z * IXFModule * registry * mem);
  Fixup : LX_module -> mem -> C (Z * mem)
}.

(** The return code of the last handler tried, and the one that matched. *)
Fixpoint IXFIdentifyModule (hs : list IXFHandler) (addr : list Z) (rc : Z)
    : C (Z * option IXFHandler) :=
  match hs with
  | [] => Ret (rc, None)
  | h :: hs =>
      rc ← Identify h addr;
      if rc =? NO_ERROR then Ret (rc, Some h) else IXFIdentifyModule hs addr rc
  end.

(** A module structure: what the formats fill, and the fields of the module
    manager.  Without handler the function pointers are not initialised. *)
Record module := mkModule {
  mod_ixf : IXFModule;
  mod_handler : option IXFHandler;
  mod_file : list Z;
  mod_path : list Z;
  mod_exec : bool
}.
Definition set_ixf (m : module) (x : IXFModule) : module :=
  mkModule x (mod_handler m) (mod_file m) (mod_path m) (mod_exec m).

Record modmgr := mkMM {
  modules : gmap Z module;
  mlist : list node;
  root_area : registry;
  memory : mem;
  config : cfg;
  tokens : tok
}.
Definition set_modules' (s : modmgr) (ms : gmap Z module) : modmgr :=
  mkMM ms (mlist s) (root_area s) (memory s) (config s) (tokens s).
Definition set_mlist (s : modmgr) (l : list node) : modmgr :=
  mkMM (modules s) l (root_area s) (memory s) (config s) (tokens s).
Definition set_memory (s : modmgr) (r : registry) (m : mem) : modmgr :=
  mkMM (modules s) (mlist s) r m (config s) (tokens s).
Definition set_search (s : modmgr) (c : cfg) (t : tok) : modmgr :=
  mkMM (modules s) (mlist s) (root_area s) (memory s) c t.

Definition IXFLoadModule (h : Z) (s : modmgr) : C (Z * modmgr) :=
  m ← need (modules s !! h);
  f ← need (mod_handler m);
  '(rc, x, r, mm) ← Load f (mod_file m) (mod_ixf m) (root_area s) (memory s);
  Ret (rc, set_memory (set_modules' s (<[h := set_ixf m x]> (modules s))) r mm).

Definition IXFFixupModule (h : Z) (s : modmgr) : C (Z * modmgr) :=
  m ← need (modules s !! h);
  f ← need (mod_handler m);
  '(rc, mm) ← Fixup f (FormatStruct (mod_ixf m)) (memory s);
  Ret (rc, set_memory s (root_area s) mm).

Definition IXFFreeModule (h : Z) (s : modmgr) : Z * modmgr :=
  (NO_ERROR, set_modules' s (delete h (modules s))).

(** ** Entry points *)

(** The search by handle stops at the module itself. *)
Fixpoint find_handle (hmod : Z) (l : list node) : option Z :=
  match l with
  | [] => None
  | n :: l => if hmod =? module_struct (first n) then Some hmod else find_handle hmod l
  end.

(** The module a forwarder names: its handle, 0 when it is not in the list;
    [None] while it is being loaded. *)
Fixpoint find_forward (mname : list Z) (l : list node) : option Z :=
  match l with
  | [] => Some 0
  | n :: l =>
      if stricmp mname (mod_name (first n)) =? 0 then
        if load_status (first n) =? LOADING then None else Some (module_struct (first n))
      else find_forward mname l
  end.

(** [strcmp(FunctionName, pszName)] dereferences both. *)
Fixpoint find_by_name (pszName : option (list Z)) (es : list IXFMODULEENTRY)
    : C (option IXFMODULEENTRY) :=
  match es with
  | [] => Ret None
  | e :: es =>
      f ← need (FunctionName e);
      n ← need pszName;
      if bool_decide (f = n) then Ret (Some e) else find_by_name pszName es
  end.

(** The return code and what is stored at [ppfn], if anything.  Before a
    forwarder found by its ordinal is followed, the name of the entry after it
    is logged. *)
Fixpoint ModQueryProcAddr (fuel : nat) (ms : gmap Z module) (l : list node)
    (hmod ordinal : Z) (pszName : option (list Z)) : C (Z * option Z) :=
  match fuel with
  | O => NoFuel
  | S fuel =>
      let ixfModule := find_handle hmod l in
      let follow (e : IXFMODULEENTRY) (mn : list Z) :=
        match find_forward mn l with
        | None => Ret (5, None)
        | Some searched_hmod =>
            ModQueryProcAddr fuel ms l searched_hmod (u32 (Ordinal e)) (FunctionName e)
        end in
      h ← need ixfModule;
      m ← need (ms !! h);
      let es := Entries (mod_ixf m) in
      if 0 <? ordinal then
        e ← need (es !! Z.to_nat (ordinal - 1));
        match ModuleName e with
        | Some mn =>
            _ ← need (es !! Z.to_nat ordinal);
            follow e mn
        | None => Ret (0, Some (Address e))
        end
      else
        r ← find_by_name pszName es;
        match r with
        | None => Ret (0, None)
        | Some e =>
            match ModuleName e with
            | Some mn => follow e mn
            | None => Ret (0, Some (Address e))
            end
        end
  end.

(** ** Linking

    One import: its address is looked up and the displacement from the end of
    the word is stored at its source.  [None]: the loop is left because the
    module is still being loaded. *)
Definition link_import (fuel : nat) (ms : gmap Z module) (l : list node)
    (f : IXFFIXUPENTRY) (s : mem) : C (option (IXFFIXUPENTRY * mem)) :=
  let e := ImportEntry f in
  mn ← need (ModuleName e);
  match find_forward mn l with
  | None => Ret None
  | Some h =>
      _ ← require (existsb (fun n => stricmp mn (mod_name (first n)) =? 0) l);
      '(_, r) ← ModQueryProcAddr fuel ms l h (u32 (Ordinal e)) (FunctionName e);
      let addr := match r with Some a => a | None => Address e end in
      let relative_jmp := u32 (addr - SrcAddress f - 4) in
      s ← st32 s (SrcVmAddress f) relative_jmp;
      Ret (Some (mkFixupEntry (SrcAddress f) (SrcVmAddress f)
                   (mkEntry (FunctionName e) addr (ModuleName e) (Ordinal e)), s))
  end.

Fixpoint link_imports (fuel : nat) (ms : gmap Z module) (l : list node)
    (fs : list IXFFIXUPENTRY) (s : mem) : C (list IXFFIXUPENTRY * mem) :=
  match fs with
  | [] => Ret ([], s)
  | f :: fs =>
      r ← link_import fuel ms l f s;
      match r with
      | None => Ret (f :: fs, s)
      | Some (f, s) =>
          '(fs, s) ← link_imports fuel ms l fs s;
          Ret (f :: fs, s)
      end
  end.

Definition ModLinkModule (fuel : nat) (h : Z) (s : modmgr) : C modmgr :=
  m ← need (modules s !! h);
  '(fs, mm) ← link_imports fuel (modules s) (mlist s) (Fixups (mod_ixf m)) (memory s);
  let s := set_modules' s (<[h := set_ixf m (set_fixups (mod_ixf m) fs)]> (modules s)) in
  Ret (set_memory s (root_area s) mm).

(** ** Queries *)

Definition ERROR_INVALID_NAME : Z := 123.
Definition ERROR_BAD_LENGTH : Z := 24.
Definition ERROR_BUFFER_OVERFLOW : Z := 111.
Definition ERROR_MOD_NOT_FOUND : Z := 126.

(** The return code and the handle. *)
Definition ModQueryModuleHandle (pszModname : list Z) (l : list node) : Z * Z :=
  match getrec (get_fname pszModname) l with
  | (0, Some prev) => (NO_ERROR, module_struct (first prev))
  | _ => (ERROR_INVALID_NAME, 0)
  end.

(** The return code and what is stored at [pchName], if anything. *)
Definition ModQueryModuleName (hmod cbName : Z) (l : list node) : Z * option (list Z) :=
  match getrec2 hmod l with
  | (0, Some prev) =>
      let n := mod_name (first prev) in
      if cbName <? Z.of_nat (length n) + 1 then (ERROR_BAD_LENGTH, None)
      else (NO_ERROR, Some n)
  | _ => (ERROR_INVALID_HANDLE, Some [])
  end.

(** ** Opening and loading *)

(** The result of a call that loads: return code, the name put in the error
    buffer, the handle, and the state. *)
Definition loaded : Type := Z * list Z * Z * modmgr.

(** The error buffer holds [cbName] bytes. *)
Definition fail_with (cbName : Z) (pszName : list Z) (rc hmod : Z) (s : modmgr) : C loaded :=
  if cbName <=? Z.of_nat (length pszName) then Ret (ERROR_BUFFER_OVERFLOW, [], hmod, s)
  else Ret (rc, pszName, 0, s).

Section loading.
(** The file provider; copying a module for a further instance, which the host
    layer does; the handlers of formats; the addresses of new structures and
    records and the contents of a fresh structure. *)
Variable io_load_file : list Z -> option (list Z).
Variable ixfCopyModule : module -> module.
Variable IXFHandlers : list IXFHandler.
Variable new_module : gmap Z module -> Z.
Variable new_record : list node -> Z.
Variable blank : IXFModule.
Variable malloc_ok : bool.

(** Look for the file under the name itself, then along LIBPATH or PATH. *)
Definition open_file (pszModname : list Z) (exeflag : bool) (s : modmgr)
    : C (Z * list Z * modmgr) :=
  match io_load_file pszModname with
  | Some f => Ret (NO_ERROR, f, s)
  | None =>
      '(rc, full, s) ←
        (if exeflag then
           '(rc, full, _, t) ← find_path io_load_file (config s) pszModname (tokens s);
           Ret (rc, full, set_search s (config s) t)
         else
           lp ← deref (strings (options (config s)) libpath);
           '(rc, full, b, t) ←
             find_module_path io_load_file backslash pszModname (lp ++ [0]) (tokens s);
           lp ← cstr b;
           let c := mkCfg (type (config s))
                      (set_string (options (config s)) libpath (Str lp)) in
           Ret (rc, full, set_search s c t));
      if rc =? NO_ERROR then
        match io_load_file full with
        | Some f => Ret (NO_ERROR, f, s)
        | None => Ret (ERROR_FILE_NOT_FOUND, [], s)
        end
      else Ret (rc, [], s)
  end.

Definition OpenModule (cbName : Z) (pszModname : list Z) (exeflag : bool) (s : modmgr)
    : C loaded :=
  let mname := get_fname pszModname in
  let pszModname :=
    if negb exeflag && (stricmp mname (bstr "EMXWRAP") =? 0) then bstr "SUB32.DLL"
    else pszModname in
  let '(t, prev) := getrec mname (mlist s) in
  match t, prev, exeflag with
  | 0, Some prev, false => Ret (NO_ERROR, [], module_struct (first prev), s)
  | -1, _, _ => fail_with cbName mname ERROR_MOD_NOT_FOUND 0 s
  | _, _, _ =>
      '(rc, addr, s) ← open_file pszModname exeflag s;
      if negb (rc =? NO_ERROR) then fail_with cbName pszModname rc 0 s
      else if negb malloc_ok then Ret (ERROR_NOT_ENOUGH_MEMORY, [], 0, s)
      else
        let h := new_module (modules s) in
        match prev, exeflag with
        | Some prev, true =>
            m ← need (modules s !! module_struct (first prev));
            let s := set_modules' s (<[h := ixfCopyModule m]> (modules s)) in
            let l := ModRegister (new_record (mlist s)) mname h exeflag (mlist s) in
            Ret (NO_ERROR, [], h, set_mlist s l)
        | _, _ =>
            '(rc, handler) ← IXFIdentifyModule IXFHandlers addr 0;
            if negb (rc =? NO_ERROR) then
              fail_with cbName pszModname NO_ERROR 0 s
            else
              let m := mkModule blank handler addr pszModname exeflag in
              Ret (rc, [], h, set_modules' s (<[h := m]> (modules s)))
        end
  end.

Definition dll_name (n : list Z) : list Z := n ++ bstr ".dll".

(** The loop over the imported modules: [load] is the recursive call. *)
Fixpoint load_imports (load : Z -> modmgr -> C loaded) (h : Z) (exeflag : bool)
    (cbName : Z) (pszModname : list Z) (ns : list (list Z)) (s : modmgr)
    : C (option loaded * modmgr) :=
  match ns with
  | [] => Ret (None, s)
  | n :: ns =>
      _ ← require (Z.of_nat (length (dll_name n)) <? 1024);
      '(rc, s) ←
        (if (getrec n (mlist s)).1 =? 0 then Ret (NO_ERROR, s)
         else
           '(rc, _, hmod, s) ← OpenModule 260 (dll_name n) false s;
           if negb (rc =? NO_ERROR) then Ret (rc, s)
           else '(rc, _, _, s) ← load hmod s; Ret (rc, s));
      if negb (rc =? NO_ERROR) then Ret (Some (rc, [], h, s), s)
      else if exeflag then load_imports load h exeflag cbName pszModname ns s
      else
        '(rc, s) ← IXFFixupModule h s;
        if negb (rc =? NO_ERROR) then
          let s := (IXFFreeModule h s).2 in
          r ← fail_with cbName pszModname rc h s;
          Ret (Some r, s)
        else load_imports load h exeflag cbName pszModname ns s
  end.

Fixpoint LoadModule (fuel : nat) (cbName hmod : Z) (s : modmgr) : C loaded :=
  match fuel with
  | O => NoFuel
  | S fuel =>
      m ← need (modules s !! hmod);
      let pszModname := mod_path m in
      let exeflag := mod_exec m in
      let mname := get_fname pszModname in
      let '(t, prev) :=
        if stricmp mname (bstr "SUB32") =? 0 then getrec (bstr "EMXWRAP") (mlist s)
        else getrec mname (mlist s) in
      match prev with
      | Some prev =>
          if exeflag then
            let r := last_instance prev in
            Ret (0, [], module_struct r,
                 set_mlist s (set_status (rec_addr r) DONE_LOADING (mlist s)))
          else Ret (0, [], module_struct (first prev), s)
      | None =>
          '(rc, s) ← (if t =? 1 then IXFLoadModule hmod s else Ret (NO_ERROR, s));
          if negb (rc =? NO_ERROR) then
            fail_with cbName pszModname rc hmod (IXFFreeModule hmod s).2
          else
            let mname := if stricmp mname (bstr "SUB32") =? 0 then bstr "EMXWRAP" else mname in
            let a := new_record (mlist s) in
            let l := ModRegister a mname hmod exeflag (mlist s) in
            let s := set_mlist s (set_status a LOADING l) in
            m ← need (modules s !! hmod);
            '(r, s) ← load_imports (LoadModule fuel 260) hmod exeflag cbName pszModname
                        (Modules (mod_ixf m)) s;
            match r with
            | Some r => Ret r
            | None =>
                '(rc, s) ← (if exeflag then IXFFixupModule hmod s else Ret (NO_ERROR, s));
                if negb (rc =? NO_ERROR) then Ret (rc, [], hmod, s)
                else
                  s ← ModLinkModule fuel hmod s;
                  Ret (rc, [], hmod, set_mlist s (set_status a DONE_LOADING (mlist s)))
            end
      end
  end.

Definition load_named (fuel : nat) (cbName : Z) (pszModname : list Z) (exeflag : bool)
    (s : modmgr) : C loaded :=
  '(rc, err, hmod, s) ← OpenModule cbName pszModname exeflag s;
  if negb (rc =? NO_ERROR) then Ret (rc, err, hmod, s) else LoadModule fuel cbName hmod s.

Definition ModLoadModule (fuel : nat) (cbName : Z) (pszModname : list Z) (s : modmgr)
    : C loaded := load_named fuel cbName pszModname false s.
Definition ModLoadExeModule (fuel : nat) (cbName : Z) (pszModname : list Z) (s : modmgr)
    : C loaded := load_named fuel cbName pszModname true s.
End loading.

(** The handler for LX executables; [l4_alloc_mem] is the memory of the host. *)
Definition LX_handler (l4_alloc_mem : mem -> Z -> Z -> bool -> mem * Z) (malloc_ok : bool)
    : IXFHandler :=
  mkHandler LXIdentify (LXLoad l4_alloc_mem malloc_ok) LXFixup.

(** What the module manager needs of a format: the internal fixups can be
    applied again (they are, once for each imported module). *)
Class FormatLaws (f : IXFHandler) : Prop :=
  fixup_again x s rc s' : Fixup f x s = Ret (rc, s') -> Fixup f x s' = Ret (rc, s').

#[export] Instance LX_laws alloc malloc_ok : FormatLaws (LX_handler alloc malloc_ok).
Proof. intros x s rc s'. apply LXFixup_again. Qed.

(** ** Names: proofs *)

Definition lower (s : list Z) : list Z := tolower <$> s.

Lemma tolower_pos c : 0 < c -> 0 < tolower c.
Proof. unfold tolower. destruct ((65 <=? c) && (c <=? 90)); lia. Qed.

Lemma stricmp_zero s : text s -> forall t, text t -> (stricmp s t = 0 <-> lower s = lower t).
Proof.
  induction 1 as [|c s Hc Hs IH]; intros t Ht; destruct Ht as [|d t Hd Ht]; cbn [stricmp].
  - done.
  - cbn [str_at]. pose proof (tolower_pos d). split; [lia|done].
  - pose proof (tolower_pos c). split; [lia|done].
  - unfold lower in *. rewrite !fmap_cons. destruct (Z.eqb_spec (tolower c) (tolower d)) as [E|E].
    + rewrite IH by done. rewrite E. split; [by intros ->|by intros [= ->]].
    + split; [lia|congruence].
Qed.

Lemma stricmp_refl s : stricmp s s = 0.
Proof. induction s as [|c s IH]; [done|]. cbn [stricmp]. by rewrite Z.eqb_refl. Qed.

(** ** Entry points: proofs *)

Section proc_addr.
Variables (ms : gmap Z module) (l : list node).

(** What is asked for: the module's handle, the ordinal, the name. *)
Definition request : Type := Z * Z * option (list Z).

(** The first entry with the name; every entry before it has another one. *)
Definition first_named (n : list Z) (es : list IXFMODULEENTRY) (e : IXFMODULEENTRY) : Prop :=
  exists pre post, es = pre ++ e :: post /\ FunctionName e = Some n /\
    Forall (fun x => exists f, FunctionName x = Some f /\ f <> n) pre.
Definition not_named (n : option (list Z)) (es : list IXFMODULEENTRY) : Prop :=
  Forall (fun x => exists f k, FunctionName x = Some f /\ n = Some k /\ f <> k) es.

(** The handle is that of a module of the list, which has the entries [es]. *)
Definition entries_of (h : Z) (es : list IXFMODULEENTRY) : Prop :=
  (exists n, n ∈ l /\ module_struct (first n) = h) /\
  exists m, ms !! h = Some m /\ Entries (mod_ixf m) = es.

(** The entry that is asked for: by its ordinal, counted from 1, or by its name. *)
Definition asked (x : request) (e : IXFMODULEENTRY) : Prop :=
  let '(h, ordinal, nm) := x in
  exists es, entries_of h es /\
    if 0 <? ordinal then es !! Z.to_nat (ordinal - 1) = Some e
    else exists n, nm = Some n /\ first_named n es e.

(** Behind an entry that is asked for by its ordinal there is another one. *)
Definition not_last (x : request) : Prop :=
  let '(h, ordinal, _) := x in
  0 < ordinal -> exists es, entries_of h es /\ is_Some (es !! Z.to_nat ordinal).

(** A forwarder and what it leads to: an ordinal of another module or, when that is
    0, a name. *)
Definition hop (x y : request) : Prop :=
  exists e mn h, asked x e /\ not_last x /\ ModuleName e = Some mn /\
    find_forward mn l = Some h /\ y = (h, u32 (Ordinal e), FunctionName e).

(** What ends a chain: the address of an entry that is no forwarder, a forwarder to a
    module that is being loaded, a name that is not found. *)
Definition last_answer (x : request) (r : Z * option Z) : Prop :=
  (exists e, asked x e /\ ModuleName e = None /\ r = (0, Some (Address e))) \/
  (exists e mn, asked x e /\ not_last x /\ ModuleName e = Some mn /\
     find_forward mn l = None /\ r = (5, None)) \/
  (exists es, entries_of x.1.1 es /\ x.1.2 <= 0 /\ not_named x.2 es /\ r = (0, None)).

Lemma find_handle_some h : (exists n, n ∈ l /\ module_struct (first n) = h) ->
  find_handle h l = Some h.
Proof.
  intros (n & Hn & Hh). induction l as [|x l' IH]; [by apply elem_of_nil in Hn|]. cbn [find_handle].
  destruct (Z.eqb_spec h (module_struct (first x))); [done|].
  apply elem_of_cons in Hn as [->|Hn]; [congruence|by apply IH].
Qed.
Lemma find_handle_inv h h' : find_handle h l = Some h' ->
  h' = h /\ exists n, n ∈ l /\ module_struct (first n) = h.
Proof.
  induction l as [|x l' IH]; cbn [find_handle]; [done|].
  destruct (Z.eqb_spec h (module_struct (first x))) as [E|_].
  - intros [= <-]. split; [done|]. exists x. split; [by left|done].
  - intros (? & n & Hn & ?)%IH. split; [done|]. exists n. split; [by right|done].
Qed.

Lemma find_by_name_spec nm es r :
  find_by_name nm es = Ret r <->
  match r with
  | Some e => exists n, nm = Some n /\ first_named n es e
  | None => not_named nm es
  end.
Proof.
  revert r. induction es as [|x es IH]; intros r; cbn [find_by_name].
  - split.
    + intros [= <-]. constructor.
    + destruct r as [e|]; [|done]. intros (n & _ & [|] & post & E & _); done.
  - destruct (FunctionName x) as [f|] eqn:Ef; cbn [need mbind C_bind].
    2: { split; [done|]. destruct r as [e|].
      - intros (n & _ & [|y pre] & post & E & He & Hpre); injection E as -> ->; [congruence|].
        apply Forall_cons in Hpre as [(f & ? & _) _]. congruence.
      - intros [(f & k & ? & _) _]%Forall_cons. congruence. }
    destruct nm as [n|]; cbn [need mbind C_bind].
    2: { split; [done|]. destruct r as [e|].
      - by intros (n & ? & _).
      - intros [(? & k & _ & ? & _) _]%Forall_cons. done. }
    case_bool_decide as Hf.
    + subst f. split.
      * intros [= <-]. exists n. split; [done|]. by exists [], es.
      * destruct r as [e|].
        { intros (? & [= <-] & [|y pre] & post & E & He & Hpre); injection E as -> ->; [done|].
          apply Forall_cons in Hpre as [(f & ? & ?) _]. congruence. }
        intros [(f & k & ? & [= <-] & ?) _]%Forall_cons. congruence.
    + rewrite IH. destruct r as [e|].
      * split.
        { intros (? & [= <-] & pre & post & -> & He & Hpre). exists n. split; [done|].
          exists (x :: pre), post. split_and!; [done|done|]. constructor; [by exists f|done]. }
        intros (? & [= <-] & [|y pre] & post & E & He & Hpre); injection E as -> ->; [congruence|].
        exists n. split; [done|]. exists pre, post. apply Forall_cons in Hpre as [_ Hpre]. done.
      * split; [|by intros [_ H]%Forall_cons]. constructor; [by exists f, n|done].
Qed.

Lemma entries_unique h es es' : entries_of h es -> entries_of h es' -> es = es'.
Proof. intros [_ (m & Hm & <-)] [_ (m' & Hm' & <-)]. congruence. Qed.

Lemma asked_unique x e e' : asked x e -> asked x e' -> e = e'.
Proof.
  destruct x as [[h o] nm]. intros (es & He & Ha) (es' & He' & Ha').
  rewrite (entries_unique _ _ _ He' He) in Ha'. destruct (0 <? o); [congruence|].
  destruct Ha as (n & -> & Ha), Ha' as (? & [= <-] & Ha').
  assert (E : find_by_name (Some n) es = Ret (Some e)) by (apply find_by_name_spec; eauto).
  assert (E' : find_by_name (Some n) es = Ret (Some e')) by (apply find_by_name_spec; eauto).
  congruence.
Qed.

(** What is returned for a request: by the call itself or by that for the next one. *)
Definition outcome (fuel : nat) (x : request) (r : Z * option Z) : Prop :=
  last_answer x r \/ exists y, hop x y /\ ModQueryProcAddr fuel ms l y.1.1 y.1.2 y.2 = Ret r.

Lemma no_module fuel h ordinal nm r : (forall es, ~ entries_of h es) -> ~ outcome fuel (h, ordinal, nm) r.
Proof.
  intros Hn [[(e & (es & He & _) & _)|[(e & mn & (es & He & _) & _)|(es & He & _)]]|
    (y & (e & mn & h' & (es & He & _) & _) & _)]; by eapply Hn.
Qed.

Section one_module.
Variables (h : Z) (es : list IXFMODULEENTRY) (ordinal : Z) (nm : option (list Z)).
Hypothesis Hes : entries_of h es.
#[local] Abbreviation x := (h, ordinal, nm).

Lemma asked_iff e : asked x e <->
  (if 0 <? ordinal then es !! Z.to_nat (ordinal - 1) = Some e
   else exists n, nm = Some n /\ first_named n es e).
Proof using Hes.
  split; [|by exists es]. intros (es' & He' & Ha). by rewrite (entries_unique _ _ _ He' Hes) in Ha.
Qed.

Lemma not_last_iff : not_last x <-> (0 < ordinal -> is_Some (es !! Z.to_nat ordinal)).
Proof using Hes.
  split; intros H Ho; specialize (H Ho); [|by exists es]. destruct H as (es' & He' & H).
  by rewrite (entries_unique _ _ _ He' Hes) in H.
Qed.

Lemma asked_or_unknown e : asked x e -> ordinal <= 0 -> ~ not_named nm es.
Proof using Hes.
  intros He%asked_iff Ho Hno. destruct (Z.ltb_spec 0 ordinal); [lia|].
  apply (find_by_name_spec _ _ (Some e)) in He. apply (find_by_name_spec _ _ None) in Hno. congruence.
Qed.

(** The entry that is asked for decides. *)
Lemma entry_outcome fuel e r : asked x e ->
  (outcome fuel x r <->
   match ModuleName e with
   | Some mn => not_last x /\
       match find_forward mn l with
       | None => r = (5, None)
       | Some h' => ModQueryProcAddr fuel ms l h' (u32 (Ordinal e)) (FunctionName e) = Ret r
       end
   | None => r = (0, Some (Address e))
   end).
Proof using Hes.
  intros He. split.
  - intros [[(e' & He' & Hn & ->)|[(e' & mn & He' & Hl & Hn & Hf & ->)|(es' & He' & Ho & Hno & ->)]]|
      (y & (e' & mn & h2 & He' & Hl & Hn & Hf & ->) & Hr)];
      try rewrite <- (asked_unique _ _ _ He He') in *.
    + by rewrite Hn.
    + by rewrite Hn, Hf.
    + exfalso. cbn in Ho, Hno, He'. rewrite (entries_unique _ _ _ He' Hes) in Hno.
      by apply (asked_or_unknown e).
    + by rewrite Hn, Hf.
  - destruct (ModuleName e) as [mn|] eqn:Emn; [|intros ->; left; left; by exists e].
    intros [Hlast H]. destruct (find_forward mn l) as [h'|] eqn:Ef.
    + right. exists (h', u32 (Ordinal e), FunctionName e). split; [|done]. by exists e, mn, h'.
    + left. right. left. by exists e, mn.
Qed.

(** Without an entry only a name that none has is answered. *)
Lemma none_outcome fuel r : (forall e, ~ asked x e) ->
  (outcome fuel x r <-> ordinal <= 0 /\ not_named nm es /\ r = (0, None)).
Proof using Hes.
  intros Hno. split.
  - intros [[(e & He & _)|[(e & mn & He & _)|(es' & He' & Ho & Hn & ->)]]|(y & (e & mn & h' & He & _) & _)];
      try by apply Hno in He.
    cbn in Ho, Hn, He'. by rewrite (entries_unique _ _ _ He' Hes) in Hn.
  - intros (Ho & Hn & ->). left. right. right. by exists es.
Qed.
End one_module.

(** One call. *)
Lemma proc_addr_step fuel h ordinal nm r :
  ModQueryProcAddr (S fuel) ms l h ordinal nm = Ret r <-> outcome fuel (h, ordinal, nm) r.
Proof.
  cbn [ModQueryProcAddr].
  destruct (find_handle h l) as [h'|] eqn:Eh; cbn [need mbind C_bind].
  2: { split; [done|]. intros []%no_module. intros es [Hl%find_handle_some _]. congruence. }
  apply find_handle_inv in Eh as [-> Hin].
  destruct (ms !! h) as [m|] eqn:Em; cbn [need mbind C_bind].
  2: { split; [done|]. intros []%no_module. intros es [_ (m & ? & _)]. congruence. }
  assert (Hes : entries_of h (Entries (mod_ixf m))) by (split; [done|by exists m]).
  set (es := Entries (mod_ixf m)) in *. clearbody es.
  pose proof (asked_iff h es ordinal nm Hes) as Hask. pose proof (not_last_iff h es ordinal nm Hes) as Hnl.
  destruct (Z.ltb_spec 0 ordinal) as [Ho|Ho].
  - destruct (es !! Z.to_nat (ordinal - 1)) as [e|] eqn:Ee; cbn [need mbind C_bind].
    + rewrite (entry_outcome h es _ _ Hes fuel e) by by apply Hask.
      destruct (ModuleName e) as [mn|]; [|split; congruence].
      rewrite Hnl. destruct (es !! Z.to_nat ordinal) as [e2|]; cbn [need mbind C_bind].
      * destruct (find_forward mn l); [|split; [by intros [= <-]|by intros [_ ->]]].
        split; [intros H; split; [by eexists|done]|by intros [_ H]].
      * split; [done|]. intros [H _]. by destruct (H Ho).
    + rewrite none_outcome by (done || by intros e ?%Hask). split; [done|lia].
  - destruct (find_by_name nm es) as [[e|]| | |] eqn:Ef; cbn [mbind C_bind].
    { apply find_by_name_spec in Ef. rewrite (entry_outcome h es _ _ Hes fuel e) by by apply Hask.
      destruct (ModuleName e) as [mn|]; [|split; congruence]. rewrite Hnl.
      destruct (find_forward mn l); split; try by intros [_ H].
      - intros H. split; [lia|done].
      - intros [= <-]. split; [lia|done].
      - by intros [_ ->]. }
    all: rewrite none_outcome by (done || by intros e He%Hask%(find_by_name_spec _ _ (Some _)); congruence).
    all: rewrite <- (find_by_name_spec nm es None), Ef.
    all: split; [try done; by intros [= <-]|by intros (_ & [=] & ->)].
Qed.

(** C30: Which entry point a module has for an ordinal or a name.  The answer to a request is
    the one at the end of the chain of forwarders that begins with it: the address of an entry
    that is no forwarder, the code 5 when a forwarder names a module that is being loaded, no
    address for a name that no entry has.  There is an answer only if the chain ends, and
    every forwarder in it that is reached by its ordinal must not be the last entry of its
    module, as the code reads the entry behind it. *)
Theorem forwarder_chain fuel h ordinal nm r :
  ModQueryProcAddr fuel ms l h ordinal nm = Ret r <->
  exists n x, (n < fuel)%nat /\ nsteps hop n (h, ordinal, nm) x /\ last_answer x r.
Proof.
  revert h ordinal nm. induction fuel as [|fuel IH]; intros h ordinal nm.
  { split; [done|]. intros (n & x & ? & _). lia. }
  rewrite proc_addr_step. split.
  - intros [H|([[h' o'] nm'] & Hh & (n & x & Hn & Hs & Hx)%IH)].
    + exists 0%nat, (h, ordinal, nm). split_and!; [lia|constructor|done].
    + exists (S n), x. split_and!; [lia|by eapply nsteps_l|done].
  - intros (n & x & Hn & Hs & Hx). inversion Hs as [|n' ? [[h' o'] nm'] ? Hh Hs']; subst; [by left|].
    right. exists (h', o', nm'). split; [done|]. apply IH. exists n', x. split_and!; [lia|done|done].
Qed.

(** The call for a forwarder is the call for what it leads to. *)
Lemma hop_run fuel x y : hop x y ->
  ModQueryProcAddr (S fuel) ms l x.1.1 x.1.2 x.2 = ModQueryProcAddr fuel ms l y.1.1 y.1.2 y.2.
Proof.
  destruct x as [[h o] nm]. intros (e & mn & h' & (es & [Hl (m & Hm & He)] & Ha) & Hlast & Hn & Hf & ->).
  cbn [fst snd ModQueryProcAddr]. rewrite (find_handle_some h Hl). cbn [need mbind C_bind].
  rewrite Hm. cbn [need mbind C_bind]. rewrite He. destruct (Z.ltb_spec 0 o) as [Ho|Ho].
  - rewrite Ha. cbn [need mbind C_bind]. rewrite Hn.
    destruct (Hlast Ho) as (es' & He' & [e' E']).
    rewrite (entries_unique _ _ es He') in E' by (split; [done|by exists m]).
    rewrite E'. cbn [need mbind C_bind]. by rewrite Hf.
  - apply (find_by_name_spec _ _ (Some e)) in Ha. rewrite Ha. cbn [mbind C_bind]. by rewrite Hn, Hf.
Qed.

Lemma hops_nofuel n x y : nsteps hop n x y -> forall fuel, (fuel <= n)%nat ->
  ModQueryProcAddr fuel ms l x.1.1 x.1.2 x.2 = NoFuel.
Proof.
  induction 1 as [x|n x y z Hxy _ IH]; intros fuel Hf.
  - by assert (fuel = 0%nat) as -> by lia.
  - destruct fuel as [|fuel]; [done|]. rewrite (hop_run fuel x y Hxy). apply IH. lia.
Qed.
End proc_addr.

(** Forwarders that lead back to the entry they start from are followed for
    ever: no bound on the calls is enough. *)
Theorem forwarder_cycle ms l h ordinal nm fuel :
  tc (hop ms l) (h, ordinal, nm) (h, ordinal, nm) ->
  ModQueryProcAddr fuel ms l h ordinal nm = NoFuel.
Proof.
  intros Hc. assert (Hall : forall k, exists n, (k <= n)%nat /\
    nsteps (hop ms l) n (h, ordinal, nm) (h, ordinal, nm)).
  { apply tc_nsteps in Hc as (c & Hc0 & Hc). induction k as [|k (n & Hk & Hn)].
    - exists 0%nat. split; [lia|constructor].
    - exists (c + n)%nat. split; [lia|]. by eapply nsteps_trans. }
  destruct (Hall fuel) as (n & Hf & Hn).
  apply (hops_nofuel ms l n _ _ Hn fuel Hf).
Qed.

(** ** Linking: proofs *)

Lemma find_forward_exists mn l h : find_forward mn l = Some h -> h <> 0 ->
  existsb (fun n => stricmp mn (mod_name (first n)) =? 0) l = true.
Proof.
  induction l as [|n l IH]; cbn [find_forward existsb]; [congruence|].
  destruct (stricmp mn (mod_name (first n)) =? 0); [done|]. apply IH.
Qed.

(** The import [f] is found at address [a]. *)
Definition resolved (fuel : nat) (ms : gmap Z module) (l : list node) (f : IXFFIXUPENTRY)
    (a : Z) : Prop :=
  exists mn h, ModuleName (ImportEntry f) = Some mn /\ find_forward mn l = Some h /\ h <> 0 /\
    ModQueryProcAddr fuel ms l h (u32 (Ordinal (ImportEntry f))) (FunctionName (ImportEntry f)) =
      Ret (0, Some a).

Definition link_patch (f : IXFFIXUPENTRY) (a : Z) : Z * Z :=
  (SrcVmAddress f, u32 (a - SrcAddress f - 4)).
Definition link_patches (fs : list IXFFIXUPENTRY) (addrs : list Z) : list (Z * Z) :=
  zip_with link_patch fs addrs.
Definition set_address (f : IXFFIXUPENTRY) (a : Z) : IXFFIXUPENTRY :=
  let e := ImportEntry f in
  mkFixupEntry (SrcAddress f) (SrcVmAddress f)
    (mkEntry (FunctionName e) a (ModuleName e) (Ordinal e)).

Lemma link_imports_ok fuel ms l fs addrs : Forall2 (resolved fuel ms l) fs addrs -> forall s,
  link_imports fuel ms l fs s =
    s ← apply_patches (link_patches fs addrs) s; Ret (zip_with set_address fs addrs, s).
Proof.
  induction 1 as [|f a fs addrs (mn & h & Hmn & Hf & Hh & Hq) _ IH]; intros s; [done|].
  cbn [link_imports link_patches zip_with apply_patches link_patch]. unfold link_import.
  rewrite Hmn. cbn [need mbind C_bind]. rewrite Hf.
  rewrite (find_forward_exists _ _ _ Hf Hh). cbn [require mbind C_bind].
  rewrite Hq. cbn [mbind C_bind]. destruct (st32 _ _ _); try done. cbn [mbind C_bind].
  rewrite IH. unfold link_patches. destruct (apply_patches _ _); try done. cbn [mbind C_bind].
  unfold set_address. by rewrite Hmn.
Qed.

(** A displacement that is stored leads to the imported address. *)
Lemma links_stored fuel ms l fs addrs mm : Forall2 (resolved fuel ms l) fs addrs ->
  Forall (fun p => ld32 mm p.1 = Ret (u32 p.2)) (link_patches fs addrs) ->
  Forall2 (fun f a => exists w, ld32 mm (SrcVmAddress f) = Ret w /\
    u32 (SrcAddress f + 4 + w) = u32 a) fs addrs.
Proof.
  unfold link_patches. induction 1 as [|f a fs addrs _ _ IH]; intros Hl; [done|].
  inversion_clear Hl as [|? ? H1 H2]. constructor; [|by apply IH].
  exists (u32 (u32 (a - SrcAddress f - 4))). split; [exact H1|]. unfold u32. lia.
Qed.

(** C28: Linking a module whose imports are all found: the word at each source
    is the displacement that leads from the end of that word to the imported
    address, the addresses are kept in the table of fixups, and no other word
    of the memory changes. *)
Theorem link_module_spec fuel h s m addrs :
  modules s !! h = Some m ->
  Forall2 (resolved fuel (modules s) (mlist s)) (Fixups (mod_ixf m)) addrs ->
  let ps := link_patches (Fixups (mod_ixf m)) addrs in
  Forall (fun p => allocated (memory s) p.1 4) ps -> ForallOrdPairs word_apart ps ->
  exists s', ModLinkModule fuel h s = Ret s' /\ mlist s' = mlist s /\
    modules s' = <[h := set_ixf m (set_fixups (mod_ixf m)
                     (zip_with set_address (Fixups (mod_ixf m)) addrs))]> (modules s) /\
    Forall2 (fun f a => exists w, ld32 (memory s') (SrcVmAddress f) = Ret w /\
               u32 (SrcAddress f + 4 + w) = u32 a) (Fixups (mod_ixf m)) addrs /\
    (forall b, (forall p, p ∈ ps -> b + 4 <= p.1 \/ p.1 + 4 <= b) ->
       ld32 (memory s') b = ld32 (memory s) b).
Proof.
  intros Hm Hr ps Hal Hap.
  destruct (apply_patches_spec ps (memory s) Hal Hap) as (mm & E & Hl & Ho & _).
  unfold ModLinkModule. rewrite Hm. cbn [need mbind C_bind].
  rewrite (link_imports_ok _ _ _ _ _ Hr). fold ps. rewrite E. cbn [mbind C_bind].
  eexists. split; [done|]. split_and!; [done|done| |done].
  by apply (links_stored fuel (modules s) (mlist s)).
Qed.

(** ** Queries: proofs *)

Lemma getrec2_none h l : (forall n, n ∈ l -> rec_addr (first n) <> h) -> getrec2 h l = (1, None).
Proof.
  induction l as [|n l IH]; intros H; [done|]. cbn [getrec2].
  destruct (Z.eqb_spec h (rec_addr (first n))) as [->|_].
  - by destruct (H n ltac:(by left)).
  - apply IH. intros n' Hn'. apply H. by right.
Qed.

Lemma getrec_first mname l t p : getrec mname l = (t, Some p) ->
  t = 0 /\ stricmp mname (mod_name (first p)) = 0 /\ load_status (first p) <> LOADING.
Proof.
  induction l as [|n l IH]; cbn [getrec]; [done|].
  destruct (Z.eqb_spec (stricmp mname (mod_name (first n))) 0); [|apply IH].
  destruct (Z.eqb_spec (load_status (first n)) LOADING); [done|]. by intros [= <- <-].
Qed.

Lemma getrec_elem mname l t p : getrec mname l = (t, Some p) -> p ∈ l.
Proof.
  induction l as [|n l IH]; cbn [getrec]; [done|]. destruct (_ =? 0).
  - destruct (_ =? _); [done|]. intros [= _ <-]. by left.
  - intros H. right. by apply IH.
Qed.

(** The handle that is given for a loaded module is not accepted when its
    name is asked for: it is compared with the addresses of the records, of
    which none is the address of a module. *)
Theorem module_name_unavailable pszModname h cbName l :
  ModQueryModuleHandle pszModname l = (NO_ERROR, h) ->
  (forall n n', n ∈ l -> n' ∈ l -> rec_addr (first n) <> module_struct (first n')) ->
  ModQueryModuleName h cbName l = (ERROR_INVALID_HANDLE, Some []).
Proof.
  intros Hh Hd. unfold ModQueryModuleName. rewrite getrec2_none; [done|].
  intros n Hn. unfold ModQueryModuleHandle in Hh.
  destruct (getrec (get_fname pszModname) l) as [t [p|]] eqn:E; [|by destruct t].
  apply getrec_elem in E. destruct t; try done. injection Hh as <-. by apply Hd.
Qed.

(** ** Loading: proofs *)

(** The search depends on the name up to case. *)
Lemma getrec_lower a b l : text a -> text b -> lower a = lower b ->
  (forall n, n ∈ l -> text (mod_name (first n))) -> getrec a l = getrec b l.
Proof.
  intros Ha Hb Hab. induction l as [|n l IH]; intros Hl; [done|]. cbn [getrec].
  assert (E : (stricmp a (mod_name (first n)) =? 0) = (stricmp b (mod_name (first n)) =? 0)).
  { apply eq_true_iff_eq. rewrite !Z.eqb_eq, !stricmp_zero by (done || apply Hl; by left).
    by rewrite Hab. }
  rewrite E. destruct (stricmp b (mod_name (first n)) =? 0); [done|]. apply IH. intros n' Hn'. apply Hl. by right.
Qed.

Section load_proofs.
Variable io_load_file : list Z -> option (list Z).
Variable ixfCopyModule : module -> module.
Variable IXFHandlers : list IXFHandler.
Variable new_module : gmap Z module -> Z.
Variable new_record : list node -> Z.
Variable blank : IXFModule.
#[local] Abbreviation open_module :=
  (OpenModule io_load_file ixfCopyModule IXFHandlers new_module new_record blank true).
#[local] Abbreviation load_module :=
  (LoadModule io_load_file ixfCopyModule IXFHandlers new_module new_record blank true).
#[local] Abbreviation mod_load_module :=
  (ModLoadModule io_load_file ixfCopyModule IXFHandlers new_module new_record blank true).

(** A library that is loaded already is not loaded again: whatever the case
    of its name, the same handle is returned and nothing changes. *)
Theorem load_twice fuel cbName pszModname s n m :
  let mname := get_fname pszModname in
  getrec mname (mlist s) = (0, Some n) ->
  modules s !! module_struct (first n) = Some m -> mod_exec m = false ->
  text mname -> text (get_fname (mod_path m)) ->
  (forall n, n ∈ mlist s -> text (mod_name (first n))) ->
  lower (get_fname (mod_path m)) = lower (mod_name (first n)) ->
  stricmp (get_fname (mod_path m)) (bstr "SUB32") <> 0 ->
  mod_load_module (S fuel) cbName pszModname s = Ret (NO_ERROR, [], module_struct (first n), s).
Proof.
  intros mname Hg Hm Hx Ht Htp Hl Hp Hsub. unfold ModLoadModule, load_named.
  assert (HO : open_module cbName pszModname false s =
    Ret (NO_ERROR, [], module_struct (first n), s)).
  { unfold OpenModule. fold mname. by rewrite Hg. }
  rewrite HO. cbn [mbind C_bind]. cbn [LoadModule]. rewrite Hm. cbn [need mbind C_bind].
  destruct (Z.eqb_spec (stricmp (get_fname (mod_path m)) (bstr "SUB32")) 0); [done|].
  assert (E : getrec (get_fname (mod_path m)) (mlist s) = (0, Some n)).
  { rewrite <- Hg. apply getrec_lower; try done. rewrite Hp.
    pose proof (getrec_elem _ _ _ _ Hg) as Hin. apply getrec_first in Hg as (_ & Hz & _).
    symmetry. apply stricmp_zero; [done|by apply Hl|done]. }
  rewrite E, Hx. done.
Qed.

(** Loading a file by its own name. *)
Lemma open_direct cbName pszModname f s :
  io_load_file pszModname = Some f -> getrec (get_fname pszModname) (mlist s) = (1, None) ->
  stricmp (get_fname pszModname) (bstr "EMXWRAP") <> 0 ->
  open_module cbName pszModname false s =
    '(rc, handler) ← IXFIdentifyModule IXFHandlers f 0;
    if negb (rc =? NO_ERROR) then fail_with cbName pszModname NO_ERROR 0 s
    else Ret (rc, [], new_module (modules s),
      set_modules' s (<[new_module (modules s) := mkModule blank handler f pszModname false]>
        (modules s))).
Proof.
  intros Hf Hg He. unfold OpenModule. rewrite Hg. cbn [negb andb].
  destruct (Z.eqb_spec (stricmp (get_fname pszModname) (bstr "EMXWRAP")) 0); [done|].
  unfold open_file. by rewrite Hf.
Qed.

(** A file that no handler recognises is opened "without error" and with a
    null handle, and loading it then goes through that handle. *)
Theorem unidentified_file fuel cbName pszModname f rc s :
  io_load_file pszModname = Some f -> getrec (get_fname pszModname) (mlist s) = (1, None) ->
  stricmp (get_fname pszModname) (bstr "EMXWRAP") <> 0 ->
  IXFIdentifyModule IXFHandlers f 0 = Ret (rc, None) -> rc <> NO_ERROR ->
  Z.of_nat (length pszModname) < cbName -> modules s !! 0 = None ->
  open_module cbName pszModname false s = Ret (NO_ERROR, pszModname, 0, s) /\
  mod_load_module (S fuel) cbName pszModname s = Undef.
Proof.
  intros Hf Hg He Hi Hrc Hcb H0. pose proof (open_direct cbName _ _ _ Hf Hg He) as HO.
  rewrite Hi in HO. cbn [mbind C_bind] in HO.
  destruct (Z.eqb_spec rc NO_ERROR); [done|]. cbn [negb] in HO. unfold fail_with in HO.
  destruct (Z.leb_spec cbName (Z.of_nat (length pszModname))); [lia|]. split; [done|].
  unfold ModLoadModule, load_named. rewrite HO. cbn [mbind C_bind].
  change (negb (NO_ERROR =? NO_ERROR)) with false. cbv iota. cbn [LoadModule].
  by rewrite H0.
Qed.

(** A module that is being loaded (because its own imports are) is refused
    when one of them imports it: libraries that import each other cannot be
    loaded. *)
Theorem cyclic_import_refused cbName pszModname n s l1 l2 exeflag :
  mlist s = l1 ++ n :: l2 -> Forall (fun n' => stricmp (get_fname pszModname)
    (mod_name (first n')) <> 0) l1 ->
  stricmp (get_fname pszModname) (mod_name (first n)) = 0 ->
  load_status (first n) = LOADING ->
  Z.of_nat (length (get_fname pszModname)) < cbName ->
  open_module cbName pszModname exeflag s =
    Ret (ERROR_MOD_NOT_FOUND, get_fname pszModname, 0, s).
Proof.
  intros El H1 Hn Hst Hcb. unfold OpenModule.
  assert (E : getrec (get_fname pszModname) (mlist s) = (-1, None)).
  { rewrite El. clear - H1 Hn Hst. induction H1 as [|n' l1 Hn' _ IH]; cbn [app getrec].
    - rewrite Hn, Hst. done.
    - by destruct (Z.eqb_spec (stricmp (get_fname pszModname) (mod_name (first n'))) 0). }
  rewrite E. unfold fail_with.
  by destruct (Z.leb_spec cbName (Z.of_nat (length (get_fname pszModname)))); [lia|].
Qed.

(** *** A library whose imports are loaded *)

Lemma set_status_fresh a st l : (forall n, n ∈ l -> rec_addr (first n) <> a /\
    forall r, r ∈ up n -> rec_addr r <> a) -> set_status a st l = l.
Proof.
  intros H. unfold set_status. rewrite <- (list_fmap_id l) at 2.
  apply list_fmap_ext. intros i n Hi. apply list_elem_of_lookup_2 in Hi.
  destruct (H n Hi) as [H1 H2]. destruct n as [r rs]. cbn [first up id] in *.
  unfold set_rec_status at 1. destruct (Z.eqb_spec (rec_addr r) a); [done|]. f_equal.
  rewrite <- (list_fmap_id rs) at 2. apply list_fmap_ext. intros j r' Hj.
  apply list_elem_of_lookup_2, H2 in Hj. unfold set_rec_status.
  by destruct (Z.eqb_spec (rec_addr r') a).
Qed.

Lemma getrec_app mname l1 l2 :
  getrec mname (l1 ++ l2) = if (getrec mname l1).1 =? 1 then getrec mname l2 else getrec mname l1.
Proof.
  induction l1 as [|n l1 IH]; [done|]. cbn [app getrec].
  destruct (_ =? 0); [|done]. by destruct (_ =? LOADING).
Qed.

(** The internal fixups, applied when there are imports [ns]. *)
Definition fixed_up (f : IXFHandler) (x : LX_module) (ns : list (list Z)) (mm mm' : mem)
    : Prop :=
  match ns with [] => mm' = mm | _ => Fixup f x mm = Ret (NO_ERROR, mm') end.

Lemma load_imports_done load h cbName path ns m f `{!FormatLaws f} : forall s mm',
  modules s !! h = Some m -> mod_handler m = Some f ->
  Forall (fun n => (getrec n (mlist s)).1 = 0 /\ Z.of_nat (length (dll_name n)) < 1024) ns ->
  fixed_up f (FormatStruct (mod_ixf m)) ns (memory s) mm' ->
  load_imports io_load_file ixfCopyModule IXFHandlers new_module new_record blank true
    load h false cbName path ns s = Ret (None, set_memory s (root_area s) mm').
Proof.
  intros s mm' Hm Hf Hns. revert mm'. revert s Hm Hns.
  induction ns as [|n ns IH]; intros s Hm Hns mm' Hfix.
  - cbn in Hfix. subst. by destruct s.
  - inversion_clear Hns as [|? ? [Hg Hlen] Hns']. cbn [fixed_up] in Hfix.
    cbn [load_imports]. destruct (Z.ltb_spec (Z.of_nat (length (dll_name n))) 1024); [|lia].
    cbn [require mbind C_bind]. rewrite Hg. change (0 =? 0) with true. cbv iota.
    cbn [mbind C_bind]. change (negb (NO_ERROR =? NO_ERROR)) with false. cbv iota.
    unfold IXFFixupModule. rewrite Hm. cbn [need mbind C_bind]. rewrite Hf.
    cbn [need mbind C_bind]. rewrite Hfix. cbn [mbind C_bind].
    change (negb (NO_ERROR =? NO_ERROR)) with false. cbv iota.
    rewrite (IH (set_memory s (root_area s) mm') Hm Hns' mm'); [done|].
    destruct ns; [done|]. by apply fixup_again in Hfix.
Qed.

(** Loading a library all of whose imports are loaded, when the format's loader, the internal
    fixups (for a library without imports they are not applied) and the linking of the imports
    have the given results: the library is then found by its name with its handle. *)
Lemma load_library_run fuel cbName h s m f x r mm mm' mm'' fs `{!FormatLaws f} :
  let mname := get_fname (mod_path m) in
  let a := new_record (mlist s) in
  modules s !! h = Some m -> mod_exec m = false -> mod_handler m = Some f ->
  stricmp mname (bstr "SUB32") <> 0 -> getrec mname (mlist s) = (1, None) ->
  (forall n, n ∈ mlist s -> rec_addr (first n) <> a /\
     forall r, r ∈ up n -> rec_addr r <> a) ->
  Load f (mod_file m) (mod_ixf m) (root_area s) (memory s) = Ret (NO_ERROR, x, r, mm) ->
  Forall (fun n => (getrec n (mlist s)).1 = 0 /\ Z.of_nat (length (dll_name n)) < 1024)
    (Modules x) ->
  fixed_up f (FormatStruct x) (Modules x) mm mm' ->
  link_imports fuel (<[h := set_ixf m x]> (modules s))
    (mlist s ++ [mkNode (mkRec a mname h 0 LOADING) []]) (Fixups x) mm' = Ret (fs, mm'') ->
  exists s', load_module (S fuel) cbName h s = Ret (NO_ERROR, [], h, s') /\
    mlist s' = mlist s ++ [mkNode (mkRec a mname h 0 DONE_LOADING) []] /\
    getrec mname (mlist s') = (0, Some (mkNode (mkRec a mname h 0 DONE_LOADING) [])) /\
    memory s' = mm'' /\ modules s' = <[h := set_ixf m (set_fixups x fs)]> (modules s).
Proof.
  intros mname a Hm Hx Hf Hsub Hg Hfresh Hload Hns Hfix Hlink.
  cbn [LoadModule]. rewrite Hm. cbn [need mbind C_bind]. fold mname.
  destruct (Z.eqb_spec (stricmp mname (bstr "SUB32")) 0); [done|]. rewrite Hg.
  change (1 =? 1) with true. cbv iota. unfold IXFLoadModule. rewrite Hm.
  cbn [need mbind C_bind]. rewrite Hf. cbn [need mbind C_bind]. rewrite Hload. cbn [mbind C_bind].
  change (negb (NO_ERROR =? NO_ERROR)) with false. cbv iota.
  cbn [mlist set_memory set_modules' set_mlist modules]. fold a.
  set (nd st := mkNode (mkRec a mname h 0 st) []).
  change (mkNode (mkRec a mname h 0 LOADING) []) with (nd LOADING) in Hlink.
  assert (Hset : forall st st', set_status a st' (mlist s ++ [nd st]) = mlist s ++ [nd st']).
  { intros st st'. unfold set_status. rewrite fmap_app. f_equal.
    - by apply set_status_fresh.
    - cbn. unfold set_rec_status. cbn [rec_addr]. by rewrite Z.eqb_refl. }
  assert (Hreg : ModRegister a mname h (mod_exec m) (mlist s) = mlist s ++ [nd DONE_LOADING])
    by (unfold ModRegister; by rewrite Hg).
  rewrite Hreg, Hset, lookup_insert_eq. cbn [need mbind C_bind mod_ixf set_ixf]. rewrite Hx.
  set (s1 := mkMM (<[h := set_ixf m x]> (modules s)) (mlist s ++ [nd LOADING]) r mm
    (config s) (tokens s)).
  match goal with |- context [load_imports _ _ _ _ _ _ _ _ _ _ _ _ _ ?st] =>
    change st with s1 end.
  rewrite (load_imports_done _ h cbName (mod_path m) (Modules x) (set_ixf m x) f s1 mm');
    [|apply lookup_insert_eq|done| |done].
  2: { eapply Forall_impl; [exact Hns|]. intros nm [H1 H2]. split; [|done].
       unfold s1. cbn [mlist]. rewrite getrec_app, H1. done. }
  cbn [mbind C_bind]. change (negb (NO_ERROR =? NO_ERROR)) with false. cbv iota.
  unfold ModLinkModule, s1. cbn [modules set_memory]. rewrite lookup_insert_eq.
  cbn [need mbind C_bind mod_ixf set_ixf mlist memory set_memory].
  rewrite Hlink. cbn [mbind C_bind mlist set_memory set_modules' modules].
  rewrite Hset. eexists. split; [done|]. cbn [mlist set_mlist memory modules].
  split_and!; [done| |done|].
  - rewrite getrec_app, Hg. change ((1, @None node).1 =? 1) with true. cbv iota.
    cbn [getrec first mod_name nd]. by rewrite stricmp_refl.
  - by rewrite insert_insert_eq.
Qed.
End load_proofs.

(** ** Instances of the properties

    KAL exports a function, MSG forwards to it, A and B forward to each
    other. *)
Definition blank_ixf : IXFModule :=
  mkIxf (mkLX [] [] [] 0 [] 0 0) [] [] [] 0 0 false [] 0 0.
Definition with_entries (es : list IXFMODULEENTRY) (path : string) : module :=
  mkModule (set_entries blank_ixf es) None [] (bstr path) false.
Definition forward (n : string) (ord : Z) : IXFMODULEENTRY :=
  mkEntry None 0 (Some (bstr n)) ord.
Definition beep : IXFMODULEENTRY := mkEntry (Some (bstr "DosBeep")) 5000 None 1.

Definition demo_modules : gmap Z module :=
  <[1000 := with_entries [beep] "KAL"]> (<[2000 := with_entries [forward "kal" 1; no_entry] "msg.dll"]>
  (<[3000 := with_entries [forward "B" 1; no_entry] "A"]>
  (<[4000 := with_entries [forward "A" 1; no_entry] "B"]> ∅))).
Definition demo_node (a : Z) (n : string) (h : Z) : node :=
  mkNode (mkRec a (bstr n) h 0 DONE_LOADING) [].
Definition demo_list : list node :=
  [demo_node 10 "KAL" 1000; demo_node 20 "MSG" 2000; demo_node 30 "A" 3000;
   demo_node 40 "B" 4000].
Definition demo_mm : modmgr :=
  mkMM demo_modules demo_list init_memmgr demo_mem demo_cfg (mkTok None 0).

(** The forwarder of MSG leads to KAL, that of A to B and from there for ever. *)
Example demo_chain : ModQueryProcAddr 2 demo_modules demo_list 2000 1 None = Ret (0, Some 5000) /\
  ModQueryProcAddr 1 demo_modules demo_list 2000 1 None = NoFuel.
Proof. vm_compute. by split. Qed.

Lemma demo_hop x h' e mn es : entries_of demo_modules demo_list x.1.1 es -> x.1.2 = 1 ->
  es = [e; no_entry] -> ModuleName e = Some mn ->
  find_forward mn demo_list = Some h' -> hop demo_modules demo_list x (h', u32 (Ordinal e), FunctionName e).
Proof.
  destruct x as [[h o] nm]. cbn [fst snd]. intros Hes -> -> Hn Hf. exists e, mn, h'.
  split_and!; [by eexists| |done|done|done]. intros _. by exists [e; no_entry].
Qed.

Ltac demo_entries n := split; [exists n; split; [unfold demo_list; set_solver|reflexivity]|
  eexists; split; vm_compute; reflexivity].

Lemma forwarder_cycle_witness :
  ModQueryProcAddr 100 demo_modules demo_list 3000 1 None = NoFuel.
Proof.
  apply (forwarder_cycle demo_modules demo_list 3000 1 None 100).
  apply tc_l with (4000, 1, None); [|apply tc_once].
  - eapply (demo_hop (3000, 1, None) 4000 (forward "B" 1) (bstr "B")); [demo_entries (demo_node 30 "A" 3000)|done..|].
    vm_compute. reflexivity.
  - eapply (demo_hop (4000, 1, None) 3000 (forward "A" 1) (bstr "A")); [demo_entries (demo_node 40 "B" 4000)|done..|].
    vm_compute. reflexivity.
Qed.

Definition demo_import : IXFFIXUPENTRY :=
  mkFixupEntry 65536 4096 (mkEntry None 0 (Some (bstr "msg")) 1).
Definition demo_client : module :=
  mkModule (set_fixups blank_ixf [demo_import]) None [] (bstr "CLIENT.EXE") true.
Definition demo_linking : modmgr :=
  set_modules' demo_mm (<[5000 := demo_client]> demo_modules).

Lemma link_module_spec_witness :
  exists s', ModLinkModule 2 5000 demo_linking = Ret s' /\
    Forall2 (fun f a => exists w, ld32 (memory s') (SrcVmAddress f) = Ret w /\
               u32 (SrcAddress f + 4 + w) = u32 a) [demo_import] [5000].
Proof.
  destruct (link_module_spec 2 5000 demo_linking demo_client [5000]) as (s' & E & _ & _ & H & _).
  - vm_compute. reflexivity.
  - constructor; [|constructor]. exists (bstr "msg"), 2000.
    split_and!; [done|vm_compute; reflexivity|done|vm_compute; reflexivity].
  - apply Forall_singleton. apply demo_allocated; cbn; lia.
  - apply FOP_cons; [apply Forall_nil_2|apply FOP_nil].
  - exists s'. split; [exact E|exact H].
Defined.

Lemma module_name_unavailable_witness :
  ModQueryModuleName 2000 256 demo_list = (ERROR_INVALID_HANDLE, Some []).
Proof.
  apply (module_name_unavailable (bstr "msg.dll") 2000 256 demo_list);
    [vm_compute; reflexivity|].
  intros n n' Hn Hn'.
  repeat (apply elem_of_cons in Hn as [->|Hn]); [..|by apply elem_of_nil in Hn];
    repeat (apply elem_of_cons in Hn' as [->|Hn']); try (by apply elem_of_nil in Hn'); done.
Defined.

Definition demo_provider (path : list Z) : option (list Z) :=
  if bool_decide (path = bstr "readme.txt") then Some (bstr "text") else None.
Definition demo_new_module (ms : gmap Z module) : Z := 6000.
Definition demo_new_record (l : list node) : Z := 50.
Definition demo_alloc (s : mem) (base size : Z) (shared : bool) : mem * Z := (s, base).
Definition demo_handlers : list IXFHandler := [LX_handler demo_alloc true].

Lemma load_twice_witness :
  ModLoadModule demo_provider id demo_handlers demo_new_module demo_new_record blank_ixf true 1
    260 (bstr "Msg.dll") demo_mm = Ret (NO_ERROR, [], 2000, demo_mm).
Proof.
  apply (load_twice demo_provider id demo_handlers demo_new_module demo_new_record blank_ixf 0
    260 (bstr "Msg.dll") demo_mm (demo_node 20 "MSG" 2000)
    (with_entries [forward "kal" 1; no_entry] "msg.dll"));
    [vm_compute; reflexivity|vm_compute; reflexivity|reflexivity|by apply text_check
    |by apply text_check| |reflexivity|vm_compute; lia].
  intros n Hn. repeat (apply elem_of_cons in Hn as [->|Hn]; [by apply text_check|]).
  by apply elem_of_nil in Hn.
Defined.

Lemma unidentified_file_witness :
  OpenModule demo_provider id demo_handlers demo_new_module demo_new_record blank_ixf true
    260 (bstr "readme.txt") false demo_mm = Ret (NO_ERROR, bstr "readme.txt", 0, demo_mm) /\
  ModLoadModule demo_provider id demo_handlers demo_new_module demo_new_record blank_ixf true 1
    260 (bstr "readme.txt") demo_mm = Undef.
Proof.
  apply (unidentified_file demo_provider id demo_handlers demo_new_module demo_new_record
    blank_ixf 0 260 (bstr "readme.txt") (bstr "text") 11);
    [reflexivity|vm_compute; reflexivity|vm_compute; lia|vm_compute; reflexivity|done
    |reflexivity|vm_compute; reflexivity].
Defined.

Definition demo_loading : modmgr :=
  set_mlist demo_mm (demo_list ++ [mkNode (mkRec 50 (bstr "PMWIN") 6000 0 LOADING) []]).

Lemma cyclic_import_refused_witness :
  OpenModule demo_provider id demo_handlers demo_new_module demo_new_record blank_ixf true
    260 (bstr "pmwin.dll") false demo_loading =
    Ret (ERROR_MOD_NOT_FOUND, bstr "pmwin", 0, demo_loading).
Proof.
  apply (cyclic_import_refused demo_provider id demo_handlers demo_new_module demo_new_record
    blank_ixf 260 (bstr "pmwin.dll") (mkNode (mkRec 50 (bstr "PMWIN") 6000 0 LOADING) [])
    demo_loading demo_list []); [done| |reflexivity|reflexivity|reflexivity].
  repeat (apply Forall_cons; split); try apply Forall_nil_2; vm_compute; lia.
Defined.
