(* ===== verification/LxLibrary.v ===== *)
(** * Loading an LX library ([lib/ixf/lx/lx.c] and [loadobj.c], [server/os2exec/modmgr.c])

    The whole of loading a library: the LX loader of [LxLoad] reads the file, asks for
    memory for its objects, copies their pages to it and notes the places in its tables;
    the module manager of [ModMgr] applies the internal fixups and links the imports.  The
    definitions of the code are those of the other files; here are what a file of a library
    holds ([lx_library]), what becomes of it, and the proof from the bytes of the file to
    the memory and the list of modules. *)
From S2P Require Import Prelude MemMgr CfgParser LxFixup LxMod LxLoad PathSearch ModMgr.

(** ** What loading the objects changes in the tables

    Of the loader section only the fields [base] and [reserved] of the object records. *)

Section tables.
Variable n : Z.

(** The byte [j] of the loader section is in no such field of the first [n] records. *)
Definition kept_byte (j : Z) : Prop :=
  24 * n <= j \/ j mod 24 < 4 \/ 8 <= j mod 24 < 20.

Record tables_kept (m m' : LX_module) : Prop := {
  tk_head : lx_head_e32_exe m' = lx_head_e32_exe m;
  tk_fixups : fixup_section m' = fixup_section m;
  tk_stream : lx_file_stream m' = lx_file_stream m;
  tk_size : lx_stream_size m' = lx_stream_size m;
  tk_length : length (loader_section m') = length (loader_section m);
  tk_bytes j : 0 <= j -> kept_byte j -> rd8 (loader_section m') j = rd8 (loader_section m) j
}.

Lemma tables_refl m : tables_kept m m.
Proof. done. Qed.
Lemma tables_trans m1 m2 m3 : tables_kept m1 m2 -> tables_kept m2 m3 -> tables_kept m1 m3.
Proof.
  intros [] []. split; try congruence. intros j Hj Hk. rewrite tk_bytes1, tk_bytes0 by done. done.
Qed.
Lemma kept_pos m m' p : tables_kept m m' -> tables_kept m (set_pos m' p).
Proof. by intros []. Qed.

Lemma rd32_bytes b b' p : 0 <= p -> (forall j, p <= j < p + 4 -> rd8 b' j = rd8 b j) -> rd32 b' p = rd32 b p.
Proof. intros Hp H. unfold rd32. by rewrite !H by lia. Qed.
Lemma rd16_bytes b b' p : 0 <= p -> (forall j, p <= j < p + 2 -> rd8 b' j = rd8 b j) -> rd16 b' p = rd16 b p.
Proof. intros Hp H. unfold rd16. by rewrite !H by lia. Qed.

Lemma rd8_beyond b j : ~ (0 <= j < Z.of_nat (length b)) -> rd8 b j = Undef.
Proof.
  intros H. unfold rd8. destruct (Z.leb_spec 0 j); [|done].
  by rewrite (proj2 (lookup_ge_None b (Z.to_nat j))) by lia.
Qed.

(** Writing a word. *)
Lemma wr8_rest b i v b' : wr8 b i v = Ret b' -> length b' = length b /\
  0 <= i < Z.of_nat (length b) /\ forall j, rd8 b' j = if j =? i then Ret (u8 v) else rd8 b j.
Proof.
  unfold wr8. destruct (Z.leb_spec 0 i); [|done]. destruct (Z.ltb_spec i (Z.of_nat (length b))); [|done].
  cbn [andb]. intros [= <-]. rewrite length_insert. split; [done|]. split; [lia|]. intros j. unfold rd8.
  destruct (Z.eqb_spec j i) as [->|Hne].
  - destruct (Z.leb_spec 0 i); [|lia]. by rewrite list_lookup_insert_eq by lia.
  - destruct (Z.leb_spec 0 j); [|done]. by rewrite list_lookup_insert_ne by lia.
Qed.

Lemma wr32_ok b p v : 0 <= p -> p + 4 <= Z.of_nat (length b) -> is_u32 v -> exists b',
  wr32 b p v = Ret b' /\ length b' = length b /\ rd32 b' p = Ret v /\
  forall j, ~ (p <= j < p + 4) -> rd8 b' j = rd8 b j.
Proof.
  intros Hp Hl Hv. assert (W : forall b i x, 0 <= i < Z.of_nat (length b) -> exists b', wr8 b i x = Ret b').
  { intros c i x Hi. unfold wr8. destruct (Z.leb_spec 0 i), (Z.ltb_spec i (Z.of_nat (length c))); try lia. by eexists. }
  unfold wr32. destruct (W b p v) as [b1 E1]; [lia|]. destruct (wr8_rest _ _ _ _ E1) as (L1 & _ & R1).
  destruct (W b1 (p + 1) (v / 256)) as [b2 E2]; [lia|]. destruct (wr8_rest _ _ _ _ E2) as (L2 & _ & R2).
  destruct (W b2 (p + 2) (v / 65536)) as [b3 E3]; [lia|]. destruct (wr8_rest _ _ _ _ E3) as (L3 & _ & R3).
  destruct (W b3 (p + 3) (v / 16777216)) as [b4 E4]; [lia|]. destruct (wr8_rest _ _ _ _ E4) as (L4 & _ & R4).
  exists b4. rewrite E1. cbn [mbind C_bind]. rewrite E2. cbn [mbind C_bind]. rewrite E3. cbn [mbind C_bind].
  split; [done|]. split; [lia|]. split.
  - unfold rd32. rewrite !R4, !R3, !R2, !R1.
    repeat match goal with |- context [?x =? ?y] => destruct (Z.eqb_spec x y); try lia end.
    cbn [mbind C_bind mret C_ret]. f_equal. rewrite le32_split. by apply u32_id.
  - intros j Hj. rewrite R4, R3, R2, R1.
    repeat match goal with |- context [?x =? ?y] => destruct (Z.eqb_spec x y); try lia end. done.
Qed.

Lemma rd32_total b p : 0 <= p -> p + 4 <= Z.of_nat (length b) -> exists v, rd32 b p = Ret v.
Proof.
  intros Hp Hl. assert (R : forall j, p <= j < p + 4 -> exists c, rd8 b j = Ret c).
  { intros j Hj. unfold rd8. destruct (Z.leb_spec 0 j); [|lia].
    destruct (lookup_lt_is_Some_2 b (Z.to_nat j)) as [c Hc]; [lia|]. rewrite Hc. by exists c. }
  unfold rd32. destruct (R p) as [c0 ->]; [lia|]. destruct (R (p + 1)) as [c1 ->]; [lia|].
  destruct (R (p + 2)) as [c2 ->]; [lia|]. destruct (R (p + 3)) as [c3 ->]; [lia|]. by eexists.
Qed.

(** Reading what is kept. *)
Lemma kept_rd32 m m' p : tables_kept m m' -> 0 <= p -> (forall j, p <= j < p + 4 -> kept_byte j) ->
  rd32 (loader_section m') p = rd32 (loader_section m) p.
Proof. intros K Hp H. apply rd32_bytes; [done|]. intros j Hj. apply (tk_bytes _ _ K); [lia|by apply H]. Qed.

Lemma kept_field m m' off : tables_kept m m' -> e32_field off m' = e32_field off m.
Proof. intros K. unfold e32_field. by rewrite (tk_head _ _ K). Qed.

Lemma kept_object m m' k off : tables_kept m m' -> 0 <= k -> off = 0 \/ off = 12 \/ off = 16 ->
  rd32 (loader_section m') (24 * k + off) = rd32 (loader_section m) (24 * k + off).
Proof.
  intros K Hk Hoff. apply kept_rd32; [done|lia|]. intros j Hj. right.
  assert (j mod 24 = j - 24 * k) as -> by (symmetry; apply (Z.mod_unique_pos _ _ k); lia). lia.
Qed.

Lemma kept_bytes_at m m' p l : tables_kept m m' -> 24 * n <= p ->
  bytes_at (loader_section m) p l -> bytes_at (loader_section m') p l.
Proof.
  intros K Hp (pre & post & E & ->).
  assert (El : forall j, 24 * n <= j -> 0 <= j -> rd8 (loader_section m') j = rd8 (loader_section m) j).
  { intros j H1 H2. apply (tk_bytes _ _ K); [done|by left]. }
  exists (take (length pre) (loader_section m')), (drop (length pre + length l) (loader_section m')).
  pose proof (tk_length _ _ K) as Hl. rewrite E, !length_app in Hl. split; [|rewrite length_take; lia].
  apply list_eq. intros i. destruct (Nat.lt_ge_cases i (length pre)) as [Hi|Hi].
  { rewrite lookup_app_l by (rewrite length_take; lia). by rewrite lookup_take_lt. }
  rewrite lookup_app_r by (rewrite length_take; lia). rewrite length_take, Nat.min_l by lia.
  destruct (Nat.lt_ge_cases i (length pre + length l)) as [Hi'|Hi'].
  - rewrite lookup_app_l by lia. specialize (El (Z.of_nat i) ltac:(lia) ltac:(lia)). rewrite E in El.
    unfold rd8 in El. destruct (Z.leb_spec 0 (Z.of_nat i)); [|lia]. rewrite Nat2Z.id in El.
    rewrite lookup_app_r in El by lia. rewrite lookup_app_l in El by lia.
    destruct (loader_section m' !! i) eqn:E1, (l !! (i - length pre)%nat) eqn:E2; cbn in El; congruence.
  - rewrite lookup_app_r by lia. rewrite lookup_drop. f_equal. lia.
Qed.

Lemma kept_pages m m' pages : tables_kept m m' -> forall nr, pages_at m nr pages -> pages_at m' nr pages.
Proof.
  intros K. induction pages as [|fs pages IH]; intros nr; [done|]. intros [(offs & q & H1 & H2 & H3 & H4) [H5 H6]].
  split; [|split; [done|by apply IH]]. exists offs, q. unfold get_fixup_pg_tbl_offs, get_fixup_rec_tbl_obj in *.
  unfold e32_frectab, e32_fpagetab in *. rewrite !(kept_field m m'), !(tk_fixups _ _ K) by done. done.
Qed.

Lemma kept_data m m' shift datapage datas : tables_kept m m' -> forall nr,
  (forall t, get_obj_map m nr = Ret t -> 24 * n <= t) ->
  page_data_at m nr shift datapage datas -> page_data_at m' nr shift datapage datas.
Proof.
  intros K. assert (Hm : forall nr, get_obj_map m' nr = get_obj_map m nr).
  { intros nr. unfold get_obj_map, get_obj_page_tbl, e32_objmap. by rewrite (kept_field m m'). }
  induction datas as [|d datas IH]; intros nr Hnr; [done|]. intros [(t & off & H1 & H2 & H3 & H4 & H5 & H6) H7].
  specialize (Hnr t H1) as Ht. split.
  - exists t, off. rewrite Hm, (tk_stream _ _ K). split; [done|]. split; [|split; [|done]].
    + rewrite <- H2. unfold o32_pagedataoffset. destruct (Z.leb_spec 0 t).
      * apply kept_rd32; [done|done|]. intros j Hj. left. lia.
      * unfold rd32, rd8. by destruct (Z.leb_spec 0 t); [lia|].
    + rewrite <- H3. unfold o32_pagesize. destruct (Z.leb_spec 0 (t + 4)).
      * apply rd16_bytes; [done|]. intros j Hj. apply (tk_bytes _ _ K); [lia|left; lia].
      * unfold rd16, rd8. by destruct (Z.leb_spec 0 (t + 4)); [lia|].
  - apply IH; [|done]. intros t' Ht'. unfold get_obj_map in *. destruct (get_obj_page_tbl m); try done.
    cbn [mbind C_bind] in *. injection H1 as <-. injection Ht' as <-. lia.
Qed.
End tables.

(** ** Loading the objects *)

(** An object of a library: its size, the address it was linked for, its first page,
    and of its pages the fixups and the bytes. *)
Record lx_object := mkLxObject {
  lo_size : Z;
  lo_base : Z;
  lo_start : Z;
  lo_pages : list (list fixup);
  lo_datas : list (list Z)
}.

(** Bytes written one after the other. *)
Fixpoint write_bytes (s : mem) (a : Z) (l : list Z) : mem :=
  match l with [] => s | c :: l => write_bytes (<[a := c]> s) (a + 1) l end.

Lemma write_bytes_lookup l : forall s a i, write_bytes s a l !! i =
  if (a <=? i) && (i <? a + Z.of_nat (length l)) then l !! Z.to_nat (i - a) else s !! i.
Proof.
  induction l as [|c l IH]; intros s a i; cbn [write_bytes length].
  { destruct (Z.leb_spec a i), (Z.ltb_spec i (a + Z.of_nat 0)); cbn [andb]; try done. lia. }
  rewrite IH. destruct (Z.leb_spec (a + 1) i), (Z.ltb_spec i (a + 1 + Z.of_nat (length l))),
    (Z.leb_spec a i), (Z.ltb_spec i (a + Z.of_nat (S (length l)))); cbn [andb]; try lia.
  - replace (Z.to_nat (i - a)) with (S (Z.to_nat (i - (a + 1)))) by lia. done.
  - rewrite lookup_insert_ne by lia. done.
  - assert (i = a) as -> by lia. rewrite Z.sub_diag. by rewrite lookup_insert_eq.
  - rewrite lookup_insert_ne by lia. done.
Qed.

Lemma write_bytes_unique s s' a l : mem_at s' a l -> upd_in a (Z.of_nat (length l)) s s' ->
  s' = write_bytes s a l.
Proof.
  intros M [U _]. apply map_eq. intros i. rewrite write_bytes_lookup.
  destruct (Z.leb_spec a i), (Z.ltb_spec i (a + Z.of_nat (length l))); cbn [andb]; try (apply U; lia).
  destruct (lookup_lt_is_Some_2 l (Z.to_nat (i - a))) as [c Hc]; [lia|]. rewrite Hc.
  specialize (M _ _ Hc). by replace (a + Z.of_nat (Z.to_nat (i - a))) with i in M by lia.
Qed.

Section objects.
Variable l4_alloc_mem : mem -> Z -> Z -> bool -> mem * Z.

(** The places the host gives to the objects of a library, one after the other, and the
    memory with their bytes. *)
Fixpoint place_objects (os : list lx_object) (s : mem) : list Z * mem :=
  match os with
  | [] => ([], s)
  | o :: os =>
      let '(s, a) := l4_alloc_mem s (lo_base o) (lo_size o) true in
      let '(places, s) := place_objects os (write_bytes s a (mjoin (lo_datas o))) in
      (a :: places, s)
  end.

(** The host has memory for them. *)
Fixpoint places_ok (os : list lx_object) (s : mem) : Prop :=
  match os with
  | [] => True
  | o :: os =>
      let '(s, a) := l4_alloc_mem s (lo_base o) (lo_size o) true in
      let l := mjoin (lo_datas o) in
      0 <= a /\ a + Z.of_nat (length l) <= 2 ^ 31 /\ allocated s a (Z.of_nat (length l)) /\
      places_ok os (write_bytes s a l)
  end.

(** The object with number [i], counted from 1, in the tables of the file. *)
Record lx_object_at (m : LX_module) (shift datapage : Z) (i : Z) (o : lx_object) : Prop := {
  loa_size : o32_size m (get_obj m i) = Ret (lo_size o);
  loa_base : o32_base m (get_obj m i) = Ret (lo_base o);
  loa_map : o32_pagemap m (get_obj m i) = Ret (lo_start o);
  loa_count : o32_mapsize m (get_obj m i) = Ret (Z.of_nat (length (lo_pages o)));
  loa_datas : length (lo_datas o) = length (lo_pages o);
  loa_range : 1 <= lo_start o /\ lo_start o + Z.of_nat (length (lo_pages o)) < 2 ^ 31;
  loa_pages : pages_at m (lo_start o) (lo_pages o);
  loa_data : page_data_at m (lo_start o) shift datapage (lo_datas o)
}.

(** What is relied on of the tables of the file [m]. *)
Record lx_tables (m : LX_module) (shift datapage : Z) (os : list lx_object) : Prop := {
  lt_head : Z.of_nat (length (lx_head_e32_exe m)) = sizeof_e32_exe;
  lt_count : get_obj_num m = Ret (Z.of_nat (length os));
  lt_room : 24 * Z.of_nat (length os) <= Z.of_nat (length (loader_section m));
  lt_shift : get_e32_pageshift m = Ret shift;
  lt_shift_range : 0 <= shift < 32;
  lt_datapage : get_e32_datapage m = Ret datapage;
  lt_stream : lx_stream_size m = Z.of_nat (length (lx_file_stream m));
  lt_table : exists t, get_obj_page_tbl m = Ret t /\ 24 * Z.of_nat (length os) <= t;
  lt_objects i o : os !! i = Some o -> lx_object_at m shift datapage (Z.of_nat i + 1) o
}.

Context (m : LX_module) (shift datapage : Z) (os : list lx_object).
Context (Ht : lx_tables m shift datapage os).
#[local] Abbreviation n := (Z.of_nat (length os)).
#[local] Abbreviation kept := (tables_kept n).

(** The tables when the first objects are at [places]. *)
Record placed (places : list Z) (m' : LX_module) : Prop := {
  pl_kept : kept m m';
  pl_done k a : places !! k = Some a -> rd32 (loader_section m') (24 * Z.of_nat k + 4) = Ret a /\
    rd32 (loader_section m') (24 * Z.of_nat k + 20) = Ret a;
  pl_todo k : Z.of_nat (length places) <= k < n ->
    rd32 (loader_section m') (24 * k + 4) = rd32 (loader_section m) (24 * k + 4)
}.

Lemma placed_nil : placed [] m.
Proof. split; [apply tables_refl|done|done]. Qed.
Lemma placed_pos places m' p : placed places m' -> placed places (set_pos m' p).
Proof. intros [K D T]. split; [by apply kept_pos|done|done]. Qed.

(** The place of the next object is written into its record, twice. *)
Lemma placed_next places m' a : placed places m' -> Z.of_nat (length places) < n -> is_u32 a ->
  let p := get_obj m (Z.of_nat (length places) + 1) in
  exists m1 m2, set_o32 20 m' p a = Ret m1 /\ o32_reserved m1 p = Ret a /\ set_o32 4 m1 p a = Ret m2 /\
    placed (places ++ [a]) m2.
Proof.
  intros [K D T] Hk Ha p. set (k := Z.of_nat (length places)) in *.
  assert (Hp : p = 24 * k) by (unfold p, get_obj, sizeof_o32_obj; lia). clearbody p. subst p.
  pose proof (lt_room _ _ _ _ Ht) as Hroom. pose proof (tk_length _ _ _ K) as Hlen.
  destruct (wr32_ok (loader_section m') (24 * k + 20) a) as (b1 & W1 & L1 & R1 & B1); [lia|lia|done|].
  destruct (wr32_ok b1 (24 * k + 4) a) as (b2 & W2 & L2 & R2 & B2); [lia|lia|done|].
  exists (set_loader m' b1), (set_loader (set_loader m' b1) b2).
  unfold set_o32, o32_reserved. cbn [loader_section set_loader]. rewrite W1, W2. cbn [mbind C_bind].
  split; [done|]. split; [done|]. split; [done|].
  assert (R3 : rd32 b2 (24 * k + 20) = Ret a).
  { rewrite <- R1. apply rd32_bytes; [lia|]. intros j Hj. apply B2. lia. }
  assert (Hsame : forall j, ~ (24 * k + 4 <= j < 24 * k + 8) -> ~ (24 * k + 20 <= j < 24 * k + 24) ->
    rd8 b2 j = rd8 (loader_section m') j).
  { intros j H1 H2. rewrite B2, B1 by lia. done. }
  split.
  - eapply tables_trans; [exact K|]. split; cbn [lx_head_e32_exe fixup_section lx_file_stream lx_stream_size
      loader_section set_loader]; [done..|congruence|].
    intros j Hj Hkept.
    assert (Hmod : 24 * k <= j < 24 * k + 24 -> j mod 24 = j - 24 * k)
      by (intros; symmetry; apply (Z.mod_unique_pos _ _ k); lia).
    unfold kept_byte in Hkept. apply Hsame; lia.
  - cbn [loader_section set_loader]. intros i x Hx. destruct (decide (i = length places)) as [->|Hne].
    + rewrite list_lookup_middle in Hx by done. injection Hx as <-. done.
    + pose proof (lookup_lt_Some _ _ _ Hx) as Hi. rewrite length_app in Hi. cbn in Hi.
      rewrite lookup_app_l in Hx by lia. destruct (D i x Hx) as [D1 D2].
      split; [rewrite <- D1|rewrite <- D2]; (apply rd32_bytes; [lia|]; intros j Hj; apply Hsame; lia).
  - cbn [loader_section set_loader]. rewrite length_app. cbn [length]. intros i Hi. rewrite <- (T i) by lia.
    apply rd32_bytes; [lia|]. intros j Hj. apply Hsame; lia.
Qed.

Lemma head_field m' off : kept m m' -> 0 <= off <= 192 -> exists v, e32_field off m' = Ret v.
Proof using Ht.
  clear l4_alloc_mem.
  intros K Ho. rewrite (kept_field n m m' off K). apply rd32_total; [lia|].
  rewrite (lt_head _ _ _ _ Ht). unfold sizeof_e32_exe. lia.
Qed.

(** The fields of the record of an object that is not placed yet. *)
Lemma object_fields places m' o : placed places m' -> os !! length places = Some o ->
  let p := get_obj m (Z.of_nat (length places) + 1) in
  o32_size m' p = Ret (lo_size o) /\ o32_base m' p = Ret (lo_base o).
Proof.
  intros [K D T] Ho p. pose proof (lookup_lt_Some _ _ _ Ho) as Hi.
  destruct (lt_objects _ _ _ _ Ht _ _ Ho) as [Hs Hb _ _ _ _ _ _]. rewrite <- Hs, <- Hb.
  unfold o32_size, o32_base, get_obj, sizeof_o32_obj in *. subst p.
  replace (24 * (Z.of_nat (length places) + 1 - 1)) with (24 * Z.of_nat (length places)) by lia. split.
  - pose proof (kept_object n m m' (Z.of_nat (length places)) 0 K) as H. rewrite Z.add_0_r in H. apply H; lia.
  - apply T. lia.
Qed.

(** The pages of an object, also when it is placed. *)
Lemma object_tables m' i o : kept m m' -> os !! i = Some o ->
  o32_pagemap m' (get_obj m (Z.of_nat i + 1)) = Ret (lo_start o) /\
  o32_mapsize m' (get_obj m (Z.of_nat i + 1)) = Ret (Z.of_nat (length (lo_pages o))) /\
  pages_at m' (lo_start o) (lo_pages o) /\ page_data_at m' (lo_start o) shift datapage (lo_datas o).
Proof using Ht.
  clear l4_alloc_mem.
  intros K Ho. destruct (lt_objects _ _ _ _ Ht _ _ Ho) as [_ _ Hm Hc _ Hr Hp Hd].
  unfold o32_pagemap, o32_mapsize, get_obj, sizeof_o32_obj in *.
  replace (24 * (Z.of_nat i + 1 - 1)) with (24 * Z.of_nat i) in * by lia.
  split; [rewrite <- Hm; apply (kept_object n); [done|lia|auto]|].
  split; [rewrite <- Hc; apply (kept_object n); [done|lia|auto]|].
  split; [by apply (kept_pages n m)|].
  apply (kept_data n m); [done| |done]. intros t Et. destruct (lt_table _ _ _ _ Ht) as (tb & Etb & Htb).
  unfold get_obj_map in Et. rewrite Etb in Et. injection Et as <-. lia.
Qed.

(** What loading an object leaves of the module but its tables and sections. *)
Definition same_module (x x' : IXFModule) (places : list (Z * Z)) : Prop :=
  Modules x' = Modules x /\ PIC x' = PIC x /\
  ((fun s => (sec_addr s, sec_size s)) <$> seclist x') =
    ((fun s => (sec_addr s, sec_size s)) <$> seclist x) ++ places.

Lemma alloc_object x places o s s1 a : placed places (FormatStruct x) -> PIC x = true ->
  os !! length places = Some o -> l4_alloc_mem s (lo_base o) (lo_size o) true = (s1, a) ->
  exists x', vm_alloc_obj_lx l4_alloc_mem true x (get_obj m (Z.of_nat (length places) + 1)) s = Ret (a, x', s1) /\
    FormatStruct x' = FormatStruct x /\ same_module x x' [(a, lo_size o)].
Proof.
  intros P Hpic Ho Ea. pose proof (pl_kept _ _ P) as K. destruct (object_fields _ _ _ P Ho) as [Es Eb].
  unfold vm_alloc_obj_lx. rewrite Es, Eb.
  assert (C : exists c, get_code (FormatStruct x) = Ret c).
  { unfold get_code, e32_startobj. destruct (head_field (FormatStruct x) 24 K) as [v ->]; [lia|]. by eexists. }
  assert (D : exists c, get_data_stack (FormatStruct x) = Ret c).
  { unfold get_data_stack, get_obj_num, e32_stackobj, e32_objcnt.
    destruct (head_field (FormatStruct x) 32 K) as [v ->]; [lia|].
    destruct (head_field (FormatStruct x) 68 K) as [v' ->]; [lia|]. by eexists. }
  destruct C as [c ->], D as [d ->]. cbn [mbind C_bind]. rewrite Hpic, Ea.
  destruct (head_field (FormatStruct x) 36 K) as [esp Eesp]; [lia|].
  destruct (head_field (FormatStruct x) 172 K) as [sz Esz]; [lia|].
  destruct (head_field (FormatStruct x) 28 K) as [eip Eeip]; [lia|].
  unfold get_esp, get_eip, e32_esp, e32_eip, e32_stacksize. rewrite Eesp, Esz, Eeip.
  destruct (bool_decide (d = _)), (bool_decide (c = _)); cbn [mbind C_bind alloc require];
    (eexists; split; [cbn [PIC set_stack set_entrypoint]; rewrite ?Hpic; reflexivity|]; split; [done|];
     split; [done|]; split; [done|]; cbn [seclist add_section set_stack set_entrypoint];
     rewrite fmap_app; done).
Qed.

Lemma same_trans x1 x2 x3 l1 l2 : same_module x1 x2 l1 -> same_module x2 x3 l2 -> same_module x1 x3 (l1 ++ l2).
Proof. intros (H1 & H2 & H3) (G1 & G2 & G3). split_and!; [congruence..|]. by rewrite G3, H3, app_assoc. Qed.

(** One object: its place is noted and its bytes are there. *)
Lemma load_one x places o r s s1 a : placed places (FormatStruct x) -> PIC x = true ->
  os !! length places = Some o -> l4_alloc_mem s (lo_base o) (lo_size o) true = (s1, a) ->
  0 <= a -> a + Z.of_nat (length (mjoin (lo_datas o))) <= 2 ^ 31 ->
  allocated s1 a (Z.of_nat (length (mjoin (lo_datas o)))) ->
  exists x' r', load_object l4_alloc_mem true x (get_obj (FormatStruct x) (Z.of_nat (length places) + 1)) r s =
      Ret (true, x', r', write_bytes s1 a (mjoin (lo_datas o))) /\
    placed (places ++ [a]) (FormatStruct x') /\ same_module x x' [(a, lo_size o)].
Proof.
  intros P Hpic Ho Ea Ha Hlt Hal. pose proof (lookup_lt_Some _ _ _ Ho) as Hi.
  destruct (alloc_object _ _ _ _ _ _ P Hpic Ho Ea) as (x1 & E1 & F1 & S1).
  unfold load_object. change (get_obj (FormatStruct x)) with (get_obj m). rewrite E1. cbn [mbind C_bind].
  destruct (placed_next _ _ a P) as (m1 & m2 & W1 & R1 & W2 & P2); [lia|unfold is_u32; lia|].
  rewrite F1, W1. cbn [mbind C_bind]. destruct S1 as (Hm1 & Hp1 & Hs1). rewrite Hp1, Hpic, R1. cbn [mbind C_bind].
  rewrite W2. cbn [mbind C_bind].
  pose proof (pl_kept _ _ P2) as K2. set (p := get_obj m (Z.of_nat (length places) + 1)) in *.
  assert (Hp : p = 24 * Z.of_nat (length places)) by (unfold p, get_obj, sizeof_o32_obj; lia).
  assert (Er : o32_reserved m2 p = Ret a).
  { unfold o32_reserved. rewrite Hp. apply (pl_done _ _ P2 (length places)). by rewrite list_lookup_middle. }
  destruct (object_tables m2 _ o K2 Ho) as (Em & Ec & Hpages & Hdata).
  destruct (lt_objects _ _ _ _ Ht _ _ Ho) as [Hsz _ _ _ Hdl Hrange _ _].
  assert (Es : o32_size m2 p = Ret (lo_size o)).
  { rewrite <- Hsz. unfold o32_size. fold p. rewrite Hp. pose proof (kept_object n m m2 (Z.of_nat (length places)) 0 K2) as H.
    rewrite Z.add_0_r in H. apply H; lia. }
  rewrite Er, Es. cbn [mbind C_bind]. destruct (Z.eqb_spec a MAP_FAILED) as [E|_]; [unfold MAP_FAILED in E; lia|].
  assert (Eop : object_pages m2 p = Ret (lo_start o, length (lo_datas o))).
  { unfold object_pages, p. rewrite Em, Ec. cbn [mbind C_bind]. rewrite !s32_small by lia. do 2 f_equal. lia. }
  destruct (load_obj_spec m2 p (lo_start o) (lo_datas o) shift datapage a s1) as (pos & s' & El & M & U); try done.
  - unfold get_e32_pageshift, e32_pageshift. rewrite (kept_field n m m2 44 K2). apply (lt_shift _ _ _ _ Ht).
  - unfold get_e32_datapage, e32_datapage. rewrite (kept_field n m m2 128 K2). apply (lt_datapage _ _ _ _ Ht).
  - apply (lt_shift_range _ _ _ _ Ht).
  - rewrite (tk_size _ _ _ K2), (tk_stream _ _ _ K2). apply (lt_stream _ _ _ _ Ht).
  - rewrite El. cbn [mbind C_bind]. rewrite <- (write_bytes_unique s1 s' a _ M U). eexists _, _. split; [done|].
    cbn [FormatStruct set_format]. split; [by apply placed_pos|]. by split_and!.
Qed.

Lemma load_all post : forall places pre x r s, os = pre ++ post -> length places = length pre ->
  placed places (FormatStruct x) -> PIC x = true -> places_ok post s ->
  exists x' r', load_objects l4_alloc_mem (length post) (Z.of_nat (length places) + 1) true x r s =
      Ret (1, x', r', (place_objects post s).2) /\
    placed (places ++ (place_objects post s).1) (FormatStruct x') /\
    same_module x x' (zip (place_objects post s).1 (lo_size <$> post)).
Proof.
  induction post as [|o post IH]; intros places pre x r s Eos Hlen P Hpic Hok.
  { exists x, r. cbn. rewrite !app_nil_r. split; [done|]. split; [done|]. unfold same_module. by rewrite app_nil_r. }
  cbn [places_ok] in Hok. cbn [length load_objects place_objects].
  destruct (l4_alloc_mem s (lo_base o) (lo_size o) true) as [s1 a] eqn:Ea. destruct Hok as (Ha & Hlt & Hal & Hok).
  assert (Ho : os !! length places = Some o) by (by rewrite Eos, Hlen, list_lookup_middle).
  destruct (load_one x places o r s s1 a P Hpic Ho Ea Ha Hlt Hal) as (x1 & r1 & E1 & P1 & S1).
  rewrite E1. cbn [mbind C_bind].
  destruct (IH (places ++ [a]) (pre ++ [o]) x1 r1 (write_bytes s1 a (mjoin (lo_datas o)))) as (x2 & r2 & E2 & P2 & S2).
  - by rewrite <- app_assoc.
  - rewrite !length_app. cbn. lia.
  - done.
  - destruct S1 as (_ & -> & _). done.
  - done.
  - rewrite length_app in E2. cbn [length] in E2.
    replace (Z.of_nat (length places + 1) + 1) with (Z.of_nat (length places) + 1 + 1) in E2 by lia.
    destruct (place_objects post (write_bytes s1 a (mjoin (lo_datas o)))) as [ps s2]. cbn [fst snd] in *.
    exists x2, r2. rewrite <- app_assoc in P2. split; [done|]. split; [done|].
    cbn [fmap list_fmap zip zip_with]. by apply (same_trans x x1 x2 [(a, lo_size o)]).
Qed.
End objects.

(** ** The tables that are made for a library *)

Lemma place_objects_length alloc os : forall s, length (place_objects alloc os s).1 = length os.
Proof.
  induction os as [|o os IH]; intros s; [done|]. cbn [place_objects].
  destruct (alloc s (lo_base o) (lo_size o) true) as [s1 a].
  specialize (IH (write_bytes s1 a (mjoin (lo_datas o)))). destruct (place_objects _ _ _). cbn in *. congruence.
Qed.

(** The objects of the file at their places: they are linked for the places they are at. *)
Definition placed_objects (os : list lx_object) (places : list Z) : list object :=
  zip_with (fun o a => mkObject a a (lo_pages o)) os places.
Definition place_of (places : list Z) (i : Z) : Z := default 0 (places !! Z.to_nat (i - 1)).
Definition fixups_of (os : list lx_object) : list fixup := mjoin ((fun o => mjoin (lo_pages o)) <$> os).

Lemma placed_objects_length os places : length places = length os ->
  length (placed_objects os places) = length os.
Proof. intros E. unfold placed_objects. rewrite length_zip_with. lia. Qed.
Lemma placed_fixups os : forall places, length places = length os ->
  all_fixups (placed_objects os places) = fixups_of os.
Proof.
  unfold all_fixups, fixups_of, placed_objects. induction os as [|o os IH]; intros [|a places] E; try done.
  cbn [zip_with]. rewrite !fmap_cons, !mjoin_cons, IH by (cbn in E; lia). done.
Qed.

Section library.
(** The file [stream], its parts, and what its tables hold. *)
Context (stream : list Z) (off : Z) (h L F : list Z).
Context (shift datapage pagesize : Z) (os : list lx_object) (names : list (list Z)).
Context (modname procname : Z -> list Z) (ds : list bundle).

Definition module_of : LX_module := mkLX h L F off stream (Z.of_nat (length stream)) 0.
#[local] Abbreviation m := module_of.
#[local] Abbreviation n := (Z.of_nat (length os)).

(** The header, the loader section and the fixup section of the file. *)
Record lx_image : Prop := {
  li_header : header_at stream off;
  li_head : bytes_at stream off h;
  li_size : Z.of_nat (length h) = sizeof_e32_exe;
  li_magic : exists h', h = bstr "LX" ++ h';
  li_sections : exists objtab, rd32 h 64 = Ret objtab /\ 0 <= objtab /\ off + objtab < 2 ^ 31 /\
    bytes_at stream (off + objtab) (L ++ F);
  li_loader : rd32 h 56 = Ret (Z.of_nat (length L));
  li_fixup : rd32 h 48 = Ret (Z.of_nat (length F))
}.

Definition exports_ok (d : bundle) : Prop :=
  1 <= bundle_count d < 256 /\
  match d with
  | Unused _ => True
  | Bundle32 obj _ => 1 <= obj <= n /\ obj < 65536
  | Forwards es => Forall (fun e => 0 <= e.1.2 < 65536 /\ text (modname e.1.2) /\
                     get_imp_mod_name_cstr m e.1.2 = Ret (modname e.1.2)) es
  end.

Definition fixup_ok (f : fixup) : Prop :=
  match fx_target f with
  | Internal _ _ => 1 <= fx_num f <= n
  | _ => names_ok m modname procname f
  end.

(** A library: its objects, the modules it imports, its entries and its fixups. *)
Record lx_library : Prop := {
  ll_image : lx_image;
  ll_tables : lx_tables m shift datapage os;
  ll_dll : ISDLL m = Ret true;
  ll_pagesize : get_e32_pagesize m = Ret pagesize;
  ll_modcnt : e32_impmodcnt m = Ret (Z.of_nat (length names));
  ll_names i name : names !! i = Some name ->
    get_imp_mod_name_cstr m (Z.of_nat (S i)) = Ret name /\ text name;
  ll_entries : exists enttab objtab, e32_enttab m = Ret enttab /\ e32_objtab m = Ret objtab /\
    24 * n <= enttab - objtab < 2 ^ 31 /\
    bytes_at L (enttab - objtab) (enc_bundles ds ++ [0]);
  ll_exports : Forall exports_ok ds /\ total ds < 2 ^ 32;
  ll_fixups : Forall fixup_ok (fixups_of os) /\ Z.of_nat (imports (fixups_of os)) < 2 ^ 32
}.

(** What is made of a library with its objects at [places]. *)
Definition library_imports (places : list Z) : list IXFFIXUPENTRY :=
  module_imports pagesize modname procname (placed_objects os places) [].
Definition library_patches (places : list Z) : list (Z * Z) :=
  module_patches pagesize (placed_objects os places).
Definition library_entries (places : list Z) : list IXFMODULEENTRY :=
  mjoin (bundle_entries (place_of places) modname <$> ds).

Hypothesis Hl : lx_library.
#[local] Abbreviation placed := (placed m os).

Lemma image_loads : exists pos,
  LXLoadStream true stream (Z.of_nat (length stream)) = Ret (Some (set_pos m pos)).
Proof.
  destruct (ll_image Hl) as [Hh Hb Hs Hm (objtab & Ho & H0 & Hlt & HLF) HL HF].
  destruct (load_stream_spec stream off h L F objtab) as (m' & E & E1 & E2 & E3 & E4 & E5 & E6); try done.
  exists (lx_stream_pos m'). rewrite E. destruct m'. cbn in *. subst. done.
Qed.

Lemma names_loaded l m' : forall k, (forall i name, l !! i = Some name ->
    get_imp_mod_name_cstr m' (k + Z.of_nat i) = Ret name /\ text name) ->
  module_names (length l) k m' = Ret l.
Proof.
  induction l as [|x l IH]; intros k H; [done|]. cbn [length module_names].
  destruct (H 0%nat x eq_refl) as [E Hx]. rewrite Z.add_0_r in E. rewrite E. cbn [mbind C_bind].
  unfold pas_cstr. rewrite cstr_text by done. cbn [mbind C_bind]. rewrite IH; [done|].
  intros i name Hi. specialize (H (S i) name Hi). by replace (k + 1 + Z.of_nat i) with (k + Z.of_nat (S i)) by lia.
Qed.

(** The names and records of the fixup section do not change with the places. *)
Lemma kept_mod_name m' i : tables_kept n m m' -> get_imp_mod_name_cstr m' i = get_imp_mod_name_cstr m i.
Proof.
  intros K. unfold get_imp_mod_name_cstr, get_imp_mod_name, e32_impmod, e32_fpagetab.
  by rewrite !(kept_field n m m'), (tk_fixups _ _ _ K).
Qed.
Lemma kept_names_ok m' f : tables_kept n m m' -> names_ok m modname procname f -> names_ok m' modname procname f.
Proof.
  intros K. unfold names_ok. destruct (fx_target f) as [| |w|w]; try done; rewrite !(kept_mod_name m' _ K); [done|].
  unfold get_imp_proc_name, e32_impproc, e32_fpagetab. by rewrite !(kept_field n m m'), (tk_fixups _ _ _ K).
Qed.

Section at_places.
Context (places : list Z) (m' : LX_module).
Hypothesis Hp : placed places m'.
Hypothesis Hlen : length places = length os.

Lemma objects_placed : objects_at m' 1 (placed_objects os places).
Proof using Hl Hp Hlen.
  pose proof (pl_kept _ _ _ _ Hp) as K.
  assert (G : forall os2 pl2 os1 pl1, os = os1 ++ os2 -> places = pl1 ++ pl2 -> length pl1 = length os1 ->
    length pl2 = length os2 -> objects_at m' (Z.of_nat (length os1) + 1) (placed_objects os2 pl2)).
  { induction os2 as [|o os2 IH]; intros [|a pl2] os1 pl1 E1 E2 L1 L2; try done.
    assert (Ho : os !! length os1 = Some o) by (by rewrite E1, list_lookup_middle).
    assert (Ha : places !! length os1 = Some a) by (by rewrite E2, list_lookup_middle).
    cbn [placed_objects zip_with objects_at]. split.
    - destruct (object_tables m shift datapage os (ll_tables Hl) m' _ o K Ho) as (Em & Ec & Hpages & _).
      destruct (pl_done _ _ _ _ Hp _ _ Ha) as [D1 D2].
      pose proof (loa_range _ _ _ _ _ (lt_objects _ _ _ _ (ll_tables Hl) _ _ Ho)) as R.
      unfold object_at, o32_base, o32_reserved. cbn [ob_base ob_reserved ob_pages].
      unfold get_obj, sizeof_o32_obj in *.
      replace (24 * (Z.of_nat (length os1) + 1 - 1)) with (24 * Z.of_nat (length os1)) in * by lia.
      split; [done|]. split; [done|]. exists (lo_start o). split_and!; try done; lia.
    - specialize (IH pl2 (os1 ++ [o]) (pl1 ++ [a])). rewrite <- !app_assoc in IH.
      specialize (IH E1 E2). rewrite !length_app in IH. cbn [length] in *.
      replace (Z.of_nat (length os1 + 1) + 1) with (Z.of_nat (length os1) + 1 + 1) in IH by lia.
      apply IH; lia. }
  by apply (G os places [] []).
Qed.

Lemma exports_placed : Forall (bundle_ok m' (place_of places) modname) ds.
Proof using Hl Hp Hlen.
  destruct (ll_exports Hl) as [He _]. eapply Forall_impl; [exact He|]. intros d [Hn Hd]. split; [done|].
  destruct d as [k|obj es|es]; [done| |].
  - destruct Hd as [Ho Hlt]. split; [lia|]. unfold place_of, o32_base, get_obj, sizeof_o32_obj.
    destruct (lookup_lt_is_Some_2 places (Z.to_nat (obj - 1))) as [a Ha]; [lia|]. rewrite Ha. cbn [default].
    replace (24 * (obj - 1)) with (24 * Z.of_nat (Z.to_nat (obj - 1))) by lia.
    by apply (pl_done _ _ _ _ Hp).
  - eapply Forall_impl; [exact Hd|]. intros e (H1 & H2 & H3). split; [done|]. split; [done|].
    by rewrite kept_mod_name by apply (pl_kept _ _ _ _ Hp).
Qed.

Lemma field_placed f : (forall m1 m2, lx_head_e32_exe m1 = lx_head_e32_exe m2 -> f m1 = f m2) ->
  f m' = (f m : C Z).
Proof using Hp. intros H. apply H. apply (tk_head _ _ _ (pl_kept _ _ _ _ Hp)). Qed.

Lemma entries_placed x : FormatStruct x = m' ->
  convert_entry_table_to_BFF true x = Ret (NO_ERROR, set_entries x (library_entries places)).
Proof using Hl Hp Hlen.
  intros Ex. destruct (ll_entries Hl) as (enttab & objtab & E1 & E2 & Hr & Hb). destruct (ll_exports Hl) as [_ Ht].
  pose proof (pl_kept _ _ _ _ Hp) as K.
  apply (entry_table_spec x _ modname ds enttab objtab); rewrite ?Ex; try done.
  - rewrite <- E1. apply (kept_field n m m' 92 K).
  - rewrite <- E2. apply (kept_field n m m' 64 K).
  - lia.
  - apply (kept_bytes_at n m); [done|lia|done].
  - apply exports_placed.
Qed.

Lemma imports_placed x : FormatStruct x = m' ->
  convert_fixup_table_to_BFF true x = Ret (NO_ERROR, set_fixups x (library_imports places)).
Proof using Hl Hp Hlen.
  intros Ex. pose proof (pl_kept _ _ _ _ Hp) as K. destruct (ll_fixups Hl) as [Hf Hi].
  apply imports_spec; rewrite ?Ex, ?placed_fixups, ?placed_objects_length; try done.
  - unfold get_e32_pagesize, e32_pagesize. rewrite (kept_field n m m' 40 K). apply (ll_pagesize Hl).
  - unfold get_obj_num, e32_objcnt. rewrite (kept_field n m m' 68 K). apply (lt_count _ _ _ _ (ll_tables Hl)).
  - apply objects_placed.
  - eapply Forall_impl; [exact Hf|]. intros f Hok. apply kept_names_ok; [done|].
    unfold fixup_ok in Hok. unfold names_ok in *. by destruct (fx_target f).
Qed.

Lemma patches_placed s : LXFixup m' s = s ← apply_patches (library_patches places) s; Ret (NO_ERROR, s).
Proof using Hl Hp Hlen.
  pose proof (pl_kept _ _ _ _ Hp) as K. destruct (ll_fixups Hl) as [Hf _].
  unfold LXFixup, do_fixup_code_data_lx, get_obj_num, e32_objcnt. rewrite (kept_field n m m' 68 K).
  pose proof (lt_count _ _ _ _ (ll_tables Hl)) as Ec. unfold get_obj_num, e32_objcnt in Ec. rewrite Ec.
  cbn [mbind C_bind]. rewrite Nat2Z.id, <- (placed_objects_length os places) by done.
  rewrite (fixup_all m' pagesize modname procname (placed_objects os places)); try done.
  - apply objects_placed.
  - unfold get_e32_pagesize, e32_pagesize. rewrite (kept_field n m m' 40 K). apply (ll_pagesize Hl).
  - apply objects_placed.
  - rewrite placed_fixups by done. eapply Forall_impl; [exact Hf|]. intros f Hok.
    unfold fixup_ok, internal_ok in *. rewrite placed_objects_length by done.
    pose proof (kept_names_ok m' f K) as G. destruct (fx_target f); (done || by apply G).
Qed.
End at_places.

(** *** The loader *)

Section loader.
Variable l4_alloc_mem : mem -> Z -> Z -> bool -> mem * Z.
#[local] Abbreviation places_of s := (place_objects l4_alloc_mem os s).1.

Lemma image_field m' f : tables_kept n m m' -> 0 <= f <= 192 -> exists v, e32_field f m' = Ret v.
Proof. intros K. by apply (head_field m shift datapage os (ll_tables Hl)). Qed.

(** What the loader makes of the file. *)
Lemma library_loads x0 r s : places_ok l4_alloc_mem os s ->
  exists x r', LXLoad l4_alloc_mem true stream x0 r s =
      Ret (NO_ERROR, x, r', (place_objects l4_alloc_mem os s).2) /\
    placed (places_of s) (FormatStruct x) /\ Modules x = names /\
    Entries x = library_entries (places_of s) /\ Fixups x = library_imports (places_of s) /\
    (fun c => (sec_addr c, sec_size c)) <$> seclist x =
      ((fun c => (sec_addr c, sec_size c)) <$> seclist x0) ++ zip (places_of s) (lo_size <$> os).
Proof.
  intros Hok. unfold LXLoad. cbn [alloc require mbind C_bind].
  destruct image_loads as [pos ->]. cbn [mbind C_bind].
  set (m0 := set_pos m pos). assert (P0 : placed [] m0) by apply placed_pos, placed_nil.
  pose proof (pl_kept _ _ _ _ P0) as K0.
  change (e32_impmodcnt m0) with (e32_impmodcnt m). rewrite (ll_modcnt Hl). cbn [mbind C_bind]. rewrite Nat2Z.id.
  rewrite names_loaded.
  2: { intros i name Hi. destruct (ll_names Hl i name Hi) as [E Ht].
       replace (1 + Z.of_nat i) with (Z.of_nat (S i)) by lia. split; [|done]. rewrite <- E. done. }
  cbn [mbind C_bind]. change (ISDLL m0) with (ISDLL m). rewrite (ll_dll Hl). cbn [mbind C_bind].
  set (x1 := LxLoad.set_modules (set_format x0 m0) names true).
  destruct (load_all l4_alloc_mem m shift datapage os (ll_tables Hl) os [] [] x1 r s) as (x2 & r2 & E & P2 & S2);
    [done..|]. rewrite app_nil_l in P2. unfold LXLoadObjects.
  change (get_obj_num (FormatStruct x1)) with (get_obj_num m). rewrite (lt_count _ _ _ _ (ll_tables Hl)).
  cbn [mbind C_bind]. rewrite Nat2Z.id. change (Z.of_nat (length []) + 1) with 1 in E. rewrite E. cbn [mbind C_bind].
  pose proof (place_objects_length l4_alloc_mem os s) as Hlen. pose proof (pl_kept _ _ _ _ P2) as K2.
  assert (Ed : ISDLL (FormatStruct x2) = Ret true).
  { rewrite <- (ll_dll Hl). unfold ISDLL, get_mflags, e32_mflags. by rewrite (kept_field n m _ 16 K2). }
  rewrite Ed. cbn [mbind C_bind]. rewrite (entries_placed _ _ P2 Hlen x2 eq_refl). cbn [mbind C_bind].
  change (negb (NO_ERROR =? NO_ERROR)) with false. cbv iota.
  rewrite (imports_placed _ _ P2 Hlen (set_entries x2 _) eq_refl). cbn [mbind C_bind].
  cbn [FormatStruct set_fixups set_entries].
  unfold get_code, e32_startobj, get_data_stack, get_obj_num, e32_stackobj, e32_objcnt.
  destruct (image_field _ 24 K2) as [v1 ->]; [lia|]. destruct (image_field _ 32 K2) as [v2 E2]; [lia|].
  destruct (image_field _ 68 K2) as [v3 E3]; [lia|]. destruct S2 as (SM & _ & SS). cbn [mbind C_bind].
  destruct (v1 =? 0); cbn [FormatStruct set_entrypoint set_fixups set_entries]; rewrite E2, E3; cbn [mbind C_bind];
    destruct ((v2 =? 0) || (v3 <? v2)); (eexists _, r2; split; [done|]);
    cbn [FormatStruct set_stack set_entrypoint set_fixups set_entries Modules Entries Fixups seclist]; by split_and!.
Qed.
End loader.
End library.

(** ** Looking up while another module is loaded *)

Section growing.
Context (ms : gmap Z module) (l : list node) (k : Z) (m : module) (nd : node).

(** The module [k] is none of the list. *)
Definition new_handle : Prop :=
  forall x, x ∈ l -> module_struct (first x) <> 0 /\ module_struct (first x) <> k.
Hypothesis Hk : new_handle.

Lemma forward_found mn h : find_forward mn l = Some h -> h <> 0 -> find_forward mn (l ++ [nd]) = Some h.
Proof.
  clear. induction l as [|x l' IH]; cbn [find_forward app]; [congruence|].
  destruct (_ =? 0); [done|]. apply IH.
Qed.
Lemma forward_loading mn : find_forward mn l = None -> find_forward mn (l ++ [nd]) = None.
Proof.
  clear. induction l as [|x l' IH]; cbn [find_forward app]; [done|]. destruct (_ =? 0); [done|]. apply IH.
Qed.

Lemma entries_grow h es : entries_of ms l h es -> entries_of (<[k := m]> ms) (l ++ [nd]) h es.
Proof using Hk.
  intros [(x & Hx & <-) (m0 & Hm & He)]. split.
  - exists x. split; [apply elem_of_app; by left|done].
  - exists m0. split; [|done]. rewrite lookup_insert_ne; [done|]. by destruct (Hk x Hx).
Qed.
Lemma asked_grows x e : asked ms l x e -> asked (<[k := m]> ms) (l ++ [nd]) x e.
Proof using Hk. destruct x as [[h o] nm]. intros (es & He & Ha). exists es. split; [by apply entries_grow|done]. Qed.
Lemma not_last_grows x : not_last ms l x -> not_last (<[k := m]> ms) (l ++ [nd]) x.
Proof using Hk.
  destruct x as [[h o] nm]. intros H Ho. destruct (H Ho) as (es & He & Ha). exists es.
  split; [by apply entries_grow|done].
Qed.

(** An answer stays the same. *)
Lemma query_grows fuel : forall h ordinal nm r, ModQueryProcAddr fuel ms l h ordinal nm = Ret r ->
  ModQueryProcAddr fuel (<[k := m]> ms) (l ++ [nd]) h ordinal nm = Ret r.
Proof using Hk.
  induction fuel as [|fuel IH]; intros h ordinal nm r; [done|]. rewrite !proc_addr_step.
  intros [[(e & H1 & H)|[(e & mn & H1 & H2 & H3 & H4 & H5)|(es & H1 & H)]]|
    (y & (e & mn & h' & H1 & H2 & H3 & H4 & ->) & H)].
  - left. left. exists e. split; [by apply asked_grows|done].
  - left. right. left. exists e, mn. split_and!; [by apply asked_grows|by apply not_last_grows|done| |done].
    by apply forward_loading.
  - left. right. right. exists es. split; [by apply entries_grow|done].
  - right. cbn [fst snd] in H. exists (h', u32 (Ordinal e), FunctionName e). split; [|by apply IH].
    exists e, mn, h'. split_and!; [by apply asked_grows|by apply not_last_grows|done| |done].
    apply forward_found; [done|]. intros ->. destruct fuel as [|fuel]; [done|].
    apply proc_addr_step in H. revert H. apply no_module. intros es [(x & Hx & Hz) _].
    by destruct (Hk x Hx).
Qed.

Lemma resolved_grows fuel f a : resolved fuel ms l f a -> resolved fuel (<[k := m]> ms) (l ++ [nd]) f a.
Proof using Hk.
  intros (mn & h & H1 & H2 & H3 & H4). exists mn, h.
  split_and!; [done|by apply forward_found|done|by apply query_grows].
Qed.
End growing.

(** ** Loading a library *)

Section load.
Variable io_load_file : list Z -> option (list Z).
Variable ixfCopyModule : module -> module.
Variable IXFHandlers : list IXFHandler.
Variable new_module : gmap Z module -> Z.
Variable new_record : list node -> Z.
Variable blank : IXFModule.
Variable l4_alloc_mem : mem -> Z -> Z -> bool -> mem * Z.
#[local] Abbreviation load_module :=
  (LoadModule io_load_file ixfCopyModule IXFHandlers new_module new_record blank true).

Context (stream : list Z) (off : Z) (h L F : list Z).
Context (shift datapage pagesize : Z) (os : list lx_object) (names : list (list Z)).
Context (modname procname : Z -> list Z) (ds : list bundle).
Hypothesis Hlib : lx_library stream off h L F shift datapage pagesize os names modname procname ds.

(** [OpenModule] has read the file of the library into the new module [k]. *)
Record opened (s : modmgr) (k : Z) (m : module) : Prop := {
  op_module : modules s !! k = Some m;
  op_exec : mod_exec m = false;
  op_handler : mod_handler m = Some (LX_handler l4_alloc_mem true);
  op_file : mod_file m = stream;
  op_name : stricmp (get_fname (mod_path m)) (bstr "SUB32") <> 0;
  op_new : getrec (get_fname (mod_path m)) (mlist s) = (1, None);
  op_handle : new_handle (mlist s) k;
  op_record n : n ∈ mlist s -> rec_addr (first n) <> new_record (mlist s) /\
    forall r, r ∈ up n -> rec_addr r <> new_record (mlist s)
}.

#[local] Abbreviation exports places := (library_entries modname ds places).
#[local] Abbreviation imported places := (library_imports pagesize os modname procname places).

(** The internal fixups that are applied: none for a library that imports nothing. *)
Definition internal_patches (places : list Z) : list (Z * Z) :=
  match names with [] => [] | _ => library_patches pagesize os places end.

(** C29: Loading an LX library from its file when all the modules it imports are loaded and
    have what it imports.  In terms of the bytes of the file: its pages are in memory at the
    places the host gives to its objects; every internal fixup's word holds the place of its
    target object and the offset (but a library that imports nothing gets none); the word at
    every import leads to the imported address; and nothing else is changed.  The module has
    the names of its imports, its entries at their places and its sections, and is then found
    by its name with its handle. *)
Theorem load_library fuel cbName k s m addrs :
  let '(places, mm) := place_objects l4_alloc_mem os (memory s) in
  let imps := imported places in
  let patches := internal_patches places ++ link_patches imps addrs in
  let nd := mkNode (mkRec (new_record (mlist s)) (get_fname (mod_path m)) k 0 DONE_LOADING) [] in
  opened s k m -> places_ok l4_alloc_mem os (memory s) ->
  Forall (fun nm => (getrec nm (mlist s)).1 = 0 /\ Z.of_nat (length (dll_name nm)) < 1024) names ->
  Forall2 (resolved fuel (modules s) (mlist s)) imps addrs ->
  Forall (fun p => allocated mm p.1 4) patches -> ForallOrdPairs word_apart patches ->
  exists x s', load_module (S fuel) cbName k s = Ret (NO_ERROR, [], k, s') /\
    mlist s' = mlist s ++ [nd] /\ getrec (get_fname (mod_path m)) (mlist s') = (0, Some nd) /\
    modules s' = <[k := set_ixf m x]> (modules s) /\
    Modules x = names /\ Entries x = exports places /\ Fixups x = zip_with set_address imps addrs /\
    (fun c => (sec_addr c, sec_size c)) <$> seclist x =
      ((fun c => (sec_addr c, sec_size c)) <$> seclist (mod_ixf m)) ++ zip places (lo_size <$> os) /\
    Forall (fun p => ld32 (memory s') p.1 = Ret (u32 p.2)) (internal_patches places) /\
    Forall2 (fun f a => exists w, ld32 (memory s') (SrcVmAddress f) = Ret w /\
               u32 (SrcAddress f + 4 + w) = u32 a) imps addrs /\
    (forall b, (forall p, p ∈ patches -> b + 4 <= p.1 \/ p.1 + 4 <= b) ->
       ld32 (memory s') b = ld32 mm b).
Proof using Hlib.
  destruct (place_objects l4_alloc_mem os (memory s)) as [places mm] eqn:Epl.
  intros imps patches nd Ho Hok Hns Hres Hal Hap. destruct Ho as [Hm Hx Hh Hfile Hnm Hnew Hk Hrec].
  destruct (library_loads _ _ _ _ _ _ _ _ _ _ _ _ _ Hlib l4_alloc_mem (mod_ixf m) (root_area s) (memory s) Hok)
    as (x & r & El & P & EM & EE & EF & ES).
  rewrite Epl in El, P, EE, EF, ES. cbn [fst snd] in *.
  assert (Hlen : length places = length os).
  { pose proof (place_objects_length l4_alloc_mem os (memory s)) as Hlen. by rewrite Epl in Hlen. }
  destruct (apply_patches_spec patches mm Hal Hap) as (mm2 & Ep & Hld & Hother & _).
  unfold patches in Ep. rewrite apply_patches_app in Ep.
  destruct (apply_patches (internal_patches places) mm) as [mm1| | |] eqn:E1; try done. cbn [mbind C_bind] in Ep.
  assert (Hfix : fixed_up (LX_handler l4_alloc_mem true) (FormatStruct x) (Modules x) mm mm1).
  { rewrite EM. unfold internal_patches in E1. destruct names; cbn [fixed_up]; [by injection E1|].
    change (LXFixup (FormatStruct x) mm = Ret (NO_ERROR, mm1)).
    rewrite (patches_placed _ _ _ _ _ _ _ _ _ _ _ _ _ Hlib places _ P Hlen). by rewrite E1. }
  set (nd0 := mkNode (mkRec (new_record (mlist s)) (get_fname (mod_path m)) k 0 LOADING) []).
  assert (Hlink : link_imports fuel (<[k := set_ixf m x]> (modules s)) (mlist s ++ [nd0]) (Fixups x) mm1 =
    Ret (zip_with set_address imps addrs, mm2)).
  { rewrite EF. fold imps. rewrite (link_imports_ok _ _ _ imps addrs).
    - by rewrite Ep.
    - eapply Forall2_impl; [exact Hres|]. intros f a. by apply resolved_grows. }
  destruct (load_library_run io_load_file ixfCopyModule IXFHandlers new_module new_record blank fuel cbName k s m
    (LX_handler l4_alloc_mem true) x r mm mm1 mm2 (zip_with set_address imps addrs) Hm Hx Hh Hnm Hnew Hrec) as (s' & Er & Hml & Hg & Hmem & Hmods).
  - rewrite Hfile. exact El.
  - by rewrite EM.
  - exact Hfix.
  - exact Hlink.
  - exists (set_fixups x (zip_with set_address imps addrs)), s'. rewrite Hmem.
    apply Forall_app in Hld as [Hld1 Hld2].
    split_and!; try done. by apply links_stored with fuel (modules s) (mlist s).
Qed.
End load.

(** ** An instance of the property

    NLS.DLL: an object of one page with an internal fixup and an import from MSG, whose
    entry forwards to KAL. *)

Definition nls_int : fixup := mkFixup 7 (Single 32) false W16 (Internal 1 (Some 100)) None.
Definition nls_ord : fixup := mkFixup 7 (Single 16) false W16 (ByOrdinal 1 1) None.
Definition nls_exports : list bundle := [Bundle32 1 [(3, 256)]].
Definition nls_data : list Z := Z.of_nat <$> seq 0 64.

Definition nls_loader : list Z :=
  enc32 64 ++ enc32 65536 ++ enc32 0 ++ enc32 1 ++ enc32 1 ++ enc32 0 ++
  enc32 0 ++ enc16 64 ++ enc16 0 ++ enc_bundles nls_exports ++ [0].
Definition nls_records : list Z := enc_fixups [nls_int; nls_ord].
Definition nls_fixups : list Z :=
  enc32 0 ++ enc32 (Z.of_nat (length nls_records)) ++ nls_records ++ imp_names [bstr "MSG"] ++ [0].
Definition nls_head : list Z :=
  let fix_at := 196 + Z.of_nat (length nls_loader) in
  let data_at := fix_at + Z.of_nat (length nls_fixups) in
  let names_at := fix_at + 8 + Z.of_nat (length nls_records) in
  bstr "LX" ++ drop 2 (foldl put32 (replicate 196 0)
    [(16, 32768); (40, 4096); (44, 0); (48, Z.of_nat (length nls_fixups));
     (56, Z.of_nat (length nls_loader)); (64, 196); (68, 1); (72, 220); (92, 228); (104, fix_at);
     (108, fix_at + 8); (112, names_at); (116, 1); (120, names_at + 4); (128, data_at)]).
Definition nls_file : list Z := nls_head ++ nls_loader ++ nls_fixups ++ nls_data.

Definition nls_objects : list lx_object := [mkLxObject 64 65536 1 [[nls_int; nls_ord]] [nls_data]].
Definition nls_modname (i : Z) : list Z := if i =? 1 then bstr "MSG" else [].
Definition nls_module : LX_module := module_of nls_file 0 nls_head nls_loader nls_fixups.

Lemma nls_supported : Forall supported [nls_int; nls_ord].
Proof. repeat apply Forall_cons_2; try apply Forall_nil_2; (split; [cbn; lia|split; [by intros offs|done]]). Qed.

Lemma nls_tables : lx_tables nls_module 0 (196 + Z.of_nat (length nls_loader) + Z.of_nat (length nls_fixups)) nls_objects.
Proof.
  split; [vm_compute; reflexivity|vm_compute; reflexivity|vm_compute; discriminate|vm_compute; reflexivity|lia
    |vm_compute; reflexivity|vm_compute; reflexivity| |].
  - exists 24. split; [vm_compute; reflexivity|cbn; lia].
  - intros [|i] o Ho; [injection Ho as <-|done].
    split; [vm_compute; reflexivity..|cbn; lia| |].
    + split; [|split; [apply nls_supported|done]]. exists 0, 8.
      split_and!; [vm_compute; reflexivity..|bytes].
    + split; [|done]. exists 24, 0.
      split_and!; [vm_compute; reflexivity..|vm_compute; discriminate|vm_compute; reflexivity|bytes|].
      apply bytes_check. vm_compute. reflexivity.
Qed.

Lemma nls_library : lx_library nls_file 0 nls_head nls_loader nls_fixups 0
  (196 + Z.of_nat (length nls_loader) + Z.of_nat (length nls_fixups)) 4096 nls_objects [bstr "MSG"]
  nls_modname nls_modname nls_exports.
Proof.
  split.
  - split; [by left|bytes|vm_compute; reflexivity|by eexists| |vm_compute; reflexivity..].
    exists 196. split_and!; [vm_compute; reflexivity|lia|lia|bytes].
  - apply nls_tables.
  - vm_compute. reflexivity.
  - vm_compute. reflexivity.
  - vm_compute. reflexivity.
  - intros [|i] name Hi; [injection Hi as <-|done]. split; [vm_compute; reflexivity|by apply text_check].
  - exists 228, 196. split_and!; [vm_compute; reflexivity|vm_compute; reflexivity|vm_compute; discriminate|lia|bytes].
  - split; [|vm_compute; reflexivity]. apply Forall_singleton. split; [cbn; lia|]. split; [cbn; lia|lia].
  - split; [|vm_compute; reflexivity]. apply Forall_cons_2; [split; vm_compute; discriminate|]. apply Forall_singleton.
    split; [vm_compute; reflexivity|by apply text_check].
Qed.

(** The host has memory at 4096. *)
Definition nls_alloc (s : mem) (base size : Z) (shared : bool) : mem * Z := (s, 4096).
Definition nls_opened : modmgr :=
  set_modules' demo_mm
    (<[6000 := mkModule blank_ixf (Some (LX_handler nls_alloc true)) nls_file (bstr "NLS.DLL") false]> demo_modules).

Definition nls_import : IXFFIXUPENTRY := mkFixupEntry 4112 4112 (mkEntry None 0 (Some (bstr "MSG")) 1).
Lemma nls_imports : library_imports 4096 nls_objects nls_modname nls_modname [4096] = [nls_import].
Proof. vm_compute. reflexivity. Qed.
Lemma nls_internal : internal_patches 4096 nls_objects [bstr "MSG"] [4096] = [(4128, 4196)].
Proof. vm_compute. reflexivity. Qed.

(** The words that are patched: the internal fixup and the displacement to KAL. *)
Definition nls_patches : list (Z * Z) := [(4128, 4196); (4112, 5000 - 4112 - 4)].
Definition nls_placed : mem := write_bytes demo_mem 4096 nls_data.

Lemma nls_allocated : Forall (fun p => allocated nls_placed p.1 4) nls_patches.
Proof.
  apply Forall_forall. intros p Hp i Hi. unfold nls_placed. rewrite write_bytes_lookup.
  assert (4112 <= p.1 <= 4128) by (repeat (apply elem_of_cons in Hp as [->|Hp]; [cbn; lia|]); by apply elem_of_nil in Hp).
  destruct (Z.leb_spec 4096 i); [|lia]. change (Z.of_nat (length nls_data)) with 64.
  destruct (Z.ltb_spec i (4096 + 64)); [|lia]. cbn [andb]. apply lookup_lt_is_Some_2. change (length nls_data) with 64%nat. lia.
Qed.

Lemma load_library_witness :
  exists x s', LoadModule demo_provider id [LX_handler nls_alloc true] demo_new_module demo_new_record blank_ixf
      true 3 260 6000 nls_opened = Ret (NO_ERROR, [], 6000, s') /\
    getrec (bstr "NLS") (mlist s') =
      (0, Some (mkNode (mkRec 50 (bstr "NLS") 6000 0 DONE_LOADING) [])) /\
    Modules x = [bstr "MSG"] /\ Entries x = [mkEntry None 4352 None 0] /\
    ld32 (memory s') 4128 = Ret 4196 /\ ld32 (memory s') 4096 = Ret 0x03020100 /\
    (exists w, ld32 (memory s') 4112 = Ret w /\ u32 (4112 + 4 + w) = 5000).
Proof.
  destruct (load_library demo_provider id [LX_handler nls_alloc true] demo_new_module demo_new_record blank_ixf
    nls_alloc _ _ _ _ _ _ _ _ _ _ _ _ _ nls_library 2 260 6000 nls_opened
    (mkModule blank_ixf (Some (LX_handler nls_alloc true)) nls_file (bstr "NLS.DLL") false) [5000])
    as (x & s' & E & _ & Hg & _ & HM & HE & _ & _ & HI & HL & HO).
  - split; [apply lookup_insert_eq|done|done|done|vm_compute; discriminate|vm_compute; reflexivity| |].
    + intros n Hn. repeat (apply elem_of_cons in Hn as [->|Hn]; [done|]). by apply elem_of_nil in Hn.
    + intros n Hn. repeat (apply elem_of_cons in Hn as [->|Hn]; [split; [done|by intros r ?%elem_of_nil]|]).
      by apply elem_of_nil in Hn.
  - split_and!; [done|vm_compute; discriminate| |done]. apply demo_allocated; vm_compute; discriminate.
  - apply Forall_singleton. split; vm_compute; reflexivity.
  - rewrite nls_imports. constructor; [|constructor]. exists (bstr "MSG"), 2000.
    split_and!; [done|vm_compute; reflexivity|done|vm_compute; reflexivity].
  - rewrite nls_imports, nls_internal. apply nls_allocated.
  - rewrite nls_imports, nls_internal.
    apply FOP_cons; [apply Forall_singleton; vm_compute; right; discriminate|].
    apply FOP_cons; [apply Forall_nil_2|apply FOP_nil].
  - exists x, s'. rewrite nls_imports, nls_internal in *.
    split_and!; [exact E|exact Hg|exact HM|rewrite HE; vm_compute; reflexivity| | |].
    + exact (Forall_inv HI).
    + rewrite HO; [vm_compute; reflexivity|].
      intros p [->|[->|[]%elem_of_nil]%elem_of_cons]%elem_of_cons; left; vm_compute; discriminate.
    + by apply Forall2_cons in HL as [HL _].
Defined.
