(* ===== verification/ModEnds.v ===== *)
(** * Loading ends ([OS2/Server/shared/server/os2exec/modmgr.c])

    [LoadModule] calls itself for the modules that a module imports, which may
    import each other.  Here it is shown that the recursion ends whatever
    modules without forwarders import, on what becomes of the list of modules. *)
From S2P Require Import Prelude MemMgr CfgParser LxMod LxLoad PathSearch ModMgr.

(** ** Runs that end in a state *)

(** The run does not run out of fuel, and if it returns, its result is in [Q]. *)
Definition safe {A} (m : C A) (Q : A -> Prop) : Prop :=
  match m with Ret a => Q a | Exit _ => True | Undef => True | NoFuel => False end.

Lemma safe_ends {A} (m : C A) Q : safe m Q -> ends m.
Proof. by destruct m. Qed.
Lemma ends_safe {A} (m : C A) : ends m -> safe m (fun _ => True).
Proof. by destruct m. Qed.
Lemma safe_bind {A B} (m : C A) (f : A -> C B) P Q :
  safe m P -> (forall a, P a -> safe (f a) Q) -> safe (m ≫= f) Q.
Proof. destruct m; cbn; auto. Qed.
Lemma safe_any {A B} (m : C A) (f : A -> C B) Q :
  ends m -> (forall a, safe (f a) Q) -> safe (m ≫= f) Q.
Proof. intros Hm Hf. eapply safe_bind; [by apply ends_safe|]. intros a _. apply Hf. Qed.
Lemma safe_weaken {A} (m : C A) (P Q : A -> Prop) : safe m P -> (forall a, P a -> Q a) -> safe m Q.
Proof. destruct m; cbn; auto. Qed.
Lemma safe_need {A B} (o : option A) (f : A -> C B) Q :
  (forall a, o = Some a -> safe (f a) Q) -> safe (need o ≫= f) Q.
Proof. destruct o; cbn; auto. Qed.
Lemma safe_require {B} b (f : unit -> C B) Q : (b = true -> safe (f tt) Q) -> safe (require b ≫= f) Q.
Proof. destruct b; cbn; auto. Qed.

(** ** The searches end *)

Lemma rd8_safe b i : safe (rd8 b i) (fun _ => 0 <= i < Z.of_nat (length b)).
Proof.
  destruct (rd8 b i) eqn:E; cbn; [by eapply rd8_inside|done|done|]. pose proof (ends_rd8 b i). congruence.
Qed.

Lemma wr8_safe b i v : safe (wr8 b i v) (fun b' => length b' = length b).
Proof. unfold wr8. destruct (_ && _); cbn; [by rewrite length_insert|done]. Qed.

Lemma scan_safe token b : forall fuel q, (1 <= fuel)%nat -> Z.of_nat (length b) < Z.of_nat fuel + q ->
  safe (scan fuel token b q) (fun q' => q <= q' < Z.of_nat (length b)).
Proof.
  induction fuel as [|fuel IH]; intros q Hf Hq; [lia|]. cbn [scan].
  eapply safe_bind; [apply rd8_safe|]. intros c Hc. cbn beta in Hc.
  destruct (is_delim token c); [cbn; lia|].
  eapply safe_weaken; [apply IH; lia|]. cbn beta. lia.
Qed.

Lemma deref_ends p : ends (deref p).
Proof. by destruct p. Qed.

Lemma getenv_cmp_ends nm s : forall i, ends (getenv_cmp s nm i).
Proof. induction s; intros i; cbn [getenv_cmp]; solve_ends. Qed.

Lemma getenv_ends st nm vcap : ends (CfgGetenv st nm vcap).
Proof.
  unfold CfgGetenv. apply ends_bind; [auto with ends|]. intros t.
  induction (sp t) as [|n todo IH]; cbn [getenv_loop]; [done|].
  apply ends_bind; [apply deref_ends|]. intros s. apply ends_bind; [apply getenv_cmp_ends|].
  intros p. solve_ends.
Qed.

(** A token is found further on in the string. *)
Definition found (q0 : Z) (b : list Z) (r : option Z * list Z * tok) : Prop :=
  let '(p, b', t) := r in
  length b' = length b /\ match p with
    | None => True
    | Some p => q0 <= p /\ exists q, nxtToken t = Some q /\ p <= q < Z.of_nat (length b)
    end.

Lemma tokenize_safe str c token b t : 0 <= str ->
  safe (tokenize_at str (Some (c :: token)) b t) (found str b).
Proof.
  intros Hs. unfold tokenize_at.
  eapply safe_bind; [apply scan_safe; lia|]. intros q Hq. cbn beta in Hq.
  apply safe_any; [auto with ends|]. intros x.
  eapply safe_bind; [apply wr8_safe|]. intros b' Hb. cbn. split; [done|]. split; [lia|]. by exists q.
Qed.

Lemma next_token_safe q0 c token b t q : nxtToken t = Some q -> 0 <= q0 <= q ->
  safe (StrTokenize None (Some (c :: token)) b t) (found (q0 + 1) b).
Proof.
  intros Et Hq. unfold StrTokenize. rewrite Et.
  eapply safe_bind; [apply wr8_safe|]. intros b' Hb. cbn beta in Hb. destruct (saved_ch t =? 0).
  - cbn. by split.
  - eapply safe_weaken; [apply tokenize_safe; lia|]. intros [[p b2] t2]. cbn.
    rewrite Hb. intros [H1 H2]. split; [done|]. destruct p; [|done].
    destruct H2 as [H2 H3]. split; [lia|done].
Qed.

Lemma tok_stop_ends b t : ends (StrTokStop b t).
Proof.
  unfold StrTokStop, StrTokenize. destruct (nxtToken t); [|done]. solve_ends. unfold tokenize_at. done.
Qed.

Lemma host_seps_safe sep : forall fuel b q, (1 <= fuel)%nat ->
  Z.of_nat (length b) < Z.of_nat fuel + q ->
  safe (host_seps fuel sep b q) (fun b' => length b' = length b).
Proof.
  induction fuel as [|fuel IH]; intros b q Hf Hq; [lia|]. cbn [host_seps].
  eapply safe_bind; [apply rd8_safe|]. intros c Hc. cbn beta in Hc. destruct (c =? 0); [done|].
  eapply safe_bind with (P := fun b' => length b' = length b).
  - destruct (c =? backslash); [apply wr8_safe|done].
  - intros b' Hb. eapply safe_weaken; [apply IH; lia|]. cbn beta. lia.
Qed.

Section searches.
Variable io_load_file : list Z -> option (list Z).

(** The tokenizer is on the token the loop is at. *)
Definition at_token (p : option Z) (b : list Z) (t : tok) : Prop :=
  match p with
  | None => True
  | Some p => 0 <= p /\ exists q, nxtToken t = Some q /\ p <= q < Z.of_nat (length b)
  end.
Definition left_over (p : option Z) (b : list Z) : Z :=
  match p with None => 0 | Some p => Z.of_nat (length b) - p end.

Lemma found_next q0 b p b' t : 0 <= q0 -> found (q0 + 1) b (p, b', t) -> q0 < Z.of_nat (length b) ->
  at_token p b' t /\ left_over p b' < Z.of_nat (length b) - q0.
Proof.
  intros Hq [Hl Hp] Hlt. unfold at_token, left_over. destruct p as [p|]; [|split; [done|lia]].
  destruct Hp as (H1 & q & E & H2). rewrite Hl. split; [|lia]. split; [lia|]. by exists q.
Qed.

Lemma module_path_loop_ends sep name st : forall fuel p full b t, at_token p b t ->
  left_over p b < Z.of_nat fuel -> ends (module_path_loop io_load_file fuel sep name st p full b t).
Proof.
  induction fuel as [|fuel IH]; intros p full b t Ha Hf.
  { destruct p; cbn in *; [|lia]. destruct Ha as (_ & q & _ & ?). lia. }
  cbn [module_path_loop]. destruct p as [p|]; [|done]. destruct Ha as (Hp & q & Et & Hq). cbn in Hf.
  assert (Hnext : forall full b', length b' = length b ->
    ends ('(p, b, t) ← StrTokenize None (Some psep) b' t;
          module_path_loop io_load_file fuel sep name st p full b t)).
  { intros full' b' Hb. eapply safe_ends with (Q := fun _ => True).
    eapply safe_bind; [apply (next_token_safe p _ _ _ _ q Et); lia|]. intros [[p2 b2] t2] H2.
    apply ends_safe. apply found_next in H2 as [H2 H3]; [|lia..]. apply IH; [done|lia]. }
  apply ends_bind; [auto with ends|]. intros c. destruct (c =? 0); [by apply Hnext|].
  eapply safe_ends with (Q := fun _ => True).
  eapply safe_bind; [apply host_seps_safe; lia|]. intros b' Hb. apply ends_safe.
  apply ends_bind; [auto with ends|]. intros dir. apply ends_bind; [auto with ends|]. intros l.
  cbv zeta. apply ends_bind; [auto with ends|]. intros _. apply ends_bind; [auto with ends|]. intros _.
  destruct (loads _ _); [|by apply Hnext]. apply ends_bind; [apply tok_stop_ends|].
  intros [b2 t2]. done.
Qed.

Lemma path_loop_ends name bd st : forall fuel p full b t, at_token p b t ->
  left_over p b < Z.of_nat fuel -> ends (path_loop io_load_file fuel name bd st p full b t).
Proof.
  induction fuel as [|fuel IH]; intros p full b t Ha Hf.
  { destruct p; cbn in *; [|lia]. destruct Ha as (_ & q & _ & ?). lia. }
  cbn [path_loop]. destruct p as [p|]; [|done]. destruct Ha as (Hp & q & Et & Hq). cbn in Hf.
  assert (Hnext : forall full, ends ('(p, b, t) ← StrTokenize None (Some psep) b t;
          path_loop io_load_file fuel name bd st p full b t)).
  { intros full'. eapply safe_ends with (Q := fun _ => True).
    eapply safe_bind; [apply (next_token_safe p _ _ _ _ q Et); lia|]. intros [[p2 b2] t2] H2.
    apply ends_safe. apply found_next in H2 as [H2 H3]; [|lia..]. apply IH; [done|lia]. }
  apply ends_bind; [auto with ends|]. intros c. destruct (c =? 0); [by apply Hnext|].
  apply ends_bind; [auto with ends|]. intros dir. cbv zeta. apply ends_bind; [auto with ends|]. intros _.
  destruct (loads _ _); [|by apply Hnext]. apply ends_bind; [apply tok_stop_ends|].
  intros [b2 t2]. done.
Qed.

Lemma first_token b t : safe (StrTokenize (Some 0) (Some psep) b t)
  (fun '(p, b', t) => at_token p b' t /\ left_over p b' <= Z.of_nat (length b)).
Proof.
  eapply safe_weaken; [apply (tokenize_safe 0); lia|]. intros [[p b'] t'] [Hl Hp].
  unfold at_token, left_over. destruct p as [p|]; [|split; [done|lia]]. rewrite Hl.
  destruct Hp as (H1 & q & E & H2). split; [|lia]. split; [lia|]. by exists q.
Qed.

Lemma find_module_path_ends sep name libpath t : ends (find_module_path io_load_file sep name libpath t).
Proof.
  eapply safe_ends with (Q := fun _ => True). unfold find_module_path.
  eapply safe_bind; [apply first_token|]. intros [[p b] t'] [Ha Hl]. apply ends_safe.
  apply module_path_loop_ends; [done|lia].
Qed.

Lemma find_path_ends st name t : ends (find_path io_load_file st name t).
Proof.
  unfold find_path. apply ends_bind; [apply getenv_ends|]. intros [rc [path|]]; [|done].
  apply ends_bind; [unfold deref; by destruct (strings _ _)|]. intros bd.
  eapply safe_ends with (Q := fun _ => True).
  eapply safe_bind; [apply first_token|]. intros [[p b] t'] [Ha Hl]. apply ends_safe.
  apply path_loop_ends; [done|]. rewrite length_app in Hl. cbn [length] in Hl. lia.
Qed.
End searches.

(** ** The list of modules only grows *)

Definition names (l : list node) : list (list Z) := (fun n => mod_name (first n)) <$> l.

(** No module of that name is registered. *)
Definition absent (n : list Z) (l : list node) : bool := (getrec n l).1 =? 1.

Lemma absent_names n l : absent n l = forallb (fun k => negb (stricmp n k =? 0)) (names l).
Proof.
  unfold absent. induction l as [|x l IH]; [done|]. cbn [getrec names fmap list_fmap forallb].
  destruct (stricmp n (mod_name (first x)) =? 0); [|exact IH].
  by destruct (load_status (first x) =? LOADING).
Qed.

Lemma names_set_status a st l : names (set_status a st l) = names l.
Proof.
  unfold names, set_status. rewrite <- list_fmap_compose. apply list_fmap_ext. intros i n _.
  cbn. unfold set_rec_status. by destruct (_ =? a).
Qed.

Lemma names_add_instance n r l : names (add_instance n r l) = names l.
Proof.
  induction l as [|x l IH]; [done|]. cbn [add_instance]. destruct (_ =? 0); [done|].
  unfold names in *. by rewrite !fmap_cons, IH.
Qed.

Lemma names_register a n h ex l : absent n l = true ->
  names (ModRegister a n h ex l) = names l ++ [n].
Proof.
  unfold absent, ModRegister. intros H. destruct (getrec n l) as [t p]. cbn in H.
  apply Z.eqb_eq in H as ->. unfold names. by rewrite fmap_app.
Qed.

Lemma names_register_grows a n h ex l : names l `prefix_of` names (ModRegister a n h ex l).
Proof.
  unfold ModRegister, names.
  destruct (getrec n l) as [[|t|t] [p|]]; try (rewrite fmap_app; by apply prefix_app_r).
  destruct ex; [|rewrite fmap_app; by apply prefix_app_r].
  pose proof (names_add_instance n (mkRec a n h (instance (last_instance p) + 1) DONE_LOADING) l) as E.
  unfold names in E. by rewrite E.
Qed.

Lemma absent_grows n l l' : names l `prefix_of` names l' -> absent n l' = true -> absent n l = true.
Proof.
  intros [k E]. rewrite !absent_names, E, forallb_app. by intros [H _]%andb_true_iff.
Qed.

Lemma getrec_cases n l : getrec n l = (1, None) \/ getrec n l = (-1, None) \/
  exists p, getrec n l = (0, Some p).
Proof.
  induction l as [|x l IH]; [by left|]. cbn [getrec]. destruct (_ =? 0); [|done].
  destruct (_ =? LOADING); eauto.
Qed.

(** The names among [N] that are not registered. *)
Definition missing (N : list (list Z)) (l : list node) : nat :=
  length (List.filter (fun n => absent n l) N).

Lemma missing_grows N l l' : names l `prefix_of` names l' -> (missing N l' <= missing N l)%nat.
Proof.
  intros H. unfold missing. induction N as [|n N IH]; [done|]. cbn [List.filter].
  destruct (absent n l') eqn:E; [rewrite (absent_grows n l l') by done|destruct (absent n l)];
    cbn [length]; lia.
Qed.

Lemma missing_drop N l l' n : names l `prefix_of` names l' -> n ∈ N -> absent n l = true ->
  absent n l' = false -> (missing N l' < missing N l)%nat.
Proof.
  intros H Hn E E'. induction N as [|k N IH]; [by apply elem_of_nil in Hn|].
  pose proof (missing_grows N l l' H) as Hle. unfold missing in *. cbn [List.filter].
  apply elem_of_cons in Hn as [<-|Hn].
  - rewrite E, E'. cbn [length]. lia.
  - specialize (IH Hn). destruct (absent k l') eqn:F; [rewrite (absent_grows k l l') by done|
      destruct (absent k l)]; cbn [length]; lia.
Qed.

(** ** Loading ends *)

Lemma fail_with_safe cbName name rc h s (Q : loaded -> Prop) :
  (forall rc e h', h' = h \/ h' = 0 -> Q (rc, e, h', s)) -> safe (fail_with cbName name rc h s) Q.
Proof. intros H. unfold fail_with. destruct (_ <=? _); apply H; auto. Qed.

Section loading.
Variable io_load_file : list Z -> option (list Z).
Variable ixfCopyModule : module -> module.
Variable IXFHandlers : list IXFHandler.
Variable new_module : gmap Z module -> Z.
Variable new_record : list node -> Z.
Variable blank : IXFModule.
Variable malloc_ok : bool.

(** What is known of the files that can be found: [N] are the names that their
    modules import, and [G] holds of the contents of a module structure that a
    handler has filled, or not filled yet. *)
Class Library (N : list (list Z)) (G : IXFModule -> Prop) : Prop := {
  emxwrap_in : bstr "EMXWRAP" ∈ N;
  blank_good : G blank;
  blank_imports : Modules blank = [];
  good_imports x : G x -> Forall (fun n => n ∈ N) (Modules x);
  good_entries x : G x -> Forall (fun e => ModuleName e = None) (Entries x);
  good_fixups x fs : G x -> G (set_fixups x fs);
  identify_ends f file : f ∈ IXFHandlers -> ends (Identify f file);
  load_good f path file x r mm : f ∈ IXFHandlers -> io_load_file path = Some file -> G x ->
    safe (Load f file x r mm) (fun '(_, x', _, _) => G x');
  fixup_ends f x mm : f ∈ IXFHandlers -> G x -> ends (Fixup f (FormatStruct x) mm);
  new_module_some ms : new_module ms <> 0;
  copy_good m : G (mod_ixf m) -> G (mod_ixf (ixfCopyModule m));
  copy_handler m : mod_handler (ixfCopyModule m) = mod_handler m;
  copy_file m : mod_file (ixfCopyModule m) = mod_file m
}.

Context (N : list (list Z)) (G : IXFModule -> Prop) `{!Library N G}.

Definition module_ok (m : module) : Prop :=
  G (mod_ixf m) /\ (forall f, mod_handler m = Some f -> f ∈ IXFHandlers) /\
  exists path, io_load_file path = Some (mod_file m).
Definition state_ok (s : modmgr) : Prop :=
  modules s !! 0 = None /\ forall h m, modules s !! h = Some m -> module_ok m.

(** How a state may go on. *)
Definition next_ok (s s' : modmgr) : Prop :=
  state_ok s' /\ names (mlist s) `prefix_of` names (mlist s').

#[local] Abbreviation open_module :=
  (OpenModule io_load_file ixfCopyModule IXFHandlers new_module new_record blank malloc_ok).
#[local] Abbreviation load_module :=
  (LoadModule io_load_file ixfCopyModule IXFHandlers new_module new_record blank malloc_ok).
#[local] Abbreviation imports_loop :=
  (load_imports io_load_file ixfCopyModule IXFHandlers new_module new_record blank malloc_ok).

Lemma next_refl s : state_ok s -> next_ok s s.
Proof. by split. Qed.
Lemma next_trans s1 s2 s3 : next_ok s1 s2 -> next_ok s2 s3 -> next_ok s1 s3.
Proof. intros [_ H1] [H2 H3]. split; [done|]. by etransitivity. Qed.

Lemma state_insert s h m ms l r mm c t : state_ok s -> h <> 0 -> module_ok m ->
  ms = <[h := m]> (modules s) -> state_ok (mkMM ms l r mm c t).
Proof.
  intros [H0 H] Hh Hm ->. split; cbn [modules].
  - by rewrite lookup_insert_ne.
  - intros k x [[<- <-]|[_ Hx]]%lookup_insert_Some; [done|by eapply H].
Qed.

(** A file that is found is one of the files. *)
Lemma open_file_safe name ex s :
  safe (open_file io_load_file name ex s) (fun '(rc, f, s') =>
    modules s' = modules s /\ mlist s' = mlist s /\
    (rc = NO_ERROR -> exists path, io_load_file path = Some f)).
Proof.
  unfold open_file. destruct (io_load_file name) as [f|] eqn:E; [by cbn; eauto|].
  eapply safe_bind with (P := fun '(rc, full, s') => modules s' = modules s /\ mlist s' = mlist s).
  - destruct ex.
    + apply safe_any; [apply find_path_ends|]. intros [[[rc full] b] t]. by split.
    + apply safe_any; [apply deref_ends|]. intros lp.
      apply safe_any; [apply find_module_path_ends|]. intros [[[rc full] b] t].
      apply safe_any; [apply ends_cstr|]. intros lp'. by split.
  - intros [[rc full] s'] [E1 E2]. destruct (Z.eqb_spec rc NO_ERROR); [|by cbn].
    destruct (io_load_file full) eqn:Ef; cbn; (split; [done|]; split; [done|]); [eauto|done].
Qed.

Lemma identify_safe hs file rc : (forall f, f ∈ hs -> f ∈ IXFHandlers) ->
  safe (IXFIdentifyModule hs file rc) (fun '(_, h) => forall f, h = Some f -> f ∈ IXFHandlers).
Proof.
  revert rc. induction hs as [|h hs IH]; intros rc Hh; cbn [IXFIdentifyModule]; [by cbn|].
  apply safe_any; [apply identify_ends, Hh; by left|]. intros rc'. destruct (rc' =? NO_ERROR).
  - cbn. intros f [= <-]. apply Hh. by left.
  - apply IH. intros f Hf. apply Hh. by right.
Qed.

(** A handle that a module was just opened with: null, or a structure that has not
    been filled. *)
Definition fresh_at (s : modmgr) (h : Z) (path : list Z -> Prop) : Prop :=
  h = 0 \/ exists handler addr p,
    modules s !! h = Some (mkModule blank handler addr p false) /\ path p.

Lemma open_module_safe cbName name ex s : state_ok s ->
  safe (open_module cbName name ex s) (fun '(_, _, h, s') => next_ok s s' /\
    (ex = false -> absent (get_fname name) (mlist s) = true ->
     mlist s' = mlist s /\ fresh_at s' h (fun p => p = name \/ p = bstr "SUB32.DLL"))).
Proof.
  intros Hs. unfold OpenModule, absent.
  set (path := if negb ex && _ then _ else name).
  assert (Hpath : path = name \/ path = bstr "SUB32.DLL") by (unfold path; destruct (_ && _); auto).
  clearbody path. assert (Hpost : forall rc e s1, modules s1 = modules s -> mlist s1 = mlist s ->
    (fun '(_, _, h, s') => next_ok s s' /\ (ex = false ->
      ((getrec (get_fname name) (mlist s)).1 =? 1) = true -> mlist s' = mlist s /\
      fresh_at s' h (fun p => p = name \/ p = bstr "SUB32.DLL"))) ((rc, e, 0, s1) : loaded)).
  { intros rc e s1 E1 E2. split; [|intros _ _; split; [done|by left]]. unfold next_ok, state_ok.
    by rewrite E1, E2. }
  pose proof (getrec_cases (get_fname name) (mlist s)) as Hg.
  destruct (getrec (get_fname name) (mlist s)) as [t prev].
  assert (Hopen : safe (
    '(rc, addr, s) ← open_file io_load_file path ex s;
    if negb (rc =? NO_ERROR) then fail_with cbName path rc 0 s
    else if negb malloc_ok then Ret (ERROR_NOT_ENOUGH_MEMORY, [], 0, s)
    else
      let h := new_module (modules s) in
      match prev, ex with
      | Some prev, true =>
          m ← need (modules s !! module_struct (first prev));
          let s := set_modules' s (<[h := ixfCopyModule m]> (modules s)) in
          let l := ModRegister (new_record (mlist s)) (get_fname name) h ex (mlist s) in
          Ret (NO_ERROR, [], h, set_mlist s l)
      | _, _ =>
          '(rc, handler) ← IXFIdentifyModule IXFHandlers addr 0;
          if negb (rc =? NO_ERROR) then fail_with cbName path NO_ERROR 0 s
          else
            let m := mkModule blank handler addr path ex in
            Ret (rc, [], h, set_modules' s (<[h := m]> (modules s)))
      end) (fun '(_, _, h, s') => next_ok s s' /\ (ex = false -> (t =? 1) = true ->
        mlist s' = mlist s /\ fresh_at s' h (fun p => p = name \/ p = bstr "SUB32.DLL")))).
  { eapply safe_bind; [apply open_file_safe|]. intros [[rc addr] s1] (E1 & E2 & Hf).
    assert (Hs1 : state_ok s1) by (unfold state_ok; by rewrite E1).
    destruct (Z.eqb_spec rc NO_ERROR) as [Erc|]; cbn [negb];
      [|apply fail_with_safe; intros ? ? ? [-> | ->]; by apply Hpost].
    destruct malloc_ok; cbn [negb]; [|by apply Hpost]. specialize (Hf Erc). cbv zeta.
    pose proof (new_module_some (modules s1)) as Hnz.
    assert (Hid : safe ('(rc, handler) ← IXFIdentifyModule IXFHandlers addr 0;
        if negb (rc =? NO_ERROR) then fail_with cbName path NO_ERROR 0 s1
        else Ret (rc, [], new_module (modules s1), set_modules' s1
          (<[new_module (modules s1) := mkModule blank handler addr path ex]> (modules s1))))
      (fun '(_, _, h, s') => next_ok s s' /\ (ex = false -> (t =? 1) = true ->
        mlist s' = mlist s /\ fresh_at s' h (fun p => p = name \/ p = bstr "SUB32.DLL")))).
    { eapply safe_bind; [apply identify_safe; auto|]. intros [rc' handler] Hh.
      destruct (rc' =? NO_ERROR); cbn [negb]; [|apply fail_with_safe; intros ? ? ? [-> | ->]; by apply Hpost].
      split; [split|].
      - eapply state_insert; [exact Hs1|exact Hnz| |reflexivity].
        split; [apply blank_good|]. by split.
      - cbn [set_modules' mlist]. by rewrite E2.
      - intros -> _. split; [exact E2|]. right. exists handler, addr, path.
        cbn [set_modules' modules]. by rewrite lookup_insert_eq. }
    destruct prev as [prev|]; [|exact Hid]. destruct ex; [|exact Hid].
    apply safe_need. intros m Hm. split; [split|done].
    - eapply state_insert; [exact Hs1|exact Hnz| |reflexivity].
      destruct Hs1 as [_ Hs1]. destruct (Hs1 _ _ Hm) as (Hg1 & Hg2 & Hg3). unfold module_ok.
      rewrite copy_handler, copy_file. split; [by apply copy_good|done].
    - cbn [set_modules' set_mlist mlist]. rewrite E2. apply names_register_grows. }
  destruct Hg as [Hg|[Hg|[p Hg]]]; injection Hg as -> ->; try exact Hopen.
  - apply fail_with_safe. intros ? ? ? [-> | ->]; by apply Hpost.
  - destruct ex; [exact Hopen|]. cbn. split; [by apply next_refl|done].
Qed.

Lemma handle_some s h m : state_ok s -> modules s !! h = Some m -> h <> 0.
Proof. intros [H0 _] Hm ->. congruence. Qed.

Lemma load_step_safe h s : state_ok s ->
  safe (IXFLoadModule h s) (fun '(_, s') => next_ok s s' /\ mlist s' = mlist s).
Proof.
  intros Hok. pose proof Hok as [H0 Hs]. unfold IXFLoadModule.
  apply safe_need. intros m Hm. destruct (Hs _ _ Hm) as (Hg & Hh & path & Hp).
  apply safe_need. intros f Hf.
  eapply safe_bind; [apply (load_good f path); [by apply Hh|exact Hp|exact Hg]|].
  intros [[[rc x] r] mm] Hx. cbn beta iota in Hx. split; [split|done]; [|done].
  eapply state_insert; [exact Hok|by eapply handle_some| |reflexivity].
  split; [exact Hx|]. split; [exact Hh|by exists path].
Qed.

Lemma fixup_step_safe h s : state_ok s ->
  safe (IXFFixupModule h s) (fun '(_, s') => next_ok s s' /\ mlist s' = mlist s).
Proof.
  intros [H0 Hs]. unfold IXFFixupModule. apply safe_need. intros m Hm.
  destruct (Hs _ _ Hm) as (Hg & Hh & _). apply safe_need. intros f Hf.
  apply safe_any; [apply fixup_ends; [by apply Hh|done]|]. by intros [rc mm].
Qed.

Lemma free_step_ok h s : state_ok s -> next_ok s (IXFFreeModule h s).2.
Proof.
  intros [H0 Hs]. split; [split|done]; cbn.
  - apply lookup_delete_None. by right.
  - intros k m [_ Hm]%lookup_delete_Some. by eapply Hs.
Qed.

(** Without forwarders an entry point is found at once. *)
Lemma find_by_name_safe nm es : safe (find_by_name nm es) (fun r => forall e, r = Some e -> e ∈ es).
Proof.
  induction es as [|e es IH]; cbn [find_by_name]; [by cbn|].
  apply safe_need. intros f _. apply safe_need. intros n _. destruct (bool_decide _).
  - intros e' [= <-]. by left.
  - eapply safe_weaken; [exact IH|]. intros r Hr e' He. right. by apply Hr.
Qed.

Lemma proc_addr_ends fuel ms l h ordinal nm :
  (forall h m, ms !! h = Some m -> module_ok m) ->
  ends (ModQueryProcAddr (S fuel) ms l h ordinal nm).
Proof.
  intros Hs. cbn [ModQueryProcAddr]. eapply safe_ends with (Q := fun _ => True).
  apply safe_need. intros h' _. apply safe_need. intros m Hm.
  destruct (Hs _ _ Hm) as (Hg & _). apply good_entries in Hg. rewrite Forall_forall in Hg.
  destruct (0 <? ordinal).
  - apply safe_need. intros e He%list_elem_of_lookup_2%Hg. by rewrite He.
  - eapply safe_bind; [apply find_by_name_safe|]. intros [e|] He; [|done].
    by rewrite (Hg e (He e eq_refl)).
Qed.

Lemma link_imports_ends fuel ms l fs : (forall h m, ms !! h = Some m -> module_ok m) ->
  forall s, ends (link_imports (S fuel) ms l fs s).
Proof.
  intros Hs. induction fs as [|f fs IH]; intros s; cbn [link_imports]; [done|].
  apply ends_bind.
  - unfold link_import. apply ends_bind; [auto with ends|]. intros mn.
    destruct (find_forward mn l); [|done]. apply ends_bind; [auto with ends|]. intros _.
    apply ends_bind; [by apply proc_addr_ends|]. intros [rc r].
    apply ends_bind; [apply ends_st32|done].
  - intros [[f' s']|]; [|done]. apply ends_bind; [apply IH|]. by intros [fs' s''].
Qed.

Lemma link_step_safe fuel h s : state_ok s ->
  safe (ModLinkModule (S fuel) h s) (fun s' => next_ok s s').
Proof.
  intros Hok. pose proof Hok as [H0 Hs]. unfold ModLinkModule.
  apply safe_need. intros m Hm. destruct (Hs _ _ Hm) as (Hg & Hh & Hp).
  apply safe_any; [by apply link_imports_ends|]. intros [fs mm]. split; [|done].
  eapply state_insert; [exact Hok|by eapply handle_some| |reflexivity].
  split; [by apply good_fixups|]. by split.
Qed.

(** What the recursive call is asked to do. *)
Definition imports_load (fuel : nat) (load : Z -> modmgr -> C loaded) : Prop :=
  forall h n s, state_ok s -> n ∈ N -> fresh_at s h (fun p => p = dll_name n \/ p = bstr "SUB32.DLL") ->
  (missing N (mlist s) + 2 <= fuel)%nat ->
  safe (load h s) (fun '(_, _, _, s') => next_ok s s').

Lemma dll_name_fname n : get_fname (dll_name n) = n.
Proof.
  unfold dll_name, get_fname. change (bstr ".dll") with (ch "."%char :: bstr "dll").
  rewrite last_pos_some by by apply (bool_decide_unpack _).
  destruct (Z.eqb_spec (0 + Z.of_nat (length n)) (-1)); [lia|].
  by rewrite Z.add_0_l, Nat2Z.id, take_app_length.
Qed.


(** An import that is not loaded is either being loaded, and refused, or opened. *)
Lemma open_import n s : state_ok s -> (getrec n (mlist s)).1 <> 0 ->
  safe (open_module 260 (dll_name n) false s) (fun '(rc, _, h, s') => next_ok s s' /\
    (rc = NO_ERROR ->
     mlist s' = mlist s /\ fresh_at s' h (fun p => p = dll_name n \/ p = bstr "SUB32.DLL"))).
Proof.
  intros Hs Hn. destruct (getrec_cases n (mlist s)) as [E|[E|[p E]]]; rewrite E in Hn; [| |done].
  - eapply safe_weaken; [by apply open_module_safe|]. intros [[[rc e] h] s'] [H1 H2].
    split; [done|]. intros _. apply H2; [done|]. unfold absent. by rewrite dll_name_fname, E.
  - unfold OpenModule. rewrite dll_name_fname, E. unfold fail_with.
    destruct (_ <=? _); cbn; (split; [by apply next_refl|done]).
Qed.

Lemma load_imports_safe fuel load h ex cbName path : imports_load fuel load ->
  forall ns s, Forall (fun n => n ∈ N) ns -> state_ok s -> (missing N (mlist s) + 2 <= fuel)%nat ->
  safe (imports_loop load h ex cbName path ns s) (fun '(r, s') =>
    next_ok s s' /\ forall rc e h' s'', r = Some (rc, e, h', s'') -> next_ok s s'').
Proof.
  intros Hload. induction ns as [|n ns IH]; intros s Hns Hs Hf; cbn [load_imports].
  { split; [by apply next_refl|done]. }
  inversion_clear Hns as [|? ? Hn Hns']. apply safe_require. intros _.
  assert (Hgo : forall s', next_ok s s' ->
    safe (imports_loop load h ex cbName path ns s') (fun '(r, s') =>
      next_ok s s' /\ forall rc e h' s'', r = Some (rc, e, h', s'') -> next_ok s s'')).
  { intros s' H1. pose proof (missing_grows N _ _ (proj2 H1)).
    eapply safe_weaken; [apply IH; [done|apply H1|lia]|]. intros [r s2] [H2 H3].
    split; [by eapply next_trans|]. intros. eapply next_trans; [exact H1|by eapply H3]. }
  eapply safe_bind with (P := fun '(_, s') => next_ok s s').
  - destruct (Z.eqb_spec (getrec n (mlist s)).1 0) as [_|E]; [by apply next_refl|].
    eapply safe_bind; [by apply open_import|]. intros [[[rc e] hmod] s1] [H1 Hfresh].
    destruct (Z.eqb_spec rc NO_ERROR) as [Erc|]; cbn [negb]; [|exact H1].
    destruct (Hfresh Erc) as [El Hfr]. pose proof (missing_grows N _ _ (proj2 H1)).
    eapply safe_bind; [apply (Hload _ n); [apply H1|done|done|lia]|].
    intros [[[rc2 e2] h2] s2] H2. by eapply next_trans.
  - intros [rc s1] H1. destruct (rc =? NO_ERROR); cbn [negb].
    + destruct ex; [by apply Hgo|]. eapply safe_bind; [apply fixup_step_safe, H1|].
      intros [rc2 s2] [H2 _]. assert (H3 : next_ok s s2) by by eapply next_trans.
      destruct (rc2 =? NO_ERROR); cbn [negb]; [by apply Hgo|].
      pose proof (next_trans _ _ _ H3 (free_step_ok h s2 (proj1 H3))) as H4.
      eapply safe_bind with (P := fun '(_, _, _, s') => next_ok s s').
      * apply fail_with_safe. by intros ? ? ? [-> | ->].
      * intros [[[rc3 e3] h3] s3] H5. split; [exact H4|]. by intros ? ? ? ? [= <- <- <- <-].
    + split; [exact H1|]. by intros ? ? ? ? [= <- <- <- <-].
Qed.

(** The name that a module is registered under. *)
Definition registered_as (path : list Z) : list Z :=
  if stricmp (get_fname path) (bstr "SUB32") =? 0 then bstr "EMXWRAP" else get_fname path.

Lemma import_registered n path : n ∈ N -> path = dll_name n \/ path = bstr "SUB32.DLL" ->
  registered_as path ∈ N.
Proof.
  unfold registered_as. intros Hn [-> | ->].
  - rewrite dll_name_fname. destruct (_ =? 0); [apply emxwrap_in|done].
  - apply emxwrap_in.
Qed.

Lemma register_missing n a h ex st s : absent n (mlist s) = true -> n ∈ N ->
  (missing N (set_status a st (ModRegister a n h ex (mlist s))) < missing N (mlist s))%nat.
Proof.
  intros Ha Hn. apply (missing_drop _ _ _ n); [|done|done|].
  - rewrite names_set_status. apply names_register_grows.
  - rewrite absent_names, names_set_status, names_register, forallb_app by done.
    cbn [forallb]. by rewrite stricmp_refl, andb_false_r.
Qed.

(** A module is loaded with its imports, when these are. *)
Definition enough (fuel : nat) (h : Z) (s : modmgr) : Prop :=
  (missing N (mlist s) + 2 <= fuel)%nat \/
  ((missing N (mlist s) + 1 <= fuel)%nat /\
   fresh_at s h (fun p => exists n, n ∈ N /\ (p = dll_name n \/ p = bstr "SUB32.DLL"))).

Lemma set_mlist_next s l s0 : next_ok s0 s -> names (mlist s) `prefix_of` names l ->
  next_ok s0 (set_mlist s l).
Proof. intros [H1 H2] H. split; [exact H1|]. cbn. by etransitivity. Qed.

Lemma finish_safe fuel h (ex : bool) a s0 s : next_ok s0 s ->
  safe ('(rc, s) ← (if ex then IXFFixupModule h s else Ret (NO_ERROR, s));
        if negb (rc =? NO_ERROR) then Ret ((rc, [], h, s) : loaded)
        else
          s ← ModLinkModule (S fuel) h s;
          Ret (rc, [], h, set_mlist s (set_status a DONE_LOADING (mlist s))))
    (fun '(_, _, _, s') => next_ok s0 s').
Proof.
  intros Hs. eapply safe_bind with (P := fun '(_, s') => next_ok s0 s').
  - destruct ex; [|exact Hs]. eapply safe_weaken; [apply fixup_step_safe, Hs|].
    intros [rc s'] [H _]. by eapply next_trans.
  - intros [rc s1] H1. destruct (rc =? NO_ERROR); cbn [negb]; [|exact H1].
    eapply safe_bind; [apply link_step_safe, H1|]. intros s2 H2. cbn.
    apply set_mlist_next; [by eapply next_trans|]. by rewrite names_set_status.
Qed.

Lemma load_module_safe fuel cbName h s : imports_load (S fuel) (load_module (S fuel) 260) ->
  state_ok s -> enough (S fuel) h s ->
  safe (load_module (S (S fuel)) cbName h s) (fun '(_, _, _, s') => next_ok s s').
Proof.
  intros Hload Hs Hf. remember (S fuel) as k eqn:Ek. cbn [LoadModule].
  apply safe_need. intros m Hm.
  change (if stricmp (get_fname (mod_path m)) (bstr "SUB32") =? 0 then bstr "EMXWRAP"
    else get_fname (mod_path m)) with (registered_as (mod_path m)).
  replace (if stricmp (get_fname (mod_path m)) (bstr "SUB32") =? 0
    then getrec (bstr "EMXWRAP") (mlist s) else getrec (get_fname (mod_path m)) (mlist s))
    with (getrec (registered_as (mod_path m)) (mlist s))
    by (unfold registered_as; by destruct (_ =? 0)).
  assert (Hreg : forall ex s1, next_ok s s1 -> mlist s1 = mlist s ->
    (forall m', modules s1 !! h = Some m' -> Modules (mod_ixf m') = [] \/
      (missing N (set_status (new_record (mlist s1)) LOADING (ModRegister (new_record (mlist s1))
         (registered_as (mod_path m)) h ex (mlist s1))) + 2 <= k)%nat) ->
    safe (let a := new_record (mlist s1) in
      let l := ModRegister a (registered_as (mod_path m)) h ex (mlist s1) in
      let s := set_mlist s1 (set_status a LOADING l) in
      m' ← need (modules s !! h);
      '(r, s) ← imports_loop (load_module k 260) h ex cbName (mod_path m) (Modules (mod_ixf m')) s;
      match r with
      | Some r => Ret r
      | None =>
          '(rc, s) ← (if ex then IXFFixupModule h s else Ret (NO_ERROR, s));
          if negb (rc =? NO_ERROR) then Ret (rc, [], h, s)
          else
            s ← ModLinkModule k h s;
            Ret (rc, [], h, set_mlist s (set_status a DONE_LOADING (mlist s)))
      end) (fun '(_, _, _, s') => next_ok s s')).
  { intros ex s1 H1 El Henough. cbv zeta. cbn [set_mlist modules].
    apply safe_need. intros m' Hm'.
    set (s2 := set_mlist _ _). assert (H2 : next_ok s s2).
    { apply set_mlist_next; [done|]. rewrite names_set_status. apply names_register_grows. }
    eapply safe_bind with (P := fun '(r, s') =>
      next_ok s s' /\ forall rc e h' s'', r = Some (rc, e, h', s'') -> next_ok s s'').
    - destruct (Henough _ Hm') as [E|Hk].
      + rewrite E. cbn. split; [exact H2|done].
      + eapply safe_weaken.
        * apply load_imports_safe with (fuel := k); [done| |apply H2|exact Hk].
          apply good_imports, (proj2 (proj1 H1) _ _ Hm').
        * intros [r s3] [H3 H4]. split; [by eapply next_trans|]. intros.
          eapply next_trans; [exact H2|by eapply H4].
    - intros [r s3] [H3 H4]. destruct r as [[[[rc e] h'] s4]|]; [by eapply H4|].
      rewrite Ek. by apply finish_safe. }
  destruct (getrec_cases (registered_as (mod_path m)) (mlist s)) as [E|[E|[p E]]]; rewrite E.
  - change (1 =? 1) with true. cbv iota. eapply safe_bind; [by apply load_step_safe|].
    intros [rc s1] [H1 El]. destruct (rc =? NO_ERROR); cbn [negb].
    + apply Hreg; [done|done|]. intros m' _. right. rewrite El.
      assert (Ha : absent (registered_as (mod_path m)) (mlist s) = true)
        by (unfold absent; by rewrite E).
      destruct Hf as [Hf|[Hf Hfr]].
      * pose proof (missing_grows N (mlist s) (set_status (new_record (mlist s)) LOADING
          (ModRegister (new_record (mlist s)) (registered_as (mod_path m)) h (mod_exec m)
             (mlist s)))) as Hg. rewrite names_set_status in Hg.
        specialize (Hg (names_register_grows _ _ _ _ _)). lia.
      * assert (Hn : registered_as (mod_path m) ∈ N).
        { destruct Hfr as [->|(f & file & p & Hp & n & Hn & Hpath)].
          - destruct Hs as [H0 _]. by rewrite Hm in H0.
          - rewrite Hm in Hp. injection Hp as ->. by eapply import_registered. }
        pose proof (register_missing _ (new_record (mlist s)) h (mod_exec m) LOADING s Ha Hn). lia.
    + apply fail_with_safe. intros ? ? ? _. eapply next_trans; [exact H1|]. apply free_step_ok, H1.
  - change (-1 =? 1) with false. cbv iota.
    eapply safe_bind with (P := fun r => r = (NO_ERROR, s)); [done|]. intros _ ->. cbn beta iota.
    change (NO_ERROR =? NO_ERROR) with true. cbn [negb]. apply Hreg; [by apply next_refl|done|]. intros m' Hm'. rewrite Hm in Hm'. injection Hm' as <-.
    destruct Hf as [Hf|[Hf Hfr]].
    + right. pose proof (missing_grows N (mlist s) (set_status (new_record (mlist s)) LOADING
          (ModRegister (new_record (mlist s)) (registered_as (mod_path m)) h (mod_exec m)
             (mlist s)))) as Hg. rewrite names_set_status in Hg.
      specialize (Hg (names_register_grows _ _ _ _ _)). lia.
    + left. destruct Hfr as [->|(f & file & p & Hp & _)].
      * destruct Hs as [H0 _]. by rewrite Hm in H0.
      * rewrite Hm in Hp. injection Hp as ->. apply blank_imports.
  - destruct (mod_exec m); cbn; [|by apply next_refl].
    apply set_mlist_next; [by apply next_refl|]. by rewrite names_set_status.
Qed.

Lemma imports_load_all fuel : imports_load fuel (load_module fuel 260).
Proof.
  induction fuel as [|fuel IH]; intros h n s Hs Hn Hfr Hf; [lia|].
  destruct fuel as [|fuel]; [lia|]. apply load_module_safe; [done|done|]. right. split; [lia|].
  destruct Hfr as [->|(f & file & p & Hp & Hpath)]; [by left|]. right.
  exists f, file, p. split; [done|]. by exists n.
Qed.

(** C7: Loading a module ends, whatever the modules import and even if they import
    each other, as long as none of the entries they export is a forwarder: given the
    names [N] that the modules of the files that can be found import, a call needs no
    more than [length N + 4] levels of recursion, as each level but the first two
    registers one of the names.  The formats of the files are any whose own handlers
    end; the list of modules only grows.  Forwarders may make linking endless
    ([forwarder_cycle]). *)
Theorem load_terminates fuel cbName name ex s : state_ok s -> (length N + 4 <= fuel)%nat ->
  safe (load_named io_load_file ixfCopyModule IXFHandlers new_module new_record blank malloc_ok
          fuel cbName name ex s) (fun '(_, _, _, s') => next_ok s s').
Proof.
  intros Hs Hf. unfold load_named. eapply safe_bind; [by apply open_module_safe|].
  intros [[[rc e] h] s1] [H1 _]. destruct (rc =? NO_ERROR); cbn [negb]; [|exact H1].
  assert (Hm : (missing N (mlist s1) <= length N)%nat).
  { unfold missing. pose proof (filter_length_le (fun n => absent n (mlist s1)) N). lia. }
  destruct fuel as [|[|fuel]]; [lia..|]. eapply safe_weaken; [apply load_module_safe|].
  - apply imports_load_all.
  - apply H1.
  - left. lia.
  - intros [[[rc2 e2] h2] s2] H2. by eapply next_trans.
Qed.
End loading.

(** Two modules that import each other. *)
Definition pair_provider (path : list Z) : option (list Z) :=
  if bool_decide (path = bstr "A.dll") then Some (bstr "B")
  else if bool_decide (path = bstr "B.dll") then Some (bstr "A") else None.
Definition pair_imports (file : list Z) : IXFModule := LxLoad.set_modules blank_ixf [file] true.
Definition pair_format : IXFHandler :=
  mkHandler (fun _ => Ret NO_ERROR) (fun file _ r mm => Ret (NO_ERROR, pair_imports file, r, mm))
    (fun _ mm => Ret (NO_ERROR, mm)).
Definition pair_good (x : IXFModule) : Prop :=
  Forall (fun n => n ∈ [bstr "EMXWRAP"; bstr "A"; bstr "B"]) (Modules x) /\
  Forall (fun e => ModuleName e = None) (Entries x).

#[local] Instance pair_library :
  Library pair_provider id [pair_format] (fun ms => 6000 + Z.of_nat (base.size ms)) blank_ixf
    [bstr "EMXWRAP"; bstr "A"; bstr "B"] pair_good.
Proof.
  split; try done.
  - by left.
  - by intros x [H _].
  - by intros x [_ H].
  - by intros f file ->%list_elem_of_singleton.
  - intros f path file x r mm ->%list_elem_of_singleton Hfile _. cbn. split; [|constructor].
    apply Forall_singleton. unfold pair_provider in Hfile.
    destruct (bool_decide _); [injection Hfile as <-; by right; right; left|].
    destruct (bool_decide _); [injection Hfile as <-; by right; left|done].
  - by intros f x mm ->%list_elem_of_singleton.
  - intros ms. lia.
Qed.

Definition pair_start : modmgr := mkMM ∅ [] init_memmgr demo_mem demo_cfg (mkTok None 0).
#[local] Abbreviation pair_load fuel :=
  (load_named pair_provider id [pair_format] (fun ms => 6000 + Z.of_nat (base.size ms))
     (fun l => 50 + Z.of_nat (length l)) blank_ixf true fuel 260 (bstr "A.dll") false pair_start).

Lemma load_terminates_witness : ends (pair_load 7) /\ match pair_load 7 with
  | Ret (rc, _, _, _) => rc = ERROR_MOD_NOT_FOUND
  | _ => False end.
Proof.
  split; [|by vm_compute]. eapply safe_ends.
  apply (load_terminates pair_provider id [pair_format] (fun ms => 6000 + Z.of_nat (base.size ms))
     (fun l => 50 + Z.of_nat (length l)) blank_ixf true
     [bstr "EMXWRAP"; bstr "A"; bstr "B"] pair_good 7 260 (bstr "A.dll") false pair_start).
  - by split.
  - cbn. lia.
Defined.
