(* ===== verification/ExcApi.v ===== *)
(** * The executable server's calls ([OS2/Server/shared/server/os2exec/api/api.c])

    What the servers and the programs ask of the module manager of [ModMgr]:
    opening and loading, the imported modules and the sections of a module one
    after the other, and sharing all sections of a module and of what it imports
    with a program (platform/l4env, api-local.c).  Also the formats that
    [load_ixfs] makes known: LX, of [LxLoad], and NE (lib/ixf/ne/ne.c). *)
From S2P Require Import Prelude MemMgr CfgParser LxMod LxLoad PathSearch ModMgr.

Definition ERROR_BAD_FORMAT : Z := 11.
Definition ERROR_INVALID_PARAMETER : Z := 87.

(** ** The formats *)

Definition NEIdentify (addr : list Z) : C Z :=
  mz ← chars_are addr 0 "M" "Z";
  stub ← (if (mz : bool) then Ret true else chars_are addr 0 "Z" "M");
  ne_module_header_offset ← (if (stub : bool) then rd32 addr ENEWHDR else Ret 0);
  ne ← chars_are addr ne_module_header_offset "N" "E";
  Ret (if (ne : bool) then NO_ERROR else ERROR_BAD_FORMAT).
Definition NELoad (addr : list Z) (x : IXFModule) (r : registry) (s : mem)
    : C (Z * IXFModule * registry * mem) := Ret (ERROR_BAD_FORMAT, x, r, s).
Definition NEFixup (m : LX_module) (s : mem) : C (Z * mem) := Ret (ERROR_BAD_FORMAT, s).
Definition NE_handler : IXFHandler := mkHandler NEIdentify NELoad NEFixup.

(** The flags say which of the libraries lx.ixf and ne.ixf [dlopen] finds. *)
Definition load_ixfs (lx ne : bool) (l4_alloc_mem : mem -> Z -> Z -> bool -> mem * Z)
    (malloc_ok : bool) : Z * list IXFHandler :=
  if negb lx then (1, [])
  else
    let handler := LX_handler l4_alloc_mem malloc_ok in
    if negb ne then (1, [handler]) else (0, [handler; NE_handler]).

(** ** The calls *)

Record os2exec_module_t := mkExec { ip : Z; sp : Z; sp_limit : Z; em_hmod : Z; exeflag : bool }.

Section exec.
Variable io_load_file : list Z -> option (list Z).
Variable ixfCopyModule : module -> module.
Variable IXFHandlers : list IXFHandler.
Variable new_module : gmap Z module -> Z.
Variable new_record : list node -> Z.
Variable blank : IXFModule.
Variable malloc_ok : bool.

#[local] Abbreviation open_module :=
  (OpenModule io_load_file ixfCopyModule IXFHandlers new_module new_record blank malloc_ok).
#[local] Abbreviation load_module :=
  (LoadModule io_load_file ixfCopyModule IXFHandlers new_module new_record blank malloc_ok).

Definition ExcOpen (cbLoadError : Z) (pszModname : list Z) (exec : bool) (s : modmgr) : C loaded :=
  open_module cbLoadError pszModname exec s.

(** The module is looked at whatever the return code. *)
Definition ExcLoad (fuel : nat) (cbLoadError hmod : Z) (s : modmgr)
    : C (Z * list Z * Z * os2exec_module_t * modmgr) :=
  '(rc, err, hmod, s) ← load_module fuel cbLoadError hmod s;
  m ← need (modules s !! hmod);
  let x := mod_ixf m in
  Ret (rc, err, hmod, mkExec (EntryPoint x) (stack_high x) (stack_low x) hmod (mod_exec m), s).

(** The return code, [*index] and [*imp_hmod] if it is stored. *)
Definition ExcGetImp (hmod index : Z) (s : modmgr) : C (Z * Z * option Z * modmgr) :=
  if hmod =? 0 then Ret (ERROR_INVALID_PARAMETER, index, None, s)
  else
    m ← need (modules s !! hmod);
    match Modules (mod_ixf m) !! Z.to_nat index with
    | None => Ret (ERROR_MOD_NOT_FOUND, index, None, s)
    | Some name =>
        '(rc, _, hmod2, s) ← open_module 260 name false s;
        if negb (rc =? NO_ERROR) then Ret (ERROR_MOD_NOT_FOUND, index, None, s)
        else Ret (rc, u32 (index + 1), Some hmod2, s)
    end.

(** The loop of [ExcGetSect]: [i] and [r] at its end. *)
Fixpoint sect_loop (s : list section) (i stop : Z) (r : option section) : Z * option section :=
  match s with
  | [] => (i, r)
  | sec :: s => if i <? stop then sect_loop s (i + 1) stop (Some sec) else (i, r)
  end.

(** The return code, [*index] and the section that is copied, if any. *)
Definition ExcGetSect (hmod index : Z) (s : modmgr) : C (Z * Z * option section) :=
  m ← need (modules s !! hmod);
  match seclist (mod_ixf m) with
  | [] => Ret (1, index, None)
  | l =>
      let '(i, r) := sect_loop l 0 (u32 (index + 1)) None in
      if i <? index then Ret (1, index, None)
      else r ← need r; Ret (0, u32 (index + 1), Some r)
  end.

(** ** Sharing a module with a program

    [ds_of] is the dataspace of a section, which the host's allocator made, and
    [DataspaceShare ds rights] the return code for the program; the log has the
    calls of it that were made.  All sections are readable and writable. *)
Section share.
Variable ds_of : section -> Z.
Variable L4DM_READ : Z.
Variable L4DM_WRITE : Z.
Variable DataspaceShare : Z -> Z -> Z.

Definition SECTYPE_READ : Z := 1.
Definition SECTYPE_WRITE : Z := 2.
Definition SECTYPE_EXECUTE : Z := 4.
(** The type that the loader gives to every section. *)
Definition section_type (s : section) : Z := Z.lor (Z.lor SECTYPE_READ SECTYPE_WRITE) SECTYPE_EXECUTE.

Definition section_rights (s : section) : Z :=
  let rights := if negb (Z.land (section_type s) SECTYPE_READ =? 0) then L4DM_READ else 0 in
  if negb (Z.land (section_type s) SECTYPE_WRITE =? 0) then Z.lor rights L4DM_WRITE else rights.

Fixpoint share_sections (l : list section) (log : list (Z * Z)) : Z * list (Z * Z) :=
  match l with
  | [] => (0, log)
  | sec :: l =>
      let rc := DataspaceShare (ds_of sec) (section_rights sec) in
      let log := log ++ [(ds_of sec, section_rights sec)] in
      if negb (rc =? 0) then (rc, log) else share_sections l log
  end.

(** The loop over the imports: [share] is the recursive call, [n] bounds the
    number of turns. *)
Fixpoint share_imports (n : nat) (share : Z -> modmgr -> list (Z * Z) -> C (Z * modmgr * list (Z * Z)))
    (hmod index : Z) (s : modmgr) (log : list (Z * Z)) : C (Z * modmgr * list (Z * Z)) :=
  match n with
  | O => NoFuel
  | S n =>
      '(rc, index, imp, s) ← ExcGetImp hmod index s;
      if negb (rc =? 0) then Ret (rc, s, log)
      else
        imp_hmod ← need imp;
        if imp_hmod =? 0 then share_imports n share hmod index s log
        else
          '(rc, s, log) ← share imp_hmod s log;
          if negb (rc =? 0) then Ret (rc, s, log) else share_imports n share hmod index s log
  end.

Fixpoint excShare (fuel : nat) (hmod : Z) (s : modmgr) (log : list (Z * Z))
    : C (Z * modmgr * list (Z * Z)) :=
  match fuel with
  | O => NoFuel
  | S fuel =>
      m ← need (modules s !! hmod);
      let '(rc, log) := share_sections (seclist (mod_ixf m)) log in
      if negb (rc =? 0) then Ret (rc, s, log)
      else
        '(rc, s, log) ← share_imports (S (length (Modules (mod_ixf m)))) (excShare fuel) hmod 0 s log;
        if rc =? ERROR_MOD_NOT_FOUND then Ret (0, s, log) else Ret (rc, s, log)
  end.
Definition ExcShare := excShare.
End share.

Definition ExcQueryProcAddr (fuel : nat) (hmod ordinal : Z) (pszName : option (list Z)) (s : modmgr)
    : C (Z * option Z) := ModQueryProcAddr fuel (modules s) (mlist s) hmod ordinal pszName.
Definition ExcQueryModuleHandle (pszModname : list Z) (s : modmgr) : Z * Z :=
  ModQueryModuleHandle pszModname (mlist s).
Definition ExcQueryModuleName (hmod cbBuf : Z) (s : modmgr) : Z * option (list Z) :=
  ModQueryModuleName hmod cbBuf (mlist s).

(** ** Going through all of them, as the callers do *)

(** The imported modules, from [index] on, until a call fails. *)
Fixpoint imports_from (n : nat) (hmod index : Z) (s : modmgr) : C (list Z * Z * modmgr) :=
  match n with
  | O => NoFuel
  | S n =>
      '(rc, index, imp, s) ← ExcGetImp hmod index s;
      if negb (rc =? 0) then Ret ([], rc, s)
      else
        h ← need imp;
        '(hs, rc, s) ← imports_from n hmod index s;
        Ret (h :: hs, rc, s)
  end.

Fixpoint sections_from (n : nat) (hmod index : Z) (s : modmgr) : C (list section) :=
  match n with
  | O => NoFuel
  | S n =>
      '(rc, index, sec) ← ExcGetSect hmod index s;
      if negb (rc =? 0) then Ret []
      else
        r ← need sec;
        l ← sections_from n hmod index s;
        Ret (r :: l)
  end.
End exec.

(** ** Proofs *)

Section formats.
Lemma ne_identify_sig stream off c d :
  header_at stream off -> bytes_at stream off [c; d] ->
  (off = 0 -> is_sig [c; d] "M" "Z" || is_sig [c; d] "Z" "M" = false) ->
  NEIdentify stream = Ret (if is_sig [c; d] "N" "E" then NO_ERROR else ERROR_BAD_FORMAT).
Proof.
  intros Hat Hcd Hmz. unfold NEIdentify. rewrite (module_header _ off c d) by done.
  by rewrite (chars_are_sig _ _ _ _ _ _ Hcd).
Qed.

(** A file is of the format that its signature names, with or without a DOS stub:
    of the formats that [load_ixfs] makes known LX is found for LX, NE for NE and
    none for anything else. *)
Theorem format_found alloc malloc_ok stream off c d :
  header_at stream off -> bytes_at stream off [c; d] ->
  (off = 0 -> is_sig [c; d] "M" "Z" || is_sig [c; d] "Z" "M" = false) ->
  IXFIdentifyModule (load_ixfs true true alloc malloc_ok).2 stream 0 =
    Ret (if is_sig [c; d] "L" "X" then (NO_ERROR, Some (LX_handler alloc malloc_ok))
         else if is_sig [c; d] "N" "E" then (NO_ERROR, Some NE_handler)
         else (ERROR_BAD_FORMAT, None)).
Proof.
  intros Hat Hcd Hmz. unfold load_ixfs. cbn [negb snd IXFIdentifyModule LX_handler NE_handler Identify].
  rewrite (identify_sig _ _ _ _ Hat Hcd Hmz), (ne_identify_sig _ _ _ _ Hat Hcd Hmz).
  destruct (is_sig [c; d] "L" "X"); [done|]. by destruct (is_sig [c; d] "N" "E").
Qed.
End formats.

Lemma sect_loop_spec l : forall i stop r, 0 <= i <= stop ->
  sect_loop l i stop r =
    (Z.min stop (i + Z.of_nat (length l)),
     match last (take (Z.to_nat (stop - i)) l) with Some x => Some x | None => r end).
Proof.
  induction l as [|x l IH]; intros i stop r Hi; cbn [sect_loop length].
  { rewrite take_nil. f_equal. lia. }
  destruct (Z.ltb_spec i stop).
  - rewrite IH by lia. replace (Z.to_nat (stop - i)) with (S (Z.to_nat (stop - (i + 1)))) by lia.
    cbn [take]. f_equal; [lia|]. rewrite last_cons. by destruct (last _).
  - replace stop with i by lia. rewrite Z.sub_diag. f_equal. lia.
Qed.

Lemma get_sect_spec s hmod m L i : modules s !! hmod = Some m -> seclist (mod_ixf m) = L ->
  L <> [] -> 0 <= i -> i + 1 < 2 ^ 32 ->
  ExcGetSect hmod i s =
    if i <=? Z.of_nat (length L) then Ret (0, i + 1, last (take (Z.to_nat (i + 1)) L))
    else Ret (1, i, None).
Proof.
  intros Hm Hs Hne H0 Hi. unfold ExcGetSect. rewrite Hm. cbn [need mbind C_bind]. rewrite Hs.
  destruct L as [|y L]; [done|]. rewrite u32_id by (unfold is_u32; lia).
  rewrite sect_loop_spec, Z.sub_0_r by lia. cbn [length] in *. destruct (Z.leb_spec i (Z.of_nat (S (length L)))).
  - destruct (Z.ltb_spec (Z.min (i + 1) (0 + Z.of_nat (S (length L)))) i); [lia|].
    replace (Z.to_nat (i + 1)) with (S (Z.to_nat i)) by lia. cbn [take]. by rewrite last_cons; destruct (last _).
  - destruct (Z.ltb_spec (Z.min (i + 1) (0 + Z.of_nat (S (length L)))) i); [done|lia].
Qed.

(** Asking for the sections of a module one after the other gives them in order,
    but the last one twice. *)
Theorem last_section_twice s hmod m l x : modules s !! hmod = Some m ->
  seclist (mod_ixf m) = l ++ [x] -> Z.of_nat (length l) + 3 < 2 ^ 32 ->
  sections_from (3 + length l) hmod 0 s = Ret (l ++ [x; x]).
Proof.
  intros Hm Hs Hl. set (L := l ++ [x]) in *. assert (EL : length L = S (length l)).
  { unfold L. rewrite length_app. cbn. lia. }
  assert (Hstep : forall n i, Z.of_nat i <= Z.of_nat (length L) ->
    sections_from (S n) hmod (Z.of_nat i) s =
      (r ← need (last (take (S i) L)); l ← sections_from n hmod (Z.of_nat (S i)) s; Ret (r :: l))).
  { intros n i Hi. cbn [sections_from]. rewrite (get_sect_spec s hmod m L) by (done || lia || by destruct l).
    destruct (Z.leb_spec (Z.of_nat i) (Z.of_nat (length L))); [|lia]. cbn [mbind C_bind].
    change (negb (0 =? 0)) with false. cbv iota. replace (Z.to_nat (Z.of_nat i + 1)) with (S i) by lia.
    by replace (Z.of_nat i + 1) with (Z.of_nat (S i)) by lia. }
  enough (H : forall k i, (i + k = length l)%nat ->
    sections_from (3 + k) hmod (Z.of_nat i) s = Ret (drop i l ++ [x; x])) by apply (H (length l) O eq_refl).
  induction k as [|k IH]; intros i Hi.
  - replace i with (length l) by lia. change (3 + 0)%nat with 3%nat. rewrite !Hstep by lia.
    rewrite !take_ge by lia. unfold L. rewrite last_snoc. cbn [need mbind C_bind].
    cbn [sections_from]. rewrite (get_sect_spec s hmod m L) by (done || lia || by destruct l).
    destruct (Z.leb_spec (Z.of_nat (S (S (length l)))) (Z.of_nat (length L))); [lia|]. cbn.
    by rewrite drop_ge by lia.
  - change (3 + S k)%nat with (S (3 + k))%nat. rewrite Hstep by lia.
    destruct (lookup_lt_is_Some_2 l i) as [y Ey]; [lia|].
    assert (E : last (take (S i) L) = Some y).
    { unfold L. rewrite take_app_le by lia. by rewrite (take_S_r _ _ _ Ey), last_snoc. }
    rewrite E. cbn [need mbind C_bind]. rewrite IH by lia. cbn [mbind C_bind].
    by rewrite (drop_S _ _ _ Ey).
Qed.

Section exec_proofs.
Context (io_load_file : list Z -> option (list Z)) (ixfCopyModule : module -> module)
  (IXFHandlers : list IXFHandler) (new_module : gmap Z module -> Z) (new_record : list node -> Z)
  (blank : IXFModule) (malloc_ok : bool).
#[local] Abbreviation get_imp :=
  (ExcGetImp io_load_file ixfCopyModule IXFHandlers new_module new_record blank malloc_ok).

(** The imported module of that name is loaded and has the handle. *)
Definition loaded_as (s : modmgr) (n : list Z) (h : Z) : Prop :=
  exists p, getrec (get_fname n) (mlist s) = (0, Some p) /\ module_struct (first p) = h.

Lemma get_imp_some s hmod m i n h : hmod <> 0 -> modules s !! hmod = Some m ->
  Modules (mod_ixf m) !! i = Some n -> loaded_as s n h ->
  get_imp hmod (Z.of_nat i) s = Ret (NO_ERROR, u32 (Z.of_nat i + 1), Some h, s).
Proof.
  intros Hh Hm Hn (p & Hp & <-). unfold ExcGetImp. destruct (Z.eqb_spec hmod 0); [done|].
  rewrite Hm. cbn [need mbind C_bind]. rewrite Nat2Z.id, Hn. unfold OpenModule. by rewrite Hp.
Qed.

Lemma get_imp_end s hmod m : hmod <> 0 -> modules s !! hmod = Some m ->
  let n := Z.of_nat (length (Modules (mod_ixf m))) in
  get_imp hmod n s = Ret (ERROR_MOD_NOT_FOUND, n, None, s).
Proof.
  intros Hh Hm. unfold ExcGetImp. destruct (Z.eqb_spec hmod 0); [done|]. rewrite Hm.
  cbn [need mbind C_bind]. by rewrite Nat2Z.id, lookup_ge_None_2.
Qed.

(** Asking for the imported modules of a loaded module one after the other gives
    their handles in order, then ERROR_MOD_NOT_FOUND, and changes nothing. *)
Theorem imports_enumerated s hmod m hs : hmod <> 0 -> modules s !! hmod = Some m ->
  Forall2 (loaded_as s) (Modules (mod_ixf m)) hs -> Z.of_nat (length hs) < 2 ^ 32 ->
  imports_from io_load_file ixfCopyModule IXFHandlers new_module new_record blank malloc_ok
    (S (length hs)) hmod 0 s = Ret (hs, ERROR_MOD_NOT_FOUND, s).
Proof.
  intros Hh Hm Hf Hl. pose proof (Forall2_length _ _ _ Hf) as El.
  enough (H : forall k i, (i + k = length hs)%nat ->
    imports_from io_load_file ixfCopyModule IXFHandlers new_module new_record blank malloc_ok
      (S k) hmod (Z.of_nat i) s = Ret (drop i hs, ERROR_MOD_NOT_FOUND, s)) by apply (H (length hs) O eq_refl).
  induction k as [|k IH]; intros i Hi.
  - cbn [imports_from]. pose proof (get_imp_end s hmod m Hh Hm) as E. cbv zeta in E.
    replace (Z.of_nat i) with (Z.of_nat (length (Modules (mod_ixf m)))) by lia. rewrite E.
    cbn. by rewrite drop_ge by lia.
  - remember (S k) as k' eqn:Ek. cbn [imports_from]. subst k'. destruct (lookup_lt_is_Some_2 hs i) as [h Eh]; [lia|].
    destruct (Forall2_lookup_r _ _ _ _ _ Hf Eh) as (n & En & Hn).
    rewrite (get_imp_some s hmod m i n h) by done. cbn [mbind C_bind].
    change (negb (NO_ERROR =? 0)) with false. cbv iota. cbn [need mbind C_bind].
    rewrite u32_id by (unfold is_u32; lia). replace (Z.of_nat i + 1) with (Z.of_nat (S i)) by lia.
    rewrite IH by lia. cbn [mbind C_bind]. by rewrite (drop_S _ _ _ Eh).
Qed.

(** ** Sharing *)

Section share_proofs.
Context (ds_of : section -> Z) (rd wr : Z) (DataspaceShare : Z -> Z -> Z).
Context (Hshare : forall ds r, DataspaceShare ds r = 0).
Context (s : modmgr).
#[local] Abbreviation share :=
  (excShare io_load_file ixfCopyModule IXFHandlers new_module new_record blank malloc_ok
     ds_of rd wr DataspaceShare).
#[local] Abbreviation the_imports :=
  (share_imports io_load_file ixfCopyModule IXFHandlers new_module new_record blank malloc_ok).

(** [h] imports the module [h'], which is no module of the host's own. *)
Definition imports (h h' : Z) : Prop := h' <> 0 /\
  exists m n, modules s !! h = Some m /\ n ∈ Modules (mod_ixf m) /\ loaded_as s n h'.

(** The modules of [P] and what they import are loaded, and so on; the rank says
    that they do not import each other in a circle. *)
Definition resolved (P : Z -> Prop) (rank : Z -> nat) : Prop := forall h m, P h ->
  modules s !! h = Some m -> h <> 0 ->
  Z.of_nat (length (Modules (mod_ixf m))) < 2 ^ 32 /\
  Forall (fun n => exists h', loaded_as s n h' /\
    (h' = 0 \/ P h' /\ is_Some (modules s !! h') /\ (rank h' < rank h)%nat)) (Modules (mod_ixf m)).

(** The calls for one module. *)
Definition own_shares (m : module) : list (Z * Z) :=
  (fun sec => (ds_of sec, Z.lor rd wr)) <$> seclist (mod_ixf m).

Lemma share_sections_all l : forall log, share_sections ds_of rd wr DataspaceShare l log =
  (0, log ++ ((fun sec => (ds_of sec, Z.lor rd wr)) <$> l)).
Proof.
  induction l as [|sec l IH]; intros log; cbn [share_sections fmap list_fmap]; [by rewrite app_nil_r|].
  rewrite Hshare. change (negb (0 =? 0)) with false. cbv iota. rewrite IH, <- app_assoc. done.
Qed.

(** What a call for the module [h] adds to the log: the sections of the modules that
    are reached. *)
Definition shared_from (h : Z) (l : list (Z * Z)) : Prop :=
  forall e, e ∈ l <-> exists h' m, rtc imports h h' /\ modules s !! h' = Some m /\ e ∈ own_shares m.

Lemma share_imports_all P rank fuel h m : P h -> h <> 0 -> modules s !! h = Some m -> resolved P rank ->
  (forall h' m' log, P h' -> h' <> 0 -> modules s !! h' = Some m' -> (rank h' < rank h)%nat ->
     exists l, share fuel h' s log = Ret (0, s, log ++ l) /\ shared_from h' l) ->
  forall k i log, (i + k = length (Modules (mod_ixf m)))%nat ->
  exists l, the_imports (S k) (share fuel) h (Z.of_nat i) s log =
      Ret (ERROR_MOD_NOT_FOUND, s, log ++ l) /\
    forall e, e ∈ l <-> exists n h', n ∈ drop i (Modules (mod_ixf m)) /\ h' <> 0 /\ loaded_as s n h' /\
      exists h'' m'', rtc imports h' h'' /\ modules s !! h'' = Some m'' /\ e ∈ own_shares m''.
Proof.
  intros HP Hh Hm Hres Hrec. destruct (Hres h m HP Hm Hh) as [Hlen Hall].
  induction k as [|k IH]; intros i log Hi.
  - exists []. cbn [share_imports]. pose proof (get_imp_end s h m Hh Hm) as E. cbv zeta in E.
    replace (Z.of_nat i) with (Z.of_nat (length (Modules (mod_ixf m)))) by lia. rewrite E.
    cbn. rewrite app_nil_r. split; [done|]. intros e. rewrite drop_ge by lia.
    split; [by intros ?%elem_of_nil|]. intros (n & h' & Hn & _). by apply elem_of_nil in Hn.
  - remember (S k) as k' eqn:Ek. cbn [share_imports]. subst k'.
    destruct (lookup_lt_is_Some_2 (Modules (mod_ixf m)) i) as [n En]; [lia|].
    rewrite Forall_forall in Hall. destruct (Hall n) as (h' & Hld & Hcase); [by eapply list_elem_of_lookup_2|].
    rewrite (get_imp_some s h m i n h') by done. cbn [mbind C_bind].
    change (negb (NO_ERROR =? 0)) with false. cbv iota. cbn [need mbind C_bind].
    rewrite u32_id by (unfold is_u32; lia). replace (Z.of_nat i + 1) with (Z.of_nat (S i)) by lia.
    rewrite (drop_S _ _ _ En). assert (Huniq : forall h2, loaded_as s n h2 -> h2 = h').
    { intros h2 (p & Ep & <-). destruct Hld as (p' & Ep' & <-). congruence. }
    destruct (Z.eqb_spec h' 0) as [->|Hne].
    + destruct (IH (S i) log ltac:(lia)) as (l & -> & Hl). exists l. split; [done|]. intros e. rewrite Hl.
      split; intros (n' & h2 & Hn & Hrest); [exists n', h2; split; [by right|done]|].
      apply elem_of_cons in Hn as [->|Hn]; [|by exists n', h2].
      destruct Hrest as (H2 & H3%Huniq & _). done.
    + destruct Hcase as [?|(HP' & [m' Em'] & Hr)]; [done|].
      destruct (Hrec h' m' log HP' Hne Em' Hr) as (l1 & -> & Hl1). cbn [mbind C_bind].
      change (negb (0 =? 0)) with false. cbv iota.
      destruct (IH (S i) (log ++ l1) ltac:(lia)) as (l2 & -> & Hl2). exists (l1 ++ l2).
      split; [by rewrite app_assoc|]. unfold shared_from in Hl1. intros e.
      rewrite elem_of_app, Hl1, Hl2. split.
      * intros [H1|(n' & h2 & Hn & H2)]; [exists n, h'; split; [by left|done]|].
        exists n', h2. split; [by right|done].
      * intros (n' & h2 & [->|Hn]%elem_of_cons & H2 & H3 & H4).
        -- apply Huniq in H3 as ->. by left.
        -- right. by exists n', h2.
Qed.

(** Sharing a module with a program, when all it needs is loaded and no modules
    import each other in a circle, ends without error, and the dataspaces that are
    shared, readable and writable, are those of the sections of the modules that are
    reached by imports. *)
Theorem share_reaches_imports P rank fuel h m log : resolved P rank -> P h -> h <> 0 ->
  modules s !! h = Some m -> (rank h < fuel)%nat ->
  exists l, share fuel h s log = Ret (0, s, log ++ l) /\ shared_from h l.
Proof.
  intros Hres. revert h m log. induction fuel as [|fuel IH]; intros h m log HP Hh Hm Hr; [lia|].
  cbn [excShare]. rewrite Hm. cbn [need mbind C_bind]. rewrite share_sections_all.
  change (negb (0 =? 0)) with false. cbv iota.
  destruct (share_imports_all P rank fuel h m HP Hh Hm Hres) with (k := length (Modules (mod_ixf m))) (i := O)
    (log := log ++ own_shares m) as (l & E & Hl); [|done|].
  { intros h' m' log' HP' Hh' Hm' Hr'. apply (IH h' m'); [done|done|done|lia]. }
  change (Z.of_nat 0) with 0 in E. unfold own_shares in E. rewrite E. cbn [mbind C_bind].
  change (ERROR_MOD_NOT_FOUND =? ERROR_MOD_NOT_FOUND) with true. cbv iota.
  exists (own_shares m ++ l). split; [by rewrite app_assoc|]. intros e. rewrite elem_of_app, Hl. split.
  - intros [He|(n & h' & Hn & Hne & Hld & h2 & m2 & H1 & H2 & H3)]; [by exists h, m|].
    exists h2, m2. split; [|done]. eapply rtc_l; [|exact H1]. split; [done|]. by exists m, n.
  - intros (h2 & m2 & H1 & H2 & H3). inversion H1 as [|? h' ? (Hne & m' & n & Em & Hn & Hld) H4]; subst.
    + left. congruence.
    + right. replace m' with m in * by congruence. exists n, h'. split; [done|]. split; [done|].
      split; [done|]. by exists h2, m2.
Qed.
End share_proofs.

End exec_proofs.

Section ne_proofs.
Context (io_load_file : list Z -> option (list Z)) (ixfCopyModule : module -> module)
  (new_module : gmap Z module -> Z) (new_record : list node -> Z) (blank : IXFModule).

(** A module in the NE format is recognised, opened and refused: loading it returns
    ERROR_BAD_FORMAT with the name of the file, and everything is as before. *)
Theorem ne_file_refused alloc fuel cbName name f s off c d :
  io_load_file name = Some f -> header_at f off -> bytes_at f off [c; d] ->
  (off = 0 -> is_sig [c; d] "M" "Z" || is_sig [c; d] "Z" "M" = false) ->
  is_sig [c; d] "L" "X" = false -> is_sig [c; d] "N" "E" = true ->
  getrec (get_fname name) (mlist s) = (1, None) ->
  stricmp (get_fname name) (bstr "EMXWRAP") <> 0 -> stricmp (get_fname name) (bstr "SUB32") <> 0 ->
  modules s !! new_module (modules s) = None -> Z.of_nat (length name) < cbName ->
  ModLoadModule io_load_file ixfCopyModule (load_ixfs true true alloc true).2 new_module new_record
    blank true (S fuel) cbName name s = Ret (ERROR_BAD_FORMAT, name, 0, s).
Proof.
  intros Hf Hat Hcd Hmz Hlx Hne Hg He Hsub Hnew Hcb. unfold ModLoadModule, load_named.
  rewrite (open_direct io_load_file ixfCopyModule (load_ixfs true true alloc true).2 new_module new_record
    blank cbName name f s Hf Hg He).
  unfold load_ixfs. cbn [negb snd IXFIdentifyModule LX_handler NE_handler Identify].
  rewrite (identify_sig _ _ _ _ Hat Hcd Hmz), (ne_identify_sig _ _ _ _ Hat Hcd Hmz), Hlx, Hne.
  cbn [mbind C_bind]. change (11 =? NO_ERROR) with false. change (NO_ERROR =? NO_ERROR) with true.
  cbv iota. cbn [mbind C_bind]. change (negb (NO_ERROR =? NO_ERROR)) with false.
  cbv iota. cbn [mbind C_bind]. change (negb (NO_ERROR =? NO_ERROR)) with false.
  cbv iota. cbn [LoadModule set_modules' modules]. rewrite lookup_insert_eq.
  cbn [need mbind C_bind mod_path set_modules' mlist mod_exec].
  destruct (Z.eqb_spec (stricmp (get_fname name) (bstr "SUB32")) 0); [done|]. rewrite Hg.
  change (1 =? 1) with true. cbv iota. unfold IXFLoadModule. cbv beta iota delta [modules set_modules'].
  rewrite lookup_insert_eq. cbn [need mbind C_bind mod_handler Load NE_handler NELoad]. change (ERROR_BAD_FORMAT =? NO_ERROR) with false.
  cbn [negb]. unfold fail_with. destruct (Z.leb_spec cbName (Z.of_nat (length name))); [lia|].
  f_equal. f_equal. unfold IXFFreeModule, set_memory, set_modules'. cbn [snd modules mlist root_area memory config tokens].
  rewrite insert_insert_eq, delete_insert_id by done. by destruct s.
Qed.
End ne_proofs.

(** ** Examples *)

(** A program that imports KAL and MSG, MSG also imports KAL. *)
Definition ex_ixf (ns : list string) (secs : list section) : IXFModule :=
  mkIxf (FormatStruct blank_ixf) [] (bstr <$> ns) [] 0 0 false secs 0 0.
Definition ex_module (ns : list string) (secs : list section) : module :=
  mkModule (ex_ixf ns secs) None [] (bstr "X") false.
Definition ex_modules : gmap Z module :=
  <[5000 := ex_module ["KAL"; "MSG"] [mkSection 65536 4096 0; mkSection 131072 8192 1]]>
  (<[2000 := ex_module ["KAL"] [mkSection 200 10 0]]> (<[1000 := ex_module [] [mkSection 300 10 0]]> ∅)).
Definition ex_mm : modmgr := set_modules' demo_mm ex_modules.

Lemma ex_kal : loaded_as ex_mm (bstr "KAL") 1000.
Proof. exists (demo_node 10 "KAL" 1000). by vm_compute. Qed.
Lemma ex_msg : loaded_as ex_mm (bstr "MSG") 2000.
Proof. exists (demo_node 20 "MSG" 2000). by vm_compute. Qed.

Lemma format_found_witness :
  header_at (bstr "NE.......") 0 /\
  IXFIdentifyModule (load_ixfs true true demo_alloc true).2 (bstr "NE.......") 0 =
    Ret (NO_ERROR, Some NE_handler).
Proof.
  assert (H : header_at (bstr "NE.......") 0) by by left. split; [exact H|].
  apply (format_found demo_alloc true (bstr "NE.......") 0 78 69); [exact H| |intros _; reflexivity].
  exists [], (bstr "......."). by vm_compute.
Defined.

Lemma imports_enumerated_witness :
  imports_from demo_provider id demo_handlers demo_new_module demo_new_record blank_ixf true 3 5000 0 ex_mm =
    Ret ([1000; 2000], ERROR_MOD_NOT_FOUND, ex_mm).
Proof.
  apply (imports_enumerated demo_provider id demo_handlers demo_new_module demo_new_record blank_ixf true
    ex_mm 5000 (ex_module ["KAL"; "MSG"] [mkSection 65536 4096 0; mkSection 131072 8192 1]) [1000; 2000]).
  - lia.
  - reflexivity.
  - exact (List.Forall2_cons _ _ ex_kal (List.Forall2_cons _ _ ex_msg (List.Forall2_nil _))).
  - cbn. lia.
Defined.

Lemma last_section_twice_witness :
  sections_from 4 5000 0 ex_mm =
    Ret [mkSection 65536 4096 0; mkSection 131072 8192 1; mkSection 131072 8192 1].
Proof.
  apply (last_section_twice ex_mm 5000
    (ex_module ["KAL"; "MSG"] [mkSection 65536 4096 0; mkSection 131072 8192 1])
    [mkSection 65536 4096 0] (mkSection 131072 8192 1)); [reflexivity|reflexivity|cbn; lia].
Defined.

Definition ex_rank (h : Z) : nat := if h =? 5000 then 2 else if h =? 2000 then 1 else 0.
Lemma ex_resolved : resolved ex_mm (fun _ => True) ex_rank.
Proof.
  intros h m _. unfold ex_mm. cbn [set_modules' modules]. unfold ex_modules.
  intros [[<- <-]|[_ [[<- <-]|[_ [[<- <-]|[_ Hx]]%lookup_insert_Some]]%lookup_insert_Some]]%lookup_insert_Some _;
    [| | |done]; (split; [cbn; lia|]); repeat constructor.
  - exists 1000. split; [exact ex_kal|]. right. split; [done|]. split; [by eexists|]. cbn. lia.
  - exists 2000. split; [exact ex_msg|]. right. split; [done|]. split; [by eexists|]. cbn. lia.
  - exists 1000. split; [exact ex_kal|]. right. split; [done|]. split; [by eexists|]. cbn. lia.
Qed.

Lemma share_reaches_imports_witness :
  exists l, excShare demo_provider id demo_handlers demo_new_module demo_new_record blank_ixf true
      sec_addr 1 2 (fun _ _ => 0) 3 5000 ex_mm [] = Ret (0, ex_mm, l) /\
    shared_from sec_addr 1 2 ex_mm 5000 l /\ (300, 3) ∈ l.
Proof.
  destruct (share_reaches_imports demo_provider id demo_handlers demo_new_module demo_new_record blank_ixf
    true sec_addr 1 2 (fun _ _ => 0) (fun _ _ => eq_refl) ex_mm (fun _ => True) ex_rank 3 5000
    (ex_module ["KAL"; "MSG"] [mkSection 65536 4096 0; mkSection 131072 8192 1]) [] ex_resolved)
    as (l & E & Hl); [done|lia|reflexivity|cbn; lia|].
  exists l. split; [exact E|]. split; [exact Hl|]. apply Hl.
  exists 1000, (ex_module [] [mkSection 300 10 0]). split; [|split; [reflexivity|by left]].
  apply rtc_once. split; [lia|]. exists (ex_module ["KAL"; "MSG"] [mkSection 65536 4096 0; mkSection 131072 8192 1]), (bstr "KAL").
  split; [reflexivity|]. split; [by left|exact ex_kal].
Defined.

(** What is imported by two modules is shared twice. *)
Example shared_again :
  match excShare demo_provider id demo_handlers demo_new_module demo_new_record blank_ixf true
      sec_addr 1 2 (fun _ _ => 0) 3 5000 ex_mm [] with
  | Ret (_, _, log) => log.*1 = [65536; 131072; 300; 200; 300]
  | _ => False
  end.
Proof. by vm_compute. Qed.

Definition ne_provider (path : list Z) : option (list Z) :=
  if bool_decide (path = bstr "OLD.DLL") then Some (bstr "NE.......") else None.
Lemma ne_file_refused_witness :
  ModLoadModule ne_provider id (load_ixfs true true demo_alloc true).2 demo_new_module demo_new_record
    blank_ixf true 1 260 (bstr "OLD.DLL") ex_mm = Ret (ERROR_BAD_FORMAT, bstr "OLD.DLL", 0, ex_mm).
Proof.
  apply (ne_file_refused ne_provider id demo_new_module demo_new_record blank_ixf demo_alloc 0 260
    (bstr "OLD.DLL") (bstr "NE.......") ex_mm 0 78 69); try (vm_compute; reflexivity); try (vm_compute; discriminate).
  - by left.
  - exists [], (bstr "......."). by vm_compute.
Defined.
