(* ===== verification/ModClosed.v ===== *)
(** * What the loader leaves behind ([OS2/Server/shared/server/os2exec/modmgr.c])

    A state of the module manager is closed when the imports of every module
    that has been loaded have been loaded too and no modules import each other
    in a circle.  Loading a module keeps this, so that whoever goes from a
    loaded module to the modules it imports, as [ExcShare] does, comes to an
    end. *)
From S2P Require Import Prelude MemMgr CfgParser LxMod LxLoad PathSearch ModMgr ExcApi.

(** [Q] holds of the result, if there is one. *)
Definition yields {A} (m : C A) (Q : A -> Prop) : Prop :=
  match m with Ret a => Q a | _ => True end.

Lemma yields_bind {A B} (m : C A) (f : A -> C B) P Q :
  yields m P -> (forall a, P a -> yields (f a) Q) -> yields (m ≫= f) Q.
Proof. destruct m; cbn; auto. Qed.
Lemma yields_any {A B} (m : C A) (f : A -> C B) Q : (forall a, yields (f a) Q) -> yields (m ≫= f) Q.
Proof. destruct m; cbn; auto. Qed.
Lemma yields_need {A B} (o : option A) (f : A -> C B) Q :
  (forall a, o = Some a -> yields (f a) Q) -> yields (need o ≫= f) Q.
Proof. destruct o; cbn; auto. Qed.
Lemma yields_weaken {A} (m : C A) (P Q : A -> Prop) : yields m P -> (forall a, P a -> Q a) -> yields m Q.
Proof. destruct m; cbn; auto. Qed.
Lemma yields_ret {A} (m : C A) (Q : A -> Prop) a : yields m Q -> m = Ret a -> Q a.
Proof. by intros H ->. Qed.

(** ** Names in the list of modules *)

(** The records that a search by name looks at. *)
Definition firsts (s : modmgr) : list module_rec := first <$> mlist s.

(** The module of the name [n] is loaded and has the handle [h]. *)
Definition resolves (l : list node) (n : list Z) (h : Z) : Prop :=
  exists p, getrec n l = (0, Some p) /\ module_struct (first p) = h.

Lemma resolves_once l n h h' : resolves l n h -> resolves l n h' -> h = h'.
Proof. intros (p & E & <-) (p' & E' & <-). congruence. Qed.

Lemma resolves_done l n h : resolves l n h ->
  exists r, r ∈ first <$> l /\ load_status r <> LOADING /\ module_struct r = h.
Proof.
  intros (p & E & <-). exists (first p). split_and!; [|clear -E|done].
  - apply list_elem_of_fmap. exists p. split; [done|]. induction l as [|x l IH]; [done|].
    cbn [getrec] in E. destruct (_ =? 0); [|right; auto].
    destruct (_ =? LOADING); [done|]. injection E as ->. by left.
  - induction l as [|x l IH]; [done|]. cbn [getrec] in E. destruct (_ =? 0); [|auto].
    destruct (Z.eqb_spec (load_status (first x)) LOADING); [done|]. by injection E as <-.
Qed.

Lemma resolves_prefix l l' n h : (first <$> l) `prefix_of` (first <$> l') ->
  resolves l n h -> resolves l' n h.
Proof.
  revert l'. induction l as [|x l IH]; intros l' [k Ek] (p & E & <-); [done|].
  destruct l' as [|x' l']; [done|]. rewrite !fmap_cons in Ek. injection Ek as Ex Ek.
  unfold resolves. cbn [getrec] in *. rewrite Ex. destruct (_ =? 0).
  - destruct (_ =? LOADING); [done|]. injection E as <-. exists x'. by rewrite Ex.
  - apply IH; [by exists k|]. by exists p.
Qed.

Lemma resolves_at l0 l n r rest : getrec n l0 = (1, None) ->
  first <$> l = (first <$> l0) ++ r :: rest -> stricmp n (mod_name r) = 0 -> load_status r <> LOADING ->
  resolves l n (module_struct r).
Proof.
  revert l. induction l0 as [|x l0 IH]; intros [|y l] E Ef Hn Hst; try done; rewrite fmap_cons in Ef.
  - injection Ef as <- _. unfold resolves. cbn [getrec]. rewrite Hn. change (0 =? 0) with true. cbv iota.
    destruct (Z.eqb_spec (load_status (first y)) LOADING); [done|]. by eexists.
  - rewrite fmap_cons in Ef. injection Ef as Ey Ef. unfold resolves. cbn [getrec] in *. rewrite Ey.
    destruct (_ =? 0); [by destruct (_ =? LOADING)|]. by apply IH.
Qed.

Lemma firsts_set_status a st l : first <$> set_status a st l = set_rec_status a st <$> (first <$> l).
Proof. unfold set_status. by rewrite <- !list_fmap_compose. Qed.

Lemma set_rec_other a st (rs : list module_rec) : a ∉ rec_addr <$> rs -> set_rec_status a st <$> rs = rs.
Proof.
  intros Ha. rewrite <- (list_fmap_id rs) at 2. apply list_fmap_ext. intros i r Hr.
  unfold set_rec_status. destruct (Z.eqb_spec (rec_addr r) a) as [<-|]; [|done].
  destruct Ha. apply list_elem_of_fmap. exists r. split; [done|by eapply list_elem_of_lookup_2].
Qed.

Lemma resolves_set_done a l n h : resolves l n h -> resolves (set_status a DONE_LOADING l) n h.
Proof.
  unfold set_status. induction l as [|x l IH]; intros (p & E & <-); [done|].
  unfold resolves. cbn [fmap list_fmap getrec first] in *.
  assert (Ename : mod_name (set_rec_status a DONE_LOADING (first x)) = mod_name (first x))
    by (unfold set_rec_status; by destruct (_ =? a)).
  rewrite Ename. destruct (_ =? 0).
  - destruct (Z.eqb_spec (load_status (first x)) LOADING); [done|]. injection E as <-.
    unfold set_rec_status. destruct (rec_addr (first x) =? a); cbn [load_status module_struct];
      [by eexists|]. destruct (Z.eqb_spec (load_status (first x)) LOADING); [done|]. by eexists.
  - apply IH. by exists p.
Qed.

Lemma max_list_with_in {A} (f : A -> nat) l x : x ∈ l -> (f x <= max_list_with f l)%nat.
Proof. induction 1; cbn; lia. Qed.

(** ** Closed states *)

Definition plain_name (n : list Z) : Prop :=
  get_fname n = n /\ stricmp n (bstr "SUB32") <> 0 /\ stricmp n (bstr "EMXWRAP") <> 0.
Definition plain_imports (x : IXFModule) : Prop :=
  Z.of_nat (length (Modules x)) < 2 ^ 32 /\ Forall plain_name (Modules x).

(** The imports of a module are resolved, with modules of a lower rank. *)
Definition known (s : modmgr) (rank : Z -> nat) (h : Z) : Prop := exists m,
  modules s !! h = Some m /\ plain_imports (mod_ixf m) /\
  Forall (fun n => exists h', resolves (mlist s) n h' /\ (h' = 0 \/ (rank h' < rank h)%nat))
    (Modules (mod_ixf m)).

Record closed (s : modmgr) (rank : Z -> nat) : Prop := {
  cl_null : modules s !! 0 = None;
  cl_addr : NoDup (rec_addr <$> firsts s);
  cl_done r : r ∈ firsts s -> load_status r <> LOADING ->
    module_struct r = 0 \/ known s rank (module_struct r)
}.

(** The module [h] is not loaded yet. *)
Definition idle (s : modmgr) (h : Z) : Prop :=
  forall r, r ∈ firsts s -> module_struct r = h -> load_status r = LOADING.

(** How the state goes on while the module [h] is loaded. *)
Definition grows (h : Z) (s s' : modmgr) : Prop :=
  firsts s `prefix_of` firsts s' /\
  (forall x m, x <> h -> modules s !! x = Some m -> modules s' !! x = Some m) /\
  (forall r, r ∈ firsts s' -> r ∈ firsts s \/ module_struct r = h \/
     modules s !! module_struct r = None).
Definition evolves (h : Z) (s : modmgr) (rank : Z -> nat) (s' : modmgr) (rank' : Z -> nat) : Prop :=
  closed s' rank' /\ grows h s s' /\
  forall x, is_Some (modules s !! x) -> x <> h -> rank' x = rank x.

Lemma grows_refl h s : grows h s s.
Proof. split; [done|]. split; [done|]. by left. Qed.

Lemma grows_trans h h' s1 s2 s3 : grows h s1 s2 -> grows h' s2 s3 ->
  h' = h \/ modules s1 !! h' = None -> grows h s1 s3.
Proof.
  intros (P1 & M1 & R1) (P2 & M2 & R2) Hh. split; [by etransitivity|]. split.
  - intros x m Hx Hm. apply M2; [|by apply M1]. destruct Hh as [->|Hh]; [done|]. by intros ->; congruence.
  - intros r Hr. destruct (R2 r Hr) as [Hr2|[<-|Hn]]; [by apply R1| |].
    + destruct Hh as [<-|Hh]; [by right; left|by right; right].
    + right. destruct (decide (module_struct r = h)); [by left|right].
      destruct (modules s1 !! module_struct r) as [m|] eqn:E; [|done]. by rewrite (M1 _ m) in Hn.
Qed.

Lemma evolves_refl h s rank : closed s rank -> evolves h s rank s rank.
Proof. intros Hc. split; [done|]. split; [apply grows_refl|done]. Qed.

Lemma evolves_trans h h' s1 r1 s2 r2 s3 r3 : evolves h s1 r1 s2 r2 -> evolves h' s2 r2 s3 r3 ->
  h' = h \/ modules s1 !! h' = None -> evolves h s1 r1 s3 r3.
Proof.
  intros (C1 & G1 & A1) (C2 & G2 & A2) Hh. split; [done|]. split; [by eapply grows_trans|].
  intros x Hx Hne. rewrite A2; [by apply A1| |].
  - destruct Hx as [m Hm]. exists m. by apply G1.
  - destruct Hh as [->|Hh]; [done|]. intros ->. rewrite Hh in Hx. by destruct Hx.
Qed.

Lemma known_same s rank s' rank' h : known s rank h -> h <> 0 ->
  (forall n x, resolves (mlist s) n x -> resolves (mlist s') n x) ->
  (forall m, modules s !! h = Some m -> modules s' !! h = Some m) ->
  rank' h = rank h ->
  (forall n x, resolves (mlist s) n x -> x = 0 \/ rank' x = rank x) -> known s' rank' h.
Proof.
  intros (m & Hm & Hp & Hall) Hne Hres Hmod Hr Hrank. exists m. split; [by apply Hmod|]. split; [done|].
  eapply Forall_impl; [exact Hall|]. intros n (h' & Hn & Hlt). exists h'. split; [by apply Hres|].
  destruct Hlt as [->|Hlt]; [by left|]. destruct (Hrank _ _ Hn) as [->|E]; [by left|right].
  by rewrite E, Hr.
Qed.

Lemma closed_same h s s' rank : closed s rank -> mlist s' = mlist s -> modules s' = modules s ->
  evolves h s rank s' rank.
Proof.
  intros [H0 Ha Hd] El Em. unfold evolves, grows, firsts. rewrite El, Em. split; [|by auto].
  split; unfold firsts; rewrite ?El, ?Em; [done|done|]. intros r Hr Hst.
  destruct (Hd r Hr Hst) as [?|Hk]; [by left|right]. destruct Hk as (m & Hm & Hk). exists m.
  by rewrite Em, El.
Qed.

(** Only the module [h], which is not loaded, is changed. *)
Lemma closed_modules s s' rank h : closed s rank -> idle s h -> mlist s' = mlist s ->
  modules s' !! 0 = None -> (forall x m, x <> h -> modules s !! x = Some m -> modules s' !! x = Some m) ->
  evolves h s rank s' rank.
Proof.
  intros [H0 Ha Hd] Hi El Hn Hm. unfold evolves, grows, firsts. split; [|rewrite El; auto].
  split; [done|unfold firsts; by rewrite El|]. unfold firsts. rewrite El. intros r Hr Hst.
  destruct (Hd r Hr Hst) as [?|Hk]; [by left|]. destruct (decide (module_struct r = 0)); [by left|right].
  eapply known_same; [exact Hk|done|by rewrite El| |done|by right].
  intros m Hm'. apply Hm; [|done]. intros E. by apply Hst, Hi.
Qed.

Lemma idle_grows h0 h s s' : idle s h -> grows h0 s s' -> h0 <> h -> is_Some (modules s !! h) -> idle s' h.
Proof.
  intros Hi (_ & _ & Hr) Hne [m Hm] r Hin E. destruct (Hr r Hin) as [?|[E2|Hn]]; [by apply Hi| |].
  - congruence.
  - rewrite E in Hn. congruence.
Qed.

(** A module is put at the end of the list, as being loaded. *)
Lemma closed_register s rank a n h : closed s rank -> a ∉ rec_addr <$> firsts s ->
  let s' := set_mlist s (mlist s ++ [mkNode (mkRec a n h 0 LOADING) []]) in
  firsts s' = firsts s ++ [mkRec a n h 0 LOADING] /\ evolves h s rank s' rank.
Proof.
  intros [H0 Ha Hd] Hfresh s'.
  assert (Ef : firsts s' = firsts s ++ [mkRec a n h 0 LOADING]).
  { unfold firsts, s'. cbn [mlist set_mlist]. by rewrite fmap_app. }
  assert (Hpre : firsts s `prefix_of` firsts s') by (rewrite Ef; by eexists).
  split; [done|]. split; [|split; [split; [done|split; [done|]]|done]].
  - split; [done| |].
    + rewrite Ef, fmap_app. apply NoDup_app. split; [done|]. split; [|apply NoDup_singleton].
      intros x Hx ->%list_elem_of_singleton. done.
    + intros r. rewrite Ef. intros [Hr| ->%list_elem_of_singleton]%elem_of_app Hst; [|done].
      destruct (Hd r Hr Hst) as [?|Hk]; [by left|]. destruct (decide (module_struct r = 0)); [by left|right].
      eapply known_same; [exact Hk|done| |done|done|by right]. intros k x. by apply resolves_prefix.
  - intros r. rewrite Ef. intros [Hr| ->%list_elem_of_singleton]%elem_of_app; [by left|by right; left].
Qed.

(** The module whose imports are all there is marked as loaded. *)
Lemma closed_finish s rank a n h m rest l0 : closed s rank -> h <> 0 -> idle s h ->
  modules s !! h = Some m -> plain_imports (mod_ixf m) ->
  Forall (fun k => exists x, resolves (mlist s) k x) (Modules (mod_ixf m)) ->
  firsts s = l0 ++ mkRec a n h 0 LOADING :: rest ->
  exists rank', closed (set_mlist s (set_status a DONE_LOADING (mlist s))) rank' /\
    firsts (set_mlist s (set_status a DONE_LOADING (mlist s))) = l0 ++ mkRec a n h 0 DONE_LOADING :: rest /\
    forall x, x <> h -> rank' x = rank x.
Proof.
  intros [H0 Ha Hd] Hne Hi Hm Hp Hall Ef. set (s' := set_mlist _ _).
  assert (Ef' : firsts s' = l0 ++ mkRec a n h 0 DONE_LOADING :: rest).
  { unfold firsts, s'. cbn [mlist set_mlist]. rewrite firsts_set_status. fold (firsts s). rewrite Ef in Ha |- *.
    rewrite fmap_app, fmap_cons. rewrite fmap_app, fmap_cons in Ha. apply NoDup_app in Ha as (_ & Ha & Hc).
    apply NoDup_cons in Hc as [Hc _]. rewrite !set_rec_other; [|done|intros Hx; apply (Ha _ Hx); by left].
    unfold set_rec_status. cbn [rec_addr]. by rewrite Z.eqb_refl. }
  set (top := max_list_with (fun r => rank (module_struct r)) (firsts s)).
  assert (Htop : forall r, r ∈ firsts s -> (rank (module_struct r) <= top)%nat).
  { intros r Hr. unfold top.
    by apply (max_list_with_in (fun r => rank (module_struct r))). }
  set (rank' := fun x => if x =? h then S top else rank x).
  assert (Hoff : forall x, x <> h -> rank' x = rank x).
  { intros x Hx. unfold rank'. by destruct (Z.eqb_spec x h). }
  assert (Hoffres : forall k x, resolves (mlist s) k x -> x <> h).
  { intros k x Hk ->. apply resolves_done in Hk as (r & Hr & Hst & E). by apply Hst, Hi. }
  assert (Hres : forall k x, resolves (mlist s) k x -> resolves (mlist s') k x)
    by (intros; by apply resolves_set_done).
  exists rank'. split; [|by split]. split; [done| |].
  - rewrite Ef'. rewrite Ef, fmap_app, fmap_cons in Ha. by rewrite fmap_app, fmap_cons.
  - intros r Hr Hst. destruct (decide (module_struct r = h)) as [->|Hrh].
    + right. exists m. split; [done|]. split; [done|]. eapply Forall_impl; [exact Hall|].
      intros k (x & Hk). exists x. split; [by apply Hres|right]. rewrite (Hoff x) by by eapply Hoffres.
      unfold rank'. rewrite Z.eqb_refl. apply resolves_done in Hk as (r' & Hr' & _ & <-).
      pose proof (Htop _ Hr'). lia.
    + assert (Hr0 : r ∈ firsts s).
      { rewrite Ef' in Hr. rewrite Ef. apply elem_of_app in Hr as [Hr|[-> |Hr]%elem_of_cons];
          [by apply elem_of_app; left|done|]. apply elem_of_app. right. by right. }
      destruct (Hd r Hr0 Hst) as [?|Hk]; [by left|]. destruct (decide (module_struct r = 0)); [by left|right].
      eapply known_same; [exact Hk|done|done|done|by apply Hoff|].
      intros k x Hk'. right. apply Hoff. by eapply Hoffres.
Qed.

Section loading.
Variable io_load_file : list Z -> option (list Z).
Variable ixfCopyModule : module -> module.
Variable IXFHandlers : list IXFHandler.
Variable new_module : gmap Z module -> Z.
Variable new_record : list node -> Z.
Variable blank : IXFModule.
Variable malloc_ok : bool.

(** What is relied on: new structures are new, and the files import modules by
    plain names. *)
Class Loader : Prop := {
  new_module_fresh ms : new_module ms <> 0 /\ ms !! new_module ms = None;
  new_record_fresh l n : n ∈ l -> rec_addr (first n) <> new_record l /\
    forall r, r ∈ up n -> rec_addr r <> new_record l;
  load_plain f file x r mm : f ∈ IXFHandlers ->
    yields (Load f file x r mm) (fun '(_, x', _, _) => plain_imports x')
}.
Context `{!Loader}.

#[local] Abbreviation open_module :=
  (OpenModule io_load_file ixfCopyModule IXFHandlers new_module new_record blank malloc_ok).
#[local] Abbreviation load_module :=
  (LoadModule io_load_file ixfCopyModule IXFHandlers new_module new_record blank malloc_ok).
#[local] Abbreviation imports_loop :=
  (load_imports io_load_file ixfCopyModule IXFHandlers new_module new_record blank malloc_ok).

Lemma fail_yields cbName name rc h s (Q : loaded -> Prop) :
  (forall rc' e h', rc' <> NO_ERROR \/ rc' = rc /\ h' = 0 -> Q (rc', e, h', s)) ->
  yields (fail_with cbName name rc h s) Q.
Proof. intros HQ. unfold fail_with. destruct (_ <=? _); apply HQ; [by left|by right]. Qed.

Lemma open_file_yields name ex s :
  yields (open_file io_load_file name ex s) (fun '(_, _, s') =>
    modules s' = modules s /\ mlist s' = mlist s).
Proof.
  unfold open_file. destruct (io_load_file name); [done|].
  eapply yields_bind with (P := fun '(_, _, s') => modules s' = modules s /\ mlist s' = mlist s).
  - destruct ex.
    + apply yields_any. intros [[[rc full] b] t]. by split.
    + apply yields_any. intros lp. apply yields_any. intros [[[rc full] b] t].
      apply yields_any. intros lp'. by split.
  - intros [[rc full] s'] [E1 E2]. destruct (_ =? _); [|done]. by destruct (io_load_file full).
Qed.

Lemma identify_yields hs file rc : (forall f, f ∈ hs -> f ∈ IXFHandlers) ->
  yields (IXFIdentifyModule hs file rc) (fun '(_, h) => forall f, h = Some f -> f ∈ IXFHandlers).
Proof.
  revert rc. induction hs as [|h hs IH]; intros rc Hh; cbn [IXFIdentifyModule]; [by cbn|].
  apply yields_any. intros rc'. destruct (rc' =? NO_ERROR).
  - cbn. intros f [= <-]. apply Hh. by left.
  - apply IH. intros f Hf. apply Hh. by right.
Qed.

(** The handle of a module that has just been opened under the name [n]. *)
Definition opened_new (s : modmgr) (n : list Z) (ex : bool) (h : Z) (s' : modmgr) : Prop :=
  mlist s' = mlist s /\ modules s !! h = None /\ h <> 0 /\ exists m,
  modules s' = <[h := m]> (modules s) /\ mod_path m = n /\ mod_exec m = ex /\
  forall f, mod_handler m = Some f -> f ∈ IXFHandlers.

Lemma open_yields cbName name ex s : getrec (get_fname name) (mlist s) = (1, None) ->
  stricmp (get_fname name) (bstr "EMXWRAP") <> 0 ->
  yields (open_module cbName name ex s) (fun '(rc, _, h, s') =>
    (mlist s' = mlist s /\ modules s' = modules s /\ (rc = NO_ERROR -> h = 0)) \/
    (rc = NO_ERROR /\ opened_new s name ex h s')).
Proof.
  intros Hg He. unfold OpenModule. rewrite Hg.
  apply Z.eqb_neq in He. rewrite He, andb_false_r.
  cbv iota. eapply yields_bind; [apply open_file_yields|]. intros [[rc addr] s1] [Em El].
  destruct (rc =? NO_ERROR); cbn [negb].
  2: { apply fail_yields. intros rc' e h' Hr. left. split_and!; [done|done|]. intros ->. by destruct Hr as [|[_ ?]]. }
  destruct malloc_ok; cbn [negb]; [|by left]. cbv zeta.
  eapply yields_bind; [by apply identify_yields|]. intros [rc2 handler] Hh.
  destruct (Z.eqb_spec rc2 NO_ERROR) as [->|]; cbn [negb].
  2: { apply fail_yields. intros rc' e h' Hr. left. split_and!; [done|done|]. intros ->. by destruct Hr as [|[_ ?]]. }
  right. split; [done|]. destruct (new_module_fresh (modules s1)) as [Hne Hn].
  rewrite Em in Hne, Hn |- *.
  split; [done|]. split; [done|]. split; [done|].
  eexists. cbn [set_modules' modules]. split; [reflexivity|]. by split_and!.
Qed.

Lemma getrec_known_cases n l : getrec n l = (1, None) \/ getrec n l = (-1, None) \/
  exists h, resolves l n h.
Proof.
  induction l as [|x l IH]; [by left|]. unfold resolves. cbn [getrec]. destruct (_ =? 0); [|done].
  destruct (_ =? LOADING); [by right; left|]. right. right. by eexists _, _.
Qed.

Lemma dll_fname n : get_fname (dll_name n) = n.
Proof.
  unfold dll_name, get_fname. change (bstr ".dll") with (ch "."%char :: bstr "dll").
  rewrite last_pos_some by by apply (bool_decide_unpack _).
  destruct (Z.eqb_spec (0 + Z.of_nat (length n)) (-1)); [lia|].
  by rewrite Z.add_0_l, Nat2Z.id, take_app_length.
Qed.

(** What the recursive call does for a module that has just been opened. *)
Definition closes (load : Z -> modmgr -> C loaded) : Prop :=
  (forall s, modules s !! 0 = None -> yields (load 0 s) (fun _ => False)) /\
  forall h n s rank m, closed s rank -> idle s h -> modules s !! h = Some m -> h <> 0 -> get_fname (mod_path m) = n ->
  stricmp n (bstr "SUB32") <> 0 -> getrec n (mlist s) = (1, None) ->
  (forall f, mod_handler m = Some f -> f ∈ IXFHandlers) ->
  yields (load h s) (fun '(rc, _, h', s') => exists rank', evolves h s rank s' rank' /\
    (rc = NO_ERROR -> h' = h /\ resolves (mlist s') n h)).

(** One import is found loaded, or opened and loaded. *)
Lemma import_closes load n s rank : closes load -> closed s rank -> plain_name n ->
  yields (if (getrec n (mlist s)).1 =? 0 then Ret (NO_ERROR, s)
          else
            '(rc, _, hmod, s) ← open_module 260 (dll_name n) false s;
            if negb (rc =? NO_ERROR) then Ret (rc, s)
            else '(rc, _, _, s) ← load hmod s; Ret (rc, s))
    (fun '(rc, s') => exists rank', evolves 0 s rank s' rank' /\
       (rc = NO_ERROR -> exists h, resolves (mlist s') n h)).
Proof.
  intros [Hnull Hload] Hc (Hn1 & Hn2 & Hn3). destruct (getrec_known_cases n (mlist s)) as [E|[E|[h Hh]]].
  - rewrite E. change ((1, None : option node).1 =? 0) with false. cbv iota.
    eapply yields_bind; [apply open_yields; by rewrite dll_fname|].
    intros [[[rc e] hmod] s1] [(El & Em & Hrc)|(-> & El & Hnone & Hne & m & Em & Hp & Hex & Hf)].
    + assert (H1 : evolves 0 s rank s1 rank) by by apply closed_same.
      destruct (Z.eqb_spec rc NO_ERROR) as [Erc|]; cbn [negb]; [|by exists rank].
      rewrite (Hrc Erc). eapply yields_bind; [apply Hnull; rewrite Em; apply Hc|done].
    + change (negb (NO_ERROR =? NO_ERROR)) with false. cbv iota.
      assert (Hidle : idle s hmod).
      { intros r Hr E0. destruct (Z.eqb_spec (load_status r) LOADING) as [|Hst]; [done|].
        destruct (cl_done _ _ Hc r Hr Hst) as [Hz|(m' & Hm' & _)]; congruence. }
      assert (H1 : evolves hmod s rank s1 rank).
      { apply closed_modules; [done|done|done| |].
        - rewrite Em, lookup_insert_ne by done. apply Hc.
        - intros x m' Hx Hm'. by rewrite Em, lookup_insert_ne. }
      eapply yields_bind; [apply (Hload hmod n s1 rank m)|].
      * apply H1.
      * intros r. unfold firsts. rewrite El. apply Hidle.
      * by rewrite Em, lookup_insert_eq.
      * done.
      * by rewrite Hp, dll_fname.
      * done.
      * by rewrite El.
      * done.
      * intros [[[rc e2] h'] s2] (rank' & H2 & Hres). exists rank'. split.
        -- pose proof (evolves_trans _ _ _ _ _ _ _ _ H1 H2 (or_introl eq_refl)) as H3.
           eapply (evolves_trans 0 hmod); [by apply evolves_refl|exact H3|by right].
        -- intros Erc. exists hmod. by apply Hres.
  - rewrite E. change ((-1, None : option node).1 =? 0) with false. cbv iota.
    unfold OpenModule. rewrite dll_fname, E.
    eapply yields_bind with (P := fun '(rc, _, _, s') => rc <> NO_ERROR /\ s' = s).
    { apply fail_yields. intros rc e h [Hr|[-> _]]; by split. }
    intros [[[rc e] hmod] s1] [Hrc ->]. destruct (Z.eqb_spec rc NO_ERROR); [done|]. cbn [negb].
    exists rank. split; [by apply evolves_refl|done].
  - destruct Hh as (p & E & Eh). rewrite E. change ((0, Some p).1 =? 0) with true. cbv iota.
    exists rank. split; [by apply evolves_refl|]. intros _. by exists h, p.
Qed.

Lemma evolves_off h s r s' r' : closed s r -> evolves 0 s r s' r' -> evolves h s r s' r'.
Proof.
  intros Hc He. eapply (evolves_trans h 0); [by apply evolves_refl|exact He|right; apply Hc].
Qed.

(** Only the memory changes when a module is fixed up. *)
Lemma fixup_yields h s : yields (IXFFixupModule h s) (fun '(_, s') =>
  mlist s' = mlist s /\ modules s' = modules s).
Proof.
  unfold IXFFixupModule. apply yields_need. intros m _. apply yields_need. intros f _.
  apply yields_any. by intros [rc mm].
Qed.

Lemma free_evolves h s rank : closed s rank -> idle s h -> evolves h s rank (IXFFreeModule h s).2 rank.
Proof.
  intros Hc Hi. apply closed_modules; [done|done|done| |].
  - cbn. apply lookup_delete_None. right. apply Hc.
  - intros x m Hx Hm. cbn. by rewrite lookup_delete_ne.
Qed.

(** All imports are found or loaded; if not, the call fails. *)
Lemma imports_close load h ex cbName path : closes load -> forall ns s rank,
  closed s rank -> is_Some (modules s !! h) -> h <> 0 -> idle s h -> Forall plain_name ns ->
  yields (imports_loop load h ex cbName path ns s) (fun '(r, s') =>
    match r with
    | None => exists rank', evolves 0 s rank s' rank' /\
        Forall (fun n => exists x, resolves (mlist s') n x) ns
    | Some (rc, _, _, s2) => rc <> NO_ERROR /\ exists rank', evolves h s rank s2 rank'
    end).
Proof.
  intros Hload. induction ns as [|n ns IH]; intros s rank Hc Hm Hne Hi Hns; cbn [load_imports].
  { exists rank. split; [by apply evolves_refl|constructor]. }
  inversion_clear Hns as [|? ? Hn Hns']. apply yields_any. intros _.
  eapply yields_bind; [by apply (import_closes load n s rank)|]. intros [rc s1] (r1 & H1 & Hrc).
  destruct (Z.eqb_spec rc NO_ERROR) as [Erc|]; cbn [negb].
  2: { split; [done|]. exists r1. by apply evolves_off. }
  destruct (Hrc Erc) as [x Hx].
  assert (Hm1 : is_Some (modules s1 !! h)).
  { destruct Hm as [m Hm]. exists m. by apply H1. }
  assert (Hi1 : idle s1 h) by (eapply idle_grows; [exact Hi|apply H1|done|done]).
  assert (Hgo : forall s2, mlist s2 = mlist s1 -> modules s2 = modules s1 ->
    yields (imports_loop load h ex cbName path ns s2) (fun '(r, s') =>
      match r with
      | None => exists rank', evolves 0 s rank s' rank' /\
          Forall (fun n => exists x, resolves (mlist s') n x) (n :: ns)
      | Some (rc, _, _, s2) => rc <> NO_ERROR /\ exists rank', evolves h s rank s2 rank'
      end)).
  { intros s2 El Em. pose proof (closed_same 0 s1 s2 r1 (proj1 H1) El Em) as H2.
    eapply yields_weaken; [apply (IH s2 r1); [apply H2|by rewrite Em|done| |done]|].
    { intros r. unfold firsts. rewrite El. apply Hi1. }
    pose proof (evolves_trans _ _ _ _ _ _ _ _ H1 H2 (or_introl eq_refl)) as H3.
    intros [[[[[rc3 e3] h3] s4]|] s3].
    - intros [Hr3 (r3 & H4)]. split; [done|]. exists r3. eapply evolves_trans; [|exact H4|by left].
      by apply evolves_off.
    - intros (r3 & H4 & Hall). exists r3. split; [eapply evolves_trans; [exact H3|exact H4|by left]|].
      constructor; [|done]. exists x. eapply resolves_prefix; [|rewrite <- El in Hx; exact Hx]. apply H4. }
  destruct ex; [by apply Hgo|]. eapply yields_bind; [apply fixup_yields|]. intros [rc2 s2] [El Em].
  destruct (Z.eqb_spec rc2 NO_ERROR) as [|Hrc2]; cbn [negb]; [by apply Hgo|].
  pose proof (closed_same h s1 s2 r1 (proj1 H1) El Em) as H2.
  assert (Hi2 : idle s2 h) by (intros r; unfold firsts; rewrite El; apply Hi1).
  pose proof (free_evolves h s2 r1 (proj1 H2) Hi2) as H3.
  eapply yields_bind with (P := fun '(rc', _, _, s') => rc' <> NO_ERROR /\ s' = (IXFFreeModule h s2).2).
  { apply fail_yields. intros rc' e h' [Hr|[-> _]]; by split. }
  intros [[[rc3 e3] h3] s3] [Hr3 ->]. split; [done|]. exists r1.
  eapply evolves_trans; [by apply evolves_off|eapply evolves_trans; [exact H2|exact H3|by left]|by left].
Qed.

Lemma link_yields fuel h s : yields (ModLinkModule fuel h s) (fun s' => mlist s' = mlist s /\
  exists m fs, modules s !! h = Some m /\ modules s' = <[h := set_ixf m (set_fixups (mod_ixf m) fs)]> (modules s)).
Proof.
  unfold ModLinkModule. apply yields_need. intros m Hm. apply yields_any. intros [fs mm].
  split; [done|]. by exists m, fs.
Qed.

Lemma load_step_yields h s m : modules s !! h = Some m ->
  (forall f, mod_handler m = Some f -> f ∈ IXFHandlers) ->
  yields (IXFLoadModule h s) (fun '(_, s') => mlist s' = mlist s /\
    exists x, plain_imports x /\ modules s' = <[h := set_ixf m x]> (modules s)).
Proof.
  intros Hm Hf. unfold IXFLoadModule. rewrite Hm. cbn [need mbind C_bind].
  apply yields_need. intros f Ef. eapply yields_bind; [apply load_plain, Hf, Ef|].
  intros [[[rc x] r] mm] Hx. split; [done|]. by exists x.
Qed.

Lemma register_new s a n h ex : getrec n (mlist s) = (1, None) -> a = new_record (mlist s) ->
  set_status a LOADING (ModRegister a n h ex (mlist s)) =
    mlist s ++ [mkNode (mkRec a n h 0 LOADING) []].
Proof.
  intros E ->. unfold ModRegister. rewrite E. unfold set_status. rewrite fmap_app. f_equal.
  - apply set_status_fresh. intros k. apply new_record_fresh.
  - cbn. unfold set_rec_status. cbn [rec_addr]. by rewrite Z.eqb_refl.
Qed.

(** The end of loading, when all imports are there. *)
Lemma finish_closes fuel h (ex : bool) a n m l0 rest s rank : closed s rank -> h <> 0 -> idle s h ->
  modules s !! h = Some m -> plain_imports (mod_ixf m) ->
  Forall (fun k => exists x, resolves (mlist s) k x) (Modules (mod_ixf m)) ->
  firsts s = (first <$> l0) ++ mkRec a n h 0 LOADING :: rest -> getrec n l0 = (1, None) ->
  yields ('(rc, s) ← (if ex then IXFFixupModule h s else Ret (NO_ERROR, s));
          if negb (rc =? NO_ERROR) then Ret ((rc, [], h, s) : loaded)
          else
            s ← ModLinkModule fuel h s;
            Ret (rc, [], h, set_mlist s (set_status a DONE_LOADING (mlist s))))
    (fun '(rc, _, h', s') => exists rank', closed s' rank' /\
       (forall x, x <> h -> rank' x = rank x) /\
       (forall x k, x <> h -> modules s !! x = Some k -> modules s' !! x = Some k) /\
       (exists st, firsts s' = (first <$> l0) ++ mkRec a n h 0 st :: rest) /\
       (rc = NO_ERROR -> h' = h /\ resolves (mlist s') n h)).
Proof.
  intros Hc Hne Hi Hm Hp Hall Ef Hg.
  eapply yields_bind with (P := fun '(_, s') => mlist s' = mlist s /\ modules s' = modules s).
  { destruct ex; [apply fixup_yields|done]. }
  intros [rc s1] [El Em]. pose proof (closed_same h s s1 rank Hc El Em) as H1.
  destruct (Z.eqb_spec rc NO_ERROR) as [->|]; cbn [negb].
  2: { exists rank. split; [apply H1|]. split; [done|]. split; [intros x k _; by rewrite Em|].
       split; [exists LOADING; unfold firsts in *; by rewrite El|done]. }
  eapply yields_bind; [apply link_yields|]. intros s2 (El2 & m' & fs & Hm' & Em2).
  rewrite Em, Hm in Hm'. injection Hm' as <-. rewrite Em in Em2. rewrite El in El2.
  assert (H2 : evolves h s rank s2 rank).
  { apply closed_modules; [done|done|done| |].
    - rewrite Em2, lookup_insert_ne by done. apply Hc.
    - intros x k Hx Hk. by rewrite Em2, lookup_insert_ne. }
  destruct (closed_finish s2 rank a n h (set_ixf m (set_fixups (mod_ixf m) fs)) rest (first <$> l0))
    as (rank' & H3 & Ef3 & Hoff); [apply H2|done| |by rewrite Em2, lookup_insert_eq|done| | |].
  { intros r. unfold firsts. rewrite El2. apply Hi. }
  { rewrite El2. exact Hall. }
  { unfold firsts. by rewrite El2. }
  exists rank'. split; [exact H3|]. split; [done|]. split.
  { intros x k Hx Hk. cbn. by rewrite Em2, lookup_insert_ne. }
  split; [by exists DONE_LOADING|]. intros _. split; [done|].
  apply (resolves_at l0 _ n (mkRec a n h 0 DONE_LOADING) rest); [done|exact Ef3|apply stricmp_refl|done].
Qed.

Lemma load_closes_one fuel cbName : closes (load_module fuel 260) -> closes (load_module (S fuel) cbName).
Proof.
  intros Hload. split.
  { intros s H0. cbn [LoadModule]. by rewrite H0. }
  intros h n s rank m Hc Hi Hm Hne Hn Hsub Hg Hf. cbn [LoadModule]. rewrite Hm. cbn [need mbind C_bind].
  rewrite Hn. apply Z.eqb_neq in Hsub. rewrite Hsub, Hg. change (1 =? 1) with true. cbv iota.
  eapply yields_bind; [by apply (load_step_yields h s m)|]. intros [rc s1] (El & x & Hx & Em).
  assert (H1 : evolves h s rank s1 rank).
  { apply closed_modules; [done|done|done| |].
    - rewrite Em, lookup_insert_ne by done. apply Hc.
    - intros y k Hy Hk. by rewrite Em, lookup_insert_ne. }
  assert (Hi1 : idle s1 h) by (intros r; unfold firsts; rewrite El; apply Hi).
  destruct (Z.eqb_spec rc NO_ERROR) as [->|Hrc]; cbn [negb].
  2: { apply fail_yields. intros rc' e h' Hr. exists rank. split.
       - eapply evolves_trans; [exact H1|by apply free_evolves; [apply H1|]|by left].
       - intros ->. by destruct Hr as [|[? _]]. }
  cbv zeta. rewrite (register_new s1 _ n h) by (done || by rewrite El).
  set (a := new_record (mlist s1)). set (s2 := set_mlist s1 _).
  destruct (closed_register s1 rank a n h (proj1 H1)) as [Ef2 H2].
  { intros (r & E & (k & -> & Hk)%list_elem_of_fmap)%list_elem_of_fmap.
    by destruct (new_record_fresh _ _ Hk). }
  fold s2 in Ef2, H2. assert (Hi2 : idle s2 h).
  { intros r. rewrite Ef2. intros [Hr| ->%list_elem_of_singleton]%elem_of_app; [by apply Hi1|done]. }
  change (modules s2) with (modules s1). rewrite Em, lookup_insert_eq. cbn [need mbind C_bind mod_ixf set_ixf].
  assert (Hm2 : modules s2 !! h = Some (set_ixf m x)) by (cbn; by rewrite Em, lookup_insert_eq).
  eapply yields_bind; [apply (imports_close _ h _ cbName _ Hload (Modules x) s2 rank (proj1 H2));
    [by eexists|done|done|apply Hx]|].
  pose proof (evolves_trans _ _ _ _ _ _ _ _ H1 H2 (or_introl eq_refl)) as H12.
  intros [[[[[rc3 e3] h3] s4]|] s3].
  { intros [Hr3 (r3 & H3)]. exists r3. split; [eapply evolves_trans; [exact H12|exact H3|by left]|done]. }
  intros (r3 & H3 & Hall). pose proof H3 as (Hc3 & (P3 & M3 & F3) & A3).
  assert (Hm3 : modules s3 !! h = Some (set_ixf m x)) by by apply M3.
  assert (Hi3 : idle s3 h) by (eapply idle_grows; [exact Hi2|apply H3|done|by eexists]).
  destruct P3 as [rest Ef3]. rewrite Ef2, <- app_assoc in Ef3.
  eapply yields_weaken; [apply (finish_closes _ h _ a n (set_ixf m x) (mlist s1) rest s3 r3);
    [done|done|done|done|done|done|exact Ef3|by rewrite El]|].
  intros [[[rc4 e4] h4] s4] (r4 & Hc4 & A4 & M4 & (st & Ef4) & Hres). exists r4. split; [|exact Hres].
  split; [done|]. destruct H12 as (_ & (P12 & M12 & F12) & A12). split.
  - split; [|split].
    + rewrite Ef4. fold (firsts s1). destruct H1 as (_ & (P1 & _) & _). destruct P1 as [k ->].
      rewrite <- app_assoc. by eexists.
    + intros y k Hy Hk. apply M4; [done|]. apply M3; [|by apply M12]. intros ->.
      rewrite (cl_null _ _ Hc) in Hk. done.
    + intros r. rewrite Ef4. intros [Hr|[-> |Hr]%elem_of_cons]%elem_of_app.
      * left. fold (firsts s1) in Hr. unfold firsts in *. by rewrite <- El.
      * by right; left.
      * destruct (F3 r) as [Hr2|[E0|Hnone]].
        { rewrite Ef3. apply elem_of_app. right. by right. }
        -- apply F12, Hr2.
        -- right. right. rewrite E0. apply Hc.
        -- destruct (decide (module_struct r = h)) as [|Hrh]; [by right; left|]. right. right.
           destruct (modules s !! module_struct r) as [k|] eqn:Ek; [|done].
           by rewrite (M12 _ k) in Hnone.
  - intros y Hy Hyh. rewrite A4, A3; try done.
    + destruct Hy as [k Hk]. exists k. by apply M12.
    + intros ->. rewrite (cl_null _ _ Hc) in Hy. by destruct Hy.
Qed.

Lemma load_closes fuel : forall cbName, closes (load_module fuel cbName).
Proof.
  induction fuel as [|fuel IH]; intros cbName; [done|]. apply load_closes_one, IH.
Qed.

(** What a closed state lets a program reach. *)
Definition loaded_module (s : modmgr) (h : Z) : Prop := exists n, resolves (mlist s) n h.

Lemma resolves_loaded s n h : plain_name n -> resolves (mlist s) n h -> loaded_as s n h.
Proof. intros (E & _) (p & Hp & Hh). exists p. by rewrite E. Qed.

Lemma closed_resolved s rank : closed s rank -> resolved s (loaded_module s) rank.
Proof.
  intros Hc h m [n Hn] Hm Hne. apply resolves_done in Hn as (r & Hr & Hst & <-).
  destruct (cl_done _ _ Hc r Hr Hst) as [|(m' & Hm' & [Hlen Hpl] & Hall)]; [done|].
  rewrite Hm in Hm'. injection Hm' as <-. split; [done|]. rewrite Forall_forall in Hall, Hpl |- *.
  intros k Hk. destruct (Hall k Hk) as (h' & Hres & Hlt). exists h'.
  split; [by apply resolves_loaded; [apply Hpl|]|]. destruct (decide (h' = 0)) as [|Hne']; [by left|right].
  destruct Hlt as [|Hlt]; [done|]. split; [by exists k|]. split; [|done].
  apply resolves_done in Hres as (r' & Hr' & Hst' & <-).
  destruct (cl_done _ _ Hc r' Hr' Hst') as [|(m' & Hm' & _)]; [done|by eexists].
Qed.

(** Opening and loading a module that is not loaded yet. *)
Lemma open_load_closes fuel cbName name ex s rank e0 h0 s0 e h s' : closed s rank ->
  getrec (get_fname name) (mlist s) = (1, None) ->
  stricmp (get_fname name) (bstr "EMXWRAP") <> 0 -> stricmp (get_fname name) (bstr "SUB32") <> 0 ->
  open_module cbName name ex s = Ret (NO_ERROR, e0, h0, s0) ->
  load_module fuel cbName h0 s0 = Ret (NO_ERROR, e, h, s') ->
  h = h0 /\ h <> 0 /\ is_Some (modules s' !! h) /\ resolves (mlist s') (get_fname name) h /\
  exists rank', closed s' rank' /\ resolved s' (loaded_module s') rank'.
Proof.
  intros Hc Hg He Hs E0 E. pose proof (open_yields cbName name ex s Hg He) as Hy.
  eapply yields_ret in Hy; [|exact E0]. destruct (load_closes fuel cbName) as [Hnull Hload].
  destruct Hy as [(El & Em & Hrc)|(_ & El & Hnone & Hne & m & Em & Hp & Hex & Hf)].
  { rewrite (Hrc eq_refl) in E. eapply yields_ret in E; [|apply Hnull; rewrite Em; apply Hc]. done. }
  assert (Hidle : idle s h0).
  { intros r Hr Eh. destruct (Z.eqb_spec (load_status r) LOADING) as [|Hst]; [done|].
    destruct (cl_done _ _ Hc r Hr Hst) as [Hz|(m' & Hm' & _)]; congruence. }
  assert (H1 : evolves h0 s rank s0 rank).
  { apply closed_modules; [done|done|done| |].
    - rewrite Em, lookup_insert_ne by done. apply Hc.
    - intros x m' Hx Hm'. by rewrite Em, lookup_insert_ne. }
  assert (Hy : yields (load_module fuel cbName h0 s0) (fun '(rc, _, h', s') => exists rank',
    evolves h0 s0 rank s' rank' /\ (rc = NO_ERROR -> h' = h0 /\ resolves (mlist s') (get_fname name) h0))).
  { apply (Hload h0 (get_fname name) s0 rank m); try done.
    - apply H1.
    - intros r. unfold firsts. rewrite El. apply Hidle.
    - by rewrite Em, lookup_insert_eq.
    - by rewrite Hp.
    - by rewrite El. }
  eapply yields_ret in Hy; [|exact E]. destruct Hy as (rank' & (Hc2 & _) & Hres).
  destruct (Hres eq_refl) as [-> Hr]. split; [done|]. split; [done|]. split.
  - apply resolves_done in Hr as (r & Hr & Hst & <-).
    destruct (cl_done _ _ Hc2 r Hr Hst) as [|(m' & Hm' & _)]; [done|by eexists].
  - split; [done|]. exists rank'. split; [done|by apply closed_resolved].
Qed.

Lemma load_named_inv fuel cbName name ex s e h s' :
  load_named io_load_file ixfCopyModule IXFHandlers new_module new_record blank malloc_ok
    fuel cbName name ex s = Ret (NO_ERROR, e, h, s') ->
  exists e0 h0 s0, open_module cbName name ex s = Ret (NO_ERROR, e0, h0, s0) /\
    load_module fuel cbName h0 s0 = Ret (NO_ERROR, e, h, s').
Proof.
  unfold load_named. destruct (open_module _ _ _ _) as [[[[rc e0] h0] s0]| | |]; try done.
  cbn [mbind C_bind]. destruct (Z.eqb_spec rc NO_ERROR) as [->|Hrc]; cbn [negb].
  - intros E. by exists e0, h0, s0.
  - intros E. by injection E.
Qed.

(** C35: When a module has been loaded that was not loaded before, in a closed
    state, the state is closed again, and sharing the module with a program ends
    without error and gives it the sections of all modules that are reached by
    imports: what the loader leaves behind has no imports that are missing and
    no modules that import each other in a circle. *)
Theorem load_then_share ds_of rd wr DataspaceShare fuel cbName name ex s rank e h s' :
  (forall ds r, DataspaceShare ds r = 0) -> closed s rank ->
  getrec (get_fname name) (mlist s) = (1, None) ->
  stricmp (get_fname name) (bstr "EMXWRAP") <> 0 -> stricmp (get_fname name) (bstr "SUB32") <> 0 ->
  load_named io_load_file ixfCopyModule IXFHandlers new_module new_record blank malloc_ok
    fuel cbName name ex s = Ret (NO_ERROR, e, h, s') ->
  exists rank', closed s' rank' /\ forall log fuel', (rank' h < fuel')%nat ->
  exists l, excShare io_load_file ixfCopyModule IXFHandlers new_module new_record blank malloc_ok
      ds_of rd wr DataspaceShare fuel' h s' log = Ret (0, s', log ++ l) /\
    shared_from ds_of rd wr s' h l.
Proof.
  intros Hshare Hc Hg He Hs E. apply load_named_inv in E as (e0 & h0 & s0 & E0 & E).
  destruct (open_load_closes _ _ _ _ _ _ _ _ _ _ _ _ Hc Hg He Hs E0 E)
    as (_ & Hne & [m Hm] & Hr & rank' & Hc' & Hres).
  exists rank'. split; [done|]. intros log fuel' Hf.
  apply (share_reaches_imports _ _ _ _ _ _ _ _ _ _ _ Hshare s' (loaded_module s') rank' fuel' h m);
    try done. by eexists.
Qed.
End loading.

(** ** A library of three modules

    APP.EXE imports LIB and MSG, LIB imports MSG. *)
Definition lib_provider (path : list Z) : option (list Z) :=
  if bool_decide (path = bstr "APP.EXE") then Some [1]
  else if bool_decide (path = bstr "LIB.dll") then Some [2]
  else if bool_decide (path = bstr "MSG.dll") then Some [3] else None.
Definition lib_module (file : list Z) : list string * list section :=
  match file with
  | [1] => (["LIB"; "MSG"], [mkSection 65536 16 0; mkSection 131072 32 1])
  | [2] => (["MSG"], [mkSection 200 10 2])
  | _ => ([], [mkSection 300 8 3])
  end.
Definition lib_format : IXFHandler :=
  mkHandler (fun _ => Ret NO_ERROR)
    (fun file _ r mm => Ret (NO_ERROR, ex_ixf (lib_module file).1 (lib_module file).2, r, mm))
    (fun _ mm => Ret (NO_ERROR, mm)).
Definition lib_new_module (ms : gmap Z module) : Z :=
  map_fold (fun k (_ : module) a => Z.max (k + 1) a) 6000 ms.
Definition addresses (n : node) : list Z := rec_addr (first n) :: (rec_addr <$> up n).
Definition lib_new_record (l : list node) : Z := foldr (fun a b => Z.max (a + 1) b) 50 (l ≫= addresses).

Lemma lib_new_above ms k m : ms !! k = Some m -> k < lib_new_module ms.
Proof.
  unfold lib_new_module. revert k m. apply (map_fold_weak_ind (fun r (ms : gmap Z module) =>
    forall k m, ms !! k = Some m -> k < r)); [done|].
  intros i x ms' r Hi IH k m [[-> ->]|[_ Hk]]%lookup_insert_Some; [lia|]. apply IH in Hk. lia.
Qed.
Lemma lib_new_start ms : 6000 <= lib_new_module ms.
Proof.
  unfold lib_new_module. apply (map_fold_weak_ind (fun r (_ : gmap Z module) => 6000 <= r)); [lia|].
  intros. lia.
Qed.

Lemma foldr_above l a : a ∈ l -> a < foldr (fun a b => Z.max (a + 1) b) 50 l.
Proof. induction 1; cbn; lia. Qed.

#[export] Instance lib_loader : Loader [lib_format] lib_new_module lib_new_record.
Proof.
  split.
  - intros ms. pose proof (lib_new_start ms). split; [lia|].
    destruct (ms !! lib_new_module ms) eqn:E; [|done]. apply lib_new_above in E. lia.
  - intros l n Hn. assert (Ha : forall a, a ∈ addresses n -> a < lib_new_record l).
    { intros a Ha. apply foldr_above, list_elem_of_bind. by exists n. }
    unfold addresses in Ha. split.
    + specialize (Ha (rec_addr (first n)) ltac:(by left)). lia.
    + intros r Hr. specialize (Ha (rec_addr r)). rewrite elem_of_cons in Ha.
      enough (rec_addr r < lib_new_record l) by lia. apply Ha. right. by apply list_elem_of_fmap_2.
  - intros f file x r mm ->%list_elem_of_singleton. cbn. unfold plain_imports, plain_name.
    destruct file as [|[|[[]|[]|]|] []]; cbn [lib_module fst snd ex_ixf Modules fmap list_fmap];
      (split; [cbn; lia|]); repeat constructor; vm_compute; congruence.
Qed.

Definition lib_start : modmgr := mkMM ∅ [] init_memmgr demo_mem demo_cfg (mkTok None 0).
Lemma lib_closed : closed lib_start (fun _ => O).
Proof. split; [done|constructor|]. by intros r ?%elem_of_nil. Qed.
#[local] Abbreviation lib_load :=
  (load_named lib_provider id [lib_format] lib_new_module lib_new_record blank_ixf true
     7 260 (bstr "APP.EXE") true lib_start).

Lemma load_then_share_witness : exists s' rank' l, lib_load = Ret (NO_ERROR, [], 6000, s') /\
  closed s' rank' /\ excShare lib_provider id [lib_format] lib_new_module lib_new_record blank_ixf true
    sec_addr 1 2 (fun _ _ => 0) (S (rank' 6000)) 6000 s' [] = Ret (0, s', l).
Proof.
  assert (Ev : match lib_load with Ret (rc, e, h, _) => (rc, e, h) = (0, [], 6000) | _ => False end)
    by (vm_compute; reflexivity).
  destruct lib_load as [[[[rc e] h] s']| | |] eqn:E; [|destruct Ev..]. injection Ev as -> -> ->.
  destruct (load_then_share lib_provider id [lib_format] lib_new_module lib_new_record blank_ixf true
    sec_addr 1 2 (fun _ _ => 0) 7 260 (bstr "APP.EXE") true lib_start (fun _ => O) [] 6000 s')
    as (rank' & Hc & Hsh); [done|exact lib_closed|reflexivity|vm_compute; discriminate|
      vm_compute; discriminate|exact E|].
  destruct (Hsh [] (S (rank' 6000))) as (l & El & _); [lia|].
  exists s', rank', l. split; [reflexivity|]. split; [exact Hc|exact El].
Defined.
