(* ===== verification/Dll.v ===== *)
(** * Doubly linked lists of structures

    Structures at addresses, each with the addresses of its neighbours: the list
    of processes of [ProcMgr] and the list of memory areas of [SharedMem].  The
    two projections of the structure are arguments. *)
From S2P Require Import Prelude.

Section dll.
Context {A : Type} {next prev : A -> Z}.
Implicit Types (ps : gmap Z A) (p : A) (L : list Z).

(** [L] are the addresses of the structures from [a] on; the first has [v] as
    its predecessor and the last [z] as its successor. *)
Fixpoint linked ps (v a : Z) L (z : Z) : Prop :=
  match L with
  | [] => a = z
  | b :: L => a = b /\ b <> 0 /\
      exists p, ps !! b = Some p /\ prev p = v /\ linked ps b (next p) L z
  end.

Definition links ps (b : Z) : option (Z * Z) :=
  (fun p => (next p, prev p)) <$> ps !! b.

Lemma linked_same ps ps' L : forall v a z,
  (forall b, b ∈ L -> links ps' b = links ps b) -> linked ps v a L z -> linked ps' v a L z.
Proof.
  induction L as [|b L IH]; intros v a z H; [done|]. intros (-> & Hb & p & Ep & Ev & Hl).
  split; [done|split; [done|]]. pose proof (H b ltac:(by left)) as E. unfold links in E.
  rewrite Ep in E. destruct (ps' !! b) as [p'|]; [|done]. injection E as En Ev'.
  exists p'. rewrite En, Ev'. split_and!; [done|done|]. apply IH; [|done].
  intros x Hx. apply H. by right.
Qed.

Lemma links_insert ps b p x : links (<[b := p]> ps) x =
  if decide (b = x) then Some (next p, prev p) else links ps x.
Proof. unfold links. rewrite lookup_insert. by case_decide. Qed.

Lemma last_shift L : forall b v, List.last (b :: L) v = List.last L b.
Proof.
  induction L as [|c L IH]; [done|]. intros b v. change (List.last (c :: L) v = List.last (c :: L) b).
  by rewrite !IH.
Qed.

Lemma linked_app ps L1 : forall L2 v a z, linked ps v a (L1 ++ L2) z <->
  exists m, linked ps v a L1 m /\ linked ps (List.last L1 v) m L2 z.
Proof.
  induction L1 as [|b L1 IH]; intros L2 v a z; cbn [app linked].
  - split; [intros H; by exists a|by intros (m & -> & H)].
  - split.
    + intros (-> & Hb & p & Ep & Ev & (m & H1 & H2)%IH). exists m. rewrite last_shift. eauto 8.
    + intros (m & (-> & Hb & p & Ep & Ev & H1) & H2). split_and!; [done|done|].
      rewrite last_shift in H2. exists p. split_and!; [done|done|]. apply IH. by exists m.
Qed.

(** The successor of the last structure, and the predecessor of the first,
    are changed. *)
Lemma linked_new_next ps v a L l z w p p' : l ∉ L -> ps !! l = Some p ->
  next p' = w -> prev p' = prev p ->
  linked ps v a (L ++ [l]) z -> linked (<[l := p']> ps) v a (L ++ [l]) w.
Proof.
  intros Hl Ep Hw Hp (m & H1 & (-> & Hne & q & Eq & Ev & Hz))%linked_app. apply linked_app.
  exists l. split.
  - eapply linked_same; [|exact H1]. intros b Hb. rewrite links_insert, decide_False; [done|].
    by intros ->.
  - split; [done|split; [done|]]. exists p'. rewrite lookup_insert_eq, Hp.
    replace q with p in * by congruence. done.
Qed.

Lemma linked_new_prev ps v a b L z w p p' : b ∉ L -> ps !! b = Some p ->
  prev p' = w -> next p' = next p ->
  linked ps v a (b :: L) z -> linked (<[b := p']> ps) w a (b :: L) z.
Proof.
  intros Hb Ep Hw Hn (-> & Hne & q & Eq & Ev & H). split; [done|split; [done|]].
  exists p'. rewrite lookup_insert_eq, Hn. replace q with p in * by congruence.
  split_and!; [done|done|]. eapply linked_same; [|exact H]. intros x Hx.
  rewrite links_insert, decide_False; [done|]. by intros ->.
Qed.

Lemma linked_dom ps L : forall v a z, linked ps v a L z ->
  forall b, b ∈ L -> b <> 0 /\ is_Some (ps !! b).
Proof.
  induction L as [|x L IH]; intros v a z H b Hb; [by apply elem_of_nil in Hb|].
  destruct H as (-> & Hx & p & Ep & _ & H). apply elem_of_cons in Hb as [->|Hb]; eauto.
Qed.

Lemma linked_size ps L v a z : NoDup L -> linked ps v a L z -> (length L <= size ps)%nat.
Proof.
  intros Hnd H. assert (E : list_to_set L ⊆ dom ps).
  { intros x Hx%elem_of_list_to_set. apply elem_of_dom. by eapply linked_dom. }
  apply subseteq_size in E. by rewrite size_dom, size_list_to_set in E.
Qed.

Lemma linked_head ps v a L z : linked ps v a L z -> a = 0 -> z = 0 \/ L = [] -> L = [].
Proof. destruct L as [|b L]; [done|]. by intros (-> & ? & _). Qed.
End dll.
Arguments linked {A} next prev ps v a L z.
Arguments links {A} next prev ps b.

(** ** Taking a structure out of the list *)

(** The fields that are not links, and the two assignments. *)
Class Links {A : Type} (next prev : A -> Z) := {
  with_next : A -> Z -> A;
  with_prev : A -> Z -> A;
  next_with_next : forall p n, next (with_next p n) = n;
  prev_with_next : forall p n, prev (with_next p n) = prev p;
  next_with_prev : forall p n, next (with_prev p n) = next p;
  prev_with_prev : forall p n, prev (with_prev p n) = n
}.

Section unlink.
Context {A : Type} {next prev : A -> Z} `{!Links next prev}.

Lemma linked_set_next ps v a L l z w p : l ∉ L -> ps !! l = Some p ->
  linked next prev ps v a (L ++ [l]) z ->
  linked next prev (<[l := with_next p w]> ps) v a (L ++ [l]) w.
Proof. intros Hl Ep. by eapply linked_new_next; eauto using next_with_next, prev_with_next. Qed.

Lemma linked_set_prev ps v a b L z w p : b ∉ L -> ps !! b = Some p ->
  linked next prev ps v a (b :: L) z ->
  linked next prev (<[b := with_prev p w]> ps) w a (b :: L) z.
Proof. intros Hb Ep. by eapply linked_new_prev; eauto using prev_with_prev, next_with_prev. Qed.

(** The neighbours of [a], which is not the first, are linked to each other. *)
Lemma linked_unlink ps r L1 l a L2 p :
  linked next prev ps 0 r ((L1 ++ [l]) ++ a :: L2) 0 -> NoDup ((L1 ++ [l]) ++ a :: L2) ->
  ps !! a = Some p ->
  prev p = l /\ l <> 0 /\ l <> a /\ exists pl, ps !! l = Some pl /\
  let ps1 := <[l := with_next pl (next p)]> ps in
  match L2 with
  | [] => next p = 0 /\ linked next prev ps1 0 r (L1 ++ [l]) 0
  | m :: _ => next p = m /\ m <> 0 /\ m <> a /\ exists pm, ps1 !! m = Some pm /\
      linked next prev (<[m := with_prev pm l]> ps1) 0 r ((L1 ++ [l]) ++ L2) 0
  end.
Proof.
  intros H Hnd Ep. apply linked_app in H as (m & H1 & (-> & Ha & p' & Ep' & Ev & H2)).
  replace p' with p in * by congruence. clear p' Ep'. rewrite List.last_last in Ev.
  apply NoDup_app in Hnd as (Hnd1 & Hd12 & [Ha2 Hnd2]%NoDup_cons).
  assert (Hl : l ∈ L1 ++ [l]) by mem_solve.
  destruct (linked_dom _ _ _ _ _ H1 l Hl) as [Hl0 [pl El]].
  assert (Hl1 : l ∉ L1).
  { intros Hin. apply NoDup_app in Hnd1 as (_ & Hd & _). apply (Hd l Hin). by left. }
  split_and!; [done|done|intros ->; apply (Hd12 a Hl); by left|]. exists pl. split; [done|].
  intros ps1. assert (K1 : linked next prev ps1 0 r (L1 ++ [l]) (next p)) by (by eapply linked_set_next).
  assert (K2 : linked next prev ps1 a (next p) L2 0).
  { eapply linked_same; [|exact H2]. intros b Hb. unfold ps1. rewrite links_insert, decide_False; [done|].
    intros ->. apply (Hd12 b Hl). by right. }
  destruct L2 as [|m L2]; [cbn in K2; by rewrite K2 in *|].
  pose proof K2 as (Em & Hm & pm & Epm & _). rewrite Em in *.
  split_and!; [done|done|intros ->; apply Ha2; by left|]. exists pm. split; [done|].
  apply linked_app. exists m. rewrite List.last_last. split.
  - eapply linked_same; [|exact K1]. intros b Hb. rewrite links_insert, decide_False; [done|].
    intros ->. apply (Hd12 b Hb). right. by left.
  - apply NoDup_cons in Hnd2 as [Hm2 _]. by eapply linked_set_prev.
Qed.

(** A structure that is not in the list may be released. *)
Lemma linked_delete ps v a L z b : b ∉ L -> linked next prev ps v a L z ->
  linked next prev (delete b ps) v a L z.
Proof.
  intros Hb. apply linked_same. intros x Hx. unfold links. rewrite lookup_delete_ne; [done|].
  by intros ->.
Qed.

(** A new structure before the first. *)
Lemma linked_cons ps a L c p : linked next prev ps 0 a L 0 -> c ∉ L -> NoDup L -> c <> 0 ->
  next p = a -> prev p = 0 ->
  match L with
  | [] => a = 0 /\ linked next prev (<[c := p]> ps) 0 c [c] 0
  | b :: _ => a = b /\ b <> 0 /\ exists q, (<[c := p]> ps) !! b = Some q /\
      linked next prev (<[b := with_prev q c]> (<[c := p]> ps)) 0 c (c :: L) 0
  end.
Proof.
  intros H Hc Hnd Hc0 Hn Hp.
  assert (K : linked next prev (<[c := p]> ps) 0 a L 0).
  { eapply linked_same; [|exact H]. intros x Hx. rewrite links_insert, decide_False; [done|].
    by intros ->. }
  destruct L as [|b L].
  - cbn in H. split; [done|]. split; [done|]. split; [done|]. exists p.
    rewrite lookup_insert_eq. split_and!; [done|done|]. cbn. congruence.
  - pose proof K as (-> & Hb & q & Eq & _). split; [done|]. split; [done|]. exists q.
    split; [done|]. apply NoDup_cons in Hnd as [HbL _].
    assert (Hbc : b <> c) by (intros ->; apply Hc; by left).
    split; [done|]. split; [done|]. exists p. rewrite lookup_insert_ne, lookup_insert_eq by done.
    split_and!; [done|done|]. rewrite Hn. by eapply linked_set_prev.
Qed.
End unlink.
