(* ===== verification/ProcMgr.v ===== *)
(** * The process manager ([OS2/Server/shared/server/os2srv/processmgr.c])

    The list of processes with their information blocks (PIB and TIB), the
    creation, the end and the search of processes, and the start of a program.
    The structures [t_os2process] are records at their addresses; PIB and TIB
    are bytes of the memory of the server, as they are shared with the
    programs. *)
From S2P Require Import Prelude Dll CfgParser PathSearch.

(** ** Strings and string lists in memory

    A string list is a sequence of strings, ended by an empty one.  The memory
    is finite, so [size] bounds the length of what can be read. *)
Fixpoint load_str (fuel : nat) (s : mem) (p : Z) : C (list Z) :=
  match fuel with
  | O => NoFuel
  | S fuel =>
      c ← ld8 s p;
      if c =? 0 then Ret [] else (fun l => c :: l) <$> load_str fuel s (p + 1)
  end.
Definition mstr (s : mem) (p : Z) : C (list Z) := load_str (S (size s)) s p.
Definition mstrlen (s : mem) (p : Z) : C Z := (fun l => Z.of_nat (length l)) <$> mstr s p.

Fixpoint copy_str (fuel : nat) (s : mem) (dst src : Z) : C mem :=
  match fuel with
  | O => NoFuel
  | S fuel =>
      c ← ld8 s src;
      s ← st8 s dst c;
      if c =? 0 then Ret s else copy_str fuel s (dst + 1) (src + 1)
  end.
Definition mstrcpy (s : mem) (dst src : Z) : C mem := copy_str (S (size s)) s dst src.

Fixpoint strlst_len (fuel : nat) (s : mem) (p len : Z) : C Z :=
  match fuel with
  | O => NoFuel
  | S fuel =>
      c ← ld8 s p;
      if c =? 0 then Ret (len + 1)
      else
        n ← mstrlen s p;
        let l := n + 1 in
        strlst_len fuel s (p + l) (len + l)
  end.
Definition strlstlen (s : mem) (p : Z) : C Z :=
  if p =? 0 then Ret 2
  else
    c ← ld8 s p;
    if c =? 0 then Ret 2 else strlst_len (S (size s)) s p 0.

Fixpoint strlst_cpy (fuel : nat) (s : mem) (p q len : Z) : C (mem * Z) :=
  match fuel with
  | O => NoFuel
  | S fuel =>
      c ← ld8 s q;
      if c =? 0 then s ← st8 s p 0; Ret (s, len + 1)
      else
        s ← mstrcpy s p q;
        n ← mstrlen s q;
        let l := n + 1 in
        strlst_cpy fuel s (p + l) (q + l) (len + l)
  end.
Definition strlstcpy (s : mem) (s1 s2 : Z) : C (mem * Z) :=
  strlst_cpy (S (size s)) s s1 s2 0.

(** ** Data ([os3/processmgr.h]) *)

Definition MAX_TID : Z := 128.

Definition EXEC_SYNC : Z := 0.
Definition EXEC_ASYNC : Z := 1.
Definition EXEC_ASYNCRESULT : Z := 2.
Definition EXEC_TRACE : Z := 3.
Definition EXEC_BACKGROUND : Z := 4.
Definition EXEC_LOAD : Z := 5.
Definition EXEC_ASYNCRESULTDB : Z := 6.

(** Layout of [PIB], [TIB] and [TIB2]. *)
Definition sizeof_PIB : Z := 28.
Definition pib_ulpid : Z := 0.
Definition pib_ulppid : Z := 4.
Definition pib_hmte : Z := 8.
Definition pib_pchcmd : Z := 12.
Definition pib_pchenv : Z := 16.
Definition sizeof_TIB : Z := 32.
Definition tib_pstack : Z := 4.
Definition tib_pstacklimit : Z := 8.
Definition tib_ptib2 : Z := 12.
Definition sizeof_TIB2 : Z := 16.
Definition tib2_ultid : Z := 0.

(** Semaphores are their counters; tasks and threads are the values the
    platform compares. *)
Record t_os2process := mkProc {
  hmte : Z;
  pid : Z;
  exec_sync : Z;
  startup_sem : Z;
  term_sem : Z;
  task : Z;
  term_code : Z;
  ip : Z;
  sp : Z;
  lx_pib : Z;
  tib_array : list Z;
  tid_array : list Z;
  curdisk : Z;
  curdir : list Z;
  next : Z;
  prev : Z
}.
Definition with_links (p : t_os2process) (n v : Z) : t_os2process :=
  mkProc (hmte p) (pid p) (exec_sync p) (startup_sem p) (term_sem p) (task p) (term_code p)
    (ip p) (sp p) (lx_pib p) (tib_array p) (tid_array p) (curdisk p) (curdir p) n v.
Definition with_next (p : t_os2process) (n : Z) : t_os2process := with_links p n (prev p).
Definition with_prev (p : t_os2process) (v : Z) : t_os2process := with_links p (next p) v.
Definition with_sems (p : t_os2process) (startup term : Z) : t_os2process :=
  mkProc (hmte p) (pid p) (exec_sync p) startup term (task p) (term_code p)
    (ip p) (sp p) (lx_pib p) (tib_array p) (tid_array p) (curdisk p) (curdir p) (next p) (prev p).
Definition with_dir (p : t_os2process) (disk : Z) (dir : list Z) : t_os2process :=
  mkProc (hmte p) (pid p) (exec_sync p) (startup_sem p) (term_sem p) (task p) (term_code p)
    (ip p) (sp p) (lx_pib p) (tib_array p) (tid_array p) disk dir (next p) (prev p).
Definition with_tids (p : t_os2process) (tibs tids : list Z) : t_os2process :=
  mkProc (hmte p) (pid p) (exec_sync p) (startup_sem p) (term_sem p) (task p) (term_code p)
    (ip p) (sp p) (lx_pib p) tibs tids (curdisk p) (curdir p) (next p) (prev p).
Definition with_task (p : t_os2process) (t : Z) : t_os2process :=
  mkProc (hmte p) (pid p) (exec_sync p) (startup_sem p) (term_sem p) t (term_code p)
    (ip p) (sp p) (lx_pib p) (tib_array p) (tid_array p) (curdisk p) (curdir p) (next p) (prev p).
Definition with_code (p : t_os2process) (sync code : Z) : t_os2process :=
  mkProc (hmte p) (pid p) sync (startup_sem p) (term_sem p) (task p) code
    (ip p) (sp p) (lx_pib p) (tib_array p) (tid_array p) (curdisk p) (curdir p) (next p) (prev p).
Definition with_start (p : t_os2process) (h i k : Z) : t_os2process :=
  mkProc h (pid p) (exec_sync p) (startup_sem p) (term_sem p) (task p) (term_code p)
    i k (lx_pib p) (tib_array p) (tid_array p) (curdisk p) (curdir p) (next p) (prev p).
Definition with_blocks (p : t_os2process) (pib : Z) (tibs : list Z) (id : Z) : t_os2process :=
  mkProc 0 id 0 (startup_sem p) (term_sem p) (task p) (term_code p)
    0 0 pib tibs (tid_array p) (curdisk p) (curdir p) (next p) (prev p).

(** The state: the structures that are allocated, [proc_root], the static
    [pid], and the memory. *)
Record prcmgr := mkPrc {
  procs : gmap Z t_os2process;
  proc_root : Z;
  last_pid : Z;
  pmem : mem
}.
Definition set_procs (st : prcmgr) (ps : gmap Z t_os2process) : prcmgr :=
  mkPrc ps (proc_root st) (last_pid st) (pmem st).
Definition set_pmem (st : prcmgr) (s : mem) : prcmgr :=
  mkPrc (procs st) (proc_root st) (last_pid st) s.

(** Access through a pointer. *)
Definition proc_at (ps : gmap Z t_os2process) (a : Z) : C t_os2process :=
  if a =? 0 then Undef else need (ps !! a).
Definition modify (a : Z) (f : t_os2process -> t_os2process) (st : prcmgr) : C prcmgr :=
  p ← proc_at (procs st) a; Ret (set_procs st (<[a := f p]> (procs st))).

(** An element of [tib_array] or [tid_array] (128 elements). *)
Definition tid_index (tid : Z) : Z := u32 (tid - 1).
Definition tid_get (l : list Z) (tid : Z) : C Z := need (l !! Z.to_nat (tid_index tid)).
Definition tid_set (l : list Z) (tid v : Z) : C (list Z) :=
  _ ← tid_get l tid; Ret (<[Z.to_nat (tid_index tid) := v]> l).

Section process_manager.

(** The platform: comparing tasks and threads, the invalid thread, the answer
    of the dataspace manager and region mapper to [alloc_mem], and the memory
    after a region is detached. *)
Variables (TaskEqual ThreadEqual : Z -> Z -> bool) (NIL_THREAD : Z).
Variables (map_region : mem -> Z -> malloc_answer) (detach : mem -> Z -> mem).
(** The address of the string constant [""]. *)
Variable empty_string : Z.

Definition alloc_mem (s : mem) (size : Z) : mem * Z := malloc s size (map_region s size).
Definition free_mem (s : mem) (a : Z) : mem := detach s a.

(** ** Search *)

(** The first process of the list that passes the test, or null. *)
Fixpoint find_proc (fuel : nat) (ps : gmap Z t_os2process) (test : t_os2process -> bool)
    (a : Z) : C Z :=
  match fuel with
  | O => NoFuel
  | S fuel =>
      p ← proc_at ps a;
      if test p then Ret a
      else if next p =? 0 then Ret 0 else find_proc fuel ps test (next p)
  end.
Definition search_proc (test : t_os2process -> bool) (st : prcmgr) : C Z :=
  if proc_root st =? 0 then Ret 0
  else find_proc (S (size (procs st))) (procs st) test (proc_root st).

Definition PrcGetProc (id : Z) (st : prcmgr) : C Z :=
  search_proc (fun p => u32 (pid p) =? id) st.
Definition PrcGetProcNative (thread : Z) (st : prcmgr) : C Z :=
  search_proc (fun p => TaskEqual (task p) thread) st.

Fixpoint find_tid (l : list Z) (thread i : Z) : Z :=
  match l with
  | [] => 0
  | t :: l => if ThreadEqual t thread then i + 1 else find_tid l thread (i + 1)
  end.
Definition PrcGetTIDNative (thread : Z) (st : prcmgr) : C Z :=
  a ← PrcGetProcNative thread st;
  p ← proc_at (procs st) a;
  Ret (find_tid (tid_array p) thread 0).
Definition PrcGetNativeID (id tid : Z) (st : prcmgr) : C Z :=
  a ← PrcGetProc id st;
  p ← proc_at (procs st) a;
  tid_get (tid_array p) tid.

(** ** Information blocks *)

Definition PrcCreatePIB (prg arg env : Z) (s : mem) : C (mem * Z) :=
  len1 ← strlstlen s env;
  n2 ← mstrlen s prg;
  let len2 := n2 + 1 in
  n3 ← mstrlen s arg;
  let len3 := n3 + 1 in
  n4 ← mstrlen s (arg + len3);
  let len4 := n4 + 1 in
  let '(s, pp) := alloc_mem s (sizeof_PIB + len1 + len2 + (len3 + len4)) in
  let s1 := pp + sizeof_PIB in
  '(s, _) ← strlstcpy s s1 env;
  let s2 := s1 + len1 in
  s ← mstrcpy s s2 prg;
  let s3 := s2 + len2 in
  '(s, _) ← strlstcpy s s3 arg;
  s ← st32 s (pp + pib_pchenv) s1;
  s ← st32 s (pp + pib_pchcmd) s3;
  Ret (s, pp).

Definition PrcCreateTIB (s : mem) : C (mem * Z) :=
  let '(s, pt) := alloc_mem s (sizeof_TIB + sizeof_TIB2) in
  s ← st32 s (pt + tib_ptib2) (pt + sizeof_TIB);
  Ret (s, pt).

Definition PrcNewTIB (id tid thread : Z) (st : prcmgr) : C (Z * prcmgr) :=
  a ← PrcGetProc id st;
  '(s, ptib) ← PrcCreateTIB (pmem st);
  p ← proc_at (procs st) a;
  tids ← tid_set (tid_array p) tid thread;
  tibs ← tid_set (tib_array p) tid ptib;
  ptib2 ← ld32 s (ptib + tib_ptib2);
  s ← st32 s (ptib2 + tib2_ultid) tid;
  st ← modify a (fun p => with_tids p tibs tids) (set_pmem st s);
  Ret (0, st).

Definition PrcDestroyTIB (id tid : Z) (st : prcmgr) : C (Z * prcmgr) :=
  a ← PrcGetProc id st;
  p ← proc_at (procs st) a;
  ptib ← tid_get (tib_array p) tid;
  tibs ← tid_set (tib_array p) tid 0;
  tids ← tid_set (tid_array p) tid NIL_THREAD;
  st ← modify a (fun p => with_tids p tibs tids) st;
  Ret (0, set_pmem st (free_mem (pmem st) ptib)).

(** ** Creation and end of a process *)

(** The last process of the list that begins at [a]. *)
Fixpoint last_proc (fuel : nat) (ps : gmap Z t_os2process) (a : Z) : C Z :=
  match fuel with
  | O => NoFuel
  | S fuel =>
      p ← proc_at ps a;
      if next p =? 0 then Ret a else last_proc fuel ps (next p)
  end.

(** The new structure, whose contents are arbitrary, is put at the end of the
    list and given the next number. *)
Definition link_proc (c : Z) (fresh : t_os2process) (st : prcmgr) : C prcmgr :=
  let c0 := with_links (with_sems fresh (startup_sem fresh) 0) 0 0 in
  let ps := <[c := c0]> (procs st) in
  let root := if proc_root st =? 0 then c else proc_root st in
  p ← last_proc (S (size ps)) ps root;
  let st := mkPrc ps root (last_pid st) (pmem st) in
  st ← (if p =? c then Ret st
        else
          st ← modify p (fun q => with_next q c) st;
          modify c (fun q => with_prev q p) st);
  _ ← require (last_pid st + 1 <? 2 ^ 31);
  Ret (mkPrc (procs st) (proc_root st) (last_pid st + 1) (pmem st)).

(** Current disk and directory, from the parent unless it is process 0. *)
Definition inherit_dir (c parent ppid : Z) (st : prcmgr) : C prcmgr :=
  if negb (parent =? 0) && negb (ppid =? 0) && negb (last_pid st =? 0) then
    pp ← proc_at (procs st) parent;
    dir ← cstr (curdir pp);
    p ← proc_at (procs st) c;
    buf ← strcpy_at (curdir p) 0 dir;
    modify c (fun p => with_dir p (curdisk pp) buf) st
  else
    p ← proc_at (procs st) c;
    buf ← wr8 (curdir p) 0 0;
    modify c (fun p => with_dir p 3 buf) st.

(** The environment is the one given, or the parent's. *)
Definition inherit_env (pEnv parent : Z) (st : prcmgr) : C Z :=
  let inherited := (pp ← proc_at (procs st) parent; ld32 (pmem st) (lx_pib pp + pib_pchenv)) in
  if pEnv =? 0 then inherited
  else
    e ← ld8 (pmem st) pEnv;
    if e =? 0 then inherited else Ret pEnv.

(** [o] is the answer of [malloc]: the address and the contents of the new
    structure. *)
Definition PrcCreate (ppid pPrg pArg pEnv : Z) (o : option (Z * t_os2process)) (st : prcmgr)
    : C (Z * prcmgr) :=
  match o with
  | None => Ret (0, st)
  | Some (c, fresh) =>
      st ← link_proc c fresh st;
      parent ← PrcGetProc ppid st;
      st ← inherit_dir c parent ppid st;
      env ← inherit_env pEnv parent st;
      let arg := if pArg =? 0 then empty_string else pArg in
      '(s, pib) ← PrcCreatePIB pPrg arg env (pmem st);
      '(s, tib) ← PrcCreateTIB s;
      st ← modify c (fun p => with_blocks p pib (tib :: replicate 127 0) (last_pid st))
             (set_pmem st s);
      s ← st32 (pmem st) (pib + pib_ulpid) (last_pid st);
      s ← st32 s (pib + pib_ulppid) ppid;
      s ← st32 s (pib + pib_hmte) 0;
      Ret (c, set_pmem st s)
  end.

(** [proc_root] is not changed. *)
Definition PrcDestroy (a : Z) (st : prcmgr) : C prcmgr :=
  p ← proc_at (procs st) a;
  st ← (if prev p =? 0 then Ret st else modify (prev p) (fun q => with_next q (next p)) st);
  st ← (if next p =? 0 then Ret st else modify (next p) (fun q => with_prev q (prev p)) st);
  p ← proc_at (procs st) a;
  let s := foldl (fun s t => if t =? 0 then s else free_mem s t)
             (free_mem (pmem st) (lx_pib p)) (tib_array p) in
  Ret (mkPrc (delete a (procs st)) (proc_root st) (last_pid st) s).

(** ** Notifications from the loaded program *)

Definition CPAppNotify1 (thread : Z) (st : prcmgr) : C prcmgr :=
  a ← PrcGetProcNative thread st;
  p ← proc_at (procs st) a;
  ppid ← ld32 (pmem st) (lx_pib p + pib_ulppid);
  parent ← PrcGetProc ppid st;
  modify parent (fun q => with_sems q (startup_sem q + 1) (term_sem q)) st.

(** What the module manager found out about the program; [path] is an address. *)
Record os2exec_module_t := mkExec {
  m_ip : Z; m_sp : Z; m_sp_limit : Z; m_hmod : Z; m_path : Z
}.

Definition CPAppNotify2 (thread : Z) (m : os2exec_module_t) (o : option (Z * t_os2process))
    (st : prcmgr) : C prcmgr :=
  a ← PrcGetProcNative thread st;
  '(a, st) ← (if a =? 0 then
                '(a, st) ← PrcCreate 0 (m_path m) empty_string empty_string o st;
                st ← modify a (fun p => with_task p thread) st;
                Ret (a, st)
              else Ret (a, st));
  st ← modify a (fun p => with_start p (m_hmod m) (m_ip m) (m_sp m)) st;
  p ← proc_at (procs st) a;
  s ← st32 (pmem st) (lx_pib p + pib_hmte) (m_hmod m);
  tib ← tid_get (tib_array p) 1;
  s ← st32 s (tib + tib_pstack) (m_sp m);
  s ← st32 s (tib + tib_pstacklimit) (m_sp_limit m);
  tib2 ← ld32 s (tib + tib_ptib2);
  s ← st32 s (tib2 + tib2_ultid) 1;
  modify a (fun p => with_tids p (tib_array p) (thread :: replicate 127 NIL_THREAD))
    (set_pmem st s).

(** ** Execution of a program *)

(** The loader of the host (its code and the task it started), and the codes
    of the program's own loader. *)
Variables (io_load_file : list Z -> option (list Z)).
Variables (LoaderExec : list Z -> Z * Z) (AppClientGetLoadError : Z -> Z).

Definition LoaderExecOS2 (path : list Z) (a : Z) (st : prcmgr) : C (Z * prcmgr) :=
  let '(rc, taskid) := LoaderExec path in
  st ← modify a (fun p => with_task p taskid) st;
  Ret (rc, st).

(** The string is stored with its terminator. *)
Fixpoint st_string (s : mem) (a : Z) (l : list Z) : C mem :=
  match l with
  | [] => st8 s a 0
  | c :: l => s ← st8 s a c; st_string s (a + 1) l
  end.

Definition async_flag (execFlag : Z) : bool :=
  (execFlag =? EXEC_ASYNC) || (execFlag =? EXEC_ASYNCRESULT) ||
  (execFlag =? EXEC_ASYNCRESULTDB) || (execFlag =? EXEC_TRACE) || (execFlag =? EXEC_BACKGROUND).

(** [name] is the array with the terminated name; [p_buf] is the address of
    the local array for the path.  The result is the code, [codeTerminate] if
    it was set, the process, and the new states.  (Terminating the program
    after an error is left to its own server.) *)
Definition PrcExecuteModule (execFlag pArg pEnv : Z) (name : list Z) (ppid p_buf : Z)
    (o : option (Z * t_os2process)) (cf : cfg) (t : tok) (st : prcmgr)
    : C (Z * option Z * Z * prcmgr * tok) :=
  c0 ← rd8 name 0;
  relative ← (if c0 =? backslash then Ret false
              else
                c1 ← rd8 name 1;
                if c1 =? ch ":"%char then c2 ← rd8 name 2; Ret (negb (c2 =? backslash))
                else Ret true);
  pName ← cstr name;
  '(rc, path, t) ← (if relative : bool then
                      '(rc, path, _, t) ← find_path io_load_file cf pName t;
                      Ret (rc, path, t)
                    else Ret (NO_ERROR, pName, t));
  if negb (rc =? NO_ERROR) then Ret (rc, None, 0, st, t)
  else
    _ ← require (Z.of_nat (length path) <? path_cap);
    let path := toupper <$> path in
    s ← st_string (pmem st) p_buf path;
    '(a, st) ← PrcCreate ppid p_buf pArg pEnv o (set_pmem st s);
    '(rc, st) ← LoaderExecOS2 path a st;
    if negb (rc =? NO_ERROR) then Ret (rc, None, a, st, t)
    else
      p ← proc_at (procs st) a;
      let codeTerminate := if async_flag execFlag then u32 (pid p) else 0 in
      Ret (AppClientGetLoadError (task p), Some codeTerminate, a, st, t).

End process_manager.

(** ** Strings in memory: proofs *)

(** A string and a string list as they lie in memory. *)
Definition zstr (l : list Z) : list Z := l ++ [0].
Definition strlst (ls : list (list Z)) : list Z := mjoin (zstr <$> ls) ++ [0].

Lemma zstr_length l : Z.of_nat (length (zstr l)) = Z.of_nat (length l) + 1.
Proof. unfold zstr. rewrite length_app. cbn. lia. Qed.

Lemma zstr_pos l : (0 < length (zstr l))%nat.
Proof. unfold zstr. rewrite length_app. cbn. lia. Qed.

Lemma load_str_spec l : forall fuel s p, text l -> mem_at s p (zstr l) ->
  (length l < fuel)%nat -> load_str fuel s p = Ret l.
Proof.
  induction l as [|c l IH]; intros [|fuel] s p Hl H Hf; try (cbn [length] in Hf; lia);
    cbn [load_str]; apply mem_at_cons in H as [H1 H2]; unfold ld8; rewrite H1;
    cbn [need mbind C_bind]; [done|]. inversion_clear Hl as [|? ? Hc Hl'].
  destruct (Z.eqb_spec c 0); [lia|]. rewrite (IH fuel s (p + 1)); [done|done|done|].
  cbn [length] in Hf. lia.
Qed.

Lemma mem_at_size s p l : mem_at s p l -> (length l <= size s)%nat.
Proof. intros H. by apply (allocated_size s p), mem_at_allocated. Qed.

Lemma mstr_spec s p l : text l -> mem_at s p (zstr l) -> mstr s p = Ret l.
Proof.
  intros Hl H. apply load_str_spec; [done|done|]. apply mem_at_size in H.
  unfold zstr in H. rewrite length_app in H. cbn in H. lia.
Qed.

Lemma mstrlen_spec s p l : text l -> mem_at s p (zstr l) ->
  mstrlen s p = Ret (Z.of_nat (length l)).
Proof. intros Hl H. unfold mstrlen. by rewrite (mstr_spec s p l). Qed.

(** Two areas do not overlap. *)
Definition apart (a n b k : Z) : Prop := a + n <= b \/ b + k <= a.

Lemma copy_str_spec l : forall fuel s dst src, text l -> mem_at s src (zstr l) ->
  (length l < fuel)%nat -> allocated s dst (Z.of_nat (length l) + 1) ->
  apart dst (Z.of_nat (length l) + 1) src (Z.of_nat (length l) + 1) ->
  exists s', copy_str fuel s dst src = Ret s' /\ mem_at s' dst (zstr l) /\
    upd_in dst (Z.of_nat (length l) + 1) s s'.
Proof.
  induction l as [|c l IH]; intros [|fuel] s dst src Hl H Hf Ha Hap;
    try (cbn [length] in Hf; lia); cbn [copy_str]; apply mem_at_cons in H as [H1 H2];
    unfold ld8; rewrite H1; cbn [need mbind C_bind length] in *.
  - rewrite st8_ok by (apply Ha; lia). cbn [mbind C_bind]. eexists. split_and!; [done| |].
    + apply mem_at_cons. split; [by rewrite lookup_insert_eq|by intros i d].
    + apply st8_upd with 0. apply st8_ok, Ha. lia.
  - inversion_clear Hl as [|? ? Hc Hl']. rewrite st8_ok by (apply Ha; lia).
    cbn [mbind C_bind]. destruct (Z.eqb_spec c 0); [lia|].
    assert (U : upd_in dst 1 s (<[dst := u8 c]> s)) by (apply st8_upd with c, st8_ok, Ha; lia).
    destruct (IH fuel (<[dst := u8 c]> s) (dst + 1) (src + 1)) as (s' & E & M & U').
    + done.
    + eapply mem_at_same; [exact H2|]. intros i Hi. unfold zstr in Hi.
      rewrite length_app in Hi. cbn [length] in Hi. apply U. unfold apart in Hap. lia.
    + lia.
    + intros i Hi. apply U, Ha. lia.
    + unfold apart in *. lia.
    + exists s'. split_and!; [done| |].
      * apply mem_at_cons. split; [|done]. destruct U' as [U' _]. rewrite U' by lia.
        rewrite lookup_insert_eq, u8_id; [done|]. unfold is_byte. lia.
      * eapply upd_in_trans; eapply upd_in_weaken; [exact U|lia|lia|exact U'|lia|lia].
Qed.

Lemma mstrcpy_spec s dst src l : text l -> mem_at s src (zstr l) ->
  allocated s dst (Z.of_nat (length l) + 1) ->
  apart dst (Z.of_nat (length l) + 1) src (Z.of_nat (length l) + 1) ->
  exists s', mstrcpy s dst src = Ret s' /\ mem_at s' dst (zstr l) /\
    upd_in dst (Z.of_nat (length l) + 1) s s'.
Proof.
  intros Hl H. apply copy_str_spec; [done|done|]. apply mem_at_size in H.
  unfold zstr in H. rewrite length_app in H. cbn in H. lia.
Qed.

(** The strings of a list are not empty. *)
Definition strings_ok (ls : list (list Z)) : Prop := Forall (fun l => text l /\ l <> []) ls.

Lemma strlst_cons l ls : strlst (l :: ls) = zstr l ++ strlst ls.
Proof. unfold strlst. cbn. by rewrite <- app_assoc. Qed.

Lemma strlst_length_cons l ls : Z.of_nat (length (strlst (l :: ls))) =
  Z.of_nat (length l) + 1 + Z.of_nat (length (strlst ls)).
Proof. rewrite strlst_cons, length_app, Nat2Z.inj_add, zstr_length. lia. Qed.

Lemma strlst_pos ls : (0 < length (strlst ls))%nat.
Proof. unfold strlst. rewrite length_app. cbn. lia. Qed.

(** The first byte of a list tells whether it is empty. *)
Lemma strlst_first s p ls : strings_ok ls -> mem_at s p (strlst ls) ->
  exists c, ld8 s p = Ret c /\ (c = 0 <-> ls = []).
Proof.
  intros Hls H. destruct ls as [|[|c l] ls].
  - apply mem_at_cons in H as [H _]. exists 0. unfold ld8. by rewrite H.
  - by inversion_clear Hls as [|? ? [_ ?]].
  - rewrite strlst_cons in H. apply mem_at_app_inv in H as [H _].
    apply mem_at_cons in H as [H _]. exists c. unfold ld8. rewrite H. split; [done|].
    inversion_clear Hls as [|? ? [Ht _]]. inversion_clear Ht. split; [lia|done].
Qed.

Lemma strlst_len_spec ls : forall fuel s p len, strings_ok ls -> mem_at s p (strlst ls) ->
  (length ls < fuel)%nat ->
  strlst_len fuel s p len = Ret (len + Z.of_nat (length (strlst ls))).
Proof.
  induction ls as [|l ls IH]; intros [|fuel] s p len Hls H Hf; try (cbn [length] in Hf; lia);
    destruct (strlst_first _ _ _ Hls H) as (c & Ec & Hc); cbn [strlst_len]; rewrite Ec;
    cbn [mbind C_bind].
  - by destruct Hc as [_ ->].
  - destruct (Z.eqb_spec c 0) as [E|_]; [by apply Hc in E|].
    inversion_clear Hls as [|? ? [Hl _] Hls']. rewrite strlst_cons in H.
    apply mem_at_app_inv in H as [H1 H2]. rewrite (mstrlen_spec s p l) by done.
    cbn [mbind C_bind]. rewrite zstr_length in H2. rewrite (IH fuel s); [|done|done|].
    + f_equal. rewrite strlst_length_cons. lia.
    + cbn [length] in Hf. lia.
Qed.

Lemma strlst_count ls : (length ls < length (strlst ls))%nat.
Proof.
  induction ls as [|l ls IH]; [cbn; lia|]. rewrite strlst_cons, length_app. unfold zstr.
  rewrite length_app. cbn [length]. lia.
Qed.

Lemma strlstlen_spec s p ls : strings_ok ls -> ls <> [] -> p <> 0 -> mem_at s p (strlst ls) ->
  strlstlen s p = Ret (Z.of_nat (length (strlst ls))).
Proof.
  intros Hls Hne Hp H. unfold strlstlen. destruct (Z.eqb_spec p 0); [done|].
  destruct (strlst_first _ _ _ Hls H) as (c & Ec & Hc). rewrite Ec. cbn [mbind C_bind].
  destruct (Z.eqb_spec c 0) as [E|_]; [by apply Hc in E|]. rewrite (strlst_len_spec ls) by (done || (apply mem_at_size in H; pose proof (strlst_count ls); lia)). done.
Qed.

(** One string is copied. *)
Lemma strlst_cpy_step l ls fuel s p q len : strings_ok (l :: ls) ->
  mem_at s q (strlst (l :: ls)) ->
  let m := Z.of_nat (length l) + 1 in
  let k := Z.of_nat (length (strlst ls)) in
  allocated s p m -> apart p (m + k) q (m + k) ->
  exists s1, strlst_cpy (S fuel) s p q len = strlst_cpy fuel s1 (p + m) (q + m) (len + m) /\
    mem_at s1 p (zstr l) /\ upd_in p m s s1 /\ mem_at s1 (q + m) (strlst ls).
Proof.
  intros Hls H m k Ha Hap. destruct (strlst_first _ _ _ Hls H) as (c & Ec & Hc).
  cbn [strlst_cpy]. rewrite Ec. cbn [mbind C_bind].
  destruct (Z.eqb_spec c 0) as [E|_]; [by apply Hc in E|].
  inversion_clear Hls as [|? ? [Hl _] Hls']. rewrite strlst_cons in H.
  apply mem_at_app_inv in H as [H1 H2]. rewrite zstr_length in H2.
  fold m in H2. assert (Hk : 0 <= k) by (unfold k; lia).
  destruct (mstrcpy_spec s p q l) as (s1 & E1 & M1 & U1);
    [done|done|exact Ha|fold m; unfold apart in *; lia|].
  fold m in U1. exists s1. rewrite E1. cbn [mbind C_bind].
  assert (Hq : forall b l', mem_at s b l' -> apart p m b (Z.of_nat (length l')) -> mem_at s1 b l').
  { intros b l' Hb Hap'. eapply mem_at_same; [exact Hb|]. intros i Hi. apply U1.
    unfold apart in Hap'. lia. }
  rewrite (mstrlen_spec s1 q l);
    [|done|apply Hq; [done|rewrite zstr_length; fold m; unfold apart in *; lia]].
  split_and!; [done|done|done|]. apply Hq; [done|]. fold k. unfold apart in *. lia.
Qed.

Lemma strlst_cpy_nil fuel s p q len : mem_at s q (strlst []) ->
  strlst_cpy (S fuel) s p q len = s ← st8 s p 0; Ret (s, len + 1).
Proof. intros [H _]%mem_at_cons. cbn [strlst_cpy]. unfold ld8. by rewrite H. Qed.

Lemma strlst_cpy_spec ls : forall fuel s p q len, strings_ok ls -> mem_at s q (strlst ls) ->
  (length ls < fuel)%nat -> let n := Z.of_nat (length (strlst ls)) in
  allocated s p n -> apart p n q n ->
  exists s', strlst_cpy fuel s p q len = Ret (s', len + n) /\ mem_at s' p (strlst ls) /\
    upd_in p n s s'.
Proof.
  induction ls as [|l ls IH]; intros [|fuel] s p q len Hls H Hf n Ha Hap;
    try (cbn [length] in Hf; lia); subst n.
  - rewrite strlst_cpy_nil by done. change (Z.of_nat (length (strlst []))) with 1 in *.
    rewrite st8_ok by (apply Ha; lia). cbn [mbind C_bind]. eexists. split_and!; [done| |].
    + apply mem_at_cons. split; [by rewrite lookup_insert_eq|by intros i d].
    + apply st8_upd with 0. apply st8_ok, Ha. lia.
  - rewrite strlst_length_cons in *. pose proof (strlst_pos ls).
    destruct (strlst_cpy_step l ls fuel s p q len Hls H) as (s1 & -> & M1 & U1 & M1');
      [intros i Hi; apply Ha; lia|unfold apart in *; lia|].
    set (m := Z.of_nat (length l) + 1) in *. set (k := Z.of_nat (length (strlst ls))) in *.
    destruct (IH fuel s1 (p + m) (q + m) (len + m)) as (s2 & E2 & M2 & U2);
      [by inversion_clear Hls|done|cbn [length] in Hf; lia
      |fold k; intros i Hi; apply U1, Ha; lia|fold k; unfold apart in *; lia|].
    fold k in E2, U2. exists s2. rewrite E2. split_and!; [by rewrite Z.add_assoc| |].
    + rewrite strlst_cons. apply mem_at_app; [|by rewrite zstr_length].
      eapply mem_at_upd; [exact M1|exact U2|rewrite zstr_length; fold m; lia].
    + eapply upd_in_trans; eapply upd_in_weaken; [exact U1|lia|lia|exact U2|lia|lia].
Qed.

(** Without room for the last byte the copy leaves the block. *)
Lemma strlst_cpy_short ls : forall fuel s p q len, strings_ok ls -> mem_at s q (strlst ls) ->
  (length ls < fuel)%nat -> let n := Z.of_nat (length (strlst ls)) in
  allocated s p (n - 1) -> s !! (p + n - 1) = None -> apart p n q n ->
  strlst_cpy fuel s p q len = Undef.
Proof.
  induction ls as [|l ls IH]; intros [|fuel] s p q len Hls H Hf n Ha Hno Hap;
    try (cbn [length] in Hf; lia); subst n.
  - rewrite strlst_cpy_nil by done. change (Z.of_nat (length (strlst []))) with 1 in Hno.
    replace (p + 1 - 1) with p in Hno by lia. unfold st8. by rewrite Hno.
  - rewrite strlst_length_cons in *. pose proof (strlst_pos ls).
    destruct (strlst_cpy_step l ls fuel s p q len Hls H) as (s1 & -> & _ & [U1 D1] & M1');
      [intros i Hi; apply Ha; lia|unfold apart in *; lia|].
    apply IH; [by inversion_clear Hls|done|cbn [length] in Hf; lia| | |unfold apart in *; lia].
    + intros i Hi. apply D1, Ha. lia.
    + rewrite U1 by lia. rewrite <- Hno. f_equal. lia.
Qed.

Lemma strlstcpy_spec s p q ls : strings_ok ls -> mem_at s q (strlst ls) ->
  let n := Z.of_nat (length (strlst ls)) in
  allocated s p n -> apart p n q n ->
  exists s', strlstcpy s p q = Ret (s', n) /\ mem_at s' p (strlst ls) /\ upd_in p n s s'.
Proof.
  intros Hls H n Ha Hap. apply (strlst_cpy_spec ls (S (size s)) s p q 0 Hls H); [|done|done].
  apply mem_at_size in H. pose proof (strlst_count ls). lia.
Qed.

(** ** Information blocks: proofs *)

Definition frame (a n : Z) (s s' : mem) : Prop :=
  forall i, i < a \/ a + n <= i -> s' !! i = s !! i.

Lemma malloc_spec s n o : malloc_fresh s n o -> ma_addr o <> 0 -> 0 <= n ->
  exists s', malloc s n o = (s', ma_addr o) /\ allocated s' (ma_addr o) n /\
    frame (ma_addr o) n s s'.
Proof.
  intros [?|(Hp & Hb & Hf)] Hne Hn; [done|]. unfold malloc.
  destruct (Z.eqb_spec (ma_addr o) 0); [done|]. eexists. split; [done|].
  split; intros i Hi; rewrite add_block_lookup, Z2Nat.id by done; [|by rewrite decide_False by lia].
  rewrite decide_True by lia. by eexists.
Qed.

Lemma fresh_apart s n o a k : malloc_fresh s n o -> ma_addr o <> 0 -> allocated s a k ->
  0 < n -> 0 < k -> apart (ma_addr o) n a k.
Proof.
  intros [?|(Hp & Hb & Hf)] Hne Ha Hn Hk; [done|]. unfold apart.
  destruct (Z.le_gt_cases (ma_addr o + n) a); [by left|].
  destruct (Z.le_gt_cases (a + k) (ma_addr o)); [by right|].
  destruct (Ha (Z.max a (ma_addr o))) as [c Hc]; [lia|]. rewrite Hf in Hc; [done|lia].
Qed.

Lemma frame_mem_at a n s s' p l : frame a n s s' -> apart a n p (Z.of_nat (length l)) ->
  mem_at s p l -> mem_at s' p l.
Proof.
  intros F Hap H. eapply mem_at_same; [exact H|]. intros i Hi. apply F. unfold apart in Hap. lia.
Qed.

Lemma upd_in_frame a n s s' : upd_in a n s s' -> frame a n s s'.
Proof. by intros [U _]. Qed.

Lemma frame_trans a n s1 s2 s3 : frame a n s1 s2 -> frame a n s2 s3 -> frame a n s1 s3.
Proof. intros F1 F2 i Hi. by rewrite F2, F1. Qed.

Lemma frame_weaken a n b k s s' : frame a n s s' -> b <= a -> a + n <= b + k -> frame b k s s'.
Proof. intros F H1 H2 i Hi. apply F. lia. Qed.

(** The environment and the program are copied one after the other. *)
Lemma pib_copied s q env prg es p k :
  strings_ok es -> text p ->
  let k1 := Z.of_nat (length (strlst es)) in
  let k2 := Z.of_nat (length (zstr p)) in
  k1 + k2 <= k ->
  mem_at s env (strlst es) -> mem_at s prg (zstr p) ->
  apart q k env k1 -> apart q k prg k2 -> allocated s q k ->
  exists s1 s2, strlstcpy s q env = Ret (s1, k1) /\ mstrcpy s1 (q + k1) prg = Ret s2 /\
    mem_at s2 q (strlst es ++ zstr p) /\ upd_in q (k1 + k2) s s2.
Proof.
  intros Hes Hp k1 k2 Hk Me Mp Se Sp A.
  assert (H0 : 0 <= k1 /\ 0 <= k2) by (unfold k1, k2; lia).
  destruct (strlstcpy_spec s q env es) as (s1 & E1 & M1 & U1); [done|done| | |].
  { intros i Hi. apply A. fold k1 in Hi. lia. }
  { fold k1. unfold apart in *. lia. }
  fold k1 in E1, U1. assert (L2 : k2 = Z.of_nat (length p) + 1) by apply zstr_length.
  destruct (mstrcpy_spec s1 (q + k1) prg p) as (s2 & E2 & M2 & U2); [done| | | |].
  { eapply frame_mem_at; [apply upd_in_frame, U1|fold k2; unfold apart in *; lia|done]. }
  { intros i Hi. apply U1, A. lia. }
  { rewrite <- L2. unfold apart in *. lia. }
  rewrite <- L2 in U2. exists s1, s2. split_and!; [done|done| |].
  - apply mem_at_app; [|exact M2]. eapply mem_at_upd; [exact M1|exact U2|fold k1; lia].
  - eapply upd_in_trans; eapply upd_in_weaken; [exact U1|lia|lia|exact U2|lia|lia].
Qed.

Lemma pib_header s pp s1 s3 n : allocated s pp n -> sizeof_PIB <= n ->
  0 < pp -> 0 <= s1 < 2 ^ 32 -> 0 <= s3 < 2 ^ 32 ->
  exists s4 s5, st32 s (pp + pib_pchenv) s1 = Ret s4 /\ st32 s4 (pp + pib_pchcmd) s3 = Ret s5 /\
    ld32 s5 (pp + pib_pchenv) = Ret s1 /\ ld32 s5 (pp + pib_pchcmd) = Ret s3 /\
    upd_in pp sizeof_PIB s s5.
Proof.
  unfold sizeof_PIB, pib_pchenv, pib_pchcmd. intros A Hn Hp H1 H3.
  destruct (st32_total s (pp + 16) s1) as [s4 E4]; [intros i Hi; apply A; lia|].
  pose proof (st32_upd _ _ _ _ E4) as U4.
  destruct (st32_total s4 (pp + 12) s3) as [s5 E5]; [intros i Hi; apply U4, A; lia|].
  pose proof (st32_upd _ _ _ _ E5) as U5. exists s4, s5. split_and!; [done|done| | |].
  - rewrite (upd_in_ld32 _ _ _ _ _ U5) by lia. rewrite (ld32_st32 _ _ _ _ E4).
    f_equal. by apply u32_id.
  - rewrite (ld32_st32 _ _ _ _ E5). f_equal. by apply u32_id.
  - eapply upd_in_trans; eapply upd_in_weaken; [exact U4|lia|lia|exact U5|lia|lia].
Qed.

(** The information block of a process: its strings, and where they are. *)
Definition pib_cmd (es : list (list Z)) (p : list Z) : Z :=
  sizeof_PIB + Z.of_nat (length (strlst es)) + Z.of_nat (length (zstr p)).
Definition pib_holds (s : mem) (pp : Z) (es : list (list Z)) (p : list Z)
    (ls : list (list Z)) : Prop :=
  mem_at s (pp + sizeof_PIB) (strlst es ++ zstr p ++ strlst ls) /\
  ld32 s (pp + pib_pchenv) = Ret (pp + sizeof_PIB) /\
  ld32 s (pp + pib_pchcmd) = Ret (pp + pib_cmd es p).

Lemma pib_holds_intro s pp es p ls :
  mem_at s (pp + sizeof_PIB) (strlst es ++ zstr p) ->
  ld32 s (pp + pib_pchenv) = Ret (pp + sizeof_PIB) ->
  ld32 s (pp + pib_pchcmd) = Ret (pp + pib_cmd es p) -> mem_at s (pp + pib_cmd es p) (strlst ls) ->
  pib_holds s pp es p ls.
Proof.
  intros M E1 E2 Ml. split_and!; [|done|done]. rewrite app_assoc. apply mem_at_app; [done|].
  rewrite length_app. unfold pib_cmd in Ml.
  by replace (pp + sizeof_PIB + _) with (pp + (sizeof_PIB + Z.of_nat (length (strlst es))
    + Z.of_nat (length (zstr p)))) by lia.
Qed.

Definition pib_size (es : list (list Z)) (p : list Z) (ls : list (list Z)) : Z :=
  pib_cmd es p + Z.of_nat (length (strlst ls)).

Lemma frame_ld32 a n s s' b : frame a n s s' -> apart a n b 4 -> ld32 s' b = ld32 s b.
Proof. intros F H. unfold ld32, ld8. unfold apart in H. rewrite !F by lia. done. Qed.

(** The first three fields can be written. *)
Lemma pib_holds_frame s s' pp es p ls a n : pib_holds s pp es p ls -> frame a n s s' ->
  apart a n (pp + pib_pchcmd) (pib_size es p ls - pib_pchcmd) -> pib_holds s' pp es p ls.
Proof.
  unfold pib_size, pib_cmd, pib_pchcmd, sizeof_PIB. intros (M & E1 & E2) F H.
  pose proof (strlst_pos es). pose proof (strlst_pos ls). split_and!.
  - eapply frame_mem_at; [exact F| |exact M]. rewrite !length_app. unfold apart, sizeof_PIB in *. lia.
  - rewrite (frame_ld32 _ _ _ _ _ F); [done|]. unfold apart, pib_pchenv in *. lia.
  - rewrite (frame_ld32 _ _ _ _ _ F); [done|]. unfold apart, pib_pchcmd in *. lia.
Qed.

Section pib_proofs.
Context (map_region : mem -> Z -> malloc_answer).
Context (s : mem) (prg arg env : Z) (es : list (list Z)) (p : list Z).
Context (Hes : strings_ok es) (Hne : es <> []) (Hp : text p) (Henv : env <> 0).
Context (Me : mem_at s env (strlst es)) (Mp : mem_at s prg (zstr p)).

(** The first two lengths, and those of the first two argument strings. *)
Lemma pib_lengths a b ls : strings_ok (a :: ls) -> text b ->
  mem_at s arg (zstr a ++ zstr b) ->
  strlstlen s env = Ret (Z.of_nat (length (strlst es))) /\
  mstrlen s prg = Ret (Z.of_nat (length p)) /\ mstrlen s arg = Ret (Z.of_nat (length a)) /\
  mstrlen s (arg + (Z.of_nat (length a) + 1)) = Ret (Z.of_nat (length b)).
Proof.
  intros Ha Hb [M1 M2]%mem_at_app_inv. rewrite zstr_length in M2.
  inversion_clear Ha as [|? ? [Hta _] _]. split_and!.
  - by apply strlstlen_spec.
  - by apply mstrlen_spec.
  - by apply mstrlen_spec.
  - by apply mstrlen_spec.
Qed.

(** The block is fresh: what is in memory is not in it. *)
Lemma pib_alloc n : malloc_fresh s n (map_region s n) -> ma_addr (map_region s n) <> 0 ->
  0 < n -> let pp := ma_addr (map_region s n) in
  exists s0, alloc_mem map_region s n = (s0, pp) /\ allocated s0 pp n /\ frame pp n s s0 /\
    0 < pp /\ pp + n <= 2 ^ 32 /\
    (forall q l, mem_at s q l -> (0 < length l)%nat ->
       mem_at s0 q l /\ apart pp n q (Z.of_nat (length l))).
Proof.
  intros Hf Hpp Hn pp. destruct (malloc_spec s n (map_region s n) Hf Hpp) as (s0 & E0 & A0 & F0);
    [lia|]. exists s0. destruct Hf as [?|(Hp1 & Hp2 & Hp3)]; [done|].
  split_and!; [done|done|done|done|done|]. intros q l Hq Hl.
  assert (apart pp n q (Z.of_nat (length l))).
  { apply (fresh_apart s n (map_region s n)); [by right|done| |lia|lia].
    by apply mem_at_allocated. }
  split; [|done]. by apply (frame_mem_at pp n s).
Qed.

Lemma create_pib_spec a : strings_ok [a] -> mem_at s arg (strlst [a]) ->
  let n := pib_size es p [a] in
  let pp := ma_addr (map_region s n) in
  malloc_fresh s n (map_region s n) -> pp <> 0 ->
  exists s', PrcCreatePIB map_region prg arg env s = Ret (s', pp) /\
    pib_holds s' pp es p [a] /\ allocated s' pp n /\ frame pp n s s'.
Proof.
  intros Ha Ma n pp Hf Hpp.
  destruct (pib_lengths a [] [] Ha) as (L1 & L2 & L3 & L4); [by constructor| |].
  { rewrite strlst_cons in Ma. exact Ma. }
  pose proof (strlst_pos es) as P1. pose proof (strlst_pos [a]) as P3.
  pose proof (zstr_pos p) as P2.
  unfold PrcCreatePIB. rewrite L1, L2. cbn [mbind C_bind fst]. rewrite L3. cbn [mbind C_bind].
  rewrite L4. cbn [mbind C_bind].
  replace (sizeof_PIB + _ + _ + _) with n
    by (unfold n, pib_size, pib_cmd; rewrite strlst_length_cons, zstr_length; cbn; lia).
  destruct (pib_alloc n Hf Hpp) as (s0 & E0 & A0 & F0 & Hb1 & Hb2 & Sep);
    [unfold n, pib_size, pib_cmd, sizeof_PIB; lia|]. fold pp in E0, A0, F0, Hb1, Hb2, Sep. rewrite E0.
  destruct (Sep _ _ Me P1) as [Me0 Se], (Sep _ _ Mp P2) as [Mp0 Sp], (Sep _ _ Ma P3) as [Ma0 Sa].
  unfold sizeof_PIB. set (k1 := Z.of_nat (length (strlst es))) in *.
  set (k2 := Z.of_nat (length (zstr p))) in *. set (k3 := Z.of_nat (length (strlst [a]))) in *.
  assert (Hn : n = 28 + k1 + k2 + k3) by done.
  destruct (pib_copied s0 (pp + 28) env prg es p (k1 + k2 + k3)) as (s1 & s2 & E1 & E2 & M2 & U2);
    [done|done|fold k1 k2; lia|done|done|fold k1; unfold apart in *; lia
    |fold k2; unfold apart in *; lia|intros i Hi; apply A0; lia|].
  fold k1 in E1, E2, U2. fold k2 in U2.
  rewrite E1. cbn [mbind C_bind]. rewrite E2. cbn [mbind C_bind]. rewrite <- zstr_length. fold k2.
  destruct (strlstcpy_spec s2 (pp + 28 + k1 + k2) arg [a]) as (s3 & E3 & M3 & U3); [done| | | |].
  { eapply frame_mem_at; [apply upd_in_frame, U2|fold k3; unfold apart in *; lia|done]. }
  { fold k3. intros i Hi. apply U2, A0. lia. } { fold k3. unfold apart in *. lia. }
  fold k3 in E3, U3. rewrite E3. cbn [mbind C_bind].
  destruct (pib_header s3 pp (pp + 28) (pp + 28 + k1 + k2) n) as (s4 & s5 & E4 & E5 & D1 & D2 & U5);
    [intros i Hi; apply U3, U2, A0; lia|unfold sizeof_PIB; lia|lia|lia|lia|].
  rewrite E4. cbn [mbind C_bind]. rewrite E5. cbn [mbind C_bind]. exists s5. split; [done|].
  split_and!.
  - assert (Hc : pp + pib_cmd es p = pp + 28 + k1 + k2)
      by (unfold pib_cmd, sizeof_PIB; fold k1 k2; lia).
    apply pib_holds_intro; [|done|by rewrite Hc|rewrite Hc].
    + eapply frame_mem_at; [apply upd_in_frame, U5|unfold apart, sizeof_PIB; lia|].
      eapply frame_mem_at; [apply upd_in_frame, U3| |exact M2].
      rewrite length_app. unfold apart, sizeof_PIB, k1, k2. lia.
    + eapply frame_mem_at; [apply upd_in_frame, U5|unfold apart, sizeof_PIB; lia|done].
  - intros i Hi. apply U5, U3, U2, A0. lia.
  - eapply frame_trans; [exact F0|]. eapply frame_trans; [|eapply frame_weaken;
      [apply upd_in_frame, U5|lia|unfold sizeof_PIB; lia]].
    eapply frame_trans; eapply frame_weaken; [apply upd_in_frame, U2|lia|lia
      |apply upd_in_frame, U3|lia|lia].
Qed.

(** The list of two arguments has one byte more than their two strings. *)
Lemma create_pib_two a b : strings_ok [a; b] -> mem_at s arg (strlst [a; b]) ->
  let n := pib_size es p [a; b] - 1 in
  let pp := ma_addr (map_region s n) in
  malloc_fresh s n (map_region s n) -> pp <> 0 -> s !! (pp + n) = None ->
  PrcCreatePIB map_region prg arg env s = Undef.
Proof.
  intros Hab Ma n pp Hf Hpp Hno.
  destruct (pib_lengths a b [b] Hab) as (L1 & L2 & L3 & L4).
  { by apply Forall_cons in Hab as [_ [[? _] _]%Forall_cons]. }
  { rewrite !strlst_cons in Ma. rewrite app_assoc in Ma. by apply mem_at_app_inv in Ma as [? _]. }
  pose proof (strlst_pos es) as P1. pose proof (strlst_pos [a; b]) as P3.
  pose proof (zstr_pos p) as P2.
  unfold PrcCreatePIB. rewrite L1, L2. cbn [mbind C_bind fst]. rewrite L3. cbn [mbind C_bind].
  rewrite L4. cbn [mbind C_bind].
  replace (sizeof_PIB + _ + _ + _) with n
    by (unfold n, pib_size, pib_cmd; rewrite !strlst_length_cons, zstr_length; cbn; lia).
  destruct (pib_alloc n Hf Hpp) as (s0 & E0 & A0 & F0 & Hb1 & Hb2 & Sep);
    [unfold n, pib_size, pib_cmd, sizeof_PIB; lia|]. fold pp in E0, A0, F0, Hb1, Hb2, Sep. rewrite E0.
  destruct (Sep _ _ Me P1) as [Me0 Se], (Sep _ _ Mp P2) as [Mp0 Sp], (Sep _ _ Ma P3) as [Ma0 Sa].
  pose proof (mem_at_allocated _ _ _ Ma) as Aa.
  unfold sizeof_PIB. set (k1 := Z.of_nat (length (strlst es))) in *.
  set (k2 := Z.of_nat (length (zstr p))) in *. set (k3 := Z.of_nat (length (strlst [a; b]))) in *.
  assert (Hn : n = 28 + k1 + k2 + k3 - 1) by done.
  assert (Sa' : apart pp (n + 1) arg k3).
  { unfold apart in *. destruct (Z.eq_dec arg (pp + n)) as [->|]; [|lia].
    destruct (Aa (pp + n)) as [c Hc]; [lia|]. by rewrite Hno in Hc. }
  destruct (pib_copied s0 (pp + 28) env prg es p (k1 + k2)) as (s1 & s2 & E1 & E2 & M2 & U2);
    [done|done|fold k1 k2; lia|done|done|fold k1; unfold apart in *; lia
    |fold k2; unfold apart in *; lia|intros i Hi; apply A0; lia|].
  fold k1 in E1, E2, U2. fold k2 in U2.
  rewrite E1. cbn [mbind C_bind]. rewrite E2. cbn [mbind C_bind]. rewrite <- zstr_length. fold k2.
  unfold strlstcpy. rewrite (strlst_cpy_short [a; b]); [done|done| | | | |].
  - eapply frame_mem_at; [apply upd_in_frame, U2|fold k3; unfold apart in *; lia|done].
  - destruct U2 as [_ D2]. apply mem_at_size in M2. rewrite length_app in M2.
    cbn [length]. lia.
  - fold k3. intros i Hi. apply U2, A0. lia.
  - fold k3. destruct U2 as [U2 _]. rewrite U2, F0 by lia. rewrite <- Hno. f_equal. lia.
  - fold k3. unfold apart in *. lia.
Qed.
End pib_proofs.

(** ** The list of processes: proofs *)

Abbreviation linked := (Dll.linked next prev).
Abbreviation links := (Dll.links next prev).

#[export] Program Instance proc_links : Links next prev := {
  with_next := with_next; with_prev := with_prev
}.
Solve Obligations with done.

Lemma last_proc_spec ps L : forall fuel v a, L <> [] -> linked ps v a L 0 ->
  (length L <= fuel)%nat -> last_proc fuel ps a = Ret (List.last L 0).
Proof.
  induction L as [|b L IH]; intros fuel v a Hne H Hf; [done|]. cbn [length] in Hf.
  destruct fuel as [|fuel]; [lia|]. destruct H as (-> & Hb & p & Ep & _ & H).
  cbn [last_proc]. unfold proc_at. destruct (Z.eqb_spec b 0); [done|]. rewrite Ep.
  cbn [need mbind C_bind]. destruct L as [|c L].
  - cbn in H. rewrite H. done.
  - pose proof H as (E & Hc & _). destruct (Z.eqb_spec (next p) 0); [congruence|].
    rewrite (IH fuel b (next p)) by (done || lia). done.
Qed.

(** The search passes the structures for which the test fails. *)
Lemma find_proc_skip ps test L1 : forall fuel L2 v a,
  linked ps v a (L1 ++ L2) 0 -> L2 <> [] ->
  (forall b p, b ∈ L1 -> ps !! b = Some p -> test p = false) ->
  (length L1 <= fuel)%nat ->
  exists v', find_proc fuel ps test a = find_proc (fuel - length L1) ps test (hd 0 L2) /\
    linked ps v' (hd 0 L2) L2 0.
Proof.
  induction L1 as [|b L1 IH]; intros fuel L2 v a H Hne Ht Hf; cbn [app length] in *.
  - exists v. rewrite Nat.sub_0_r. destruct L2 as [|c L2]; [done|].
    pose proof H as (-> & _). done.
  - destruct fuel as [|fuel]; [lia|]. destruct H as (-> & Hb & p & Ep & _ & H).
    cbn [find_proc]. unfold proc_at at 1. destruct (Z.eqb_spec b 0); [done|]. rewrite Ep.
    cbn [need mbind C_bind]. rewrite (Ht b p) by (done || by left).
    assert (Hn : next p <> 0).
    { destruct L1 as [|c L1]; [destruct L2 as [|c L2]; [done|]|];
        destruct H as (-> & ? & _); done. }
    destruct (Z.eqb_spec (next p) 0); [done|]. apply (IH fuel L2 b); [done|done| |lia].
    intros x q Hx. apply Ht. by right.
Qed.

Lemma find_proc_found ps test L1 b L2 fuel v a p :
  linked ps v a (L1 ++ b :: L2) 0 -> ps !! b = Some p -> test p = true ->
  (forall x q, x ∈ L1 -> ps !! x = Some q -> test q = false) ->
  (length L1 < fuel)%nat -> find_proc fuel ps test a = Ret b.
Proof.
  intros H Ep Hp Ht Hf. destruct (find_proc_skip ps test L1 fuel (b :: L2) v a) as (v' & -> & H');
    [done|done|done|lia|]. destruct (fuel - length L1)%nat as [|k] eqn:E; [lia|].
  destruct H' as (_ & Hb & _). cbn [find_proc hd]. unfold proc_at.
  destruct (Z.eqb_spec b 0); [done|]. rewrite Ep. cbn [need mbind C_bind]. by rewrite Hp.
Qed.

Lemma find_proc_none ps test L fuel v a : L <> [] ->
  linked ps v a L 0 -> (forall x q, x ∈ L -> ps !! x = Some q -> test q = false) ->
  (length L <= fuel)%nat -> find_proc fuel ps test a = Ret 0.
Proof.
  intros Hne H Ht Hf. destruct (exists_last Hne) as (L1 & b & ->).
  rewrite length_app in Hf. cbn [length] in Hf.
  destruct (find_proc_skip ps test L1 fuel [b] v a) as (v' & -> & H'); [done|done| |lia|].
  { intros x q Hx. apply Ht, elem_of_app. by left. }
  destruct (fuel - length L1)%nat as [|k] eqn:E; [lia|]. destruct H' as (_ & Hb & p & Ep & _ & Hz).
  cbn [find_proc hd]. unfold proc_at. destruct (Z.eqb_spec b 0); [done|]. rewrite Ep.
  cbn [need mbind C_bind]. rewrite (Ht b p); [|apply elem_of_app; right; by left|done].
  cbn in Hz. by rewrite Hz.
Qed.

(** *** The invariant *)

(** What a structure holds besides its place in the list. *)
Definition unlinked (p : t_os2process) : t_os2process := with_links p 0 0.

(** The arrays have their sizes. *)
Definition sizes_ok (p : t_os2process) : Prop :=
  length (tib_array p) = 128%nat /\ length (tid_array p) = 128%nat /\
  length (curdir p) = 256%nat /\ Forall is_byte (curdir p).

(** A buffer holds the string [d]. *)
Definition holds_str (b d : list Z) : Prop :=
  text d /\ exists r, b = d ++ 0 :: r.

Definition struct_ok (p : t_os2process) : Prop :=
  sizes_ok p /\ exists d, holds_str (curdir p) d.

(** The processes are those of the list [L], with different numbers. *)
Record well_formed (st : prcmgr) (L : list Z) : Prop := {
  wf_dom : forall b, is_Some (procs st !! b) -> b ∈ L;
  wf_linked : linked (procs st) 0 (proc_root st) L 0;
  wf_nodup : NoDup L;
  wf_pid : forall b p, b ∈ L -> procs st !! b = Some p -> 0 <= pid p <= last_pid st;
  wf_inj : forall b c p q, b ∈ L -> c ∈ L -> procs st !! b = Some p -> procs st !! c = Some q ->
    pid p = pid q -> b = c;
  wf_struct : forall b p, b ∈ L -> procs st !! b = Some p -> struct_ok p;
  wf_last : -1 <= last_pid st < 2 ^ 31
}.

Lemma get_proc_linked st L1 b L2 p : linked (procs st) 0 (proc_root st) (L1 ++ b :: L2) 0 ->
  NoDup (L1 ++ b :: L2) -> procs st !! b = Some p -> 0 <= pid p < 2 ^ 31 ->
  (forall x q, x ∈ L1 -> procs st !! x = Some q -> u32 (pid q) <> pid p) ->
  PrcGetProc (pid p) st = Ret b.
Proof.
  intros H Hnd Ep Hp Ht. unfold PrcGetProc, search_proc.
  destruct (Z.eqb_spec (proc_root st) 0) as [E|_].
  { apply linked_dom with (b := proc_root st) in H as [? _]; [done|].
    destruct L1; destruct H as (-> & _); by left. }
  eapply find_proc_found; [exact H|exact Ep| | |].
  - rewrite u32_id by (unfold is_u32; lia). apply Z.eqb_refl.
  - intros x q Hx Eq. apply Z.eqb_neq. eauto.
  - apply linked_size in H; [|done]. rewrite length_app in H. cbn [length] in H. lia.
Qed.

Lemma get_proc_found st L b p : well_formed st L -> b ∈ L -> procs st !! b = Some p ->
  PrcGetProc (pid p) st = Ret b.
Proof.
  intros W Hb Ep. apply list_elem_of_split in Hb as (L1 & L2 & ->).
  assert (Hb : b ∈ L1 ++ b :: L2) by mem_solve.
  pose proof (wf_pid _ _ W b p Hb Ep) as Hp. pose proof (wf_last _ _ W) as Hl.
  apply (get_proc_linked st L1 b L2 p (wf_linked _ _ W) (wf_nodup _ _ W) Ep); [lia|].
  intros x q Hx Eq Hpq. assert (Hx' : x ∈ L1 ++ b :: L2) by mem_solve.
  pose proof (wf_pid _ _ W x q Hx' Eq). rewrite u32_id in Hpq by (unfold is_u32; lia).
  assert (x = b) as -> by (eapply (wf_inj _ _ W); eauto).
  pose proof (wf_nodup _ _ W) as Hnd. apply NoDup_app in Hnd as (_ & Hnd & _).
  apply (Hnd b Hx). by left.
Qed.

Lemma get_proc_none st L id : well_formed st L ->
  (forall b p, b ∈ L -> procs st !! b = Some p -> pid p <> id) -> PrcGetProc id st = Ret 0.
Proof.
  intros W Hid. unfold PrcGetProc, search_proc.
  destruct (Z.eqb_spec (proc_root st) 0) as [_|Hr]; [done|].
  pose proof (wf_linked _ _ W) as H. pose proof (wf_last _ _ W) as Hl. apply (find_proc_none _ _ L _ 0).
  - intros ->. by cbn in H.
  - exact H.
  - intros x q Hx Eq. apply Z.eqb_neq. pose proof (wf_pid _ _ W x q Hx Eq).
    rewrite u32_id by (unfold is_u32; lia). by apply Hid with x.
  - apply linked_size in H; [lia|]. apply (wf_nodup _ _ W).
Qed.

(** The invariant speaks of the list, and of the data of its structures. *)
Lemma wf_transfer st st' L : well_formed st L ->
  linked (procs st') 0 (proc_root st') L 0 -> last_pid st' = last_pid st ->
  (forall b, is_Some (procs st' !! b) -> b ∈ L) ->
  (forall b p', b ∈ L -> procs st' !! b = Some p' ->
     exists p, procs st !! b = Some p /\ pid p' = pid p /\ (struct_ok p -> struct_ok p')) ->
  well_formed st' L.
Proof.
  intros W H El Hdom Back.
  split; [done|done|apply (wf_nodup _ _ W)| | | |rewrite El; apply (wf_last _ _ W)].
  - intros b p' Hb (p & E & -> & _)%Back; [|done]. rewrite El. by apply (wf_pid _ _ W b).
  - intros b c p' q' Hb Hc (p & E & -> & _)%Back (q & Eq & -> & _)%Back; [|done..].
    by apply (wf_inj _ _ W).
  - intros b p' Hb (p & E & _ & Hs)%Back; [|done]. apply Hs. by apply (wf_struct _ _ W b).
Qed.

(** A structure is changed, but neither its links nor its number. *)
Lemma modify_wf a f st st' L : well_formed st L -> modify a f st = Ret st' ->
  (forall p, next (f p) = next p /\ prev (f p) = prev p /\ pid (f p) = pid p) ->
  (forall p, procs st !! a = Some p -> struct_ok p -> struct_ok (f p)) -> well_formed st' L.
Proof.
  intros W E Hf Hs. unfold modify, proc_at in E. destruct (Z.eqb_spec a 0); [done|].
  destruct (procs st !! a) as [p|] eqn:Ep; [|done]. injection E as <-.
  destruct (Hf p) as (En & Ev & Epid). eapply wf_transfer; [exact W| |done| |].
  - eapply linked_same; [|apply (wf_linked _ _ W)]. intros b _. cbn. rewrite links_insert.
    case_decide as Hb; [|done]. subst. unfold links. rewrite Ep. cbn. by rewrite En, Ev.
  - intros b. cbn. rewrite lookup_insert. case_decide as Hb; [|apply (wf_dom _ _ W)].
    subst. intros _. apply (wf_dom _ _ W). by exists p.
  - intros b p' Hb. cbn. rewrite lookup_insert. case_decide as Hab.
    + subst. intros [= <-]. exists p. eauto.
    + intros E. by exists p'.
Qed.

Lemma set_pmem_wf st s L : well_formed st L -> well_formed (set_pmem st s) L.
Proof. by intros []. Qed.

(** *** Putting a structure at the end of the list *)

Lemma modify_ok a f st p : a <> 0 -> procs st !! a = Some p ->
  modify a f st = Ret (set_procs st (<[a := f p]> (procs st))).
Proof.
  intros Ha E. unfold modify, proc_at. destruct (Z.eqb_spec a 0); [done|]. by rewrite E.
Qed.

Definition new_struct (fresh : t_os2process) : t_os2process :=
  with_sems fresh (startup_sem fresh) 0.

Lemma link_proc_spec c fresh st L : linked (procs st) 0 (proc_root st) L 0 -> NoDup L ->
  c <> 0 -> procs st !! c = None -> last_pid st + 1 < 2 ^ 31 ->
  exists st', link_proc c fresh st = Ret st' /\
    linked (procs st') 0 (proc_root st') (L ++ [c]) 0 /\ last_pid st' = last_pid st + 1 /\
    pmem st' = pmem st /\
    procs st' !! c = Some (with_links (new_struct fresh) 0 (List.last L 0)) /\
    (forall a, a <> c -> unlinked <$> procs st' !! a = unlinked <$> procs st !! a).
Proof.
  intros H Hnd Hc Hno Hpid. set (c0 := with_links (new_struct fresh) 0 0).
  assert (HcL : c ∉ L).
  { intros Hin. destruct (linked_dom _ _ _ _ _ H c Hin) as [_ [p E]]. congruence. }
  unfold link_proc. fold (new_struct fresh). fold c0.
  assert (Hreq : (last_pid st + 1 <? 2 ^ 31) = true) by (by apply Z.ltb_lt).
  destruct (decide (L = [])) as [->|Hne].
  - cbn in H. rewrite H. change (0 =? 0) with true. cbv iota.
    cbn [last_proc]. unfold proc_at at 1. destruct (Z.eqb_spec c 0); [done|].
    rewrite lookup_insert_eq. cbn [need mbind C_bind]. change (next c0 =? 0) with true. cbn [mbind C_bind].
    rewrite (Z.eqb_refl c). cbn [mbind C_bind last_pid]. rewrite Hreq. eexists.
    split; [done|]. cbn [procs proc_root last_pid pmem]. split_and!; [|done|done| |].
    + split; [done|split; [done|]]. exists c0. by rewrite lookup_insert_eq.
    + by rewrite lookup_insert_eq.
    + intros a Ha. by rewrite lookup_insert_ne by done.
  - destruct (exists_last Hne) as (L0 & l & ->). rewrite List.last_last.
    assert (Hl : l ∈ L0 ++ [l]) by mem_solve.
    destruct (linked_dom _ _ _ _ _ H l Hl) as [Hl0 [pl El]].
    assert (Hlc : l <> c) by (by intros ->).
    assert (H1 : linked (<[c:=c0]> (procs st)) 0 (proc_root st) (L0 ++ [l]) 0).
    { eapply linked_same; [|exact H]. intros b Hb. rewrite links_insert, decide_False; [done|].
      by intros ->. }
    destruct (Z.eqb_spec (proc_root st) 0) as [E|_].
    { destruct L0 as [|x L0]; cbn in H; destruct H as (? & ? & _); congruence. }
    rewrite (last_proc_spec _ (L0 ++ [l]) _ 0); [|done|done|].
    2: { apply linked_size in H1; [lia|done]. }
    rewrite List.last_last. cbn [mbind C_bind]. destruct (Z.eqb_spec l c); [done|].
    rewrite (modify_ok l _ _ pl); [|done|cbn; by rewrite lookup_insert_ne].
    cbn [mbind C_bind]. rewrite (modify_ok c _ _ c0);
      [|done|cbn; rewrite lookup_insert_ne by done; by rewrite lookup_insert_eq].
    cbn [mbind C_bind last_pid set_procs procs proc_root pmem]. rewrite Hreq.
    eexists. split; [done|]. cbn [procs proc_root last_pid pmem].
    split_and!; [|done|done| |].
    + apply linked_app. exists c. rewrite List.last_last. split.
      * eapply linked_same;
          [|eapply (linked_set_next (<[c:=c0]> (procs st)) 0 _ L0 l 0 c pl);
            [|by rewrite lookup_insert_ne|exact H1]].
        -- intros b Hb. rewrite links_insert, decide_False; [done|]. by intros ->.
        -- intros Hin. apply NoDup_app in Hnd as (_ & Hd & _). apply (Hd l Hin). by left.
      * split; [done|split; [done|]]. eexists. by rewrite lookup_insert_eq.
    + by rewrite lookup_insert_eq.
    + intros a Ha. rewrite lookup_insert_ne by done. destruct (decide (a = l)) as [->|].
      * by rewrite lookup_insert_eq, El.
      * by rewrite !lookup_insert_ne by done.
Qed.

Lemma unlinked_inv o p : unlinked <$> o = Some (unlinked p) ->
  exists q, o = Some q /\ pid q = pid p /\ (struct_ok p -> struct_ok q) /\
    lx_pib q = lx_pib p /\ curdisk q = curdisk p /\ curdir q = curdir p.
Proof.
  destruct o as [q|]; [|done]. destruct p, q. cbn. intros [= -> -> -> -> -> -> -> -> -> -> -> -> -> ->].
  eexists. split; [done|]. by split_and!.
Qed.

(** What [PrcCreate] changes in the new structure once it is linked. *)
Definition same_but (c : Z) (st st' : prcmgr) : Prop :=
  proc_root st' = proc_root st /\ last_pid st' = last_pid st /\
  (forall b, b <> c -> procs st' !! b = procs st !! b) /\
  (forall p, procs st !! c = Some p -> exists p', procs st' !! c = Some p' /\
     next p' = next p /\ prev p' = prev p).

Lemma same_but_refl c st : same_but c st st.
Proof. split_and!; eauto. Qed.

Lemma same_but_trans c st1 st2 st3 : same_but c st1 st2 -> same_but c st2 st3 -> same_but c st1 st3.
Proof.
  intros (R1 & P1 & O1 & C1) (R2 & P2 & O2 & C2). split_and!; [congruence|congruence| |].
  - intros b Hb. by rewrite O2, O1.
  - intros p Ep. destruct (C1 p Ep) as (p' & Ep' & <- & <-). apply C2, Ep'.
Qed.

Lemma modify_but c f st st' : modify c f st = Ret st' ->
  (forall p, next (f p) = next p /\ prev (f p) = prev p) ->
  same_but c st st' /\ exists p, procs st !! c = Some p /\ procs st' !! c = Some (f p) /\
    pmem st' = pmem st.
Proof.
  intros E Hf. unfold modify, proc_at in E. destruct (Z.eqb_spec c 0); [done|].
  destruct (procs st !! c) as [p|] eqn:Ep; [|done]. injection E as <-. split.
  - split_and!; [done|done| |].
    + intros b Hb. cbn. by rewrite lookup_insert_ne.
    + intros q Eq. exists (f q). cbn. rewrite lookup_insert_eq. destruct (Hf q).
      replace q with p by congruence. done.
  - exists p. cbn. by rewrite lookup_insert_eq.
Qed.

Lemma cstr_holds b d : Forall is_byte b -> cstr b = Ret d -> holds_str b d.
Proof.
  revert d. induction b as [|c b IH]; intros d Hb; [done|]. inversion_clear Hb as [|? ? Hc Hb'].
  cbn [cstr]. destruct (Z.eqb_spec c 0) as [->|Hc0].
  - intros [= <-]. split; [by constructor|by exists b].
  - intros H. apply fmap_Ret_inv in H as (d' & E & ->). destruct (IH _ Hb' E) as [Hd [r ->]].
    split; [constructor; [unfold is_byte in Hc; lia|done]|by exists r].
Qed.

Lemma holds_cstr b d : holds_str b d -> cstr b = Ret d.
Proof. intros [Hd [r ->]]. by apply cstr_text. Qed.

Lemma strcpy_at_holds b d : text d -> (length d < length b)%nat -> Forall is_byte b ->
  exists b', strcpy_at b 0 d = Ret b' /\ length b' = length b /\ Forall is_byte b' /\
    holds_str b' d.
Proof.
  intros Hd Hl Hb. rewrite strcpy_at_0 by done. eexists. split; [done|]. split_and!.
  - rewrite length_app. cbn [length]. rewrite length_drop. lia.
  - apply Forall_app. split; [by apply text_bytes|]. constructor; [unfold is_byte; lia|].
    by apply Forall_drop.
  - split; [done|by eexists].
Qed.

Lemma wr8_empty b b' : wr8 b 0 0 = Ret b' -> Forall is_byte b ->
  length b' = length b /\ Forall is_byte b' /\ holds_str b' [].
Proof.
  unfold wr8. destruct b as [|c b]; [done|]. destruct (_ && _); [|done]. intros [= <-] Hb.
  inversion_clear Hb as [|? ? Hc Hb']. split_and!; [done|constructor; [apply u8_byte|done]|].
  split; [by constructor|by exists b].
Qed.

Lemma wr_bytes_fits s : forall b i b', wr_bytes b i s = Ret b' -> s <> [] ->
  i + Z.of_nat (length s) <= Z.of_nat (length b).
Proof.
  induction s as [|c s IH]; intros b i b' H Hne; [done|]. cbn [wr_bytes length] in *.
  unfold wr8 in H. destruct (Z.leb_spec 0 i); [|done]. cbn [andb] in H.
  destruct (Z.ltb_spec i (Z.of_nat (length b))); [|done]. cbn [mbind C_bind] in H.
  destruct s as [|x s]; [cbn [length]; lia|]. apply IH in H; [|done].
  rewrite length_insert in H. lia.
Qed.

Lemma strcpy_at_fits b d b' : strcpy_at b 0 d = Ret b' -> (length d < length b)%nat.
Proof.
  intros H. apply wr_bytes_fits in H; [|by destruct d]. rewrite length_app in H.
  cbn [length] in H. lia.
Qed.

(** What the region mapper promises: a new region is not in use. *)
Class RegionLaws (map_region : mem -> Z -> malloc_answer) : Prop :=
  region_fresh s n : malloc_fresh s n (map_region s n).

Section operations.
Context (map_region : mem -> Z -> malloc_answer) (empty_string : Z).
Context `{!RegionLaws map_region}.

Abbreviation create := (PrcCreate map_region empty_string).

(** *** Creating a process *)

(** The directory is the parent's, or the root of drive C. *)
Lemma inherit_dir_spec c parent ppid st st' p : inherit_dir c parent ppid st = Ret st' ->
  procs st !! c = Some p -> sizes_ok p ->
  (forall q, procs st !! parent = Some q -> Forall is_byte (curdir q)) ->
  exists disk buf, same_but c st st' /\ pmem st' = pmem st /\
    procs st' !! c = Some (with_dir p disk buf) /\ struct_ok (with_dir p disk buf).
Proof.
  intros E Ep (H1 & H2 & H3 & H4) Hq. unfold inherit_dir in E.
  assert (Done : forall disk buf d, modify c (fun p => with_dir p disk buf) st = Ret st' ->
    length buf = 256%nat -> Forall is_byte buf -> holds_str buf d ->
    exists disk buf, same_but c st st' /\ pmem st' = pmem st /\
      procs st' !! c = Some (with_dir p disk buf) /\ struct_ok (with_dir p disk buf)).
  { intros disk buf d Em Hl Hb Hd. destruct (modify_but _ _ _ _ Em) as (Sb & q & Eq & Eq' & Em'); [done|].
    replace q with p in * by congruence. exists disk, buf. split_and!; [done|done|done|].
    split; [by split_and!|by exists d]. }
  unfold proc_at in E. destruct (negb _ && _ && _).
  - destruct (parent =? 0); [done|]. destruct (procs st !! parent) as [q|] eqn:Eq; [|done].
    cbn [need mbind C_bind] in E. destruct (cstr (curdir q)) as [d| | |] eqn:Ed; try done.
    cbn [mbind C_bind] in E. destruct (c =? 0); [done|]. rewrite Ep in E.
    cbn [need mbind C_bind] in E. destruct (cstr_holds _ _ (Hq q eq_refl) Ed) as [Hd _].
    destruct (strcpy_at (curdir p) 0 d) as [buf| | |] eqn:Eb; try done.
    destruct (strcpy_at_holds (curdir p) d Hd) as (buf' & Eb' & Lb & Bb & Sb);
      [by eapply strcpy_at_fits|done|]. replace buf' with buf in * by congruence.
    apply (Done _ _ d E); [by rewrite Lb|done|done].
  - destruct (c =? 0); [done|]. rewrite Ep in E. cbn [need mbind C_bind] in E.
    destruct (wr8 (curdir p) 0 0) as [buf| | |] eqn:Eb; try done. cbn [mbind C_bind] in E.
    destruct (wr8_empty _ _ Eb H4) as (Lb & Bb & Sb).
    apply (Done _ _ [] E); [by rewrite Lb|done|done].
Qed.

Lemma same_but_links c st st' b : same_but c st st' -> procs st !! c <> None ->
  links (procs st') b = links (procs st) b.
Proof.
  intros (_ & _ & O & C) Hc. unfold links. destruct (decide (b = c)) as [->|Hb]; [|by rewrite O].
  destruct (procs st !! c) as [p|]; [|done]. destruct (C p eq_refl) as (p' & -> & En & Ev).
  cbn. by rewrite En, Ev.
Qed.

Lemma link_proc_bound c fresh st st' : link_proc c fresh st = Ret st' -> last_pid st + 1 < 2 ^ 31.
Proof.
  intros H. unfold link_proc in H. cbv zeta in H.
  destruct (last_proc _ _ _) as [l| | |]; try done. cbn [mbind C_bind] in H.
  match type of H with (?m ≫= _) = _ => destruct m as [st1| | |] eqn:E1; try done end.
  cbn [mbind C_bind] in H. assert (El : last_pid st1 = last_pid st).
  { destruct (l =? c); [by injection E1 as <-|]. unfold modify in E1. cinv. done. }
  destruct (Z.ltb_spec (last_pid st1 + 1) (2 ^ 31)); [congruence|done].
Qed.

(** The invariant after the new structure [c] is linked and filled in. *)
Lemma create_links c fresh st st1 st2 L p : well_formed st L -> c <> 0 -> procs st !! c = None ->
  link_proc c fresh st = Ret st1 -> same_but c st1 st2 -> procs st2 !! c = Some p ->
  pid p = last_pid st1 -> struct_ok p -> well_formed st2 (L ++ [c]).
Proof.
  intros W Hc Hno El (R & P & O & C) Ep Hpid Hs.
  pose proof (link_proc_bound _ _ _ _ El) as Hb. pose proof (wf_last _ _ W) as Hl.
  destruct (link_proc_spec c fresh st L (wf_linked _ _ W) (wf_nodup _ _ W) Hc Hno Hb)
    as (st1' & El' & H1 & P1 & _ & Ec & Ho). replace st1' with st1 in * by congruence.
  assert (Hold : forall b q, b ∈ L -> procs st2 !! b = Some q -> b <> c /\
    exists q0, procs st !! b = Some q0 /\ pid q = pid q0 /\ (struct_ok q0 -> struct_ok q)).
  { intros b q Hin Eq. assert (Hbc : b <> c).
    { intros ->. destruct (linked_dom _ _ _ _ _ (wf_linked _ _ W) c Hin) as [_ [? ?]]. congruence. }
    split; [done|]. destruct (linked_dom _ _ _ _ _ (wf_linked _ _ W) b Hin) as [_ [q0 E0]].
    specialize (Ho b Hbc). rewrite E0 in Ho. apply unlinked_inv in Ho as (q' & E' & Hp & Hs' & _).
    rewrite O, E' in Eq by done. injection Eq as <-. eauto. }
  assert (Hin : forall b, b ∈ L ++ [c] -> b ∈ L \/ b = c).
  { intros b. rewrite elem_of_app, list_elem_of_singleton. tauto. }
  split.
  - intros b [q Eq]. apply elem_of_app. destruct (decide (b = c)) as [->|Hbc]; [right; by left|].
    left. rewrite O in Eq by done. specialize (Ho b Hbc). rewrite Eq in Ho.
    apply (wf_dom _ _ W). destruct (procs st !! b); [by eexists|done].
  - rewrite R. eapply linked_same; [|exact H1]. intros b _.
    apply (same_but_links c); [by split_and!|by rewrite Ec].
  - apply NoDup_app. split_and!; [apply (wf_nodup _ _ W)| |apply NoDup_singleton].
    intros b Hb1 Hb2. apply list_elem_of_singleton in Hb2 as ->.
    by destruct (linked_dom _ _ _ _ _ (wf_linked _ _ W) c Hb1) as [_ [? ?]]; congruence.
  - intros b q [Hb1| ->]%Hin Eq.
    + destruct (Hold b q Hb1 Eq) as (_ & q0 & E0 & -> & _).
      pose proof (wf_pid _ _ W b q0 Hb1 E0). lia.
    + replace q with p by congruence. lia.
  - assert (Hne : forall b q, b ∈ L -> procs st2 !! b = Some q -> pid q <> pid p).
    { intros b q Hb1 Eq. destruct (Hold b q Hb1 Eq) as (_ & q0 & E0 & -> & _).
      pose proof (wf_pid _ _ W b q0 Hb1 E0). lia. }
    intros b d q r [Hb1| ->]%Hin [Hd1| ->]%Hin Eb Ed Hpq; [| | |done].
    + destruct (Hold b q Hb1 Eb) as (_ & q0 & E0 & Eq0 & _).
      destruct (Hold d r Hd1 Ed) as (_ & r0 & F0 & Fr0 & _).
      apply (wf_inj _ _ W b d q0 r0); congruence.
    + exfalso. apply (Hne b q Hb1 Eb). congruence.
    + exfalso. apply (Hne d r Hd1 Ed). congruence.
  - intros b q [Hb1| ->]%Hin Eq; [|by replace q with p by congruence].
    destruct (Hold b q Hb1 Eq) as (_ & q0 & E0 & _ & H). apply H. by apply (wf_struct _ _ W b).
  - lia.
Qed.

(** Whatever the strings are: a process that is created is linked. *)
Lemma create_wf ppid prg arg env c fresh st st' a L : well_formed st L -> c <> 0 ->
  procs st !! c = None -> sizes_ok fresh ->
  create ppid prg arg env (Some (c, fresh)) st = Ret (a, st') ->
  a = c /\ well_formed st' (L ++ [c]) /\ last_pid st' = last_pid st + 1 /\
  exists p, procs st' !! c = Some p /\ pid p = last_pid st + 1.
Proof.
  intros W Hc Hno Hf H. cbn [PrcCreate] in H.
  destruct (link_proc c fresh st) as [st1| | |] eqn:El; try done. cbn [mbind C_bind] in H.
  destruct (PrcGetProc ppid st1) as [par| | |]; try done. cbn [mbind C_bind] in H.
  destruct (inherit_dir c par ppid st1) as [st2| | |] eqn:Ed; try done. cbn [mbind C_bind] in H.
  destruct (inherit_env env par st2) as [env'| | |]; try done. cbn [mbind C_bind] in H.
  destruct (PrcCreatePIB _ _ _ _ _) as [[s2 pib]| | |]; try done. cbn [mbind C_bind] in H.
  destruct (PrcCreateTIB _ _) as [[s3 tib]| | |]; try done. cbn [mbind C_bind] in H.
  destruct (modify c _ _) as [st3| | |] eqn:Em; try done. cbn [mbind C_bind] in H.
  cinv. pose proof (link_proc_bound _ _ _ _ El) as Hb.
  destruct (link_proc_spec a fresh st L (wf_linked _ _ W) (wf_nodup _ _ W) Hc Hno Hb)
    as (st1' & El' & H1 & P1 & _ & Ec & Ho). replace st1' with st1 in * by congruence.
  destruct (inherit_dir_spec _ _ _ _ _ _ Ed Ec) as (disk & buf & Sb & _ & Ec2 & Hs2).
  { destruct Hf as (? & ? & ? & ?). by split_and!. }
  { intros q Eq. destruct (decide (par = a)) as [->|Hpa].
    - replace q with (with_links (new_struct fresh) 0 (List.last L 0)) by congruence. apply Hf.
    - specialize (Ho par Hpa). rewrite Eq in Ho.
      destruct (procs st !! par) as [q0|] eqn:F0; [|done].
      apply (unlinked_inv (Some q) q0) in Ho as (q' & [= <-] & _ & _ & _ & _ & ->).
      apply (wf_struct _ _ W par); [|done]. apply (wf_dom _ _ W). by exists q0. }
  destruct (modify_but _ _ _ _ Em) as (Sb3 & q & Eq & Eq' & _); [done|]. cbn in Eq.
  replace q with (with_dir (with_links (new_struct fresh) 0 (List.last L 0)) disk buf) in *
    by congruence.
  assert (Sb2 : same_but a st1 st3).
  { eapply same_but_trans; [exact Sb|]. exact Sb3. }
  destruct Sb as (_ & P2 & _). split_and!; [done| | |].
  - apply set_pmem_wf. eapply (create_links a fresh st st1 st3); [done..|exact Eq'| |].
    + cbn. exact P2.
    + destruct Hs2 as [(H2 & H3 & H4 & H5) Hd]. split; [by split_and!|exact Hd].
  - cbn. destruct Sb2 as (_ & -> & _). exact P1.
  - eexists. cbn. split; [exact Eq'|]. cbn. lia.
Qed.

Lemma proc_at_ok ps a p : a <> 0 -> ps !! a = Some p -> proc_at ps a = Ret p.
Proof. intros Ha E. unfold proc_at. destruct (Z.eqb_spec a 0); [done|]. by rewrite E. Qed.

Lemma inherit_dir_child c parent ppid st p q d : c <> 0 -> procs st !! c = Some p ->
  parent <> 0 -> procs st !! parent = Some q -> ppid <> 0 -> last_pid st <> 0 ->
  sizes_ok p -> length (curdir q) = 256%nat -> holds_str (curdir q) d ->
  exists buf, holds_str buf d /\
    inherit_dir c parent ppid st = modify c (fun p => with_dir p (curdisk q) buf) st.
Proof.
  intros Hc Ep Hq Eq Hp Hl (_ & _ & Hlen & Hb) Hlq Hd. unfold inherit_dir.
  destruct (Z.eqb_spec parent 0), (Z.eqb_spec ppid 0), (Z.eqb_spec (last_pid st) 0); try done.
  cbn [negb andb]. rewrite (proc_at_ok _ parent q) by done. cbn [mbind C_bind].
  rewrite (holds_cstr _ _ Hd). cbn [mbind C_bind]. rewrite (proc_at_ok _ c p) by done.
  cbn [mbind C_bind]. destruct (strcpy_at_holds (curdir p) d) as (buf & -> & _ & _ & Hbuf);
    [by destruct Hd| |done|by exists buf].
  destruct Hd as [_ [r E]]. rewrite E, length_app in Hlq. cbn [length] in Hlq. lia.
Qed.

(** The environment [e] is the one given, or else the parent's. *)
Definition env_from (s : mem) (pp : t_os2process) (env e : Z) : Prop :=
  (env <> 0 /\ e = env) \/ (env = 0 /\ ld32 s (lx_pib pp + pib_pchenv) = Ret e).

Lemma inherit_env_spec env e parent q st es : parent <> 0 -> procs st !! parent = Some q ->
  env_from (pmem st) q env e -> strings_ok es -> es <> [] -> mem_at (pmem st) e (strlst es) ->
  inherit_env env parent st = Ret e.
Proof.
  intros Hp Eq He Hes Hne M. unfold inherit_env. destruct He as [[Hn ->]|[-> E]].
  - destruct (Z.eqb_spec env 0); [done|].
    destruct (strlst_first _ _ _ Hes M) as (x & -> & Hx). cbn [mbind C_bind].
    destruct (Z.eqb_spec x 0); [|done]. exfalso. apply Hne. by apply Hx.
  - change (0 =? 0) with true. cbv iota. by rewrite (proc_at_ok _ _ q).
Qed.

Lemma create_tib_spec s : malloc_fresh s 48 (map_region s 48) ->
  ma_addr (map_region s 48) <> 0 ->
  exists s', PrcCreateTIB map_region s = Ret (s', ma_addr (map_region s 48)) /\
    frame (ma_addr (map_region s 48)) 48 s s'.
Proof.
  intros Hf Hne. unfold PrcCreateTIB, alloc_mem, sizeof_TIB, sizeof_TIB2, tib_ptib2.
  change (32 + 16) with 48.
  destruct (malloc_spec s 48 (map_region s 48) Hf Hne) as (s0 & -> & A & F); [done|].
  set (pt := ma_addr (map_region s 48)) in *.
  destruct (st32_total s0 (pt + 12) (pt + 32)) as [s1 E1]; [intros i Hi; apply A; lia|].
  rewrite E1. exists s1. split; [done|]. eapply frame_trans; [exact F|].
  eapply frame_weaken; [apply upd_in_frame; by eapply st32_upd|lia|lia].
Qed.

(** The first fields of the block are written last. *)
Lemma pib_ids s pp es p ls id ppid : pib_holds s pp es p ls ->
  allocated s pp (pib_size es p ls) -> 0 <= id < 2 ^ 32 -> 0 <= ppid < 2 ^ 32 ->
  exists s1 s2 s3, st32 s (pp + pib_ulpid) id = Ret s1 /\ st32 s1 (pp + pib_ulppid) ppid = Ret s2 /\
    st32 s2 (pp + pib_hmte) 0 = Ret s3 /\ pib_holds s3 pp es p ls /\
    ld32 s3 (pp + pib_ulpid) = Ret id /\ ld32 s3 (pp + pib_ulppid) = Ret ppid.
Proof.
  unfold pib_ulpid, pib_ulppid, pib_hmte. intros H A Hid Hpp.
  assert (Hn : 28 <= pib_size es p ls) by (unfold pib_size, pib_cmd, sizeof_PIB; lia).
  destruct (st32_total s (pp + 0) id) as [s1 E1]; [intros i Hi; apply A; lia|].
  pose proof (st32_upd _ _ _ _ E1) as U1.
  destruct (st32_total s1 (pp + 4) ppid) as [s2 E2]; [intros i Hi; apply U1, A; lia|].
  pose proof (st32_upd _ _ _ _ E2) as U2.
  destruct (st32_total s2 (pp + 8) 0) as [s3 E3]; [intros i Hi; apply U2, U1, A; lia|].
  pose proof (st32_upd _ _ _ _ E3) as U3. exists s1, s2, s3. split_and!; [done..| | |].
  - apply (pib_holds_frame s s3 pp es p ls pp 12); [done| |unfold apart, pib_pchcmd; lia].
    eapply frame_trans; [eapply frame_trans|]; eapply frame_weaken;
      [apply upd_in_frame, U1|lia|lia|apply upd_in_frame, U2|lia|lia|apply upd_in_frame, U3|lia|lia].
  - rewrite (upd_in_ld32 _ _ _ _ _ U3), (upd_in_ld32 _ _ _ _ _ U2) by lia.
    rewrite (ld32_st32 _ _ _ _ E1). f_equal. apply u32_id. unfold is_u32. lia.
  - rewrite (upd_in_ld32 _ _ _ _ _ U3) by lia.
    rewrite (ld32_st32 _ _ _ _ E2). f_equal. apply u32_id. unfold is_u32. lia.
Qed.

(** The new structure is linked and has the directory of its parent. *)
Lemma create_place c fresh st L b pp d : well_formed st L -> b ∈ L -> procs st !! b = Some pp ->
  holds_str (curdir pp) d -> c <> 0 -> procs st !! c = None -> sizes_ok fresh ->
  last_pid st + 1 < 2 ^ 31 -> pid pp <> 0 ->
  exists st1 st2 q, link_proc c fresh st = Ret st1 /\ PrcGetProc (pid pp) st1 = Ret b /\
    inherit_dir c b (pid pp) st1 = Ret st2 /\ procs st2 !! c = Some q /\
    curdisk q = curdisk pp /\ holds_str (curdir q) d /\ pmem st2 = pmem st /\
    last_pid st2 = last_pid st + 1 /\ b <> 0 /\
    exists q1, procs st2 !! b = Some q1 /\ lx_pib q1 = lx_pib pp.
Proof.
  intros W Hb Eb Hd Hc Hno Hf Hpid Hpp.
  pose proof (wf_pid _ _ W b pp Hb Eb) as Hbp. pose proof (wf_last _ _ W) as Hwl.
  destruct (linked_dom _ _ _ _ _ (wf_linked _ _ W) b Hb) as [Hb0 _].
  assert (Hbc : b <> c) by (by intros ->; congruence).
  destruct (link_proc_spec c fresh st L (wf_linked _ _ W) (wf_nodup _ _ W) Hc Hno Hpid)
    as (st1 & El & H1 & P1 & M1 & Ec & Ho).
  pose proof (Ho b Hbc) as Ho'. rewrite Eb in Ho'.
  apply unlinked_inv in Ho' as (q1 & Eq1 & Hp1 & _ & Hlx & Hdk & Hcd).
  assert (Hg : PrcGetProc (pid pp) st1 = Ret b).
  { pose proof Hb as (L1 & L2 & ->)%list_elem_of_split. rewrite <- Hp1.
    rewrite <- app_assoc in H1. cbn [app] in H1.
    apply (get_proc_linked st1 L1 b (L2 ++ [c]) q1 H1); [|done|lia|].
    - change (b :: L2 ++ [c]) with ((b :: L2) ++ [c]). rewrite app_assoc. apply NoDup_app.
      split_and!; [apply (wf_nodup _ _ W)| |apply NoDup_singleton].
      intros x Hx Hxc. apply list_elem_of_singleton in Hxc as ->.
      by destruct (linked_dom _ _ _ _ _ (wf_linked _ _ W) c Hx) as [_ [? ?]]; congruence.
    - intros x q Hx Eq. assert (Hx' : x ∈ L1 ++ b :: L2) by mem_solve.
      destruct (linked_dom _ _ _ _ _ (wf_linked _ _ W) x Hx') as [_ [q0 E0]].
      assert (Hxc : x <> c) by (by intros ->; congruence).
      pose proof (Ho x Hxc) as Hox. rewrite Eq, E0 in Hox.
      apply (unlinked_inv (Some q) q0) in Hox as (? & [= <-] & -> & _).
      pose proof (wf_pid _ _ W x q0 Hx' E0). rewrite u32_id by (unfold is_u32; lia).
      rewrite Hp1. intros Hpq. assert (x = b) as -> by (by eapply (wf_inj _ _ W); eauto).
      pose proof (wf_nodup _ _ W) as Hnd. apply NoDup_app in Hnd as (_ & Hnd & _).
      apply (Hnd b Hx). by left. }
  destruct (wf_struct _ _ W b pp Hb Eb) as [(_ & _ & Hlen & _) _].
  destruct (inherit_dir_child c b (pid pp) st1 _ q1 d Hc Ec Hb0 Eq1 Hpp) as (buf & Hbuf & Ed);
    [lia|by destruct Hf as (? & ? & ? & ?)|by rewrite Hcd|by rewrite Hcd|].
  rewrite (modify_ok c _ _ _ Hc Ec) in Ed. eexists st1, _, _. split_and!;
    [done|done|exact Ed|cbn; by rewrite lookup_insert_eq|exact Hdk|exact Hbuf|exact M1|exact P1|done|].
  exists q1. split; [|done]. cbn. by rewrite lookup_insert_ne.
Qed.

(** The blocks of the new process. *)
Lemma create_blocks s prg arg env es p a : env <> 0 -> strings_ok es -> es <> [] -> text p ->
  strings_ok [a] -> mem_at s env (strlst es) -> mem_at s prg (zstr p) ->
  mem_at s arg (strlst [a]) ->
  ma_addr (map_region s (pib_size es p [a])) <> 0 ->
  (forall s' pib, PrcCreatePIB map_region prg arg env s = Ret (s', pib) ->
     ma_addr (map_region s' 48) <> 0) ->
  exists s1 s2 pib tib, PrcCreatePIB map_region prg arg env s = Ret (s1, pib) /\
    PrcCreateTIB map_region s1 = Ret (s2, tib) /\ pib_holds s2 pib es p [a] /\
    allocated s2 pib (pib_size es p [a]).
Proof.
  intros He Hes Hne Hp Ha Me Mp Ma Hr1 Hr2.
  destruct (create_pib_spec map_region s prg arg env es p Hes Hne Hp He Me Mp a Ha Ma
    (region_fresh _ _) Hr1) as (s1 & E1 & Hh & Hal & _).
  pose proof (Hr2 _ _ E1) as Ht. destruct (create_tib_spec s1 (region_fresh _ _) Ht) as (s2 & E2 & F2).
  set (pib := ma_addr (map_region s (pib_size es p [a]))) in *.
  set (n := pib_size es p [a]) in *.
  assert (Hn : sizeof_PIB <= n) by (unfold n, pib_size, pib_cmd, sizeof_PIB; lia).
  assert (Hap : apart (ma_addr (map_region s1 48)) 48 pib n).
  { apply (fresh_apart s1 48 (map_region s1 48)); [done|done|done|lia|unfold sizeof_PIB in Hn; lia]. }
  exists s1, s2, pib, (ma_addr (map_region s1 48)). split_and!; [done|done| |].
  - eapply pib_holds_frame; [exact Hh|exact F2|]. unfold apart, pib_pchcmd in *. fold n. lia.
  - intros i Hi. rewrite F2 by (unfold apart in Hap; lia). by apply Hal.
Qed.

(** The size that is asked for the block: the strings are counted, but not the byte that
    ends a list of two. *)
Definition block_size (es : list (list Z)) (p : list Z) (args : list (list Z)) : Z :=
  pib_cmd es p + Z.of_nat (length (zstr (nth 0 args [])) + length (zstr (nth 1 args []))).

Lemma block_size_one es p a : block_size es p [a] = pib_size es p [a].
Proof.
  unfold block_size, pib_size. rewrite strlst_length_cons. cbn [nth].
  change (strlst []) with [0]. change (zstr []) with [0]. rewrite Nat2Z.inj_add, zstr_length. cbn [length]. lia.
Qed.
Lemma block_size_two es p a b : block_size es p [a; b] = pib_size es p [a; b] - 1.
Proof.
  unfold block_size, pib_size. rewrite !strlst_length_cons. cbn [nth].
  change (strlst []) with [0]. rewrite Nat2Z.inj_add, !zstr_length. cbn [length]. lia.
Qed.

(** The command line: the program's name and perhaps its parameters. *)
Definition command_line (a : list Z) (second : option (list Z)) : list (list Z) :=
  a :: match second with Some x => [x] | None => [] end.

Section child.
Variables (ppid prg arg env c : Z) (fresh : t_os2process) (st : prcmgr) (L : list Z) (b : Z).
Variables (pp : t_os2process) (d : list Z) (e : Z) (es : list (list Z)) (p : list Z).
Hypotheses (W : well_formed st L) (Hb : b ∈ L) (Eb : procs st !! b = Some pp) (Epp : pid pp = ppid).
Hypotheses (Hpp : ppid <> 0) (Hd : holds_str (curdir pp) d) (Hc : c <> 0) (Hno : procs st !! c = None).
Hypotheses (Hf : sizes_ok fresh) (Hpid : last_pid st + 1 < 2 ^ 31) (He : env_from (pmem st) pp env e).
Hypotheses (He0 : e <> 0) (Hes : strings_ok es) (Hne : es <> []) (Hp : text p) (Harg : arg <> 0).
Hypotheses (Me : mem_at (pmem st) e (strlst es)) (Mp : mem_at (pmem st) prg (zstr p)).

(** Up to the making of the block. *)
Lemma create_head : exists st2 q0, procs st2 !! c = Some q0 /\ curdisk q0 = curdisk pp /\
  holds_str (curdir q0) d /\ last_pid st2 = last_pid st + 1 /\
  create ppid prg arg env (Some (c, fresh)) st =
    ('(s, pib) ← PrcCreatePIB map_region prg arg e (pmem st);
     '(s, tib) ← PrcCreateTIB map_region s;
     st ← modify c (fun p => with_blocks p pib (tib :: replicate 127 0) (last_pid st2)) (set_pmem st2 s);
     s ← st32 (pmem st) (pib + pib_ulpid) (last_pid st);
     s ← st32 s (pib + pib_ulppid) ppid;
     s ← st32 s (pib + pib_hmte) 0;
     Ret (c, set_pmem st s)).
Proof using All.
  destruct (create_place c fresh st L b pp d W Hb Eb) as (st1 & st2 & q0 & E1 & E2 & E3 & Eq0 &
    Hdisk & Hdir & M2 & P2 & Hb0 & q1 & Eq1 & Hq1); [done..|by rewrite Epp|].
  rewrite Epp in E2, E3. exists st2, q0. do 4 (split; [done|]).
  cbn [PrcCreate]. rewrite E1. cbn [mbind C_bind]. rewrite E2. cbn [mbind C_bind].
  rewrite E3. cbn [mbind C_bind].
  rewrite (inherit_env_spec env e b q1 st2 es Hb0 Eq1);
    [|by rewrite M2; unfold env_from in *; rewrite Hq1|done|done|by rewrite M2].
  cbn [mbind C_bind]. destruct (Z.eqb_spec arg 0); [done|]. by rewrite M2.
Qed.

(** With one argument string the process is made. *)
Lemma create_one a : strings_ok [a] -> mem_at (pmem st) arg (strlst [a]) ->
  ma_addr (map_region (pmem st) (pib_size es p [a])) <> 0 ->
  (forall s pib, PrcCreatePIB map_region prg arg e (pmem st) = Ret (s, pib) ->
     ma_addr (map_region s 48) <> 0) ->
  exists st' q, create ppid prg arg env (Some (c, fresh)) st = Ret (c, st') /\
    procs st' !! c = Some q /\ curdisk q = curdisk pp /\ holds_str (curdir q) d /\
    pib_holds (pmem st') (lx_pib q) es p [a] /\
    ld32 (pmem st') (lx_pib q + pib_ulpid) = Ret (last_pid st + 1) /\
    ld32 (pmem st') (lx_pib q + pib_ulppid) = Ret ppid.
Proof using All.
  intros Ha Ma Hr1 Hr2. destruct create_head as (st2 & q0 & Eq0 & Hdisk & Hdir & P2 & E).
  destruct (create_blocks (pmem st) prg arg e es p a) as (s1 & s2 & pib & tib & F1 & F2 & Hh & Hal);
    [done..|].
  assert (Hb' : 0 <= last_pid st + 1 < 2 ^ 32).
  { pose proof (wf_last _ _ W). lia. }
  destruct (pib_ids s2 pib es p [a] (last_pid st + 1) ppid Hh Hal) as (s3 & s4 & s5 & G1 & G2 & G3 & H1 & H2 & H3);
    [done|pose proof (wf_pid _ _ W b pp Hb Eb); lia|].
  rewrite E, F1. cbn [mbind C_bind]. rewrite F2. cbn [mbind C_bind]. rewrite (modify_ok c _ _ q0) by done.
  cbn [mbind C_bind pmem set_procs set_pmem last_pid procs proc_root]. rewrite P2, G1.
  cbn [mbind C_bind]. rewrite G2. cbn [mbind C_bind]. rewrite G3. cbn [mbind C_bind].
  eexists. exists (with_blocks q0 pib (tib :: replicate 127 0) (last_pid st + 1)).
  split; [done|]. cbn [procs pmem set_pmem set_procs]. by rewrite lookup_insert_eq.
Qed.

(** C9: A process created with a parent and an environment, its own or else its parent's.
    With one argument string it becomes the last of the list, which stays well formed, has
    the next number, the parent's disk and directory, and a block with its numbers,
    environment, program and argument.  With the two strings of a command line of OS/2, the
    program's name and its parameters, the byte that ends the list is written behind the
    block: undefined, unless that byte happens to be memory. *)
Theorem create_child a second :
  let args := command_line a second in
  let block := ma_addr (map_region (pmem st) (block_size es p args)) in
  strings_ok args -> mem_at (pmem st) arg (strlst args) -> block <> 0 ->
  (forall s pib, PrcCreatePIB map_region prg arg e (pmem st) = Ret (s, pib) ->
     ma_addr (map_region s 48) <> 0) ->
  match second with
  | None => exists st' q, create ppid prg arg env (Some (c, fresh)) st = Ret (c, st') /\
      well_formed st' (L ++ [c]) /\ procs st' !! c = Some q /\ pid q = last_pid st + 1 /\
      curdisk q = curdisk pp /\ holds_str (curdir q) d /\
      pib_holds (pmem st') (lx_pib q) es p [a] /\
      ld32 (pmem st') (lx_pib q + pib_ulpid) = Ret (pid q) /\
      ld32 (pmem st') (lx_pib q + pib_ulppid) = Ret ppid
  | Some _ => pmem st !! (block + block_size es p args) = None ->
      create ppid prg arg env (Some (c, fresh)) st = Undef
  end.
Proof using All.
  intros args block Ha Ma Hr1 Hr2. destruct second as [x|]; unfold command_line in args; subst args block.
  - intros Hlast. destruct create_head as (st2 & q0 & _ & _ & _ & _ & ->).
    rewrite (create_pib_two map_region (pmem st) prg arg e es p Hes Hne Hp He0 Me Mp a x Ha Ma);
      rewrite <- ?block_size_two; done.
  - rewrite block_size_one in Hr1.
    destruct (create_one a Ha Ma Hr1 Hr2) as (st' & q & E & Eq & H1 & H2 & H3 & H4 & H5). exists st', q.
    destruct (create_wf _ _ _ _ _ _ _ _ _ _ W Hc Hno Hf E) as (_ & W' & _ & q' & Eq' & Hq).
    replace q' with q in Hq by congruence. rewrite Hq. by split_and!.
Qed.
End child.
End operations.

(** *** The end of a process *)

Section destruction.
Context (detach : mem -> Z -> mem).

(** The links around a structure that is not the first. *)
Lemma unlink_spec st L1 l a L2 p : linked (procs st) 0 (proc_root st) ((L1 ++ [l]) ++ a :: L2) 0 ->
  NoDup ((L1 ++ [l]) ++ a :: L2) -> procs st !! a = Some p ->
  exists st1 st2,
    (if prev p =? 0 then Ret st else modify (prev p) (fun q => with_next q (next p)) st) = Ret st1 /\
    (if next p =? 0 then Ret st1 else modify (next p) (fun q => with_prev q (prev p)) st1) = Ret st2 /\
    linked (procs st2) 0 (proc_root st2) ((L1 ++ [l]) ++ L2) 0 /\
    proc_root st2 = proc_root st /\ last_pid st2 = last_pid st /\ pmem st2 = pmem st /\
    procs st2 !! a = Some p /\
    (forall x, unlinked <$> procs st2 !! x = unlinked <$> procs st !! x).
Proof.
  intros H Hnd Ep.
  destruct (linked_unlink _ _ _ _ _ _ _ H Hnd Ep) as (Ev & Hl & Hla & pl & El & Hm).
  rewrite Ev. destruct (Z.eqb_spec l 0); [done|]. rewrite (modify_ok l _ _ pl) by done.
  cbn [Dll.with_next Dll.with_prev proc_links] in Hm.
  assert (U1 : forall x, unlinked <$> (<[l := with_next pl (next p)]> (procs st)) !! x =
    unlinked <$> procs st !! x).
  { intros x. rewrite lookup_insert. case_decide; [|done]. subst. by rewrite El. }
  destruct L2 as [|m L2]; eexists.
  - destruct Hm as (En & Hm). rewrite En in *. eexists. split; [done|]. split; [done|].
    cbn [procs proc_root last_pid pmem set_procs]. rewrite app_nil_r.
    split_and!; try done. by rewrite lookup_insert_ne.
  - destruct Hm as (En & Hm0 & Hma & pm & Epm & Hm). rewrite En in *.
    destruct (Z.eqb_spec m 0); [done|]. eexists. split; [done|].
    rewrite (modify_ok m _ _ pm) by (done || exact Epm). split; [done|].
    cbn [procs proc_root last_pid pmem set_procs]. split_and!; try done.
    + by rewrite !lookup_insert_ne.
    + intros x. rewrite lookup_insert. case_decide; [|done]. subst. rewrite <- U1. by rewrite Epm.
Qed.

(** A process other than the first is destroyed. *)
Lemma destroy_spec st L1 l a L2 : well_formed st ((L1 ++ [l]) ++ a :: L2) ->
  exists st', PrcDestroy detach a st = Ret st' /\ well_formed st' ((L1 ++ [l]) ++ L2) /\
    proc_root st' = proc_root st /\ procs st' !! a = None /\
    (forall x, x <> a -> unlinked <$> procs st' !! x = unlinked <$> procs st !! x).
Proof.
  intros W. pose proof (wf_linked _ _ W) as H. pose proof (wf_nodup _ _ W) as Hnd.
  assert (Hin : a ∈ (L1 ++ [l]) ++ a :: L2) by mem_solve.
  destruct (linked_dom _ _ _ _ _ H a Hin) as [Ha [p Ep]].
  destruct (unlink_spec st L1 l a L2 p H Hnd Ep) as (st1 & st2 & E1 & E2 & K & R & P & M & Ep2 & U).
  unfold PrcDestroy. rewrite (proc_at_ok _ a p) by done. cbn [mbind C_bind]. rewrite E1.
  cbn [mbind C_bind]. rewrite E2. cbn [mbind C_bind]. rewrite (proc_at_ok _ a p) by done.
  cbn [mbind C_bind]. eexists. split; [done|]. cbn [procs proc_root last_pid].
  assert (HaL : a ∉ (L1 ++ [l]) ++ L2).
  { apply NoDup_app in Hnd as (_ & Hd & [Ha2 _]%NoDup_cons). intros [Hx|Hx]%elem_of_app; [|done].
    apply (Hd a Hx). by left. }
  assert (Back : forall b q, procs st2 !! b = Some q -> exists q0, procs st !! b = Some q0 /\
    pid q = pid q0 /\ (struct_ok q0 -> struct_ok q)).
  { intros b q Eq. specialize (U b). rewrite Eq in U. destruct (procs st !! b) as [q0|]; [|done].
    apply (unlinked_inv (Some q) q0) in U as (? & [= <-] & Hp & Hs & _). eauto. }
  split_and!; [|done|by rewrite lookup_delete_eq|intros x Hx; by rewrite lookup_delete_ne].
  assert (Sub : forall b, b ∈ (L1 ++ [l]) ++ L2 -> b ∈ (L1 ++ [l]) ++ a :: L2).
  { intros b. rewrite !elem_of_app, !elem_of_cons. tauto. }
  assert (Back' : forall b q, b ∈ (L1 ++ [l]) ++ L2 -> delete a (procs st2) !! b = Some q ->
    exists q0, procs st !! b = Some q0 /\ pid q = pid q0 /\ (struct_ok q0 -> struct_ok q)).
  { intros b q Hb Eq. apply Back. rewrite lookup_delete_ne in Eq; [done|]. by intros ->. }
  split; cbn [procs proc_root last_pid].
  - intros b Hb. assert (b <> a) by (intros ->; rewrite lookup_delete_eq in Hb; by destruct Hb).
    rewrite lookup_delete_ne in Hb by done. destruct Hb as [q Eq].
    destruct (Back b q Eq) as (q0 & E0 & _). assert (Hb : b ∈ (L1 ++ [l]) ++ a :: L2)
      by (apply (wf_dom _ _ W); by exists q0).
    rewrite !elem_of_app, !elem_of_cons in *. tauto.
  - eapply linked_same; [|exact K]. intros b Hb. unfold links. rewrite lookup_delete_ne; [done|].
    by intros ->.
  - apply NoDup_app in Hnd as (N1 & N2 & [_ N3]%NoDup_cons). apply NoDup_app.
    split_and!; [done| |done]. intros x Hx Hx2. apply (N2 x Hx). by right.
  - intros b q Hb (q0 & E0 & -> & _)%Back'; [|done]. rewrite P. by apply (wf_pid _ _ W b); [apply Sub|].
  - intros b d q r Hb Hd (q0 & E0 & -> & _)%Back' (r0 & F0 & -> & _)%Back'; [|done..].
    apply (wf_inj _ _ W); auto.
  - intros b q Hb (q0 & E0 & _ & Hs)%Back'; [|done]. apply Hs. apply (wf_struct _ _ W b); auto.
  - rewrite P. apply (wf_last _ _ W).
Qed.
End destruction.

(** *** All operations *)

Section reachability.
Context (TaskEqual : Z -> Z -> bool) (NIL_THREAD : Z).
Context (map_region : mem -> Z -> malloc_answer) (detach : mem -> Z -> mem) (empty_string : Z).
Context (io_load_file : list Z -> option (list Z)).
Context (LoaderExec : list Z -> Z * Z) (AppClientGetLoadError : Z -> Z).

(** [malloc] answers with a new structure of the right size. *)
Definition new_object (st : prcmgr) (o : option (Z * t_os2process)) : Prop :=
  match o with
  | None => True
  | Some (c, fresh) => c <> 0 /\ procs st !! c = None /\ sizes_ok fresh
  end.

(** The steps of the server.  The first process is not destroyed: it is the
    one that starts the others and waits for them. *)
Inductive prc_step : prcmgr -> prcmgr -> Prop :=
  | step_create ppid prg arg env o a st st' : new_object st o ->
      PrcCreate map_region empty_string ppid prg arg env o st = Ret (a, st') -> prc_step st st'
  | step_execute execFlag arg env name ppid buf o cf t rc code a t' st st' : new_object st o ->
      PrcExecuteModule map_region empty_string io_load_file LoaderExec AppClientGetLoadError
        execFlag arg env name ppid buf o cf t st = Ret (rc, code, a, st', t') -> prc_step st st'
  | step_destroy a st st' : a <> proc_root st -> PrcDestroy detach a st = Ret st' ->
      prc_step st st'
  | step_new_tib id tid thread rc st st' :
      PrcNewTIB map_region id tid thread st = Ret (rc, st') -> prc_step st st'
  | step_destroy_tib id tid rc st st' :
      PrcDestroyTIB NIL_THREAD detach id tid st = Ret (rc, st') -> prc_step st st'
  | step_notify1 thread st st' : CPAppNotify1 TaskEqual thread st = Ret st' -> prc_step st st'
  | step_notify2 thread m o st st' : new_object st o ->
      CPAppNotify2 TaskEqual NIL_THREAD map_region empty_string thread m o st = Ret st' ->
      prc_step st st'.

Definition is_list (st : prcmgr) : Prop := exists L, well_formed st L.

Lemma create_is_list ppid prg arg env o st st' a : is_list st -> new_object st o ->
  PrcCreate map_region empty_string ppid prg arg env o st = Ret (a, st') -> is_list st'.
Proof.
  intros [L W] Ho H. destruct o as [[c fresh]|]; [|cbn in H; injection H as _ <-; by exists L].
  destruct Ho as (Hc & Hno & Hf). exists (L ++ [c]). by eapply create_wf in H as (_ & ? & _).
Qed.

Lemma modify_is_list a f st st' : is_list st -> modify a f st = Ret st' ->
  (forall p, next (f p) = next p /\ prev (f p) = prev p /\ pid (f p) = pid p) ->
  (forall p, procs st !! a = Some p -> struct_ok p -> struct_ok (f p)) -> is_list st'.
Proof. intros [L W] H H1 H2. exists L. by eapply modify_wf. Qed.

Lemma set_pmem_is_list st s : is_list st -> is_list (set_pmem st s).
Proof. intros [L W]. exists L. by apply set_pmem_wf. Qed.

Lemma destroy_is_list a st st' : is_list st -> a <> proc_root st ->
  PrcDestroy detach a st = Ret st' -> is_list st'.
Proof.
  intros [L W] Ha H. pose proof H as H'. unfold PrcDestroy, proc_at in H.
  destruct (a =? 0); [done|]. destruct (procs st !! a) as [p|] eqn:Ep; [|done].
  assert (Hin : a ∈ L) by (apply (wf_dom _ _ W); by exists p).
  apply list_elem_of_split in Hin as (L1 & L2 & ->).
  destruct (decide (L1 = [])) as [->|Hne].
  { pose proof (wf_linked _ _ W) as Hl. cbn in Hl. destruct Hl as [? _]. congruence. }
  destruct (exists_last Hne) as (L0 & l & ->).
  destruct (destroy_spec detach st L0 l a L2 W) as (st2 & E & W' & _). exists ((L0 ++ [l]) ++ L2).
  by replace st' with st2 by congruence.
Qed.

Lemma tid_set_length l tid v l' : tid_set l tid v = Ret l' -> length l' = length l.
Proof. unfold tid_set. intros H. cinv. apply length_insert. Qed.

Lemma with_tids_ok p tibs tids : struct_ok p -> length tibs = length (tib_array p) ->
  length tids = length (tid_array p) -> struct_ok (with_tids p tibs tids).
Proof.
  intros [(H1 & H2 & H3 & H4) Hd] E1 E2. split; [|exact Hd].
  split_and!; cbn [tib_array tid_array with_tids]; congruence || done.
Qed.

Lemma new_tib_is_list id tid thread rc st st' : is_list st ->
  PrcNewTIB map_region id tid thread st = Ret (rc, st') -> is_list st'.
Proof.
  intros Hl H. unfold PrcNewTIB in H.
  destruct (PrcGetProc id st) as [a| | |]; try done. cbn [mbind C_bind] in H.
  destruct (PrcCreateTIB _ _) as [[s t]| | |]; try done. cbn [mbind C_bind] in H.
  destruct (proc_at (procs st) a) as [p| | |] eqn:Ep; try done. cbn [mbind C_bind] in H.
  destruct (tid_set (tid_array p) _ _) as [tids| | |] eqn:E1; try done. cbn [mbind C_bind] in H.
  destruct (tid_set (tib_array p) _ _) as [tibs| | |] eqn:E2; try done. cbn [mbind C_bind] in H.
  destruct (ld32 _ _) as [t2| | |]; try done. cbn [mbind C_bind] in H.
  destruct (st32 _ _ _) as [s2| | |]; try done. cbn [mbind C_bind] in H.
  destruct (modify _ _ _) as [st2| | |] eqn:Em; try done. injection H as _ <-.
  eapply modify_is_list; [by apply set_pmem_is_list|exact Em|done|].
  intros q Eq Hq. unfold proc_at in Ep. destruct (a =? 0); [done|]. cbn in Eq. rewrite Eq in Ep.
  injection Ep as ->. apply with_tids_ok; [done|by eapply tid_set_length|by eapply tid_set_length].
Qed.

Lemma destroy_tib_is_list id tid rc st st' : is_list st ->
  PrcDestroyTIB NIL_THREAD detach id tid st = Ret (rc, st') -> is_list st'.
Proof.
  intros Hl H. unfold PrcDestroyTIB in H.
  destruct (PrcGetProc id st) as [a| | |]; try done. cbn [mbind C_bind] in H.
  destruct (proc_at (procs st) a) as [p| | |] eqn:Ep; try done. cbn [mbind C_bind] in H.
  destruct (tid_get _ _) as [t| | |]; try done. cbn [mbind C_bind] in H.
  destruct (tid_set (tib_array p) _ _) as [tibs| | |] eqn:E2; try done. cbn [mbind C_bind] in H.
  destruct (tid_set (tid_array p) _ _) as [tids| | |] eqn:E1; try done. cbn [mbind C_bind] in H.
  destruct (modify _ _ _) as [st2| | |] eqn:Em; try done. injection H as _ <-.
  apply set_pmem_is_list. eapply modify_is_list; [exact Hl|exact Em|done|].
  intros q Eq Hq. unfold proc_at in Ep. destruct (a =? 0); [done|]. rewrite Eq in Ep.
  injection Ep as ->. apply with_tids_ok; [done|by eapply tid_set_length|by eapply tid_set_length].
Qed.

Lemma notify1_is_list thread st st' : is_list st ->
  CPAppNotify1 TaskEqual thread st = Ret st' -> is_list st'.
Proof.
  intros Hl H. unfold CPAppNotify1 in H.
  destruct (PrcGetProcNative _ _ _) as [a| | |]; try done. cbn [mbind C_bind] in H.
  destruct (proc_at _ _) as [p| | |]; try done. cbn [mbind C_bind] in H.
  destruct (ld32 _ _) as [ppid| | |]; try done. cbn [mbind C_bind] in H.
  destruct (PrcGetProc ppid st) as [b| | |]; try done. cbn [mbind C_bind] in H.
  by eapply modify_is_list.
Qed.

Lemma notify2_is_list thread m o st st' : is_list st -> new_object st o ->
  CPAppNotify2 TaskEqual NIL_THREAD map_region empty_string thread m o st = Ret st' -> is_list st'.
Proof.
  intros Hl Ho H. unfold CPAppNotify2 in H.
  destruct (PrcGetProcNative _ _ _) as [a| | |]; try done. cbn [mbind C_bind] in H.
  match type of H with (?m ≫= _) = _ => destruct m as [[a' st1]| | |] eqn:E1; try done end.
  cbn [mbind C_bind] in H. assert (Hl1 : is_list st1).
  { destruct (a =? 0); [|by injection E1 as _ <-].
    destruct (PrcCreate _ _ _ _ _ _ _ _) as [[b st0]| | |] eqn:Ec; try done.
    cbn [mbind C_bind] in E1. destruct (modify b _ st0) as [st0'| | |] eqn:Em; try done.
    injection E1 as _ <-. eapply modify_is_list; [by eapply create_is_list|exact Em|done|done]. }
  destruct (modify a' _ st1) as [st2| | |] eqn:E2; try done. cbn [mbind C_bind] in H.
  assert (Hl2 : is_list st2) by (by eapply modify_is_list).
  destruct (proc_at (procs st2) a') as [p| | |] eqn:Ep; try done. cbn [mbind C_bind] in H.
  destruct (st32 (pmem st2) _ _) as [s1| | |]; try done. cbn [mbind C_bind] in H.
  destruct (tid_get _ _) as [t| | |]; try done. cbn [mbind C_bind] in H.
  destruct (st32 s1 _ _) as [s2| | |]; try done. cbn [mbind C_bind] in H.
  destruct (st32 s2 _ _) as [s3| | |]; try done. cbn [mbind C_bind] in H.
  destruct (ld32 _ _) as [t2| | |]; try done. cbn [mbind C_bind] in H.
  destruct (st32 s3 _ _) as [s4| | |]; try done. cbn [mbind C_bind] in H.
  eapply modify_is_list; [by apply set_pmem_is_list|exact H|done|].
  intros q Eq Hq. unfold proc_at in Ep. destruct (a' =? 0); [done|]. cbn in Eq. rewrite Eq in Ep.
  injection Ep as ->. destruct Hq as [(H1 & H2 & H3 & H4) Hd]. split; [by split_and!|exact Hd].
Qed.

Lemma execute_is_list execFlag arg env name ppid buf o cf t rc code a t' st st' :
  is_list st -> new_object st o ->
  PrcExecuteModule map_region empty_string io_load_file LoaderExec AppClientGetLoadError
    execFlag arg env name ppid buf o cf t st = Ret (rc, code, a, st', t') -> is_list st'.
Proof.
  intros Hl Ho H. unfold PrcExecuteModule in H.
  destruct (rd8 name 0) as [c0| | |]; try done. cbn [mbind C_bind] in H.
  match type of H with (?m ≫= _) = _ => destruct m as [rel| | |]; try done end.
  cbn [mbind C_bind] in H. destruct (cstr name) as [nm| | |]; try done. cbn [mbind C_bind] in H.
  match type of H with (?m ≫= _) = _ => destruct m as [[[rc1 path] t1]| | |]; try done end.
  cbn [mbind C_bind] in H. destruct (negb (rc1 =? NO_ERROR)); [by injection H as _ _ _ <- _|].
  destruct (require _) as [[]| | |]; try done. cbn [mbind C_bind] in H.
  destruct (st_string _ _ _) as [s| | |]; try done. cbn [mbind C_bind] in H.
  destruct (PrcCreate _ _ _ _ _ _ _ _) as [[b st1]| | |] eqn:Ec; try done.
  cbn [mbind C_bind] in H.
  assert (Hl1 : is_list st1).
  { eapply (create_is_list _ _ _ _ o (set_pmem st s)); [by apply set_pmem_is_list|exact Ho|exact Ec]. }
  unfold LoaderExecOS2 in H. destruct (LoaderExec _) as [rc2 tk].
  destruct (modify b _ st1) as [st2| | |] eqn:Em; try done. cbn [mbind C_bind] in H.
  assert (Hl2 : is_list st2) by (by eapply modify_is_list).
  destruct (negb (rc2 =? NO_ERROR)); [by injection H as _ _ _ <- _|].
  destruct (proc_at _ _) as [p| | |]; try done. cbn [mbind C_bind] in H.
  by injection H as _ _ _ <- _.
Qed.

Lemma step_is_list st st' : prc_step st st' -> is_list st -> is_list st'.
Proof.
  destruct 1; intros Hl.
  - by eapply create_is_list.
  - by eapply execute_is_list.
  - by eapply destroy_is_list.
  - by eapply new_tib_is_list.
  - by eapply destroy_tib_is_list.
  - by eapply notify1_is_list.
  - by eapply notify2_is_list.
Qed.

Lemma init_is_list s : is_list (mkPrc ∅ 0 (-1) s).
Proof.
  exists []. split; cbn [procs proc_root last_pid].
  - intros b [p Ep]. by rewrite lookup_empty in Ep.
  - done.
  - constructor.
  - intros b p Hb. by apply elem_of_nil in Hb.
  - intros b c p q Hb. by apply elem_of_nil in Hb.
  - intros b p Hb. by apply elem_of_nil in Hb.
  - lia.
Qed.

(** C6: In every state that the server reaches, the processes form a well-formed
    list (doubly linked, without repetition, with distinct numbers that were
    given out, arrays of their sizes and terminated directories); so a search by
    number always ends, with the one process of that number or with null. *)
Theorem process_list_invariant s st : rtc prc_step (mkPrc ∅ 0 (-1) s) st ->
  is_list st /\
  forall id, exists a, PrcGetProc id st = Ret a /\
    ((a = 0 /\ forall b p, procs st !! b = Some p -> pid p <> id) \/
     exists p, procs st !! a = Some p /\ pid p = id).
Proof.
  intros H. assert (Hl : is_list st).
  { pose proof (init_is_list s) as H0. revert H0.
    induction H as [|st1 st2 st3 H12 _ IH]; [done|]. intros Hl. apply IH.
    by eapply step_is_list. }
  split; [done|]. destruct Hl as [L W]. intros id.
  destruct (decide (Exists (fun b => pid <$> procs st !! b = Some id) L)) as [Hx|Hx].
  - apply Exists_exists in Hx as (b & Hb & Eb). destruct (procs st !! b) as [p|] eqn:Ep; [|done].
    injection Eb as <-. exists b. split; [by eapply get_proc_found|]. right. by exists p.
  - exists 0. assert (Hn : forall b p, b ∈ L -> procs st !! b = Some p -> pid p <> id).
    { intros b p Hb Ep Hp. apply Hx, Exists_exists. exists b. split; [done|]. rewrite Ep. cbn.
      by rewrite Hp. }
    split; [by eapply get_proc_none|]. left. split; [done|]. intros b p Ep. apply (Hn b p); [|done].
    apply (wf_dom _ _ W). by exists p.
Qed.
End reachability.

Section lifetimes.
Context (detach : mem -> Z -> mem).

(** A process that is destroyed, other than the first, is not found any
    more; all others are found by their numbers as before. *)
Theorem destroyed_process st L1 a L2 p : L1 <> [] -> well_formed st (L1 ++ a :: L2) ->
  procs st !! a = Some p ->
  exists st', PrcDestroy detach a st = Ret st' /\ well_formed st' (L1 ++ L2) /\
    PrcGetProc (pid p) st' = Ret 0 /\
    (forall b q, b <> a -> procs st !! b = Some q -> PrcGetProc (pid q) st' = Ret b).
Proof.
  intros Hne W Ep. destruct (exists_last Hne) as (L0 & l & ->).
  destruct (destroy_spec detach st L0 l a L2 W) as (st' & E & W' & _ & Ea & U).
  exists st'. split; [done|]. split; [done|].
  assert (Ha : a ∈ (L0 ++ [l]) ++ a :: L2) by (apply (wf_dom _ _ W); by exists p). split.
  - apply (get_proc_none st' _ _ W'). intros b q Hb Eq Hpq.
    assert (Hba : b <> a) by (by intros ->; congruence). pose proof (U b Hba) as Hu.
    rewrite Eq in Hu. destruct (procs st !! b) as [q0|] eqn:E0; [|done].
    apply (unlinked_inv (Some q) q0) in Hu as (? & [= <-] & Hp & _). apply Hba.
    apply (wf_inj _ _ W b a q0 p); [|done|done|done|congruence].
    apply (wf_dom _ _ W). by exists q0.
  - intros b q Hba Eq. pose proof (U b Hba) as Hu. rewrite Eq in Hu.
    apply unlinked_inv in Hu as (q' & Eq' & <- & _). apply (get_proc_found st' _ b q' W'); [|done].
    apply (wf_dom _ _ W'). by exists q'.
Qed.

(** After the first process is destroyed, [proc_root] still points to its
    freed structure: every search of a process goes through it. *)
Theorem destroy_first_dangles st a L : well_formed st (a :: L) ->
  exists st', PrcDestroy detach a st = Ret st' /\ forall id, PrcGetProc id st' = Undef.
Proof.
  intros W. pose proof (wf_linked _ _ W) as (Hr & Ha & p & Ep & Ev & Hl).
  unfold PrcDestroy. rewrite (proc_at_ok _ a p) by done. cbn [mbind C_bind]. rewrite Ev.
  change (0 =? 0) with true. cbv iota. cbn [mbind C_bind].
  assert (Hn : next p = 0 \/ exists q, next p <> 0 /\ next p <> a /\ procs st !! next p = Some q).
  { destruct L as [|b L]; [by left|]. right. destruct Hl as (-> & Hb & q & Eq & _).
    exists q. split_and!; [done| |done]. pose proof (wf_nodup _ _ W) as [Hnd _]%NoDup_cons.
    intros ->. apply Hnd. by left. }
  assert (Done : forall st1, procs st1 !! a = Some p -> proc_root st1 = a ->
    exists st', (p ← proc_at (procs st1) a;
      let s := foldl (fun s t => if t =? 0 then s else free_mem detach s t)
                 (free_mem detach (pmem st1) (lx_pib p)) (tib_array p) in
      Ret (mkPrc (delete a (procs st1)) (proc_root st1) (last_pid st1) s)) = Ret st' /\
    forall id, PrcGetProc id st' = Undef).
  { intros st1 E1 R1. rewrite (proc_at_ok _ a p) by done. eexists. split; [done|]. intros id.
    unfold PrcGetProc, search_proc. cbn [proc_root procs]. rewrite R1.
    destruct (Z.eqb_spec a 0); [done|]. cbn [find_proc]. unfold proc_at.
    destruct (Z.eqb_spec a 0); [done|]. by rewrite lookup_delete_eq. }
  destruct Hn as [->|(q & Hn & Hna & Eq)].
  - change (0 =? 0) with true. cbv iota. cbn [mbind C_bind]. by apply Done.
  - destruct (Z.eqb_spec (next p) 0); [done|]. rewrite (modify_ok _ _ _ q) by done.
    cbn [mbind C_bind]. apply Done; [|done]. cbn. by rewrite lookup_insert_ne.
Qed.
End lifetimes.

(** A command line of two argument strings, as the command interpreter
    passes it (the program and its parameters), needs one byte more than the
    block of the process gets: the byte that ends the list is not counted.  It
    is written behind the block. *)
Theorem pib_two_arguments map_region s prg arg env es p a b :
  strings_ok es -> es <> [] -> text p -> strings_ok [a; b] -> env <> 0 ->
  mem_at s env (strlst es) -> mem_at s prg (zstr p) -> mem_at s arg (strlst [a; b]) ->
  let n := pib_size es p [a; b] - 1 in
  let pp := ma_addr (map_region s n) in
  malloc_fresh s n (map_region s n) -> pp <> 0 -> s !! (pp + n) = None ->
  PrcCreatePIB map_region prg arg env s = Undef.
Proof.
  intros Hes Hne Hp Hab Henv Me Mp Ma n pp Hf Hpp Hno.
  by apply (create_pib_two map_region s prg arg env es p Hes Hne Hp Henv Me Mp a b Hab Ma).
Qed.

(** ** Instances of the properties

    A region mapper that answers with the page above everything in use, and
    two processes, of which the second is the parent of a third. *)

Definition highest (s : mem) : Z := foldr Z.max 0 (map_to_list s).*1.
Definition demo_region (s : mem) (n : Z) : malloc_answer :=
  let a := 4096 * (highest s / 4096 + 1) in
  {| ma_addr := if (0 <=? n) && (a + n <=? 2 ^ 32) then a else 0; ma_fill := fun _ => 0 |}.

Lemma highest_spec s i : is_Some (s !! i) -> i <= highest s.
Proof.
  intros [c Hc]. apply elem_of_map_to_list in Hc. unfold highest.
  induction (map_to_list s) as [|[k x] l IH]; [by apply elem_of_nil in Hc|].
  cbn. apply elem_of_cons in Hc as [[= -> ->]|Hc]; [lia|]. apply IH in Hc. lia.
Qed.

#[export] Instance demo_region_laws : RegionLaws demo_region.
Proof.
  intros s n. unfold malloc_fresh, demo_region. cbn [ma_addr].
  destruct (_ && _) eqn:E; [right|by left]. apply andb_true_iff in E as [E1 E2].
  assert (H0 : 0 <= highest s).
  { unfold highest. induction (map_to_list s).*1 as [|k l IH]; cbn; lia. }
  split_and!; [lia|lia|]. intros a Ha. destruct (s !! a) as [c|] eqn:Ea; [|done].
  pose proof (highest_spec s a ltac:(by exists c)). lia.
Qed.

Fixpoint put_bytes (a : Z) (l : list Z) (s : mem) : mem :=
  match l with [] => s | c :: l => <[a := c]> (put_bytes (a + 1) l s) end.

Lemma mem_at_check s a l :
  (fun i => s !! (a + Z.of_nat i)) <$> seq 0 (length l) = Some <$> l -> mem_at s a l.
Proof.
  intros E i c Hi. assert (H : (Some <$> l) !! i = Some (Some c))
    by (by rewrite list_lookup_fmap, Hi). rewrite <- E, list_lookup_fmap, lookup_seq_lt in H
    by (by eapply lookup_lt_Some). cbn in H. congruence.
Qed.

Lemma strings_check ls :
  forallb (fun l => forallb (fun c => (0 <? c) && (c <? 256)) l && negb (bool_decide (l = []))) ls
  = true -> strings_ok ls.
Proof.
  rewrite forallb_forall. intros H. apply Forall_forall. intros l Hl%list_elem_of_In.
  apply H in Hl. apply andb_true_iff in Hl as [H1 H2]. split; [by apply text_check|].
  apply negb_true_iff, bool_decide_eq_false in H2. done.
Qed.

Definition demo_env : list (list Z) := [bstr "PATH=C:"; bstr "A=B"].
Definition demo_strings : mem :=
  put_bytes 1000 (strlst demo_env) (put_bytes 1100 (zstr (bstr "A.EXE"))
    (put_bytes 1200 (strlst [bstr "/x"]) (put_bytes 1300 (strlst [bstr "A"; bstr "/x"]) ∅))).
Definition demo_proc (id n v : Z) : t_os2process :=
  mkProc 0 id 0 0 0 (10 * id + 7) 0 0 0 9000 (replicate 128 0) (replicate 128 0) 4
    (bstr "OS2" ++ replicate 253 0) n v.
Definition demo_fresh : t_os2process :=
  mkProc 0 1 5 6 7 8 9 1 1 1 (replicate 128 9) (replicate 128 9) 9 (replicate 256 66) 3 3.
Definition demo_prc : prcmgr :=
  mkPrc {[100 := demo_proc 0 200 0; 200 := demo_proc 1 0 100]} 100 1 demo_strings.
Definition demo_detach (s : mem) (a : Z) : mem := s.

Lemma demo_dir : holds_str (bstr "OS2" ++ replicate 253 0) (bstr "OS2").
Proof. split; [by apply text_check|]. exists (replicate 252 0). reflexivity. Qed.

Lemma demo_struct id n v : struct_ok (demo_proc id n v).
Proof.
  split; [|exists (bstr "OS2"); exact demo_dir].
  split_and!; [reflexivity|reflexivity|reflexivity|by apply bytes_check].
Qed.

Lemma demo_lookup b p : procs demo_prc !! b = Some p ->
  (b = 100 /\ p = demo_proc 0 200 0) \/ (b = 200 /\ p = demo_proc 1 0 100).
Proof.
  cbn [procs demo_prc]. rewrite lookup_insert, lookup_singleton. repeat case_decide; intros [= <-]; auto.
Qed.

Lemma demo_wf : well_formed demo_prc [100; 200].
Proof.
  split.
  - intros b [p [[-> _]|[-> _]]%demo_lookup]; [by left|by right; left].
  - split; [done|split; [done|]]. exists (demo_proc 0 200 0). split_and!; [done|done|].
    split; [done|split; [done|]]. by exists (demo_proc 1 0 100).
  - apply (bool_decide_unpack _). vm_compute. exact I.
  - intros b p _ [[-> ->]|[-> ->]]%demo_lookup; cbn; lia.
  - intros b c p q _ _ [[-> ->]|[-> ->]]%demo_lookup [[-> ->]|[-> ->]]%demo_lookup; done.
  - intros b p _ [[-> ->]|[-> ->]]%demo_lookup; apply demo_struct.
  - cbn. lia.
Qed.

Lemma create_child_witness :
  exists st' q, PrcCreate demo_region 0 1 1100 1200 1000 (Some (300, demo_fresh)) demo_prc =
      Ret (300, st') /\ PrcGetProc 2 st' = Ret 300 /\
    pib_holds (pmem st') (lx_pib q) demo_env (bstr "A.EXE") [bstr "/x"].
Proof.
  unshelve epose proof (create_child demo_region 0 1 1100 1200 1000 300 demo_fresh demo_prc [100; 200]
    200 (demo_proc 1 0 100) (bstr "OS2") 1000 demo_env (bstr "A.EXE")
    _ _ _ _ _ _ _ _ _ _ _ _ _ _ _ _ _ _ (bstr "/x") None _ _ _ _) as (st' & q & E & W & Eq & Hp & _ & _ & Hh & _).
  - apply demo_wf.
  - by right; left.
  - reflexivity.
  - reflexivity.
  - lia.
  - exact demo_dir.
  - lia.
  - reflexivity.
  - split_and!; [reflexivity|reflexivity|reflexivity|by apply bytes_check].
  - cbn. lia.
  - left. split; [lia|done].
  - lia.
  - by apply strings_check.
  - done.
  - by apply text_check.
  - lia.
  - by apply mem_at_check.
  - by apply mem_at_check.
  - by apply strings_check.
  - by apply mem_at_check.
  - vm_compute. lia.
  - intros s pib Es.
    assert (H : match PrcCreatePIB demo_region 1100 1200 1000 demo_strings with
                | Ret (s, _) => ma_addr (demo_region s 48) =? 0
                | _ => true end = false) by (vm_compute; reflexivity).
    cbn [pmem demo_prc] in Es. rewrite Es in H. by apply Z.eqb_neq.
  - exists st', q. split; [exact E|split; [|exact Hh]].
    change 2 with (last_pid demo_prc + 1). rewrite <- Hp. eapply get_proc_found; [exact W| |exact Eq].
    by right; right; left.
Defined.

(** The states after the first and after the second process is created. *)
Definition demo_start : prcmgr := mkPrc ∅ 0 (-1) demo_strings.
Definition demo_created (ppid c : Z) (st : prcmgr) : prcmgr :=
  match PrcCreate demo_region 0 ppid 1100 1200 1000 (Some (c, demo_fresh)) st with
  | Ret (_, st) => st
  | _ => demo_start
  end.
Definition demo_first : prcmgr := demo_created 0 100 demo_start.
Definition demo_second : prcmgr := demo_created 0 200 demo_first.

Lemma demo_new c st : c <> 0 -> procs st !! c = None -> new_object st (Some (c, demo_fresh)).
Proof.
  intros Hc Hno. split; [done|split; [done|]].
  split_and!; [reflexivity|reflexivity|reflexivity|by apply bytes_check].
Qed.

Lemma process_list_invariant_witness :
  exists L, well_formed demo_second L /\ exists a p, procs demo_second !! a = Some p /\ pid p = 1.
Proof.
  destruct (process_list_invariant Z.eqb 0 demo_region demo_detach 0 (fun _ => None)
    (fun _ => (0, 0)) (fun _ => 0) demo_strings demo_second) as [[L W] H].
  - apply rtc_l with demo_first; [|apply rtc_once].
    + apply (step_create _ _ _ _ _ _ _ _ 0 1100 1200 1000 (Some (100, demo_fresh)) 100);
        [by apply demo_new|vm_compute; reflexivity].
    + apply (step_create _ _ _ _ _ _ _ _ 0 1100 1200 1000 (Some (200, demo_fresh)) 200);
        [apply demo_new; [done|vm_compute; reflexivity]|vm_compute; reflexivity].
  - exists L. split; [exact W|]. destruct (H 1) as (a & E & [[-> Hn]|Ha]); [|by exists a].
    exfalso. revert E. vm_compute. discriminate.
Defined.

Lemma destroyed_process_witness :
  exists st', PrcDestroy demo_detach 200 demo_prc = Ret st' /\ PrcGetProc 1 st' = Ret 0 /\
    PrcGetProc 0 st' = Ret 100.
Proof.
  destruct (destroyed_process demo_detach demo_prc [100] 200 [] (demo_proc 1 0 100))
    as (st' & E & _ & H0 & H1); [done|apply demo_wf|reflexivity|].
  exists st'. split; [exact E|split; [exact H0|]]. by apply (H1 100 (demo_proc 0 200 0)).
Defined.

Lemma destroy_first_dangles_witness :
  exists st', PrcDestroy demo_detach 100 demo_prc = Ret st' /\ PrcGetProc 1 st' = Undef.
Proof.
  destruct (destroy_first_dangles demo_detach demo_prc 100 [200] demo_wf) as (st' & E & H).
  exists st'. split; [exact E|apply H].
Defined.

Lemma pib_two_arguments_witness :
  PrcCreatePIB demo_region 1100 1300 1000 demo_strings = Undef.
Proof.
  apply (pib_two_arguments demo_region demo_strings 1100 1300 1000 demo_env (bstr "A.EXE")
    (bstr "A") (bstr "/x")).
  - by apply strings_check.
  - done.
  - by apply text_check.
  - by apply strings_check.
  - lia.
  - by apply mem_at_check.
  - by apply mem_at_check.
  - by apply mem_at_check.
  - apply region_fresh.
  - vm_compute. lia.
  - vm_compute. reflexivity.
Defined.
