(* ===== verification/Os2Api.v ===== *)
(** * The API of the OS/2 server ([OS2/Server/shared/server/os2srv/api/api.c])

    What programs ask of the server about their process: the end of a process
    and the parent that waits for it, the current disk and directory, identifiers
    and information blocks.  The event semaphores of the file are not modelled. *)
From S2P Require Import Prelude Dll CfgParser PathSearch ProcMgr.

Definition ERROR_INVALID_DRIVE : Z := 15.
Definition ERROR_BUFFER_OVERFLOW : Z := 111.
Definition ERROR_INVALID_PROCID : Z := 303.
Definition ERROR_CPLIST_TOO_SMALL : Z := 473.

(** ** The current directory *)

(** From the end of the string back to a backslash, or to the beginning. *)
Fixpoint back_to_sep (n : nat) (b : list Z) : C Z :=
  c ← rd8 b (Z.of_nat n);
  if c =? backslash then Ret (Z.of_nat n)
  else match n with O => Ret 0 | S n => back_to_sep n b end.

(** [strcat]. *)
Definition strcat_at (b s : list Z) : C (list Z) :=
  d ← cstr b; strcpy_at b (Z.of_nat (length d)) s.

(** [b] is the buffer at [*dir]. *)
Definition cdir (b component : list Z) : C (list Z) :=
  if bool_decide (component = bstr "..") then
    c ← rd8 b 0;
    if c =? 0 then Ret b
    else
      d ← cstr b;
      p ← back_to_sep (length d) b;
      wr8 b p 0
  else if bool_decide (component = bstr ".") then Ret b
  else if match component with c :: _ => c =? backslash | [] => false end then
    strcpy_at b 0 component
  else
    c ← rd8 b 0;
    b ← (if c =? 0 then Ret b else strcat_at b [backslash]);
    strcat_at b component.

(** The position of the first backslash. *)
Fixpoint find_sep (q : list Z) : option nat :=
  match q with
  | [] => None
  | c :: q => if c =? backslash then Some O else S <$> find_sep q
  end.

(** The components are copied to an array of 256 bytes; a component that is
    followed by no backslash is the last. *)
Fixpoint dir_loop (fuel : nat) (q b : list Z) : C (list Z) :=
  match fuel with
  | O => NoFuel
  | S fuel =>
      match find_sep q with
      | Some i =>
          _ ← require (Z.of_nat i <? 256);
          b ← cdir b (take i q);
          dir_loop fuel (drop (S i) q) b
      | None =>
          _ ← require (Z.of_nat (length q) <? 256);
          cdir b q
      end
  end.

Definition unslash (c : Z) : Z := if c =? ch "/"%char then backslash else c.

Section api.
Variables (TaskEqual ThreadEqual : Z -> Z -> bool) (detach : mem -> Z -> mem).
(** The thread of the process that starts the others. *)
Variable sysinit_id : Z.

(** [pszDir] is the string, or a null pointer; its slashes are replaced in the
    caller's buffer. *)
Definition CPSetCurrentDir (thread : Z) (pszDir : option (list Z)) (st : prcmgr)
    : C (Z * prcmgr) :=
  a ← PrcGetProcNative TaskEqual thread st;
  if a =? 0 then Ret (ERROR_INVALID_PROCID, st)
  else
    p ← proc_at (procs st) a;
    let root := (b ← wr8 (curdir p) 0 0;
                 st ← modify a (fun p => with_dir p (curdisk p) b) st;
                 Ret (NO_ERROR, st)) in
    match pszDir with
    | None => root
    | Some d =>
        let d := unslash <$> d in
        if bool_decide (d = [backslash]) then root
        else
          b ← dir_loop (S (length d)) d (curdir p);
          st ← modify a (fun p => with_dir p (curdisk p) b) st;
          Ret (NO_ERROR, st)
    end.

(** [(1 << (disk - 1)) & logical]. *)
Definition drive_exists (disk logical : Z) : C bool :=
  _ ← require (u32 (disk - 1) <? 31);
  Ret (negb (Z.land (Z.shiftl 1 (u32 (disk - 1))) logical =? 0)).

Definition CPQueryCurrentDisk (thread : Z) (st : prcmgr) : C (Z * Z) :=
  a ← PrcGetProcNative TaskEqual thread st;
  p ← proc_at (procs st) a;
  Ret (NO_ERROR, u32 (curdisk p)).

(** The drive number is stored in a [char]. *)
Definition CPSetDefaultDisk (thread disknum logical : Z) (st : prcmgr) : C (Z * prcmgr) :=
  a ← PrcGetProcNative TaskEqual thread st;
  ok ← drive_exists disknum logical;
  if negb ok then Ret (ERROR_INVALID_DRIVE, st)
  else
    st ← modify a (fun p => with_dir p (s8 disknum) (curdir p)) st;
    Ret (NO_ERROR, st).

(** The size at [pcbBuf] and the buffer at [*pBuf]; [None] are null pointers.
    A size of 0 is not checked. *)
Definition CPQueryCurrentDir (thread disknum logical : Z) (pBuf : option (list Z))
    (pcbBuf : option Z) (st : prcmgr) : C (Z * option (list Z) * option Z) :=
  match pcbBuf, pBuf with
  | Some cb, Some buf =>
      a ← PrcGetProcNative TaskEqual thread st;
      p ← proc_at (procs st) a;
      let disk := if disknum =? 0 then u32 (curdisk p) else disknum in
      ok ← drive_exists disk logical;
      if negb ok then Ret (ERROR_INVALID_DRIVE, pBuf, pcbBuf)
      else
        d ← cstr (curdir p);
        let len := Z.of_nat (length d) + 1 in
        if negb (cb =? 0) && (cb <? len) then Ret (ERROR_BUFFER_OVERFLOW, pBuf, pcbBuf)
        else
          buf ← strcpy_at buf 0 d;
          Ret (NO_ERROR, Some buf, Some len)
  | _, _ => Ret (ERROR_INVALID_PARAMETER, pBuf, pcbBuf)
  end.

(** ** Identifiers and information *)

Definition CPGetPID (thread : Z) (st : prcmgr) : C (Z * Z) :=
  a ← PrcGetProcNative TaskEqual thread st;
  p ← proc_at (procs st) a;
  Ret (NO_ERROR, u32 (pid p)).

Definition CPGetTID (thread : Z) (st : prcmgr) : C (Z * Z) :=
  tid ← PrcGetTIDNative TaskEqual ThreadEqual thread st; Ret (NO_ERROR, tid).

Definition CPGetNativeID (id tid : Z) (st : prcmgr) : C (Z * Z) :=
  t ← PrcGetNativeID id tid st; Ret (NO_ERROR, t).

(** The array at [*arCP], in words; [cb] is the size in bytes at [cb]. *)
Definition CPQueryCp (cb : Z) (arCP : list Z) : C (Z * Z * list Z) :=
  if cb <? 12 then Ret (ERROR_CPLIST_TOO_SMALL, cb, arCP)
  else
    _ ← require (3 <=? Z.of_nat (length arCP));
    Ret (NO_ERROR, 12, <[0%nat := 437]> (<[1%nat := 437]> (<[2%nat := 850]> arCP))).

(** The addresses in the block are made relative to its beginning, in place;
    the region is then shared ([share] is the answer of the region mapper and
    the dataspace manager). *)
Definition CPGetPIB (share : Z -> Z) (thread : Z) (st : prcmgr) : C (Z * prcmgr) :=
  a ← PrcGetProcNative TaskEqual thread st;
  p ← proc_at (procs st) a;
  let base := lx_pib p in
  cmd ← ld32 (pmem st) (base + pib_pchcmd);
  s ← st32 (pmem st) (base + pib_pchcmd) (u32 (cmd - base));
  env ← ld32 s (base + pib_pchenv);
  s ← st32 s (base + pib_pchenv) (u32 (env - base));
  Ret (share base, set_pmem st s).

Definition CPGetTIB (share : Z -> Z) (thread : Z) (st : prcmgr) : C (Z * prcmgr) :=
  a ← PrcGetProcNative TaskEqual thread st;
  p ← proc_at (procs st) a;
  tid ← PrcGetTIDNative TaskEqual ThreadEqual thread st;
  base ← tid_get (tib_array p) tid;
  t2 ← ld32 (pmem st) (base + tib_ptib2);
  s ← st32 (pmem st) (base + tib_ptib2) (u32 (t2 - base));
  Ret (share base, set_pmem st s).

(** ** The end of a process *)

Definition CPExit (thread action result : Z) (st : prcmgr) : C (Z * prcmgr) :=
  a ← PrcGetProcNative TaskEqual thread st;
  p ← proc_at (procs st) a;
  ppid ← ld32 (pmem st) (lx_pib p + pib_ulppid);
  parent ← PrcGetProc ppid st;
  if parent =? 0 then Ret (ERROR_FILE_NOT_FOUND, st)
  else
    st ← modify parent (fun q => with_code q (exec_sync q) result) st;
    q ← proc_at (procs st) parent;
    st ← (if negb (exec_sync q =? 0) && (negb (ppid =? 0) || ThreadEqual (task q) sysinit_id)
          then modify parent (fun q => with_sems q (startup_sem q) (term_sem q + 1)) st
          else Ret st);
    st ← PrcDestroy detach a st;
    Ret (NO_ERROR, st).

(** ** Waiting for a child ([CPExecPgmWorker])

    The worker thread of the parent at [b] after [PrcExecuteModule] has
    returned [rc].  It runs between the calls of other threads, so each access
    that the others can see is a step; a step on a semaphore that is 0 blocks. *)
Inductive worker_pc :=
  | W_startup
  | W_started
  | W_term
  | W_end
  | W_done (codeResult : Z).

Definition worker (rc execFlag b : Z) (pc : worker_pc) (st : prcmgr)
    : C (option (worker_pc * prcmgr)) :=
  p ← proc_at (procs st) b;
  match pc with
  | W_startup =>
      if negb (rc =? NO_ERROR) then Ret (Some (W_started, st))
      else if startup_sem p =? 0 then Ret None
      else
        st ← modify b (fun p => with_sems p (startup_sem p - 1) (term_sem p)) st;
        Ret (Some (W_started, st))
  | W_started =>
      if execFlag =? EXEC_SYNC then
        st ← modify b (fun p => with_code p 1 (term_code p)) st;
        Ret (Some (if rc =? NO_ERROR then W_term else W_end, st))
      else Ret (Some (W_end, st))
  | W_term =>
      if term_sem p =? 0 then Ret None
      else
        st ← modify b (fun p => with_sems p (startup_sem p) (term_sem p - 1)) st;
        Ret (Some (W_end, st))
  | W_end =>
      st ← modify b (fun p => with_code p 0 (term_code p)) st;
      Ret (Some (W_done (term_code p), st))
  | W_done _ => Ret None
  end.

(** The worker of [b] and its child, whose thread is [thread]. *)
Inductive exec_step (rc execFlag b thread : Z) : worker_pc * prcmgr -> worker_pc * prcmgr -> Prop :=
  | exec_worker pc st s : worker rc execFlag b pc st = Ret (Some s) ->
      exec_step rc execFlag b thread (pc, st) s
  | exec_notify pc st st' : CPAppNotify1 TaskEqual thread st = Ret st' ->
      exec_step rc execFlag b thread (pc, st) (pc, st')
  | exec_exit pc action result rc' st st' : CPExit thread action result st = Ret (rc', st') ->
      exec_step rc execFlag b thread (pc, st) (pc, st').

End api.

(** ** The current directory: proofs

    A directory is the list of its components; the buffer holds them joined
    with backslashes. *)
Fixpoint joins (cs : list (list Z)) : list Z :=
  match cs with
  | [] => []
  | [c] => c
  | c :: cs => c ++ backslash :: joins cs
  end.

(** One component of a path, followed from the directory [D]. *)
Definition walk (D : list (list Z)) (c : list Z) : list (list Z) :=
  if bool_decide (c = bstr "..") then removelast D
  else if bool_decide (c = bstr ".") then D
  else D ++ [c].

Definition component_ok (c : list Z) : Prop := text c /\ backslash ∉ c.
Definition dir_ok (D : list (list Z)) : Prop :=
  Forall component_ok D /\ (D = [] \/ exists c D', D = c :: D' /\ c <> []).

Lemma joins_snoc D c : D <> [] -> joins (D ++ [c]) = joins D ++ backslash :: c.
Proof.
  induction D as [|x D IH]; [done|]. intros _. destruct D as [|y D]; [done|].
  change (x ++ backslash :: joins ((y :: D) ++ [c]) = (x ++ backslash :: joins (y :: D)) ++ backslash :: c).
  rewrite IH by done. by rewrite <- app_assoc.
Qed.

Lemma joins_text D : Forall component_ok D -> text (joins D).
Proof.
  induction 1 as [|c D [Hc _] HD IH]; [constructor|]. destruct D as [|y D]; [done|].
  change (text (c ++ backslash :: joins (y :: D))). apply text_app. split; [done|].
  constructor; [unfold backslash, ch; cbn; lia|done].
Qed.

Lemma joins_empty D : dir_ok D -> joins D = [] -> D = [].
Proof.
  intros [_ [->|(c & D' & -> & Hc)]]; [done|]. destruct c as [|x c]; [done|]. by destruct D'.
Qed.

Definition buffer_ok (b : list Z) : Prop := length b = 256%nat /\ Forall is_byte b.

Lemma strcat_holds b d s : buffer_ok b -> holds_str b d -> text s ->
  (length d + length s < 256)%nat ->
  exists b', strcat_at b s = Ret b' /\ buffer_ok b' /\ holds_str b' (d ++ s).
Proof.
  intros [Hl Hb] Hd Hs Hlen. unfold strcat_at. rewrite (holds_cstr _ _ Hd). cbn [mbind C_bind].
  destruct Hd as [Hd [r ->]]. rewrite length_app in Hl. cbn [length] in Hl.
  apply Forall_app in Hb as [Hb1 Hb2]. set (t := 0 :: r) in *.
  assert (Ht : length t = S (length r)) by done.
  rewrite <- (take_drop (S (length s)) t). unfold strcpy_at.
  rewrite (wr_bytes_pre (s ++ [0]) d (take (S (length s)) t) (drop (S (length s)) t)).
  - eexists. split; [done|]. split; [split|].
    + rewrite !length_app, length_drop. cbn [length]. lia.
    + apply Forall_app. split; [done|]. apply Forall_app. split; [|by apply Forall_drop].
      apply Forall_app. split; [by apply text_bytes|]. apply Forall_singleton. unfold is_byte. lia.
    + split; [by apply text_app|]. eexists. by rewrite <- !app_assoc.
  - done.
  - rewrite length_app, length_take. cbn [length]. lia.
  - apply Forall_app. split; [by apply text_bytes|]. apply Forall_singleton. unfold is_byte. lia.
Qed.

Lemma back_to_sep_found i : forall n b, (i <= n)%nat -> b !! i = Some backslash ->
  (forall k, (i < k <= n)%nat -> exists c, b !! k = Some c /\ c <> backslash) ->
  back_to_sep n b = Ret (Z.of_nat i).
Proof.
  induction n as [|n IH]; intros b Hi Eb Hk; cbn [back_to_sep]; rewrite rd8_nat.
  - replace i with 0%nat in * by lia. rewrite Eb. done.
  - destruct (Nat.eq_dec i (S n)) as [->|Hne].
    + rewrite Eb. cbn [need mbind C_bind]. by rewrite Z.eqb_refl.
    + destruct (Hk (S n)) as (c & -> & Hc); [lia|]. cbn [need mbind C_bind].
      destruct (Z.eqb_spec c backslash); [done|]. apply IH; [lia|done|]. intros k Hk'. apply Hk. lia.
Qed.

Lemma back_to_sep_none : forall n b,
  (forall k, (k <= n)%nat -> exists c, b !! k = Some c /\ c <> backslash) ->
  back_to_sep n b = Ret 0.
Proof.
  induction n as [|n IH]; intros b Hk; cbn [back_to_sep]; rewrite rd8_nat.
  - destruct (Hk 0%nat) as (c & -> & Hc); [lia|]. cbn [need mbind C_bind].
    by destruct (Z.eqb_spec c backslash).
  - destruct (Hk (S n)) as (c & -> & Hc); [lia|]. cbn [need mbind C_bind].
    destruct (Z.eqb_spec c backslash); [done|]. apply IH. intros k Hk'. apply Hk. lia.
Qed.

(** Neither the component nor the terminator is a backslash. *)
Lemma no_sep_lookup u v r k : backslash ∉ v -> (length u <= k <= length (u ++ v))%nat ->
  exists c, ((u ++ v) ++ 0 :: r) !! k = Some c /\ c <> backslash.
Proof.
  intros Hv Hk. rewrite length_app in Hk. rewrite <- app_assoc, lookup_app_r by lia.
  destruct (decide (k - length u < length v)%nat) as [Hlt|Hge].
  - rewrite lookup_app_l by done. destruct (lookup_lt_is_Some_2 v (k - length u)) as [c Hc]; [done|].
    exists c. split; [done|]. intros ->. apply Hv. by eapply list_elem_of_lookup_2.
  - rewrite lookup_app_r by lia. replace (k - length u - length v)%nat with 0%nat by lia.
    exists 0. split; [done|]. unfold backslash, ch. cbn. lia.
Qed.

(** The last component is cut off. *)
Lemma cut_last b D c : buffer_ok b -> holds_str b (joins (D ++ [c])) -> component_ok c ->
  exists b', (p ← back_to_sep (length (joins (D ++ [c]))) b; wr8 b p 0) = Ret b' /\
    buffer_ok b' /\ holds_str b' (joins D).
Proof.
  intros [Hl Hb] [Ht [r ->]] [Hc Hn].
  assert (Hcut : forall u x t, u ++ x :: t = joins (D ++ [c]) ++ 0 :: r -> text u ->
    exists b', wr8 (u ++ x :: t) (Z.of_nat (length u)) 0 = Ret b' /\ buffer_ok b' /\
      holds_str b' u).
  { intros u x t E Hu. rewrite wr8_pre by done. eexists. split; [done|]. rewrite <- E in Hl, Hb.
    apply Forall_app in Hb as [Hb1 Hb2]. inversion_clear Hb2. split; [split|].
    - rewrite length_app in *. exact Hl.
    - apply Forall_app. split; [done|]. constructor; [apply u8_byte|done].
    - split; [done|]. by exists t. }
  destruct (decide (D = [])) as [->|Hne].
  - cbn [app joins] in *. rewrite back_to_sep_none.
    + cbn [mbind C_bind]. destruct c as [|x c].
      * apply (Hcut [] 0 r); [done|constructor].
      * apply (Hcut [] x (c ++ 0 :: r)); [done|constructor].
    + intros k Hk. apply (no_sep_lookup [] c r k Hn). cbn. lia.
  - rewrite joins_snoc in * by done. rewrite (back_to_sep_found (length (joins D))).
    + cbn [mbind C_bind]. rewrite <- app_assoc. cbn [app].
      apply Hcut; [by rewrite <- app_assoc|]. by apply text_app in Ht as [? _].
    + rewrite length_app. lia.
    + rewrite <- app_assoc, lookup_app_r, Nat.sub_diag by lia. done.
    + intros k Hk. assert (Es : joins D ++ backslash :: c = (joins D ++ [backslash]) ++ c)
        by (by rewrite <- app_assoc).
      rewrite Es in *. apply no_sep_lookup; [done|]. rewrite !length_app in *. cbn [length] in *. lia.
Qed.

(** One component is followed as the reference does. *)
Lemma cdir_walk b D c : buffer_ok b -> holds_str b (joins D) -> dir_ok D -> component_ok c ->
  c <> [] \/ D <> [] -> (length (joins D) + length c + 1 < 256)%nat ->
  exists b', cdir b c = Ret b' /\ buffer_ok b' /\ holds_str b' (joins (walk D c)) /\
    dir_ok (walk D c) /\ (length (joins (walk D c)) <= length (joins D) + 1 + length c)%nat.
Proof.
  intros Hb Hd HD Hc Hne Hlen. unfold cdir, walk.
  assert (E0 : rd8 b 0 = Ret (hd 0 (joins D))).
  { destruct Hd as [_ [r ->]]. by destruct (joins D). }
  assert (Et : hd 0 (joins D) = 0 <-> D = []).
  { split; [|by intros ->]. intros E. apply joins_empty; [done|].
    destruct Hd as [Hd _]. destruct (joins D) as [|x s]; [done|]. cbn in E. inversion Hd; lia. }
  destruct (bool_decide_reflect (c = bstr "..")) as [_|Hdd].
  { rewrite E0. cbn [mbind C_bind]. destruct (Z.eqb_spec (hd 0 (joins D)) 0) as [E|E].
    - apply Et in E as ->. exists b. split_and!; [done|exact Hb|exact Hd|split; [constructor|by left]|cbn; lia].
    - destruct (decide (D = [])) as [->|HDne]; [done|]. destruct (exists_last HDne) as (D0 & x & ->).
      rewrite removelast_last. rewrite (holds_cstr _ _ Hd). cbn [mbind C_bind].
      destruct HD as [HD1 HD2]. apply Forall_app in HD1 as [HD1 Hx].
      apply Forall_cons in Hx as [Hx _]. destruct (cut_last b D0 x Hb Hd Hx) as (b' & E' & Hb' & Hd').
      exists b'. split_and!; [done|exact Hb'|exact Hd'| |].
      + split; [done|]. destruct HD2 as [?|(y & D' & Ey & Hy)]; [by destruct D0|]. destruct D0 as [|z D0]; [by left|].
        right. injection Ey as -> _. by exists y, D0.
      + destruct (decide (D0 = [])) as [->|]; [cbn; lia|]. rewrite joins_snoc, length_app by done. lia. }
  destruct (bool_decide_reflect (c = bstr ".")) as [_|Hdot].
  { exists b. split_and!; [done|exact Hb|exact Hd|exact HD|lia]. }
  assert (Hcs : match c with x :: _ => x =? backslash | [] => false end = false).
  { destruct c as [|x c]; [done|]. apply Z.eqb_neq. intros ->. destruct Hc as [_ Hc]. apply Hc. by left. }
  rewrite Hcs, E0. cbn [mbind C_bind]. destruct HD as [HD1 HD2].
  assert (HD1' : Forall component_ok (D ++ [c])) by (apply Forall_app; split; [done|by apply Forall_singleton]).
  destruct (Z.eqb_spec (hd 0 (joins D)) 0) as [E|E].
  - apply Et in E as ->. cbn [mbind C_bind app joins].
    destruct (strcat_holds b [] c Hb Hd) as (b' & E' & Hb' & Hd'); [apply Hc|cbn in *; lia|].
    exists b'. split_and!; [done|exact Hb'|exact Hd'| |cbn; lia].
    split; [done|]. right. exists c, []. split; [done|]. by destruct Hne.
  - destruct (decide (D = [])) as [->|HDne]; [done|].
    assert (Hbs : text [backslash]) by (by apply text_check).
    destruct (strcat_holds b (joins D) [backslash] Hb Hd Hbs) as (b1 & E1 & Hb1 & Hd1); [cbn; lia|].
    rewrite E1. cbn [mbind C_bind].
    destruct (strcat_holds b1 _ c Hb1 Hd1) as (b' & E' & Hb' & Hd'); [apply Hc|rewrite length_app; cbn; lia|].
    rewrite <- app_assoc in Hd'. cbn [app] in Hd'. rewrite <- joins_snoc in Hd' by done.
    exists b'. split_and!; [done|exact Hb'|exact Hd'| |].
    + split; [done|]. destruct HD2 as [?|(y & D' & -> & Hy)]; [done|]. right. by exists y, (D' ++ [c]).
    + rewrite joins_snoc, length_app by done. cbn [length]. lia.
Qed.

Lemma find_sep_none c : backslash ∉ c -> find_sep c = None.
Proof.
  induction c as [|x c IH]; [done|]. intros [Hx Hc]%not_elem_of_cons. cbn [find_sep].
  destruct (Z.eqb_spec x backslash); [congruence|]. by rewrite IH.
Qed.

Lemma find_sep_some c r : backslash ∉ c -> find_sep (c ++ backslash :: r) = Some (length c).
Proof.
  induction c as [|x c IH]; cbn [app find_sep]; [by rewrite Z.eqb_refl|].
  intros [Hx Hc]%not_elem_of_cons. destruct (Z.eqb_spec x backslash); [congruence|]. by rewrite IH.
Qed.

Lemma joins_length_cons c cs : cs <> [] ->
  length (joins (c :: cs)) = (length c + 1 + length (joins cs))%nat.
Proof. destruct cs as [|d cs]; [done|]. intros _. cbn [joins]. rewrite length_app. cbn [length]. lia. Qed.

(** The loop follows the components one after the other. *)
Lemma dir_loop_walk cs : forall fuel b D, cs <> [] -> (length cs <= fuel)%nat ->
  buffer_ok b -> holds_str b (joins D) -> dir_ok D -> Forall component_ok cs ->
  Forall (fun c => c <> []) (tail cs) -> hd [] cs <> [] \/ D <> [] ->
  (length (joins D) + length (joins cs) + 1 < 256)%nat ->
  exists b', dir_loop fuel (joins cs) b = Ret b' /\ buffer_ok b' /\
    holds_str b' (joins (foldl walk D cs)).
Proof.
  induction cs as [|c cs IH]; [done|]. intros [|fuel] b D _ Hf Hb Hd HD Hcs Htl Hne Hlen;
    [cbn in Hf; lia|]. inversion_clear Hcs as [|? ? Hc Hcs']. cbn [hd tail] in *.
  assert (Hlc : (length c <= length (joins (c :: cs)))%nat).
  { destruct cs; [done|]. rewrite joins_length_cons by done. lia. }
  destruct (cdir_walk b D c Hb Hd HD Hc Hne) as (b1 & E1 & Hb1 & Hd1 & HD1 & Hl1); [lia|].
  cbn [dir_loop]. destruct cs as [|c2 cs].
  - cbn [joins] in *. rewrite find_sep_none by apply Hc. unfold require.
    destruct (Z.ltb_spec (Z.of_nat (length c)) 256); [|lia]. cbn [mbind C_bind].
    exists b1. by split_and!.
  - change (joins (c :: c2 :: cs)) with (c ++ backslash :: joins (c2 :: cs)).
    rewrite joins_length_cons in * by done. rewrite find_sep_some by apply Hc. unfold require.
    destruct (Z.ltb_spec (Z.of_nat (length c)) 256); [|lia]. cbn [mbind C_bind].
    rewrite take_app_length. rewrite E1. cbn [mbind C_bind].
    change (S (length c)) with (1 + length c)%nat. rewrite Nat.add_comm.
    rewrite <- drop_drop, drop_app_length. change (drop 1 (backslash :: joins (c2 :: cs)))
      with (joins (c2 :: cs)).
    inversion_clear Htl as [|? ? Hc2 Htl']. cbn [length] in Hf.
    apply (IH fuel b1 (walk D c)); [done|cbn; lia|done|done|done|done|done|by left|lia].
Qed.

Section directories.
Context (TaskEqual : Z -> Z -> bool).
Context (thread : Z) (st : prcmgr) (a : Z) (p : t_os2process) (D : list (list Z)).
Context (Ha : PrcGetProcNative TaskEqual thread st = Ret a) (Ha0 : a <> 0).
Context (Hp : procs st !! a = Some p) (Hb : buffer_ok (curdir p)).
Context (HD : dir_ok D) (Hd : holds_str (curdir p) (joins D)).

Lemma set_dir_loop d cs : unslash <$> d = joins cs -> cs <> [] -> Forall component_ok cs ->
  Forall (fun c => c <> []) (tail cs) -> hd [] cs <> [] \/ D <> [] -> joins cs <> [backslash] ->
  (length (joins D) + length d + 1 < 256)%nat ->
  exists b, CPSetCurrentDir TaskEqual thread (Some d) st =
      Ret (NO_ERROR, set_procs st (<[a := with_dir p (curdisk p) b]> (procs st))) /\
    holds_str b (joins (foldl walk D cs)).
Proof.
  intros Hu Hne Hcs Htl Hhd Hroot Hlen. unfold CPSetCurrentDir. rewrite Ha. cbn [mbind C_bind].
  destruct (Z.eqb_spec a 0); [done|]. rewrite (proc_at_ok _ a p) by done. cbn [mbind C_bind].
  rewrite Hu, bool_decide_false by done.
  assert (El : length (joins cs) = length d) by (by rewrite <- Hu, length_fmap).
  assert (Hf : (length cs <= S (length (joins cs)))%nat).
  { clear. induction cs as [|c [|c2 cs] IH]; [cbn; lia|cbn; lia|].
    rewrite joins_length_cons by done. cbn [length] in *. lia. }
  destruct (dir_loop_walk cs (S (length (joins cs))) (curdir p) D) as (b & E & _ & Hb');
    [done|done|done|done|done|done|done|done|lia|].
  rewrite E. cbn [mbind C_bind]. rewrite (modify_ok a _ _ p) by done. by exists b.
Qed.
End directories.

(** C17: Setting the current directory to a relative path (with slashes or
    backslashes, ".." and "." among its components) follows its components from
    the present one: [CPSetCurrentDir] on the buffer is [walk] on lists. *)
Theorem set_current_dir_spec TaskEqual thread st a p D d cs :
  PrcGetProcNative TaskEqual thread st = Ret a -> a <> 0 -> procs st !! a = Some p ->
  buffer_ok (curdir p) -> dir_ok D -> holds_str (curdir p) (joins D) ->
  unslash <$> d = joins cs -> cs <> [] -> Forall component_ok cs -> Forall (fun c => c <> []) cs ->
  (length (joins D) + length d + 1 < 256)%nat ->
  exists b, CPSetCurrentDir TaskEqual thread (Some d) st =
      Ret (NO_ERROR, set_procs st (<[a := with_dir p (curdisk p) b]> (procs st))) /\
    holds_str b (joins (foldl walk D cs)).
Proof.
  intros Ha Ha0 Hp Hb HD Hd Hu Hne Hcs Hce Hlen.
  apply (set_dir_loop _ _ _ a p D Ha Ha0 Hp Hb HD Hd d cs Hu Hne Hcs); [| | |done].
  - destruct cs; [done|]. by inversion_clear Hce.
  - left. destruct cs as [|c cs]; [done|]. by inversion_clear Hce.
  - intros E. destruct cs as [|c [|c2 cs]]; [done| |].
    + cbn in E. subst c. inversion_clear Hcs as [|? ? [_ Hc] _]. apply Hc. by left.
    + inversion_clear Hce as [|? ? Hc _]. destruct c as [|x c]; [done|]. cbn in E.
      injection E as _ E. by destruct c.
Qed.

(** A path that begins with a backslash is not taken from the root, unless
    the current directory is the root: it is appended to the current directory,
    with two backslashes between them. *)
Theorem absolute_dir_appended TaskEqual thread st a p D d cs :
  PrcGetProcNative TaskEqual thread st = Ret a -> a <> 0 -> procs st !! a = Some p ->
  buffer_ok (curdir p) -> dir_ok D -> D <> [] -> holds_str (curdir p) (joins D) ->
  unslash <$> d = backslash :: joins cs -> cs <> [] -> Forall component_ok cs ->
  Forall (fun c => c <> []) cs -> bstr ".." ∉ cs -> bstr "." ∉ cs ->
  (length (joins D) + length d + 1 < 256)%nat ->
  exists b, CPSetCurrentDir TaskEqual thread (Some d) st =
      Ret (NO_ERROR, set_procs st (<[a := with_dir p (curdisk p) b]> (procs st))) /\
    holds_str b (joins D ++ [backslash; backslash] ++ joins cs).
Proof.
  intros Ha Ha0 Hp Hb HD HDne Hd Hu Hne Hcs Hce Hdd Hdot Hlen.
  assert (Ej : joins ([] :: cs) = backslash :: joins cs) by (by destruct cs).
  rewrite <- Ej in Hu.
  destruct (set_dir_loop TaskEqual thread st a p D Ha Ha0 Hp Hb HD Hd d ([] :: cs) Hu) as (b & E & H).
  - done.
  - constructor; [split; [constructor|by intros ?%elem_of_nil]|done].
  - done.
  - by right.
  - rewrite Ej. intros E. destruct cs as [|c cs]; [done|]. inversion_clear Hce as [|? ? Hc _].
    injection E as E. destruct c as [|x c]; [done|]. by destruct cs.
  - done.
  - exists b. split; [exact E|]. cbn [foldl] in H.
    assert (Ew : forall D' l, bstr ".." ∉ l -> bstr "." ∉ l -> foldl walk D' l = D' ++ l).
    { intros D' l. revert D'. induction l as [|c l IH]; intros D' H1 H2; [by rewrite app_nil_r|].
      apply not_elem_of_cons in H1 as [H1 H1'], H2 as [H2 H2']. cbn [foldl]. unfold walk at 2.
      rewrite !bool_decide_false by congruence. rewrite IH by done. by rewrite <- app_assoc. }
    change (walk D []) with (D ++ [[]]) in H. rewrite Ew in H by done.
    clear -H HDne Hne. revert H. rewrite <- app_assoc. cbn [app]. 
    assert (Ea : forall X Y, X <> [] -> Y <> [] -> joins (X ++ Y) = joins X ++ backslash :: joins Y).
    { intros X Y HX HY. induction X as [|x X IH]; [done|]. destruct X as [|x2 X]; [by destruct Y|].
      change (x ++ backslash :: joins ((x2 :: X) ++ Y) = (x ++ backslash :: joins (x2 :: X)) ++ backslash :: joins Y).
      rewrite IH by done. by rewrite <- app_assoc. }
    rewrite Ea by done. by destruct cs.
Qed.

(** ** The end of a process and its parent: proofs *)

Lemma unlinked_links o p : unlinked <$> o = Some (unlinked p) ->
  exists n v, o = Some (with_links p n v).
Proof.
  destruct o as [q|]; [|done]. destruct p, q. cbn.
  intros [= -> -> -> -> -> -> -> -> -> -> -> -> -> ->]. by eexists _, _.
Qed.

Lemma search_none test st L : well_formed st L ->
  (forall b p, procs st !! b = Some p -> test p = false) -> search_proc test st = Ret 0.
Proof.
  intros W Ht. unfold search_proc. destruct (Z.eqb_spec (proc_root st) 0); [done|].
  pose proof (wf_linked _ _ W) as H. apply (find_proc_none _ _ L _ 0); [|done| |].
  - intros ->. by cbn in H.
  - intros x q _. apply Ht.
  - apply linked_size in H; [lia|apply (wf_nodup _ _ W)].
Qed.

Section exit_proofs.
Context (TaskEqual ThreadEqual : Z -> Z -> bool) (detach : mem -> Z -> mem) (sysinit_id : Z).
Context (st : prcmgr) (L1 L2 : list Z) (a b : Z) (pa pb : t_os2process) (thread : Z).
(** The child [a], which is not the first process, is the one of the thread;
    its parent is [b]. *)
Context (W : well_formed st (L1 ++ a :: L2)) (HL1 : L1 <> []).
Context (Ea : procs st !! a = Some pa) (Eb : procs st !! b = Some pb) (Hab : b <> a).
Context (Hthread : PrcGetProcNative TaskEqual thread st = Ret a).
Context (Honly : forall c q, c <> a -> procs st !! c = Some q -> TaskEqual (task q) thread = false).
Context (Hppid : ld32 (pmem st) (lx_pib pa + pib_ulppid) = Ret (pid pb)).

Abbreviation exit := (CPExit TaskEqual ThreadEqual detach sysinit_id thread).

Definition wakes : bool :=
  negb (exec_sync pb =? 0) && (negb (pid pb =? 0) || ThreadEqual (task pb) sysinit_id).
Definition parent_after (result : Z) : t_os2process :=
  with_sems (with_code pb (exec_sync pb) result) (startup_sem pb)
    (if wakes then term_sem pb + 1 else term_sem pb).

(** No process gets another task. *)
Definition same_tasks (st1 st2 : prcmgr) : Prop :=
  forall c q, procs st2 !! c = Some q -> exists q0, procs st1 !! c = Some q0 /\ task q = task q0.

Lemma exit_destroy p' st1 : well_formed st1 (L1 ++ a :: L2) ->
  procs st1 = <[b := p']> (procs st) -> task p' = task pb ->
  exists st2, PrcDestroy detach a st1 = Ret st2 /\ well_formed st2 (L1 ++ L2) /\
    procs st2 !! a = None /\ same_tasks st st2 /\
    exists n v, procs st2 !! b = Some (with_links p' n v).
Proof.
  intros W1 Ep Et. destruct (exists_last HL1) as (L0 & l & E). rewrite E in *.
  destruct (destroy_spec detach st1 L0 l a L2 W1) as (st2 & E2 & W2 & _ & Ea2 & U).
  exists st2. split_and!; [done|done|done| |].
  - intros c q Ec. assert (Hca : c <> a) by (intros ->; congruence). specialize (U c Hca).
    rewrite Ec, Ep, lookup_insert in U. case_decide as Hbc.
    + subst. apply (unlinked_links (Some q) p') in U as (n & v & [= ->]). by exists pb.
    + destruct (procs st !! c) as [q0|]; [|done].
      apply (unlinked_links (Some q) q0) in U as (n & v & [= ->]). by exists q0.
  - specialize (U b Hab). rewrite Ep, lookup_insert_eq in U. by apply unlinked_links in U.
Qed.

(** The exit of the child: its code is stored in the parent, which is woken up
    if it is waiting. *)
Lemma exit_spec action result : exists st',
  exit action result st = Ret (NO_ERROR, st') /\ well_formed st' (L1 ++ L2) /\
  procs st' !! a = None /\ same_tasks st st' /\
  exists n v, procs st' !! b = Some (with_links (parent_after result) n v).
Proof.
  assert (Hb0 : b <> 0).
  { apply (linked_dom _ _ _ _ _ (wf_linked _ _ W)). apply (wf_dom _ _ W). by exists pb. }
  assert (Ha0 : a <> 0).
  { apply (linked_dom _ _ _ _ _ (wf_linked _ _ W)). apply (wf_dom _ _ W). by exists pa. }
  assert (Hget : PrcGetProc (pid pb) st = Ret b).
  { eapply get_proc_found; [exact W|apply (wf_dom _ _ W); by exists pb|done]. }
  unfold CPExit. rewrite Hthread. cbn [mbind C_bind]. rewrite (proc_at_ok _ a pa) by done.
  cbn [mbind C_bind]. rewrite Hppid. cbn [mbind C_bind]. rewrite Hget. cbn [mbind C_bind].
  destruct (Z.eqb_spec b 0); [done|].
  set (p1 := with_code pb (exec_sync pb) result).
  pose proof (modify_ok b (fun q => with_code q (exec_sync q) result) st pb Hb0 Eb) as M1.
  rewrite M1. cbn [mbind C_bind]. fold p1 in M1 |- *.
  set (st1 := set_procs st (<[b := p1]> (procs st))) in *.
  assert (Eb1 : procs st1 !! b = Some p1) by apply lookup_insert_eq.
  assert (W1 : well_formed st1 (L1 ++ a :: L2)) by (eapply modify_wf; [exact W|exact M1|done|done]).
  rewrite (proc_at_ok _ b p1) by done. cbn [mbind C_bind].
  change (exec_sync p1) with (exec_sync pb). change (task p1) with (task pb). fold wakes.
  assert (Hend : forall st2, well_formed st2 (L1 ++ a :: L2) ->
    procs st2 = <[b := parent_after result]> (procs st) -> exists st',
    (st ← PrcDestroy detach a st2; Ret (NO_ERROR, st)) = Ret (NO_ERROR, st') /\
    well_formed st' (L1 ++ L2) /\ procs st' !! a = None /\ same_tasks st st' /\
    exists n v, procs st' !! b = Some (with_links (parent_after result) n v)).
  { intros st2 W2 Ep2. destruct (exit_destroy _ _ W2 Ep2 eq_refl) as (st' & -> & H). by exists st'. }
  unfold parent_after in *. fold p1 in Hend |- *. destruct wakes.
  - pose proof (modify_ok b (fun q => with_sems q (startup_sem q) (term_sem q + 1)) st1 p1 Hb0 Eb1) as M2.
    rewrite M2. cbn [mbind C_bind]. apply Hend; [|cbn; by rewrite insert_insert_eq].
    eapply modify_wf; [exact W1|exact M2|done|done].
  - cbn [mbind C_bind]. apply Hend; [done|done].
Qed.

(** The thread of the child is not known any more. *)
Lemma exit_thread st' L : well_formed st' L -> procs st' !! a = None -> same_tasks st st' ->
  PrcGetProcNative TaskEqual thread st' = Ret 0.
Proof.
  intros W' Ha H. eapply search_none; [exact W'|]. intros c q Ec.
  assert (Hca : c <> a) by (intros ->; congruence).
  destruct (H c q Ec) as (q0 & E0 & ->). by apply Honly with c.
Qed.

Lemma parent_pos st' L q : well_formed st' L -> procs st' !! b = Some q -> b <> 0.
Proof.
  intros W' E. apply (linked_dom _ _ _ _ _ (wf_linked _ _ W')). apply (wf_dom _ _ W').
  by exists q.
Qed.
End exit_proofs.

(** C23: When a parent waits for its child, the child's end lets it go on: the
    wait ends, the flag is cleared, and the parent's call returns the code that
    the child gave. *)
Theorem sync_exec_completes TaskEqual ThreadEqual detach sysinit_id st L1 L2 a b pa pb thread
    action result :
  well_formed st (L1 ++ a :: L2) -> L1 <> [] ->
  procs st !! a = Some pa -> procs st !! b = Some pb -> b <> a ->
  PrcGetProcNative TaskEqual thread st = Ret a ->
  ld32 (pmem st) (lx_pib pa + pib_ulppid) = Ret (pid pb) ->
  exec_sync pb <> 0 -> pid pb <> 0 \/ ThreadEqual (task pb) sysinit_id = true ->
  0 <= term_sem pb ->
  exists st1 st2 q,
    CPExit TaskEqual ThreadEqual detach sysinit_id thread action result st = Ret (NO_ERROR, st1) /\
    rtc (exec_step TaskEqual ThreadEqual detach sysinit_id NO_ERROR EXEC_SYNC b thread)
      (W_term, st) (W_done result, st2) /\
    procs st2 !! b = Some q /\ exec_sync q = 0 /\ term_sem q = term_sem pb.
Proof.
  intros W HL1 Ea Eb Hab Hth Hppid Hsync Hwake Hsem.
  destruct (exit_spec TaskEqual ThreadEqual detach sysinit_id st L1 L2 a b pa pb thread
    W HL1 Ea Eb Hab Hth Hppid action result) as (st1 & E & W1 & _ & _ & n & v & Eb1).
  assert (Hb0 : b <> 0).
  { apply (linked_dom _ _ _ _ _ (wf_linked _ _ W)). apply (wf_dom _ _ W). by exists pb. }
  assert (Hw : wakes ThreadEqual sysinit_id pb = true).
  { unfold wakes. destruct (Z.eqb_spec (exec_sync pb) 0); [done|].
    destruct Hwake as [H| ->]; [destruct (Z.eqb_spec (pid pb) 0); [done|]|]; [done|].
    by rewrite orb_true_r. }
  unfold parent_after in Eb1. rewrite Hw in Eb1.
  set (q1 := with_links _ n v) in Eb1.
  set (q2 := with_sems q1 (startup_sem q1) (term_sem q1 - 1)).
  set (q3 := with_code q2 0 (term_code q2)).
  pose (st1a := set_procs st1 (<[b := q2]> (procs st1))).
  pose (st2 := set_procs st1a (<[b := q3]> (procs st1a))).
  assert (Eb1a : procs st1a !! b = Some q2) by apply lookup_insert_eq.
  exists st1, st2, q3. split; [exact E|]. split.
  - apply rtc_l with (W_term, st1); [by eapply exec_exit|].
    apply rtc_l with (W_end, st1a); [|apply rtc_once].
    + apply exec_worker. unfold worker. rewrite (proc_at_ok _ b q1) by done. cbn [mbind C_bind].
      destruct (Z.eqb_spec (term_sem q1) 0) as [H0|_]; [cbn in H0; lia|].
      by rewrite (modify_ok b _ _ q1) by done.
    + apply exec_worker. unfold worker. rewrite (proc_at_ok _ b q2) by done. cbn [mbind C_bind].
      by rewrite (modify_ok b _ _ q2) by done.
  - split; [apply lookup_insert_eq|]. split; [done|]. cbn. lia.
Qed.

(** The flag that tells the end of a child to wake its parent is set only
    after the child has started.  A child that ends before is not noticed: the
    parent then waits, and no step of it or of the child is left. *)
Theorem exit_before_wait TaskEqual ThreadEqual detach sysinit_id st L1 L2 a b pa pb thread
    action result :
  well_formed st (L1 ++ a :: L2) -> L1 <> [] ->
  procs st !! a = Some pa -> procs st !! b = Some pb -> b <> a ->
  PrcGetProcNative TaskEqual thread st = Ret a ->
  (forall c q, c <> a -> procs st !! c = Some q -> TaskEqual (task q) thread = false) ->
  ld32 (pmem st) (lx_pib pa + pib_ulppid) = Ret (pid pb) ->
  exec_sync pb = 0 -> term_sem pb = 0 ->
  exists st1 st2,
    CPExit TaskEqual ThreadEqual detach sysinit_id thread action result st = Ret (NO_ERROR, st1) /\
    worker NO_ERROR EXEC_SYNC b W_started st1 = Ret (Some (W_term, st2)) /\
    forall s, ~ exec_step TaskEqual ThreadEqual detach sysinit_id NO_ERROR EXEC_SYNC b thread
      (W_term, st2) s.
Proof.
  intros W HL1 Ea Eb Hab Hth Honly Hppid Hsync Hsem.
  destruct (exit_spec TaskEqual ThreadEqual detach sysinit_id st L1 L2 a b pa pb thread
    W HL1 Ea Eb Hab Hth Hppid action result) as (st1 & E & W1 & Ha1 & Ht1 & n & v & Eb1).
  assert (Hw : wakes ThreadEqual sysinit_id pb = false) by (unfold wakes; by rewrite Hsync).
  unfold parent_after in Eb1. rewrite Hw in Eb1. set (q1 := with_links _ n v) in Eb1.
  pose proof (parent_pos b st1 _ q1 W1 Eb1) as Hb0.
  set (q2 := with_code q1 1 (term_code q1)).
  pose proof (modify_ok b (fun p => with_code p 1 (term_code p)) st1 q1 Hb0 Eb1) as M2.
  fold q2 in M2. set (st2 := set_procs st1 (<[b := q2]> (procs st1))) in M2.
  assert (Eb2 : procs st2 !! b = Some q2) by apply lookup_insert_eq.
  assert (W2 : well_formed st2 (L1 ++ L2)) by (eapply modify_wf; [exact W1|exact M2|done|done]).
  assert (Hno : PrcGetProcNative TaskEqual thread st2 = Ret 0).
  { eapply (exit_thread TaskEqual st a thread Honly st2); [exact W2|cbn; by rewrite lookup_insert_ne|].
    intros c q Ec. cbn in Ec. rewrite lookup_insert in Ec. case_decide; [subst|by apply Ht1].
    injection Ec as <-. by apply (Ht1 _ q1). }
  exists st1, st2. split; [exact E|]. split.
  - unfold worker. rewrite (proc_at_ok _ b q1) by done. cbn [mbind C_bind].
    change (EXEC_SYNC =? EXEC_SYNC) with true. cbv iota. rewrite M2. done.
  - intros s Hs. inversion Hs as [pc st' s' Hw'|pc st' st3 Hn|pc act res rc st' st3 He]; subst.
    + unfold worker in Hw'. rewrite (proc_at_ok _ b q2) in Hw' by done. cbn [mbind C_bind] in Hw'.
      change (term_sem q2) with (term_sem pb) in Hw'. by rewrite Hsem in Hw'.
    + unfold CPAppNotify1 in Hn. by rewrite Hno in Hn.
    + unfold CPExit in He. by rewrite Hno in He.
Qed.

(** ** Instances of the properties

    The second of two processes, whose directory is OS2, is the child of the
    first. *)
Lemma demo_buffer : buffer_ok (curdir (demo_proc 1 0 100)).
Proof. split; [reflexivity|by apply bytes_check]. Qed.

Lemma demo_dir_ok : dir_ok [bstr "OS2"].
Proof.
  split; [|right; by exists (bstr "OS2"), []]. apply Forall_singleton.
  split; [by apply text_check|]. apply (bool_decide_unpack _). vm_compute. exact I.
Qed.

Lemma components_check cs :
  forallb (fun c => forallb (fun x => (0 <? x) && (x <? 256) && negb (x =? backslash)) c) cs = true ->
  Forall component_ok cs.
Proof.
  rewrite forallb_forall. intros H. apply Forall_forall. intros c Hc%list_elem_of_In.
  apply H in Hc. rewrite forallb_forall in Hc. split.
  - apply Forall_forall. intros x Hx%list_elem_of_In. apply Hc in Hx. lia.
  - intros Hx%list_elem_of_In. apply Hc in Hx. rewrite Z.eqb_refl in Hx. lia.
Qed.

Lemma set_current_dir_spec_witness :
  exists b, CPSetCurrentDir Z.eqb 17 (Some (bstr "BIN/..\DLL")) demo_prc =
      Ret (NO_ERROR, set_procs demo_prc
        (<[200 := with_dir (demo_proc 1 0 100) 4 b]> (procs demo_prc))) /\
    holds_str b (bstr "OS2\DLL").
Proof.
  apply (set_current_dir_spec Z.eqb 17 demo_prc 200 (demo_proc 1 0 100) [bstr "OS2"]
    (bstr "BIN/..\DLL") [bstr "BIN"; bstr ".."; bstr "DLL"]).
  - vm_compute. reflexivity.
  - lia.
  - reflexivity.
  - apply demo_buffer.
  - apply demo_dir_ok.
  - exact demo_dir.
  - vm_compute. reflexivity.
  - done.
  - by apply components_check.
  - repeat constructor; done.
  - vm_compute. lia.
Defined.

Lemma absolute_dir_appended_witness :
  exists b, CPSetCurrentDir Z.eqb 17 (Some (bstr "\BIN")) demo_prc =
      Ret (NO_ERROR, set_procs demo_prc
        (<[200 := with_dir (demo_proc 1 0 100) 4 b]> (procs demo_prc))) /\
    holds_str b (bstr "OS2\\BIN").
Proof.
  apply (absolute_dir_appended Z.eqb 17 demo_prc 200 (demo_proc 1 0 100) [bstr "OS2"]
    (bstr "\BIN") [bstr "BIN"]).
  - vm_compute. reflexivity.
  - lia.
  - reflexivity.
  - apply demo_buffer.
  - apply demo_dir_ok.
  - done.
  - exact demo_dir.
  - vm_compute. reflexivity.
  - done.
  - by apply components_check.
  - repeat constructor; done.
  - apply (bool_decide_unpack _). vm_compute. exact I.
  - apply (bool_decide_unpack _). vm_compute. exact I.
  - vm_compute. lia.
Defined.

(** The parent with its flag; the block of the child names it. *)
Definition demo_parent (sync : Z) : t_os2process := with_code (demo_proc 0 200 0) sync 0.
Definition demo_family (sync : Z) : prcmgr :=
  set_pmem (set_procs demo_prc (<[100 := demo_parent sync]> (procs demo_prc)))
    (put_bytes 9000 (enc32 1 ++ enc32 0) ∅).

Lemma demo_family_wf sync : well_formed (demo_family sync) ([100] ++ 200 :: []).
Proof.
  apply set_pmem_wf.
  apply (modify_wf 100 (fun p => with_code p sync 0) demo_prc); [apply demo_wf|reflexivity|done|done].
Qed.

Lemma sync_exec_completes_witness :
  exists st, rtc (exec_step Z.eqb Z.eqb demo_detach 7 NO_ERROR EXEC_SYNC 100 17)
    (W_term, demo_family 1) (W_done 42, st).
Proof.
  destruct (sync_exec_completes Z.eqb Z.eqb demo_detach 7 (demo_family 1) [100] [] 200 100
    (demo_proc 1 0 100) (demo_parent 1) 17 0 42) as (st1 & st2 & q & _ & H & _).
  - apply demo_family_wf.
  - done.
  - reflexivity.
  - reflexivity.
  - lia.
  - vm_compute. reflexivity.
  - vm_compute. reflexivity.
  - cbn. lia.
  - by right.
  - cbn. lia.
  - by exists st2.
Defined.

Lemma exit_before_wait_witness :
  exists st2, forall s, ~ exec_step Z.eqb Z.eqb demo_detach 7 NO_ERROR EXEC_SYNC 100 17 (W_term, st2) s.
Proof.
  destruct (exit_before_wait Z.eqb Z.eqb demo_detach 7 (demo_family 0) [100] [] 200 100
    (demo_proc 1 0 100) (demo_parent 0) 17 0 42) as (st1 & st2 & _ & _ & H).
  - apply demo_family_wf.
  - done.
  - reflexivity.
  - reflexivity.
  - lia.
  - vm_compute. reflexivity.
  - intros c q Hc Eq. cbn [procs demo_family set_pmem set_procs] in Eq.
    rewrite lookup_insert in Eq. case_decide; [by injection Eq as <-|].
    apply demo_lookup in Eq as [[-> ->]|[-> ->]]; [reflexivity|done].
  - vm_compute. reflexivity.
  - reflexivity.
  - reflexivity.
  - exists st2. exact H.
Defined.
