(* ===== verification/FsRouter.v ===== *)
(** * Drives of the file server ([OS2/Server/shared/server/os2fs])

    The mount registry (mountreg.c, globals.c), the drive map (api/misc.c), and
    the conversion of an OS/2 path to the name the host knows (utility.c and
    [pathconv] of api/api.c, which uses the parts of a path of [PathSearch]).
    [malloc] is taken to succeed in [pathconv] and [init_globals]. *)
From S2P Require Import Prelude PathSearch.

(** ** The mount registry (mountreg.c) *)

(** [None] is the null pointer. *)
Record I_Fs_srv := mkSrv { mountpoint : option (list Z); drive : option (list Z) }.

Definition I_Fs_srv_init : I_Fs_srv := mkSrv None None.
Definition I_Fs_srv_init2 (strsrv drv : list Z) : I_Fs_srv := mkSrv (Some strsrv) (Some drv).

(** A cell of the array is [None] before it is written, and may hold a null
    pointer. *)
Record FSRouter := mkRouter {
  fs_srv_arr_ : list (option (option I_Fs_srv));
  max_drv : Z;
  srv_num_ : Z
}.

(** Without memory there are no cells. *)
Definition FSRouter_init (malloc_ok : bool) : FSRouter :=
  mkRouter (if malloc_ok then replicate 25 None else []) 24 0.

Definition FSRouter_add (s : FSRouter) (fs_srv_ : option I_Fs_srv) : C FSRouter :=
  let n := srv_num_ s in
  _ ← require ((0 <=? n) && (n <? Z.of_nat (length (fs_srv_arr_ s))));
  Ret (mkRouter (<[Z.to_nat n := Some fs_srv_]> (fs_srv_arr_ s)) (max_drv s) (n + 1)).

(** [drive[0]]. *)
Definition drive_char (fsrv : I_Fs_srv) : C Z :=
  d ← need (drive fsrv); rd8 (d ++ [0]) 0.

Fixpoint route_loop (arr : list (option (option I_Fs_srv))) (n : nat) (drv : Z)
    {struct n} : C (option I_Fs_srv) :=
  match n, arr with
  | O, _ => Ret None
  | S n, [] => Undef
  | S n, cell :: arr =>
      server_drv ← need cell;
      match server_drv with
      | Some s =>
          c ← drive_char s;
          if tolower c =? tolower drv then Ret (Some s) else route_loop arr n drv
      | None => route_loop arr n drv
      end
  end.

Definition FSRouter_route (s : FSRouter) (drv : Z) : C (option I_Fs_srv) :=
  route_loop (fs_srv_arr_ s) (Z.to_nat (srv_num_ s)) drv.

(** ** The drives of the system (globals.c) *)

Definition init_globals : C FSRouter :=
  s ← FSRouter_add (FSRouter_init true)
        (Some (I_Fs_srv_init2 (bstr "/file/system") (bstr "c:")));
  s ← FSRouter_add s (Some (I_Fs_srv_init2 (bstr "/") (bstr "d:")));
  FSRouter_add s (Some (I_Fs_srv_init2 (bstr "/file") (bstr "f:"))).

(** ** The drive map (api/misc.c) *)

Fixpoint map_loop (arr : list (option (option I_Fs_srv))) (n : nat) (map : Z)
    {struct n} : C Z :=
  match n, arr with
  | O, _ => Ret map
  | S n, [] => Undef
  | S n, cell :: arr =>
      p ← need cell;
      fsrv ← need p;
      c ← drive_char fsrv;
      let diskno := tolower c - ch "a"%char in
      _ ← require ((0 <=? diskno) && (diskno <? 31));
      map_loop arr n (Z.lor map (Z.shiftl 1 diskno))
  end.

Definition setdrivemap (s : FSRouter) : C Z :=
  map_loop (fs_srv_arr_ s) (Z.to_nat (srv_num_ s)) 0.

(** The static variable [drivemap] is [-1] until the map has been made. *)
Definition FSGetDriveMap (s : FSRouter) (drivemap : Z) : C (Z * Z) :=
  m ← (if drivemap =? u32 (-1) then setdrivemap s else Ret drivemap);
  Ret (NO_ERROR, m).

(** ** Names (utility.c) *)

Definition slash (c : Z) : Z := if c =? backslash then ch "/"%char else c.

(** Two passes over the string. *)
Definition DosNameConversion (pszName : list Z) : list Z := tolower <$> (slash <$> pszName).

(** ** Path conversion (api/api.c) *)

(** The return code and [*converted]. *)
Definition pathconv (fsrouter : FSRouter) (fname : list Z) : C (Z * option (list Z)) :=
  d ← get_drv fname;
  let drv := tolower d in
  if drv =? 0 then Ret (1, None)
  else
    directory ← get_directory fname;
    match directory with
    | None => Ret (1, None)
    | Some directory =>
        let name := DosNameConversion (get_name fname) in
        let directory := DosNameConversion directory in
        newdirectory ←
          (if (ch "c"%char <=? drv) && (drv <=? ch "z"%char) then
             fsrv ← FSRouter_route fsrouter drv;
             fsrv ← need fsrv;
             m ← need (mountpoint fsrv);
             Ret (m ++ directory)
           else Ret directory);
        Ret (0, Some (newdirectory ++ name))
    end.

(** ** The registry as a list of mounts *)

(** A drive letter and where it is mounted; the first entry for a letter
    counts. *)
Abbreviation mounts := (list (Z * list Z)).

Fixpoint mount_of (ms : mounts) (d : Z) : option (list Z) :=
  match ms with
  | [] => None
  | (l, m) :: ms => if tolower l =? tolower d then Some m else mount_of ms d
  end.

Definition cell_of (lm : Z * list Z) (cell : option (option I_Fs_srv)) : Prop :=
  exists tail, cell = Some (Some (mkSrv (Some lm.2) (Some (lm.1 :: tail)))).

(** The first cells of the array are the mounts, and the others are free. *)
Definition registry (r : FSRouter) (ms : mounts) : Prop :=
  exists free, srv_num_ r = Z.of_nat (length ms) /\
  exists used, fs_srv_arr_ r = used ++ free /\ Forall2 cell_of ms used /\
  (length (used ++ free) = 25)%nat.

Lemma drive_char_head m l tail : drive_char (mkSrv m (Some (l :: tail))) = Ret l.
Proof. reflexivity. Qed.

Lemma route_loop_spec ms used : Forall2 cell_of ms used -> forall rest d,
  exists s, route_loop (used ++ rest) (length ms) d = Ret s /\
  match mount_of ms d with
  | Some m => exists t, s = Some t /\ mountpoint t = Some m
  | None => s = None
  end.
Proof.
  induction 1 as [|[l m] cell ms used [tail ->] _ IH]; intros rest d; [by exists None|].
  cbn [app length route_loop need mbind C_bind mount_of fst snd].
  rewrite drive_char_head. cbn [mbind C_bind].
  destruct (tolower l =? tolower d); [|apply IH].
  eexists. split; [done|]. by eexists.
Qed.

Lemma route_spec r ms d : registry r ms ->
  exists s, FSRouter_route r d = Ret s /\
  match mount_of ms d with
  | Some m => exists t, s = Some t /\ mountpoint t = Some m
  | None => s = None
  end.
Proof.
  intros (free & Hn & used & Ha & Hf & _). unfold FSRouter_route.
  rewrite Ha, Hn, Nat2Z.id. by apply route_loop_spec.
Qed.

Lemma mount_of_app ms1 ms2 d : mount_of (ms1 ++ ms2) d =
  match mount_of ms1 d with Some m => Some m | None => mount_of ms2 d end.
Proof.
  induction ms1 as [|[l m] ms1 IH]; [done|]. cbn.
  destruct (tolower l =? tolower d); [done|apply IH].
Qed.

Lemma registry_init : registry (FSRouter_init true) [].
Proof. eexists. split; [done|]. by exists []. Qed.

Lemma registry_add r ms l tail m : registry r ms -> (length ms < 25)%nat ->
  exists r', FSRouter_add r (Some (I_Fs_srv_init2 m (l :: tail))) = Ret r' /\
  registry r' (ms ++ [(l, m)]).
Proof.
  intros (free & Hn & used & Ha & Hf & Hl) Hlen. pose proof (Forall2_length _ _ _ Hf) as Hu.
  unfold FSRouter_add. rewrite Hn, Ha, Nat2Z.id.
  assert ((0 <=? Z.of_nat (length ms)) && (Z.of_nat (length ms) <? Z.of_nat (length (used ++ free)))
    = true) as -> by (rewrite Hl; blia).
  cbn [require mbind C_bind]. eexists. split; [done|].
  destruct free as [|f free]; [rewrite app_nil_r in Hl; lia|].
  exists free. split; [cbn; rewrite length_app; cbn; lia|].
  exists (used ++ [Some (Some (I_Fs_srv_init2 m (l :: tail)))]). cbn [fs_srv_arr_]. split_and!.
  - rewrite insert_app_r_alt by lia. by rewrite <- Hu, Nat.sub_diag, <- app_assoc.
  - apply Forall2_app; [done|]. constructor; [by exists tail|done].
  - rewrite <- app_assoc. rewrite !length_app in *. cbn in *. lia.
Qed.

Lemma add_full r ms s : registry r ms -> length ms = 25%nat -> FSRouter_add r s = Undef.
Proof.
  intros (free & Hn & used & Ha & Hf & Hl) Hlen. unfold FSRouter_add.
  rewrite Hn, Ha, Hl, Hlen. done.
Qed.

(** The letter of a mount, in either case. *)
Definition is_letter (c : Z) : Prop := ch "a"%char <= tolower c <= ch "z"%char.

Definition drive_bit (i : Z) (lm : Z * list Z) : bool := tolower lm.1 - ch "a"%char =? i.

Lemma map_loop_spec ms used : Forall2 cell_of ms used -> Forall (fun lm => is_letter lm.1) ms ->
  forall rest m0, exists m, map_loop (used ++ rest) (length ms) m0 = Ret m /\
  forall i, 0 <= i -> Z.testbit m i = Z.testbit m0 i || existsb (drive_bit i) ms.
Proof.
  induction 1 as [|[l p] cell ms used [tail ->] _ IH]; intros Hl rest m0.
  { exists m0. split; [done|]. intros i _. by rewrite orb_false_r. }
  apply Forall_cons in Hl as [Hl Hls]. unfold is_letter in Hl. cbn [fst] in Hl.
  change (ch "a"%char) with 97 in *. change (ch "z"%char) with 122 in *.
  cbn [app length map_loop need mbind C_bind existsb fst snd].
  rewrite drive_char_head. cbn [mbind C_bind]. change (ch "a"%char) with 97.
  assert ((0 <=? tolower l - 97) && (tolower l - 97 <? 31) = true) as -> by blia.
  cbn [require mbind C_bind].
  destruct (IH Hls rest (Z.lor m0 (Z.shiftl 1 (tolower l - 97)))) as (m & -> & Hm).
  exists m. split; [done|]. intros i Hi. rewrite Hm, Z.lor_spec by done.
  rewrite <- orb_assoc. f_equal. f_equal. rewrite Z.shiftl_spec by done.
  unfold drive_bit. cbn [fst]. change (ch "a"%char) with 97.
  destruct (Z.eqb_spec (tolower l - 97) i) as [<-|Hne].
  - by rewrite Z.sub_diag.
  - destruct (Z.lt_ge_cases (i - (tolower l - 97)) 0); [by rewrite Z.testbit_neg_r|].
    apply Z.bits_above_log2; [lia|]. cbn. lia.
Qed.

Lemma tolower_letter i : 0 <= i < 26 -> tolower (ch "a"%char + i) = ch "a"%char + i.
Proof.
  intros Hi. unfold tolower. change (ch "a"%char) with 97.
  destruct (Z.leb_spec 65 (97 + i)), (Z.leb_spec (97 + i) 90); cbn; lia.
Qed.

Lemma drive_bit_mount ms i : 0 <= i < 26 ->
  existsb (drive_bit i) ms = bool_decide (is_Some (mount_of ms (ch "a"%char + i))).
Proof.
  intros Hi. induction ms as [|[l m] ms IH]; [done|]. cbn [existsb mount_of].
  rewrite (tolower_letter i) by done. unfold drive_bit at 1. cbn [fst].
  change (ch "a"%char) with 97 in *.
  destruct (Z.eqb_spec (tolower l - 97) i), (Z.eqb_spec (tolower l) (97 + i)); try lia; [|done].
  symmetry. by apply bool_decide_eq_true_2.
Qed.

(** A mounted letter keeps its place; a new one gets the one it is added with. *)
Theorem add_then_route r ms l tail m :
  registry r ms -> (length ms < 25)%nat ->
  exists r', FSRouter_add r (Some (I_Fs_srv_init2 m (l :: tail))) = Ret r' /\
  forall d, exists s, FSRouter_route r' d = Ret s /\
    (s ≫= mountpoint) =
    match mount_of ms d with
    | Some m0 => Some m0
    | None => if tolower l =? tolower d then Some m else None
    end.
Proof.
  intros Hr Hlen. destruct (registry_add r ms l tail m Hr Hlen) as (r' & E & Hr').
  exists r'. split; [done|]. intros d. destruct (route_spec r' _ d Hr') as (s & Es & Hs).
  exists s. split; [done|]. rewrite mount_of_app in Hs. cbn [mount_of] in Hs.
  destruct (mount_of ms d) as [m0|]; [by destruct Hs as (t & -> & Et)|].
  destruct (tolower l =? tolower d); [by destruct Hs as (t & -> & Et)|by subst].
Qed.

(** The bit of a letter is set exactly when paths of that drive are routed; the
    map is made once and does not follow later mounts. *)
Theorem drive_map_spec r ms :
  registry r ms -> Forall (fun lm => is_letter lm.1) ms ->
  exists map, FSGetDriveMap r (u32 (-1)) = Ret (NO_ERROR, map) /\
  (forall i, 0 <= i < 26 ->
     Z.testbit map i = true <-> exists s, FSRouter_route r (ch "a"%char + i) = Ret (Some s)) /\
  (forall r', FSGetDriveMap r' map = Ret (NO_ERROR, map)).
Proof.
  intros Hr Hl. pose proof Hr as (free & Hn & used & Ha & Hf & _).
  destruct (map_loop_spec ms used Hf Hl free 0) as (m & E & Hm).
  exists m. split_and!.
  - unfold FSGetDriveMap, setdrivemap. change (u32 (-1) =? u32 (-1)) with true. cbv iota.
    by rewrite Ha, Hn, Nat2Z.id, E.
  - intros i Hi. rewrite Hm, Z.bits_0 by lia. cbn [orb].
    rewrite drive_bit_mount, bool_decide_eq_true by done.
    destruct (route_spec r ms (ch "a"%char + i) Hr) as (s & -> & Hs).
    destruct (mount_of ms _) as [p|].
    + destruct Hs as (t & -> & _). split; [intros _; by eexists|by eexists].
    + subst. split; [by intros [? ?]|by intros [? [=]]].
  - intros r'. unfold FSGetDriveMap. destruct (Z.eqb_spec m (u32 (-1))) as [E1|]; [|done].
    assert (B : Z.testbit m 31 = false).
    { rewrite Hm, Z.bits_0 by lia. cbn [orb]. clear - Hl.
      induction Hl as [|[l p] ms Hl _ IH]; [done|]. cbn [existsb]. rewrite IH, orb_false_r.
      unfold drive_bit, is_letter in *. cbn [fst] in *. change (ch "z"%char) with 122 in Hl.
      change (ch "a"%char) with 97 in *. apply Z.eqb_neq. lia. }
    rewrite E1 in B. discriminate.
Qed.

(** ** Converted paths *)

(** What the host is asked for: the drive's place, and the rest of the path
    with slashes and small letters. *)
Definition host_name (place rest : list Z) : list Z := place ++ DosNameConversion rest.

Lemma dos_name_app a b : DosNameConversion (a ++ b) = DosNameConversion a ++ DosNameConversion b.
Proof. unfold DosNameConversion. by rewrite !fmap_app. Qed.

(** A path with a drive: its directory and name are the rest of the path. *)
Lemma drive_path_parts d rest : d <> backslash -> backslash ∈ rest ->
  get_directory (d :: ch ":"%char :: rest) =
    Ret (Some (take (length rest - length (get_name (d :: ch ":"%char :: rest))) rest)) /\
  take (length rest - length (get_name (d :: ch ":"%char :: rest))) rest ++
    get_name (d :: ch ":"%char :: rest) = rest.
Proof.
  intros Hd (p & q & -> & Hq)%list_elem_of_split_r.
  assert (En : get_name (d :: ch ":"%char :: p ++ backslash :: q) = q).
  { by apply (get_name_last (d :: ch ":"%char :: p)). }
  rewrite En.
  destruct (directory_shape (d :: ch ":"%char :: p ++ backslash :: q)) as (r & Er & Hr); [done|].
  cbn [drive_part] in Er, Hr. change (ch ":"%char =? ch ":"%char) with true in Er, Hr.
  cbv iota in Er, Hr. injection Er as <-. rewrite Hr. cbv zeta.
  rewrite last_pos_some by done. cbn [length].
  destruct (Z.eqb_spec (Z.of_nat 2 + Z.of_nat (length p)) 0); [lia|].
  rewrite length_app. cbn [length].
  replace (Z.to_nat _) with (length p + 1)%nat by lia.
  replace (length p + S (length q) - length q)%nat with (length p + 1)%nat by lia.
  split; [done|].
  change (p ++ backslash :: q) with (p ++ [backslash] ++ q). rewrite app_assoc.
  rewrite take_app_length'; [done|]. rewrite length_app. done.
Qed.

Lemma get_drv_drive d rest : get_drv (d :: ch ":"%char :: rest) = Ret d.
Proof. reflexivity. Qed.

Lemma no_directory d rest : backslash ∉ rest ->
  get_directory (d :: ch ":"%char :: rest) = Ret None.
Proof.
  intros Hr. destruct (directory_shape (d :: ch ":"%char :: rest)) as (r & Er & Hd); [done|].
  cbn [drive_part] in Er, Hd. change (ch ":"%char =? ch ":"%char) with true in Er, Hd.
  cbv iota in Er, Hd. injection Er as <-. rewrite Hd, last_pos_none by done. done.
Qed.

Lemma tolower_idemp c : tolower (tolower c) = tolower c.
Proof.
  unfold tolower at 2 3. destruct ((65 <=? c) && (c <=? 90)) eqn:E; unfold tolower.
  - destruct ((65 <=? c + 32) && (c + 32 <=? 90)) eqn:E2; [blia|done].
  - by rewrite E.
Qed.

Lemma mount_of_tolower ms d : mount_of ms (tolower d) = mount_of ms d.
Proof. induction ms as [|[l m] ms IH]; cbn; [done|]. by rewrite tolower_idemp, IH. Qed.

Definition routed_drive (d : Z) : bool :=
  (ch "c"%char <=? tolower d) && (tolower d <=? ch "z"%char).

Lemma tolower_nonzero d : 0 < d -> (tolower d =? 0) = false.
Proof.
  intros Hd. apply Z.eqb_neq. unfold tolower. destruct ((65 <=? d) && (d <=? 90)); lia.
Qed.

(** A path with a drive and a backslash. *)
Lemma pathconv_drive r ms d rest :
  registry r ms -> 0 < d -> d <> backslash -> backslash ∈ rest ->
  pathconv r (d :: ch ":"%char :: rest) =
    if routed_drive d then
      match mount_of ms d with
      | Some place => Ret (0, Some (host_name place rest))
      | None => Undef
      end
    else Ret (0, Some (host_name [] rest)).
Proof.
  intros Hr Hd0 Hd Hin. unfold pathconv. rewrite get_drv_drive. cbn [mbind C_bind].
  rewrite tolower_nonzero by done.
  destruct (drive_path_parts d rest Hd Hin) as [-> Hparts]. cbn [mbind C_bind].
  set (dir := take _ rest) in *. set (name := get_name _) in *.
  assert (Hc : forall place, (place ++ DosNameConversion dir) ++ DosNameConversion name
    = host_name place rest).
  { intros place. unfold host_name. by rewrite <- app_assoc, <- dos_name_app, Hparts. }
  unfold routed_drive. destruct (_ && _); cbn [mbind C_bind]; [|by rewrite <- (Hc [])].
  destruct (route_spec r ms (tolower d) Hr) as (s & -> & Hs). rewrite mount_of_tolower in Hs.
  destruct (mount_of ms d) as [m|]; cbn [mbind C_bind need].
  - destruct Hs as (t & -> & Et). cbn [need mbind C_bind]. rewrite Et. cbn. by rewrite Hc.
  - by rewrite Hs.
Qed.

(** C31: The name that the host gets for a path with a drive: the place where the
    drive is mounted (nothing for the drives before C), and the path behind the
    drive.  A path without a backslash is refused, also "C:FILE"; a drive that
    is not mounted is a null pointer. *)
Theorem pathconv_spec r ms d rest :
  registry r ms -> text (d :: rest) -> d <> backslash ->
  pathconv r (d :: ch ":"%char :: rest) =
    if bool_decide (backslash ∈ rest) then
      if routed_drive d then
        match mount_of ms d with
        | Some place => Ret (0, Some (host_name place rest))
        | None => Undef
        end
      else Ret (0, Some (host_name [] rest))
    else Ret (1, None).
Proof.
  intros Hr [Hd0 _]%Forall_cons Hd. case_bool_decide; [by apply pathconv_drive; [|lia| |]|].
  unfold pathconv. rewrite get_drv_drive. cbn [mbind C_bind].
  by rewrite tolower_nonzero, no_directory by (done || lia).
Qed.

(** ** The theorems on the drives of the system *)

Definition system_mounts : mounts :=
  [(ch "c"%char, bstr "/file/system"); (ch "d"%char, bstr "/"); (ch "f"%char, bstr "/file")].

Lemma system_registry : exists r, init_globals = Ret r /\ registry r system_mounts.
Proof.
  unfold init_globals.
  destruct (registry_add _ [] (ch "c"%char) [58] (bstr "/file/system") registry_init) as (r1 & E1 & R1).
  { cbn. lia. }
  change (ch "c"%char :: [58]) with (bstr "c:") in E1. rewrite E1. cbn [mbind C_bind].
  destruct (registry_add r1 _ (ch "d"%char) [58] (bstr "/") R1) as (r2 & E2 & R2).
  { cbn. lia. }
  change (ch "d"%char :: [58]) with (bstr "d:") in E2. rewrite E2. cbn [mbind C_bind].
  destruct (registry_add r2 _ (ch "f"%char) [58] (bstr "/file") R2) as (r3 & E3 & R3).
  { cbn. lia. }
  change (ch "f"%char :: [58]) with (bstr "f:") in E3. exists r3. split; [exact E3|exact R3].
Qed.

Definition system_router : FSRouter :=
  match init_globals with Ret r => r | _ => FSRouter_init true end.

Lemma system_router_registry : registry system_router system_mounts.
Proof.
  destruct system_registry as (r & E & Hr). unfold system_router. by rewrite E.
Qed.

Lemma add_then_route_witness :
  registry system_router system_mounts /\
  exists r', FSRouter_add system_router (Some (I_Fs_srv_init2 (bstr "/mnt") (bstr "G:"))) = Ret r' /\
  exists s, FSRouter_route r' (ch "g"%char) = Ret s /\ (s ≫= mountpoint) = Some (bstr "/mnt").
Proof.
  split; [exact system_router_registry|].
  destruct (add_then_route system_router system_mounts (ch "G"%char) [58] (bstr "/mnt")
    system_router_registry) as (r' & E & H); [cbn; lia|].
  exists r'. split; [exact E|]. destruct (H (ch "g"%char)) as (s & Es & Hs).
  exists s. split; [exact Es|exact Hs].
Defined.

Lemma drive_map_spec_witness :
  FSGetDriveMap system_router (u32 (-1)) = Ret (NO_ERROR, 44) /\
  exists map, FSGetDriveMap system_router (u32 (-1)) = Ret (NO_ERROR, map) /\
  Z.testbit map 2 = true.
Proof.
  split; [vm_compute; reflexivity|].
  destruct (drive_map_spec system_router system_mounts system_router_registry)
    as (map & E & Hbit & _).
  - apply (bool_decide_unpack _). vm_compute. exact I.
  - exists map. split; [exact E|]. apply Hbit; [lia|]. vm_compute. eexists. reflexivity.
Defined.

Lemma pathconv_spec_witness :
  pathconv system_router (bstr "C:\OS2\Cmd.Exe") = Ret (0, Some (bstr "/file/system/os2/cmd.exe")) /\
  pathconv system_router (bstr "E:\X") = Undef.
Proof.
  split.
  - transitivity (Ret (0, Some (host_name (bstr "/file/system") (bstr "\OS2\Cmd.Exe"))) :
      C (Z * option (list Z))); [|vm_compute; reflexivity].
    apply (pathconv_spec system_router system_mounts (ch "C"%char) (bstr "\OS2\Cmd.Exe")
      system_router_registry).
    + apply text_check. vm_compute. reflexivity.
    + discriminate.
  - apply (pathconv_spec system_router system_mounts (ch "E"%char) (bstr "\X")
      system_router_registry).
    + apply text_check. vm_compute. reflexivity.
    + discriminate.
Defined.
