(* ===== verification/FsServer.v ===== *)
(** * The API of the file server ([OS2/Server/shared/server/os2fs/api/api.c])

    Files, searches for files and information on files, on top of the POSIX
    calls of the host, which are the operations of the class [Posix].  A pointer
    that the code writes a result through is a component of the result; where
    the code leaves it alone the component is the value it had.  [long] has 32
    bits, [off_t] has 64. *)
From S2P Require Import Prelude PathSearch FsRouter Os2Api.

(** ** The host *)

Record stat_t := mkStat {
  st_mode : Z; st_size : Z; st_blksize : Z; st_blocks : Z;
  st_ctime : Z; st_atime : Z; st_mtime : Z
}.

Record tm := mkTm {
  tm_sec : Z; tm_min : Z; tm_hour : Z; tm_mday : Z; tm_mon : Z; tm_year : Z
}.

(** The calls of the host: [inl] is a result, [inr] the value of [errno]; for
    calls without a result [None] is success.  [sys_localtime] is
    [localtime_r]. *)
Class Posix (W : Type) := {
  sys_read : W -> Z -> Z -> W * (list Z + Z);
  sys_write : W -> Z -> list Z -> W * (Z + Z);
  sys_lseek : W -> Z -> Z -> Z -> W * (Z + Z);
  sys_fstat : W -> Z -> stat_t + Z;
  sys_stat : W -> list Z -> stat_t + Z;
  sys_isatty : W -> Z -> bool;
  sys_open : W -> list Z -> Z -> W * (Z + Z);
  sys_close : W -> Z -> W * option Z;
  sys_dup : W -> Z -> W * (Z + Z);
  sys_setfl : W -> Z -> Z -> W * option Z;
  sys_unlink : W -> list Z -> W * option Z;
  sys_rmdir : W -> list Z -> W * option Z;
  sys_mkdir : W -> list Z -> Z -> W * option Z;
  sys_glob : W -> list Z -> list (list Z);
  sys_localtime : Z -> tm
}.

(** Constants of <fcntl.h>, <unistd.h>, <sys/stat.h> and <errno.h>. *)
Definition O_RDONLY : Z := 0.
Definition O_WRONLY : Z := 1.
Definition O_RDWR : Z := 2.
Definition O_CREAT : Z := 0x40.
Definition O_EXCL : Z := 0x80.
Definition O_TRUNC : Z := 0x200.
Definition O_SYNC : Z := 0x101000.
Definition SEEK_SET : Z := 0.
Definition SEEK_CUR : Z := 1.
Definition S_IFMT : Z := 0xF000.
Definition S_IFIFO : Z := 0x1000.
Definition S_IFCHR : Z := 0x2000.
Definition S_IFDIR : Z := 0x4000.
Definition S_IFREG : Z := 0x8000.
Definition S_IREAD : Z := 0x100.
Definition S_IWRITE : Z := 0x80.
Definition EPERM : Z := 1.
Definition ENOENT : Z := 2.
Definition EBADF : Z := 9.
Definition ENOMEM : Z := 12.
Definition EACCES : Z := 13.
Definition EBUSY : Z := 16.
Definition ENOTDIR : Z := 20.
Definition EISDIR : Z := 21.
Definition EMFILE : Z := 24.
Definition ENAMETOOLONG : Z := 36.

(** ** OS/2 constants ([os2/os2def.h]) *)

Definition ERROR_PATH_NOT_FOUND : Z := 3.
Definition ERROR_TOO_MANY_OPEN_FILES : Z := 4.
Definition ERROR_ACCESS_DENIED : Z := 5.
Definition ERROR_CURRENT_DIRECTORY : Z := 16.
Definition ERROR_NO_MORE_FILES : Z := 18.
Definition ERROR_SHARING_VIOLATION : Z := 32.
Definition ERROR_OPEN_FAILED : Z := 110.
Definition ERROR_INVALID_TARGET_HANDLE : Z := 114.
Definition ERROR_INVALID_LEVEL : Z := 124.
Definition ERROR_NEGATIVE_SEEK : Z := 131.
Definition ERROR_SEEK_ON_DEVICE : Z := 132.
Definition ERROR_FILENAME_EXCED_RANGE : Z := 206.
Definition ERROR_META_EXPANSION_TOO_LONG : Z := 208.
Definition ERROR_NO_DATA : Z := 232.

Definition CCHMAXPATH : Z := 260.

Definition S_IREADONLY : Z := Z.land S_IREAD (Z.lnot S_IWRITE).
Definition S_IHIDDEN : Z := 0x20000000.
Definition S_ISYSTEM : Z := 0x40000000.
Definition S_IDIRECTORY : Z := S_IFDIR.
Definition S_IARCHIVED : Z := 0x80000000.

Definition FILE_READONLY : Z := 0x1.
Definition FILE_HIDDEN : Z := 0x2.
Definition FILE_SYSTEM : Z := 0x4.
Definition FILE_DIRECTORY : Z := 0x100.
Definition FILE_ARCHIVED : Z := 0x200.

Definition MUST_HAVE_READONLY : Z := 0x100.
Definition MUST_HAVE_HIDDEN : Z := 0x200.
Definition MUST_HAVE_SYSTEM : Z := 0x400.
Definition MUST_HAVE_DIRECTORY : Z := 0x1000.
Definition MUST_HAVE_ARCHIVED : Z := 0x2000.

Definition FIL_STANDARD : Z := 1.
Definition FIL_QUERYFULLNAME : Z := 5.
Definition FIL_STANDARDL : Z := 11.

Definition HDIR_SYSTEM : Z := 1.
Definition HDIR_CREATE : Z := u32 (-1).

Definition FILE_BEGIN : Z := 0.
Definition FILE_CURRENT : Z := 1.
Definition FILE_END : Z := 2.

Definition FILE_EXISTED : Z := 1.
Definition FILE_CREATED : Z := 2.
Definition FILE_TRUNCATED : Z := 3.

Definition OPEN_ACTION_FAIL_IF_EXISTS : Z := 0x0.
Definition OPEN_ACTION_OPEN_IF_EXISTS : Z := 0x1.
Definition OPEN_ACTION_REPLACE_IF_EXISTS : Z := 0x10.
Definition OPEN_ACTION_CREATE_IF_NEW : Z := 0x10000.

Definition OPEN_ACCESS_READONLY : Z := 0x0.
Definition OPEN_ACCESS_WRITEONLY : Z := 0x1.
Definition OPEN_ACCESS_READWRITE : Z := 0x2.
Definition OPEN_SHARE_DENYREADWRITE : Z := 0x10.
Definition OPEN_SHARE_DENYWRITE : Z := 0x20.
Definition OPEN_SHARE_DENYREAD : Z := 0x30.
Definition OPEN_SHARE_DENYNONE : Z := 0x40.
Definition OPEN_FLAGS_WRITE_THROUGH : Z := 0x4000.
Definition OPEN_FLAGS_DASD : Z := 0x8000.

(** A C condition [x & flag]. *)
Definition has (x flag : Z) : bool := negb (Z.land x flag =? 0).

(** ** The state of the server *)

Record filehandle := mkFh { hfile : Z; openmode : Z; filename : list Z }.

(** [g] are the names that [glob] found, [None] while there are none in memory. *)
Record filefindstruc := mkFind {
  g : option (list (list Z)); ctr : Z; attr : Z; ulInfoLevel : Z
}.

(** [fileroot] is the linked list of open files, in its order; [finds] the
    searches on the heap by their addresses. *)
Record server (W : Type) := mkFs {
  host : W;
  fsrouter : FSRouter;
  fileroot : list filehandle;
  thehdir : filefindstruc;
  finds : gmap Z filefindstruc
}.
Arguments mkFs {W} _ _ _ _ _.
Arguments host {W} _.
Arguments fsrouter {W} _.
Arguments fileroot {W} _.
Arguments thehdir {W} _.
Arguments finds {W} _.

Section fs.
Context {W : Type} {P : Posix W}.
Implicit Types st : server W.

Definition with_host st w : server W := mkFs w (fsrouter st) (fileroot st) (thehdir st) (finds st).
Definition with_files st l : server W := mkFs (host st) (fsrouter st) l (thehdir st) (finds st).

(** ** Reading, writing, positions *)

(** The bytes that arrived in the buffer, and [*count]. *)
Definition FSRead (hFile count : Z) st : server W * Z * (list Z * Z) :=
  let '(w, r) := sys_read (host st) hFile count in
  match r with
  | inr _ => (with_host st w, ERROR_NO_DATA, ([], count))
  | inl l => (with_host st w, NO_ERROR, (l, u32 (Z.of_nat (length l))))
  end.

Definition FSWrite (hFile : Z) (pBuffer : list Z) (count : Z) st : C (server W * Z * Z) :=
  _ ← require (count <=? Z.of_nat (length pBuffer));
  let '(w, r) := sys_write (host st) hFile (take (Z.to_nat count) pBuffer) in
  match r with
  | inr _ => Ret (with_host st w, ERROR_NO_DATA, count)
  | inl n => Ret (with_host st w, NO_ERROR, u32 n)
  end.

(** What a call of the C library returns: its result, or -1. *)
Definition c_result (r : Z + Z) : Z := match r with inl x => x | inr _ => -1 end.

(** Addition in [long long]. *)
Definition add64 (a b : Z) : C Z :=
  _ ← require ((- 2 ^ 63 <=? a + b) && (a + b <? 2 ^ 63)); Ret (a + b).

(** [None] for the value of [pos] is the error of the [switch]. *)
Definition FSSetFilePtrL (handle ib method ibActual : Z) st : C (server W * Z * Z) :=
  match sys_fstat (host st) handle with
  | inr _ => Ret (st, ERROR_INVALID_HANDLE, ibActual)
  | inl stat =>
      let len := st_size stat in
      let '(w, r) := sys_lseek (host st) handle 0 SEEK_CUR in
      let st := with_host st w in
      let pos := c_result r in
      let ibActual := pos mod 2 ^ 64 in
      p ← (if method =? FILE_BEGIN then Ret (Some ib)
           else if method =? FILE_CURRENT then Some <$> add64 pos ib
           else if method =? FILE_END then Some <$> add64 len ib
           else Ret None);
      match p with
      | None => Ret (st, ERROR_INVALID_PARAMETER, ibActual)
      | Some pos =>
          if pos <? 0 then Ret (st, ERROR_NEGATIVE_SEEK, ibActual)
          else
            let '(w, r) := sys_lseek (host st) handle pos SEEK_SET in
            let st := with_host st w in
            let ret := s32 (c_result r) in
            if ret =? -1 then Ret (st, ERROR_SEEK_ON_DEVICE, ibActual)
            else Ret (st, NO_ERROR, pos mod 2 ^ 64)
      end
  end.

Definition FSClose (hFile : Z) st : server W * Z :=
  let '(w, r) := sys_close (host st) hFile in
  (with_host st w,
   match r with
   | None => NO_ERROR
   | Some errno => if errno =? EBADF then ERROR_INVALID_HANDLE else ERROR_ACCESS_DENIED
   end).

(** [*pType] and [*pAttr]. *)
Definition FSQueryHType (handle : Z) (p : Z * Z) st : Z * (Z * Z) :=
  if sys_isatty (host st) handle then (0, (1, 0))
  else
    match sys_fstat (host st) handle with
    | inr _ => (ERROR_INVALID_HANDLE, p)
    | inl stat =>
        let m := u16 (st_mode stat) in
        if Z.land m S_IFMT =? S_IFREG then (NO_ERROR, (0, handle))
        else if Z.land m S_IFMT =? S_IFCHR then (NO_ERROR, (1, 0))
        else if Z.land m S_IFMT =? S_IFIFO then (NO_ERROR, (2, 0))
        else (NO_ERROR, p)
    end.

(** ** Opening *)

(** [if (x & flag) mode |= bits]. *)
Definition or_if (x flag bits mode : Z) : Z := if has x flag then Z.lor mode bits else mode.

Definition open_mode (fsOpenFlags fsOpenMode : Z) : Z :=
  let mode := or_if fsOpenMode OPEN_ACCESS_READONLY O_RDONLY 0 in
  let mode := or_if fsOpenMode OPEN_ACCESS_WRITEONLY O_WRONLY mode in
  let mode := or_if fsOpenMode OPEN_ACCESS_READWRITE O_RDWR mode in
  let mode := or_if fsOpenMode OPEN_SHARE_DENYREAD (Z.lor O_RDWR O_EXCL) mode in
  let mode := or_if fsOpenMode OPEN_SHARE_DENYWRITE (Z.lor O_WRONLY O_EXCL) mode in
  let mode := or_if fsOpenMode OPEN_SHARE_DENYREADWRITE (Z.lor O_RDONLY O_EXCL) mode in
  let mode := if has fsOpenMode OPEN_SHARE_DENYNONE then Z.land mode (Z.lnot O_EXCL) else mode in
  let mode := or_if fsOpenFlags OPEN_ACTION_CREATE_IF_NEW O_CREAT mode in
  or_if fsOpenFlags OPEN_ACTION_REPLACE_IF_EXISTS O_TRUNC mode.

(** The copy of a name to an array of 260 bytes, with backslashes. *)
Definition local_name (name : list Z) : C (list Z) :=
  _ ← require (Z.of_nat (length name) <? CCHMAXPATH); Ret (unslash <$> name).

(** [*pulAction]. *)
Definition open_action (fsOpenFlags mode : Z) (file_existed : bool) (pulAction : Z) : Z :=
  if has fsOpenFlags OPEN_ACTION_OPEN_IF_EXISTS then
    if file_existed && negb (Z.land mode (Z.lnot O_TRUNC) =? 0) then FILE_EXISTED
    else if file_existed && has mode O_TRUNC then FILE_TRUNCATED
    else if negb file_existed then FILE_CREATED
    else pulAction
  else pulAction.

(** [*phFile] and [*pulAction]. *)
Definition FSOpenL (pszFileName : list Z) (fsOpenFlags fsOpenMode : Z) (out : Z * Z) st
    : C (server W * Z * (Z * Z)) :=
  if has fsOpenMode OPEN_FLAGS_DASD then Ret (st, ERROR_ACCESS_DENIED, out)
  else
    let mode := open_mode fsOpenFlags fsOpenMode in
    fn ← local_name pszFileName;
    r ← pathconv (fsrouter st) fn;
    if negb (r.1 =? 0) then Ret (st, ERROR_PATH_NOT_FOUND, out)
    else
      newfilename ← need r.2;
      if 256 <? Z.of_nat (length newfilename) + 1 then
        Ret (st, ERROR_FILENAME_EXCED_RANGE, out)
      else
        let file_existed := match sys_stat (host st) newfilename with
                            | inl _ => true | inr _ => false end in
        let '(w, o) := sys_open (host st) newfilename mode in
        let st := with_host st w in
        match o with
        | inr errno =>
            Ret (st, if errno =? EMFILE then ERROR_TOO_MANY_OPEN_FILES
                     else if errno =? ENOENT then ERROR_FILE_NOT_FOUND
                     else ERROR_ACCESS_DENIED, out)
        | inl handle =>
            if has fsOpenFlags OPEN_ACTION_FAIL_IF_EXISTS then
              Ret (with_host st (sys_close (host st) handle).1, ERROR_OPEN_FAILED, out)
            else
              let h := mkFh handle fsOpenMode newfilename in
              Ret (with_files st (fileroot st ++ [h]), NO_ERROR,
                   (u32 handle, open_action fsOpenFlags mode file_existed out.2))
        end.

(** ** Handles *)

(** [for (h = fileroot; h->hfile != hFile; h = h->next) ;] *)
Fixpoint find_handle (l : list filehandle) (hFile : Z) : C filehandle :=
  match l with
  | [] => Undef
  | h :: l => if hfile h =? hFile then Ret h else find_handle l hFile
  end.

(** [h->openmode = mode] for the structure that is found. *)
Fixpoint set_openmode (l : list filehandle) (hFile mode : Z) : list filehandle :=
  match l with
  | [] => []
  | h :: l => if hfile h =? hFile then mkFh (hfile h) mode (filename h) :: l
              else h :: set_openmode l hFile mode
  end.

Definition FSDupHandle (hFile phFile2 : Z) st : C (server W * Z * Z) :=
  _ ← find_handle (fileroot st) hFile;
  if phFile2 =? u32 (-1) then
    let '(w, r) := sys_dup (host st) hFile in
    let st := with_host st w in
    match r with
    | inr errno =>
        if errno =? EBADF then Ret (st, ERROR_INVALID_HANDLE, phFile2)
        else if errno =? EMFILE then Ret (st, ERROR_TOO_MANY_OPEN_FILES, phFile2)
        else Ret (st, ERROR_INVALID_TARGET_HANDLE, phFile2)
    | inl _ => Ret (st, ERROR_INVALID_TARGET_HANDLE, phFile2)
    end
  else Ret (st, ERROR_INVALID_TARGET_HANDLE, phFile2).

Definition is_std (hFile : Z) : bool := (hFile =? 0) || (hFile =? 1) || (hFile =? 2).

Definition FSQueryFHState (hFile : Z) st : C (Z * Z) :=
  if is_std hFile then Ret (NO_ERROR, Z.lor OPEN_ACCESS_READWRITE OPEN_SHARE_DENYNONE)
  else h ← find_handle (fileroot st) hFile; Ret (NO_ERROR, openmode h).

Definition FSSetFHState (hFile ulMode : Z) st : C (server W * Z) :=
  if is_std hFile then Ret (st, NO_ERROR)
  else
    h ← find_handle (fileroot st) hFile;
    let mode := openmode h in
    let mode := or_if ulMode OPEN_FLAGS_WRITE_THROUGH O_SYNC mode in
    let mode := or_if ulMode OPEN_ACTION_REPLACE_IF_EXISTS O_TRUNC mode in
    let mode := if has ulMode OPEN_ACCESS_READONLY then Z.lor mode O_RDONLY
                else if has ulMode OPEN_ACCESS_WRITEONLY then Z.lor mode O_WRONLY
                else Z.lor mode O_RDWR in
    let '(w, r) := sys_setfl (host st) hFile mode in
    let st := with_host st w in
    let rc := match r with None => 0 | Some _ => -1 end in
    if negb (rc =? 0) then
      Ret (st, if rc =? EBADF then ERROR_INVALID_HANDLE else ERROR_INVALID_PARAMETER)
    else Ret (with_files st (set_openmode (fileroot st) hFile mode), NO_ERROR).

(** ** Files and directories by name *)

Definition unlink_error (errno : Z) : Z :=
  if errno =? ENAMETOOLONG then ERROR_FILENAME_EXCED_RANGE
  else if errno =? ENOTDIR then ERROR_PATH_NOT_FOUND
  else if errno =? EISDIR then ERROR_INVALID_PARAMETER
  else if errno =? ENOENT then ERROR_FILE_NOT_FOUND
  else if errno =? EACCES then ERROR_ACCESS_DENIED
  else if errno =? EPERM then ERROR_SHARING_VIOLATION
  else NO_ERROR.

Definition FSDelete (pszFileName : list Z) st : C (server W * Z) :=
  fn ← local_name pszFileName;
  let '(w, r) := sys_unlink (host st) fn in
  Ret (with_host st w, match r with Some errno => unlink_error errno | None => NO_ERROR end).

(** The same code once more. *)
Definition FSForceDelete : list Z -> server W -> C (server W * Z) := FSDelete.

Definition FSDeleteDir (pszDirName : list Z) st : C (server W * Z) :=
  fn ← local_name pszDirName;
  let '(w, r) := sys_rmdir (host st) fn in
  Ret (with_host st w,
    match r with
    | None => NO_ERROR
    | Some errno =>
        if errno =? ENAMETOOLONG then ERROR_FILENAME_EXCED_RANGE
        else if errno =? ENOTDIR then ERROR_PATH_NOT_FOUND
        else if errno =? ENOENT then ERROR_FILE_NOT_FOUND
        else if errno =? EACCES then ERROR_ACCESS_DENIED
        else if errno =? EPERM then ERROR_SHARING_VIOLATION
        else if errno =? EBUSY then ERROR_CURRENT_DIRECTORY
        else if negb (errno =? 0) then ERROR_ACCESS_DENIED
        else NO_ERROR
    end).

Definition FSCreateDir (pszDirName : list Z) st : C (server W * Z) :=
  fn ← local_name pszDirName;
  let '(w, r) := sys_mkdir (host st) fn 0 in
  Ret (with_host st w,
    match r with
    | None => NO_ERROR
    | Some errno =>
        if errno =? ENAMETOOLONG then ERROR_FILENAME_EXCED_RANGE
        else if errno =? ENOTDIR then ERROR_PATH_NOT_FOUND
        else if errno =? EACCES then ERROR_ACCESS_DENIED
        else if errno =? EPERM then ERROR_SHARING_VIOLATION
        else if negb (errno =? 0) then ERROR_ACCESS_DENIED
        else NO_ERROR
    end).

(** ** Dates and attributes *)

Record FDATE := mkDate { day : Z; month : Z; year : Z }.
Record FTIME := mkTime { twosecs : Z; minutes : Z; hours : Z }.

(** Bit fields of 5, 4 and 7, and of 5, 6 and 5 bits. *)
Definition fdate (t : tm) (y : Z) : FDATE :=
  mkDate (tm_mday t mod 2 ^ 5) ((tm_mon t + 1) mod 2 ^ 4) ((tm_year t + y) mod 2 ^ 7).
Definition ftime (t : tm) : FTIME :=
  mkTime (Z.quot (tm_sec t) 2 mod 2 ^ 5) (tm_min t mod 2 ^ 6) (tm_hour t mod 2 ^ 5).

Definition find_attr (m : Z) : Z :=
  let a := or_if m S_IREADONLY FILE_READONLY 0 in
  let a := or_if m S_IHIDDEN FILE_HIDDEN a in
  let a := or_if m S_ISYSTEM FILE_SYSTEM a in
  let a := or_if m S_IDIRECTORY FILE_DIRECTORY a in
  or_if m S_IARCHIVED FILE_ARCHIVED a.

(** ** Searching *)

(** [FILEFINDBUF3] and [FILEFINDBUF3L]. *)
Record FINDBUF := mkBuf {
  oNextEntryOffset : Z;
  fdateCreation : FDATE; ftimeCreation : FTIME;
  fdateLastAccess : FDATE; ftimeLastAccess : FTIME;
  fdateLastWrite : FDATE; ftimeLastWrite : FTIME;
  cbFile : Z; cbFileAlloc : Z; attrFile : Z;
  cchName : Z; achName : list Z
}.

Definition with_next (b : FINDBUF) (n : Z) : FINDBUF :=
  mkBuf n (fdateCreation b) (ftimeCreation b) (fdateLastAccess b) (ftimeLastAccess b)
    (fdateLastWrite b) (ftimeLastWrite b) (cbFile b) (cbFileAlloc b) (attrFile b)
    (cchName b) (achName b).

(** Sizes of the two structures, and the offset of the name in them. *)
Definition buf_size (big : bool) : Z := if big then 296 else 285.
Definition name_offset (big : bool) : Z := if big then 37 else 29.
(** The sizes of files are stored in 32 or in 64 bits. *)
Definition field (big : bool) (v : Z) : Z := if big then signed 64 v else u32 v.

(** One of the conditions after "must have flags". *)
Definition must_have (attr m must flag bit : Z) : bool :=
  has attr must && (negb (has attr flag) || negb (has m bit)) && (has attr flag || has m bit).

Definition skipped (attr m : Z) : bool :=
  must_have attr m MUST_HAVE_ARCHIVED FILE_ARCHIVED S_IARCHIVED
  || must_have attr m MUST_HAVE_DIRECTORY FILE_DIRECTORY S_IDIRECTORY
  || must_have attr m MUST_HAVE_SYSTEM FILE_SYSTEM S_ISYSTEM
  || must_have attr m MUST_HAVE_HIDDEN FILE_HIDDEN S_IHIDDEN
  || must_have attr m MUST_HAVE_READONLY FILE_READONLY S_IREADONLY.

(** The part of a name behind its last slash. *)
Definition base_name (fname : list Z) : list Z :=
  drop (Z.to_nat (last_pos (ch "/"%char) fname 0 (-1) + 1)) fname.

(** The [switch] on the result of [stat], which is not 0. *)
Definition stat_error (rc : Z) : Z :=
  if rc =? EACCES then ERROR_ACCESS_DENIED
  else if rc =? ENAMETOOLONG then ERROR_FILENAME_EXCED_RANGE
  else if rc =? ENOTDIR then ERROR_PATH_NOT_FOUND
  else if rc =? ENOENT then ERROR_FILE_NOT_FOUND
  else if rc =? ENOMEM then ERROR_NOT_ENOUGH_MEMORY
  else ERROR_INVALID_PARAMETER.

Definition find_entry (big : bool) (next : Z) (fname : list Z) (s : stat_t) : FINDBUF :=
  let c := sys_localtime (st_ctime s) in
  let a := sys_localtime (st_atime s) in
  let m := sys_localtime (st_mtime s) in
  let p := base_name fname in
  mkBuf next (fdate c (-80)) (ftime c) (fdate a (-80)) (ftime a) (fdate m (-80)) (ftime m)
    (field big (st_size s)) (field big (st_blksize s * st_blocks s)) (find_attr (st_mode s))
    (u8 (Z.of_nat (length p) + 1)) p.

(** What the loop leaves: the structure at [info] and the pointer [*pFindBuf],
    with the numbers of entries and of names it went over, or a return code. *)
Inductive loop_end :=
  | Found (info : FINDBUF) (p j i : Z)
  | Failed (rc : Z) (info : FINDBUF) (p : Z).

(** [info] is where the buffer begins in every turn.  [cb] is the size of the
    buffer; [names] are the names from [i] on. *)
Fixpoint find_loop (w : W) (big : bool) (attr count cb : Z) (names : list (list Z))
    (info : FINDBUF) (p j i : Z) : C loop_end :=
  match names with
  | [] => Ret (Found info p j i)
  | fname :: names =>
      if count <=? j then Ret (Found info p j i)
      else
        let next := if j + 1 =? count then 0 else buf_size big in
        _ ← require (4 <=? cb);
        let info := with_next info next in
        if 255 <? Z.of_nat (length fname) then Ret (Failed ERROR_META_EXPANSION_TOO_LONG info p)
        else
          match sys_stat w fname with
          | inr _ => Ret (Failed (stat_error (-1)) info p)
          | inl s =>
              if skipped attr (st_mode s) then
                find_loop w big attr count cb names info p j (i + 1)
              else
                let e := find_entry big next fname s in
                _ ← require (name_offset big + Z.of_nat (length (achName e)) + 1 <=? cb);
                find_loop w big attr count cb names e (p + buf_size big) (j + 1) (i + 1)
          end
  end.

(** The level of a search decides on the structure. *)
Definition level_size (level : Z) : option bool :=
  if level =? FIL_STANDARD then Some false
  else if level =? FIL_STANDARDL then Some true
  else None.

(** The check of [*cbBuf] against 64k and the number of entries. *)
Definition buffer_fits (big : bool) (cbBuf count : Z) : bool :=
  negb ((cbBuf =? 0) || (0x10000 <? cbBuf) || (cbBuf <? u32 (count * buf_size big))).

(** What a caller passes and gets back: the structure at the beginning of the
    buffer, [*pFindBuf], [*cbBuf] and [*pcFileNames]. *)
Record find_args := mkArgs {
  fa_info : FINDBUF; pFindBuf : Z; cbBuf : Z; pcFileNames : Z
}.

Definition with_finds st (hdir : Z) (f : filefindstruc) : server W :=
  if hdir =? HDIR_SYSTEM
  then mkFs (host st) (fsrouter st) (fileroot st) f (finds st)
  else mkFs (host st) (fsrouter st) (fileroot st) (thehdir st) (<[hdir := f]> (finds st)).

(** [addr] is the address that [malloc] returns for a new search; the result
    has [*phDir]. *)
Definition FSFindFirst (addr : Z) (pszFileSpec : list Z) (phDir flAttribute : Z)
    (a : find_args) (level : Z) st : C (server W * Z * Z * find_args) :=
  fn ← local_name pszFileSpec;
  if negb ((phDir =? HDIR_SYSTEM) || (phDir =? HDIR_CREATE)) then
    Ret (st, ERROR_INVALID_HANDLE, phDir, a)
  else
    let hdir := if phDir =? HDIR_SYSTEM then HDIR_SYSTEM else addr in
    _ ← require (negb (hdir =? 0));
    let old := if phDir =? HDIR_SYSTEM then g (thehdir st) else None in
    let st := with_finds st hdir (mkFind old 0 flAttribute level) in
    if 255 <? Z.of_nat (length fn) then Ret (st, ERROR_FILENAME_EXCED_RANGE, phDir, a)
    else
      r ← pathconv (fsrouter st) fn;
      if negb (r.1 =? 0) then Ret (st, ERROR_PATH_NOT_FOUND, phDir, a)
      else
        t ← need r.2;
        if 255 <? Z.of_nat (length t) then Ret (st, ERROR_FILENAME_EXCED_RANGE, phDir, a)
        else
          let names := sys_glob (host st) t in
          let st := with_finds st hdir (mkFind (Some names) 0 flAttribute level) in
          match level_size level with
          | None => Ret (st, ERROR_INVALID_LEVEL, phDir, a)
          | Some big =>
              if negb (buffer_fits big (cbBuf a) (pcFileNames a)) then
                Ret (st, ERROR_BUFFER_OVERFLOW, phDir, a)
              else
                l ← find_loop (host st) big flAttribute (pcFileNames a) (cbBuf a) names
                      (fa_info a) (pFindBuf a) 0 0;
                match l with
                | Failed rc info p =>
                    Ret (st, rc, phDir, mkArgs info p (cbBuf a) (pcFileNames a))
                | Found info p j _ =>
                    let cb := j * buf_size big in
                    Ret (with_finds st hdir (mkFind (Some names) j flAttribute level), NO_ERROR,
                         hdir, mkArgs info (p - cb) cb j)
                end
          end.

Definition search_at st (hDir : Z) : C filefindstruc :=
  if hDir =? HDIR_SYSTEM then Ret (thehdir st) else need (finds st !! hDir).

Definition FSFindNext (hDir : Z) (a : find_args) st : C (server W * Z * find_args) :=
  hdir ← search_at st hDir;
  names ← need (g hdir);
  if ctr hdir =? Z.of_nat (length names) then Ret (st, ERROR_NO_MORE_FILES, a)
  else
    match level_size (ulInfoLevel hdir) with
    | None => Ret (st, ERROR_INVALID_LEVEL, a)
    | Some big =>
        if negb (buffer_fits big (cbBuf a) (pcFileNames a)) then
          Ret (st, ERROR_BUFFER_OVERFLOW, a)
        else
          l ← find_loop (host st) big (attr hdir) (pcFileNames a) (cbBuf a)
                (drop (Z.to_nat (ctr hdir)) names) (fa_info a) (pFindBuf a) 0 (ctr hdir);
          match l with
          | Failed rc info p => Ret (st, rc, mkArgs info p (cbBuf a) (pcFileNames a))
          | Found info p k i =>
              let cb := k * buf_size false in
              Ret (with_finds st hDir (mkFind (g hdir) i (attr hdir) (ulInfoLevel hdir)),
                   NO_ERROR, mkArgs info (p - cb) cb k)
          end
    end.

Definition FSFindClose (hDir : Z) st : C (server W * Z) :=
  hdir ← search_at st hDir;
  _ ← need (g hdir);
  if hDir =? HDIR_SYSTEM then
    Ret (with_finds st hDir (mkFind None (ctr hdir) (attr hdir) (ulInfoLevel hdir)), NO_ERROR)
  else
    Ret (mkFs (host st) (fsrouter st) (fileroot st) (thehdir st) (delete hDir (finds st)), NO_ERROR).

(** ** Information on files *)

(** [FILESTATUS3] and [FILESTATUS3L]. *)
Record FILESTATUS := mkStatus {
  fsCreation : FDATE * FTIME; fsLastAccess : FDATE * FTIME; fsLastWrite : FDATE * FTIME;
  fs_cbFile : Z; fs_cbFileAlloc : Z; fs_attrFile : Z
}.

Definition status_size (big : bool) : Z := if big then 32 else 24.

(** The fields of the structure; [y] is what is added to [tm_year]. *)
Definition fill_status (big : bool) (y : Z) (s : stat_t) : FILESTATUS :=
  let stamp t := (fdate (sys_localtime t) y, ftime (sys_localtime t)) in
  mkStatus (stamp (st_ctime s)) (stamp (st_atime s)) (stamp (st_mtime s))
    (field big (st_size s)) (field big (st_blksize s * st_blocks s))
    (if Z.land (st_mode s) S_IFMT =? S_IFDIR then FILE_DIRECTORY else 0).

(** What [*pInfo] points to: a structure, or bytes as the caller passes them. *)
Inductive info_buf := Status (s : FILESTATUS) | Bytes (b : list Z).

Definition info_error (errno : Z) : Z :=
  if errno =? EBADF then ERROR_INVALID_HANDLE else ERROR_ACCESS_DENIED.

Definition FSQueryFileInfo (hf ulInfoLevel : Z) (pInfo : list Z) (cbInfoBuf : Z) st
    : Z * info_buf :=
  match level_size ulInfoLevel with
  | None => (ERROR_INVALID_LEVEL, Bytes pInfo)
  | Some big =>
      if cbInfoBuf <? status_size big then (ERROR_BUFFER_OVERFLOW, Bytes pInfo)
      else
        match sys_fstat (host st) hf with
        | inr errno => (info_error errno, Bytes pInfo)
        | inl s => (NO_ERROR, Status (fill_status big (-80) s))
        end
  end.

(** The components of [q] are appended to the name in [b]. *)
Fixpoint fullname_loop (fuel : nat) (q b : list Z) : C (list Z) :=
  match fuel with
  | O => NoFuel
  | S fuel =>
      match find_sep q with
      | Some i => b ← cdir b (take i q); fullname_loop fuel (drop (S i) q) b
      | None => cdir b q
      end
  end.

(** A name without a drive is put behind the end of a local array. *)
Definition query_full_name (fn : list Z) (b : list Z) (cbInfoBuf : Z) : C (Z * list Z) :=
  c ← rd8 (fn ++ [0]) 1;
  _ ← require (c =? ch ":"%char);
  if cbInfoBuf <=? Z.of_nat (length fn) then Ret (ERROR_BUFFER_OVERFLOW, b)
  else
    b ← strcpy_at b 0 fn;
    b ← fullname_loop (S (length fn)) fn b;
    Ret (NO_ERROR, b).

(** Both structures are checked for the size of the smaller one. *)
Definition FSQueryPathInfo (pszPathName : list Z) (ulInfoLevel : Z) (pInfo : list Z)
    (cbInfoBuf : Z) st : C (Z * info_buf) :=
  fn ← local_name pszPathName;
  match level_size ulInfoLevel with
  | Some big =>
      if cbInfoBuf <? status_size false then Ret (ERROR_BUFFER_OVERFLOW, Bytes pInfo)
      else
        r ← pathconv (fsrouter st) fn;
        if negb (r.1 =? 0) then Ret (ERROR_PATH_NOT_FOUND, Bytes pInfo)
        else
          pszNewName ← need r.2;
          match sys_stat (host st) pszNewName with
          | inr errno => Ret (info_error errno, Bytes pInfo)
          | inl s =>
              _ ← require (status_size big <=? cbInfoBuf);
              Ret (NO_ERROR, Status (fill_status big 1900 s))
          end
  | None =>
      if ulInfoLevel =? FIL_QUERYFULLNAME then
        r ← query_full_name fn pInfo cbInfoBuf;
        Ret (r.1, Bytes r.2)
      else Ret (ERROR_INVALID_LEVEL, Bytes pInfo)
  end.

(** The bodies of these are switched off. *)
Definition FSResetBuffer (hFile : Z) : Z := NO_ERROR.
Definition FSSetFileSizeL (hFile cbSize : Z) : Z := NO_ERROR.
Definition FSSetFileInfo (hf ulInfoLevel cbInfoBuf : Z) : Z := NO_ERROR.
Definition FSSetPathInfo (pszPathName : list Z) : C Z :=
  _ ← local_name pszPathName; Ret NO_ERROR.

(** ** A caller that asks for one name at a time *)

Definition blank : FINDBUF :=
  let d := mkDate 0 0 0 in let t := mkTime 0 0 0 in mkBuf 0 d t d t d t 0 0 0 0 [].

Definition one_entry (big : bool) : find_args := mkArgs blank 0 (buf_size big) 1.

(** The entry that a call delivered, if it delivered one. *)
Definition delivered (a : find_args) : list FINDBUF :=
  if pcFileNames a =? 1 then [fa_info a] else [].

(** [FSFindNext] until it gives a return code: the entries, and the code. *)
Fixpoint list_rest (fuel : nat) (big : bool) (hDir : Z) st : C (list FINDBUF * Z) :=
  match fuel with
  | O => NoFuel
  | S fuel =>
      r ← FSFindNext hDir (one_entry big) st;
      let '(st, rc, a) := r in
      if rc =? NO_ERROR then
        l ← list_rest fuel big hDir st; Ret (delivered a ++ l.1, l.2)
      else Ret ([], rc)
  end.

Definition list_files (fuel : nat) (big : bool) (addr : Z) (spec : list Z) (phDir attr : Z) st
    : C (list FINDBUF * Z) :=
  r ← FSFindFirst addr spec phDir attr (one_entry big)
        (if big then FIL_STANDARDL else FIL_STANDARD) st;
  let '(st, rc, hDir, a) := r in
  if rc =? NO_ERROR then
    l ← list_rest fuel big hDir st; Ret (delivered a ++ l.1, l.2)
  else Ret ([], rc).

(** What it should see: an entry for each name whose attributes are asked for. *)
Definition entries (w : W) (big : bool) (attr : Z) (names : list (list Z)) : list FINDBUF :=
  omap (fun n => match sys_stat w n with
                 | inl s => if skipped attr (st_mode s) then None else Some (find_entry big 0 n s)
                 | inr _ => None
                 end) names.

(** The host knows the names it found, and they are short enough. *)
Definition known (w : W) (n : list Z) : Prop :=
  (length n <= 255)%nat /\ exists s, sys_stat w n = inl s.

Lemma base_name_length n : (length (base_name n) <= length n)%nat.
Proof. unfold base_name. rewrite length_drop. lia. Qed.

Lemma one_fits big : buffer_fits big (cbBuf (one_entry big)) (pcFileNames (one_entry big)) = true.
Proof. by destruct big. Qed.

Lemma find_loop_one w big attr names : Forall (known w) names -> forall info p i,
  (exists pre e post, names = pre ++ post /\ entries w big attr names = e :: entries w big attr post /\
     pre <> [] /\
     find_loop w big attr 1 (buf_size big) names info p 0 i =
       Ret (Found e (p + buf_size big) 1 (i + Z.of_nat (length pre)))) \/
  (entries w big attr names = [] /\ exists info',
     find_loop w big attr 1 (buf_size big) names info p 0 i =
       Ret (Found info' p 0 (i + Z.of_nat (length names)))).
Proof.
  induction 1 as [|n names [Hl [s Es]] _ IH]; intros info p i.
  { right. split; [done|]. exists info. cbn. by rewrite Z.add_0_r. }
  cbn [find_loop entries omap list_omap]. rewrite Es.
  change (1 <=? 0) with false. change (0 + 1 =? 1) with true.
  assert ((4 <=? buf_size big) = true) as -> by (by destruct big).
  cbn [require mbind C_bind].
  destruct (Z.ltb_spec 255 (Z.of_nat (length n))); [lia|].
  destruct (skipped attr (st_mode s)) eqn:Esk.
  - destruct (IH (with_next info 0) p (i + 1)) as [(pre & e & post & -> & He & Hne & ->)|[He [info' ->]]].
    + left. exists (n :: pre), e, post. split_and!; [done|exact He|done|].
      cbn [length]. do 2 f_equal. lia.
    + right. split; [exact He|]. exists info'. cbn [length]. do 2 f_equal. lia.
  - left. exists [n], (find_entry big 0 n s), names. split_and!; [done|done|done|].
    pose proof (base_name_length n).
    assert ((name_offset big + Z.of_nat (length (achName (find_entry big 0 n s))) + 1
      <=? buf_size big) = true) as -> by (destruct big; cbn; lia).
    cbn [require mbind C_bind length]. destruct names; done.
Qed.

Lemma search_at_with st h f : search_at (with_finds st h f) h = Ret f.
Proof.
  unfold search_at, with_finds. destruct (h =? HDIR_SYSTEM); [done|]. cbn.
  by rewrite lookup_insert_eq.
Qed.

Lemma host_with_finds st h f : host (with_finds st h f) = host st.
Proof. unfold with_finds. by destruct (h =? HDIR_SYSTEM). Qed.

Lemma list_rest_spec (big : bool) attr names h fuel : forall (st : server W) (c : Z),
  search_at st h = Ret (mkFind (Some names) c attr (if big then FIL_STANDARDL else FIL_STANDARD)) ->
  Forall (known (host st)) names -> 0 <= c <= Z.of_nat (length names) ->
  (length names - Z.to_nat c < fuel)%nat ->
  list_rest fuel big h st =
    Ret (entries (host st) big attr (drop (Z.to_nat c) names), ERROR_NO_MORE_FILES).
Proof.
  induction fuel as [|fuel IH]; intros st c Hs Hk Hc Hf; [lia|].
  cbn [list_rest]. unfold FSFindNext. rewrite Hs. cbn [mbind C_bind g ctr ulInfoLevel need].
  destruct (Z.eqb_spec c (Z.of_nat (length names))) as [->|Hlt].
  { cbn [mbind C_bind]. by rewrite Nat2Z.id, drop_all. }
  assert (level_size (if big then FIL_STANDARDL else FIL_STANDARD) = Some big) as -> by by destruct big.
  rewrite one_fits. cbn [negb].
  change (pcFileNames (one_entry big)) with 1. change (cbBuf (one_entry big)) with (buf_size big).
  assert (Hk' : Forall (known (host st)) (drop (Z.to_nat c) names)) by by apply Forall_drop.
  assert (Hd : length (drop (Z.to_nat c) names) = (length names - Z.to_nat c)%nat)
    by apply length_drop.
  cbn [FsServer.attr].
  destruct (find_loop_one (host st) big attr _ Hk' (fa_info (one_entry big))
    (pFindBuf (one_entry big)) c) as [(pre & e & post & Ed & He & Hne & ->)|[He [info' ->]]];
    cbn [mbind C_bind]; change (NO_ERROR =? NO_ERROR) with true; cbv iota.
  - rewrite Ed, length_app in Hd. destruct pre as [|n pre]; [done|]. cbn [length] in *.
    erewrite (IH _ (c + Z.of_nat (S (length pre)))); [|apply search_at_with| | |];
      rewrite ?host_with_finds; [|done|lia|lia].
    cbn [mbind C_bind fst snd]. rewrite He.
    change (delivered _) with [e]. cbn [app]. do 4 f_equal.
    replace (Z.to_nat (c + Z.of_nat (S (length pre)))) with (Z.to_nat c + S (length pre))%nat by lia.
    rewrite <- drop_drop, Ed. change (S (length pre)) with (length (n :: pre)).
    by rewrite drop_app_length.
  - erewrite (IH _ (c + Z.of_nat (length (drop (Z.to_nat c) names)))); [|apply search_at_with| | |];
      rewrite ?host_with_finds; [|done|lia|lia].
    cbn [mbind C_bind fst snd]. change (delivered _) with (@nil FINDBUF). cbn [app].
    rewrite He, Hd. rewrite drop_ge by lia. done.
Qed.


(** ** Names that the server knows how to convert *)

(** [spec] is a path with a drive that is mounted, [t] the host's name for it. *)
Definition names_host (r : FSRouter) (spec t : list Z) : Prop :=
  exists ms d rest place, registry r ms /\ spec = d :: ch ":"%char :: rest /\ is_letter d /\
    routed_drive d = true /\ mount_of ms d = Some place /\
    (exists c, c ∈ rest /\ unslash c = backslash) /\ t = host_name place rest /\
    (length spec <= 255)%nat /\ (length t <= 255)%nat.

Lemma letter_char d : is_letter d -> 0 < d /\ d <> backslash /\ unslash d = d.
Proof.
  unfold is_letter, tolower, unslash, backslash. change (ch "/"%char) with 47.
  change (ch "a"%char) with 97. change (ch "z"%char) with 122. intros Hd.
  destruct (Z.leb_spec 65 d), (Z.leb_spec d 90); cbn in Hd;
    destruct (Z.eqb_spec d 47); lia.
Qed.

Lemma dos_unslash l : DosNameConversion (unslash <$> l) = DosNameConversion l.
Proof.
  unfold DosNameConversion. f_equal. rewrite <- list_fmap_compose. apply list_fmap_ext.
  intros _ c _. unfold compose, slash, unslash, backslash. change (ch "/"%char) with 47.
  destruct (Z.eqb_spec c 47) as [->|]; done.
Qed.

Lemma names_host_run r spec t : names_host r spec t ->
  exists fn, local_name spec = Ret fn /\ length fn = length spec /\ fn = unslash <$> spec /\
  pathconv r fn = Ret (0, Some t) /\ (length spec <= 255)%nat /\ (length t <= 255)%nat.
Proof.
  intros (ms & d & rest & place & Hr & -> & Hd & Hrd & Hm & (c & Hc & Ec) & -> & Hl & Ht).
  destruct (letter_char d Hd) as (H0 & Hbs & Hu).
  exists (unslash <$> (d :: ch ":"%char :: rest)). split_and!; try done.
  - unfold local_name. destruct (Z.ltb_spec (Z.of_nat (length (d :: ch ":"%char :: rest))) CCHMAXPATH);
      [done|]. unfold CCHMAXPATH in *. lia.
  - by rewrite length_fmap.
  - rewrite !fmap_cons, Hu. change (unslash (ch ":"%char)) with (ch ":"%char).
    rewrite (pathconv_drive r ms d) by (done || by (rewrite <- Ec; apply list_elem_of_fmap_2)).
    rewrite Hrd, Hm. unfold host_name. by rewrite dos_unslash.
Qed.

(** ** Searches *)

Lemma entries_tail w big attr names :
  entries w big attr names = [] -> entries w big attr (drop 1 names) = [].
Proof.
  destruct names as [|n names]; [done|]. unfold entries. cbn [omap list_omap drop].
  destruct (sys_stat w n) as [s|]; [by destruct (skipped attr (st_mode s))|done].
Qed.

(** One name at a time: the first entry is the first that is asked for, and the
    others are those behind the first name. *)
Lemma search_listing big addr spec t phDir attr (st : server W) :
  names_host (fsrouter st) spec t -> Forall (known (host st)) (sys_glob (host st) t) ->
  phDir = HDIR_SYSTEM \/ phDir = HDIR_CREATE /\ addr <> 0 /\ addr <> HDIR_SYSTEM ->
  let names := sys_glob (host st) t in
  list_files (S (length names)) big addr spec phDir attr st =
    Ret (take 1 (entries (host st) big attr names) ++ entries (host st) big attr (drop 1 names),
         ERROR_NO_MORE_FILES).
Proof.
  intros Hn Hk Hdir names. destruct (names_host_run _ _ _ Hn) as (fn & Hl & Hlen & _ & Hp & Hs & Ht).
  unfold list_files, FSFindFirst. rewrite Hl. cbn [mbind C_bind].
  assert ((phDir =? HDIR_SYSTEM) || (phDir =? HDIR_CREATE) = true) as ->.
  { destruct Hdir as [->|[-> _]]; done. }
  cbn [negb].
  set (h := if phDir =? HDIR_SYSTEM then HDIR_SYSTEM else addr).
  assert (negb (h =? 0) = true) as ->.
  { unfold h. destruct Hdir as [->|(-> & Ha & _)]; [done|].
    change (HDIR_CREATE =? HDIR_SYSTEM) with false. by apply negb_true_iff, Z.eqb_neq. }
  cbn [require mbind C_bind]. destruct (Z.ltb_spec 255 (Z.of_nat (length fn))); [lia|].
  assert (Hr : forall f, fsrouter (with_finds st h f) = fsrouter st)
    by (intros f; unfold with_finds; by destruct (h =? HDIR_SYSTEM)).
  rewrite Hr, Hp. cbn [mbind C_bind fst snd need]. change (negb (0 =? 0)) with false. cbv iota.
  destruct (Z.ltb_spec 255 (Z.of_nat (length t))); [lia|].
  rewrite !host_with_finds. fold names.
  assert (level_size (if big then FIL_STANDARDL else FIL_STANDARD) = Some big) as -> by by destruct big.
  rewrite one_fits. cbn [negb].
  change (pcFileNames (one_entry big)) with 1. change (cbBuf (one_entry big)) with (buf_size big).
  destruct (find_loop_one (host st) big attr names Hk (fa_info (one_entry big))
    (pFindBuf (one_entry big)) 0) as [(pre & e & post & En & He & Hne & ->)|[He [info' ->]]];
    cbn [mbind C_bind]; change (NO_ERROR =? NO_ERROR) with true; cbv iota.
  - erewrite list_rest_spec; [|apply search_at_with| | |]; rewrite ?host_with_finds; [|done| |].
    + cbn [mbind C_bind fst snd]. rewrite He. done.
    + rewrite En. destruct pre; [done|]. cbn [app length]. lia.
    + lia.
  - erewrite list_rest_spec; [|apply search_at_with| | |]; rewrite ?host_with_finds; [|done|lia|lia].
    cbn [mbind C_bind fst snd]. change (delivered _) with (@nil FINDBUF). cbn [app].
    change (drop (Z.to_nat 0) names) with names. rewrite He. cbn [take app]. do 3 f_equal.
    symmetry. by apply entries_tail.
Qed.


Lemma entries_cons w big attr n names s : sys_stat w n = inl s ->
  entries w big attr (n :: names) =
    (if skipped attr (st_mode s) then [] else [find_entry big 0 n s]) ++ entries w big attr names.
Proof.
  intros Es. unfold entries. cbn [omap list_omap]. rewrite Es. by destruct (skipped attr (st_mode s)).
Qed.

(** The first name does not have the attributes that are asked for. *)
Definition first_left_out (w : W) (attr : Z) (names : list (list Z)) : bool :=
  match names with
  | [] => false
  | n :: _ => match sys_stat w n with inl s => skipped attr (st_mode s) | inr _ => false end
  end.

(** C33: A caller that asks for one name at a time sees all names that have the
    attributes it asks for, in the order of [glob], each once, and then the
    code for no more files.  When the first name does not have the attributes the
    search goes back to the second, and the first entry is seen twice. *)
Theorem search_complete big addr spec t phDir attr (st : server W) :
  names_host (fsrouter st) spec t -> Forall (known (host st)) (sys_glob (host st) t) ->
  phDir = HDIR_SYSTEM \/ phDir = HDIR_CREATE /\ addr <> 0 /\ addr <> HDIR_SYSTEM ->
  let names := sys_glob (host st) t in
  let seen := entries (host st) big attr names in
  list_files (S (length names)) big addr spec phDir attr st =
    Ret ((if first_left_out (host st) attr names then take 1 seen else []) ++ seen,
         ERROR_NO_MORE_FILES).
Proof.
  intros Hn Hk Hdir names seen. unfold names. rewrite search_listing by done. fold names. unfold seen.
  fold names in Hk. destruct names as [|n rest]; [done|]. cbn [drop first_left_out].
  apply Forall_cons in Hk as [(_ & s & Es) _]. rewrite (entries_cons _ _ _ _ _ s Es), Es.
  by destruct (skipped attr (st_mode s)).
Qed.

(** When the first name is left out, the search goes back: the first entry is
    seen twice. *)
Theorem search_repeats big addr spec t phDir attr (st : server W) n rest s :
  names_host (fsrouter st) spec t -> Forall (known (host st)) (sys_glob (host st) t) ->
  phDir = HDIR_SYSTEM \/ phDir = HDIR_CREATE /\ addr <> 0 /\ addr <> HDIR_SYSTEM ->
  sys_glob (host st) t = n :: rest -> sys_stat (host st) n = inl s ->
  skipped attr (st_mode s) = true ->
  list_files (S (S (length rest))) big addr spec phDir attr st =
    Ret (take 1 (entries (host st) big attr (n :: rest)) ++ entries (host st) big attr (n :: rest),
         ERROR_NO_MORE_FILES).
Proof.
  intros Hn Hk Hdir En Es Hsk. pose proof (search_listing big addr spec t phDir attr st Hn Hk Hdir) as H.
  cbv zeta in H. rewrite En in H. cbn [length drop] in H. rewrite H.
  do 3 f_equal. by rewrite (entries_cons _ _ _ _ _ s Es), Hsk.
Qed.

(** [FILE_DIRECTORY] is the bit of [MUST_HAVE_READONLY], and a file that can be
    read counts as read-only: who asks for directories too, and not for
    read-only files, sees nothing that can be read. *)
Theorem directories_hide_files big addr spec t phDir attr (st : server W) :
  names_host (fsrouter st) spec t -> Forall (known (host st)) (sys_glob (host st) t) ->
  phDir = HDIR_SYSTEM \/ phDir = HDIR_CREATE /\ addr <> 0 /\ addr <> HDIR_SYSTEM ->
  has attr FILE_DIRECTORY = true -> has attr FILE_READONLY = false ->
  (forall n s, sys_stat (host st) n = inl s -> has (st_mode s) S_IREAD = true) ->
  list_files (S (length (sys_glob (host st) t))) big addr spec phDir attr st =
    Ret ([], ERROR_NO_MORE_FILES).
Proof.
  intros Hn Hk Hdir Hd Hr Hread. pose proof (search_listing big addr spec t phDir attr st Hn Hk Hdir) as H.
  cbv zeta in H. rewrite H. clear H.
  assert (He : entries (host st) big attr (sys_glob (host st) t) = []).
  { induction Hk as [|n names (_ & s & Es) _ IH]; [done|].
    rewrite (entries_cons _ _ _ _ _ s Es), IH.
    assert (skipped attr (st_mode s) = true) as ->; [|done].
    unfold skipped. rewrite !orb_true_iff. right. unfold must_have.
    change MUST_HAVE_READONLY with FILE_DIRECTORY. rewrite Hd, Hr.
    change S_IREADONLY with S_IREAD. by rewrite (Hread n s Es). }
  by rewrite (entries_tail _ _ _ _ He), He.
Qed.

(** ** Open files *)

Lemma find_handle_app l1 l2 h : find_handle (l1 ++ l2) h =
  match list_find (fun f => hfile f = h) l1 with
  | Some (_, f) => Ret f
  | None => find_handle l2 h
  end.
Proof.
  induction l1 as [|f l1 IH]; [done|]. cbn [app find_handle list_find].
  destruct (Z.eqb_spec (hfile f) h); [by rewrite decide_True by done|].
  rewrite decide_False, IH by done. by destruct (list_find _ l1) as [[i x]|].
Qed.

Lemma no_fail_if_exists flags : has flags OPEN_ACTION_FAIL_IF_EXISTS = false.
Proof. unfold has, OPEN_ACTION_FAIL_IF_EXISTS. by rewrite Z.land_0_r. Qed.

Definition existed (w : W) (t : list Z) : bool :=
  match sys_stat w t with inl _ => true | inr _ => false end.

Lemma open_run spec t flags mode out (st : server W) : names_host (fsrouter st) spec t ->
  has mode OPEN_FLAGS_DASD = false ->
  FSOpenL spec flags mode out st =
    let '(w, o) := sys_open (host st) t (open_mode flags mode) in
    match o with
    | inr errno =>
        Ret (with_host st w, if errno =? EMFILE then ERROR_TOO_MANY_OPEN_FILES
                 else if errno =? ENOENT then ERROR_FILE_NOT_FOUND
                 else ERROR_ACCESS_DENIED, out)
    | inl h =>
        Ret (with_files (with_host st w) (fileroot st ++ [mkFh h mode t]), NO_ERROR,
          (u32 h, open_action flags (open_mode flags mode) (existed (host st) t) out.2))
    end.
Proof.
  intros Hn Hm. destruct (names_host_run _ _ _ Hn) as (fn & Hl & _ & _ & Hp & _ & Ht).
  unfold FSOpenL. rewrite Hm, Hl. cbn [mbind C_bind]. rewrite Hp.
  cbn [mbind C_bind fst snd need]. change (negb (0 =? 0)) with false. cbv iota.
  destruct (Z.ltb_spec 256 (Z.of_nat (length t) + 1)); [lia|].
  destruct (sys_open (host st) t (open_mode flags mode)) as [w [h|e]]; [|done].
  by rewrite no_fail_if_exists.
Qed.


(** The mode that is known for a handle: that of the first file in the list that has
    had its number, or else [mode]. *)
Definition known_mode (l : list filehandle) (h mode : Z) : Z :=
  match find_handle l h with Ret f => openmode f | _ => mode end.

(** C37: After a file is opened, the mode that is answered for its number is the one it
    was opened with, if it is the first file with that number, and otherwise still that
    of the first file which had it, as closing takes no file out of the list.  For every
    other number the answer is as before. *)
Theorem open_query_state spec t flags mode out (st : server W) w h :
  names_host (fsrouter st) spec t -> has mode OPEN_FLAGS_DASD = false ->
  sys_open (host st) t (open_mode flags mode) = (w, inl h) -> 2 < h < 2 ^ 32 ->
  exists st' action, FSOpenL spec flags mode out st = Ret (st', NO_ERROR, (h, action)) /\
  FSQueryFHState h st' = Ret (NO_ERROR, known_mode (fileroot st) h mode) /\
  forall h', h' <> h -> FSQueryFHState h' st' = FSQueryFHState h' st.
Proof.
  intros Hn Hm Eo Hh. rewrite (open_run spec t) by done. rewrite Eo. rewrite u32_id by (unfold is_u32; lia).
  eexists _, _. split; [done|]. unfold FSQueryFHState, known_mode. cbn [fileroot with_files].
  assert (is_std h = false) as ->.
  { unfold is_std. destruct (Z.eqb_spec h 0), (Z.eqb_spec h 1), (Z.eqb_spec h 2); lia || done. }
  split.
  - induction (fileroot st) as [|f l IH]; cbn [app find_handle hfile]; [by rewrite Z.eqb_refl|].
    by destruct (hfile f =? h).
  - intros h' Hne. destruct (is_std h'); [done|]. f_equal.
    induction (fileroot st) as [|f l IH]; cbn [app find_handle hfile].
    + by destruct (Z.eqb_spec h h').
    + by destruct (hfile f =? h').
Qed.

(** A handle number that is used again keeps the mode of the file that had it
    first: closing does not remove it. *)
Theorem reopened_handle_mode spec t flags mode1 mode2 out (st : server W) w1 w2 h :
  names_host (fsrouter st) spec t ->
  has mode1 OPEN_FLAGS_DASD = false -> has mode2 OPEN_FLAGS_DASD = false ->
  2 < h < 2 ^ 32 -> Forall (fun f => hfile f <> h) (fileroot st) ->
  sys_open (host st) t (open_mode flags mode1) = (w1, inl h) ->
  sys_open (sys_close w1 h).1 t (open_mode flags mode2) = (w2, inl h) ->
  exists st1 st2 st3 a1 a2 rc,
    FSOpenL spec flags mode1 out st = Ret (st1, NO_ERROR, (h, a1)) /\
    FSClose h st1 = (st2, rc) /\
    FSOpenL spec flags mode2 out st2 = Ret (st3, NO_ERROR, (h, a2)) /\
    FSQueryFHState h st3 = Ret (NO_ERROR, mode1).
Proof.
  intros Hn Hm1 Hm2 Hh Hf E1 E2. set (st1 := with_files (with_host st w1) (fileroot st ++ [mkFh h mode1 t])).
  set (st2 := with_host st1 (sys_close w1 h).1).
  set (st3 := with_files (with_host st2 w2) (fileroot st2 ++ [mkFh h mode2 t])).
  exists st1, st2, st3. eexists _, _, (FSClose h st1).2. split_and!.
  - rewrite (open_run spec t), E1, u32_id by (done || (unfold is_u32; lia)). done.
  - unfold FSClose. cbn [host st1 with_files with_host]. unfold st2.
    destruct (sys_close w1 h) as [w r]. done.
  - rewrite (open_run spec t) by done. cbn [host st2 with_host]. rewrite E2.
    rewrite u32_id by (unfold is_u32; lia). done.
  - unfold FSQueryFHState.
    assert (is_std h = false) as ->.
    { unfold is_std. destruct (Z.eqb_spec h 0), (Z.eqb_spec h 1), (Z.eqb_spec h 2); lia || done. }
    cbn [st3 st2 st1 fileroot with_files with_host]. rewrite <- app_assoc, find_handle_app.
    destruct (list_find _ (fileroot st)) as [[i f]|] eqn:E.
    + apply list_find_Some in E as (Ei & Ef & _). rewrite Forall_forall in Hf.
      destruct (Hf f); [by eapply list_elem_of_lookup_2|done].
    + cbn [app find_handle hfile]. by rewrite Z.eqb_refl.
Qed.

(** A handle is never duplicated, also when the host has done it. *)
Theorem dup_refused h phFile2 (st : server W) f :
  find_handle (fileroot st) h = Ret f ->
  exists st' rc, FSDupHandle h phFile2 st = Ret (st', rc, phFile2) /\ rc <> NO_ERROR /\
  (forall w h2, phFile2 = u32 (-1) -> sys_dup (host st) h = (w, inl h2) ->
     host st' = w /\ fileroot st' = fileroot st /\ rc = ERROR_INVALID_TARGET_HANDLE).
Proof.
  intros Hf. unfold FSDupHandle. rewrite Hf. cbn [mbind C_bind].
  destruct (Z.eqb_spec phFile2 (u32 (-1))).
  - destruct (sys_dup (host st) h) as [w [h2|en]].
    + eexists _, _. split; [done|]. split; [done|]. by intros ? ? _ [= -> ->].
    + destruct (en =? EBADF); [|destruct (en =? EMFILE)];
        (eexists _, _; split; [done|]; split; [done|]; by intros ? ? _ [=]).
  - eexists _, _. split; [done|]. split; [done|]. by intros.
Qed.

End fs.

(** ** Access and sharing *)

(** The sharing modes other than [OPEN_SHARE_DENYNONE] ask the host for writing
    too, and for the exclusive creation of the file. *)
Theorem open_mode_spec flags access share :
  access ∈ [OPEN_ACCESS_READONLY; OPEN_ACCESS_WRITEONLY; OPEN_ACCESS_READWRITE] ->
  share ∈ [OPEN_SHARE_DENYREADWRITE; OPEN_SHARE_DENYWRITE; OPEN_SHARE_DENYREAD; OPEN_SHARE_DENYNONE] ->
  let m := open_mode flags (Z.lor access share) in
  let deny := negb (share =? OPEN_SHARE_DENYNONE) in
  Z.land m 3 = (if share =? OPEN_SHARE_DENYNONE then access
                else if share =? OPEN_SHARE_DENYREADWRITE then Z.lor access O_RDWR
                else Z.lor O_WRONLY O_RDWR) /\
  has m O_EXCL = deny /\
  has m O_CREAT = has flags OPEN_ACTION_CREATE_IF_NEW /\
  has m O_TRUNC = has flags OPEN_ACTION_REPLACE_IF_EXISTS.
Proof.
  intros Ha Hs. unfold open_mode. cbv zeta. unfold or_if.
  generalize (has flags OPEN_ACTION_CREATE_IF_NEW) (has flags OPEN_ACTION_REPLACE_IF_EXISTS).
  rewrite !elem_of_cons, elem_of_nil in Ha. rewrite !elem_of_cons, elem_of_nil in Hs.
  destruct Ha as [->|[->|[->|[]]]], Hs as [->|[->|[->|[->|[]]]]]; intros [] []; split_and!; reflexivity.
Qed.

(** POSIX: exclusive creation of a file that exists fails with [EEXIST]. *)
Definition EEXIST : Z := 17.
Class ExclLaws (W : Type) {P : Posix W} := {
  open_excl : forall w t s mode, sys_stat w t = inl s ->
    has mode O_CREAT = true -> has mode O_EXCL = true -> sys_open w t mode = (w, inr EEXIST)
}.

(** So a file that exists cannot be opened with a sharing mode that denies
    anything by a caller that would have it created if it did not exist. *)
Theorem create_if_new_denied {W} {P : Posix W} {L : ExclLaws W} spec t s flags access share out
    (st : server W) :
  names_host (fsrouter st) spec t -> sys_stat (host st) t = inl s ->
  access ∈ [OPEN_ACCESS_READONLY; OPEN_ACCESS_WRITEONLY; OPEN_ACCESS_READWRITE] ->
  share ∈ [OPEN_SHARE_DENYREADWRITE; OPEN_SHARE_DENYWRITE; OPEN_SHARE_DENYREAD] ->
  has flags OPEN_ACTION_CREATE_IF_NEW = true ->
  FSOpenL spec flags (Z.lor access share) out st = Ret (st, ERROR_ACCESS_DENIED, out).
Proof.
  intros Hn Es Ha Hs Hf. rewrite !elem_of_cons, elem_of_nil in Ha.
  rewrite !elem_of_cons, elem_of_nil in Hs.
  rewrite (open_run spec t) by
    (done || (destruct Ha as [->|[->|[->|[]]]], Hs as [->|[->|[->|[]]]]; done)).
  rewrite (open_excl _ _ s); [by destruct st|done|unfold open_mode, or_if; rewrite Hf..];
    destruct (has flags OPEN_ACTION_REPLACE_IF_EXISTS);
    destruct Ha as [->|[->|[->|[]]]], Hs as [->|[->|[->|[]]]]; reflexivity.
Qed.

(** ** Positions *)

(** POSIX: what [lseek] does to the offset of an open file. *)
Class SeekLaws (W : Type) {P : Posix W} := {
  position : W -> Z -> option Z;
  seek_cur : forall w h p, position w h = Some p -> sys_lseek w h 0 SEEK_CUR = (w, inl p);
  seek_set : forall w h p q, position w h = Some p -> 0 <= q < 2 ^ 63 ->
    exists w', sys_lseek w h q SEEK_SET = (w', inl q) /\ position w' h = Some q
}.

(** Where a seek starts from. *)
Definition seek_base (method p len : Z) : Z :=
  if method =? FILE_BEGIN then 0 else if method =? FILE_CURRENT then p else len.

(** C38: A seek moves to its origin plus the offset, and refuses to go before the
    beginning; where the new position is one below a multiple of 4 GB it moves
    but says that it failed. *)
Theorem seek_spec {W} {P : Posix W} {L : SeekLaws W} handle ib method ibActual p s
    (st : server W) :
  sys_fstat (host st) handle = inl s -> position (host st) handle = Some p ->
  0 <= p < 2 ^ 63 -> FILE_BEGIN <= method <= FILE_END ->
  let q := seek_base method p (st_size s) + ib in
  - 2 ^ 63 <= q < 2 ^ 63 ->
  exists st' rc actual,
    FSSetFilePtrL handle ib method ibActual st = Ret (st', rc, actual) /\
    if q <? 0 then rc = ERROR_NEGATIVE_SEEK /\ actual = p /\ position (host st') handle = Some p
    else position (host st') handle = Some q /\
      if q mod 2 ^ 32 =? 2 ^ 32 - 1 then rc = ERROR_SEEK_ON_DEVICE /\ actual = p
      else rc = NO_ERROR /\ actual = q.
Proof.
  intros Es Ep Hp Hm q Hq. unfold FSSetFilePtrL. rewrite Es, (seek_cur _ _ p) by done.
  cbn [c_result]. rewrite (Z.mod_small p) by lia.
  assert (E : (if method =? FILE_BEGIN then Ret (Some ib)
               else if method =? FILE_CURRENT then Some <$> add64 p ib
               else if method =? FILE_END then Some <$> add64 (st_size s) ib
               else Ret None) = Ret (Some q)).
  { unfold q, seek_base, add64, FILE_BEGIN, FILE_CURRENT, FILE_END in *.
    destruct (Z.eqb_spec method 0); [done|].
    destruct (Z.eqb_spec method 1); [|destruct (Z.eqb_spec method 2); [|lia]];
      match goal with |- context [require ?b] => replace b with true by (symmetry; blia) end;
      done. }
  rewrite E. cbn [mbind C_bind]. destruct (Z.ltb_spec q 0).
  - eexists _, _, _. split; [done|]. by cbn.
  - cbn [host with_host]. destruct (seek_set _ _ _ q Ep) as (w' & -> & Hw); [lia|].
    cbn [c_result]. unfold s32, signed.
    destruct (Z.eqb_spec (q mod 2 ^ 32) (2 ^ 32 - 1)) as [E1|N1];
      destruct (Z.ltb_spec (q mod 2 ^ 32) (2 ^ (32 - 1))); try lia;
      match goal with |- context [?a =? -1] => destruct (Z.eqb_spec a (-1)); try lia end;
      (eexists _, _, _; split; [done|]; cbn [host with_host]; rewrite ?Z.mod_small by lia; done).
Qed.

(** ** Dates *)

(** A broken-down time of the years that a date can hold, 1980 to 2107. *)
Definition tm_ok (t : tm) : Prop :=
  80 <= tm_year t <= 207 /\ 0 <= tm_mon t <= 11 /\ 1 <= tm_mday t <= 31 /\
  0 <= tm_hour t <= 23 /\ 0 <= tm_min t <= 59 /\ 0 <= tm_sec t <= 60.

(** How OS/2 reads a date and a time: year, month, day, hour, minute, second. *)
Definition date_of (d : FDATE * FTIME) : Z * Z * Z * Z * Z * Z :=
  (1980 + year d.1, month d.1, day d.1, hours d.2, minutes d.2, 2 * twosecs d.2).

Definition civil (t : tm) : Z * Z * Z * Z * Z * Z :=
  (1900 + tm_year t, tm_mon t + 1, tm_mday t, tm_hour t, tm_min t, tm_sec t - tm_sec t mod 2).

Lemma date_roundtrip t : tm_ok t -> date_of (fdate t (-80), ftime t) = civil t.
Proof.
  intros (Hy & Hmo & Hd & Hh & Hmi & Hs).
  unfold date_of, civil, fdate, ftime. cbn [fst snd year month day hours minutes twosecs].
  rewrite Z.quot_div_nonneg by lia. rewrite !pair_equal_spec. split_and!; lia.
Qed.

(** The dates of an open file are those of the host, to two seconds. *)
Theorem file_dates {W} {P : Posix W} hf level (big : bool) pInfo cb s (st : server W) :
  level = (if big then FIL_STANDARDL else FIL_STANDARD) -> status_size big <= cb ->
  sys_fstat (host st) hf = inl s ->
  tm_ok (sys_localtime (st_ctime s)) -> tm_ok (sys_localtime (st_atime s)) ->
  tm_ok (sys_localtime (st_mtime s)) ->
  exists f, FSQueryFileInfo hf level pInfo cb st = (NO_ERROR, Status f) /\
  date_of (fsCreation f) = civil (sys_localtime (st_ctime s)) /\
  date_of (fsLastAccess f) = civil (sys_localtime (st_atime s)) /\
  date_of (fsLastWrite f) = civil (sys_localtime (st_mtime s)).
Proof.
  intros -> Hcb Es Hc Ha Hm. exists (fill_status big (-80) s). unfold FSQueryFileInfo.
  assert (level_size (if big then FIL_STANDARDL else FIL_STANDARD) = Some big) as -> by by destruct big.
  destruct (Z.ltb_spec cb (status_size big)); [lia|]. rewrite Es.
  split; [done|]. unfold fill_status. cbn [fsCreation fsLastAccess fsLastWrite].
  by rewrite !date_roundtrip.
Qed.

(** The year of a file that is asked for by its name is another. *)
Theorem path_info_year {W} {P : Posix W} spec t pInfo cb s (st : server W) :
  names_host (fsrouter st) spec t -> status_size false <= cb -> sys_stat (host st) t = inl s ->
  tm_ok (sys_localtime (st_mtime s)) ->
  exists f, FSQueryPathInfo spec FIL_STANDARD pInfo cb st = Ret (NO_ERROR, Status f) /\
  1980 + year (fsLastWrite f).1 =
    let y := 1900 + tm_year (sys_localtime (st_mtime s)) in
    if y <? 2048 then y + 60 else y - 68.
Proof.
  intros Hn Hcb Es (Hy & _). destruct (names_host_run _ _ _ Hn) as (fn & Hl & _ & _ & Hp & _ & _).
  exists (fill_status false 1900 s). unfold FSQueryPathInfo. rewrite Hl. cbn [mbind C_bind].
  change (level_size FIL_STANDARD) with (Some false).
  destruct (Z.ltb_spec cb (status_size false)); [lia|]. rewrite Hp.
  cbn [mbind C_bind fst snd need]. change (negb (0 =? 0)) with false. cbv iota. rewrite Es.
  destruct (Z.leb_spec (status_size false) cb); [|lia]. split; [done|].
  cbn [fill_status fsLastWrite fst fdate year]. cbv zeta.
  destruct (Z.ltb_spec (1900 + tm_year (sys_localtime (st_mtime s))) 2048); lia.
Qed.

(** ** A host *)

(** The files by name, and the offsets of the open files; one file can be open
    at a time, with the handle 3. *)
Record disk := mkDisk { disk_files : list (list Z * stat_t); offsets : gmap Z Z }.

Fixpoint disk_stat (l : list (list Z * stat_t)) (t : list Z) : stat_t + Z :=
  match l with
  | [] => inr ENOENT
  | (n, s) :: l => if bool_decide (n = t) then inl s else disk_stat l t
  end.

Definition new_file : stat_t := mkStat 0x81A4 0 4096 0 0 0 0.
Definition next_handle (w : disk) : disk * (Z + Z) :=
  match offsets w !! 3 with
  | None => (mkDisk (disk_files w) (<[3 := 0]> (offsets w)), inl 3)
  | Some _ => (w, inr EMFILE)
  end.

#[export] Instance demo_posix : Posix disk := {
  sys_read w h n := (w, inl []);
  sys_write w h l := (w, inl (Z.of_nat (length l)));
  sys_lseek w h q whence :=
    match offsets w !! h with
    | None => (w, inr EBADF)
    | Some p => if whence =? SEEK_SET then (mkDisk (disk_files w) (<[h := q]> (offsets w)), inl q)
                else (w, inl (p + q))
    end;
  sys_fstat w h := match offsets w !! h with Some _ => inl new_file | None => inr EBADF end;
  sys_stat w t := disk_stat (disk_files w) t;
  sys_isatty w h := false;
  sys_open w t mode :=
    match disk_stat (disk_files w) t with
    | inl _ => if has mode O_CREAT && has mode O_EXCL then (w, inr EEXIST) else next_handle w
    | inr e => if has mode O_CREAT
               then next_handle (mkDisk ((t, new_file) :: disk_files w) (offsets w))
               else (w, inr e)
    end;
  sys_close w h :=
    match offsets w !! h with
    | Some _ => (mkDisk (disk_files w) (delete h (offsets w)), None)
    | None => (w, Some EBADF)
    end;
  sys_dup w h := (w, inr EMFILE);
  sys_setfl w h m := (w, None);
  sys_unlink w t := (w, Some ENOENT);
  sys_rmdir w t := (w, Some ENOENT);
  sys_mkdir w t m := (w, Some EACCES);
  sys_glob w t := fst <$> disk_files w;
  sys_localtime t := mkTm 7 30 12 6 4 (124 + t)
}.

#[export] Instance demo_excl : ExclLaws disk.
Proof.
  split. intros w t s mode Es Hc He. cbn in *. by rewrite Es, Hc, He.
Qed.

#[export] Program Instance demo_seek : SeekLaws disk := {
  position w h := offsets w !! h
}.
Next Obligation.
  intros w h p Hp. cbn. rewrite Hp. change (SEEK_CUR =? SEEK_SET) with false. by rewrite Z.add_0_r.
Qed.
Next Obligation.
  intros w h p q Hp Hq. cbn. rewrite Hp. change (SEEK_SET =? SEEK_SET) with true.
  eexists. split; [done|]. cbn. by rewrite lookup_insert_eq.
Qed.

(** Two files in /file/system: a directory that nobody can read, and a file. *)
Definition demo_dir : stat_t := mkStat 0x40C9 4096 4096 8 0 0 0.
Definition demo_host : disk :=
  mkDisk [(bstr "/file/system/os2", demo_dir); (bstr "/file/system/config.sys", new_file)] ∅.

Definition fs_demo (w : disk) : server disk :=
  mkFs w system_router [] (mkFind (Some []) 0 0 0) ∅.

Lemma demo_names_host spec t rest : spec = ch "C"%char :: ch ":"%char :: rest ->
  bool_decide (backslash ∈ rest) = true -> t = host_name (bstr "/file/system") rest ->
  (length spec <=? 255)%nat && (length t <=? 255)%nat = true ->
  names_host system_router spec t.
Proof.
  intros -> Hb%bool_decide_eq_true -> [H1%Nat.leb_le H2%Nat.leb_le]%andb_true_iff.
  exists system_mounts, (ch "C"%char), rest, (bstr "/file/system"). split_and!; try done.
  - apply system_router_registry.
  - by exists backslash.
Qed.

Definition demo_spec : list Z := bstr "C:\*".
Definition demo_pattern : list Z := bstr "/file/system/*".

Lemma demo_pattern_name : names_host system_router demo_spec demo_pattern.
Proof. by apply (demo_names_host _ _ (bstr "\*")). Qed.

Lemma demo_known : Forall (known demo_host) (sys_glob demo_host demo_pattern).
Proof.
  repeat (apply Forall_cons; split; [split; [apply Nat.leb_le; reflexivity|by eexists]|]).
  apply Forall_nil_2.
Qed.

Definition demo_file : list Z := bstr "/file/system/config.sys".
Lemma demo_file_name : names_host system_router (bstr "C:\CONFIG.SYS") demo_file.
Proof. by apply (demo_names_host _ _ (bstr "\CONFIG.SYS")). Qed.

Lemma search_complete_witness :
  list_files 3 false 0 demo_spec HDIR_SYSTEM 0 (fs_demo demo_host) =
    Ret ((if first_left_out demo_host 0 (sys_glob demo_host demo_pattern) then take 1 (entries demo_host false 0 (sys_glob demo_host demo_pattern)) else []) ++
         entries demo_host false 0 (sys_glob demo_host demo_pattern), ERROR_NO_MORE_FILES) /\
  first_left_out demo_host 0 (sys_glob demo_host demo_pattern) = false /\
  achName <$> entries demo_host false 0 (sys_glob demo_host demo_pattern) =
    [bstr "os2"; bstr "config.sys"].
Proof.
  split; [|split; vm_compute; reflexivity].
  refine (search_complete false 0 demo_spec demo_pattern HDIR_SYSTEM 0 (fs_demo demo_host) _ _ _).
  - exact demo_pattern_name.
  - exact demo_known.
  - left. reflexivity.
Defined.

(** A search for files that must not be directories leaves the first name out. *)
Definition no_directory_attr : Z := MUST_HAVE_DIRECTORY.

Lemma search_repeats_witness :
  list_files 3 false 0 demo_spec HDIR_SYSTEM no_directory_attr (fs_demo demo_host) =
    Ret (take 1 (entries demo_host false no_directory_attr (sys_glob demo_host demo_pattern)) ++
         entries demo_host false no_directory_attr (sys_glob demo_host demo_pattern),
         ERROR_NO_MORE_FILES) /\
  achName <$> entries demo_host false no_directory_attr (sys_glob demo_host demo_pattern) =
    [bstr "config.sys"].
Proof.
  split; [|vm_compute; reflexivity].
  refine (search_repeats false 0 demo_spec demo_pattern HDIR_SYSTEM no_directory_attr
    (fs_demo demo_host) (bstr "/file/system/os2") [demo_file] demo_dir _ _ _ _ _ _).
  - exact demo_pattern_name.
  - exact demo_known.
  - left. reflexivity.
  - reflexivity.
  - reflexivity.
  - vm_compute. reflexivity.
Defined.

Definition readable_host : disk := mkDisk [(demo_file, new_file)] ∅.

Lemma directories_hide_files_witness :
  list_files 2 false 0 demo_spec HDIR_SYSTEM FILE_DIRECTORY (fs_demo readable_host) =
    Ret ([], ERROR_NO_MORE_FILES).
Proof.
  refine (directories_hide_files false 0 demo_spec demo_pattern HDIR_SYSTEM FILE_DIRECTORY
    (fs_demo readable_host) _ _ _ _ _ _).
  - exact demo_pattern_name.
  - apply Forall_cons; split; [split; [apply Nat.leb_le; reflexivity|by eexists]|apply Forall_nil_2].
  - left. reflexivity.
  - reflexivity.
  - reflexivity.
  - intros n s Es. cbn in Es. case_bool_decide; [|discriminate]. by injection Es as <-.
Defined.

(** Opened for reading and writing, nothing denied. *)
Definition rw_mode : Z := Z.lor OPEN_ACCESS_READWRITE OPEN_SHARE_DENYNONE.

Lemma open_query_state_witness :
  exists st' action,
    FSOpenL (bstr "C:\CONFIG.SYS") 1 rw_mode (0, 0) (fs_demo demo_host) =
      Ret (st', NO_ERROR, (3, action)) /\ FSQueryFHState 3 st' = Ret (NO_ERROR, rw_mode).
Proof.
  destruct (open_query_state (bstr "C:\CONFIG.SYS") demo_file 1 rw_mode (0, 0) (fs_demo demo_host)
    (mkDisk (disk_files demo_host) (<[3 := 0]> ∅)) 3) as (st' & a & E & Q & _).
  - exact demo_file_name.
  - reflexivity.
  - reflexivity.
  - lia.
  - exists st', a. exact (conj E Q).
Defined.

Lemma reopened_handle_mode_witness :
  exists st1 st2 st3 a1 a2 rc,
    FSOpenL (bstr "C:\CONFIG.SYS") 1 rw_mode (0, 0) (fs_demo demo_host) =
      Ret (st1, NO_ERROR, (3, a1)) /\
    FSClose 3 st1 = (st2, rc) /\
    FSOpenL (bstr "C:\CONFIG.SYS") 1 OPEN_SHARE_DENYNONE (0, 0) st2 = Ret (st3, NO_ERROR, (3, a2)) /\
    FSQueryFHState 3 st3 = Ret (NO_ERROR, rw_mode).
Proof.
  apply (reopened_handle_mode (bstr "C:\CONFIG.SYS") demo_file 1 rw_mode OPEN_SHARE_DENYNONE (0, 0)
    (fs_demo demo_host) (mkDisk (disk_files demo_host) (<[3 := 0]> ∅))
    (mkDisk (disk_files demo_host) (<[3 := 0]> (delete 3 (<[3 := 0]> ∅)))) 3).
  - exact demo_file_name.
  - reflexivity.
  - reflexivity.
  - lia.
  - apply Forall_nil_2.
  - reflexivity.
  - vm_compute. reflexivity.
Defined.

Lemma dup_refused_witness :
  let st := with_files (fs_demo demo_host) [mkFh 3 rw_mode demo_file] in
  exists st' rc, FSDupHandle 3 7 st = Ret (st', rc, 7) /\ rc <> NO_ERROR.
Proof.
  intros st. destruct (dup_refused 3 7 st (mkFh 3 rw_mode demo_file)) as (st' & rc & E & Hrc & _).
  - reflexivity.
  - exists st', rc. exact (conj E Hrc).
Defined.

(** Reading with writing denied asks the host for access mode 3. *)
Lemma open_mode_spec_witness :
  Z.land (open_mode 1 (Z.lor OPEN_ACCESS_READONLY OPEN_SHARE_DENYWRITE)) 3 = 3.
Proof.
  apply (open_mode_spec 1 OPEN_ACCESS_READONLY OPEN_SHARE_DENYWRITE).
  - apply (bool_decide_unpack _). vm_compute. exact I.
  - apply (bool_decide_unpack _). vm_compute. exact I.
Defined.

Lemma create_if_new_denied_witness :
  FSOpenL (bstr "C:\CONFIG.SYS") 0x10001 (Z.lor OPEN_ACCESS_READWRITE OPEN_SHARE_DENYREADWRITE)
    (0, 0) (fs_demo demo_host) = Ret (fs_demo demo_host, ERROR_ACCESS_DENIED, (0, 0)).
Proof.
  apply (create_if_new_denied (bstr "C:\CONFIG.SYS") demo_file new_file).
  - exact demo_file_name.
  - reflexivity.
  - apply (bool_decide_unpack _). vm_compute. exact I.
  - apply (bool_decide_unpack _). vm_compute. exact I.
  - reflexivity.
Defined.

(** Behind the end by 100 bytes, and to the byte below 4 GB. *)
Lemma seek_spec_witness :
  let st := fs_demo (mkDisk [] {[3 := 10]}) in
  (exists st', FSSetFilePtrL 3 100 FILE_CURRENT 0 st = Ret (st', NO_ERROR, 110)) /\
  (exists st', FSSetFilePtrL 3 (2 ^ 32 - 1) FILE_BEGIN 0 st = Ret (st', ERROR_SEEK_ON_DEVICE, 10)).
Proof.
  intros st. split.
  - destruct (seek_spec 3 100 FILE_CURRENT 0 10 new_file st) as (st' & rc & a & E & H).
    + reflexivity.
    + reflexivity.
    + lia.
    + unfold FILE_CURRENT, FILE_END, FILE_BEGIN. lia.
    + vm_compute. split; discriminate || reflexivity.
    + destruct (H : position (host st') 3 = Some 110 /\ rc = NO_ERROR /\ a = 110) as (_ & -> & ->).
      exists st'. exact E.
  - destruct (seek_spec 3 (2 ^ 32 - 1) FILE_BEGIN 0 10 new_file st) as (st' & rc & a & E & H).
    + reflexivity.
    + reflexivity.
    + lia.
    + unfold FILE_BEGIN, FILE_END. lia.
    + vm_compute. split; discriminate || reflexivity.
    + destruct (H : position (host st') 3 = Some (2 ^ 32 - 1) /\ rc = ERROR_SEEK_ON_DEVICE /\ a = 10)
        as (_ & -> & ->).
      exists st'. exact E.
Defined.

Lemma demo_tm : tm_ok (sys_localtime 0).
Proof. unfold tm_ok. cbn. lia. Qed.

Lemma file_dates_witness :
  exists f, FSQueryFileInfo 3 FIL_STANDARD [] 24 (fs_demo (mkDisk [] {[3 := 10]})) =
    (NO_ERROR, Status f) /\ date_of (fsLastWrite f) = (2024, 5, 6, 12, 30, 6).
Proof.
  destruct (file_dates 3 FIL_STANDARD false [] 24 new_file (fs_demo (mkDisk [] {[3 := 10]})))
    as (f & E & _ & _ & D).
  - reflexivity.
  - cbn. lia.
  - reflexivity.
  - exact demo_tm.
  - exact demo_tm.
  - exact demo_tm.
  - exists f. exact (conj E D).
Defined.

(** A file of 2024 is reported as one of 2084. *)
Lemma path_info_year_witness :
  exists f, FSQueryPathInfo (bstr "C:\CONFIG.SYS") FIL_STANDARD [] 24 (fs_demo demo_host) =
    Ret (NO_ERROR, Status f) /\ 1980 + year (fsLastWrite f).1 = 2084.
Proof.
  destruct (path_info_year (bstr "C:\CONFIG.SYS") demo_file [] 24 new_file (fs_demo demo_host))
    as (f & E & Y).
  - exact demo_file_name.
  - cbn. lia.
  - reflexivity.
  - exact demo_tm.
  - exists f. exact (conj E Y).
Defined.
