(* ===== verification/SharedMem.v ===== *)
(** * Shared memory ([OS2/Server/shared/server/os2exec/api/api.c])

    The areas of shared memory that the executable server keeps for all
    programs: a doubly linked list of structures with reference counts, new
    areas at its head.  The region mapper and the dataspace manager of the host
    are arguments; so are the answers of [malloc]. *)
From S2P Require Import Prelude Dll.

Definition ERROR_INVALID_NAME : Z := 123.
Definition ERROR_INVALID_ADDRESS : Z := 487.

(** [struct vmdata] of include/os3/kal.h; [name] is an array of 256 bytes. *)
Record vmdata := mkVm {
  name : list Z; owner : Z; refcnt : Z; rights : Z; area : Z; addr : Z; vsize : Z;
  next : Z; prev : Z
}.
Definition with_ref (v : vmdata) (n : Z) : vmdata :=
  mkVm (name v) (owner v) n (rights v) (area v) (addr v) (vsize v) (next v) (prev v).
Definition with_next (v : vmdata) (n : Z) : vmdata :=
  mkVm (name v) (owner v) (refcnt v) (rights v) (area v) (addr v) (vsize v) n (prev v).
Definition with_prev (v : vmdata) (p : Z) : vmdata :=
  mkVm (name v) (owner v) (refcnt v) (rights v) (area v) (addr v) (vsize v) (next v) p.

(** The structures that are allocated, and [areas_list]. *)
Record shm := mkShm { vms : gmap Z vmdata; areas_list : Z }.

Definition vm_at (h : gmap Z vmdata) (a : Z) : C vmdata :=
  if a =? 0 then Undef else need (h !! a).
Definition update (a : Z) (f : vmdata -> vmdata) (st : shm) : C shm :=
  v ← vm_at (vms st) a; Ret (mkShm (<[a := f v]> (vms st)) (areas_list st)).

(** The loop of [get_area] and [get_mem_by_name]: the first structure that
    passes the test, or null. *)
Fixpoint find_vm (fuel : nat) (h : gmap Z vmdata) (test : vmdata -> C bool) (ptr : Z) : C Z :=
  match fuel with
  | O => NoFuel
  | S fuel =>
      if ptr =? 0 then Ret 0
      else
        v ← vm_at h ptr;
        b ← test v;
        if b : bool then Ret ptr else find_vm fuel h test (next v)
  end.
Definition search_vm (test : vmdata -> C bool) (st : shm) : C Z :=
  find_vm (S (size (vms st))) (vms st) test (areas_list st).

(** The end of the area belongs to it too. *)
Definition area_has (a : Z) (v : vmdata) : bool :=
  (addr v <=? a) && (a <=? u32 (addr v + vsize v)).
Definition get_area (a : Z) (st : shm) : C Z :=
  search_vm (fun v => Ret (area_has a v)) st.

Definition get_mem_by_name (pszName : list Z) (st : shm) : C Z :=
  search_vm (fun v =>
    c ← rd8 (name v) 0;
    if c =? 0 then Ret false
    else n ← cstr (name v); Ret (bool_decide (n = pszName))) st.

(** [reserve] is what [RegAreaReserveInArea] returns and stores: the return
    code, the address and the area; [o] the answer of [malloc], an address and
    the contents of the new structure.  The result has [*addr] and [*area]. *)
Definition ExcAllocSharedMem (size : Z) (nm : option (list Z)) (rights' : Z)
    (reserve : Z * Z * Z) (o : option (Z * vmdata)) (out : Z * Z) (st : shm)
    : C (Z * (Z * Z) * shm) :=
  let '(ret, a, area2) := reserve in
  if ret <? 0 then Ret (ERROR_NOT_ENOUGH_MEMORY, (a, out.2), st)
  else
    match o with
    | None => Ret (ERROR_NOT_ENOUGH_MEMORY, (a, area2), st)
    | Some (ptr, fresh) =>
        buf ← match nm with None => Ret (name fresh) | Some s => strcpy_at (name fresh) 0 s end;
        let v := mkVm buf (owner fresh) 1 rights' area2 a size (areas_list st) 0 in
        let st1 := mkShm (<[ptr := v]> (vms st)) (areas_list st) in
        st1 ← (if areas_list st =? 0 then Ret st1
               else update (areas_list st) (fun v => with_prev v ptr) st1);
        Ret (0, (a, area2), mkShm (vms st1) ptr)
    end.

(** What the calls that find an area return: the code, and address, size and
    owner, or the number of references. *)
Definition ExcGetSharedMem (pb : Z) (st : shm) : C (Z * list Z * shm) :=
  ptr ← get_area pb st;
  if ptr =? 0 then Ret (ERROR_INVALID_ADDRESS, [], st)
  else
    v ← vm_at (vms st) ptr;
    st ← update ptr (fun v => with_ref v (u32 (refcnt v + 1))) st;
    Ret (NO_ERROR, [addr v; vsize v; owner v], st).

Definition ExcGetNamedSharedMem (nm : list Z) (st : shm) : C (Z * list Z * shm) :=
  ptr ← get_mem_by_name nm st;
  if ptr =? 0 then Ret (ERROR_INVALID_NAME, [], st)
  else
    v ← vm_at (vms st) ptr;
    st ← update ptr (fun v => with_ref v (u32 (refcnt v + 1))) st;
    Ret (NO_ERROR, [addr v; vsize v; owner v], st).

Definition ExcIncrementSharedMemRefcnt (a : Z) (st : shm) : C (Z * list Z * shm) :=
  ptr ← get_area a st;
  if ptr =? 0 then Ret (ERROR_INVALID_NAME, [], st)
  else
    st ← update ptr (fun v => with_ref v (u32 (refcnt v + 1))) st;
    Ret (NO_ERROR, [], st).

(** [areas_list] is not changed.  [release] is [RegAreaRelease]. *)
Definition ExcReleaseSharedMem (release : Z -> Z) (a : Z) (st : shm) : C (Z * list Z * shm) :=
  ptr ← get_area a st;
  if ptr =? 0 then Ret (ERROR_INVALID_ADDRESS, [], st)
  else
    st ← update ptr (fun v => with_ref v (u32 (refcnt v - 1))) st;
    v ← vm_at (vms st) ptr;
    if negb (refcnt v =? 0) then Ret (NO_ERROR, [refcnt v], st)
    else
      st ← (if prev v =? 0 then Ret st else update (prev v) (fun q => with_next q (next v)) st);
      st ← (if next v =? 0 then Ret st else update (next v) (fun q => with_prev q (prev v)) st);
      Ret (release (area v), [0], mkShm (delete ptr (vms st)) (areas_list st)).

(** [attach] is [RegAttachDataspaceToArea]. *)
Definition ExcMapDataspace (attach : Z -> Z -> Z -> Z) (a rights' : Z) (st : shm) : C Z :=
  ptr ← get_area a st;
  if ptr =? 0 then Ret ERROR_INVALID_ADDRESS
  else
    v ← vm_at (vms st) ptr;
    if attach (area v) rights' a <? 0 then Ret ERROR_FILE_NOT_FOUND else Ret 0.

(** The calls that change the list. *)
Inductive call :=
  | Alloc (size : Z) (nm : option (list Z)) (rights' : Z) (reserve : Z * Z * Z)
      (o : option (Z * vmdata))
  | Get (pb : Z)
  | GetNamed (nm : list Z)
  | Increment (a : Z)
  | Release (a : Z).

Section shared_memory.
Variable release : Z -> Z.

(** The answer to a call is the return code and what is stored for the caller. *)
Definition exec (c : call) (st : shm) : C (list Z * shm) :=
  match c with
  | Alloc size nm r reserve o =>
      '(rc, out, st) ← ExcAllocSharedMem size nm r reserve o (0, 0) st;
      Ret ([rc; out.1; out.2], st)
  | Get pb => '(rc, l, st) ← ExcGetSharedMem pb st; Ret (rc :: l, st)
  | GetNamed nm => '(rc, l, st) ← ExcGetNamedSharedMem nm st; Ret (rc :: l, st)
  | Increment a => '(rc, l, st) ← ExcIncrementSharedMemRefcnt a st; Ret (rc :: l, st)
  | Release a => '(rc, l, st) ← ExcReleaseSharedMem release a st; Ret (rc :: l, st)
  end.

Fixpoint run (cs : list call) (st : shm) : C (list (list Z) * shm) :=
  match cs with
  | [] => Ret ([], st)
  | c :: cs =>
      '(ans, st) ← exec c st;
      '(rest, st) ← run cs st;
      Ret (ans :: rest, st)
  end.

(** ** The specification

    A list of areas, the newest first.  It has no pointers. *)
Record sarea := mkArea {
  a_name : list Z; a_owner : Z; a_ref : Z; a_area : Z; a_addr : Z; a_size : Z
}.
Definition set_ref (s : sarea) (n : Z) : sarea :=
  mkArea (a_name s) (a_owner s) n (a_area s) (a_addr s) (a_size s).

Definition contains (a : Z) (s : sarea) : bool :=
  (a_addr s <=? a) && (a <=? u32 (a_addr s + a_size s)).
Definition named (n : list Z) (s : sarea) : bool :=
  negb (bool_decide (a_name s = [])) && bool_decide (a_name s = n).

(** The first area that passes a test, with the areas before and after it. *)
Fixpoint split_first (p : sarea -> bool) (l : list sarea)
    : option (list sarea * sarea * list sarea) :=
  match l with
  | [] => None
  | s :: l =>
      if p s then Some ([], s, l)
      else match split_first p l with
           | Some (pre, t, post) => Some (s :: pre, t, post)
           | None => None
           end
  end.

(** One more reference to the area that is found. *)
Definition acquire (p : sarea -> bool) (err : Z) (ans : sarea -> list Z) (l : list sarea)
    : list Z * list sarea :=
  match split_first p l with
  | None => ([err], l)
  | Some (pre, s, post) => (NO_ERROR :: ans s, pre ++ set_ref s (u32 (a_ref s + 1)) :: post)
  end.

(** [None]: the newest area loses its last reference, which the server does
    not survive. *)
Definition spec (c : call) (l : list sarea) : option (list Z * list sarea) :=
  match c with
  | Alloc size nm _ (ret, a, area2) o =>
      if ret <? 0 then Some ([ERROR_NOT_ENOUGH_MEMORY; a; 0], l)
      else
        match o with
        | None => Some ([ERROR_NOT_ENOUGH_MEMORY; a; area2], l)
        | Some (_, fresh) =>
            Some ([0; a; area2], mkArea (default [] nm) (owner fresh) 1 area2 a size :: l)
        end
  | Get pb => Some (acquire (contains pb) ERROR_INVALID_ADDRESS
                      (fun s => [a_addr s; a_size s; a_owner s]) l)
  | GetNamed nm => Some (acquire (named nm) ERROR_INVALID_NAME
                           (fun s => [a_addr s; a_size s; a_owner s]) l)
  | Increment a => Some (acquire (contains a) ERROR_INVALID_NAME (fun _ => []) l)
  | Release a =>
      match split_first (contains a) l with
      | None => Some ([ERROR_INVALID_ADDRESS], l)
      | Some (pre, s, post) =>
          let n := u32 (a_ref s - 1) in
          if negb (n =? 0) then Some ([NO_ERROR; n], pre ++ set_ref s n :: post)
          else match pre with
               | [] => None
               | _ => Some ([release (a_area s); 0], pre ++ post)
               end
      end
  end.

Fixpoint spec_run (cs : list call) (l : list sarea) : option (list (list Z) * list sarea) :=
  match cs with
  | [] => Some ([], l)
  | c :: cs =>
      match spec c l with
      | None => None
      | Some (ans, l) =>
          match spec_run cs l with
          | None => None
          | Some (rest, l) => Some (ans :: rest, l)
          end
      end
  end.

(** ** Refinement *)

Definition shows (v : vmdata) (s : sarea) : Prop :=
  cstr (name v) = Ret (a_name s) /\ owner v = a_owner s /\ refcnt v = a_ref s /\
  area v = a_area s /\ addr v = a_addr s /\ vsize v = a_size s.

Definition rep (h : gmap Z vmdata) (b : Z) (s : sarea) : Prop :=
  exists v, h !! b = Some v /\ shows v s.

(** The structures of the list, whose addresses are [L], are the areas [l]. *)
Definition represents_at (st : shm) (L : list Z) (l : list sarea) : Prop :=
  linked next prev (vms st) 0 (areas_list st) L 0 /\ NoDup L /\ Forall2 (rep (vms st)) L l.

(** What [malloc] and the caller of an allocation provide: memory that is not
    in use, and a name that fits; without a name the new structure's is empty. *)
Definition call_ok (c : call) (st : shm) : Prop :=
  match c with
  | Alloc _ nm _ _ (Some (ptr, fresh)) =>
      ptr <> 0 /\ vms st !! ptr = None /\
      match nm with
      | None => cstr (name fresh) = Ret []
      | Some s => text s /\ (length s < length (name fresh))%nat
      end
  | _ => True
  end.

(** Every call of a run is, when it is made. *)
Fixpoint run_ok (cs : list call) (st : shm) : Prop :=
  match cs with
  | [] => True
  | c :: cs => call_ok c st /\ forall ans st', exec c st = Ret (ans, st') -> run_ok cs st'
  end.
End shared_memory.

#[export] Program Instance vm_links : Links next prev := {
  with_next := with_next; with_prev := with_prev
}.
Solve Obligations with done.

(** ** Refinement: proofs *)

Lemma vm_at_ok h a v : a <> 0 -> h !! a = Some v -> vm_at h a = Ret v.
Proof. intros Ha E. unfold vm_at. destruct (Z.eqb_spec a 0); [done|]. by rewrite E. Qed.

Lemma update_ok a f st v : a <> 0 -> vms st !! a = Some v ->
  update a f st = Ret (mkShm (<[a := f v]> (vms st)) (areas_list st)).
Proof. intros Ha E. unfold update. by rewrite (vm_at_ok _ _ v). Qed.

(** A structure that keeps its contents shows the same area. *)
Lemma rep_relink h b v v' L l : h !! b = Some v -> (forall s, shows v s -> shows v' s) ->
  Forall2 (rep h) L l -> Forall2 (rep (<[b := v']> h)) L l.
Proof.
  intros E Hv H. eapply Forall2_impl; [exact H|]. intros x s (w & Ew & Hw). unfold rep. rewrite lookup_insert.
  case_decide; [subst|by exists w]. exists v'. split; [done|]. apply Hv. congruence.
Qed.

Lemma rep_other h b v L l : b ∉ L -> Forall2 (rep h) L l -> Forall2 (rep (<[b := v]> h)) L l.
Proof.
  intros Hb H. induction H as [|x s L l (w & Ew & Hw) _ IH]; [done|].
  apply not_elem_of_cons in Hb as [Hx Hb]. constructor; [|by apply IH].
  exists w. by rewrite lookup_insert_ne.
Qed.

Lemma rep_delete h b L l : b ∉ L -> Forall2 (rep h) L l -> Forall2 (rep (delete b h)) L l.
Proof.
  intros Hb H. induction H as [|x s L l (w & Ew & Hw) _ IH]; [done|].
  apply not_elem_of_cons in Hb as [Hx Hb]. constructor; [|by apply IH].
  exists w. by rewrite lookup_delete_ne.
Qed.

Lemma split_first_app p l : forall pre s post, split_first p l = Some (pre, s, post) ->
  l = pre ++ s :: post.
Proof.
  induction l as [|t l IH]; intros pre s post; [done|]. cbn [split_first].
  destruct (p t); [by intros [= <- <- <-]|].
  destruct (split_first p l) as [[[pre' s'] post']|]; [|done].
  intros [= <- <- <-]. cbn. f_equal. by apply IH.
Qed.

Section find.
Context (h : gmap Z vmdata) (test : vmdata -> C bool) (p : sarea -> bool).
Context (Ht : forall v s, shows v s -> test v = Ret (p s)).

Lemma find_vm_spec L l : Forall2 (rep h) L l -> forall fuel u a,
  linked next prev h u a L 0 -> (length L < fuel)%nat ->
  match split_first p l with
  | None => find_vm fuel h test a = Ret 0
  | Some (pre, s, post) => exists L1 b L2, L = L1 ++ b :: L2 /\ b <> 0 /\
      find_vm fuel h test a = Ret b /\ length L1 = length pre
  end.
Proof.
  induction 1 as [|b s L l (v & Ev & Hv) _ IH]; intros [|fuel] u a H Hf; try (cbn in Hf; lia).
  { cbn in H. by subst. }
  destruct H as (-> & Hb & v' & Ev' & _ & H). replace v' with v in * by congruence.
  cbn [find_vm split_first length] in *. destruct (Z.eqb_spec b 0); [done|].
  rewrite (vm_at_ok _ _ v) by done. cbn [mbind C_bind]. rewrite (Ht v s) by done.
  cbn [mbind C_bind]. destruct (p s); [by exists [], b, L|].
  specialize (IH fuel b (next v) H ltac:(lia)).
  destruct (split_first p l) as [[[pre t] post]|]; [|done].
  destruct IH as (L1 & c & L2 & -> & Hc & E & Hl). exists (b :: L1), c, L2. cbn. by rewrite Hl.
Qed.
End find.

(** What is known about a search that succeeds. *)
Record found (st : shm) (L : list Z) (pre : list sarea) (s : sarea) (post : list sarea)
    (b : Z) (L1 L2 : list Z) (v : vmdata) : Prop := {
  f_split : L = L1 ++ b :: L2;
  f_nonnull : b <> 0;
  f_at : vms st !! b = Some v;
  f_shows : shows v s;
  f_pre : Forall2 (rep (vms st)) L1 pre;
  f_post : Forall2 (rep (vms st)) L2 post
}.

Lemma search_spec st L l test p : represents_at st L l ->
  (forall v s, shows v s -> test v = Ret (p s)) ->
  match split_first p l with
  | None => search_vm test st = Ret 0
  | Some (pre, s, post) => exists b L1 L2 v,
      search_vm test st = Ret b /\ found st L pre s post b L1 L2 v
  end.
Proof.
  intros (Hk & Hnd & Hr) Ht. unfold search_vm.
  pose proof (find_vm_spec (vms st) test p Ht L l Hr (S (size (vms st))) 0 (areas_list st) Hk) as H.
  pose proof (linked_size _ _ _ _ _ Hnd Hk). specialize (H ltac:(lia)).
  destruct (split_first p l) as [[[pre s] post]|] eqn:E; [|done].
  destruct H as (L1 & b & L2 & -> & Hb & Ef & Hl). apply split_first_app in E as ->.
  apply Forall2_app_inv_l in Hr as (p1 & p2 & H1 & H2 & Hp).
  apply Forall2_cons_inv_l in H2 as (s' & p2' & (v & Ev & Hv) & H2 & ->).
  pose proof (Forall2_length _ _ _ H1) as H1l.
  apply app_inj_1 in Hp as [<- [= <- <-]]; [|lia].
  exists b, L1, L2, v. split; [done|]. by split.
Qed.

Lemma area_has_contains a v s : shows v s -> area_has a v = contains a s.
Proof. intros (_ & _ & _ & _ & E1 & E2). unfold area_has, contains. by rewrite E1, E2. Qed.

Lemma get_area_test a v s : shows v s -> Ret (area_has a v) = Ret (contains a s).
Proof. intros H. f_equal. by apply area_has_contains. Qed.

Lemma name_test nm v s : shows v s ->
  (c ← rd8 (name v) 0;
   if c =? 0 then Ret false
   else n ← cstr (name v); Ret (bool_decide (n = nm))) = Ret (named nm s).
Proof.
  intros (E & _). rewrite E. unfold named. destruct (name v) as [|c b]; [done|].
  change (rd8 (c :: b) 0) with (Ret c). cbn [mbind C_bind]. cbn [cstr] in E.
  destruct (Z.eqb_spec c 0); [by injection E as <-|].
  apply fmap_Ret_inv in E as (n' & _ & ->). done.
Qed.

(** The number of references of the area that was found is changed. *)
Lemma set_ref_spec st L pre s post b L1 L2 v n : represents_at st L (pre ++ s :: post) ->
  found st L pre s post b L1 L2 v ->
  represents_at (mkShm (<[b := with_ref v n]> (vms st)) (areas_list st)) L
    (pre ++ set_ref s n :: post).
Proof.
  intros (Hk & Hnd & _) F. destruct F as [-> Hb Ev Hv Hpre Hpost].
  pose proof Hnd as (_ & Hd & [H2 _]%NoDup_cons)%NoDup_app.
  split_and!; [|done|].
  - eapply linked_same; [|exact Hk]. intros x _. cbn [vms]. rewrite links_insert.
    case_decide; [subst|done]. unfold links. by rewrite Ev.
  - cbn [vms]. apply Forall2_app; [|constructor].
    + apply rep_other; [|done]. intros Hin. apply (Hd b Hin). by left.
    + exists (with_ref v n). rewrite lookup_insert_eq. split; [done|].
      destruct Hv as (? & ? & ? & ? & ? & ?). by split_and!.
    + by apply rep_other.
Qed.

(** The area that was found, which is not the newest, is taken out. *)
Lemma remove_spec st L pre s post b L1 L2 v : represents_at st L (pre ++ s :: post) ->
  found st L pre s post b L1 L2 v -> pre <> [] ->
  exists st1 st2,
    (if prev v =? 0 then Ret st else update (prev v) (fun q => with_next q (next v)) st) = Ret st1 /\
    (if next v =? 0 then Ret st1 else update (next v) (fun q => with_prev q (prev v)) st1) = Ret st2 /\
    represents_at (mkShm (delete b (vms st2)) (areas_list st2)) (L1 ++ L2) (pre ++ post).
Proof.
  intros (Hk & Hnd & _) F Hne. destruct F as [-> Hb Ev Hv Hpre Hpost].
  destruct (exists_last (l := L1)) as (L0 & k & ->).
  { intros ->. apply Forall2_nil_inv_l in Hpre. done. }
  destruct (linked_unlink _ _ _ _ _ _ _ Hk Hnd Ev) as (Epv & Hk0 & Hkb & pk & Ek & Hm).
  cbn [Dll.with_next Dll.with_prev vm_links] in Hm.
  rewrite Epv. destruct (Z.eqb_spec k 0); [done|]. rewrite (update_ok k _ st pk) by done.
  assert (HbL : b ∉ (L0 ++ [k]) ++ L2).
  { apply NoDup_app in Hnd as (_ & Hd & [H2 _]%NoDup_cons). intros [Hx|Hx]%elem_of_app; [|done].
    apply (Hd b Hx). by left. }
  assert (Hnd' : NoDup ((L0 ++ [k]) ++ L2)).
  { apply NoDup_app in Hnd as (H1 & Hd & [_ H2]%NoDup_cons). apply NoDup_app. split_and!; [done| |done].
    intros x Hx Hx2. apply (Hd x Hx). by right. }
  assert (R1 : forall n, Forall2 (rep (<[k := with_next pk n]> (vms st))) ((L0 ++ [k]) ++ L2) (pre ++ post)).
  { intros n'. apply (rep_relink _ _ pk); [done|done|]. by apply Forall2_app. }
  destruct L2 as [|m L2].
  - destruct Hm as (En & Hm). rewrite En in *. eexists _, _. split; [done|]. split; [done|]. rewrite app_nil_r in *.
    split_and!; [by apply linked_delete|done|apply rep_delete; [done|apply R1]].
  - destruct Hm as (En & Hm0 & Hmb & pm & Epm & Hm). rewrite En in *.
    destruct (Z.eqb_spec m 0); [done|]. eexists _, _. split; [done|].
    rewrite (update_ok m _ _ pm) by (done || exact Epm). split; [done|].
    split_and!; [by apply linked_delete|done|]. apply rep_delete; [done|].
    apply (rep_relink _ _ pm); [done|done|apply R1].
Qed.

Section simulation.
Variable release : Z -> Z.

(** The three calls that take a reference to the area they find. *)
Definition taking (test : vmdata -> C bool) (err : Z) (ans : vmdata -> list Z) (st : shm)
    : C (Z * list Z * shm) :=
  ptr ← search_vm test st;
  if ptr =? 0 then Ret (err, [], st)
  else
    v ← vm_at (vms st) ptr;
    st ← update ptr (fun v => with_ref v (u32 (refcnt v + 1))) st;
    Ret (NO_ERROR, ans v, st).

Lemma taking_spec st L l test p err ans sans :
  represents_at st L l -> (forall v s, shows v s -> test v = Ret (p s)) ->
  (forall v s, shows v s -> ans v = sans s) ->
  exists rc out st', taking test err ans st = Ret (rc, out, st') /\
    acquire p err sans l = (rc :: out, (acquire p err sans l).2) /\
    represents_at st' L (acquire p err sans l).2.
Proof.
  intros R Ht Ha. pose proof (search_spec st L l test p R Ht) as H. unfold taking, acquire.
  destruct (split_first p l) as [[[pre s] post]|] eqn:E.
  - destruct H as (b & L1 & L2 & v & -> & F). cbn [mbind C_bind].
    apply split_first_app in E as ->. pose proof (set_ref_spec _ _ _ _ _ _ _ _ _ (u32 (refcnt v + 1)) R F) as R'.
    destruct F as [_ Hb Ev Hv _ _]. destruct (Z.eqb_spec b 0); [done|].
    rewrite (vm_at_ok _ _ v) by done. cbn [mbind C_bind]. rewrite (update_ok b _ st v) by done.
    cbn [mbind C_bind]. eexists _, _, _. split; [done|]. rewrite (Ha v s) by done.
    destruct Hv as (_ & _ & <- & _). done.
  - rewrite H. cbn [mbind C_bind]. eexists _, _, _. split; [done|]. done.
Qed.

(** Allocation puts the new area at the head. *)
Lemma alloc_spec st L l size nm r reserve o : represents_at st L l ->
  call_ok (Alloc size nm r reserve o) st ->
  exists ans l' st' L', spec release (Alloc size nm r reserve o) l = Some (ans, l') /\
    exec release (Alloc size nm r reserve o) st = Ret (ans, st') /\ represents_at st' L' l'.
Proof.
  intros (Hk & Hnd & Hr) Hok. destruct reserve as [[ret a] area2]. cbn [spec exec].
  unfold ExcAllocSharedMem. destruct (ret <? 0); [by eexists _, _, _, _|].
  destruct o as [[ptr fresh]|]; [|by eexists _, _, _, _].
  destruct Hok as (Hp0 & Hpn & Hnm).
  assert (Hbuf : exists buf, match nm with None => Ret (name fresh) | Some s => strcpy_at (name fresh) 0 s end
    = Ret buf /\ cstr buf = Ret (default [] nm)).
  { destruct nm as [s|]; [|by eexists]. destruct Hnm as [Hs Hl]. eexists.
    split; [by apply strcpy_at_0|]. by apply cstr_text. }
  destruct Hbuf as (buf & Eb & Hc). rewrite Eb. cbn [mbind C_bind].
  assert (HpL : ptr ∉ L).
  { intros Hin. destruct (linked_dom _ _ _ _ _ Hk ptr Hin) as [_ [v Ev]]. congruence. }
  set (v := mkVm buf (owner fresh) 1 r area2 a size (areas_list st) 0).
  set (s := mkArea (default [] nm) (owner fresh) 1 area2 a size).
  assert (Hv : shows v s) by by split_and!.
  pose proof (linked_cons (vms st) (areas_list st) L ptr v Hk HpL Hnd Hp0 eq_refl eq_refl) as K.
  assert (Hnd' : NoDup (ptr :: L)) by by constructor.
  assert (R1 : Forall2 (rep (<[ptr := v]> (vms st))) (ptr :: L) (s :: l)).
  { constructor; [exists v; by rewrite lookup_insert_eq|by apply rep_other]. }
  destruct L as [|b L].
  - destruct K as (E0 & K). rewrite E0. change (0 =? 0) with true. cbv iota. cbn [mbind C_bind].
    eexists _, _, _, _. split; [done|]. split; [done|]. by split_and!.
  - destruct K as (E0 & Hb & q & Eq & K). rewrite E0 in *. destruct (Z.eqb_spec b 0); [done|].
    rewrite (update_ok b _ _ q) by (done || exact Eq). cbn [mbind C_bind].
    eexists _, _, _, _. split; [done|]. split; [done|]. split_and!; [exact K|exact Hnd'|].
    by apply (rep_relink _ _ q).
Qed.

Lemma release_spec a st L l ans l' : represents_at st L l ->
  spec release (Release a) l = Some (ans, l') ->
  exists st' L', exec release (Release a) st = Ret (ans, st') /\ represents_at st' L' l'.
Proof.
  intros R Hs. cbn [spec exec] in *. unfold ExcReleaseSharedMem, get_area.
  pose proof (search_spec st L l _ _ R (get_area_test a)) as H.
  destruct (split_first (contains a) l) as [[[pre s] post]|] eqn:E.
  - destruct H as (b & L1 & L2 & v & -> & F). cbn [mbind C_bind].
    apply split_first_app in E as ->.
    pose proof (set_ref_spec _ _ _ _ _ _ _ _ _ (u32 (refcnt v - 1)) R F) as R'.
    pose proof F as [HL Hb Ev Hv Hpre Hpost]. destruct (Z.eqb_spec b 0); [done|].
    rewrite (update_ok b _ st v) by done. cbn [mbind C_bind].
    set (v' := with_ref v (u32 (refcnt v - 1))) in *.
    set (st1 := mkShm (<[b := v']> (vms st)) (areas_list st)) in *.
    assert (Ev' : vms st1 !! b = Some v') by (cbn; by rewrite lookup_insert_eq).
    rewrite (vm_at_ok _ _ v') by done. cbn [mbind C_bind].
    pose proof Hv as (Hv1 & Hv2 & Hv3 & Hv4 & Hv5 & Hv6).
    change (refcnt v') with (u32 (refcnt v - 1)). rewrite Hv3 in *.
    destruct (negb (u32 (a_ref s - 1) =? 0)).
    + injection Hs as <- <-. cbn [mbind C_bind]. by eexists _, _.
    + destruct pre as [|t pre]; [done|]. injection Hs as <- <-.
      assert (F' : found st1 L (t :: pre) (set_ref s (u32 (a_ref s - 1))) post b L1 L2 v').
      { destruct R as (_ & Hnd & _). rewrite HL in Hnd.
        apply NoDup_app in Hnd as (_ & Hd & [H2 _]%NoDup_cons).
        assert (shows v' (set_ref s (u32 (a_ref s - 1)))) by (unfold v'; split_and!; cbn; congruence).
        split; try done; cbn [st1 vms]; apply rep_other; try done.
        intros Hin. apply (Hd b Hin). by left. }
      destruct (remove_spec _ _ _ _ _ _ _ _ _ R' F') as (st2 & st3 & E2 & E3 & R3); [done|].
      change (prev v') with (prev v) in *. change (next v') with (next v) in *.
      rewrite E2. cbn [mbind C_bind]. rewrite E3. cbn [mbind C_bind].
      change (area v') with (area v). rewrite Hv4. by eexists _, _.
  - rewrite H. cbn [mbind C_bind]. injection Hs as <- <-. by eexists _, _.
Qed.

Lemma step_spec c st L l ans l' : represents_at st L l -> call_ok c st ->
  spec release c l = Some (ans, l') ->
  exists st' L', exec release c st = Ret (ans, st') /\ represents_at st' L' l'.
Proof.
  intros R Hok Hs. destruct c as [size nm r reserve o|pb|nm|a|a].
  - destruct (alloc_spec st L l size nm r reserve o R Hok) as (ans0 & l0 & st' & L' & E & E' & R').
    rewrite E in Hs. injection Hs as <- <-. eauto.
  - destruct (taking_spec st L l _ _ ERROR_INVALID_ADDRESS (fun v => [addr v; vsize v; owner v])
      (fun s => [a_addr s; a_size s; a_owner s]) R (get_area_test pb))
      as (rc & out & st' & E & Ea & R').
    { by intros v s (_ & -> & _ & _ & -> & ->). }
    cbn [spec] in Hs. rewrite Ea in Hs. injection Hs as <- <-. exists st', L. split; [|done].
    cbn [exec]. change (ExcGetSharedMem pb st) with
      (taking (fun v => Ret (area_has pb v)) ERROR_INVALID_ADDRESS
         (fun v => [addr v; vsize v; owner v]) st). by rewrite E.
  - destruct (taking_spec st L l _ _ ERROR_INVALID_NAME (fun v => [addr v; vsize v; owner v])
      (fun s => [a_addr s; a_size s; a_owner s]) R (name_test nm))
      as (rc & out & st' & E & Ea & R').
    { by intros v s (_ & -> & _ & _ & -> & ->). }
    cbn [spec] in Hs. rewrite Ea in Hs. injection Hs as <- <-. exists st', L. split; [|done].
    cbn [exec]. unfold ExcGetNamedSharedMem, get_mem_by_name. unfold taking in E. by rewrite E.
  - destruct (taking_spec st L l _ _ ERROR_INVALID_NAME (fun _ => []) (fun _ => []) R (get_area_test a))
      as (rc & out & st' & E & Ea & R'); [done|].
    cbn [spec] in Hs. rewrite Ea in Hs. injection Hs as <- <-. exists st', L. split; [|done].
    cbn [exec]. unfold taking in E. unfold ExcIncrementSharedMemRefcnt, get_area.
    destruct (search_vm _ st) as [ptr| | |]; try done. cbn [mbind C_bind] in *.
    destruct (ptr =? 0); [by injection E as <- <- <-|].
    unfold update in *. destruct (vm_at (vms st) ptr); try done. by injection E as <- <- <-.
  - by eapply release_spec.
Qed.

Lemma run_spec cs : forall st L l answers l', represents_at st L l -> run_ok release cs st ->
  spec_run release cs l = Some (answers, l') ->
  exists st' L', run release cs st = Ret (answers, st') /\ represents_at st' L' l'.
Proof.
  induction cs as [|c cs IH]; intros st L l answers l' R Hok Hs; cbn [spec_run run] in *.
  { injection Hs as <- <-. by exists st, L. }
  destruct Hok as [Hc Hok]. destruct (spec release c l) as [[ans l1]|] eqn:E; [|done].
  destruct (step_spec c st L l ans l1 R Hc E) as (st1 & L1 & E1 & R1).
  destruct (spec_run release cs l1) as [[rest l2]|] eqn:E2; [|done]. injection Hs as <- <-.
  destruct (IH st1 L1 l1 rest l2 R1 (Hok _ _ E1) E2) as (st2 & L2 & E3 & R2).
  exists st2, L2. rewrite E1. cbn [mbind C_bind]. by rewrite E3.
Qed.

(** C20: The list of structures with links behaves as a list of areas: for every
    sequence of calls, the answers and the areas are those of the specification,
    as long as the newest area keeps a reference. *)
Theorem shared_memory_refines cs answers l' :
  run_ok release cs (mkShm ∅ 0) -> spec_run release cs [] = Some (answers, l') ->
  exists st' L', run release cs (mkShm ∅ 0) = Ret (answers, st') /\ represents_at st' L' l'.
Proof.
  apply (run_spec cs _ []). split; [done|]. split; [apply NoDup_nil_2|constructor].
Qed.

(** When the newest area loses its last reference its structure is released
    but stays at the head of the list, and the next search reads it. *)
Theorem newest_release_dangles st b L s l a : represents_at st (b :: L) (s :: l) ->
  contains a s = true -> a_ref s = 1 ->
  exists st', exec release (Release a) st = Ret ([release (a_area s); 0], st') /\
    areas_list st' = b /\ vms st' !! b = None /\
    forall c, match c with Alloc _ _ _ _ _ => False | _ => True end -> exec release c st' = Undef.
Proof.
  intros R Ha Hr. cbn [exec]. unfold ExcReleaseSharedMem, get_area.
  pose proof (search_spec st (b :: L) (s :: l) _ _ R (get_area_test a)) as H.
  cbn [split_first] in H. rewrite Ha in H.
  destruct H as (b' & L1 & L2 & v & -> & [HL Hb Ev Hv Hpre Hpost]).
  apply Forall2_nil_inv_r in Hpre as ->. injection HL as <- <-.
  destruct R as ((Hroot & _ & v' & Ev' & Epv & Hk) & [HbL Hnd]%NoDup_cons & _).
  replace v' with v in * by congruence. pose proof Hv as (_ & _ & Hv3 & Hv4 & _ & _).
  cbn [mbind C_bind]. destruct (Z.eqb_spec b 0); [done|].
  rewrite (update_ok b _ st v) by done. cbn [mbind C_bind vms areas_list].
  rewrite (vm_at_ok _ _ (with_ref v (u32 (refcnt v - 1)))) by (done || by rewrite lookup_insert_eq).
  cbn [mbind C_bind]. change (refcnt (with_ref v (u32 (refcnt v - 1)))) with (u32 (refcnt v - 1)).
  rewrite Hv3, Hr. change (negb (u32 (1 - 1) =? 0)) with false. cbv iota.
  change (prev (with_ref v (u32 (1 - 1)))) with (prev v). rewrite Epv.
  change (0 =? 0) with true. cbv iota. cbn [mbind C_bind].
  change (next (with_ref v (u32 (1 - 1)))) with (next v).
  assert (Hstep : exists st1, (if next v =? 0
      then Ret (mkShm (<[b := with_ref v (u32 (1 - 1))]> (vms st)) (areas_list st))
      else update (next v) (fun q => with_prev q 0)
        (mkShm (<[b := with_ref v (u32 (1 - 1))]> (vms st)) (areas_list st))) = Ret st1 /\
      areas_list st1 = areas_list st).
  { destruct (Z.eqb_spec (next v) 0); [by eexists|]. destruct L as [|m L]; [done|].
    destruct Hk as (Em & Hm & vm & Evm & _). rewrite Em.
    rewrite (update_ok m _ _ vm); [by eexists|done|].
    cbn [vms]. rewrite lookup_insert_ne; [done|]. intros ->. apply HbL. by left. }
  destruct Hstep as (st1 & -> & Hl1). cbn [mbind C_bind].
  change (area (with_ref v (u32 (1 - 1)))) with (area v). rewrite Hv4.
  eexists. split; [done|]. cbn [areas_list vms]. rewrite Hl1. split_and!; [done|by rewrite lookup_delete_eq|].
  set (st2 := mkShm _ _).
  assert (Hsearch : forall test, search_vm test st2 = Undef).
  { intros test. unfold search_vm. cbn [st2 areas_list vms find_vm]. rewrite Hroot.
    destruct (Z.eqb_spec b 0); [done|]. unfold vm_at. destruct (Z.eqb_spec b 0); [done|].
    by rewrite lookup_delete_eq. }
  intros [| | | |] Hc; [done|..]; cbn [exec];
    unfold ExcGetSharedMem, ExcGetNamedSharedMem, ExcIncrementSharedMemRefcnt, ExcReleaseSharedMem,
      get_area, get_mem_by_name; by rewrite Hsearch.
Qed.

(** Only allocations have conditions. *)
Definition is_alloc (c : call) : bool := match c with Alloc _ _ _ _ _ => true | _ => false end.
Lemma run_ok_plain cs : forallb (fun c => negb (is_alloc c)) cs = true ->
  forall st, run_ok release cs st.
Proof.
  induction cs as [|c cs IH]; [done|]. intros [Hc Hcs]%andb_true_iff st. split; [by destruct c|].
  intros ans st' _. by apply IH.
Qed.

Lemma split_first_pre p pre s post : Forall (fun t => p t = false) pre -> p s = true ->
  split_first p (pre ++ s :: post) = Some (pre, s, post).
Proof.
  intros Hpre Hs. induction Hpre as [|t pre Ht _ IH]; cbn; [by rewrite Hs|]. by rewrite Ht, IH.
Qed.

(** The answers to [n] releases before the last. *)
Fixpoint countdown (n : nat) : list (list Z) :=
  match n with O => [] | S n => [NO_ERROR; Z.of_nat (S n)] :: countdown n end.

Lemma spec_releases a pre post n : forall s,
  Forall (fun t => contains a t = false) pre -> contains a s = true -> pre <> [] ->
  a_ref s = Z.of_nat (S n) -> a_ref s < 2 ^ 32 ->
  spec_run release (replicate (S n) (Release a)) (pre ++ s :: post) =
    Some (countdown n ++ [[release (a_area s); 0]], pre ++ post).
Proof.
  induction n as [|n IH]; intros s Hpre Hs Hne Hr Hlt; rewrite replicate_S;
    cbn [spec_run spec]; rewrite split_first_pre by done; cbv zeta; rewrite u32_id by (unfold is_u32; lia).
  - rewrite Hr. change (negb (Z.of_nat 1 - 1 =? 0)) with false. cbv iota. by destruct pre.
  - destruct (Z.eqb_spec (a_ref s - 1) 0); [lia|]. cbn [negb].
    specialize (IH (set_ref s (a_ref s - 1)) Hpre Hs Hne).
    rewrite IH by (cbn; lia). cbn [countdown app].
    do 4 f_equal. f_equal. lia.
Qed.

(** An area other than the newest is kept until it has been released as many
    times as it was allocated and shared, and is then given back; each release
    tells the references that are left. *)
Theorem last_reference_removes st L pre s post a n : represents_at st L (pre ++ s :: post) ->
  Forall (fun t => contains a t = false) pre -> contains a s = true -> pre <> [] ->
  a_ref s = Z.of_nat (S n) -> a_ref s < 2 ^ 32 ->
  exists st' L', run release (replicate (S n) (Release a)) st =
      Ret (countdown n ++ [[release (a_area s); 0]], st') /\
    represents_at st' L' (pre ++ post).
Proof.
  intros R Hpre Hs Hne Hr Hlt. eapply run_spec; [exact R| |by apply spec_releases].
  apply run_ok_plain. clear. induction (S n); [done|]. by rewrite replicate_S.
Qed.
End simulation.

(** ** Two areas *)

Lemma run_ok_step release c cs st ans st' : exec release c st = Ret (ans, st') ->
  call_ok c st -> run_ok release cs st' -> run_ok release (c :: cs) st.
Proof. intros E Hc Hr. split; [done|]. intros ans0 st0 E0. rewrite E in E0. by injection E0 as <- <-. Qed.

(** What [malloc] gives: an array of zeros for the name. *)
Definition demo_fresh : vmdata := mkVm (replicate 256 0) 7 0 0 0 0 0 0 0.
Definition demo_release (area : Z) : Z := 0.

Definition demo_alloc1 : call :=
  Alloc 4096 (Some (bstr "\SHAREMEM\A")) 3 (0, 0x60000000, 1) (Some (100, demo_fresh)).
Definition demo_alloc2 : call :=
  Alloc 8192 None 3 (0, 0x60010000, 2) (Some (200, demo_fresh)).

(** Two areas; the first is shared by its name and released twice. *)
Definition demo_calls : list call :=
  [demo_alloc1; demo_alloc2; GetNamed (bstr "\SHAREMEM\A");
   Release 0x60000000; Release 0x60000010; Get 0x60000000].

Definition demo_answers : list (list Z) :=
  [[0; 0x60000000; 1]; [0; 0x60010000; 2]; [0; 0x60000000; 4096; 7]; [0; 1]; [0; 0];
   [ERROR_INVALID_ADDRESS]].

Lemma demo_run_ok : run_ok demo_release demo_calls (mkShm ∅ 0).
Proof.
  eapply run_ok_step; [vm_compute; reflexivity| |].
  { split_and!; [done|reflexivity|by apply text_check|apply Nat.ltb_lt; reflexivity]. }
  eapply run_ok_step; [vm_compute; reflexivity| |].
  { split_and!; [done|vm_compute; reflexivity|reflexivity]. }
  by apply run_ok_plain.
Qed.

Lemma shared_memory_refines_witness :
  spec_run demo_release demo_calls [] =
    Some (demo_answers, [mkArea [] 7 1 2 0x60010000 8192]) /\
  exists st' L', run demo_release demo_calls (mkShm ∅ 0) = Ret (demo_answers, st') /\
    represents_at st' L' [mkArea [] 7 1 2 0x60010000 8192].
Proof.
  split; [vm_compute; reflexivity|].
  apply (shared_memory_refines demo_release demo_calls demo_answers).
  - exact demo_run_ok.
  - vm_compute. reflexivity.
Defined.

(** The state with the two areas. *)
Definition demo_vm1 : vmdata :=
  mkVm (bstr "\SHAREMEM\A" ++ replicate 245 0) 7 2 3 1 0x60000000 4096 0 200.
Definition demo_vm2 : vmdata := mkVm (replicate 256 0) 7 1 3 2 0x60010000 8192 100 0.
Definition demo_shm : shm := mkShm (<[100 := demo_vm1]> {[200 := demo_vm2]}) 200.
Definition demo_area1 : sarea := mkArea (bstr "\SHAREMEM\A") 7 2 1 0x60000000 4096.
Definition demo_area2 : sarea := mkArea [] 7 1 2 0x60010000 8192.

Lemma demo_represents : represents_at demo_shm [200; 100] [demo_area2; demo_area1].
Proof.
  split; [|split].
  - split; [reflexivity|split; [done|]]. exists demo_vm2. split; [reflexivity|split; [reflexivity|]].
    split; [reflexivity|split; [done|]]. exists demo_vm1. by split_and!.
  - apply (bool_decide_unpack _). vm_compute. exact I.
  - constructor; [exists demo_vm2; split; [reflexivity|by split_and!]|].
    constructor; [exists demo_vm1; split; [reflexivity|by split_and!]|constructor].
Qed.

Lemma newest_release_dangles_witness :
  exists st', exec demo_release (Release 0x60010000) demo_shm = Ret ([0; 0], st') /\
    exec demo_release (Get 0x60000000) st' = Undef.
Proof.
  destruct (newest_release_dangles demo_release demo_shm 200 [100] demo_area2 [demo_area1] 0x60010000)
    as (st' & E & _ & _ & H).
  - exact demo_represents.
  - reflexivity.
  - reflexivity.
  - exists st'. exact (conj E (H (Get 0x60000000) I)).
Defined.

Lemma last_reference_removes_witness :
  exists st' L', run demo_release [Release 0x60000000; Release 0x60000000] demo_shm =
      Ret ([[0; 1]; [0; 0]], st') /\ represents_at st' L' [demo_area2].
Proof.
  apply (last_reference_removes demo_release demo_shm [200; 100] [demo_area2] demo_area1 [] 0x60000000 1).
  - exact demo_represents.
  - constructor; [reflexivity|constructor].
  - reflexivity.
  - discriminate.
  - reflexivity.
  - reflexivity.
Defined.
