(* ===== verification/DosName.v ===== *)
(** * File names in programs ([OS2/CPI/doscalls])

    What DOSCALLS does with names before it asks a server: the search of a
    variable in the environment of the process (env.c), the search of a file
    along a path (dossearchpath.c, with the tokenizer of token.c, which is that
    of [PathSearch]), and the editing of a name by a pattern with wildcards
    (doseditname.c).  A string argument is the contents of the terminated
    string, a buffer of the caller the list of its bytes. *)
From S2P Require Import Prelude ProcMgr PathSearch ModMgr.

Definition ERROR_INVALID_FUNCTION : Z := 1.
Definition CCHMAXPATH : Z := 260.

(** ** Bounded strings (strnlen.c, strlcpy.c, strlcat.c) *)

Fixpoint strnlen (str : list Z) (n : Z) : Z :=
  match str with
  | [] => 0
  | _ :: str => if 0 <? n then 1 + strnlen str (n - 1) else 0
  end.

(** [n] is what is left of [siz], at least 1; [d] the position in [b]. *)
Fixpoint strlcpy_loop (s : list Z) (n : Z) (b : list Z) (d : Z) : C (list Z) :=
  if n =? 1 then wr8 b d 0
  else match s with
       | [] => wr8 b d 0
       | c :: s => b ← wr8 b d c; strlcpy_loop s (n - 1) b (d + 1)
       end.
Definition strlcpy (b s : list Z) (siz : Z) : C (list Z) :=
  if siz =? 0 then Ret b else strlcpy_loop s siz b 0.

(** The end of the string in [b], at most [n] bytes on. *)
Fixpoint cat_end (n : nat) (b : list Z) (d : Z) : C Z :=
  match n with
  | O => Ret d
  | S n => c ← rd8 b d; if c =? 0 then Ret d else cat_end n b (d + 1)
  end.
Fixpoint cat_copy (s : list Z) (n : Z) (b : list Z) (d : Z) : C (list Z) :=
  match s with
  | [] => wr8 b d 0
  | c :: s =>
      if n =? 1 then cat_copy s n b d
      else b ← wr8 b d c; cat_copy s (n - 1) b (d + 1)
  end.
Definition strlcat (b s : list Z) (siz : Z) : C (list Z) :=
  d ← cat_end (Z.to_nat siz) b 0;
  if siz - d =? 0 then Ret b else cat_copy s (siz - d) b d.

(** ** The environment (env.c)

    [env] is the array at [pib_pchenv]. *)

Definition equals_sign : Z := ch "="%char.

(** Up to the sign, the end, or [n] bytes on. *)
Fixpoint name_end (n : nat) (env : list Z) (q : Z) : C Z :=
  c ← rd8 env q;
  if (c =? 0) || (c =? equals_sign) then Ret q
  else match n with O => Ret q | S n => name_end n env (q + 1) end.

Fixpoint scan_vars (fuel : nat) (env pszName : list Z) (p : Z) : C (Z * option Z) :=
  match fuel with
  | O => NoFuel
  | S fuel =>
      c ← rd8 env p;
      if c =? 0 then Ret (ERROR_ENVVAR_NOT_FOUND, None)
      else
        q ← name_end (Z.to_nat (CCHMAXPATH - 1)) env p;
        let varname := take (Z.to_nat (q - p)) (drop (Z.to_nat p) env) in
        if bool_decide (lower varname = lower pszName) then Ret (NO_ERROR, Some (q + 1))
        else
          s ← cstr (drop (Z.to_nat p) env);
          scan_vars fuel env pszName (p + Z.of_nat (length s) + 1)
  end.

(** The return code and what is stored at [ppszValue], if anything: a position
    in the environment. *)
Definition DosScanEnv (env pszName : list Z) : C (Z * option Z) :=
  scan_vars (S (length env)) env pszName 0.

(** ** Searching a file (dossearchpath.c) *)

Definition SEARCH_CUR_DIRECTORY : Z := 1.
Definition SEARCH_ENVIRONMENT : Z := 2.
Definition SEARCH_IGNORENETERRS : Z := 4.

Section search_path.
(** The return code of [DosOpen] for a name, which opens for reading and is
    followed by [DosClose]; what [DosQueryCurrentDir] stores in the local array;
    whether [DosAllocMem] succeeds. *)
Variable DosOpen : list Z -> Z.
Variable curdir : list Z.
Variable alloc_ok : bool.

Definition searched : Type := Z * list Z * tok.

(** [pBuf] holds the name to be tried in the directory at [p] of the area
    [b]. *)
Definition file_in (pBuf b : list Z) (cbBuf p : Z) (pszFilename : list Z) : C (list Z) :=
  dir ← cstr (drop (Z.to_nat p) b);
  pBuf ← wr8 pBuf 0 0;
  pBuf ← strlcat pBuf (if bool_decide (dir = bstr ".") then curdir else dir) cbBuf;
  l ← rd8 b (p + strnlen dir cbBuf - 1);
  pBuf ← (if l =? backslash then Ret pBuf else strlcat pBuf [backslash] cbBuf);
  strlcat pBuf pszFilename cbBuf.

Fixpoint search_loop (fuel : nat) (cbBuf : Z) (pszFilename : list Z) (st : tok)
    (p : option Z) (pBuf b : list Z) (t : tok) : C searched :=
  match fuel with
  | O => NoFuel
  | S fuel =>
      match p with
      | None =>
          pBuf ← wr8 pBuf 0 0;
          Ret (ERROR_FILE_NOT_FOUND, pBuf, StrTokRestore st)
      | Some q =>
          let again pBuf :=
            '(p, b, t) ← StrTokenize None (Some psep) b t;
            search_loop fuel cbBuf pszFilename st p pBuf b t in
          c ← rd8 b q;
          if c =? 0 then again pBuf
          else
            pBuf ← file_in pBuf b cbBuf q pszFilename;
            name ← cstr pBuf;
            if strnlen name cbBuf =? cbBuf then
              '(_, t) ← StrTokStop b t;
              Ret (ERROR_BUFFER_OVERFLOW, pBuf, t)
            else if negb (DosOpen name =? 0) then again pBuf
            else
              '(_, t) ← StrTokStop b t;
              Ret (NO_ERROR, pBuf, t)
      end
  end.

(** The return code, the buffer and the state of the tokenizer.  The path in
    the environment is looked for without regard to the return code: without
    the variable the pointer is not initialised. *)
Definition DosSearchPath (env : list Z) (flag : Z) (pszPathOrName pszFilename : option (list Z))
    (pBuf : option (list Z)) (cbBuf : Z) (t : tok) : C (Z * option (list Z) * tok) :=
  match pszPathOrName, pszFilename, pBuf with
  | Some ((_ :: _) as pathOrName), Some ((_ :: _) as filename), Some buf =>
      if cbBuf =? 0 then Ret (ERROR_INVALID_PARAMETER, pBuf, t)
      else if negb (Z.land flag (Z.lnot (Z.lor SEARCH_ENVIRONMENT
                      (Z.lor SEARCH_CUR_DIRECTORY SEARCH_IGNORENETERRS))) =? 0)
      then Ret (ERROR_INVALID_FUNCTION, pBuf, t)
      else
        pathtmp ←
          (if negb (Z.land flag SEARCH_ENVIRONMENT =? 0) then
             '(_, v) ← DosScanEnv env pathOrName;
             v ← need v;
             cstr (drop (Z.to_nat v) env)
           else Ret pathOrName);
        _ ← require alloc_ok;
        let path :=
          (if negb (Z.land flag SEARCH_CUR_DIRECTORY =? 0) then bstr "." ++ psep else [])
          ++ pathtmp in
        let st := StrTokSave t in
        '(p, b, t) ← StrTokenize (Some 0) (Some psep) (path ++ [0]) t;
        '(rc, buf, t) ← search_loop (S (S (length path))) cbBuf filename st p buf b t;
        Ret (rc, Some buf, t)
  | _, _, _ => Ret (ERROR_INVALID_PARAMETER, pBuf, t)
  end.
End search_path.

(** ** Editing a name (doseditname.c) *)

Definition qmark : Z := ch "?"%char.
Definition star : Z := ch "*"%char.
Definition dot : Z := ch "."%char.

(** The loop of an asterisk: the rest of the source, the position in the
    target, the count of bytes left and the target. *)
Fixpoint star_loop (pszSource pszEdit : list Z) (s cbTarget : Z) (b : list Z)
    : C (list Z * Z * Z * list Z) :=
  match pszSource with
  | [] => b ← wr8 b s 0; Ret ([], s, u32 (cbTarget - 1), b)
  | c :: pszSource =>
      b ← wr8 b s c;
      let cbTarget := u32 (cbTarget - 1) in
      if c =? str_at pszEdit then Ret (pszSource, s, cbTarget, b)
      else star_loop pszSource pszEdit (s + 1) cbTarget b
  end.

Fixpoint edit_loop (pszEdit pszSource : list Z) (s cbTarget : Z) (b : list Z)
    : C (Z * list Z) :=
  let cbTarget := u32 (cbTarget - 1) in
  if cbTarget =? 0 then Ret (s, b)
  else match pszEdit with
       | [] => b ← wr8 b s 0; Ret (s, b)
       | e :: pszEdit =>
           b ← wr8 b s e;
           if e =? qmark then
             match pszSource with
             | [] => edit_loop pszEdit pszSource s cbTarget b
             | c :: rest =>
                 if c =? dot then edit_loop pszEdit pszSource s cbTarget b
                 else b ← wr8 b s c; edit_loop pszEdit rest (s + 1) cbTarget b
             end
           else if e =? star then
             '(pszSource, s, cbTarget, b) ← star_loop pszSource pszEdit s cbTarget b;
             b ← wr8 b s (str_at pszEdit);
             edit_loop pszEdit pszSource s (u32 (cbTarget + 1)) b
           else if e =? dot then edit_loop pszEdit pszSource (s + 1) cbTarget b
           else edit_loop pszEdit (tail pszSource) (s + 1) cbTarget b
       end.

(** The return code and the target. *)
Definition DosEditName (metalevel : Z) (pszSource pszEdit pszTarget : option (list Z))
    (cbTarget : Z) : C (Z * option (list Z)) :=
  if negb (metalevel =? 1) then Ret (ERROR_INVALID_PARAMETER, pszTarget)
  else if cbTarget =? 0 then Ret (ERROR_INVALID_PARAMETER, pszTarget)
  else match pszTarget with
       | None => Ret (ERROR_INVALID_PARAMETER, None)
       | Some b =>
           let edit := default [] pszEdit in
           let source := default [] pszSource in
           '(s, b) ← edit_loop edit source 0 cbTarget b;
           b ← wr8 b s 0;
           name ← cstr b;
           if negb (bool_decide (qmark ∈ name)) then Ret (ERROR_INVALID_NAME, Some b)
           else if negb (bool_decide (star ∈ name)) then Ret (ERROR_INVALID_NAME, Some b)
           else Ret (NO_ERROR, Some b)
       end.

(** ** Bounded strings: proofs *)

Lemma strnlen_min s : forall n, 0 <= n -> strnlen s n = Z.min (Z.of_nat (length s)) n.
Proof.
  induction s as [|c s IH]; intros n Hn; cbn [strnlen length]; [lia|].
  destruct (Z.ltb_spec 0 n); [rewrite IH|]; lia.
Qed.

(** A buffer of [n] bytes that holds a string. *)
Definition is_str (n : Z) (b s : list Z) : Prop :=
  Z.of_nat (length b) = n /\ exists r, b = s ++ 0 :: r.

Lemma is_str_read n b s : text s -> is_str n b s -> cstr b = Ret s.
Proof. intros Hs [_ [r ->]]. by apply cstr_text. Qed.

Lemma wr8_here a x r c : is_byte c ->
  wr8 (a ++ x :: r) (Z.of_nat (length a)) c = Ret ((a ++ [c]) ++ r).
Proof. intros Hc. rewrite wr8_pre, u8_id by done. by rewrite <- app_assoc. Qed.

Lemma len_snoc {A} (a : list A) c : Z.of_nat (length (a ++ [c])) = Z.of_nat (length a) + 1.
Proof. rewrite length_app. cbn. lia. Qed.

Lemma wr8_end a r : (0 < length r)%nat -> exists r',
  wr8 (a ++ r) (Z.of_nat (length a)) 0 = Ret (a ++ 0 :: r') /\ length r = S (length r').
Proof.
  destruct r as [|x r]; cbn; [lia|]. intros _. exists r. split; [by rewrite wr8_pre|done].
Qed.

Lemma take_all_or {A} (s : list A) k : Z.of_nat (length s) <= k -> take (Z.to_nat k) s = s.
Proof. intros. apply take_ge. lia. Qed.

Lemma take_cons_Z {A} (c : A) s k : 0 < k -> take (Z.to_nat k) (c :: s) = c :: take (Z.to_nat (k - 1)) s.
Proof. intros. replace (Z.to_nat k) with (S (Z.to_nat (k - 1))) by lia. done. Qed.

Lemma strlcpy_loop_spec s : text s -> forall n a r, 1 <= n <= Z.of_nat (length r) -> exists b',
  strlcpy_loop s n (a ++ r) (Z.of_nat (length a)) = Ret b' /\
  is_str (Z.of_nat (length a + length r)) b' (a ++ take (Z.to_nat (n - 1)) s).
Proof.
  induction 1 as [|c s Hc Hs IH]; intros n a r Hn.
  - rewrite take_nil, app_nil_r. destruct (wr8_end a r) as (r' & E & L); [lia|].
    exists (a ++ 0 :: r'). split.
    + cbn [strlcpy_loop]. by destruct (n =? 1).
    + split; [rewrite !length_app; cbn; lia|by eexists].
  - cbn [strlcpy_loop]. destruct (Z.eqb_spec n 1) as [->|Hn1].
    + destruct (wr8_end a r) as (r' & E & L); [lia|]. exists (a ++ 0 :: r'). split; [done|].
      split; [rewrite !length_app; cbn; lia|]. exists r'. by rewrite app_nil_r.
    + destruct r as [|x r]; [cbn in Hn; lia|]. rewrite wr8_here by (unfold is_byte; lia).
      cbn [mbind C_bind]. rewrite <- len_snoc with (c := c).
      destruct (IH (n - 1) (a ++ [c]) r) as (b' & E & L & r' & ->); [cbn in Hn; lia|].
      eexists. split; [exact E|]. rewrite take_cons_Z by lia.
      split; [rewrite L, length_app; cbn [length]; lia|]. exists r'. by rewrite <- !app_assoc.
Qed.

(** [strlcpy] stores as much of the string as fits, terminated. *)
Lemma strlcpy_spec b s siz : text s -> 1 <= siz <= Z.of_nat (length b) -> exists b',
  strlcpy b s siz = Ret b' /\ is_str (Z.of_nat (length b)) b' (take (Z.to_nat (siz - 1)) s).
Proof.
  intros Hs Hn. unfold strlcpy. destruct (Z.eqb_spec siz 0); [lia|].
  apply (strlcpy_loop_spec s Hs siz [] b Hn).
Qed.

Lemma cat_end_spec s r : text s -> forall a n, (length s < n)%nat ->
  cat_end n (a ++ s ++ 0 :: r) (Z.of_nat (length a)) = Ret (Z.of_nat (length a) + Z.of_nat (length s)).
Proof.
  induction 1 as [|c s Hc _ IH]; intros a [|n] Hn; try (cbn in Hn; lia); cbn [cat_end app].
  - rewrite rd8_pre by done. cbn. f_equal. lia.
  - rewrite rd8_pre by done. cbn [mbind C_bind]. destruct (Z.eqb_spec c 0); [lia|].
    rewrite <- len_snoc with (c := c).
    replace (a ++ c :: s ++ 0 :: r) with ((a ++ [c]) ++ s ++ 0 :: r) by (by rewrite <- app_assoc).
    rewrite IH by (cbn in Hn; lia). rewrite len_snoc. cbn [length]. f_equal. lia.
Qed.

Lemma cat_copy_spec s : text s -> forall n a r, n = Z.of_nat (length r) -> 1 <= n -> exists b',
  cat_copy s n (a ++ r) (Z.of_nat (length a)) = Ret b' /\
  is_str (Z.of_nat (length a + length r)) b' (a ++ take (Z.to_nat (n - 1)) s).
Proof.
  induction 1 as [|c s Hc Hs IH]; intros n a r Hn Hp.
  - rewrite take_nil, app_nil_r. destruct (wr8_end a r) as (r' & E & L); [lia|].
    exists (a ++ 0 :: r'). split; [done|]. split; [rewrite !length_app; cbn; lia|by eexists].
  - cbn [cat_copy]. destruct (Z.eqb_spec n 1) as [->|Hn1].
    + exact (IH 1 a r Hn Hp).
    + destruct r as [|x r]; [cbn in Hn; lia|]. rewrite wr8_here by (unfold is_byte; lia).
      cbn [mbind C_bind]. rewrite <- len_snoc with (c := c).
      destruct (IH (n - 1) (a ++ [c]) r) as (b' & E & L & r' & ->); [cbn in Hn; lia|lia|].
      eexists. split; [exact E|]. rewrite take_cons_Z by lia.
      split; [rewrite L, length_app; cbn [length]; lia|]. exists r'. by rewrite <- !app_assoc.
Qed.

(** [strlcat] appends as much of the string as fits. *)
Lemma strlcat_spec n b s0 s : text s0 -> text s -> is_str n b s0 -> exists b',
  strlcat b s n = Ret b' /\ is_str n b' (take (Z.to_nat (n - 1)) (s0 ++ s)).
Proof.
  intros H0 Hs [Hn [r ->]]. unfold strlcat. rewrite length_app in Hn. cbn [length] in Hn.
  rewrite (cat_end_spec s0 r H0 []) by lia. cbn [mbind C_bind].
  destruct (Z.eqb_spec (n - (Z.of_nat (length (@nil Z)) + Z.of_nat (length s0))) 0); [cbn in *; lia|].
  cbn [length] in *. rewrite Z.add_0_l in *.
  destruct (cat_copy_spec s Hs (n - Z.of_nat (length s0)) s0 (0 :: r)) as (b' & E & L & r' & ->);
    [cbn; lia|lia|].
  eexists. split; [exact E|]. split; [rewrite L; cbn [length]; lia|]. exists r'.
  rewrite take_app, (take_all_or s0) by lia. by replace (Z.to_nat (n - 1) - length s0)%nat
    with (Z.to_nat (n - Z.of_nat (length s0) - 1)) by lia.
Qed.

(** ** The environment: proofs *)

(** A variable as it stands in the environment. *)
Definition env_entry (v : list Z * list Z) : list Z := v.1 ++ equals_sign :: v.2.
Definition var_ok (v : list Z * list Z) : Prop :=
  text v.1 /\ text v.2 /\ (equals_sign ∉ v.1) /\ Z.of_nat (length v.1) < CCHMAXPATH.

(** The first variable of that name, in any case. *)
Definition env_find (pszName : list Z) (vs : list (list Z * list Z)) : option (list Z) :=
  snd <$> (List.find (fun v => bool_decide (lower v.1 = lower pszName)) vs).

Lemma name_end_spec nm r : text nm -> equals_sign ∉ nm -> forall a n, (length nm <= n)%nat ->
  name_end n (a ++ nm ++ equals_sign :: r) (Z.of_nat (length a)) =
    Ret (Z.of_nat (length a) + Z.of_nat (length nm)).
Proof.
  induction 1 as [|c s Hc _ IH]; intros He a n Hn; cbn [app length].
  - replace (name_end n _ _) with (Ret (Z.of_nat (length a))); [f_equal; lia|].
    destruct n; cbn [name_end]; by rewrite rd8_pre.
  - apply not_elem_of_cons in He as [Hce He]. destruct n as [|n]; [cbn in Hn; lia|].
    cbn [name_end]. rewrite rd8_pre by done. cbn [mbind C_bind].
    destruct (Z.eqb_spec c 0), (Z.eqb_spec c equals_sign); try (congruence || lia). cbn [orb].
    rewrite <- len_snoc with (c := c).
    replace (a ++ c :: s ++ equals_sign :: r) with ((a ++ [c]) ++ s ++ equals_sign :: r)
      by (by rewrite <- app_assoc).
    rewrite IH by (done || (cbn in Hn; lia)). rewrite len_snoc. f_equal. lia.
Qed.

Lemma entry_text v : var_ok v -> text (env_entry v).
Proof.
  intros (Hn & Hv & _ & _). apply text_app. split; [done|]. constructor; [|done].
  by vm_compute.
Qed.

Lemma entry_head v : exists c l, env_entry v = c :: l /\ (var_ok v -> c <> 0).
Proof.
  destruct v as [[|c n] v]; unfold env_entry; cbn; eexists _, _; (split; [done|]).
  - done.
  - intros (Hn & _). cbn in Hn. inversion_clear Hn. lia.
Qed.

Lemma scan_vars_spec nm vs : Forall var_ok vs -> forall a fuel, (length vs < fuel)%nat ->
  match env_find nm vs with
  | None => scan_vars fuel (a ++ strlst (env_entry <$> vs)) nm (Z.of_nat (length a)) =
      Ret (ERROR_ENVVAR_NOT_FOUND, None)
  | Some value => exists pos,
      scan_vars fuel (a ++ strlst (env_entry <$> vs)) nm (Z.of_nat (length a)) =
        Ret (NO_ERROR, Some pos) /\
      cstr (drop (Z.to_nat pos) (a ++ strlst (env_entry <$> vs))) = Ret value
  end.
Proof.
  induction 1 as [|v vs Hv Hvs IH]; intros a [|fuel] Hf; try (cbn in Hf; lia).
  - cbn [env_find List.find fmap option_fmap option_map list_fmap scan_vars].
    change (strlst []) with [0]. by rewrite rd8_pre.
  - set (tl := strlst (env_entry <$> vs)) in *.
    assert (E : a ++ strlst (env_entry <$> v :: vs) = a ++ v.1 ++ equals_sign :: v.2 ++ 0 :: tl).
    { change (env_entry <$> v :: vs) with (env_entry v :: (env_entry <$> vs)).
      rewrite strlst_cons. unfold zstr, env_entry. by rewrite <- !app_assoc. }
    rewrite E. destruct (Hv) as (Hn & Hval & He & Hl).
    cbn [scan_vars]. destruct (entry_head v) as (c & l & Ec & Hc). specialize (Hc Hv).
    assert (E2 : a ++ v.1 ++ equals_sign :: v.2 ++ 0 :: tl = a ++ c :: l ++ 0 :: tl).
    { change (c :: l ++ 0 :: tl) with ((c :: l) ++ 0 :: tl). rewrite <- Ec. unfold env_entry. by rewrite <- !app_assoc. }
    rewrite E2, rd8_pre, <- E2 by done. cbn [mbind C_bind].
    destruct (Z.eqb_spec c 0); [done|].
    rewrite name_end_spec by (done || (unfold CCHMAXPATH in *; lia)). cbn [mbind C_bind].
    replace (Z.to_nat (Z.of_nat (length a) + Z.of_nat (length v.1) - Z.of_nat (length a)))
      with (length v.1) by lia.
    rewrite Nat2Z.id, drop_app_length, take_app_length. unfold env_find. cbn [List.find].
    destruct (bool_decide (lower v.1 = lower nm)) eqn:B.
    + cbn. eexists. split; [done|].
      replace (Z.to_nat _) with (length (a ++ v.1 ++ [equals_sign]))
        by (rewrite !length_app; cbn [length]; lia).
      replace (a ++ v.1 ++ equals_sign :: v.2 ++ 0 :: tl)
        with ((a ++ v.1 ++ [equals_sign]) ++ v.2 ++ 0 :: tl) by (by rewrite <- !app_assoc).
      rewrite drop_app_length. by apply cstr_text.
    + replace (v.1 ++ equals_sign :: v.2 ++ 0 :: tl) with (env_entry v ++ 0 :: tl)
        by (unfold env_entry; by rewrite <- app_assoc).
      rewrite cstr_text by (by apply entry_text). cbn [mbind C_bind].
      replace (a ++ env_entry v ++ 0 :: tl) with ((a ++ env_entry v ++ [0]) ++ tl)
        by (by rewrite <- !app_assoc).
      replace (Z.of_nat (length a) + Z.of_nat (length (env_entry v)) + 1)
        with (Z.of_nat (length (a ++ env_entry v ++ [0])))
        by (rewrite !length_app; cbn [length]; lia).
      apply IH. cbn in Hf. lia.
Qed.

Lemma scan_env_vars vs nm : Forall var_ok vs ->
  match env_find nm vs with
  | None => DosScanEnv (strlst (env_entry <$> vs)) nm = Ret (ERROR_ENVVAR_NOT_FOUND, None)
  | Some value => exists pos,
      DosScanEnv (strlst (env_entry <$> vs)) nm = Ret (NO_ERROR, Some pos) /\
      cstr (drop (Z.to_nat pos) (strlst (env_entry <$> vs))) = Ret value
  end.
Proof.
  intros H. apply (scan_vars_spec nm vs H []). pose proof (strlst_count (env_entry <$> vs)) as K.
  rewrite length_fmap in K. lia.
Qed.

(** A variable of the environment is found by its name in any case, the first
    of several, and the pointer returned is to its value; without such a variable
    the call reports ERROR_ENVVAR_NOT_FOUND. *)
Theorem scan_env_spec vs nm : Forall var_ok vs ->
  match env_find nm vs with
  | None => DosScanEnv (strlst (env_entry <$> vs)) nm = Ret (ERROR_ENVVAR_NOT_FOUND, None)
  | Some value => exists pos,
      DosScanEnv (strlst (env_entry <$> vs)) nm = Ret (NO_ERROR, Some pos) /\
      cstr (drop (Z.to_nat pos) (strlst (env_entry <$> vs))) = Ret value
  end.
Proof. apply scan_env_vars. Qed.

(** ** The search: proofs *)

Lemma take_take_app {A} k (a b : list A) : take k (take k a ++ b) = take k (a ++ b).
Proof.
  rewrite !take_app, take_take, Nat.min_id. f_equal. f_equal. rewrite length_take. lia.
Qed.

Lemma wr8_clear n (b : list Z) : Z.of_nat (length b) = n -> 1 <= n -> exists b',
  wr8 b 0 0 = Ret b' /\ is_str n b' [].
Proof.
  destruct b as [|x b]; cbn [length]; [lia|]. intros Hn _. exists (0 :: b).
  split; [apply (wr8_pre [] x b 0 0 eq_refl)|]. split; [done|by exists b].
Qed.

Lemma text_take k s : text s -> text (take k s).
Proof. apply Forall_take. Qed.

Section searching.
Variable DosOpen : list Z -> Z.
Variable curdir : list Z.
Hypothesis curdir_text : text curdir.
Variable cbBuf : Z.
Hypothesis cb_pos : 1 <= cbBuf.
Variable name : list Z.
Hypothesis name_text : text name.

Definition opens (n : list Z) : option (list Z) := if DosOpen n =? 0 then Some [] else None.

(** The name tried in a directory: cut off where the buffer ends; whether a
    backslash follows is decided by the last byte of the directory as the path
    has it, or the one where the buffer ends. *)
Definition tried (d : list Z) : list Z :=
  take (Z.to_nat (cbBuf - 1))
    ((if bool_decide (d = bstr ".") then curdir else d)
     ++ (if bool_decide (d !! Z.to_nat (Z.min (Z.of_nat (length d)) cbBuf - 1) = Some backslash)
         then [] else [backslash])
     ++ name).

Lemma file_in_spec pBuf pre d ds : text d -> d <> [] -> Z.of_nat (length pBuf) = cbBuf ->
  exists pBuf', file_in curdir pBuf (cut pre d ds) cbBuf (Z.of_nat (length pre)) name = Ret pBuf' /\
    is_str cbBuf pBuf' (tried d).
Proof.
  intros Hd Hne Hl. unfold file_in, tried. destruct (cut_shape pre d ds) as [rest ->].
  rewrite Nat2Z.id, drop_app_length, cstr_text by done. cbn [mbind C_bind].
  destruct (wr8_clear _ _ Hl cb_pos) as (b0 & -> & H0). cbn [mbind C_bind].
  set (d' := if bool_decide (d = bstr ".") then curdir else d).
  assert (Hd' : text d') by (unfold d'; by destruct (bool_decide _)).
  destruct (strlcat_spec cbBuf b0 [] d' ltac:(constructor) Hd' H0) as (b1 & -> & H1).
  cbn [mbind C_bind app] in *. rewrite strnlen_min by lia.
  set (k := Z.to_nat (Z.min (Z.of_nat (length d)) cbBuf - 1)).
  assert (Hk : (k < length d)%nat) by (unfold k; destruct d; [done|cbn; lia]).
  destruct (lookup_lt_is_Some_2 d k Hk) as [x Hx].
  replace (rd8 _ _) with (Ret x).
  2: { replace (_ - 1) with (Z.of_nat (length pre + k)) by (unfold k; destruct d; cbn in *; lia).
    rewrite rd8_nat, lookup_app_r, lookup_app_l by lia.
    replace (length pre + k - length pre)%nat with k by lia. by rewrite Hx. }
  cbn [mbind C_bind]. rewrite Hx.
  assert (Ht : text (take (Z.to_nat (cbBuf - 1)) d')) by (by apply text_take).
  destruct (Z.eqb_spec x backslash) as [->|Hxb].
  - rewrite bool_decide_eq_true_2 by done. cbn [mbind C_bind app].
    destruct (strlcat_spec cbBuf b1 _ name Ht name_text H1) as (b2 & -> & H2).
    exists b2. by rewrite take_take_app in H2.
  - rewrite bool_decide_eq_false_2 by congruence.
    destruct (strlcat_spec cbBuf b1 _ [backslash] Ht ltac:(by apply text_check) H1) as (b2 & -> & H2).
    cbn [mbind C_bind]. rewrite take_take_app in H2.
    assert (Ht2 : text (take (Z.to_nat (cbBuf - 1)) (d' ++ [backslash])))
      by (apply text_take, text_app; split; [done|by apply text_check]).
    destruct (strlcat_spec cbBuf b2 _ name Ht2 name_text H2) as (b3 & -> & H3).
    exists b3. by rewrite take_take_app, <- app_assoc in H3.
Qed.

Lemma tried_text d : text d -> text (tried d).
Proof.
  intros Hd. apply text_take, text_app. split; [by destruct (bool_decide _)|].
  apply text_app. split; [|done]. destruct (bool_decide _); [constructor|by apply text_check].
Qed.

Lemma tried_fits d : (strnlen (tried d) cbBuf =? cbBuf) = false.
Proof.
  rewrite strnlen_min by lia. unfold tried. rewrite length_take. blia.
Qed.

(** What the search over [d :: ds] gives. *)
Definition search_gives (st : tok) (dirs : list (list Z)) (r : C searched) : Prop :=
  match first_file opens tried dirs with
  | Some f => exists pBuf t, r = Ret (NO_ERROR, pBuf, t) /\ is_str cbBuf pBuf f
  | None => exists pBuf, r = Ret (ERROR_FILE_NOT_FOUND, pBuf, st) /\ is_str cbBuf pBuf []
  end.

Lemma search_turn st fuel pre d ds pBuf : dir_ok d -> Z.of_nat (length pBuf) = cbBuf ->
  exists pBuf', Z.of_nat (length pBuf') = cbBuf /\
  let r := search_loop DosOpen curdir (S fuel) cbBuf name st (Some (Z.of_nat (length pre))) pBuf
    (cut pre d ds) (next pre d ds) in
  if (bool_decide (d <> []) && loads opens (tried d)) then
    r = Ret (NO_ERROR, pBuf', mkTok None (saved_ch (next pre d ds))) /\
    is_str cbBuf pBuf' (tried d)
  else
    r = '(p, b, t) ← StrTokenize None (Some psep) (cut pre d ds) (next pre d ds);
        search_loop DosOpen curdir fuel cbBuf name st p pBuf' b t.
Proof.
  intros [Hd _] Hl. cbn [search_loop]. destruct (cut_byte opens pre d ds Hd) as (c & -> & Ec).
  cbn [mbind C_bind]. rewrite Ec. destruct (decide (d = [])) as [->|Hne].
  - exists pBuf. by split.
  - rewrite (bool_decide_eq_false_2 (d = [])), (bool_decide_eq_true_2 (d <> [])) by done.
    cbn [andb]. destruct (file_in_spec pBuf pre d ds Hd Hne Hl) as (b' & -> & Hb).
    cbn [mbind C_bind]. rewrite (is_str_read _ _ _ (tried_text d Hd) Hb). cbn [mbind C_bind].
    rewrite tried_fits. exists b'. split; [by destruct Hb|].
    unfold loads, opens. destruct (DosOpen (tried d) =? 0) eqn:E; cbn [negb]; [|done].
    by rewrite tok_stop.
Qed.

Lemma search_loop_spec st ds : forall pre d pBuf fuel, Forall dir_ok (d :: ds) ->
  Z.of_nat (length pBuf) = cbBuf -> (length ds + 2 <= fuel)%nat ->
  search_gives st (d :: ds)
    (search_loop DosOpen curdir fuel cbBuf name st (Some (Z.of_nat (length pre))) pBuf
       (cut pre d ds) (next pre d ds)).
Proof.
  induction ds as [|d' ds IH]; intros pre d pBuf [|fuel] Hok Hl Hf; try (cbn in Hf; lia);
    inversion_clear Hok as [|? ? Hd Hds]; unfold search_gives; cbn [first_file];
    match goal with |- context [cut pre d ?l] =>
      destruct (search_turn st fuel pre d l pBuf Hd Hl) as (b' & Hl' & E); cbv zeta in E end;
    (destruct (bool_decide (d <> []) && loads opens (tried d)); [destruct E as [E Hb];
      eexists _, _; split; [exact E|exact Hb]|]);
    rewrite E, tokenize_next by done; cbn [mbind C_bind].
  - destruct fuel as [|fuel]; [cbn in Hf; lia|]. destruct (wr8_clear _ _ Hl' cb_pos) as (b & E' & Hb).
    exists b. cbn [search_loop]. by rewrite E'.
  - apply (IH _ d' b' fuel Hds Hl'). cbn in Hf. lia.
Qed.
End searching.

(** The path that is searched: the variable of that name or the name itself. *)
Definition searched_path (vs : list (list Z * list Z)) (flag : Z) (pathOrName : list Z)
    : option (list Z) :=
  if negb (Z.land flag SEARCH_ENVIRONMENT =? 0) then env_find pathOrName vs else Some pathOrName.
Definition search_dirs (flag : Z) (dirs : list (list Z)) : list (list Z) :=
  (if negb (Z.land flag SEARCH_CUR_DIRECTORY =? 0) then [bstr "."] else []) ++ dirs.

(** C34: The first directory of the path in which the file can be opened is found,
    the current directory before the others where the flag asks for it; the name
    is cut off, and the cut name tried, where the buffer is too small: an overflow
    is never reported.  When the path is to be in a variable that does not exist
    the search uses a pointer that was not set. *)
Theorem search_path_spec DosOpen curdir vs flag pathOrName name pBuf cbBuf t :
  text curdir -> text name -> name <> [] -> pathOrName <> [] -> 1 <= cbBuf ->
  Z.of_nat (length pBuf) = cbBuf -> 0 <= flag < 8 -> Forall var_ok vs ->
  let run := DosSearchPath DosOpen curdir true (strlst (env_entry <$> vs)) flag
    (Some pathOrName) (Some name) (Some pBuf) cbBuf t in
  match searched_path vs flag pathOrName with
  | None => run = Undef
  | Some path => forall d ds, path = join d ds -> Forall dir_ok (d :: ds) ->
      match first_file (opens DosOpen) (tried curdir cbBuf name) (search_dirs flag (d :: ds)) with
      | Some f => exists b t', run = Ret (NO_ERROR, Some b, t') /\ is_str cbBuf b f
      | None => exists b, run = Ret (ERROR_FILE_NOT_FOUND, Some b, t) /\ is_str cbBuf b []
      end
  end.
Proof.
  intros Hc Hn Hne Hp Hcb Hl Hfl Hvs run. subst run. unfold DosSearchPath.
  destruct pathOrName as [|pc pn]; [done|]. destruct name as [|nc nn]; [done|].
  set (pathOrName := pc :: pn) in *. set (name := nc :: nn) in *.
  destruct (Z.eqb_spec cbBuf 0); [lia|].
  assert (Ef : (Z.land flag (Z.lnot (Z.lor SEARCH_ENVIRONMENT
    (Z.lor SEARCH_CUR_DIRECTORY SEARCH_IGNORENETERRS))) =? 0) = true).
  { assert (H : flag ∈ [0; 1; 2; 3; 4; 5; 6; 7]) by
      (rewrite !elem_of_cons, elem_of_nil; lia).
    revert H. generalize flag. apply Forall_forall. repeat constructor. }
  rewrite Ef. cbn [negb]. unfold searched_path.
  set (src := if negb (Z.land flag SEARCH_ENVIRONMENT =? 0) then _ else Ret pathOrName).
  assert (Esrc : src = match searched_path vs flag pathOrName with
                       | Some p => Ret p | None => Undef end).
  { unfold src, searched_path. destruct (negb (Z.land flag SEARCH_ENVIRONMENT =? 0)); [|done].
    pose proof (scan_env_vars vs pathOrName Hvs) as H.
    destruct (env_find pathOrName vs); [|by rewrite H]. destruct H as (pos & -> & Hv).
    cbn [mbind C_bind need]. exact Hv. }
  rewrite Esrc. fold (searched_path vs flag pathOrName).
  destruct (searched_path vs flag pathOrName) as [path|]; [|done].
  intros d ds -> Hok. cbn [mbind C_bind require].
  set (dirs := search_dirs flag (d :: ds)).
  assert (Hd : exists d0 ds0, dirs = d0 :: ds0 /\ Forall dir_ok dirs /\
    (if negb (Z.land flag SEARCH_CUR_DIRECTORY =? 0) then bstr "." ++ psep else [])
      ++ join d ds = join d0 ds0).
  { unfold dirs, search_dirs.
    destruct (negb (Z.land flag SEARCH_CUR_DIRECTORY =? 0)); eexists _, _; (split; [reflexivity|]); split; try done.
    constructor; [|done]. split; [by apply text_check|]. change (bstr ".") with [46].
    by rewrite list_elem_of_singleton. }
  destruct Hd as (d0 & ds0 & Ed & Hok0 & ->). rewrite Ed in *. unfold StrTokenize, StrTokSave.
  inversion_clear Hok0 as [|? ? Hd0 Hds0].
  rewrite (tokenize_cut [] d0 ds0 t Hd0 : tokenize_at 0 _ (join d0 ds0 ++ [0]) t = _).
  cbn [mbind C_bind].
  pose proof (search_loop_spec DosOpen curdir Hc _ Hcb name Hn t ds0 [] d0 pBuf
    (S (S (length (join d0 ds0)))) ltac:(by constructor) Hl ltac:(pose proof (join_count d0 ds0); lia)) as H.
  unfold search_gives in H.
  destruct (first_file _ _ _).
  - destruct H as (b & t' & E & Hb). rewrite E. by exists b, t'.
  - destruct H as (b & E & Hb). rewrite E. by exists b.
Qed.

(** ** Editing a name: proofs *)

(** What a pattern makes of a name: an asterisk stands for the name up to the
    character behind it in the pattern, which is passed over; a question mark
    for one character, or none at a dot or at the end; every other character
    but a dot passes over one of the name. *)
Fixpoint split_at (c : Z) (s : list Z) : list Z * list Z :=
  match s with
  | [] => ([], [])
  | x :: s => if x =? c then ([], s) else let r := split_at c s in (x :: r.1, r.2)
  end.
Fixpoint edited (e s : list Z) : list Z :=
  match e with
  | [] => []
  | x :: e =>
      if x =? qmark then
        match s with
        | c :: s' => if c =? dot then edited e s else c :: edited e s'
        | [] => edited e s
        end
      else if x =? star then
        let r := split_at (str_at e) s in r.1 ++ edited e r.2
      else x :: edited e (if x =? dot then s else tail s)
  end.

Lemma split_at_text c s : text s -> text (split_at c s).1 /\ text (split_at c s).2.
Proof.
  induction 1 as [|x s Hx Hs [IH1 IH2]]; cbn; [by split; constructor|].
  destruct (x =? c); cbn; [by split; [constructor|]|]. by split; [constructor|].
Qed.

Lemma split_at_length c s :
  (length (split_at c s).1 + length (split_at c s).2 <= length s)%nat.
Proof. induction s as [|x s IH]; cbn; [lia|]. destruct (x =? c); cbn; lia. Qed.

Lemma edited_length e : forall s, (length (edited e s) <= length e + length s)%nat.
Proof.
  induction e as [|x e IH]; intros s; cbn [edited length]; [lia|].
  destruct (x =? qmark); [|destruct (x =? star)].
  - destruct s as [|c s]; [specialize (IH []); cbn in *; lia|].
    destruct (c =? dot); [specialize (IH (c :: s))|specialize (IH s)]; cbn [length] in *; lia.
  - pose proof (split_at_length (str_at e) s). specialize (IH (split_at (str_at e) s).2).
    rewrite length_app. lia.
  - cbn [length]. destruct (x =? dot); [specialize (IH s); lia|].
    specialize (IH (tail s)). destruct s; cbn in *; lia.
Qed.

Lemma edited_text e : text e -> forall s, text s -> text (edited e s).
Proof.
  induction 1 as [|x e Hx He IH]; intros s Hs; cbn [edited]; [constructor|].
  destruct (x =? qmark).
  - destruct s as [|c s]; [by apply IH|]. inversion_clear Hs.
    destruct (c =? dot); [by apply IH; constructor|constructor; [done|by apply IH]].
  - destruct (split_at_text (str_at e) s Hs). destruct (x =? star).
    + apply text_app. split; [done|by apply IH].
    + constructor; [done|]. apply IH. destruct (x =? dot), s; try done. by inversion_clear Hs.
Qed.

Lemma star_loop_spec e s : text s -> forall a r cb,
  (length s < length r)%nat -> Z.of_nat (length s) < cb < 2 ^ 32 ->
  let p := split_at (str_at e) s in
  exists r', star_loop s e (Z.of_nat (length a)) cb (a ++ r) =
      Ret (p.2, Z.of_nat (length (a ++ p.1)), cb - Z.of_nat (length p.1) - 1, (a ++ p.1) ++ r') /\
    (length p.1 + length r' = length r)%nat.
Proof.
  induction 1 as [|c s Hc _ IH]; intros a r cb Hr Hcb; cbn [star_loop split_at];
    (destruct r as [|x r]; [cbn in Hr; lia|]); cbn [length] in *.
  - rewrite wr8_pre by done. cbn [mbind C_bind fst snd length]. rewrite app_nil_r.
    rewrite u32_id by (unfold is_u32; lia). exists (u8 0 :: r).
    split; [do 3 f_equal; lia|done].
  - rewrite wr8_here by (unfold is_byte; lia). cbn [mbind C_bind].
    rewrite u32_id by (unfold is_u32; lia).
    destruct (c =? str_at e).
    + cbn [fst snd length]. rewrite app_nil_r, Z.sub_0_r. exists (c :: r). by rewrite <- app_assoc.
    + rewrite <- len_snoc with (c := c).
      destruct (IH (a ++ [c]) r (cb - 1)) as (r' & -> & Hl); [lia..|]. exists r'. cbn [fst snd length].
      rewrite <- !app_assoc. cbn [app]. split; [|lia]. do 3 f_equal. lia.
Qed.

Lemma edit_loop_spec e : text e -> forall s a r cb, text s ->
  (length e + length s < length r)%nat -> Z.of_nat (length e + length s) < cb < 2 ^ 32 ->
  exists r', edit_loop e s (Z.of_nat (length a)) cb (a ++ r) =
      Ret (Z.of_nat (length (a ++ edited e s)), (a ++ edited e s) ++ r') /\
    (length (edited e s) + length r' = length r)%nat.
Proof.
  induction 1 as [|x e Hx He IH]; intros s a r cb Hs Hr Hcb; cbn [edit_loop edited];
    rewrite u32_id by (unfold is_u32; lia); (destruct r as [|y r]; [cbn in Hr; lia|]).
  - rewrite app_nil_r. destruct (cb - 1 =? 0); [by exists (y :: r)|].
    rewrite wr8_pre by done. cbn [mbind C_bind length]. by exists (u8 0 :: r).
  - cbn [length] in *. destruct (Z.eqb_spec (cb - 1) 0); [lia|].
    assert (Ex : wr8 (a ++ y :: r) (Z.of_nat (length a)) x = Ret (a ++ x :: r)).
    { rewrite wr8_pre, u8_id by (done || unfold is_byte; lia). done. }
    rewrite Ex. cbn [mbind C_bind]. destruct (x =? qmark); [|destruct (x =? star) eqn:Est].
    + destruct s as [|c s]; [by apply (IH [] a (x :: r)); [done|cbn in *; lia..]|].
      inversion_clear Hs as [|? ? Hc Hs']. cbn [length] in *.
      destruct (c =? dot); [apply (IH (c :: s) a (x :: r));
        [by constructor|cbn [length]; lia..]|].
      rewrite wr8_here by (unfold is_byte; lia). cbn [mbind C_bind]. rewrite <- len_snoc with (c := c).
      destruct (IH s (a ++ [c]) r (cb - 1) Hs') as (r' & -> & Hl); [lia..|]. exists r'.
      rewrite <- !app_assoc. cbn [length]. by split; [|lia].
    + destruct (star_loop_spec e s Hs a (x :: r) (cb - 1)) as (r1 & E & L1); [cbn [length]; lia..|].
      set (p := split_at (str_at e) s) in *. pose proof (split_at_length (str_at e) s) as Hp.
      fold p in Hp. rewrite E. cbn [mbind C_bind length] in *.
      destruct r1 as [|z r1]; [cbn in L1; lia|]. rewrite wr8_pre by done. cbn [mbind C_bind length] in *.
      rewrite u32_id by (unfold is_u32; lia).
      destruct (IH p.2 (a ++ p.1) (u8 (str_at e) :: r1) (cb - 1 - Z.of_nat (length p.1) - 1 + 1))
        as (r2 & -> & L2); [by apply split_at_text|cbn [length]; lia|lia|].
      exists r2. rewrite <- !app_assoc, (length_app p.1). cbn [length] in L2. split; [done|lia].
    + set (s' := if x =? dot then s else tail s).
      assert (Hs' : text s') by (unfold s'; destruct (x =? dot), s; try done; by inversion_clear Hs).
      assert (Hl' : (length s' <= length s)%nat) by (unfold s'; destruct (x =? dot), s; cbn; lia).
      destruct (IH s' (a ++ [x]) r (cb - 1) Hs') as (r' & E & Hl); [lia..|]. exists r'.
      rewrite len_snoc in E. rewrite <- !app_assoc in E. cbn [app] in E.
      rewrite <- app_assoc. cbn [length app]. split; [|lia]. rewrite <- E.
      unfold s'. by destruct (x =? dot).
Qed.

(** With a buffer that holds the pattern and the name together, DosEditName
    makes the name that the pattern describes, terminated. *)
Theorem edit_name_spec e s b cb : text e -> text s -> Z.of_nat (length b) = cb ->
  Z.of_nat (length e + length s) < cb < 2 ^ 32 ->
  exists rc b', DosEditName 1 (Some s) (Some e) (Some b) cb = Ret (rc, Some b') /\
    is_str cb b' (edited e s).
Proof.
  intros He Hs Hb Hcb. unfold DosEditName. change (negb (1 =? 1)) with false. cbv iota.
  destruct (Z.eqb_spec cb 0); [lia|]. cbn [from_option id].
  destruct (edit_loop_spec e He s [] b cb Hs) as (r & E & L); [lia..|].
  cbn [app length] in E. change (Z.of_nat 0) with 0 in E. rewrite E. cbn [mbind C_bind].
  destruct r as [|y r].
  { exfalso. pose proof (edited_length e s). cbn in L. lia. }
  rewrite wr8_pre by done. cbn [mbind C_bind].
  rewrite (cstr_text _ _ (edited_text e He s Hs)). cbn [mbind C_bind].
  assert (K : is_str cb (edited e s ++ u8 0 :: r) (edited e s)).
  { split; [rewrite length_app; cbn [length] in *; lia|by exists r]. }
  bcase; eauto.
Qed.

(** Where the byte [w] can be in the target. *)
Definition free_of (w : Z) (b : list Z) (s : Z) : Prop :=
  forall i c, Z.of_nat i < s -> b !! i = Some c -> c <> w.

Lemma free_of_wr8 w b s c b' : free_of w b s -> wr8 b s c = Ret b' ->
  free_of w b' s /\ (is_byte c -> c <> w -> free_of w b' (s + 1)).
Proof.
  unfold wr8. intros H E. destruct ((0 <=? s) && (s <? Z.of_nat (length b))) eqn:B; [|done].
  injection E as <-. split.
  - intros i x Hi. rewrite list_lookup_insert_ne by blia. by apply H.
  - intros Hc Hw i x Hi. destruct (decide (i = Z.to_nat s)) as [->|Hne].
    + intros Hx. apply list_lookup_insert_Some in Hx as [(_ & <- & _)|[Hx _]]; [by rewrite u8_id|done].
    + rewrite list_lookup_insert_ne by done. apply H. blia.
Qed.

Lemma star_loop_free w e src : text src -> w ∉ src -> forall s cb b src' s' cb' b',
  free_of w b s -> star_loop src e s cb b = Ret (src', s', cb', b') ->
  free_of w b' s' /\ text src' /\ w ∉ src'.
Proof.
  induction 1 as [|c src Hc Hs IH]; intros Hw s cb b src' s' cb' b' Hb E; cbn [star_loop] in E; cinv.
  - split; [by eapply free_of_wr8|]. split; [constructor|done].
  - apply not_elem_of_cons in Hw as [Hcw Hw].
    match goal with E1 : wr8 b s c = Ret ?x |- _ =>
      destruct (free_of_wr8 w b s c x Hb E1) as [H1 H2] end.
    destruct (c =? str_at e); cinv.
    + done.
    + eapply IH; [done| |exact E]. apply H2; [unfold is_byte; lia|congruence].
Qed.

Lemma edit_loop_free w e : w = qmark \/ w = star -> text e -> forall src s cb b s' b',
  text src -> w ∉ src -> free_of w b s -> edit_loop e src s cb b = Ret (s', b') ->
  free_of w b' s'.
Proof.
  intros Hw. induction 1 as [|x e Hx He IH]; intros src s cb b s' b' Hs Hsw Hb E; cbn [edit_loop] in E;
    (destruct (u32 (cb - 1) =? 0); [by injection E as <- <-|]); cinv;
    match goal with E1 : wr8 ?bb ?ss ?c = Ret ?y, Hb : free_of w ?bb ?ss |- _ =>
      destruct (free_of_wr8 w bb ss c y Hb E1) as [H1 H2] end; [done|].
  destruct (Z.eqb_spec x qmark); [|destruct (Z.eqb_spec x star)].
  - destruct src as [|c src]; [eauto|]. destruct (c =? dot); [eauto|].
    inversion_clear Hs as [|? ? Hc Hs']. apply not_elem_of_cons in Hsw as [Hcw Hsw]. cinv.
    match goal with E1 : wr8 ?z s c = Ret ?y |- _ =>
      destruct (free_of_wr8 w z s c y H1 E1) as [_ H4] end.
    eapply IH; [exact Hs'|exact Hsw| |exact E]. apply H4; [unfold is_byte; lia|congruence].
  - cinv. destruct a0 as [[[src1 s1] cb1] b1]. cinv.
    match goal with E1 : star_loop _ _ _ _ _ = _ |- _ =>
      destruct (star_loop_free w e src Hs Hsw _ _ _ _ _ _ _ H1 E1) as (H3 & Hs1 & Hw1) end.
    match goal with E1 : wr8 b1 s1 ?c = Ret ?y |- _ =>
      destruct (free_of_wr8 w b1 s1 c y H3 E1) as [H4 _] end. eauto.
  - assert (Hxw : x <> w) by (destruct Hw; congruence).
    assert (Hn : free_of w a (s + 1)) by (apply H2; [unfold is_byte; lia|done]).
    destruct (x =? dot); [by eauto|]. eapply IH; [| |exact Hn|exact E].
    + destruct src; [done|by inversion_clear Hs].
    + destruct src; [done|]. by apply not_elem_of_cons in Hsw as [_ Hsw].
Qed.

Lemma wr8_prefix b s : forall i b', wr8 b i 0 = Ret b' -> cstr b' = Ret s ->
  Z.of_nat (length s) <= i.
Proof.
  intros i b' E H. apply cstr_inv in H as Hr. destruct Hr as [r ->]. unfold wr8 in E.
  destruct ((0 <=? i) && (i <? Z.of_nat (length b))) eqn:B; [|done]. injection E as E.
  destruct (Z.le_gt_cases (Z.of_nat (length s)) i) as [|Hi]; [done|]. exfalso.
  assert (H0 : (s ++ 0 :: r) !! Z.to_nat i = Some 0)
    by (rewrite <- E; apply list_lookup_insert_eq; blia).
  rewrite lookup_app_l in H0 by blia. clear E B. revert H H0. generalize (Z.to_nat i). clear.
  induction s as [|c s IH]; intros n H; [done|]. cbn in H. destruct (Z.eqb_spec c 0); [done|].
  apply fmap_Ret_inv in H as (s' & H & [= <-]). destruct n as [|n]; cbn; [congruence|by apply IH].
Qed.

Lemma edit_name_free w e s b cb rc b' : w = qmark \/ w = star -> text e -> text s -> w ∉ s ->
  DosEditName 1 (Some s) (Some e) (Some b) cb = Ret (rc, b') -> rc <> NO_ERROR.
Proof.
  intros Hw He Hs Hsw E. unfold DosEditName in E. change (negb (1 =? 1)) with false in E.
  cbv iota in E. destruct (cb =? 0); [by injection E as <- _|]. cbn [from_option id] in E. cinv.
  destruct a as [t b1]. cinv. rename a into b2, a0 into nm.
  assert (Hb : free_of w b 0) by (intros i c Hi; lia).
  pose proof (edit_loop_free w e Hw He _ _ _ _ _ _ Hs Hsw Hb E0) as Hf.
  pose proof (wr8_prefix _ _ _ _ E1 E2) as Hl. destruct (free_of_wr8 w b1 t 0 b2 Hf E1) as [Hf' _].
  assert (Hn : w ∉ nm).
  { intros (i & Hi)%list_elem_of_lookup. apply cstr_inv in E2 as [r ->].
    apply (Hf' i w); [apply lookup_lt_Some in Hi; lia|by apply lookup_app_l_Some|done]. }
  destruct Hw as [-> | ->].
  - rewrite (bool_decide_eq_false_2 (qmark ∈ nm)) in E by done. by injection E as <- _.
  - rewrite (bool_decide_eq_false_2 (star ∈ nm)) in E by done.
    destruct (bool_decide _) in E; by injection E as <- _.
Qed.

(** DosEditName fails for every name that is the name of a file: it ends with
    ERROR_INVALID_NAME unless a question mark and an asterisk are in what it
    made, which then came from the name, whatever the pattern. *)
Theorem edit_name_fails e s b cb rc b' : text e -> text s -> (qmark ∉ s) \/ (star ∉ s) ->
  DosEditName 1 (Some s) (Some e) (Some b) cb = Ret (rc, b') -> rc <> NO_ERROR.
Proof.
  intros He Hs [H|H] E.
  - exact (edit_name_free qmark e s b cb rc b' (or_introl eq_refl) He Hs H E).
  - exact (edit_name_free star e s b cb rc b' (or_intror eq_refl) He Hs H E).
Qed.

Lemma star_overflow s : text s -> forall a r cb, (length r <= length s)%nat ->
  star_loop s [] (Z.of_nat (length a)) cb (a ++ r) = Undef.
Proof.
  induction 1 as [|c s Hc _ IH]; intros a r cb Hr; cbn [star_loop].
  - destruct r; [|cbn in Hr; lia]. rewrite app_nil_r. unfold wr8.
    by rewrite Z.ltb_irrefl, andb_false_r.
  - destruct r as [|x r].
    + rewrite app_nil_r. unfold wr8. by rewrite Z.ltb_irrefl, andb_false_r.
    + rewrite wr8_here by (unfold is_byte; lia). cbn [mbind C_bind str_at].
      destruct (Z.eqb_spec c 0); [lia|]. rewrite <- len_snoc with (c := c).
      apply IH. cbn in Hr. lia.
Qed.

(** An asterisk copies a name as long as the buffer over the buffer's end. *)
Theorem edit_name_overflow s b cb : text s -> Z.of_nat (length b) = cb -> 2 <= cb < 2 ^ 32 ->
  (length b <= length s)%nat ->
  DosEditName 1 (Some s) (Some [star]) (Some b) cb = Undef.
Proof.
  intros Hs Hb Hcb Hl. unfold DosEditName. change (negb (1 =? 1)) with false. cbv iota.
  destruct (Z.eqb_spec cb 0); [lia|]. cbn [from_option id edit_loop].
  rewrite u32_id by (unfold is_u32; lia). destruct (Z.eqb_spec (cb - 1) 0); [lia|].
  destruct b as [|x b]; [cbn in Hb; lia|]. pose proof (wr8_pre [] x b 0 star eq_refl) as E.
  cbn [app] in E. rewrite E. cbn [mbind C_bind].
  change (star =? qmark) with false. rewrite Z.eqb_refl. cbv iota.
  by rewrite (star_overflow s Hs [] (u8 star :: b)).
Qed.

(** ** Witnesses *)

Definition demo_vars : list (list Z * list Z) :=
  [(bstr "PATH", bstr "C:\OS2"); (bstr "dpath", bstr "C:\MSG;C:\OS2\")].

Lemma demo_vars_ok : Forall var_ok demo_vars.
Proof.
  repeat constructor; cbn [fst snd]; try (by apply text_check); try (by vm_compute);
    by apply (bool_decide_unpack _).
Qed.

Lemma scan_env_spec_witness :
  exists pos, DosScanEnv (strlst (env_entry <$> demo_vars)) (bstr "DPath") = Ret (NO_ERROR, Some pos)
    /\ cstr (drop (Z.to_nat pos) (strlst (env_entry <$> demo_vars))) = Ret (bstr "C:\MSG;C:\OS2\").
Proof. exact (scan_env_spec demo_vars (bstr "DPath") demo_vars_ok). Defined.

(** A volume with one message file. *)
Definition demo_open (n : list Z) : Z :=
  if bool_decide (n = bstr "C:\OS2\OSO001.MSG") then 0 else 110.

Lemma search_path_spec_witness : exists b t',
  DosSearchPath demo_open (bstr "OS2") true (strlst (env_entry <$> demo_vars)) 3
    (Some (bstr "DPATH")) (Some (bstr "OSO001.MSG")) (Some (repeat 255 20)) 20 (mkTok None 0) =
    Ret (NO_ERROR, Some b, t') /\ is_str 20 b (bstr "C:\OS2\OSO001.MSG").
Proof.
  refine (search_path_spec demo_open (bstr "OS2") demo_vars 3 (bstr "DPATH") (bstr "OSO001.MSG")
    (repeat 255 20) 20 (mkTok None 0) _ _ _ _ _ _ _ _ (bstr "C:\MSG") [bstr "C:\OS2\"] _ _).
  - by apply text_check.
  - by apply text_check.
  - done.
  - done.
  - lia.
  - done.
  - lia.
  - exact demo_vars_ok.
  - reflexivity.
  - repeat constructor; try (by apply text_check); by apply (bool_decide_unpack _).
Defined.

Lemma edit_name_spec_witness : exists rc b',
  DosEditName 1 (Some (bstr "report.txt")) (Some (bstr "*.b?k")) (Some (repeat 0 20)) 20 =
    Ret (rc, Some b') /\ is_str 20 b' (bstr "report.bxk").
Proof.
  apply (edit_name_spec (bstr "*.b?k") (bstr "report.txt") (repeat 0 20) 20);
    [by apply text_check|by apply text_check|done|by split].
Defined.

Lemma edit_name_fails_witness : ERROR_INVALID_NAME <> NO_ERROR.
Proof.
  refine (edit_name_fails (bstr "*.b?k") (bstr "report.txt") (repeat 0 20) 20 ERROR_INVALID_NAME
    (Some (bstr "report.bxk" ++ repeat 0 10)) _ _ _ _).
  - by apply text_check.
  - by apply text_check.
  - left. by apply (bool_decide_unpack _).
  - by vm_compute.
Defined.

Lemma edit_name_overflow_witness :
  DosEditName 1 (Some (bstr "report.txt")) (Some [star]) (Some (repeat 0 8)) 8 = Undef.
Proof.
  apply (edit_name_overflow (bstr "report.txt") (repeat 0 8) 8);
    [by apply text_check|done|lia|vm_compute; lia].
Defined.
