(* ===== verification/DosMsg.v ===== *)
(** * Messages ([OS2/CPI/doscalls/msg.c])

    DOSCALLS reads a message from a message file, puts strings in the places of
    [%1] to [%9] and hands it to the program.  A message file or a bound message
    segment is the list of its bytes; a buffer of the caller likewise.  Strings
    to be inserted are the contents of terminated strings. *)
From S2P Require Import Prelude ModMgr DosName.

Definition ERROR_MR_MSG_TOO_LONG : Z := 316.
Definition ERROR_MR_MID_NOT_FOUND : Z := 317.
Definition ERROR_MR_UN_ACC_MSGF : Z := 318.
Definition ERROR_MR_INV_MSGF_FORMAT : Z := 319.
Definition ERROR_MR_INV_IVCOUNT : Z := 320.
Definition ERROR_MR_UN_PERFORM : Z := 321.
Definition ERROR_FILENAME_EXCED_RANGE : Z := 206.
Definition ERROR_OPEN_FAILED : Z := 110.
Definition ERROR_PATH_NOT_FOUND : Z := 3.

(** ** Inserting strings

    [src] is a position in the array the message lies in, [pBuf + dstlen] the
    place written next ([dst] of the source); [srclen] counts the bytes of the
    message that are left, [ivcount] the percent signs. *)

Definition percent : Z := ch "%"%char.

Section insert.
Variable msg : list Z.
Variable pTable : list (list Z).
Variable cbBuf : Z.

(** What one turn of the loop reads: a return code, or the bytes it is to store,
    the position in the message, [srclen] and [ivcount]. *)
Definition read_one (src srclen ivcount : Z) : C (Z + list Z * Z * Z * Z) :=
  c ← rd8 msg src;
  if c =? percent then
    let src := src + 1 in
    let srclen := srclen - 1 in
    let ivcount := ivcount + 1 in
    if 9 <? ivcount then Ret (inl ERROR_MR_INV_IVCOUNT)
    else
      d ← rd8 msg src;
      if d =? percent then Ret (inr ([d], src + 1, srclen - 1, ivcount))
      else if d =? ch "0"%char then Ret (inr ([], src + 1, srclen - 1, ivcount))
      else if (ch "1"%char <=? d) && (d <=? ch "9"%char) then
        s ← need (pTable !! Z.to_nat (d - ch "1"%char));
        let len := strnlen s cbBuf in
        Ret (inr (take (Z.to_nat len) s, src + 1, srclen, ivcount))
      else if srclen <=? 0 then Ret (inr ([], src + 1, srclen, ivcount))
      else Ret (inl ERROR_MR_UN_PERFORM)
  else Ret (inr ([c], src + 1, srclen - 1, ivcount)).

(** The return code, the buffer and what is stored at [pcbMsg], if anything. *)
Fixpoint insert_loop (fuel : nat) (maxlen src srclen dstlen ivcount : Z) (pBuf : list Z)
    : C (Z * list Z * option Z) :=
  match fuel with
  | O => NoFuel
  | S fuel =>
      r ← read_one src srclen ivcount;
      match r with
      | inl rc => Ret (rc, pBuf, None)
      | inr (bytes, src, srclen, ivcount) =>
          pBuf ← wr_bytes pBuf dstlen bytes;
          let dstlen := dstlen + Z.of_nat (length bytes) in
          if srclen <=? 0 then
            pBuf ← wr8 pBuf dstlen 0;
            Ret (NO_ERROR, pBuf, Some (dstlen + 1))
          else if maxlen <? dstlen then
            pBuf ← wr8 pBuf (cbBuf - 1) 0;
            Ret (ERROR_MR_MSG_TOO_LONG, pBuf, Some cbBuf)
          else insert_loop fuel maxlen src srclen dstlen ivcount pBuf
      end
  end.
End insert.

(** The length the result is allowed: that of the message and of the strings,
    each less one. *)
Definition max_length (cbMsg cbBuf : Z) (pTable : list (list Z)) : Z :=
  foldl (fun n s => n + (strnlen s cbBuf - 1)) cbMsg pTable.

(** [pTable] is null or an array with [cTable] strings; [pszMsg] is null or the
    array the message lies in and its position there. *)
Definition DosInsertMessage (pTable : option (list (list Z))) (cTable : Z)
    (pszMsg : option (list Z * Z)) (cbMsg : Z) (pBuf : option (list Z)) (cbBuf : Z)
    : C (Z * option (list Z) * option Z) :=
  match pszMsg, pBuf with
  | None, _ => Ret (ERROR_INVALID_PARAMETER, pBuf, None)
  | _, None => Ret (ERROR_INVALID_PARAMETER, pBuf, None)
  | Some (msg, p), Some buf =>
      if negb (cTable =? 0) && bool_decide (pTable = None)
      then Ret (ERROR_INVALID_PARAMETER, pBuf, None)
      else if cbBuf <? cbMsg then Ret (ERROR_MR_MSG_TOO_LONG, pBuf, None)
      else if cTable =? 0 then
        s ← cstr (drop (Z.to_nat p) msg);
        buf ← strlcpy buf s cbMsg;
        Ret (NO_ERROR, Some buf, None)
      else
        let table := default [] pTable in
        _ ← require (cTable <=? Z.of_nat (length table));
        let maxlen := max_length cbMsg cbBuf (take (Z.to_nat cTable) table) in
        '(rc, buf, n) ←
          insert_loop msg table cbBuf (S (length msg)) maxlen p cbMsg 0 0 buf;
        Ret (rc, Some buf, n)
  end.

(** ** Message files (msg.h)

    The fields of the packed header [msghdr_t]. *)

Definition HDR_MAGIC : list Z := 255 :: bstr "MKMSGF" ++ [0].

Definition hdr_id (msg : list Z) : C (list Z) :=
  i0 ← rd8 msg 8; i1 ← rd8 msg 9; i2 ← rd8 msg 10; Ret [i0; i1; i2].
Definition msgs_no (msg : list Z) : C Z := rd16 msg 11.
Definition firstmsgno (msg : list Z) : C Z := rd16 msg 13.
Definition is_offs_16bits (msg : list Z) : C Z := rd8 msg 15.
Definition idx_ofs (msg : list Z) : C Z := rd16 msg 18.
Definition ctry_info_ofs (msg : list Z) : C Z := rd16 msg 20.
Definition next_ctry_info (msg : list Z) : C Z := rd16 msg 22.

(** [strncmp] with the eight bytes of the magic reads up to the first
    difference. *)
Fixpoint same_bytes (msgSeg : list Z) (p : Z) (l : list Z) : C bool :=
  match l with
  | [] => Ret true
  | x :: l => c ← rd8 msgSeg p; if c =? x then same_bytes msgSeg (p + 1) l else Ret false
  end.
Definition PvtChkMsgFileFmt (msgSeg : list Z) : C Z :=
  b ← same_bytes msgSeg 0 HDR_MAGIC;
  Ret (if b : bool then NO_ERROR else ERROR_MR_INV_MSGF_FORMAT).

(** *** Reading the file *)

Section files.
(** The host: the return code of [DosOpenL] for a name, the search along DPATH
    ([DosName.DosSearchPath] with the flags of the source), the return code and
    the size of [DosQueryPathInfo], the return code of [DosAllocMem] for a size,
    and the return code of [DosRead] with the contents of the buffer after it,
    which has the size that was asked for. *)
Variable DosOpenL : list Z -> Z.
Variable DosSearchPath : list Z -> C (Z * list Z).
Variable DosQueryPathInfo : list Z -> Z * Z.
Variable DosAllocMem : Z -> Z.
Variable DosRead : list Z -> Z -> Z * list Z.

(** The return code, and the buffer with the file once it is allocated. *)
Definition PvtLoadMsgFile (pszFile : option (list Z)) : C (Z * option (list Z)) :=
  match pszFile with
  | None | Some [] => Ret (ERROR_INVALID_PARAMETER, None)
  | Some file =>
      if strnlen file CCHMAXPATH =? CCHMAXPATH then Ret (ERROR_FILENAME_EXCED_RANGE, None)
      else
        let rc := DosOpenL file in
        if negb (rc =? 0) && negb (rc =? ERROR_FILE_NOT_FOUND) && negb (rc =? ERROR_OPEN_FAILED)
           && negb (rc =? ERROR_PATH_NOT_FOUND)
        then Ret (rc, None)
        else
          '(rc, fn) ←
            (if negb (rc =? 0) then
               '(rc, fn) ← DosSearchPath file;
               if negb (rc =? 0) then Ret (rc, fn) else Ret (DosOpenL fn, fn)
             else Ret (rc, []));
          if negb (rc =? 0) then Ret (rc, None)
          else
            let fn := match fn with [] => file | _ => fn end in
            let '(rc, cbFile) := DosQueryPathInfo fn in
            if negb (rc =? 0) then Ret (rc, None)
            else if cbFile =? 0 then Ret (ERROR_INVALID_PARAMETER, None)
            else
              let rc := DosAllocMem cbFile in
              if negb (rc =? 0) then Ret (rc, None)
              else
                let '(rc, bytes) := DosRead fn cbFile in
                Ret (rc, Some bytes)
  end.

(** A segment that is used, with its size where the code has it.  A bound
    segment with a good format leaves [rc] without a value, which the code then
    tests. *)
Definition message_file (msgSeg : option (list Z)) (pszFile : option (list Z))
    : C (Z * option (list Z)) :=
  good ← (match msgSeg with
          | Some seg => rc ← PvtChkMsgFileFmt seg; Ret (rc =? NO_ERROR)
          | None => Ret false
          end);
  if good : bool then Undef
  else
    '(rc, buf) ← PvtLoadMsgFile pszFile;
    match buf with
    | Some seg =>
        if negb (rc =? 0) then Ret (ERROR_MR_UN_ACC_MSGF, None)
        else
          rc ← PvtChkMsgFileFmt seg;
          if negb (rc =? 0) then Ret (ERROR_MR_INV_MSGF_FORMAT, None) else Ret (NO_ERROR, Some seg)
    | None => Ret (ERROR_MR_UN_ACC_MSGF, None)
    end.

(** *** Getting a message *)

(** [%04u]. *)
Fixpoint digits (fuel : nat) (n : Z) (l : list Z) : list Z :=
  match fuel with
  | O => l
  | S fuel =>
      let l := (ch "0"%char + n mod 10) :: l in
      if n <? 10 then l else digits fuel (n / 10) l
  end.
Definition dec4 (n : Z) : list Z :=
  let l := digits 10 n [] in repeat (ch "0"%char) (4 - length l) ++ l.

(** What is written to the standard output before a message of the kind
    [kind]. *)
Definition message_prefix (id : list Z) (msgnumber kind : Z) : C (list Z) :=
  if bool_decide (kind ∈ bstr "EWI") then
    id ← cstr (id ++ [0]);
    Ret (id ++ dec4 msgnumber ++ bstr ": ")
  else Ret [].

Definition read_offset (msg : list Z) (msgnumber : Z) : C Z :=
  w ← is_offs_16bits msg;
  idx ← idx_ofs msg;
  if negb (w =? 0) then rd16 msg (idx + 2 * msgnumber)
  else o ← rd32 msg (idx + 4 * msgnumber); Ret (s32 o).

(** The return code, the buffer, what is stored at [pcbMsg], and what is written
    to the standard output. *)
Definition DosTrueGetMessage (msgSeg : option (list Z)) (pTable : option (list (list Z)))
    (cTable : Z) (pBuf : option (list Z)) (cbBuf msgnumber : Z) (pszFile : option (list Z))
    : C (Z * option (list Z) * option Z * list Z) :=
  if 9 <? cTable then Ret (ERROR_MR_INV_IVCOUNT, pBuf, None, [])
  else if bool_decide (pBuf = None) || (cbBuf =? 0)
  then Ret (ERROR_INVALID_PARAMETER, pBuf, None, [])
  else
    '(rc, seg) ← message_file msgSeg pszFile;
    match seg with
    | None => Ret (rc, pBuf, None, [])
    | Some msg =>
        let cbFile := Z.of_nat (length msg) in
        first ← firstmsgno msg;
        let msgnumber := u32 (msgnumber - first) in
        count ← msgs_no msg;
        if count <? msgnumber then Ret (ERROR_MR_MID_NOT_FOUND, pBuf, None, [])
        else
          msgoff ← read_offset msg msgnumber;
          msgend ←
            (if u32 (msgnumber + 1) =? count then
               n ← next_ctry_info msg; Ret (if negb (n =? 0) then n else cbFile)
             else read_offset msg (msgnumber + 1));
          if (cbFile <? u32 msgoff) || (cbFile <? u32 msgend)
          then Ret (ERROR_MR_MSG_TOO_LONG, pBuf, None, [])
          else
            let msglen := s32 (msgend - msgoff - 1) in
            kind ← rd8 msg msgoff;
            id ← hdr_id msg;
            out ← message_prefix id msgnumber kind;
            '(rc, b, n) ←
              DosInsertMessage pTable cTable (Some (msg, msgoff + 1)) (u32 msglen) pBuf cbBuf;
            Ret (rc, b, n, out)
    end.

(** *** The code pages of a message file

    The offsets are those of the packed [ctry_block_t]. *)

Fixpoint copy_pages (n : nat) (msg pb : list Z) (q p : Z) : C (list Z) :=
  match n with
  | O => Ret pb
  | S n =>
      v ← rd16 msg q;
      pb ← wr_bytes pb p (enc16 v);
      copy_pages n msg pb (q + 2) (p + 2)
  end.

(** The return code, the buffer and what is stored at [cbBuf].  The test in front
    of the first log call reads [*pszFile] when the pointer is null. *)
Definition DosIQueryMessageCP (pb : option (list Z)) (cb : Z) (pszFile : option (list Z))
    (msgSeg : option (list Z)) : C (Z * option (list Z) * option Z) :=
  _ ← require (bool_decide (pszFile <> None));
  match pb with
  | None => Ret (ERROR_INVALID_PARAMETER, pb, None)
  | Some b =>
      if (cb =? 0) || bool_decide (pszFile = Some [])
      then Ret (ERROR_INVALID_PARAMETER, pb, None)
      else
        '(rc, seg) ← message_file msgSeg pszFile;
        match seg with
        | None => Ret (rc, pb, None)
        | Some msg =>
            ctry ← ctry_info_ofs msg;
            cp_cnt ← rd16 msg (ctry + 7);
            if cp_cnt =? 0 then Ret (ERROR_MR_UN_PERFORM, pb, None)
            else if 16 <? cp_cnt then Ret (ERROR_INVALID_PARAMETER, pb, None)
            else if cb <? 6 + 2 * cp_cnt then Ret (ERROR_BUFFER_OVERFLOW, pb, None)
            else
              b ← wr_bytes b 0 (enc16 cp_cnt);
              b ← copy_pages (Z.to_nat cp_cnt) msg b (ctry + 9) 2;
              let p := 2 + 2 * cp_cnt in
              family ← rd16 msg (ctry + 3);
              b ← wr_bytes b p (enc16 family);
              dialect ← rd16 msg (ctry + 5);
              b ← wr_bytes b (p + 2) (enc16 dialect);
              Ret (NO_ERROR, Some b, Some (p + 4))
        end
  end.
End files.

(** ** Inserting strings: proofs

    A message as it is meant: characters, percent signs, [%0], and places of
    strings, the first with number 0. *)
Inductive piece := Lit (c : Z) | Percent | Skip | Arg (k : nat).

Definition enc_piece (p : piece) : list Z :=
  match p with
  | Lit c => [c]
  | Percent => [percent; percent]
  | Skip => [percent; ch "0"%char]
  | Arg k => [percent; ch "1"%char + Z.of_nat k]
  end.
Definition enc_pieces (ps : list piece) : list Z := mjoin (enc_piece <$> ps).

Definition render_piece (table : list (list Z)) (p : piece) : list Z :=
  match p with
  | Lit c => [c]
  | Percent => [percent]
  | Skip => []
  | Arg k => default [] (table !! k)
  end.
Definition render (table : list (list Z)) (ps : list piece) : list Z :=
  mjoin (render_piece table <$> ps).

Definition piece_ok (table : list (list Z)) (cbBuf : Z) (p : piece) : Prop :=
  match p with
  | Lit c => 0 < c < 256 /\ c <> percent
  | Arg k => (k < 9)%nat /\ exists s, table !! k = Some s /\ text s /\ Z.of_nat (length s) <= cbBuf
  | _ => True
  end.

Definition is_arg (p : piece) : bool := match p with Arg _ => true | _ => false end.
Definition is_lit (p : piece) : bool := match p with Lit _ => true | _ => false end.
(** The percent signs that start a piece, and the places of strings. *)
Fixpoint signs (ps : list piece) : nat :=
  match ps with [] => 0 | p :: ps => (if is_lit p then 0 else 1) + signs ps end%nat.
Fixpoint args (ps : list piece) : nat :=
  match ps with [] => 0 | p :: ps => (if is_arg p then 1 else 0) + args ps end%nat.

(** By how much a piece lowers [srclen]. *)
Definition cost_piece (p : piece) : Z :=
  match p with Lit _ => 1 | Percent => 2 | Skip => 2 | Arg _ => 1 end.
Fixpoint cost (ps : list piece) : Z :=
  match ps with [] => 0 | p :: ps => cost_piece p + cost ps end.

Lemma enc_cons p ps : enc_pieces (p :: ps) = enc_piece p ++ enc_pieces ps.
Proof. reflexivity. Qed.
Lemma render_cons table p ps : render table (p :: ps) = render_piece table p ++ render table ps.
Proof. reflexivity. Qed.
Lemma signs_cons p ps : Z.of_nat (signs (p :: ps)) =
  (if is_lit p then 0 else 1) + Z.of_nat (signs ps).
Proof. destruct p; cbn [signs is_lit]; lia. Qed.
Lemma args_cons p ps : Z.of_nat (args (p :: ps)) = (if is_arg p then 1 else 0) + Z.of_nat (args ps).
Proof. destruct p; cbn [args is_arg]; lia. Qed.

Lemma cost_length ps : cost ps + Z.of_nat (args ps) = Z.of_nat (length (enc_pieces ps)).
Proof.
  induction ps as [|p ps IH]; [done|]. rewrite args_cons, enc_cons, length_app.
  cbn [cost]. destruct p; cbn [enc_piece cost_piece is_arg length] in *; lia.
Qed.

Lemma cost_pos ps : 0 <= cost ps /\ (ps <> [] -> 0 < cost ps).
Proof. induction ps as [|p ps [IH _]]; cbn; [done|]. destruct p; cbn; split; lia. Qed.

Lemma cost_app ps qs : cost (ps ++ qs) = cost ps + cost qs.
Proof. induction ps as [|p ps IH]; cbn [app cost]; lia. Qed.

Lemma cost_lits l : cost (Lit <$> l) = Z.of_nat (length l).
Proof. 
  induction l as [|c l IH]; [done|]. change (Lit <$> c :: l) with (Lit c :: (Lit <$> l)).
  cbn [cost cost_piece length]. lia.
Qed.

Section inserting.
Variable table : list (list Z).
Variable cbBuf : Z.
#[local] Abbreviation ok := (piece_ok table cbBuf).

Lemma render_text ps : Forall ok ps -> text (render table ps).
Proof.
  induction 1 as [|p ps Hp _ IH]; [constructor|]. rewrite render_cons. apply text_app.
  split; [|done]. destruct p as [c| | |k]; cbn in *.
  - constructor; [lia|constructor].
  - by apply text_check.
  - constructor.
  - destruct Hp as (_ & s & -> & Hs & _). exact Hs.
Qed.

Lemma turn_eq (w w' : list Z) (x x' y y' z z' : Z) : w = w' -> x = x' -> y = y' -> z = z' ->
  @Ret (Z + list Z * Z * Z * Z) (inr (w, x, y, z)) = Ret (inr (w', x', y', z')).
Proof. congruence. Qed.

(** One turn of the loop handles one piece. *)
Lemma read_piece p pre rest srclen iv : ok p -> iv + (if is_lit p then 0 else 1) <= 9 ->
  read_one (pre ++ enc_piece p ++ rest) table cbBuf (Z.of_nat (length pre)) srclen iv =
    Ret (inr (render_piece table p, Z.of_nat (length (pre ++ enc_piece p)), srclen - cost_piece p,
      iv + (if is_lit p then 0 else 1))).
Proof.
  intros Hp Hiv. unfold read_one.
  assert (Hsign : forall d, rd8 (pre ++ percent :: d :: rest) (Z.of_nat (length pre) + 1) = Ret d).
  { intros d. rewrite <- (len_snoc pre percent).
    change (percent :: d :: rest) with ([percent] ++ d :: rest). rewrite app_assoc. by apply rd8_pre. }
  rewrite length_app.
  destruct p as [c| | |k]; cbn [enc_piece render_piece is_lit cost_piece app length] in *;
    rewrite (rd8_pre pre _ _ (Z.of_nat (length pre))) by done; cbn [mbind C_bind];
    rewrite ?Z.eqb_refl; cbv zeta iota.
  1: destruct Hp as [Hc Hcp]; destruct (Z.eqb_spec c percent); [done|]; apply turn_eq; (done || lia).
  all: destruct (Z.ltb_spec 9 (iv + 1)); [lia|]; rewrite Hsign; cbn [mbind C_bind].
  - rewrite Z.eqb_refl. apply turn_eq; (done || lia).
  - change (ch "0"%char =? percent) with false. rewrite Z.eqb_refl. apply turn_eq; (done || lia).
  - destruct Hp as (Hk & s & Es & Hs & Hl). rewrite Es. cbn [from_option id].
    change (ch "1"%char) with 49. change (ch "0"%char) with 48. change (ch "9"%char) with 57.
    change percent with 37.
    destruct (Z.eqb_spec (49 + Z.of_nat k) 37); [lia|]. destruct (Z.eqb_spec (49 + Z.of_nat k) 48); [lia|].
    destruct (Z.leb_spec 49 (49 + Z.of_nat k)); [|lia]. destruct (Z.leb_spec (49 + Z.of_nat k) 57); [|lia].
    cbn [andb]. replace (Z.to_nat (49 + Z.of_nat k - 49)) with k by lia. rewrite Es.
    cbn [need mbind C_bind]. rewrite strnlen_min, Z.min_l, Nat2Z.id, firstn_all by lia.
    apply turn_eq; (done || lia).
Qed.

Lemma piece_text p : ok p -> text (render_piece table p).
Proof.
  destruct p as [c| | |k]; cbn.
  - intros [Hc _]. constructor; [lia|constructor].
  - intros _. by apply text_check.
  - constructor.
  - intros (_ & s & -> & Hs & _). exact Hs.
Qed.

(** Storing where there is room, and where there is not. *)
Lemma store_fits s a r : text s -> (length s <= length r)%nat -> exists r',
  wr_bytes (a ++ r) (Z.of_nat (length a)) s = Ret ((a ++ s) ++ r') /\
  (length s + length r' = length r)%nat.
Proof.
  intros Hs Hl. pose proof (wr_bytes_pre s a (take (length s) r) (drop (length s) r) _ eq_refl
    ltac:(rewrite length_take; lia) (text_bytes s Hs)) as E.
  rewrite take_drop in E. rewrite E. exists (drop (length s) r).
  rewrite length_drop, <- app_assoc. split; [done|lia].
Qed.

Lemma store_over s : text s -> forall a r, (length r < length s)%nat ->
  wr_bytes (a ++ r) (Z.of_nat (length a)) s = Undef.
Proof.
  induction 1 as [|c s Hc _ IH]; intros a r Hl; [cbn in Hl; lia|]. cbn [wr_bytes].
  destruct r as [|x r].
  - rewrite app_nil_r. unfold wr8. by rewrite Z.ltb_irrefl, andb_false_r.
  - rewrite wr8_here by (unfold is_byte; lia). cbn [mbind C_bind]. rewrite <- len_snoc with (c := c).
    apply IH. cbn in Hl. lia.
Qed.

(** The loop over pieces whose costs [srclen] counts: the result where there is
    room for it and its terminator. *)
Lemma insert_loop_spec ps : forall pre rest a r iv maxlen fuel, Forall ok ps -> ps <> [] ->
  iv + Z.of_nat (signs ps) <= 9 -> Z.of_nat (length a + length (render table ps)) <= maxlen ->
  (length ps <= fuel)%nat ->
  let run := insert_loop (pre ++ enc_pieces ps ++ rest) table cbBuf fuel maxlen
    (Z.of_nat (length pre)) (cost ps) (Z.of_nat (length a)) iv (a ++ r) in
  if decide (length (render table ps) < length r)%nat then
    exists r', run = Ret (NO_ERROR, (a ++ render table ps) ++ 0 :: r',
        Some (Z.of_nat (length (a ++ render table ps)) + 1)) /\
      (length (render table ps) + S (length r') = length r)%nat
  else run = Undef.
Proof.
  induction ps as [|p ps IH]; [done|]. intros pre rest a r iv maxlen [|fuel] Hok _ Hiv Hm Hf;
    [cbn in Hf; lia|]. inversion_clear Hok as [|? ? Hp Hps]. cbv zeta.
  rewrite enc_cons, render_cons, <- app_assoc in *. rewrite signs_cons in Hiv.
  rewrite (length_app (render_piece table p)) in *. cbn [length insert_loop] in *.
  rewrite read_piece by (done || lia). cbn [mbind C_bind cost].
  replace (cost_piece p + cost ps - cost_piece p) with (cost ps) by lia.
  destruct (decide (length (render_piece table p) <= length r)%nat) as [Hl|Hl].
  2: { rewrite store_over by (by apply piece_text || lia). by rewrite decide_False by lia. }
  destruct (store_fits _ a r (piece_text p Hp) Hl) as (r1 & -> & L1). cbn [mbind C_bind].
  rewrite <- Nat2Z.inj_add, <- (length_app a).
  destruct ps as [|q ps].
  - cbn [cost]. rewrite Z.leb_refl. change (render table []) with (@nil Z). rewrite app_nil_r.
    cbn [length]. case_decide as Hd.
    + destruct r1 as [|x r1]; [cbn in *; lia|]. rewrite wr8_pre by done. cbn [mbind C_bind].
      exists r1. split; [done|]. cbn in *. lia.
    + destruct r1; [|cbn in *; lia]. rewrite app_nil_r. unfold wr8.
      by rewrite Z.ltb_irrefl, andb_false_r.
  - destruct (cost_pos (q :: ps)) as [_ Hc]. specialize (Hc ltac:(done)).
    destruct (Z.leb_spec (cost (q :: ps)) 0); [lia|].
    destruct (Z.ltb_spec maxlen (Z.of_nat (length (a ++ render_piece table p))));
      [rewrite length_app in *; lia|].
    pose proof (IH (pre ++ enc_piece p) rest (a ++ render_piece table p) r1
      (iv + (if is_lit p then 0 else 1)) maxlen fuel Hps ltac:(done) ltac:(lia)
      ltac:(rewrite length_app; lia) ltac:(cbn [length] in *; lia)) as E.
    cbv zeta in E. rewrite <- !app_assoc in E. rewrite <- !app_assoc.
    repeat case_decide; try lia; [|done]. destruct E as (r2 & E & L2). exists r2.
    rewrite E. split; [done|lia].
Qed.
End inserting.

Lemma enc_app ps qs : enc_pieces (ps ++ qs) = enc_pieces ps ++ enc_pieces qs.
Proof. unfold enc_pieces. by rewrite fmap_app, join_app. Qed.
Lemma render_app table ps qs : render table (ps ++ qs) = render table ps ++ render table qs.
Proof. unfold render. by rewrite fmap_app, join_app. Qed.
Lemma enc_lits l : enc_pieces (Lit <$> l) = l.
Proof. induction l as [|c l IH]; [done|]. cbn. by rewrite <- IH at 2. Qed.
Lemma render_lits table l : render table (Lit <$> l) = l.
Proof. induction l as [|c l IH]; [done|]. cbn. by rewrite <- IH at 2. Qed.
Lemma signs_app_lits ps l : signs (ps ++ (Lit <$> l)) = signs ps.
Proof.
  induction ps as [|p ps IH]; cbn [app signs]; [|by rewrite IH].
  induction l as [|c l IH]; [done|]. exact IH.
Qed.

Definition plain (l : list Z) : Prop := Forall (fun c => 0 < c < 256 /\ c <> percent) l.

Lemma plain_text l : plain l -> text l.
Proof. intros H. eapply Forall_impl; [exact H|]. by intros c [Hc _]. Qed.

Lemma enc_length ps : (length ps <= length (enc_pieces ps))%nat.
Proof.
  induction ps as [|p ps IH]; [done|]. rewrite enc_cons, length_app. cbn [length].
  destruct p; cbn [enc_piece length]; lia.
Qed.

(** A message in its array: the pieces and, as the loop counts one byte too few for
    every string it inserts, the bytes that it reads behind them. *)
Section message.
Variable table : list (list Z).
Variable cbBuf : Z.
Variables ps : list piece.
Variables pre over rest : list Z.
Hypothesis ps_ok : Forall (piece_ok table cbBuf) ps.
Hypothesis ps_some : ps <> [].
Hypothesis over_plain : plain over.
Hypothesis over_length : length over = args ps.
Hypothesis few_signs : (signs ps <= 9)%nat.
Hypothesis table_some : table <> [].

Definition inserted : list Z := render table ps ++ over.
#[local] Abbreviation msg := (pre ++ enc_pieces ps ++ over ++ rest).
#[local] Abbreviation cbMsg := (Z.of_nat (length (enc_pieces ps))).
#[local] Abbreviation qs := (ps ++ (Lit <$> over)).

Lemma qs_ok : Forall (piece_ok table cbBuf) qs.
Proof.
  apply Forall_app. split; [done|]. apply Forall_fmap. exact over_plain.
Qed.

Lemma qs_cost : cost qs = cbMsg.
Proof. rewrite cost_app, cost_lits, <- cost_length. lia. Qed.

Lemma insert_run buf : Z.of_nat (length buf) = cbBuf -> cbMsg <= cbBuf ->
  DosInsertMessage (Some table) (Z.of_nat (length table)) (Some (msg, Z.of_nat (length pre)))
    cbMsg (Some buf) cbBuf =
  '(rc, b, n) ← insert_loop (pre ++ enc_pieces qs ++ rest) table cbBuf (S (length msg))
     (max_length cbMsg cbBuf table) (Z.of_nat (length pre)) (cost qs) 0 0 buf;
  Ret (rc, Some b, n).
Proof.
  intros Hb Hc. unfold DosInsertMessage.
  destruct (Z.eqb_spec (Z.of_nat (length table)) 0); [by destruct table|].
  cbn [negb andb]. rewrite bool_decide_eq_false_2 by done. destruct (Z.ltb_spec cbBuf cbMsg); [lia|].
  cbn [from_option id]. rewrite Z.leb_refl. cbn [require mbind C_bind].
  rewrite Nat2Z.id, firstn_all, qs_cost, enc_app, enc_lits, <- (app_assoc (enc_pieces ps)). done.
Qed.

Lemma insert_message_gives buf : Z.of_nat (length buf) = cbBuf -> cbMsg <= cbBuf ->
  Z.of_nat (length inserted) <= max_length cbMsg cbBuf table ->
  let run := DosInsertMessage (Some table) (Z.of_nat (length table))
      (Some (msg, Z.of_nat (length pre))) cbMsg (Some buf) cbBuf in
  if decide (length inserted < length buf)%nat then
    exists b, run = Ret (NO_ERROR, Some b, Some (Z.of_nat (length inserted) + 1)) /\
      is_str cbBuf b inserted
  else run = Undef.
Proof.
  intros Hb Hc Hm. cbv zeta. rewrite insert_run by done.
  assert (Er : render table qs = inserted) by (by rewrite render_app, render_lits).
  pose proof (insert_loop_spec table cbBuf qs pre rest [] buf 0 (max_length cbMsg cbBuf table)
    (S (length msg)) qs_ok) as E. rewrite Er in E. cbn [app length] in E.
  change (Z.of_nat 0) with 0 in E. specialize (E ltac:(by destruct ps)).
  rewrite signs_app_lits in E. specialize (E ltac:(lia) ltac:(lia)).
  assert (Hf : (length qs <= S (length msg))%nat).
  { pose proof (enc_length qs) as H. rewrite enc_app, enc_lits, length_app in H.
    rewrite !length_app in *. lia. }
  specialize (E Hf). cbv zeta in E. case_decide as Hd.
  - destruct E as (r & -> & L). eexists. split; [done|]. split; [|by exists r].
    rewrite length_app. cbn [length]. lia.
  - by rewrite E.
Qed.
End message.

(** A message with strings to insert becomes what its pieces say, followed by
    as many bytes from behind the message as strings were inserted, and a zero;
    the length reported counts the zero.  The message has at most nine percent
    signs that start a piece and its result is within the length allowed. *)
Theorem insert_message_spec table ps pre over rest buf :
  let cbBuf := Z.of_nat (length buf) in
  let cbMsg := Z.of_nat (length (enc_pieces ps)) in
  let out := render table ps ++ over in
  Forall (piece_ok table cbBuf) ps -> ps <> [] -> plain over -> length over = args ps ->
  (signs ps <= 9)%nat -> table <> [] -> cbMsg <= cbBuf -> (length out < length buf)%nat ->
  Z.of_nat (length out) <= max_length cbMsg cbBuf table ->
  exists b, DosInsertMessage (Some table) (Z.of_nat (length table))
      (Some (pre ++ enc_pieces ps ++ over ++ rest, Z.of_nat (length pre))) cbMsg (Some buf) cbBuf =
    Ret (NO_ERROR, Some b, Some (Z.of_nat (length out) + 1)) /\ is_str cbBuf b out.
Proof.
  intros cbBuf cbMsg out Hok Hne Hp Hl Hs Ht Hc Hr Hm.
  pose proof (insert_message_gives table cbBuf ps pre over rest Hok Hne Hp Hl Hs Ht buf eq_refl
    Hc Hm) as H. cbv zeta in H. by rewrite decide_True in H.
Qed.

(** The size of the buffer is compared with the message only: strings that make
    the result as long as the buffer or longer are stored over its end. *)
Theorem insert_message_overflow table ps pre over rest buf :
  let cbBuf := Z.of_nat (length buf) in
  let cbMsg := Z.of_nat (length (enc_pieces ps)) in
  let out := render table ps ++ over in
  Forall (piece_ok table cbBuf) ps -> ps <> [] -> plain over -> length over = args ps ->
  (signs ps <= 9)%nat -> table <> [] -> cbMsg <= cbBuf -> (length buf <= length out)%nat ->
  Z.of_nat (length out) <= max_length cbMsg cbBuf table ->
  DosInsertMessage (Some table) (Z.of_nat (length table))
    (Some (pre ++ enc_pieces ps ++ over ++ rest, Z.of_nat (length pre))) cbMsg (Some buf) cbBuf
    = Undef.
Proof.
  intros cbBuf cbMsg out Hok Hne Hp Hl Hs Ht Hc Hr Hm.
  pose proof (insert_message_gives table cbBuf ps pre over rest Hok Hne Hp Hl Hs Ht buf eq_refl
    Hc Hm) as H. cbv zeta in H. rewrite decide_False in H; [exact H|].
  unfold inserted. fold out. lia.
Qed.


(** Without strings to insert the message is copied without its last character,
    percent signs are left as they are, and no length is stored. *)
Theorem insert_nothing_spec pTable pre s rest post buf :
  let cbMsg := Z.of_nat (length s) in
  let cbBuf := Z.of_nat (length buf) in
  text s -> text rest -> s <> [] -> cbMsg <= cbBuf ->
  exists b, DosInsertMessage pTable 0 (Some (pre ++ s ++ rest ++ 0 :: post, Z.of_nat (length pre)))
      cbMsg (Some buf) cbBuf = Ret (NO_ERROR, Some b, None) /\
    is_str cbBuf b (take (length s - 1) s).
Proof.
  intros cbMsg cbBuf Hs Hr Hne Hc. unfold DosInsertMessage. rewrite Z.eqb_refl. cbn [negb andb].
  destruct (Z.ltb_spec cbBuf cbMsg); [lia|]. rewrite Nat2Z.id, drop_app_length, app_assoc.
  rewrite cstr_text by (by apply text_app). cbn [mbind C_bind].
  assert (0 < length s)%nat by (destruct s; [done|cbn; lia]).
  destruct (strlcpy_spec buf (s ++ rest) cbMsg) as (b & -> & Hb); [by apply text_app|lia|].
  cbn [mbind C_bind]. exists b. split; [done|].
  replace (Z.to_nat (cbMsg - 1)) with (length s - 1)%nat in Hb by lia.
  by rewrite take_app_le in Hb by lia.
Qed.

(** ** Message files: proofs

    A file as it is meant: its identifier, the number of the first message, the
    country information, and the messages, each its kind and its text. *)

Definition body (m : Z * list Z) : list Z := m.1 :: m.2.
Definition bodies (ms : list (Z * list Z)) : list Z := mjoin (body <$> ms).

Section message_files.
Variable small : bool.
Variable fileid : list Z.
Variable first : Z.
Variable ctry : list Z.
Variable ms : list (Z * list Z).

Definition hdr_size : Z := 31.
Definition entry_size : Z := if small then 2 else 4.
Definition idx_at : Z := hdr_size + Z.of_nat (length ctry).
Definition offset (i : nat) : Z :=
  idx_at + entry_size * Z.of_nat (length ms) + Z.of_nat (length (bodies (take i ms))).
Definition enc_offset (i : nat) : list Z := if small then enc16 (offset i) else enc32 (offset i).

Definition enc_header : list Z :=
  HDR_MAGIC ++ fileid ++ enc16 (Z.of_nat (length ms)) ++ enc16 first ++ [if small then 1 else 0]
  ++ enc16 2 ++ enc16 idx_at ++ enc16 hdr_size ++ enc16 0 ++ repeat 0 7.
Definition enc_index : list Z := mjoin (enc_offset <$> seq 0 (length ms)).
Definition enc_file : list Z := enc_header ++ ctry ++ enc_index ++ bodies ms.

(** The limits of the format: the sizes of the fields of the header and of the
    entries of the index. *)
Definition file_ok : Prop :=
  length fileid = 3%nat /\ text fileid /\ 0 <= first < 2 ^ 16 /\ Z.of_nat (length ms) < 2 ^ 16 /\
  idx_at < 2 ^ 16 /\ Z.of_nat (length enc_file) < (if small then 2 ^ 16 else 2 ^ 31).
Hypothesis ok : file_ok.

Lemma header_length : length enc_header = 31%nat.
Proof.
  destruct ok as (Hid & _). unfold enc_header. rewrite !length_app, Hid. reflexivity.
Qed.

Lemma offset_length i : Z.of_nat (length (enc_offset i)) = entry_size.
Proof. unfold enc_offset, entry_size. destruct small; reflexivity. Qed.

Lemma index_length_from k n : Z.of_nat (length (mjoin (enc_offset <$> seq k n))) =
  entry_size * Z.of_nat n.
Proof.
  revert k. induction n as [|n IH]; intros k; [unfold entry_size; cbn; destruct small; lia|].
  cbn [seq]. change (enc_offset <$> k :: seq (S k) n)
    with (enc_offset k :: (enc_offset <$> seq (S k) n)). cbn [mjoin list_join].
  rewrite length_app, Nat2Z.inj_add, offset_length, IH. unfold entry_size. destruct small; lia.
Qed.

Lemma bodies_app l1 l2 : bodies (l1 ++ l2) = bodies l1 ++ bodies l2.
Proof. unfold bodies. by rewrite fmap_app, join_app. Qed.

Lemma file_length : Z.of_nat (length enc_file) = offset (length ms).
Proof.
  unfold enc_file, offset, idx_at, hdr_size, enc_index. rewrite firstn_all, !length_app, header_length,
    !Nat2Z.inj_add, index_length_from. lia.
Qed.

Lemma offset_le i : (i <= length ms)%nat -> offset i <= Z.of_nat (length enc_file).
Proof.
  intros Hi. rewrite file_length. unfold offset. rewrite firstn_all.
  rewrite <- (take_drop i ms) at 4. rewrite bodies_app, length_app. lia.
Qed.

Lemma offset_pos i : 0 <= offset i.
Proof. unfold offset, idx_at, hdr_size, entry_size. destruct small; lia. Qed.

(** Where the fields of the header are. *)
Record header_read : Prop := {
  at_magic : PvtChkMsgFileFmt enc_file = Ret NO_ERROR;
  at_id : hdr_id enc_file = Ret fileid;
  at_count : msgs_no enc_file = Ret (Z.of_nat (length ms));
  at_first : firstmsgno enc_file = Ret first;
  at_small : is_offs_16bits enc_file = Ret (if small then 1 else 0);
  at_idx : idx_ofs enc_file = Ret idx_at;
  at_ctry : ctry_info_ofs enc_file = Ret hdr_size;
  at_next : next_ctry_info enc_file = Ret 0
}.

Lemma header_fields : header_read.
Proof.
  destruct ok as (id_length & _ & first_range & count_range & idx_range & _).
  assert (H : bytes_at enc_file 0 (enc_header ++ ctry ++ enc_index ++ bodies ms)).
  { exists [], []. by rewrite app_nil_r. }
  assert (Hm : PvtChkMsgFileFmt enc_file = Ret NO_ERROR) by (unfold enc_file, enc_header; by destruct small).
  unfold enc_header in H. destruct fileid as [|i0 [|i1 [|i2 [|]]]] eqn:Eid; try done. rewrite <- !app_assoc in H.
  assert (u16id : forall z, 0 <= z < 2 ^ 16 -> u16 z = z) by (unfold u16; lia).
  assert (Hidx : 0 <= idx_at) by (unfold idx_at, hdr_size; lia).
  apply bytes_at_app in H as [_ H].
  pose proof (bytes_at_cons _ 8 _ _ H) as [E0 [E1 [E2 _]%bytes_at_cons]%bytes_at_cons].
  apply bytes_at_app in H as [_ H]. pose proof (bytes_at_rd16 _ 11 _ _ H) as E3.
  apply bytes_at_app in H as [_ H]. pose proof (bytes_at_rd16 _ 13 _ _ H) as E4.
  apply bytes_at_app in H as [_ H]. pose proof (bytes_at_cons _ 15 _ _ H) as [E5 _].
  apply bytes_at_app in H as [_ H]. apply bytes_at_app in H as [_ H].
  pose proof (bytes_at_rd16 _ 18 _ _ H) as E6.
  apply bytes_at_app in H as [_ H]. pose proof (bytes_at_rd16 _ 20 _ _ H) as E7.
  apply bytes_at_app in H as [_ H]. pose proof (bytes_at_rd16 _ 22 _ _ H) as E8.
  rewrite u16id in E3, E4, E6 by lia.
  split; try done.
  unfold hdr_id. rewrite E0. cbn [mbind C_bind]. change 9 with (8 + 1). rewrite E1. cbn [mbind C_bind].
  change (rd8 enc_file 10) with (rd8 enc_file (8 + 1 + 1)). by rewrite E2, Eid.
Qed.

(** The offset of a message in the index. *)
Lemma index_entry i : (i < length ms)%nat -> read_offset enc_file (Z.of_nat i) = Ret (offset i).
Proof.
  intros Hi. unfold read_offset. destruct header_fields as [_ _ _ _ -> -> _ _]. cbn [mbind C_bind].
  assert (H : bytes_at enc_file (idx_at + entry_size * Z.of_nat i)
    (enc_offset i ++ mjoin (enc_offset <$> seq (S i) (length ms - S i)) ++ bodies ms)).
  { exists (enc_header ++ ctry ++ mjoin (enc_offset <$> seq 0 i)), []. rewrite app_nil_r. split.
    - unfold enc_file, enc_index. replace (length ms) with (i + S (length ms - S i))%nat at 1 by lia.
      rewrite seq_app, fmap_app, join_app. cbn [seq]. rewrite Nat.add_0_l.
      change (enc_offset <$> i :: ?l) with (enc_offset i :: (enc_offset <$> l)). cbn [mjoin list_join].
      by rewrite <- !app_assoc.
    - rewrite !length_app, header_length, !Nat2Z.inj_add, index_length_from. unfold idx_at, hdr_size. lia. }
  pose proof (offset_le i ltac:(lia)) as Hle. pose proof (offset_pos i) as Hp.
  destruct ok as (_ & _ & _ & _ & _ & file_range).
  unfold enc_offset, entry_size in H. destruct small; cbn [negb Z.eqb].
  - rewrite (bytes_at_rd16 _ _ _ _ H). unfold u16. f_equal. lia.
  - rewrite (bytes_at_rd32 _ _ _ _ H). cbn [mbind C_bind]. f_equal.
    rewrite u32_id by (unfold is_u32; lia). apply s32_small. lia.
Qed.

Lemma offset_next i k t : ms !! i = Some (k, t) -> offset (S i) = offset i + 1 + Z.of_nat (length t).
Proof.
  intros Hi. unfold offset. rewrite (take_S_r _ _ _ Hi), bodies_app, length_app. cbn. rewrite app_nil_r. lia.
Qed.

(** A message in the file. *)
Lemma message_at i k t : ms !! i = Some (k, t) -> exists pre,
  enc_file = pre ++ k :: t ++ bodies (drop (S i) ms) /\ offset i = Z.of_nat (length pre).
Proof.
  intros Hi. exists (enc_header ++ ctry ++ enc_index ++ bodies (take i ms)). split.
  - assert (E : bodies ms = bodies (take i ms) ++ (k :: t) ++ bodies (drop (S i) ms)).
    { rewrite <- (take_drop_middle _ _ _ Hi) at 1. by rewrite bodies_app. }
    unfold enc_file. rewrite E. by rewrite <- !app_assoc.
  - rewrite !length_app, header_length, !Nat2Z.inj_add. unfold enc_index. rewrite index_length_from.
    unfold offset, idx_at, hdr_size. lia.
Qed.
End message_files.

(** What precedes a message on the standard output. *)
Definition shown (fileid : list Z) (i : nat) (kind : Z) : list Z :=
  if bool_decide (kind ∈ bstr "EWI") then fileid ++ dec4 (Z.of_nat i) ++ bstr ": " else [].

Section getting.
Variable DosOpenL : list Z -> Z.
Variable DosSearchPath : list Z -> C (Z * list Z).
Variable DosQueryPathInfo : list Z -> Z * Z.
Variable DosAllocMem : Z -> Z.
Variable DosRead : list Z -> Z -> Z * list Z.
#[local] Abbreviation load := (PvtLoadMsgFile DosOpenL DosSearchPath DosQueryPathInfo DosAllocMem DosRead).
#[local] Abbreviation get := (DosTrueGetMessage DosOpenL DosSearchPath DosQueryPathInfo DosAllocMem DosRead).

Lemma message_file_loaded small fileid first ctry ms pszFile :
  file_ok small fileid first ctry ms ->
  let f := enc_file small fileid first ctry ms in
  load pszFile = Ret (NO_ERROR, Some f) ->
  message_file DosOpenL DosSearchPath DosQueryPathInfo DosAllocMem DosRead None pszFile =
    Ret (NO_ERROR, Some f).
Proof.
  intros Hok f Hload. subst f. unfold message_file. cbn [mbind C_bind].
  rewrite Hload. cbn [mbind C_bind].
  destruct (header_fields small fileid first ctry ms Hok) as [-> _ _ _ _ _ _ _]. done.
Qed.

(** Getting a message is inserting the strings in its text, of which the file
    tells the place and the length. *)
Lemma get_message_run small fileid first ctry ms pszFile i kind t pTable cTable buf cbBuf :
  file_ok small fileid first ctry ms ->
  let f := enc_file small fileid first ctry ms in
  load pszFile = Ret (NO_ERROR, Some f) ->
  ms !! i = Some (kind, t) -> 0 <= cTable <= 9 -> cbBuf <> 0 ->
  exists pre, f = pre ++ t ++ bodies (drop (S i) ms) /\
  get None pTable cTable (Some buf) cbBuf (first + Z.of_nat i) pszFile =
    '(rc, b, n) ← DosInsertMessage pTable cTable (Some (f, Z.of_nat (length pre)))
      (Z.of_nat (length t)) (Some buf) cbBuf;
    Ret (rc, b, n, shown fileid i kind).
Proof.
  intros Hok f Hload Hm Ht Hb. pose proof (message_file_loaded _ _ _ _ _ _ Hok Hload) as Hfile.
  destruct (header_fields small fileid first ctry ms Hok) as [_ Eid Ec Ef _ _ _ En].
  fold f in Eid, Ec, Ef, En.
  destruct (message_at small fileid first ctry ms Hok i kind t Hm) as (pre & Epre & Eo).
  assert (Hlt : (i < length ms)%nat) by (by apply lookup_lt_Some in Hm).
  pose proof Hok as (_ & Hid & Hfr & Hc & _ & Hl).
  assert (Hrange : Z.of_nat (length f) < 2 ^ 31) by (unfold f; destruct small; lia).
  pose proof (index_entry small fileid first ctry ms Hok) as Hidx.
  pose proof (offset_le small fileid first ctry ms Hok) as Hle. fold f in Hidx, Hle.
  pose proof (offset_pos small ctry ms) as Hpos.
  pose proof (offset_next small ctry ms i kind t Hm) as Hnx.
  exists (pre ++ [kind]). split; [unfold f; by rewrite Epre, <- app_assoc|].
  unfold DosTrueGetMessage. destruct (Z.ltb_spec 9 cTable); [lia|].
  rewrite bool_decide_eq_false_2 by done. destruct (Z.eqb_spec cbBuf 0); [done|]. cbn [orb].
  rewrite Hfile. cbn [mbind C_bind]. fold f. rewrite Ef, Ec. cbn [mbind C_bind].
  replace (first + Z.of_nat i - first) with (Z.of_nat i) by lia.
  rewrite u32_id by (unfold is_u32; lia). destruct (Z.ltb_spec (Z.of_nat (length ms)) (Z.of_nat i)); [lia|].
  rewrite Hidx by done. cbn [mbind C_bind]. rewrite (u32_id (Z.of_nat i + 1)) by (unfold is_u32; lia).
  set (e := if Z.of_nat i + 1 =? Z.of_nat (length ms) then _ else _).
  assert (Ee : e = Ret (offset small ctry ms (S i))).
  { unfold e. destruct (Z.eqb_spec (Z.of_nat i + 1) (Z.of_nat (length ms))) as [E|E].
    - rewrite En. cbn [mbind C_bind negb Z.eqb]. f_equal. unfold f. rewrite file_length by done.
      f_equal. lia.
    - replace (Z.of_nat i + 1) with (Z.of_nat (S i)) by lia. apply Hidx. lia. }
  rewrite Ee. cbn [mbind C_bind].
  pose proof (Hle i ltac:(lia)). pose proof (Hle (S i) ltac:(lia)).
  pose proof (Hpos i). pose proof (Hpos (S i)).
  rewrite (u32_id (offset small ctry ms i)), (u32_id (offset small ctry ms (S i)))
    by (unfold is_u32; lia).
  destruct (Z.ltb_spec (Z.of_nat (length f)) (offset small ctry ms i)); [lia|].
  destruct (Z.ltb_spec (Z.of_nat (length f)) (offset small ctry ms (S i))); [lia|]. cbn [orb].
  rewrite s32_small by lia.
  replace (offset small ctry ms (S i) - offset small ctry ms i - 1) with (Z.of_nat (length t)) by lia.
  rewrite u32_id by (unfold is_u32; lia). rewrite len_snoc, Eo.
  assert (Ek : rd8 f (Z.of_nat (length pre)) = Ret kind)
    by (unfold f; rewrite Epre; by apply rd8_pre).
  rewrite Ek. cbn [mbind C_bind]. rewrite Eid. cbn [mbind C_bind].
  assert (Es : message_prefix fileid (Z.of_nat i) kind = Ret (shown fileid i kind)).
  { unfold message_prefix, shown. destruct (bool_decide _); [|done].
    by rewrite (cstr_text fileid [] Hid). }
  rewrite Es. done.
Qed.
End getting.

(** C32: A message of a message file, asked for with strings to insert, arrives in
    the buffer with the strings in their places, terminated, behind the bytes that
    follow it in the file, one for each string inserted; an error, a warning or an
    information is announced on the standard output. *)
Theorem get_message_spec DosOpenL DosSearchPath DosQueryPathInfo DosAllocMem DosRead
    small fileid first ctry ms pszFile i kind ps table over rest buf :
  let f := enc_file small fileid first ctry ms in
  let cbBuf := Z.of_nat (length buf) in
  let out := render table ps ++ over in
  file_ok small fileid first ctry ms ->
  PvtLoadMsgFile DosOpenL DosSearchPath DosQueryPathInfo DosAllocMem DosRead pszFile =
    Ret (NO_ERROR, Some f) ->
  ms !! i = Some (kind, enc_pieces ps) -> bodies (drop (S i) ms) = over ++ rest ->
  Forall (piece_ok table cbBuf) ps -> ps <> [] -> plain over -> length over = args ps ->
  (signs ps <= 9)%nat -> table <> [] -> (length table <= 9)%nat ->
  (length (enc_pieces ps) <= length buf)%nat -> (length out < length buf)%nat ->
  Z.of_nat (length out) <= max_length (Z.of_nat (length (enc_pieces ps))) cbBuf table ->
  exists b, DosTrueGetMessage DosOpenL DosSearchPath DosQueryPathInfo DosAllocMem DosRead None
      (Some table) (Z.of_nat (length table)) (Some buf) cbBuf (first + Z.of_nat i) pszFile =
    Ret (NO_ERROR, Some b, Some (Z.of_nat (length out) + 1), shown fileid i kind) /\
    is_str cbBuf b out.
Proof.
  intros f cbBuf out Hf Hload Hm Hrest Hok Hne Hp Hl Hs Ht Ht9 Hc Hr Hmax.
  destruct (get_message_run DosOpenL DosSearchPath DosQueryPathInfo DosAllocMem DosRead
    small fileid first ctry ms pszFile i kind (enc_pieces ps) (Some table)
    (Z.of_nat (length table)) buf cbBuf Hf Hload Hm ltac:(lia) ltac:(lia)) as (pre & Ef & ->).
  rewrite Hrest in Ef. rewrite Ef.
  pose proof (insert_message_gives table cbBuf ps pre over rest Hok Hne Hp Hl Hs Ht buf eq_refl
    ltac:(lia) Hmax) as H. cbv zeta in H. rewrite decide_True in H by exact Hr.
  destruct H as (b & E & Hb). exists b. by rewrite E.
Qed.

(** ** Code pages: proofs *)

Definition enc_pages (vs : list Z) : list Z := mjoin (enc16 <$> vs).
(** Country information: the size of a character, two bytes that are not used, the
    language, the code pages. *)
Definition enc_ctry (chars : list Z) (family dialect : Z) (pages rest : list Z) : list Z :=
  chars ++ enc16 family ++ enc16 dialect ++ enc16 (Z.of_nat (length pages)) ++ enc_pages pages ++ rest.

Lemma enc16_u16 v : enc16 (u16 v) = enc16 v.
Proof. unfold enc16, u16, u8. f_equal; [|f_equal]; lia. Qed.

Lemma enc16_length v : length (enc16 v) = 2%nat.
Proof. reflexivity. Qed.

Lemma enc_pages_length vs : Z.of_nat (length (enc_pages vs)) = 2 * Z.of_nat (length vs).
Proof.
  induction vs as [|v vs IH]; [done|]. change (enc_pages (v :: vs)) with (enc16 v ++ enc_pages vs).
  rewrite length_app, Nat2Z.inj_add, IH. rewrite enc16_length. cbn [length]. lia.
Qed.

Lemma store16 a r v : (2 <= length r)%nat -> exists r',
  wr_bytes (a ++ r) (Z.of_nat (length a)) (enc16 v) = Ret ((a ++ enc16 v) ++ r') /\
  (2 + length r' = length r)%nat.
Proof.
  intros Hl. destruct r as [|x [|y r]]; cbn in Hl; try lia. exists r.
  assert (Hb : Forall is_byte (enc16 v)) by (repeat constructor; apply u8_byte).
  rewrite <- app_assoc. split; [|done]. apply (wr_bytes_pre (enc16 v) a [x; y] r); done.
Qed.

Lemma copy_pages_spec msg vs : forall q l a r, bytes_at msg q (enc_pages vs ++ l) ->
  (2 * length vs <= length r)%nat -> exists r',
  copy_pages (length vs) msg (a ++ r) q (Z.of_nat (length a)) =
    Ret ((a ++ enc_pages vs) ++ r') /\ (2 * length vs + length r' = length r)%nat.
Proof.
  induction vs as [|v vs IH]; intros q l a r Hq Hl; cbn [copy_pages length] in *.
  - exists r. rewrite app_nil_r. by split.
  - change (enc_pages (v :: vs)) with (enc16 v ++ enc_pages vs) in *. rewrite <- app_assoc in Hq.
    rewrite (bytes_at_rd16 _ _ _ _ Hq). cbn [mbind C_bind]. rewrite enc16_u16.
    destruct (store16 a r v) as (r1 & -> & L1); [lia|]. cbn [mbind C_bind].
    apply bytes_at_app in Hq as [_ Hq]. change (Z.of_nat (length (enc16 v))) with 2 in Hq.
    replace (Z.of_nat (length a) + 2) with (Z.of_nat (length (a ++ enc16 v)))
      by (rewrite length_app, enc16_length; lia).
    destruct (IH (q + 2) l (a ++ enc16 v) r1 Hq) as (r2 & -> & L2); [lia|]. exists r2.
    rewrite <- !app_assoc. split; [done|lia].
Qed.

(** The code pages and the language of a message file are returned as the file
    has them, if it has between one and sixteen code pages and the buffer is large
    enough; otherwise the call says which is not the case. *)
Theorem query_message_cp_spec DosOpenL DosSearchPath DosQueryPathInfo DosAllocMem DosRead
    small fileid first chars family dialect pages rest ms file buf :
  let f := enc_file small fileid first (enc_ctry chars family dialect pages rest) ms in
  let n := Z.of_nat (length pages) in
  let cb := Z.of_nat (length buf) in
  let data := enc16 n ++ enc_pages pages ++ enc16 family ++ enc16 dialect in
  file_ok small fileid first (enc_ctry chars family dialect pages rest) ms ->
  length chars = 3%nat -> file <> [] -> cb <> 0 -> n < 2 ^ 16 ->
  PvtLoadMsgFile DosOpenL DosSearchPath DosQueryPathInfo DosAllocMem DosRead (Some file) =
    Ret (NO_ERROR, Some f) ->
  let run := DosIQueryMessageCP DosOpenL DosSearchPath DosQueryPathInfo DosAllocMem DosRead
    (Some buf) cb (Some file) None in
  if n =? 0 then run = Ret (ERROR_MR_UN_PERFORM, Some buf, None)
  else if 16 <? n then run = Ret (ERROR_INVALID_PARAMETER, Some buf, None)
  else if cb <? 6 + 2 * n then run = Ret (ERROR_BUFFER_OVERFLOW, Some buf, None)
  else exists r, run = Ret (NO_ERROR, Some (data ++ r), Some (Z.of_nat (length data))).
Proof.
  intros f n cb data Hok Hch Hne Hcb Hn Hload run. subst run. unfold DosIQueryMessageCP.
  rewrite (bool_decide_eq_true_2 (Some file <> None)) by done. cbn [require mbind C_bind].
  destruct (Z.eqb_spec cb 0); [done|]. rewrite (bool_decide_eq_false_2 (Some file = Some [])) by congruence. cbn [orb].
  rewrite (message_file_loaded _ _ _ _ _ _ _ _ _ _ _ Hok Hload). cbn [mbind C_bind].
  pose proof (at_ctry _ _ _ _ _ (header_fields _ _ _ _ _ Hok)) as Ec. fold f in Ec |- *. rewrite Ec.
  cbn [mbind C_bind].
  assert (Hc : bytes_at f hdr_size (enc_ctry chars family dialect pages rest)).
  { exists (enc_header small fileid first (enc_ctry chars family dialect pages rest) ms).
    eexists. split; [reflexivity|]. by rewrite (header_length _ _ _ _ _ Hok). }
  unfold enc_ctry in Hc. apply bytes_at_app in Hc as [_ Hc]. rewrite Hch in Hc.
  change (hdr_size + Z.of_nat 3) with (hdr_size + 3) in Hc. pose proof (bytes_at_rd16 _ _ _ _ Hc) as Ef.
  apply bytes_at_app in Hc as [_ Hc]. pose proof (bytes_at_rd16 _ (hdr_size + 5) _ _ Hc) as Ed.
  apply bytes_at_app in Hc as [_ Hc]. pose proof (bytes_at_rd16 _ (hdr_size + 7) _ _ Hc) as En.
  apply bytes_at_app in Hc as [_ Hc]. rewrite En. cbn [mbind C_bind]. fold n.
  assert (E16 : u16 n = n) by (unfold u16; lia). rewrite E16.
  destruct (n =? 0); [done|]. destruct (16 <? n); [done|].
  destruct (Z.ltb_spec cb (6 + 2 * n)) as [|Hfit]; [done|].
  destruct (store16 [] buf n) as (r1 & E1 & L1); [unfold cb, n in *; lia|].
  change (Z.of_nat (length [])) with 0 in E1. cbn [app] in E1. rewrite E1. cbn [mbind C_bind].
  replace (Z.to_nat n) with (length pages) by (unfold n; lia).
  destruct (copy_pages_spec f pages (hdr_size + 9) rest (enc16 n) r1 Hc) as (r2 & E2 & L2);
    [unfold cb, n in *; lia|].
  change (Z.of_nat (length (enc16 n))) with 2 in E2. rewrite E2. cbn [mbind C_bind]. rewrite Ef.
  assert (Lp : Z.of_nat (length (enc16 n ++ enc_pages pages)) = 2 + 2 * n).
  { rewrite length_app, Nat2Z.inj_add, enc_pages_length, enc16_length. unfold n. lia. }
  cbn [mbind C_bind]. rewrite enc16_u16, <- Lp.
  destruct (store16 (enc16 n ++ enc_pages pages) r2 family) as (r3 & E3 & L3);
    [unfold cb, n in *; lia|].
  rewrite E3. cbn [mbind C_bind]. rewrite Ed. cbn [mbind C_bind]. rewrite enc16_u16.
  replace (Z.of_nat (length (enc16 n ++ enc_pages pages)) + 2)
    with (Z.of_nat (length ((enc16 n ++ enc_pages pages) ++ enc16 family)))
    by (rewrite (length_app _ (enc16 family)), enc16_length; lia).
  destruct (store16 ((enc16 n ++ enc_pages pages) ++ enc16 family) r3 dialect) as (r4 & E4 & _);
    [unfold cb, n in *; lia|].
  rewrite E4. cbn [mbind C_bind]. exists r4. unfold data. rewrite <- !app_assoc. do 3 f_equal.
  rewrite !length_app, !enc16_length. lia.
Qed.

(** ** What the code does with numbers and segments out of the ordinary *)

(** A message segment with a good header, bound to the program: the return code of
    a file that was not read is tested. *)
Lemma bound_segment_undefined DosOpenL DosSearchPath DosQueryPathInfo DosAllocMem DosRead
    seg pTable cTable buf cbBuf msgnumber pszFile :
  PvtChkMsgFileFmt seg = Ret NO_ERROR -> cTable <= 9 -> cbBuf <> 0 ->
  DosTrueGetMessage DosOpenL DosSearchPath DosQueryPathInfo DosAllocMem DosRead (Some seg) pTable
    cTable (Some buf) cbBuf msgnumber pszFile = Undef.
Proof.
  intros Hs Ht Hb. unfold DosTrueGetMessage. destruct (Z.ltb_spec 9 cTable); [lia|].
  rewrite bool_decide_eq_false_2 by done. destruct (Z.eqb_spec cbBuf 0); [done|]. cbn [orb].
  unfold message_file. rewrite Hs. done.
Qed.

Definition lits (s : string) : list piece := Lit <$> bstr s.
Definition demo_pieces : list piece := lits "No " ++ Arg 0 :: lits "!".
Definition demo_messages : list (Z * list Z) :=
  [(ch "E"%char, enc_pieces demo_pieces); (ch "I"%char, bstr "Done")].
Definition demo_ctry : list Z := enc_ctry [1; 0; 0] 9 1 [850; 437] [].
Definition demo_file : list Z := enc_file true (bstr "SYS") 5 demo_ctry demo_messages.

(** A host with this file in the current directory. *)
Definition demo_openl (n : list Z) : Z := if bool_decide (n = bstr "OSO001.MSG") then 0 else 2.
Definition demo_search (n : list Z) : C (Z * list Z) := Ret (2, []).
Definition demo_info (n : list Z) : Z * Z := (0, Z.of_nat (length demo_file)).
Definition demo_memory (size : Z) : Z := 0.
Definition demo_read (n : list Z) (size : Z) : Z * list Z := (0, demo_file).
#[local] Abbreviation demo_get :=
  (DosTrueGetMessage demo_openl demo_search demo_info demo_memory demo_read).
Definition demo_name : option (list Z) := Some (bstr "OSO001.MSG").

(** The number behind the last message is looked up in the index, where the first
    message begins. *)
Example number_past_last :
  demo_get None None 0 (Some (repeat 0 40)) 40 7 demo_name =
    Ret (ERROR_MR_MSG_TOO_LONG, Some (repeat 0 40), None, []).
Proof. vm_compute. reflexivity. Qed.

(** A string inserted in the last message makes the code read behind the file. *)
Example last_message_overread :
  let f := enc_file true (bstr "SYS") 5 [] [(ch "E"%char, enc_pieces demo_pieces)] in
  DosTrueGetMessage demo_openl demo_search demo_info demo_memory (fun _ _ => (0, f)) None
    (Some [bstr "disk"]) 1 (Some (repeat 0 40)) 40 5 demo_name = Undef.
Proof. vm_compute. reflexivity. Qed.

(** ** Witnesses *)

Lemma demo_file_ok : file_ok true (bstr "SYS") 5 demo_ctry demo_messages.
Proof.
  split; [done|]. split; [by apply text_check|]. repeat split; by vm_compute.
Qed.

Lemma demo_loads : PvtLoadMsgFile demo_openl demo_search demo_info demo_memory demo_read demo_name =
  Ret (NO_ERROR, Some demo_file).
Proof. vm_compute. reflexivity. Qed.

Lemma demo_pieces_ok cbBuf : 4 <= cbBuf -> Forall (piece_ok [bstr "disk"] cbBuf) demo_pieces.
Proof.
  intros H. repeat constructor; try (by vm_compute). exists (bstr "disk").
  split; [done|]. split; [by apply text_check|]. change (length (bstr "disk")) with 4%nat. lia.
Qed.

Lemma insert_message_spec_witness : exists b,
  DosInsertMessage (Some [bstr "disk"]) 1 (Some (bstr "ENo %1!IDone", 1)) 6 (Some (repeat 0 40)) 40 =
    Ret (NO_ERROR, Some b, Some 10) /\ is_str 40 b (bstr "No disk!I").
Proof.
  refine (insert_message_spec [bstr "disk"] demo_pieces (bstr "E") (bstr "I") (bstr "Done")
    (repeat 0 40) _ _ _ _ _ _ _ _ _).
  - apply demo_pieces_ok. by vm_compute.
  - done.
  - by repeat constructor.
  - done.
  - vm_compute. lia.
  - done.
  - by vm_compute.
  - vm_compute. lia.
  - by vm_compute.
Defined.

Lemma insert_message_overflow_witness :
  DosInsertMessage (Some [bstr "disk"]) 1 (Some (bstr "ENo %1!IDone", 1)) 6 (Some (repeat 0 8)) 8 =
    Undef.
Proof.
  refine (insert_message_overflow [bstr "disk"] demo_pieces (bstr "E") (bstr "I") (bstr "Done")
    (repeat 0 8) _ _ _ _ _ _ _ _ _).
  - apply demo_pieces_ok. by vm_compute.
  - done.
  - by repeat constructor.
  - done.
  - vm_compute. lia.
  - done.
  - by vm_compute.
  - vm_compute. lia.
  - by vm_compute.
Defined.

Lemma insert_nothing_spec_witness : exists b,
  DosInsertMessage None 0 (Some (bstr "EDone%%IMore" ++ [0], 1)) 6 (Some (repeat 7 40)) 40 =
    Ret (NO_ERROR, Some b, None) /\ is_str 40 b (bstr "Done%").
Proof.
  refine (insert_nothing_spec None (bstr "E") (bstr "Done%%") (bstr "IMore") [] (repeat 7 40) _ _ _ _).
  - by apply text_check.
  - by apply text_check.
  - done.
  - by vm_compute.
Defined.

Lemma get_message_spec_witness : exists b,
  demo_get None (Some [bstr "disk"]) 1 (Some (repeat 0 40)) 40 5 demo_name =
    Ret (NO_ERROR, Some b, Some 10, bstr "SYS0000: ") /\ is_str 40 b (bstr "No disk!I").
Proof.
  refine (get_message_spec demo_openl demo_search demo_info demo_memory demo_read true (bstr "SYS") 5
    demo_ctry demo_messages demo_name 0 (ch "E"%char) demo_pieces [bstr "disk"] (bstr "I")
    (bstr "Done") (repeat 0 40) _ _ _ _ _ _ _ _ _ _ _ _ _ _).
  - exact demo_file_ok.
  - exact demo_loads.
  - done.
  - done.
  - apply demo_pieces_ok. by vm_compute.
  - done.
  - by repeat constructor.
  - done.
  - vm_compute. lia.
  - done.
  - vm_compute. lia.
  - vm_compute. lia.
  - vm_compute. lia.
  - by vm_compute.
Defined.

Lemma query_message_cp_spec_witness : exists r,
  DosIQueryMessageCP demo_openl demo_search demo_info demo_memory demo_read (Some (repeat 0 12)) 12
    demo_name None =
    Ret (NO_ERROR, Some ([2; 0; 82; 3; 181; 1; 9; 0; 1; 0] ++ r), Some 10).
Proof.
  refine (query_message_cp_spec demo_openl demo_search demo_info demo_memory demo_read true
    (bstr "SYS") 5 [1; 0; 0] 9 1 [850; 437] [] demo_messages (bstr "OSO001.MSG") (repeat 0 12)
    _ _ _ _ _ _).
  - exact demo_file_ok.
  - done.
  - done.
  - done.
  - by vm_compute.
  - exact demo_loads.
Defined.
