(* ===== verification/KalMem.v ===== *)
(** * Memory of a program ([OS2/Server/platform/l4env/.../os2app/server/src/kal/kal.c])

    The calls on memory of the library KAL inside a program: the list of areas
    that were allocated, and their pages, which are committed by attaching
    dataspaces to the address space and decommitted by taking them out of it.
    The region mapper and the dataspace manager of the host, and the servers
    that are called through IPC, are the operations of the class [HostMemory];
    what is relied on of them is the class [HostLaws].  Addresses and sizes are
    32 bits wide. *)
From S2P Require Import Prelude Dll.

Definition ERROR_ACCESS_DENIED : Z := 5.
Definition ERROR_NOT_ENOUGH_MEMORY : Z := 8.
Definition ERROR_INVALID_PARAMETER : Z := 87.
Definition ERROR_INVALID_ADDRESS : Z := 487.

Definition PAG_READ : Z := 1.
Definition PAG_WRITE : Z := 2.
Definition PAG_EXECUTE : Z := 4.
Definition PAG_COMMIT : Z := 16.
Definition PAG_DECOMMIT : Z := 32.
Definition PAG_DEFAULT : Z := 1024.
Definition PAG_FREE : Z := 16384.
Definition PAG_BASE : Z := 65536.

Definition has (flags f : Z) : bool := negb (Z.land flags f =? 0).

(** ** The host *)

(** What [l4rm_lookup_region] returns; [REGION_ERROR] is a negative code. *)
Inductive region_type := REGION_FREE | REGION_RESERVED | REGION_DATASPACE | REGION_OTHER | REGION_ERROR.

(** Codes are negative for errors.  [l4rm_lookup_region] also stores the start
    and the size of the region and its dataspace; [l4rm_area_reserve] the
    address and the area; [l4rm_area_attach_to_region] is given the dataspace,
    the area, address, size and rights; [l4dm_memphys_copy] a dataspace, an
    offset and a size. *)
Class HostMemory (H : Type) := {
  L4DM_READ : Z; L4DM_WRITE : Z; L4_ENOMEM : Z; L4_ENOTFOUND : Z; L4_PAGESIZE : Z;
  l4rm_lookup_region : Z -> H -> region_type * Z * Z * Z;
  l4rm_detach : Z -> H -> H;
  l4rm_area_reserve : Z -> H -> Z * Z * Z * H;
  l4rm_area_release_addr : Z -> H -> Z * H;
  l4rm_area_attach_to_region : Z -> Z -> Z -> Z -> Z -> H -> Z * H;
  l4dm_mem_open : Z -> Z -> H -> Z * Z * H;
  l4dm_mem_size : Z -> H -> Z * Z;
  l4dm_memphys_copy : Z -> Z -> Z -> H -> Z * Z * H;
  l4dm_close : Z -> H -> H;
  ExcClientReleaseSharedMem : Z -> H -> Z * H;
  ExcClientMapDataspace : Z -> Z -> Z -> H -> H;
  ExcClientUnmapDataspace : Z -> Z -> H -> H;
  AppClientDataspaceRelease : Z -> Z -> H -> H
}.

(** ** The areas *)

(** [struct vmdata] of include/os3/kal.h; [name] is an array of 256 bytes. *)
Record vmdata := mkVm {
  name : list Z; is_shared : bool; owner : Z; rights : Z; area : Z; addr : Z; vsize : Z;
  next : Z; prev : Z
}.
Definition with_rights (v : vmdata) (r : Z) : vmdata :=
  mkVm (name v) (is_shared v) (owner v) r (area v) (addr v) (vsize v) (next v) (prev v).
Definition with_next (v : vmdata) (n : Z) : vmdata :=
  mkVm (name v) (is_shared v) (owner v) (rights v) (area v) (addr v) (vsize v) n (prev v).
Definition with_prev (v : vmdata) (p : Z) : vmdata :=
  mkVm (name v) (is_shared v) (owner v) (rights v) (area v) (addr v) (vsize v) (next v) p.

#[export] Program Instance area_links : Links next prev := {
  with_next := with_next; with_prev := with_prev
}.
Solve Obligations with done.

Section kal.
Context {H : Type} `{HostMemory H}.
(** The selectors that [KalEnter] and [KalQuit] load, and the running thread. *)
Variables old_sel tib_sel l4_myself : Z.

(** The structures that are allocated, [areas_list], the register fs, and the
    host. *)
Record kal := mkKal { vms : gmap Z vmdata; areas_list : Z; fs : Z; host : H }.
Definition set_fs (f : Z) (s : kal) : kal := mkKal (vms s) (areas_list s) f (host s).
Definition set_host (h : H) (s : kal) : kal := mkKal (vms s) (areas_list s) (fs s) h.
Definition KalEnter : kal -> kal := set_fs old_sel.
Definition KalQuit : kal -> kal := set_fs tib_sel.

Definition vm_at (s : kal) (a : Z) : C vmdata := if a =? 0 then Undef else need (vms s !! a).
Definition update (a : Z) (f : vmdata -> vmdata) (s : kal) : C kal :=
  v ← vm_at s a; Ret (mkKal (<[a := f v]> (vms s)) (areas_list s) (fs s) (host s)).

(** The end of the area belongs to it too. *)
Definition area_has (a : Z) (v : vmdata) : bool :=
  (addr v <=? a) && (a <=? u32 (addr v + vsize v)).

Fixpoint get_area_loop (fuel : nat) (s : kal) (a ptr : Z) : C Z :=
  match fuel with
  | O => NoFuel
  | S fuel =>
      if ptr =? 0 then Ret 0
      else v ← vm_at s ptr; if area_has a v then Ret ptr else get_area_loop fuel s a (next v)
  end.
(** The address of the structure, or null. *)
Definition get_area (a : Z) (s : kal) : C Z :=
  get_area_loop (S (base.size (vms s))) s a (areas_list s).

(** A new structure in front of the list; [o] is what [malloc] returns: the
    address and the contents. *)
Definition push_area (ptr : Z) (v : vmdata) (s : kal) : C kal :=
  let s1 := mkKal (<[ptr := v]> (vms s)) (areas_list s) (fs s) (host s) in
  s1 ← (if areas_list s =? 0 then Ret s1 else update (areas_list s) (fun v => with_prev v ptr) s1);
  Ret (mkKal (vms s1) ptr (fs s1) (host s1)).

(** The rights of the host for the flags. *)
Definition host_rights (flags : Z) : Z :=
  let r := if has flags PAG_READ then L4DM_READ else 0 in
  let r := if has flags PAG_WRITE then Z.lor r L4DM_WRITE else r in
  if has flags PAG_EXECUTE then Z.lor r L4DM_READ else r.

(** lib/compat/dataspace.c.  The result of attaching is compared with zero as
    an unsigned number, so that no error is seen. *)
Definition attach_ds_area (ds area flags a : Z) (h : H) : Z * H :=
  let '(error, size) := l4dm_mem_size ds h in
  if negb (error =? 0) then (ERROR_INVALID_PARAMETER, h)
  else
    let '(rc, h) := l4rm_area_attach_to_region ds area a size flags h in
    if u32 rc <? 0 then (u32 rc, h) else (0, h).

(** The return code and what is stored at [ppb], if anything. *)
Definition KalAllocMem (cb flags : Z) (o : option (Z * vmdata)) (s : kal) : C (Z * option Z * kal) :=
  let s := KalEnter s in
  let r := host_rights flags in
  let '(rc, a, ar, h) := l4rm_area_reserve cb (host s) in
  let s := set_host h s in
  if rc <? 0 then
    if (-rc =? L4_ENOMEM) || (-rc =? L4_ENOTFOUND) then
      Ret (ERROR_NOT_ENOUGH_MEMORY, None, KalQuit s)
    else Ret (ERROR_ACCESS_DENIED, None, KalQuit s)
  else
    '(ptr, fresh) ← need o;
    nm ← wr8 (name fresh) 0 0;
    s ← push_area ptr (mkVm nm false l4_myself flags ar a cb (areas_list s) 0) s;
    if has flags PAG_COMMIT then
      let '(rc, ds, h) := l4dm_mem_open cb r (host s) in
      let s := set_host h s in
      if rc <? 0 then Ret (8, None, KalQuit s)
      else
        let '(rc, h) := attach_ds_area ds ar r a (host s) in
        let s := set_host h s in
        if negb (rc =? 0) then Ret (8, None, KalQuit s) else Ret (0, Some a, KalQuit s)
    else Ret (0, Some a, KalQuit s).

(** shared/app/os2app/api/api.c: an area that another program gives to this one. *)
Definition AppAddArea (L4_INVALID_ID shared_memory_area a size flags : Z)
    (o : option (Z * vmdata)) (s : kal) : C (Z * kal) :=
  match o with
  | None => Ret (ERROR_INVALID_ADDRESS, s)
  | Some (ptr, fresh) =>
      nm ← wr8 (name fresh) 0 0;
      s ← push_area ptr (mkVm nm true L4_INVALID_ID flags shared_memory_area a size (areas_list s) 0) s;
      Ret (0, s)
  end.

(** The loop of [KalFreeMem]; the result is a return code if the call ends in
    it. *)
Fixpoint free_loop (fuel : nat) (v : vmdata) (refcnt a : Z) (s : kal) : C (option Z * kal) :=
  match fuel with
  | O => NoFuel
  | S fuel =>
      if (addr v <=? a) && (a <=? u32 (addr v + vsize v)) then
        let '(ret, start, size, ds) := l4rm_lookup_region a (host s) in
        match ret with
        | REGION_ERROR => Ret (Some ERROR_INVALID_ADDRESS, s)
        | REGION_OTHER => Ret (Some ERROR_INVALID_ADDRESS, KalQuit s)
        | REGION_RESERVED | REGION_FREE => free_loop fuel v refcnt (u32 (start + size)) s
        | REGION_DATASPACE =>
            let h := if is_shared v then ExcClientUnmapDataspace start ds (host s) else host s in
            let h := l4rm_detach start h in
            let h :=
              if is_shared v then
                if refcnt =? 0 then
                  if negb (owner v =? l4_myself) then AppClientDataspaceRelease (owner v) ds h
                  else l4dm_close ds h
                else h
              else l4dm_close ds h in
            free_loop fuel v refcnt (u32 (start + size)) (set_host h s)
        end
      else Ret (None, s)
  end.

(** [areas_list] is not changed.  Each step of the loop goes on to the next
    region; [fuel] bounds their number. *)
Definition KalFreeMem (fuel : nat) (pb : Z) (s : kal) : C (Z * kal) :=
  let s := KalEnter s in
  ptr ← get_area pb s;
  if ptr =? 0 then Ret (ERROR_INVALID_ADDRESS, s)
  else
    v ← vm_at s ptr;
    let '(refcnt, h) :=
      if is_shared v then ExcClientReleaseSharedMem (addr v) (host s) else (0, host s) in
    '(r, s) ← free_loop fuel v refcnt (addr v) (set_host h s);
    match r with
    | Some rc => Ret (rc, s)
    | None =>
        if refcnt =? 0 then
          let '(rc, h) := l4rm_area_release_addr (addr v) (host s) in
          let s := set_host h s in
          if rc <? 0 then Ret (ERROR_ACCESS_DENIED, KalQuit s)
          else
            s ← (if prev v =? 0 then Ret s else update (prev v) (fun q => with_next q (next v)) s);
            s ← (if next v =? 0 then Ret s else update (next v) (fun q => with_prev q (prev v)) s);
            Ret (0, KalQuit (mkKal (delete ptr (vms s)) (areas_list s) (fs s) (host s)))
        else Ret (0, KalQuit s)
    end.

(** Commit [cb] bytes from [pb]. *)
Fixpoint commit_loop (fuel : nat) (v : vmdata) (pb cb r : Z) (h : H) : C (Z * H) :=
  match fuel with
  | O => NoFuel
  | S fuel =>
      let '(ret, start, size, _) := l4rm_lookup_region pb h in
      let go (h : H) :=
        if u32 (pb + cb) <=? u32 (start + size) then Ret (NO_ERROR, h)
        else commit_loop fuel v (u32 (start + size)) (u32 (cb - (start + size - pb))) r h in
      match ret with
      | REGION_ERROR => Ret (ERROR_INVALID_ADDRESS, h)
      | REGION_RESERVED =>
          let '(rc, ds, h) := l4dm_mem_open cb r h in
          if rc <? 0 then Ret (ERROR_NOT_ENOUGH_MEMORY, h)
          else
            let '(rc, h) := attach_ds_area ds (area v) r pb h in
            if rc <? 0 then Ret (ERROR_NOT_ENOUGH_MEMORY, h)
            else go (if is_shared v then ExcClientMapDataspace pb r ds h else h)
      | _ => go h
      end
  end.
Definition commit_pages (pb cb r : Z) (s : kal) : C (Z * kal) :=
  ptr ← get_area pb s;
  if ptr =? 0 then Ret (ERROR_INVALID_ADDRESS, s)
  else
    v ← vm_at s ptr;
    '(rc, h) ← commit_loop (S (Z.to_nat cb)) v pb cb r (host s);
    Ret (rc, set_host h s).

(** Copy [size] bytes at [offs] of [ds] and attach the copy at [a]; [None] is
    an error. *)
Definition keep_part (v : vmdata) (ds offs size a r : Z) (h : H) : bool * H :=
  let '(rc, ds1, h) := l4dm_memphys_copy ds offs size h in
  if rc <? 0 then (false, h)
  else
    let '(rc, h) := l4rm_area_attach_to_region ds1 (area v) a size r h in
    if rc <? 0 then (false, h)
    else (true, if is_shared v then ExcClientMapDataspace a r ds1 h else h).

(** One region with a dataspace: it is detached, and what lies before and
    after the hole is attached again as a copy. *)
Definition cut_region (v : vmdata) (pb cb r a size ds : Z) (h : H) : bool * H :=
  let h := l4rm_detach a h in
  let h := if is_shared v then ExcClientUnmapDataspace a ds h else h in
  let '(ok, h) := if a <? pb then keep_part v ds 0 (u32 (pb - a)) a r h else (true, h) in
  if negb ok then (false, h)
  else
    let '(ok, h) :=
      if u32 (pb + cb) <? u32 (a + size) then
        keep_part v ds (u32 (pb + cb - a)) (u32 (a + size - pb - cb)) (u32 (pb + cb)) r h
      else (true, h) in
    if negb ok then (false, h) else (true, l4dm_close ds h).

(** Decommit [cb] bytes from [pb]; the flag says that the call has left the
    host's world ([KalQuit]). *)
Fixpoint decommit_loop (fuel : nat) (v : vmdata) (pb cb r : Z) (h : H) : C (Z * bool * H) :=
  match fuel with
  | O => NoFuel
  | S fuel =>
      let '(ret, a, size, ds) := l4rm_lookup_region pb h in
      let go (h : H) :=
        if u32 (pb + cb) <=? u32 (a + size) then Ret (NO_ERROR, false, h)
        else decommit_loop fuel v (u32 (a + size)) (u32 (cb - (a + size - pb))) r h in
      match ret with
      | REGION_ERROR => Ret (ERROR_INVALID_ADDRESS, false, h)
      | REGION_DATASPACE =>
          let '(ok, h) := cut_region v pb cb r a size ds h in
          if ok : bool then go h else Ret (8, true, h)
      | _ => go h
      end
  end.
Definition decommit_pages (pb cb r : Z) (s : kal) : C (Z * kal) :=
  ptr ← get_area pb s;
  if ptr =? 0 then Ret (ERROR_INVALID_ADDRESS, s)
  else
    v ← vm_at s ptr;
    '(rc, quit, h) ← decommit_loop (S (Z.to_nat cb)) v pb cb r (host s);
    let s := set_host h s in
    Ret (rc, if quit : bool then KalQuit s else s).

Definition KalSetMem (pb cb flags : Z) (s : kal) : C (Z * kal) :=
  let s := KalEnter s in
  ptr ← get_area pb s;
  if ptr =? 0 then Ret (ERROR_INVALID_ADDRESS, s)
  else
    v ← vm_at s ptr;
    let flags := if has flags PAG_DEFAULT then Z.lor flags (rights v) else flags in
    let r := host_rights flags in
    if negb (has flags PAG_DECOMMIT) && negb (has flags PAG_DEFAULT) && negb (has flags PAG_READ)
       && negb (has flags PAG_WRITE) && negb (has flags PAG_EXECUTE)
    then Ret (ERROR_INVALID_PARAMETER, s)
    else if has flags PAG_COMMIT && has flags PAG_DECOMMIT then Ret (ERROR_INVALID_PARAMETER, s)
    else
      '(rc, s) ←
        (if has flags PAG_COMMIT then
           s ← update ptr (fun v => with_rights v (Z.lor (rights v) PAG_COMMIT)) s;
           commit_pages pb cb r s
         else if has flags PAG_DECOMMIT then
           s ← update ptr (fun v => with_rights v (Z.land (rights v) (Z.lnot PAG_COMMIT))) s;
           decommit_pages pb cb r s
         else Ret (0, s));
      Ret (rc, KalQuit s).

(** The loop of [KalQueryMem]: the bytes in committed regions, and the flags of
    the last region that set them; [None] is an error. *)
Fixpoint query_loop (fuel : nat) (v : vmdata) (pb len b totsize r : Z) (h : H)
    : C (option (Z * Z)) :=
  match fuel with
  | O => NoFuel
  | S fuel =>
      let '(ret, a, size, _) := l4rm_lookup_region b h in
      let go (totsize r : Z) :=
        let b := u32 (a + size) in
        if b <? u32 (pb + len) then query_loop fuel v pb len b totsize r h
        else Ret (Some (totsize, r)) in
      match ret with
      | REGION_DATASPACE =>
          go (if u32 (a + size) <=? u32 (pb + len) then u32 (totsize + size) else totsize) (rights v)
      | REGION_RESERVED => go totsize r
      | REGION_FREE => go totsize PAG_FREE
      | _ => Ret None
      end
  end.

(** [pcb] is what the caller stored there, [None] a null pointer; the result
    has what is stored at [pcb] and [pflags]. *)
Definition KalQueryMem (pb : Z) (pcb : option Z) (pflags : bool) (s : kal)
    : C (Z * option (Z * Z) * kal) :=
  let s := KalEnter s in
  match pcb, pflags with
  | Some len, true =>
      ptr ← get_area pb s;
      if ptr =? 0 then Ret (ERROR_INVALID_ADDRESS, None, s)
      else
        v ← vm_at s ptr;
        q ← query_loop (S (Z.to_nat len)) v pb len pb 0 0 (host s);
        match q with
        | None => Ret (ERROR_INVALID_ADDRESS, None, KalQuit s)
        | Some (totsize, r) =>
            let r := if u32 (pb - addr v) <=? L4_PAGESIZE then Z.lor r PAG_BASE else r in
            Ret (0, Some (totsize, r), KalQuit s)
        end
  | _, _ => Ret (ERROR_INVALID_PARAMETER, None, s)
  end.
End kal.

(** ** What is relied on of the host

    An address is free, reserved for an area, or mapped: the region of a
    dataspace that is attached has a start, a length, the dataspace, the rights
    and the area that it is in.  Nothing is said of [Other] addresses. *)
Inductive cell :=
  | Free
  | Reserved (ar : Z)
  | Mapped (start len ds r ar : Z)
  | Other.

Definition is_type (t : region_type) (s l d : Z) (c : cell) : Prop :=
  match c with
  | Free => t = REGION_FREE
  | Reserved _ => t = REGION_RESERVED
  | Mapped s' l' d' _ _ => t = REGION_DATASPACE /\ s = s' /\ l = l' /\ d = d'
  | Other => True
  end.

Definition within (a n y : Z) : bool := (a <=? y) && (y <? a + n).

(** What can be said of a state of the host: it is one, where an address is,
    which dataspaces are open, their sizes and contents. *)
Class HostView (H : Type) := {
  host_ok : H -> Prop;
  where_is : Z -> H -> cell;
  opened : Z -> H -> Prop;
  dsize : Z -> H -> Z;
  byte : Z -> Z -> H -> Z
}.

(** The dataspaces but [d] are as before. *)
Definition data_kept {H} `{HostView H} (d : option Z) (h h' : H) : Prop :=
  forall e, Some e <> d -> opened e h ->
    opened e h' /\ dsize e h' = dsize e h /\ forall o, byte e o h' = byte e o h.

(** A call that leaves the address space and the dataspaces as they are. *)
Definition quiet {H} `{HostView H} (h h' : H) : Prop :=
  host_ok h' /\ data_kept None h h' /\ forall y, where_is y h' = where_is y h.

Class HostLaws (H : Type) `{HostMemory H} `{HostView H} := {
  mapped_law h x s l d r ar : host_ok h -> where_is x h = Mapped s l d r ar ->
    opened d h /\ 0 < l <= dsize d h /\ s <= x < s + l /\
    forall y, s <= y < s + l -> where_is y h = Mapped s l d r ar;
  lookup_law h x : host_ok h -> where_is x h <> Other -> exists t s l d,
    l4rm_lookup_region x h = (t, s, l, d) /\ is_type t s l d (where_is x h) /\
    0 <= s <= x /\ x < s + l < 2 ^ 32 /\ forall y, s <= y < s + l -> where_is y h = where_is x h;
  detach_law h s l d r ar : host_ok h -> where_is s h = Mapped s l d r ar ->
    host_ok (l4rm_detach s h) /\ data_kept None h (l4rm_detach s h) /\
    forall y, where_is y (l4rm_detach s h) = if within s l y then Reserved ar else where_is y h;
  attach_law h d ar a n r : host_ok h -> opened d h -> 0 < n <= dsize d h ->
    0 <= a -> a + n < 2 ^ 32 -> (forall y, a <= y < a + n -> where_is y h = Reserved ar) ->
    exists h', l4rm_area_attach_to_region d ar a n r h = (0, h') /\ host_ok h' /\ data_kept None h h' /\
    forall y, where_is y h' = if within a n y then Mapped a n d r ar else where_is y h;
  attach_used h d ar a n r y rc h' : host_ok h -> a <= y < a + n -> where_is y h <> Reserved ar ->
    l4rm_area_attach_to_region d ar a n r h = (rc, h') -> rc < 0 /\ quiet h h';
  reserve_law h n rc a ar h' : host_ok h -> 0 < n -> (L4_PAGESIZE | n) ->
    l4rm_area_reserve n h = (rc, a, ar, h') ->
    if rc <? 0 then quiet h h' else
    host_ok h' /\ data_kept None h h' /\ 0 <= a /\ a + n < 2 ^ 32 /\
    (forall y, a <= y < a + n -> where_is y h = Free) /\
    forall y, where_is y h' = if within a n y then Reserved ar else where_is y h;
  open_law h n r rc d h' : host_ok h -> 0 < n -> l4dm_mem_open n r h = (rc, d, h') ->
    quiet h h' /\
    (0 <= rc -> ~ opened d h /\ opened d h' /\ n <= dsize d h' /\
                ((L4_PAGESIZE | n) -> dsize d h' = n));
  size_law h d : opened d h -> l4dm_mem_size d h = (0, dsize d h);
  copy_law h d o n rc d' h' : host_ok h -> opened d h -> 0 <= o -> 0 < n -> o + n <= dsize d h ->
    l4dm_memphys_copy d o n h = (rc, d', h') -> quiet h h' /\
    (0 <= rc -> ~ opened d' h /\ opened d' h' /\ n <= dsize d' h' /\
                forall i, 0 <= i < n -> byte d' i h' = byte d (o + i) h);
  close_law h d : host_ok h -> (forall y s l r ar, where_is y h <> Mapped s l d r ar) ->
    host_ok (l4dm_close d h) /\ data_kept (Some d) h (l4dm_close d h) /\
    forall y, where_is y (l4dm_close d h) = where_is y h;
  map_law h a r d : host_ok h -> quiet h (ExcClientMapDataspace a r d h);
  unmap_law h a d : host_ok h -> quiet h (ExcClientUnmapDataspace a d h)
}.

(** What a program reads at an address, if something is mapped there. *)
Definition mem {H} `{HostView H} (y : Z) (h : H) : option Z :=
  match where_is y h with Mapped s _ d _ _ => Some (byte d (y - s) h) | _ => None end.

(** Each dataspace is attached at one place only. *)
Definition once {H} `{HostView H} (h : H) : Prop := forall x y d s l r ar s' l' r' ar',
  where_is x h = Mapped s l d r ar -> where_is y h = Mapped s' l' d r' ar' -> s = s'.

(** ** Proofs *)

Lemma within_true a n y : within a n y = true <-> a <= y < a + n.
Proof. unfold within. rewrite andb_true_iff, Z.leb_le, Z.ltb_lt. done. Qed.
Lemma within_spec a n y : reflect (a <= y < a + n) (within a n y).
Proof. apply iff_reflect. symmetry. apply within_true. Qed.

Section laws.
Context {H : Type} `{!HostMemory H} `{!HostView H} `{!HostLaws H}.
Implicit Types h : H.

Lemma kept_refl d h : data_kept d h h.
Proof. by intros e _ He. Qed.
Lemma kept_trans d h1 h2 h3 : data_kept d h1 h2 -> data_kept d h2 h3 -> data_kept d h1 h3.
Proof.
  intros H1 H2 e He Ho. destruct (H1 e He Ho) as (Ho2 & E1 & E2).
  destruct (H2 e He Ho2) as (Ho3 & E3 & E4). split; [done|]. split; [congruence|].
  intros o. by rewrite E4.
Qed.
Lemma kept_some d h h' : data_kept None h h' -> data_kept d h h'.
Proof. intros H1 e _ Ho. by apply H1. Qed.

Lemma quiet_refl h : host_ok h -> quiet h h.
Proof. intros Hok. split; [done|]. split; [apply kept_refl|done]. Qed.
Lemma quiet_trans h1 h2 h3 : quiet h1 h2 -> quiet h2 h3 -> quiet h1 h3.
Proof.
  intros (H1 & K1 & W1) (H2 & K2 & W2). split; [done|]. split; [by eapply kept_trans|].
  intros y. by rewrite W2.
Qed.
Lemma quiet_once h h' : quiet h h' -> once h -> once h'.
Proof. intros (_ & _ & W) Ho x y d s l r ar s' l' r' ar'. rewrite !W. apply Ho. Qed.

Lemma mem_kept h h' y : host_ok h -> data_kept None h h' -> where_is y h' = where_is y h ->
  mem y h' = mem y h.
Proof.
  intros Hok Hk E. unfold mem. rewrite E. destruct (where_is y h) as [| |s l d r ar|] eqn:Ew; try done.
  destruct (mapped_law _ _ _ _ _ _ _ Hok Ew) as (Ho & _). f_equal. by apply (Hk d).
Qed.

(** A dataspace that is attached is open, a new one is not attached. *)
Lemma fresh_unmapped h d : host_ok h -> ~ opened d h ->
  forall y s l r ar, where_is y h <> Mapped s l d r ar.
Proof. intros Hok Hn y s l r ar E. by apply mapped_law in E as [Ho _]. Qed.

Lemma once_attach h h' d a n r ar : once h -> (forall y s l r ar, where_is y h <> Mapped s l d r ar) ->
  (forall y, where_is y h' = if within a n y then Mapped a n d r ar else where_is y h) -> once h'.
Proof.
  intros Ho Hd W x y e s l r1 a1 s' l' r2 a2. rewrite !W.
  destruct (within a n x), (within a n y).
  - by intros [= -> -> -> -> ->] [= -> -> -> ->].
  - intros [= -> -> -> -> ->] E. by apply Hd in E.
  - intros E [= -> -> -> -> ->]. by apply Hd in E.
  - apply Ho.
Qed.

(** ** Committing *)

(** Attaching a new dataspace where not all is reserved fails, and the failure
    is not seen. *)
Lemma attach_unseen h d ar f a y : host_ok h -> opened d h -> a <= y < a + dsize d h ->
  where_is y h <> Reserved ar ->
  exists h', attach_ds_area d ar f a h = (0, h') /\ quiet h h'.
Proof.
  intros Hok Ho Hy Hw. unfold attach_ds_area. rewrite size_law by done. cbn [negb Z.eqb].
  destruct (l4rm_area_attach_to_region d ar a (dsize d h) f h) as [rc h'] eqn:E.
  destruct (attach_used h d ar a (dsize d h) f y rc h' Hok Hy Hw E) as [_ Hq].
  exists h'. split; [|done]. destruct (Z.ltb_spec (u32 rc) 0); [unfold u32 in *; lia|done].
Qed.

Lemma attach_seen h d ar f a : host_ok h -> opened d h -> 0 < dsize d h -> 0 <= a ->
  a + dsize d h < 2 ^ 32 -> (forall y, a <= y < a + dsize d h -> where_is y h = Reserved ar) ->
  exists h', attach_ds_area d ar f a h = (0, h') /\ host_ok h' /\ data_kept None h h' /\
  forall y, where_is y h' = if within a (dsize d h) y then Mapped a (dsize d h) d f ar
                            else where_is y h.
Proof.
  intros Hok Ho Hs Ha Hb Hr. unfold attach_ds_area. rewrite size_law by done. cbn [negb Z.eqb].
  assert (Hd : 0 < dsize d h <= dsize d h) by lia.
  destruct (attach_law h d ar a (dsize d h) f Hok Ho Hd Ha Hb Hr) as (h' & -> & H1).
  by exists h'.
Qed.

(** After a region that is mapped up to [stop] or further nothing is left to do. *)
Lemma commit_rest v r stop h fuel pb cb : host_ok h -> 0 <= pb -> 0 < cb -> pb + cb = stop ->
  stop < 2 ^ 32 -> (Z.to_nat cb < fuel)%nat ->
  (forall y, pb <= y < stop -> exists s l d r' ar, where_is y h = Mapped s l d r' ar) ->
  commit_loop fuel v pb cb r h = Ret (NO_ERROR, h).
Proof.
  revert pb cb. induction fuel as [|fuel IH]; intros pb cb Hok Hp Hc He Hb Hf Hm; [lia|].
  cbn [commit_loop]. destruct (Hm pb ltac:(lia)) as (s & l & d & r' & ar & Ew).
  destruct (lookup_law h pb Hok) as (t & s' & l' & d' & -> & Ht & Hs & Hl & Hu); [by rewrite Ew|].
  rewrite Ew in Ht. destruct Ht as (-> & -> & -> & ->). rewrite !u32_id by (unfold is_u32; lia).
  destruct (Z.leb_spec (pb + cb) (s + l)); [done|]. rewrite u32_id by (unfold is_u32; lia).
  apply IH; try done; try lia. intros y Hy. apply Hm. lia.
Qed.

Section commit.
Context (v : vmdata) (r stop k : Z).

(** What has been committed when the loop ends: the end of the range that is
    reserved throughout. *)
Definition tail_committed h h' : Prop := exists d, (k < stop -> ~ opened d h) /\
  forall y, where_is y h' =
    if within k (stop - k) y then Mapped k (stop - k) d r (area v) else where_is y h.

Definition committed (rc : Z) h h' : Prop :=
  host_ok h' /\ data_kept None h h' /\
  ((rc = ERROR_NOT_ENOUGH_MEMORY /\ forall y, where_is y h' = where_is y h) \/
   (rc = NO_ERROR /\ tail_committed h h')).
Definition commit_post h (o : C (Z * H)) : Prop :=
  exists rc h', o = Ret (rc, h') /\ committed rc h h'.

Lemma commit_post_trans h h1 o : quiet h h1 -> commit_post h1 o -> commit_post h o.
Proof.
  intros (Hok & Hk & W) (rc & h' & -> & Hok' & Hk' & Hc). exists rc, h'. split; [done|].
  split; [done|]. split; [by eapply kept_trans|]. destruct Hc as [[-> W']|[-> (d & Hd & W')]].
  - left. split; [done|]. intros y. by rewrite W'.
  - right. split; [done|]. exists d. split.
    + intros Hks Ho. by apply (Hd Hks), Hk.
    + intros y. by rewrite W', W.
Qed.

Lemma commit_done h : host_ok h -> k = stop -> commit_post h (Ret (NO_ERROR, h)).
Proof.
  intros Hok Hk. exists NO_ERROR, h. split; [done|]. split; [done|]. split; [apply kept_refl|].
  right. split; [done|]. exists 0. split; [intros; lia|].
  intros y. destruct (within_spec k (stop - k) y); [lia|done].
Qed.

(** The regions before the tail end at it, if not at the end of the range. *)
Lemma region_before_tail h pb s l : pb < k <= stop -> 0 <= s <= pb -> pb < s + l ->
  (forall y, s <= y < s + l -> where_is y h = where_is pb h) ->
  (forall y, k <= y < stop -> where_is y h = Reserved (area v)) ->
  where_is (k - 1) h <> Reserved (area v) -> s + l <= k \/ k = stop.
Proof.
  intros Hk Hs Hl Hu Ht Hn. destruct (Z.le_gt_cases (s + l) k); [by left|].
  destruct (Z.eq_dec k stop); [by right|]. exfalso. apply Hn.
  rewrite (Hu (k - 1)) by lia. rewrite <- (Hu k) by lia. apply Ht. lia.
Qed.

Lemma shared_quiet (sh : bool) h pb d : host_ok h ->
  quiet h (if sh then ExcClientMapDataspace pb r d h else h).
Proof. intros Hok. destruct sh; [by apply map_law|by apply quiet_refl]. Qed.

(** The reserved tail is committed at once. *)
Lemma commit_tail fuel h cb : host_ok h -> 0 <= k -> 0 < cb -> k + cb = stop -> stop < 2 ^ 32 ->
  (Z.to_nat cb < fuel)%nat -> (L4_PAGESIZE | cb) ->
  (forall y, k <= y < stop -> where_is y h = Reserved (area v)) ->
  commit_post h (commit_loop fuel v k cb r h).
Proof.
  intros Hok Hk Hc He Hb Hf Hp Ht. destruct fuel as [|fuel]; [lia|]. cbn [commit_loop].
  pose proof (Ht k ltac:(lia)) as Ew.
  destruct (lookup_law h k Hok) as (t & s & l & d0 & -> & Hty & Hs & Hl & Hu); [by rewrite Ew|].
  rewrite Ew in Hty. cbn in Hty. subst t.
  destruct (l4dm_mem_open cb r h) as [[rc d] h1] eqn:Eo. apply open_law in Eo as [Hq Ho]; [|done..].
  destruct (Z.ltb_spec rc 0) as [|Hrc].
  { exists ERROR_NOT_ENOUGH_MEMORY, h1. split; [done|]. destruct Hq as (H1 & H2 & H3).
      split; [done|]. split; [done|]. by left. }
  destruct (Ho Hrc) as (Hd & Hd1 & _ & Hsz). specialize (Hsz Hp). destruct Hq as (Hok1 & Hk1 & W1).
  destruct (attach_seen h1 d (area v) r k) as (h2 & E2 & Hok2 & Hk2 & W2); [done..| | | | |];
    rewrite ?Hsz; try lia.
  { intros y Hy. rewrite W1. apply Ht. lia. }
  rewrite E2. change (0 <? 0) with false. cbv iota. rewrite Hsz in W2.
  destruct (shared_quiet (is_shared v) h2 k d Hok2) as (Hok3 & Hk3 & W3).
  set (h3 := if is_shared v then _ else _) in *.
  assert (W : forall y, where_is y h3 = if within k cb y then Mapped k cb d r (area v) else where_is y h)
    by (intros y; by rewrite W3, W2, W1).
  assert (Hend : commit_post h (Ret (NO_ERROR, h3))).
  { exists NO_ERROR, h3. split; [done|]. split; [done|].
    split; [eapply kept_trans; [exact Hk1|by eapply kept_trans]|]. right. split; [done|].
    exists d. replace (stop - k) with cb by lia. done. }
  rewrite !u32_id by (unfold is_u32; lia). destruct (Z.leb_spec (k + cb) (s + l)); [done|].
  rewrite u32_id by (unfold is_u32; lia). rewrite (commit_rest v r stop h3); try done; try lia.
  intros y Hy. exists k, cb, d, r, (area v). rewrite W. destruct (within_spec k cb y); [done|lia].
Qed.

(** Up to there nothing changes: a dataspace for more than what is reserved
    cannot be attached. *)
Lemma commit_loop_spec fuel : forall h pb cb, host_ok h -> 0 <= pb -> 0 < cb -> pb + cb = stop ->
  stop < 2 ^ 32 -> (Z.to_nat cb < fuel)%nat -> (L4_PAGESIZE | stop - k) -> pb <= k <= stop ->
  (forall y, k <= y < stop -> where_is y h = Reserved (area v)) ->
  (pb < k -> where_is (k - 1) h <> Reserved (area v)) ->
  (forall y, pb <= y < k -> where_is y h <> Other) ->
  commit_post h (commit_loop fuel v pb cb r h).
Proof.
  induction fuel as [|fuel IH]; intros h pb cb Hok Hp Hc He Hb Hf Hpg Hk Ht Hn Ho; [lia|].
  destruct (Z.eq_dec pb k) as [->|Hne].
  { apply commit_tail; try done. by replace cb with (stop - k) by lia. }
  cbn [commit_loop].
  destruct (lookup_law h pb Hok) as (t & s & l & d0 & -> & Hty & Hs & Hl & Hu); [apply Ho; lia|].
  assert (Hend : s + l <= k \/ k = stop) by (eapply region_before_tail; try done; try lia; apply Hn; lia).
  assert (Hgo : forall h1, quiet h h1 -> commit_post h
    (if u32 (pb + cb) <=? u32 (s + l) then Ret (NO_ERROR, h1)
     else commit_loop fuel v (u32 (s + l)) (u32 (cb - (s + l - pb))) r h1)).
  { intros h1 Hq. apply (commit_post_trans _ _ _ Hq). destruct Hq as (Hok1 & _ & W1).
    rewrite !u32_id by (unfold is_u32; lia).
    destruct (Z.leb_spec (pb + cb) (s + l)); [apply commit_done; [done|lia]|].
    rewrite u32_id by (unfold is_u32; lia). apply IH; try done; try lia; intros; rewrite W1.
    - by apply Ht.
    - apply Hn. lia.
    - apply Ho. lia. }
  pose proof (Ho pb ltac:(lia)) as Hnot.
  destruct (where_is pb h) as [|ar|s' l' d' r' ar'|] eqn:Ew; cbn in Hty; [| | |done].
  - subst t. by apply Hgo, quiet_refl.
  - subst t. destruct (l4dm_mem_open cb r h) as [[rc d] h1] eqn:Eo.
    apply open_law in Eo as [Hq Hd]; [|done..]. destruct (Z.ltb_spec rc 0) as [|Hrc].
    { exists ERROR_NOT_ENOUGH_MEMORY, h1. split; [done|]. destruct Hq as (H1 & H2 & H3).
      split; [done|]. split; [done|]. by left. }
    destruct (Hd Hrc) as (_ & Hd1 & Hsz & _). pose proof Hq as (Hok1 & _ & W1).
    destruct (attach_unseen h1 d (area v) r pb (k - 1)) as (h2 & -> & Hq2); [done..|lia| |].
    { rewrite W1. apply Hn. lia. }
    change (0 <? 0) with false. cbv iota. apply Hgo. eapply quiet_trans; [exact Hq|].
    eapply quiet_trans; [exact Hq2|]. apply shared_quiet, Hq2.
  - destruct Hty as (-> & _). by apply Hgo, quiet_refl.
Qed.
End commit.

(** ** Decommitting *)

Lemma mem_mapped h y s l d r ar : where_is y h = Mapped s l d r ar -> mem y h = Some (byte d (y - s) h).
Proof. unfold mem. by intros ->. Qed.

(** The addresses from [lo] to [hi] are mapped to copies of what the dataspace
    [ds], whose region began at [a], holds for them. *)
Definition part_kept (ds a lo hi ar : Z) h h' : Prop :=
  host_ok h' /\ data_kept None h h' /\ once h' /\
  forall y, if within lo (hi - lo) y then exists s l d r, where_is y h' = Mapped s l d r ar /\
      d <> ds /\ byte d (y - s) h' = byte ds (y - a) h
    else where_is y h' = where_is y h.

Lemma keep_part_spec v ds a n lo hi r h h' : host_ok h -> once h -> opened ds h ->
  0 <= a -> a <= lo -> hi <= a + n -> n <= dsize ds h -> hi < 2 ^ 32 ->
  (forall y, lo <= y < hi -> where_is y h = Reserved (area v)) ->
  (if lo <? hi then keep_part v ds (u32 (lo - a)) (u32 (hi - lo)) lo r h else (true, h)) = (true, h') ->
  part_kept ds a lo hi (area v) h h'.
Proof.
  intros Hok Hon Hop Ha Hlo Hhi Hn Hb Hr. destruct (Z.ltb_spec lo hi) as [Hlt|Hge].
  2: { intros [= <-]. split; [done|]. split; [apply kept_refl|]. split; [done|]. intros y.
       destruct (within_spec lo (hi - lo) y); [lia|done]. }
  unfold keep_part. rewrite !u32_id by (unfold is_u32; lia).
  destruct (l4dm_memphys_copy ds (lo - a) (hi - lo) h) as [[rc d] h1] eqn:Ec.
  apply copy_law in Ec as [Hq Hd]; [|done|done|lia..]. destruct (Z.ltb_spec rc 0) as [|Hrc]; [done|].
  destruct (Hd Hrc) as (Hnew & Hd1 & Hsz & Hb1). destruct Hq as (Hok1 & Hk1 & W1).
  destruct (attach_law h1 d (area v) lo (hi - lo) r) as (h2 & -> & Hok2 & Hk2 & W2);
    [done|done|lia..| |].
  { intros y Hy. rewrite W1. apply Hr. lia. }
  change (0 <? 0) with false. cbv iota. intros [= <-].
  destruct (shared_quiet r (is_shared v) h2 lo d Hok2) as (Hok3 & Hk3 & W3).
  set (h3 := if is_shared v then _ else _) in *.
  assert (W : forall y, where_is y h3 =
    if within lo (hi - lo) y then Mapped lo (hi - lo) d r (area v) else where_is y h)
    by (intros y; by rewrite W3, W2, W1).
  split; [done|]. split; [eapply kept_trans; [exact Hk1|by eapply kept_trans]|].
  split; [apply (once_attach h _ d lo (hi - lo) r (area v)); [done| |exact W];
    by apply fresh_unmapped|].
  intros y. rewrite W. destruct (within_spec lo (hi - lo) y) as [Hy|]; [|done].
  exists lo, (hi - lo), d, r. split; [done|]. split; [by intros ->|].
  assert (Hd3 : opened d h2) by (by apply Hk2). destruct (Hk3 d ltac:(done) Hd3) as (_ & _ & ->).
  destruct (Hk2 d ltac:(done) Hd1) as (_ & _ & ->). rewrite Hb1 by lia. f_equal. lia.
Qed.

(** What an address is without what is mapped there. *)
Definition emptied (c : cell) : cell := match c with Mapped _ _ _ _ ar => Reserved ar | c => c end.

(** From [lo] to [hi] nothing is mapped any more, and everywhere else a program
    reads what it read before. *)
Definition decommitted (lo hi : Z) h h' : Prop :=
  host_ok h' /\ once h' /\ (forall y, emptied (where_is y h') = emptied (where_is y h)) /\
  forall y, mem y h' = if within lo (hi - lo) y then None else mem y h.

Lemma decommitted_trans lo mid hi h1 h2 h3 : lo <= mid <= hi ->
  decommitted lo mid h1 h2 -> decommitted mid hi h2 h3 -> decommitted lo hi h1 h3.
Proof.
  intros Hm (_ & _ & E1 & M1) (Hok & Hon & E2 & M2). split; [done|]. split; [done|].
  split; [intros y; by rewrite E2|]. intros y. rewrite M2, M1.
  destruct (within_spec lo (mid - lo) y), (within_spec mid (hi - mid) y),
    (within_spec lo (hi - lo) y); try done; lia.
Qed.

Lemma once_region h x y s l d r ar s' l' r' ar' : host_ok h -> once h ->
  where_is x h = Mapped s l d r ar -> where_is y h = Mapped s' l' d r' ar' -> s <= y < s + l.
Proof.
  intros Hok Ho Ex Ey. pose proof (Ho _ _ _ _ _ _ _ _ _ _ _ Ex Ey) as <-.
  apply mapped_law in Ex as (_ & _ & Hx & Ux); [|done].
  apply mapped_law in Ey as (_ & _ & Hy & Uy); [|done].
  pose proof (Ux s ltac:(lia)) as E1. rewrite (Uy s) in E1 by lia. injection E1 as -> _ _. lia.
Qed.

Section decommit.
Context (v : vmdata) (r : Z).

(** The region from [a] without the hole: copies on both sides. *)
Definition region_cut (pb cb a n ds : Z) h h' : Prop :=
  host_ok h' /\ data_kept None h h' /\ once h' /\
  forall y, if within a n y then
    if within pb cb y then where_is y h' = Reserved (area v)
    else exists s l d r, where_is y h' = Mapped s l d r (area v) /\ d <> ds /\
           byte d (y - s) h' = byte ds (y - a) h
    else where_is y h' = where_is y h.

Lemma cut_parts pb cb a n ds r0 h : host_ok h -> once h -> 0 <= a -> a + n < 2 ^ 32 ->
  where_is pb h = Mapped a n ds r0 (area v) -> 0 < cb -> pb + cb < 2 ^ 32 ->
  exists ok h', cut_region v pb cb r a n ds h = (ok, h') /\
    (ok = true -> exists h4, h' = l4dm_close ds h4 /\ region_cut pb cb a n ds h h4).
Proof.
  intros Hok Hon Ha Hb Ew Hc Hbc. pose proof (mapped_law _ _ _ _ _ _ _ Hok Ew) as (Hop & Hsz & Hpb & Hu).
  unfold cut_region. pose proof (Hu a ltac:(lia)) as Ea.
  destruct (detach_law h a n ds r0 (area v) Hok Ea) as (Hok1 & Hk1 & W1).
  set (h1 := l4rm_detach a h) in *.
  assert (Hq2 : quiet h1 (if is_shared v then ExcClientUnmapDataspace a ds h1 else h1))
    by (destruct (is_shared v); [by apply unmap_law|by apply quiet_refl]).
  set (h2 := if is_shared v then _ else h1) in *. destruct Hq2 as (Hok2 & Hk2 & W2).
  pose proof (kept_trans _ _ _ _ Hk1 Hk2) as K2. destruct (K2 ds ltac:(done) Hop) as (Hop2 & Hs2 & Hb2).
  assert (W : forall y, where_is y h2 = if within a n y then Reserved (area v) else where_is y h)
    by (intros y; by rewrite W2, W1).
  assert (Hon2 : once h2).
  { intros x y e s l rr ar s' l' r' ar'. rewrite !W. destruct (within a n x), (within a n y); try done.
    apply Hon. }
  replace (keep_part v ds 0 (u32 (pb - a)) a r h2)
    with (keep_part v ds (u32 (a - a)) (u32 (pb - a)) a r h2) by (by rewrite Z.sub_diag).
  destruct (if a <? pb then _ else _) as [ok1 h3] eqn:E3.
  destruct ok1; [|by exists false, h3]. cbn [negb].
  eapply (keep_part_spec v ds a n a pb) in E3 as (Hok3 & Hk3 & Hon3 & W3); try done; try lia.
  2: { intros y Hy. rewrite W. destruct (within_spec a n y); [done|lia]. }
  rewrite !(u32_id (pb + cb)), (u32_id (a + n)) by (unfold is_u32; lia).
  replace (u32 (a + n - pb - cb)) with (u32 (a + n - (pb + cb))) by (f_equal; lia).
  destruct (if pb + cb <? a + n then _ else _) as [ok2 h4] eqn:E4.
  destruct ok2; [|by exists false, h4]. cbn [negb].
  destruct (Hk3 ds ltac:(done) Hop2) as (Hop3 & Hs3 & Hb3).
  assert (W3' : forall y, a <= y < a + n -> pb <= y -> where_is y h3 = Reserved (area v)).
  { intros y Hy Hy'. specialize (W3 y). destruct (within_spec a (pb - a) y); [lia|]. rewrite W3, W.
    destruct (within_spec a n y); [done|lia]. }
  eapply (keep_part_spec v ds a n (pb + cb) (a + n)) in E4 as (Hok4 & Hk4 & Hon4 & W4); try done; try lia.
  2: { intros y Hy. apply W3'; lia. }
  exists true, (l4dm_close ds h4). split; [done|]. intros _. exists h4. split; [done|]. split; [done|].
  split; [eapply kept_trans; [exact K2|by eapply kept_trans]|]. split; [done|].
  intros y. specialize (W4 y). specialize (W3 y).
  destruct (within_spec a n y) as [Hy|Hy], (within_spec pb cb y) as [Hy'|Hy'],
    (within_spec (pb + cb) (a + n - (pb + cb)) y), (within_spec a (pb - a) y); try lia.
  - rewrite W4, W3, W. destruct (within_spec a n y); [done|lia].
  - destruct W4 as (s & l & d & r1 & E & Hd & Hby). exists s, l, d, r1. split; [done|].
    split; [done|]. by rewrite Hby, Hb3, Hb2.
  - destruct W3 as (s & l & d & r1 & E & Hd & Hby). rewrite E in W4. exists s, l, d, r1.
    split; [done|]. split; [done|]. rewrite <- Hb2, <- Hby.
    apply mapped_law in E as (Hod & _); [|done]. by apply Hk4.
  - rewrite W4, W3, W. destruct (within_spec a n y); [lia|done].
  - rewrite W4, W3, W. destruct (within_spec a n y); [lia|done].
Qed.

Lemma cut_region_spec pb cb a n ds r0 h : host_ok h -> once h -> 0 <= a -> a + n < 2 ^ 32 ->
  where_is pb h = Mapped a n ds r0 (area v) -> 0 < cb -> pb + cb < 2 ^ 32 ->
  exists ok h', cut_region v pb cb r a n ds h = (ok, h') /\
    (ok = true -> decommitted pb (Z.min (pb + cb) (a + n)) h h').
Proof.
  intros Hok Hon Ha Hb Ew Hc Hbc. pose proof (mapped_law _ _ _ _ _ _ _ Hok Ew) as (Hop & Hsz & Hpb & Hu).
  destruct (cut_parts pb cb a n ds r0 h) as (ok & h' & Ec & Hcut); [done..|].
  exists ok, h'. split; [exact Ec|]. intros ->.
  destruct (Hcut eq_refl) as (h4 & -> & Hok4 & K4 & Hon4 & Hcases). clear Hcut Ec.
  assert (Hfree : forall y s l r1 ar, where_is y h4 <> Mapped s l ds r1 ar).
  { intros y s l r1 ar E. specialize (Hcases y). destruct (within_spec a n y) as [Hy|Hy].
    - destruct (within pb cb y); [congruence|]. destruct Hcases as (? & ? & ? & ? & ? & ? & _). congruence.
    - rewrite Hcases in E. pose proof (once_region _ _ _ _ _ _ _ _ _ _ _ _ Hok Hon Ew E). lia. }
  destruct (close_law h4 ds Hok4 Hfree) as (Hok5 & Hk5 & W5).
  split; [done|].
  split; [intros x y e s l r1 ar s' l' r' ar'; rewrite !W5; apply Hon4|]. split.
  - intros y. rewrite W5. specialize (Hcases y). destruct (within_spec a n y) as [Hy|Hy]; [|by rewrite Hcases].
    rewrite (Hu y) by lia. destruct (within pb cb y); [by rewrite Hcases|].
    by destruct Hcases as (s & l & d & r1 & -> & _).
  - intros y. specialize (Hcases y). unfold mem at 1. rewrite W5.
    destruct (within_spec a n y) as [Hy|Hy].
    + destruct (within_spec pb cb y) as [Hy'|Hy'], (within_spec pb (Z.min (pb + cb) (a + n) - pb) y);
        try lia; [by rewrite Hcases|].
      destruct Hcases as (s & l & d & r1 & E & Hd & Hby). rewrite E.
      rewrite (mem_mapped h y a n ds r0 (area v)) by (apply Hu; lia). f_equal. rewrite <- Hby.
      apply mapped_law in E as (Hod & _); [|done]. apply Hk5; congruence.
    + destruct (within_spec pb (Z.min (pb + cb) (a + n) - pb) y); [lia|]. rewrite Hcases. unfold mem.
      destruct (where_is y h) as [| |s l d r1 ar|] eqn:E; try done. f_equal.
      assert (Hne : d <> ds).
      { intros ->. pose proof (once_region _ _ _ _ _ _ _ _ _ _ _ _ Hok Hon Ew E). lia. }
      apply mapped_law in E as (Hod & _); [|done].
      destruct (K4 d ltac:(done) Hod) as (Hod4 & _ & <-). apply Hk5; congruence.
Qed.

Lemma decommit_loop_spec stop fuel : forall h pb cb, host_ok h -> once h -> 0 <= pb -> 0 < cb ->
  pb + cb = stop -> stop < 2 ^ 32 -> (Z.to_nat cb < fuel)%nat ->
  (forall y, pb <= y < stop -> emptied (where_is y h) = Reserved (area v)) ->
  exists rc quit h', decommit_loop fuel v pb cb r h = Ret (rc, quit, h') /\
    ((rc = NO_ERROR /\ decommitted pb stop h h') \/ rc = 8).
Proof.
  induction fuel as [|fuel IH]; intros h pb cb Hok Hon Hp Hc He Hb Hf Hr; [lia|]. cbn [decommit_loop].
  pose proof (Hr pb ltac:(lia)) as Epb.
  destruct (lookup_law h pb Hok) as (t & a & n & ds & -> & Hty & Ha & Hn & Hu); [by intros E; rewrite E in Epb|].
  assert (Hgo : forall h1, decommitted pb (Z.min stop (a + n)) h h1 -> exists rc quit h',
    (if u32 (pb + cb) <=? u32 (a + n) then Ret (NO_ERROR, false, h1)
     else decommit_loop fuel v (u32 (a + n)) (u32 (cb - (a + n - pb))) r h1) = Ret (rc, quit, h') /\
    ((rc = NO_ERROR /\ decommitted pb stop h h') \/ rc = 8)).
  { intros h1 Hd. rewrite !u32_id by (unfold is_u32; lia). destruct (Z.leb_spec (pb + cb) (a + n)).
    - exists NO_ERROR, false, h1. rewrite Z.min_l in Hd by lia. auto.
    - rewrite u32_id by (unfold is_u32; lia). rewrite Z.min_r in Hd by lia. pose proof Hd as (Hok1 & Hon1 & E1 & _).
      destruct (IH h1 (a + n) (cb - (a + n - pb))) as (rc & q & h' & E & H'); try done; try lia.
      { intros y Hy. rewrite E1. apply Hr. lia. }
      exists rc, q, h'. split; [exact E|]. destruct H' as [[-> H']|H']; [left|by right].
      split; [done|]. eapply decommitted_trans; [|exact Hd|exact H']. lia. }
  destruct (where_is pb h) as [|ar|a' n' ds' r0 ar|] eqn:Ew; cbn in Hty, Epb; try done.
  - subst t. apply Hgo. split; [done|]. split; [done|]. split; [done|]. intros y.
    destruct (within_spec pb (Z.min stop (a + n) - pb) y); [|done]. unfold mem. by rewrite Hu by lia.
  - destruct Hty as (-> & -> & -> & ->). injection Epb as ->.
    destruct (cut_region_spec pb cb a' n' ds' r0 h) as (ok & h' & -> & Hcut); try done; try lia.
    destruct ok; [|by exists 8, true, h'; auto]. rewrite He in Hcut. by apply Hgo, Hcut.
Qed.
End decommit.

(** ** Freeing *)

(** The region that the cell is of has an address from [lo] to [hi], both
    included. *)
Definition meets (lo hi : Z) (c : cell) : bool :=
  match c with Mapped s l _ _ _ => (lo <=? hi) && (s <=? hi) && (lo <? s + l) | _ => false end.

(** The regions that meet the range are gone, whole. *)
Definition detached (lo hi : Z) h h' : Prop :=
  host_ok h' /\ once h' /\ (forall y, emptied (where_is y h') = emptied (where_is y h)) /\
  forall y, if meets lo hi (where_is y h) then mem y h' = None
    else mem y h' = mem y h /\ where_is y h' = where_is y h.

Lemma detached_refl lo hi h : host_ok h -> once h -> hi < lo -> detached lo hi h h.
Proof.
  intros Hok Hon Hlt. split; [done|]. split; [done|]. split; [done|]. intros y.
  destruct (meets lo hi (where_is y h)) eqn:E; [|done]. unfold meets in E.
  destruct (where_is y h); try done. destruct (Z.leb_spec lo hi); [lia|done].
Qed.

Section free.
Context (v : vmdata) (q me : Z).
Context (Hpriv : is_shared v = false).

(** A region that ends within another is the same. *)
Lemma meets_next lo hi s l h y : host_ok h -> s <= lo -> lo < s + l ->
  (forall y, s <= y < s + l -> where_is y h = where_is lo h) ->
  (forall s' l' d r ar, where_is y h = Mapped s' l' d r ar -> where_is lo h <> where_is y h) ->
  meets (s + l) hi (where_is y h) = meets lo hi (where_is y h).
Proof.
  intros Hok Hs Hl Hu Hn.
  destruct (where_is y h) as [| |s1 l1 d r ar|] eqn:Ey; try done. cbn.
  apply mapped_law in Ey as (_ & Hz & Hy & Hu1); [|done].
  destruct (Z.leb_spec (s + l) hi), (Z.leb_spec lo hi), (Z.leb_spec s1 hi),
    (Z.ltb_spec (s + l) (s1 + l1)), (Z.ltb_spec lo (s1 + l1)); cbn; try done; try lia.
  all: exfalso; apply (Hn s1 l1 d r ar eq_refl); rewrite <- (Hu (Z.max s1 lo)) by lia; apply Hu1; lia.
Qed.

(** A step over a region without a dataspace. *)
Lemma detached_skip lo hi s l h h' : host_ok h -> 0 <= s <= lo -> lo < s + l ->
  (forall y, s <= y < s + l -> where_is y h = where_is lo h) ->
  (forall s l d r ar, where_is lo h <> Mapped s l d r ar) ->
  detached (s + l) hi h h' -> detached lo hi h h'.
Proof.
  intros Hok Hs Hl Hu Hn (Hok' & Hon' & E & M). split; [done|]. split; [done|]. split; [done|].
  intros y. specialize (M y).
  rewrite (meets_next lo hi s l h y) in M; try done; try lia.
  intros s' l' d r ar Ey E'. apply (Hn s' l' d r ar). congruence.
Qed.

(** A region that is detached and whose dataspace is closed. *)
Lemma closed_region h s l d r ar x : host_ok h -> once h -> where_is x h = Mapped s l d r ar ->
  let h2 := l4dm_close d (l4rm_detach s h) in
  host_ok h2 /\ once h2 /\ data_kept (Some d) h h2 /\
  forall y, where_is y h2 = if within s l y then Reserved ar else where_is y h.
Proof.
  intros Hok Hon Ew. pose proof (mapped_law _ _ _ _ _ _ _ Hok Ew) as (Hd & Hsz & Hlo & Hu).
  assert (Es : where_is s h = Mapped s l d r ar) by (apply Hu; lia).
  destruct (detach_law h s l d r ar Hok Es) as (Hok1 & Hk1 & W1).
  assert (Hfree : forall y s' l' r' ar', where_is y (l4rm_detach s h) <> Mapped s' l' d r' ar').
  { intros y s' l' r' ar' Ey. rewrite W1 in Ey. destruct (within_spec s l y); [done|].
    pose proof (once_region _ _ _ _ _ _ _ _ _ _ _ _ Hok Hon Ew Ey). lia. }
  destruct (close_law _ d Hok1 Hfree) as (Hok2 & Hk2 & W2). cbv zeta.
  assert (W : forall y, where_is y (l4dm_close d (l4rm_detach s h)) =
    if within s l y then Reserved ar else where_is y h) by (intros y; by rewrite W2, W1).
  split; [done|]. split; [|split; [|exact W]].
  - intros y z e s1 l1 r1 a1 s2 l2 r2 a2. rewrite !W.
    destruct (within s l y), (within s l z); try done. apply Hon.
  - eapply kept_trans; [|exact Hk2]. by apply kept_some.
Qed.

(** A step over a region with a dataspace, which is detached and closed. *)
Lemma detached_step lo hi s l d r ar h h' : host_ok h -> once h -> lo <= hi ->
  where_is lo h = Mapped s l d r ar ->
  detached (s + l) hi (l4dm_close d (l4rm_detach s h)) h' -> detached lo hi h h'.
Proof.
  intros Hok Hon Hlh Ew (Hok' & Hon' & E & M).
  pose proof (mapped_law _ _ _ _ _ _ _ Hok Ew) as (Hd & Hsz & Hlo & Hu).
  destruct (closed_region h s l d r ar lo) as (Hok2 & Hon2 & Hk2 & W); [done..|].
  set (h2 := l4dm_close d (l4rm_detach s h)) in *.
  split; [done|]. split; [done|]. split.
  - intros y. rewrite E, W. destruct (within_spec s l y); [by rewrite (Hu y)|done].
  - intros y. specialize (M y). specialize (W y). destruct (within_spec s l y) as [Hy|Hy].
    + rewrite (Hu y) by lia. rewrite W in M. cbn [meets] in M. destruct M as [-> _].
      cbn [meets]. destruct (Z.leb_spec lo hi), (Z.leb_spec s hi), (Z.ltb_spec lo (s + l)); try lia.
      unfold mem. by rewrite W.
    + rewrite W in M.
      rewrite (meets_next lo hi s l h y) in M; try done; try lia.
      2: { intros y' Hy'. by rewrite (Hu y'). }
      2: { intros s' l' d' r' ar' Ey E'. rewrite Ey, Ew in E'. injection E' as -> -> -> -> ->.
           apply mapped_law in Ey as (_ & _ & Hy' & _); [lia|done]. }
      destruct (meets lo hi (where_is y h)); [done|]. destruct M as [-> ->].
      split; [|done]. unfold mem. rewrite W. destruct (where_is y h) as [| |s1 l1 d1 r1 ar1|] eqn:Ey; try done.
      f_equal. assert (Hne : d1 <> d).
      { intros ->. pose proof (once_region _ _ _ _ _ _ _ _ _ _ _ _ Hok Hon Ew Ey). lia. }
      apply mapped_law in Ey as (Hod & _); [|done]. apply Hk2; congruence.
Qed.

Lemma free_loop_spec fuel : forall a s, host_ok (host s) -> once (host s) ->
  addr v <= a -> 0 <= addr v -> addr v + vsize v + 1 < 2 ^ 32 -> 0 <= vsize v ->
  (forall y, a <= y <= addr v + vsize v -> where_is y (host s) <> Other) ->
  addr v + vsize v + 1 - a < Z.of_nat fuel -> (0 < fuel)%nat -> a < 2 ^ 32 ->
  exists h', free_loop q me fuel v 0 a s = Ret (None, set_host h' s) /\
    detached a (addr v + vsize v) (host s) h'.
Proof.
  induction fuel as [|fuel IH]; intros a s Hok Hon Ha H0 Hb Hv Ho Hf Hp Ha2; [lia|].
  cbn [free_loop]. rewrite u32_id by (unfold is_u32; lia).
  destruct (Z.leb_spec (addr v) a); [|lia]. destruct (Z.leb_spec a (addr v + vsize v)) as [Hle|Hgt]; cbn [andb].
  2: { exists (host s). split; [by destruct s|]. by apply detached_refl. }
  destruct (lookup_law (host s) a Hok) as (t & st & l & d & -> & Hty & Hs & Hl & Hu); [apply Ho; lia|].
  rewrite Hpriv. change (0 =? 0) with true. cbv iota. rewrite u32_id by (unfold is_u32; lia).
  assert (Hnot : where_is a (host s) <> Other) by (apply Ho; lia).
  assert (Hskip : (forall s1 l1 d1 r ar, where_is a (host s) <> Mapped s1 l1 d1 r ar) -> exists h',
    free_loop q me fuel v 0 (st + l) s = Ret (None, set_host h' s) /\
    detached a (addr v + vsize v) (host s) h').
  { intros Hn. destruct (IH (st + l) s) as (h' & E & Hd); try done; try lia.
    { intros y Hy. apply Ho. lia. }
    exists h'. split; [exact E|]. apply (detached_skip a _ st l); try done; lia. }
  destruct (where_is a (host s)) as [|ar|s1 l1 d1 r1 ar1|] eqn:Ew; cbn in Hty; [| | |done].
  1, 2: subst t; by apply Hskip.
  destruct Hty as (-> & -> & -> & ->).
  set (h2 := l4dm_close d1 (l4rm_detach s1 (host s))).
  destruct (closed_region (host s) s1 l1 d1 r1 ar1 a) as (Hok2 & Hon2 & _ & W2); try done. fold h2 in Hok2, Hon2, W2.
  destruct (IH (s1 + l1) (set_host h2 s)) as (h' & E & Hd); try done; try lia.
  { intros y Hy. cbn [set_host host]. rewrite W2. destruct (within s1 l1 y); [done|]. apply Ho. lia. }
  exists h'. split; [exact E|]. by eapply detached_step.
Qed.
End free.

(** ** The calls *)

Section calls.
Context (old_sel tib_sel me : Z).
Implicit Types s : @kal H.

(** The search depends on the addresses and the links only. *)
Definition key (v : vmdata) : Z * Z * Z := (addr v, vsize v, next v).

Lemma get_area_loop_same s s' a fuel : (forall b, key <$> vms s' !! b = key <$> vms s !! b) ->
  forall p, get_area_loop fuel s' a p = get_area_loop fuel s a p.
Proof.
  intros Hk. induction fuel as [|fuel IH]; intros p; [done|]. cbn [get_area_loop].
  destruct (p =? 0) eqn:Ep; [done|]. unfold vm_at. rewrite Ep. specialize (Hk p).
  destruct (vms s' !! p) as [v'|], (vms s !! p) as [v|]; try done.
  injection Hk as E1 E2 E3. cbn. unfold area_has. rewrite E1, E2, E3. by rewrite IH.
Qed.

Lemma get_area_same s s' a : (forall b, key <$> vms s' !! b = key <$> vms s !! b) ->
  base.size (vms s') = base.size (vms s) -> areas_list s' = areas_list s ->
  get_area a s' = get_area a s.
Proof. intros Hk Hn Hl. unfold get_area. rewrite Hn, Hl. by apply get_area_loop_same. Qed.

(** The area that [pb] is taken to be in. *)
Definition found (pb : Z) s (ptr : Z) (v : vmdata) : Prop :=
  get_area pb s = Ret ptr /\ ptr <> 0 /\ vms s !! ptr = Some v.

Lemma vm_at_some s a v : a <> 0 -> vms s !! a = Some v -> vm_at s a = Ret v.
Proof. intros Ha E. unfold vm_at. destruct (Z.eqb_spec a 0); [done|]. by rewrite E. Qed.

Lemma update_some s a v f : a <> 0 -> vms s !! a = Some v ->
  update a f s = Ret (mkKal (<[a := f v]> (vms s)) (areas_list s) (fs s) (host s)).
Proof. intros Ha E. unfold update. by rewrite (vm_at_some s a v). Qed.

(** A new value of the rights of the area found. *)
Lemma found_rights pb s ptr v x f h : found pb s ptr v ->
  found pb (mkKal (<[ptr := with_rights v x]> (vms s)) (areas_list s) f h) ptr (with_rights v x).
Proof.
  intros (E & Hp & Ev). split; [|split; [done|cbn [vms]; by rewrite lookup_insert_eq]]. rewrite <- E.
  apply get_area_same; cbn [vms areas_list]; [|by eapply map_size_insert_Some|done].
  intros b. rewrite lookup_insert. case_decide; [subst; by rewrite Ev|done].
Qed.

Lemma found_enter pb s ptr v : found pb s ptr v -> found pb (KalEnter old_sel s) ptr v.
Proof. intros (E & Hf). split; [|exact Hf]. rewrite <- E. by apply get_area_same. Qed.

Lemma found_cont {B} pb s ptr v (f : Z -> vmdata -> C B) (e : C B) : found pb s ptr v ->
  (ptr ← get_area pb s; if ptr =? 0 then e else v ← vm_at s ptr; f ptr v) = f ptr v.
Proof.
  intros (-> & Hp & Ev). cbn [mbind C_bind]. destruct (Z.eqb_spec ptr 0); [done|].
  by rewrite (vm_at_some _ _ v).
Qed.

Definition some_access (flags : Z) : bool :=
  has flags PAG_READ || has flags PAG_WRITE || has flags PAG_EXECUTE.

(** A call that commits or decommits: the rights are changed first. *)
Lemma set_mem_found s pb cb flags ptr v : found pb s ptr v -> has flags PAG_DEFAULT = false ->
  has flags PAG_COMMIT && has flags PAG_DECOMMIT = false ->
  (has flags PAG_COMMIT = true /\ some_access flags = true \/ has flags PAG_DECOMMIT = true) ->
  exists x s1, found pb s1 ptr (with_rights v x) /\ areas_list s1 = areas_list s /\
    vms s1 = <[ptr := with_rights v x]> (vms s) /\ host s1 = host s /\
    x = (if has flags PAG_COMMIT then Z.lor (rights v) PAG_COMMIT
         else Z.land (rights v) (Z.lnot PAG_COMMIT)) /\
    KalSetMem old_sel tib_sel pb cb flags s =
      ('(rc, s) ← (if has flags PAG_COMMIT then commit_pages pb cb (host_rights flags) s1
                   else decommit_pages tib_sel pb cb (host_rights flags) s1);
       Ret (rc, KalQuit tib_sel s)).
Proof.
  intros Hf Hdef Hex Hsome. set (x := if has flags PAG_COMMIT then _ else _).
  pose proof (found_rights pb s ptr v x old_sel (host s) Hf) as Hf1.
  exists x, (mkKal (<[ptr := with_rights v x]> (vms s)) (areas_list s) old_sel (host s)).
  do 5 (split; [done|]). unfold KalSetMem. rewrite (found_cont pb _ ptr v) by by apply found_enter.
  rewrite Hdef. cbv zeta. rewrite Hdef, Hex. destruct Hf as (_ & Hp & Ev).
  replace (_ && negb (has flags PAG_EXECUTE)) with false.
  2: { unfold some_access in Hsome. destruct (has flags PAG_READ), (has flags PAG_WRITE),
         (has flags PAG_EXECUTE), (has flags PAG_DECOMMIT), Hsome as [[_ Hs]|Hs]; done. }
  subst x. rewrite !(update_some _ _ v) by done. destruct (has flags PAG_COMMIT); [done|].
  by destruct Hsome as [[? _]| ->].
Qed.

(** Committing pages: a call of [KalSetMem] with PAG_COMMIT returns no error or
    the lack of memory, with the program's selector loaded again.  Let [k] be the
    start of the end of the range that is reserved throughout.  Without error this
    end is mapped to new memory with the rights asked for, and nothing else has
    changed: what is reserved before something that is committed already stays
    uncommitted, though the call succeeds. *)
Theorem set_mem_commits s pb cb flags ptr v k :
  found pb s ptr v -> host_ok (host s) -> 0 <= pb -> 0 < cb -> pb + cb < 2 ^ 32 ->
  has flags PAG_COMMIT = true -> has flags PAG_DECOMMIT = false -> has flags PAG_DEFAULT = false ->
  some_access flags = true -> (L4_PAGESIZE | pb + cb - k) -> pb <= k <= pb + cb ->
  (forall y, k <= y < pb + cb -> where_is y (host s) = Reserved (area v)) ->
  (pb < k -> where_is (k - 1) (host s) <> Reserved (area v)) ->
  (forall y, pb <= y < k -> where_is y (host s) <> Other) ->
  exists rc s', KalSetMem old_sel tib_sel pb cb flags s = Ret (rc, s') /\ fs s' = tib_sel /\
    areas_list s' = areas_list s /\
    vms s' = <[ptr := with_rights v (Z.lor (rights v) PAG_COMMIT)]> (vms s) /\
    committed v (host_rights flags) (pb + cb) k rc (host s) (host s').
Proof.
  intros Hf Hok Hp Hc Hb Hcom Hdec Hdef Hacc Hpg Hk Ht Hn Ho.
  destruct (set_mem_found s pb cb flags ptr v) as (x & s1 & Hf1 & El & Em & Eh & Ex & ->);
    [done|done|by rewrite Hdec, andb_false_r|by left|].
  rewrite Hcom in *. unfold commit_pages. rewrite (found_cont pb s1 ptr _) by done. rewrite Eh.
  destruct (commit_loop_spec (with_rights v x) (host_rights flags) (pb + cb) k
    (S (Z.to_nat cb)) (host s) pb cb) as (rc & h' & -> & Hcm); try done; try lia.
  eexists rc, _. split; [done|]. split; [done|]. split; [done|]. split; [by rewrite <- Ex|exact Hcm].
Qed.

(** C25: Decommitting pages: a call of [KalSetMem] with PAG_DECOMMIT for a range inside
    an area returns no error or the lack of memory, with the program's selector loaded
    again.  Without error nothing is mapped in the range any more, which is reserved
    again, and everywhere else a program reads what it read before, although the
    dataspaces at the ends of the range have been replaced by copies. *)
Theorem set_mem_decommits s pb cb flags ptr v :
  found pb s ptr v -> host_ok (host s) -> once (host s) -> 0 <= pb -> 0 < cb -> pb + cb < 2 ^ 32 ->
  has flags PAG_COMMIT = false -> has flags PAG_DECOMMIT = true -> has flags PAG_DEFAULT = false ->
  (forall y, pb <= y < pb + cb -> emptied (where_is y (host s)) = Reserved (area v)) ->
  exists rc s', KalSetMem old_sel tib_sel pb cb flags s = Ret (rc, s') /\ fs s' = tib_sel /\
    areas_list s' = areas_list s /\
    vms s' = <[ptr := with_rights v (Z.land (rights v) (Z.lnot PAG_COMMIT))]> (vms s) /\
    ((rc = NO_ERROR /\ decommitted pb (pb + cb) (host s) (host s')) \/ rc = ERROR_NOT_ENOUGH_MEMORY).
Proof.
  intros Hf Hok Hon Hp Hc Hb Hcom Hdec Hdef Hr.
  destruct (set_mem_found s pb cb flags ptr v) as (x & s1 & Hf1 & El & Em & Eh & Ex & ->);
    [done|done|by rewrite Hcom|by right|].
  rewrite Hcom in *. unfold decommit_pages. rewrite (found_cont pb s1 ptr _) by done. rewrite Eh.
  destruct (decommit_loop_spec (with_rights v x) (host_rights flags) (pb + cb)
    (S (Z.to_nat cb)) (host s) pb cb) as (rc & q & h' & -> & Hd); try done; try lia.
  eexists rc, _. split; [done|]. split; [done|].
  destruct q; (split; [done|]; split; [by rewrite <- Ex|exact Hd]).
Qed.

(** A private area, with its end, lies in the address space. *)
Definition private_area s (v : vmdata) : Prop :=
  is_shared v = false /\ 0 <= addr v /\ 0 <= vsize v /\ addr v + vsize v + 1 < 2 ^ 32 /\
  forall y, addr v <= y <= addr v + vsize v -> where_is y (host s) <> Other.

(** The call after its loop. *)
Lemma free_mem_found fuel pb s ptr v : found pb s ptr v -> private_area s v ->
  host_ok (host s) -> once (host s) -> vsize v + 1 < Z.of_nat fuel ->
  exists h1, detached (addr v) (addr v + vsize v) (host s) h1 /\
    KalFreeMem old_sel tib_sel me fuel pb s =
      let s := set_host h1 (KalEnter old_sel s) in
      let '(rc, h) := l4rm_area_release_addr (addr v) h1 in
      let s := set_host h s in
      if rc <? 0 then Ret (ERROR_ACCESS_DENIED, KalQuit tib_sel s)
      else
        s ← (if prev v =? 0 then Ret s else update (prev v) (fun q => with_next q (next v)) s);
        s ← (if next v =? 0 then Ret s else update (next v) (fun q => with_prev q (prev v)) s);
        Ret (0, KalQuit tib_sel (mkKal (delete ptr (vms s)) (areas_list s) (fs s) (host s))).
Proof.
  intros Hf (Hpriv & H0 & Hv & Hb & Ho) Hok Hon Hfu. unfold KalFreeMem.
  rewrite (found_cont pb _ ptr v) by by apply found_enter. rewrite Hpriv.
  set (s0 := set_host _ _).
  destruct (free_loop_spec v tib_sel me Hpriv fuel (addr v) s0) as (h1 & E & Hd); try done; try lia.
  exists h1. split; [exact Hd|]. by rewrite E.
Qed.

(** Freeing an area that is not the newest: it leaves the list, the structure is
    released, and every dataspace from its first address to its end is taken out of
    the address space.  The end counts as one of its addresses, so that what begins
    there, which belongs to the next area, is lost with it. *)
Theorem free_mem_spec fuel pb s L1 l ptr L2 v :
  linked next prev (vms s) 0 (areas_list s) ((L1 ++ [l]) ++ ptr :: L2) 0 ->
  NoDup ((L1 ++ [l]) ++ ptr :: L2) -> found pb s ptr v -> private_area s v ->
  host_ok (host s) -> once (host s) -> vsize v + 1 < Z.of_nat fuel ->
  exists h1, detached (addr v) (addr v + vsize v) (host s) h1 /\
    let '(rc, h2) := l4rm_area_release_addr (addr v) h1 in
    if rc <? 0 then KalFreeMem old_sel tib_sel me fuel pb s =
      Ret (ERROR_ACCESS_DENIED, mkKal (vms s) (areas_list s) tib_sel h2)
    else exists ps, KalFreeMem old_sel tib_sel me fuel pb s =
        Ret (0, mkKal ps (areas_list s) tib_sel h2) /\ ps !! ptr = None /\
      linked next prev ps 0 (areas_list s) ((L1 ++ [l]) ++ L2) 0.
Proof.
  intros Hlk Hnd Hf Hp Hok Hon Hfu.
  destruct (free_mem_found fuel pb s ptr v Hf Hp Hok Hon Hfu) as (h1 & Hd & ->).
  exists h1. split; [exact Hd|]. destruct (l4rm_area_release_addr (addr v) h1) as [rc h2].
  cbv zeta. destruct (rc <? 0); [done|]. destruct Hf as (_ & Hptr & Ev).
  destruct (linked_unlink _ _ _ _ _ _ _ Hlk Hnd Ev) as (Epv & Hl0 & Hlp & pl & Epl & Hm).
  apply NoDup_app in Hnd as (Hnd1 & Hd12 & [Hp2 _]%NoDup_cons).
  assert (Hin : ptr ∉ (L1 ++ [l]) ++ L2).
  { intros [Hin|Hin]%elem_of_app; [|done]. apply (Hd12 ptr Hin). by left. }
  rewrite Epv. destruct (Z.eqb_spec l 0); [done|]. rewrite (update_some _ _ pl) by done.
  cbn [mbind C_bind KalEnter set_fs set_host vms areas_list fs host].
  destruct L2 as [|m L2].
  - destruct Hm as [En Hlk2]. rewrite En in *. change (0 =? 0) with true. cbv iota.
    eexists. split; [done|]. cbn [vms]. split; [by rewrite lookup_delete_eq|].
    rewrite app_nil_r in *. by apply linked_delete.
  - destruct Hm as (En & Hm0 & Hma & pm & Epm & Hlk2). rewrite En in *.
    destruct (Z.eqb_spec m 0); [done|]. rewrite (update_some _ _ pm) by done.
    eexists. split; [done|]. cbn [vms]. split; [by rewrite lookup_delete_eq|]. by apply linked_delete.
Qed.

(** The newest area cannot be freed with impunity: the head of the list is left
    at its structure, which has been released, so that every later call that looks
    for an area goes through a dangling pointer. *)
Theorem free_newest_dangles fuel pb s ptr L v s' :
  linked next prev (vms s) 0 (areas_list s) (ptr :: L) 0 -> NoDup (ptr :: L) ->
  found pb s ptr v -> private_area s v -> host_ok (host s) -> once (host s) ->
  vsize v + 1 < Z.of_nat fuel -> KalFreeMem old_sel tib_sel me fuel pb s = Ret (0, s') ->
  forall a, get_area a s' = Undef.
Proof.
  intros (Er & _ & v' & Ev' & Epv & Hk) [HpL _]%NoDup_cons Hf Hp Hok Hon Hfu.
  destruct (free_mem_found fuel pb s ptr v Hf Hp Hok Hon Hfu) as (h1 & _ & ->).
  destruct Hf as (_ & Hp0 & Ev). replace v' with v in * by congruence.
  destruct (l4rm_area_release_addr (addr v) h1) as [rc h2]. cbv zeta.
  destruct (rc <? 0); [done|]. rewrite Epv. change (0 =? 0) with true. cbv iota. cbn [mbind C_bind].
  intros Hs a. assert (Hdead : areas_list s' = ptr /\ vms s' !! ptr = None).
  { destruct (next v =? 0); cbn [mbind C_bind] in Hs.
    - injection Hs as <-. cbn. by rewrite lookup_delete_eq.
    - unfold update in Hs. destruct (vm_at _ (next v)) as [q| | |]; try done.
      cbn [mbind C_bind] in Hs. injection Hs as <-. cbn. by rewrite lookup_delete_eq. }
  destruct Hdead as [El En]. unfold get_area. rewrite El. cbn [get_area_loop].
  destruct (Z.eqb_spec ptr 0); [done|]. unfold vm_at. destruct (Z.eqb_spec ptr 0); [done|]. by rewrite En.
Qed.

Lemma push_area_spec s L ptr v : linked next prev (vms s) 0 (areas_list s) L 0 -> NoDup L ->
  ptr ∉ L -> ptr <> 0 -> next v = areas_list s -> prev v = 0 ->
  exists s', push_area ptr v s = Ret s' /\ areas_list s' = ptr /\ fs s' = fs s /\ host s' = host s /\
    linked next prev (vms s') 0 ptr (ptr :: L) 0 /\ vms s' !! ptr = Some v.
Proof.
  intros Hlk Hnd Hp Hp0 Hn Hpv. unfold push_area.
  pose proof (linked_cons _ _ _ _ v Hlk Hp Hnd Hp0 Hn Hpv) as Hc. destruct L as [|b L].
  - destruct Hc as [-> Hc]. change (0 =? 0) with true. cbv iota. eexists. split; [done|].
    cbn [vms areas_list fs host]. do 3 (split; [done|]). split; [exact Hc|by rewrite lookup_insert_eq].
  - destruct Hc as (-> & Hb & q & Eq & Hc). destruct (Z.eqb_spec b 0); [done|].
    rewrite (update_some _ _ q) by done. eexists. split; [done|].
    cbn [vms areas_list fs host]. do 3 (split; [done|]). split; [exact Hc|].
    rewrite lookup_insert_ne, lookup_insert_eq; [done|]. intros ->. apply Hp. by left.
Qed.

(** What [malloc] returns: a structure that is not in use. *)
Definition new_vm s (L : list Z) (o : option (Z * vmdata)) (ptr : Z) : Prop :=
  exists fresh, o = Some (ptr, fresh) /\ ptr <> 0 /\ (ptr ∉ L) /\ (0 < length (name fresh))%nat.

(** The new area: its structure is in front of the list, and its addresses, which
    were free, are reserved or, with PAG_COMMIT, mapped. *)
Definition area_made s s' (L : list Z) (ptr a cb flags : Z) : Prop :=
  linked next prev (vms s') 0 (areas_list s') (ptr :: L) 0 /\
  exists v d, vms s' !! ptr = Some v /\ addr v = a /\ vsize v = cb /\ rights v = flags /\
    is_shared v = false /\ owner v = me /\ 0 <= a /\ a + cb < 2 ^ 32 /\
    forall y, if within a cb y then where_is y (host s) = Free /\ where_is y (host s') =
        (if has flags PAG_COMMIT then Mapped a cb d (host_rights flags) (area v) else Reserved (area v))
      else where_is y (host s') = where_is y (host s).

(** What a call of [KalAllocMem] may do: nothing that is mapped changes, and if it
    succeeds there is a new area. *)
Definition alloc_result s (L : list Z) (ptr cb flags rc : Z) (out : option Z) s' : Prop :=
  fs s' = tib_sel /\ host_ok (host s') /\ once (host s') /\
  (forall y x, mem y (host s) = Some x -> mem y (host s') = Some x) /\
  ((rc = NO_ERROR /\ exists a, out = Some a /\ area_made s s' L ptr a cb flags) \/
   (rc <> NO_ERROR /\ out = None)).

Lemma alloc_failed s L ptr cb flags rc s' : rc <> NO_ERROR -> fs s' = tib_sel ->
  host_ok (host s') -> once (host s') ->
  (forall y x, mem y (host s) = Some x -> mem y (host s') = Some x) ->
  alloc_result s L ptr cb flags rc None s'.
Proof. intros. do 4 (split; [done|]). by right. Qed.

Lemma alloc_succeeded s L ptr cb flags a s' : fs s' = tib_sel -> host_ok (host s') ->
  once (host s') -> (forall y x, mem y (host s) = Some x -> mem y (host s') = Some x) ->
  area_made s s' L ptr a cb flags -> alloc_result s L ptr cb flags NO_ERROR (Some a) s'.
Proof. intros. do 4 (split; [done|]). left. split; [done|]. by exists a. Qed.

(** What is mapped stays when only free addresses change. *)
Lemma mapped_kept h h' : host_ok h -> data_kept None h h' ->
  (forall y, where_is y h <> Free -> where_is y h' = where_is y h) ->
  forall y x, mem y h = Some x -> mem y h' = Some x.
Proof.
  intros Hok Hk W y x E. rewrite <- E. apply mem_kept; [done|done|]. apply W. intros E'.
  unfold mem in E. by rewrite E' in E.
Qed.

Lemma once_reserve h h' a n ar : once h ->
  (forall y, where_is y h' = if within a n y then Reserved ar else where_is y h) -> once h'.
Proof.
  intros Hon W x y d s l r r1 s' l' r' r2. rewrite !W. destruct (within a n x), (within a n y); try done.
  apply Hon.
Qed.

(** Committing a new area, whose addresses are reserved. *)
Lemma commit_new h a cb ar r : host_ok h -> once h -> 0 <= a -> a + cb < 2 ^ 32 -> 0 < cb ->
  (L4_PAGESIZE | cb) -> (forall y, a <= y < a + cb -> where_is y h = Reserved ar) ->
  exists rc ds h1, l4dm_mem_open cb r h = (rc, ds, h1) /\ quiet h h1 /\
    (0 <= rc -> exists h2, attach_ds_area ds ar r a h1 = (0, h2) /\ host_ok h2 /\ once h2 /\
       data_kept None h h2 /\
       forall y, where_is y h2 = if within a cb y then Mapped a cb ds r ar else where_is y h).
Proof.
  intros Hok Hon Ha Hb Hcb Hpg Hr. destruct (l4dm_mem_open cb r h) as [[rc ds] h1] eqn:Eo.
  apply open_law in Eo as [Hq Hd]; [|done..]. exists rc, ds, h1. split; [done|]. split; [exact Hq|].
  intros Hrc. destruct (Hd Hrc) as (Hnew & Hds & _ & Hsz). specialize (Hsz Hpg).
  pose proof Hq as (Hok1 & Hk1 & W1).
  destruct (attach_seen h1 ds ar r a) as (h2 & E & Hok2 & Hk2 & W2); [done..| | | | |];
    rewrite ?Hsz; try done; try lia.
  { intros y Hy. rewrite W1. by apply Hr. }
  rewrite Hsz in W2. exists h2. split; [exact E|]. split; [done|].
  assert (W : forall y, where_is y h2 = if within a cb y then Mapped a cb ds r ar else where_is y h)
    by (intros y; by rewrite W2, W1).
  split; [|split; [by eapply kept_trans|exact W]].
  eapply once_attach; [exact Hon| |exact W]. by apply fresh_unmapped.
Qed.

(** Allocating private memory: the call returns an address or an error, with the
    program's selector loaded again; nothing that is mapped changes in either case.
    On success the area is the first of the list, at addresses that were free, and
    its pages are mapped with the rights asked for if they are to be committed. *)
Theorem alloc_mem_spec s L cb flags o ptr :
  linked next prev (vms s) 0 (areas_list s) L 0 -> NoDup L -> host_ok (host s) -> once (host s) ->
  0 < cb -> (L4_PAGESIZE | cb) -> new_vm s L o ptr ->
  exists rc out s', KalAllocMem old_sel tib_sel me cb flags o s = Ret (rc, out, s') /\
    alloc_result s L ptr cb flags rc out s'.
Proof.
  intros Hlk Hnd Hok Hon Hcb Hpg (fresh & -> & Hp0 & HpL & Hname). unfold KalAllocMem.
  cbn [KalEnter set_fs host]. destruct (l4rm_area_reserve cb (host s)) as [[[rc a] ar] h1] eqn:Er.
  pose proof (reserve_law (host s) cb rc a ar h1 Hok Hcb Hpg Er) as Hres.
  destruct (rc <? 0).
  { destruct Hres as (Hok1 & Hk1 & W1).
    destruct (_ || _); (eexists _, _, _; split; [done|]; apply alloc_failed;
      [done|done|done|by eapply quiet_once|by apply mapped_kept]). }
  destruct Hres as (Hok1 & Hk1 & Ha & Hb & Hfree & W1). cbn [need mbind C_bind].
  destruct (wr8_first (name fresh) 0 Hname) as (nm & Enm & _). rewrite Enm. cbn [mbind C_bind].
  set (v := mkVm nm false me flags ar a cb _ 0).
  destruct (push_area_spec (set_host h1 (KalEnter old_sel s)) L ptr v) as
    (s1 & Es1 & El1 & Ef1 & Eh1 & Hlk1 & Ev1); try done.
  rewrite Es1. cbn [mbind C_bind]. cbn [set_host host] in Eh1.
  pose proof (once_reserve _ _ _ _ _ Hon W1) as Hon1.
  assert (Hnotfree : forall y, where_is y (host s) <> Free -> within a cb y = false).
  { intros y Hy. destruct (within_spec a cb y); [|done]. by destruct Hy; apply Hfree. }
  assert (Hmade : forall d h', (forall y, where_is y h' = if within a cb y
      then if has flags PAG_COMMIT then Mapped a cb d (host_rights flags) ar else Reserved ar
      else where_is y (host s)) ->
    area_made s (KalQuit tib_sel (set_host h' s1)) L ptr a cb flags).
  { intros d h' W. split; [cbn [KalQuit set_fs set_host vms areas_list]; by rewrite El1|]. exists v, d. do 7 (split; [done|]).
    split; [done|]. cbn [KalQuit set_fs set_host host]. intros y. rewrite W. 
    destruct (within_spec a cb y); [|done]. split; [by apply Hfree|done]. }
  destruct (has flags PAG_COMMIT) eqn:Ec.
  2: { exists NO_ERROR, (Some a), (KalQuit tib_sel (set_host h1 s1)).
       split; [by rewrite <- Eh1; destruct s1|]. apply alloc_succeeded; [done|done|done| |by apply (Hmade 0)].
       apply mapped_kept; [done|done|]. intros y Hy. cbn. by rewrite W1, Hnotfree. }
  rewrite Eh1. destruct (commit_new h1 a cb ar (host_rights flags)) as
    (rc2 & ds & h2 & -> & Hq & Hatt); try done.
  { intros y Hy. rewrite W1. destruct (within_spec a cb y); [done|lia]. }
  cbn [set_host host]. destruct (Z.ltb_spec rc2 0) as [|Hrc2].
  { eexists _, _, _. split; [done|]. pose proof Hq as (Hok2 & Hk2 & W2).
    apply alloc_failed; [done|done|done|by eapply quiet_once|].
    apply mapped_kept; [done|by eapply kept_trans|]. intros y Hy. cbn. by rewrite W2, W1, Hnotfree. }
  destruct (Hatt Hrc2) as (h3 & -> & Hok3 & Hon3 & Hk3 & W3). change (negb (0 =? 0)) with false. cbv iota.
  eexists _, _, _. split; [done|]. apply alloc_succeeded; [done|done|done| |].
  - apply mapped_kept; [done|by eapply kept_trans|]. intros y Hy. cbn. by rewrite W3, W1, Hnotfree.
  - apply (Hmade ds). intros y. rewrite W3, W1. by destruct (within a cb y).
Qed.
End calls.
End laws.

(** ** A host

    The address space is a function, each reserved address a region of its own. *)
Record dhost := mkDh { cells : Z -> cell; count : Z; sizes : Z -> Z; bytes : Z -> Z -> Z; brk : Z }.

Definition is_reserved (ar : Z) (c : cell) : bool :=
  match c with Reserved a => a =? ar | _ => false end.
Definition is_free (c : cell) : bool := match c with Free => true | _ => false end.
Definition set_cells (a n : Z) (c : cell) (h : dhost) : dhost :=
  mkDh (fun y => if within a n y then c else cells h y) (count h) (sizes h) (bytes h) (brk h).
Definition new_ds (n : Z) (b : Z -> Z) (h : dhost) : dhost :=
  mkDh (cells h) (count h + 1) (fun d => if d =? count h then n else sizes h d)
    (fun d => if d =? count h then b else bytes h d) (brk h).

#[export] Instance demo_host : HostMemory dhost := {
  L4DM_READ := 1; L4DM_WRITE := 2; L4_ENOMEM := 12; L4_ENOTFOUND := 2; L4_PAGESIZE := 4;
  l4rm_lookup_region x h := match cells h x with
    | Mapped s l d _ _ => (REGION_DATASPACE, s, l, d)
    | Reserved _ => (REGION_RESERVED, x, 1, 0)
    | Free => (REGION_FREE, x, 1, 0)
    | Other => (REGION_OTHER, x, 1, 0)
    end;
  l4rm_detach s h := match cells h s with
    | Mapped s l _ _ ar => set_cells s l (Reserved ar) h
    | _ => h
    end;
  l4rm_area_reserve n h :=
    if (brk h + n <? 2 ^ 32) && forallb (fun y => is_free (cells h y)) (seqZ (brk h) n)
    then (0, brk h, brk h, set_cells (brk h) n (Reserved (brk h)) h)
    else (-12, 0, 0, h);
  l4rm_area_release_addr a h := (0, h);
  l4rm_area_attach_to_region d ar a n r h :=
    if (0 <=? a) && (0 <? n) && (n <=? sizes h d) && (0 <=? d) && (d <? count h) && (a + n <? 2 ^ 32) &&
       forallb (fun y => is_reserved ar (cells h y)) (seqZ a n)
    then (0, set_cells a n (Mapped a n d r ar) h) else (-17, h);
  l4dm_mem_open n r h := (0, count h, new_ds n (fun _ => 0) h);
  l4dm_mem_size d h := (0, sizes h d);
  l4dm_memphys_copy d o n h := (0, count h, new_ds n (fun i => bytes h d (o + i)) h);
  l4dm_close d h := h;
  ExcClientReleaseSharedMem a h := (0, h);
  ExcClientMapDataspace a r d h := h;
  ExcClientUnmapDataspace a d h := h;
  AppClientDataspaceRelease o d h := h
}.

Definition cell_ok (h : dhost) (x : Z) : Prop :=
  match cells h x with
  | Mapped s l d r ar => 0 <= d < count h /\ 0 < l <= sizes h d /\ 0 <= s <= x /\ x < s + l < 2 ^ 32 /\
      forall y, s <= y < s + l -> cells h y = Mapped s l d r ar
  | Other => True
  | _ => 0 <= x < 2 ^ 32 - 1
  end.

#[export] Instance demo_view : HostView dhost := {
  host_ok h := 0 <= count h /\ 0 <= brk h /\ forall x, cell_ok h x;
  where_is x h := cells h x;
  opened d h := 0 <= d < count h;
  dsize d h := sizes h d;
  byte d o h := bytes h d o
}.

Lemma all_reserved ar h a n : forallb (fun y => is_reserved ar (cells h y)) (seqZ a n) = true <->
  forall y, a <= y < a + n -> cells h y = Reserved ar.
Proof.
  rewrite forallb_forall. split; intros Hf y Hy.
  - specialize (Hf y). rewrite <- list_elem_of_In, elem_of_seqZ in Hf. specialize (Hf ltac:(lia)).
    unfold is_reserved in Hf. destruct (cells h y); try done. by apply Z.eqb_eq in Hf as ->.
  - apply list_elem_of_In, elem_of_seqZ in Hy. rewrite Hf by lia. cbn. lia.
Qed.
Lemma all_free h a n : forallb (fun y => is_free (cells h y)) (seqZ a n) = true ->
  forall y, a <= y < a + n -> cells h y = Free.
Proof.
  rewrite forallb_forall. intros Hf y Hy.
  specialize (Hf y). rewrite <- list_elem_of_In, elem_of_seqZ in Hf. specialize (Hf ltac:(lia)).
  unfold is_free in Hf. by destruct (cells h y).
Qed.

(** A part of the address space whose regions lie inside it or outside changes. *)
Lemma set_cells_ok h a n c : host_ok h -> 0 <= a -> a + n < 2 ^ 32 ->
  (forall y, within a n y = true -> cell_ok (set_cells a n c h) y) ->
  (forall x s l d r ar, within a n x = false -> cells h x = Mapped s l d r ar ->
     forall y, s <= y < s + l -> within a n y = false) ->
  host_ok (set_cells a n c h).
Proof.
  intros (Hc & Hk & Hok) Ha Hb Hnew Hout. split; [done|]. split; [done|]. intros x.
  destruct (within a n x) eqn:Ex; [by apply Hnew|]. specialize (Hok x). unfold cell_ok in *.
  cbn [set_cells cells sizes count]. rewrite Ex. destruct (cells h x) as [| |s l d r ar|] eqn:Ew; try done.
  destruct Hok as (H1 & H2 & H3 & H4 & H5). split_and!; try done; try lia. intros y Hy.
  rewrite (Hout x s l d r ar Ex Ew y Hy). by apply H5.
Qed.

Lemma new_ds_quiet h n b : host_ok h -> quiet h (new_ds n b h) /\
  ~ opened (count h) h /\ opened (count h) (new_ds n b h) /\ dsize (count h) (new_ds n b h) = n /\
  forall i, byte (count h) i (new_ds n b h) = b i.
Proof.
  intros (Hc & Hk & Hok). split_and!; cbn; try lia.
  - split; [|split; [|done]].
    + split; [cbn; lia|]. split; [done|]. intros x. specialize (Hok x). unfold cell_ok in *. cbn.
      destruct (cells h x) as [| |s l d r ar|]; try done. destruct Hok as (H1 & H2 & H3 & H4 & H5).
      destruct (Z.eqb_spec d (count h)); [lia|]. split_and!; try done; lia.
    + intros e _ He. cbn in *. destruct (Z.eqb_spec e (count h)); [lia|]. split; [lia|done].
  - by rewrite Z.eqb_refl.
  - intros i. by rewrite Z.eqb_refl.
Qed.

#[export] Instance demo_laws : HostLaws dhost.
Proof.
  split.
  - intros h x s l d r ar (_ & _ & Hok) E. specialize (Hok x). unfold cell_ok in Hok. cbn in E.
    rewrite E in Hok. destruct Hok as (H1 & H2 & H3 & H4 & H5). cbn. split_and!; try done; lia.
  - intros h x (_ & _ & Hok) Hn. specialize (Hok x). unfold cell_ok in Hok. cbn in *.
    destruct (cells h x) as [|ar|s l d r ar|] eqn:E; try done; eexists _, _, _, _; (split; [done|]); cbn.
    1, 2: split_and!; try done; try lia; intros y Hy; by replace y with x by lia.
    destruct Hok as (H1 & H2 & H3 & H4 & H5). split_and!; try done; lia.
  - intros h s l d r ar Hok E. cbn in *. rewrite E. pose proof (proj2 (proj2 Hok) s) as Hs.
    unfold cell_ok in Hs. rewrite E in Hs. destruct Hs as (H1 & H2 & H3 & H4 & H5).
    split; [|split; [by intros e _ He|done]]. apply set_cells_ok; [done|lia|lia| |].
    + intros y Hy. unfold cell_ok. cbn. rewrite Hy. apply within_true in Hy. lia.
    + intros x s' l' d' r' ar' Hx Ex y Hy. destruct (within_spec s l y) as [Hy'|]; [|done].
      pose proof (proj2 (proj2 Hok) x) as Hx2. unfold cell_ok in Hx2. rewrite Ex in Hx2.
      destruct Hx2 as (_ & _ & K3 & K4 & K5). pose proof (K5 y Hy) as Ey. rewrite H5 in Ey by done.
      injection Ey as -> -> _ _ _. rewrite <- Hx. symmetry. apply within_true. lia.
  - intros h d ar a n r Hok Ho Hn Ha Hb Hr. cbn in *. apply all_reserved in Hr as Hr'. rewrite Hr'.
    replace (_ && true) with true by lia. eexists. split; [done|]. split; [|split; [by intros e _ He|done]].
    apply set_cells_ok; [done|lia|lia| |].
    + intros y Hy. unfold cell_ok. cbn. rewrite Hy. apply within_true in Hy.
      split_and!; try done; try lia. intros z Hz. apply (within_true a n z) in Hz. by rewrite Hz.
    + intros x s' l' d' r' ar' Hx Ex y Hy. destruct (within_spec a n y) as [Hy'|]; [|done].
      pose proof (proj2 (proj2 Hok) x) as Hx2. unfold cell_ok in Hx2. rewrite Ex in Hx2.
      destruct Hx2 as (_ & _ & K3 & K4 & K5). pose proof (K5 y Hy) as Ey. by rewrite Hr in Ey.
  - intros h d ar a n r y rc h' Hok Hy Hw. cbn.
    destruct (_ && _) eqn:E; [|intros [= <- <-]; split; [lia|by apply quiet_refl]].
    apply andb_true_iff in E as [_ E]. rewrite all_reserved in E. cbn in Hw. by rewrite E in Hw.
  - intros h n rc a ar h' Hok Hn _. cbn. destruct (_ && _) eqn:E; intros [= <- <- <- <-].
    2: { by apply quiet_refl. }
    apply andb_true_iff in E as [E1 E2]. pose proof (all_free _ _ _ E2) as Hf.
    pose proof Hok as (_ & Hk & Hok'). change (0 <? 0) with false. cbv iota.
    split; [|split; [by intros e _ He|split; [lia|split; [lia|by split]]]].
    apply set_cells_ok; [done|lia|lia| |].
    + intros y Hy. unfold cell_ok. cbn. rewrite Hy. apply within_true in Hy. lia.
    + intros x s' l' d' r' ar' Hx Ex y Hy. destruct (within_spec (brk h) n y) as [Hy'|]; [|done].
      specialize (Hok' x). unfold cell_ok in Hok'. rewrite Ex in Hok'.
      destruct Hok' as (_ & _ & K3 & K4 & K5). pose proof (K5 y Hy) as Ey. by rewrite Hf in Ey.
  - intros h n r rc d h' Hok Hn. cbn. intros [= <- <- <-].
    destruct (new_ds_quiet h n (fun _ => 0) Hok) as (Hq & H1 & H2 & H3 & _).
    split; [exact Hq|]. intros _. split; [exact H1|]. split; [exact H2|]. cbn in H3 |- *. rewrite H3. split; [lia|done].
  - done.
  - intros h d o n rc d' h' Hok Ho H0 Hn Hb. cbn. intros [= <- <- <-].
    destruct (new_ds_quiet h n (fun i => bytes h d (o + i)) Hok) as (Hq & H1 & H2 & H3 & H4).
    split; [exact Hq|]. intros _. split; [exact H1|]. split; [exact H2|]. cbn in H3 |- *. rewrite H3. split; [lia|].
    intros i _. apply H4.
  - intros h d Hok _. by destruct (quiet_refl h Hok) as (_ & _ & _).
  - intros h a r d Hok. by apply quiet_refl.
  - intros h a d Hok. by apply quiet_refl.
Qed.

(** Two areas of eight bytes side by side, the second the newer; the first half of
    the first is reserved, the rest is mapped. *)
Definition demo_cells (y : Z) : cell :=
  if within 4096 4 y then Reserved 7
  else if within 4100 4 y then Mapped 4100 4 0 3 7
  else if within 4104 8 y then Mapped 4104 8 1 3 9
  else if within 0 (2 ^ 32 - 1) y then Free else Other.
Definition demo_state : dhost :=
  mkDh demo_cells 2 (fun d => if d =? 0 then 4 else 8) (fun d o => 100 * d + o) 8192.
Definition demo_vm (ar a n p : Z) : vmdata := mkVm [0] false 1 3 ar a 8 n p.
Definition demo_kal : kal :=
  mkKal (<[100 := demo_vm 7 4096 0 200]> (<[200 := demo_vm 9 4104 100 0]> ∅)) 200 43 demo_state.

Ltac demo_split y := unfold demo_cells in *;
  destruct (within_spec 4096 4 y), (within_spec 4100 4 y), (within_spec 4104 8 y),
    (within_spec 0 (2 ^ 32 - 1) y); try lia.

Lemma demo_host_ok : host_ok demo_state.
Proof.
  split; [done|]. split; [done|]. intros x. unfold cell_ok. cbn [demo_state cells count sizes].
  demo_split x; try done; try lia; split_and!; try done; try lia;
    intros y Hy; demo_split y; done.
Qed.
Lemma demo_once : once demo_state.
Proof.
  intros x y d s l r ar s' l' r' ar'. cbn. intros Ex Ey. demo_split x; demo_split y; congruence.
Qed.

Lemma demo_found100 : found 4096 demo_kal 100 (demo_vm 7 4096 0 200).
Proof. split; [by vm_compute|by split]. Qed.
Lemma demo_found200 : found 4106 demo_kal 200 (demo_vm 9 4104 100 0).
Proof. split; [by vm_compute|by split]. Qed.
Lemma demo_linked : linked next prev (vms demo_kal) 0 (areas_list demo_kal) [200; 100] 0.
Proof.
  split; [done|]. split; [done|]. exists (demo_vm 9 4104 100 0). split; [done|]. split; [done|].
  split; [done|]. split; [done|]. by exists (demo_vm 7 4096 0 200).
Qed.
Lemma demo_private ptr v : vms demo_kal !! ptr = Some v -> private_area demo_kal v.
Proof.
  cbn [demo_kal vms].
  intros [[<- <-]|[_ [[<- <-]|[_ Hx]]%lookup_insert_Some]]%lookup_insert_Some; [| |done].
  all: split_and!; try done; cbn; intros y Hy; unfold demo_state; cbn; by demo_split y.
Qed.

(** The first half of the first area is committed. *)
Lemma set_mem_commits_witness :
  exists rc s', KalSetMem 1 2 4096 4 19 demo_kal = Ret (rc, s') /\ fs s' = 2 /\
    committed (demo_vm 7 4096 0 200) 3 4100 4096 rc demo_state (host s').
Proof.
  destruct (set_mem_commits 1 2 demo_kal 4096 4 19 100 (demo_vm 7 4096 0 200) 4096)
    as (rc & s' & E & Ef & _ & _ & Hc); try reflexivity; try lia; try exact demo_found100.
  - exact demo_host_ok.
  - intros y Hy. cbn in *. by demo_split y.
  - exists rc, s'. exact (conj E (conj Ef Hc)).
Defined.

(** The whole of it is not, because its second half is committed already. *)
Example commit_hole :
  match KalSetMem 1 2 4096 8 19 demo_kal with
  | Ret (rc, s') => rc = 0 /\ where_is 4096 (host s') = Reserved 7
  | _ => False
  end.
Proof. by vm_compute. Qed.

Lemma set_mem_decommits_witness :
  exists rc s', KalSetMem 1 2 4106 4 32 demo_kal = Ret (rc, s') /\
    ((rc = NO_ERROR /\ decommitted 4106 4110 demo_state (host s')) \/ rc = ERROR_NOT_ENOUGH_MEMORY).
Proof.
  destruct (set_mem_decommits 1 2 demo_kal 4106 4 32 200 (demo_vm 9 4104 100 0))
    as (rc & s' & E & _ & _ & _ & Hc); try reflexivity; try lia; try exact demo_found200.
  - exact demo_host_ok.
  - exact demo_once.
  - intros y Hy. cbn in *. by demo_split y.
  - exists rc, s'. exact (conj E Hc).
Defined.

(** The bytes on both sides of the hole are still there. *)
Example decommit_keeps :
  match KalSetMem 1 2 4106 4 32 demo_kal with
  | Ret (rc, s') => rc = 0 /\ ((fun y => mem y (host s')) <$> [4104; 4105; 4106; 4109; 4110; 4111]) =
      [Some 100; Some 101; None; None; Some 106; Some 107]
  | _ => False
  end.
Proof. by vm_compute. Qed.

Lemma free_mem_spec_witness :
  exists h1 ps, detached 4096 4104 demo_state h1 /\
    KalFreeMem 1 2 1 20 4096 demo_kal = Ret (0, mkKal ps 200 2 h1) /\ ps !! 100 = None /\
    linked next prev ps 0 200 [200] 0.
Proof.
  destruct (free_mem_spec 1 2 1 20 4096 demo_kal [] 200 100 [] (demo_vm 7 4096 0 200)) as (h1 & Hd & Hm);
    try exact demo_linked; try exact demo_found100; try exact demo_host_ok; try exact demo_once.
  - by apply (bool_decide_unpack _).
  - by apply (demo_private 100).
  - cbn. lia.
  - cbv beta iota delta [l4rm_area_release_addr demo_host Z.ltb Z.compare] in Hm.
    destruct Hm as (ps & E & En & Hl). exists h1, ps. exact (conj Hd (conj E (conj En Hl))).
Defined.

(** The area after the one that is freed loses its memory. *)
Example neighbour_lost :
  match KalFreeMem 1 2 1 20 4096 demo_kal with
  | Ret (rc, s') => rc = 0 /\ mem 4104 demo_state = Some 100 /\ mem 4104 (host s') = None /\
      get_area 4108 s' = Ret 200
  | _ => False
  end.
Proof. by vm_compute. Qed.

Lemma free_newest_dangles_witness :
  exists s', KalFreeMem 1 2 1 20 4106 demo_kal = Ret (0, s') /\ get_area 4096 s' = Undef.
Proof.
  assert (Hrc : match KalFreeMem 1 2 1 20 4106 demo_kal with Ret (rc, _) => rc =? 0 | _ => false end = true)
    by (vm_compute; reflexivity).
  destruct (KalFreeMem 1 2 1 20 4106 demo_kal) as [[rc s']| | |] eqn:E; try discriminate Hrc.
  apply Z.eqb_eq in Hrc. subst rc.
  exists s'. split; [reflexivity|].
  apply (free_newest_dangles 1 2 1 20 4106 demo_kal 200 [100] (demo_vm 9 4104 100 0) s');
    try exact demo_linked; try exact demo_found200; try exact demo_host_ok; try exact demo_once; try exact E.
  - by apply (bool_decide_unpack _).
  - by apply (demo_private 200).
  - cbn. lia.
Defined.

Lemma alloc_mem_spec_witness :
  exists rc out s', KalAllocMem 1 2 1 8 19 (Some (300, demo_vm 0 0 0 0)) demo_kal = Ret (rc, out, s') /\
    alloc_result 2 1 demo_kal [200; 100] 300 8 19 rc out s'.
Proof.
  apply (alloc_mem_spec 1 2 1 demo_kal [200; 100] 8 19 (Some (300, demo_vm 0 0 0 0)) 300).
  - exact demo_linked.
  - by apply (bool_decide_unpack _).
  - exact demo_host_ok.
  - exact demo_once.
  - lia.
  - by exists 2.
  - exists (demo_vm 0 0 0 0). split; [reflexivity|]. split; [lia|]. split; [by apply (bool_decide_unpack _)|cbn; lia].
Defined.

(** A region that is longer than what is asked for is not counted. *)
Example query_part :
  match KalQueryMem 1 2 4106 (Some 4) true demo_kal with
  | Ret (rc, out, s') => rc = 0 /\ out = Some (0, Z.lor 3 PAG_BASE)
  | _ => False
  end.
Proof. by vm_compute. Qed.

(** A call with an address that is in no area leaves the host's selector in fs. *)
Example invalid_address_selector :
  match KalSetMem 1 2 64 4 19 demo_kal with
  | Ret (rc, s') => rc = ERROR_INVALID_ADDRESS /\ fs s' = 1
  | _ => False
  end.
Proof. by vm_compute. Qed.
