(* ===== verification/CfgOpt.v ===== *)
(** * Options of the configuration read back
      ([os2srv/api/cfg.c], [lib/compat/env.c])

    The servers ask for an option of CONFIG.SYS by its name in lower case.
    [CPCfgGetopt] looks the name up in four tables, one for each type of field
    of [options], and answers with a number or copies a string into the
    caller's buffer.  lib/compat/env.c has the same text as [cfg_Getopt].  The
    first part shows that [options] is always well typed: every field that a
    configuration stores is in the range that its table assumes. *)
From S2P Require Import Prelude CfgParser.

(** ** The tables *)

(** What the [addr] of an entry of [intlist] points to: most are fields of
    type [short int], four of the queried ones of type [int]. *)
Inductive int_addr := AtShort (f : short_field) | AtInt (f : int_field).

#[export] Instance int_addr_eq : EqDecision int_addr.
Proof. solve_decision. Defined.

Definition named {A} (l : list (string * A)) : list (list Z * A) := prod_map bstr id <$> l.

Definition intlist : list (list Z * int_addr) := named
  [("autofail", AtShort autofail); ("buffers", AtShort buffers);
   ("clockscale", AtShort clockscale); ("closefiles", AtShort closefiles);
   ("dllbasing", AtShort dllbasing); ("earlymeminit", AtShort earlymeminit);
   ("fakeiss", AtShort fakeiss); ("i13pages", AtShort i13pages);
   ("javanofpk", AtShort javanofpk); ("ldrstackopt", AtShort ldrstackopt);
   ("maxwait", AtShort maxwait); ("ndwtimer", AtShort ndwtimer);
   ("pauseonerror", AtShort pauseonerror); ("priority", AtShort priority);
   ("priority_disk_io", AtShort priority_disk_io); ("protectonly", AtShort protectonly);
   ("raskdata", AtShort raskdata); ("reipl", AtShort reipl);
   ("sxfakehwfpu", AtShort sxfakehwfpu); ("threads", AtInt threads);
   ("tracebuf", AtInt tracebuf); ("truemode", AtShort truemode); ("vme", AtShort vme);
   ("workplace_native", AtShort workplace_native);
   ("workplace_primary_cp", AtShort workplace_primary_cp);
   ("workplace_process", AtShort workplace_process); ("wp_objhandle", AtInt wp_objhandle);
   ("debugmodmgr", AtShort debugmodmgr); ("debugixfmgr", AtShort debugixfmgr);
   ("debugprcmgr", AtShort debugprcmgr); ("debugmemmgr", AtShort debugmemmgr)]%string.

Definition chrlist : list (list Z * char_field) := named
  [("dumpprocess", dumpprocess); ("lastdrive", lastdrive);
   ("remote_install_state", remote_install_state);
   ("reservedriveletter", reservedriveletter); ("suppresspopups", suppresspopups)]%string.

Definition arrlist : list (list Z * unit) := named [("codepage", tt)]%string.

Definition strlist : list (list Z * string_field) := named
  [("country", country); ("devinfo_kbd", devinfo_kbd); ("devinfo_vio", devinfo_vio);
   ("diskcache", diskcache); ("ibm_java_options", ibm_java_options); ("iopl", iopl);
   ("iropt", iropt); ("libpath", libpath); ("memman", memman);
   ("printmonbufsize", printmonbufsize); ("protshell", protshell);
   ("sourcepath", sourcepath); ("strace", strace); ("swapppath", swappath);
   ("sysdump", sysdump); ("timeslice", timeslice); ("trace", trace);
   ("trapdump", trapdump); ("traplog", traplog); ("configfile", configfile);
   ("bootdrive", bootdrive)]%string.

(** ** The query *)

(** The loop over a table: it stops behind the first entry with the name. *)
Fixpoint tab_find {A} (l : list (list Z * A)) (nm : list Z) : option A :=
  match l with
  | [] => None
  | (n, a) :: l' => if bool_decide (nm = n) then Some a else tab_find l' nm
  end.

(** [*(short int * )addr] on a little-endian machine. *)
Definition short_at (o : cfg_opts) (a : int_addr) : Z :=
  match a with
  | AtShort f => shorts o f
  | AtInt f => s16 (ints o f)
  end.

(** What the caller's variables hold; [value_str] is the buffer that
    [*value_str] points to. *)
Record answer := mkAnswer { is_int : Z; value_int : Z; value_str : list Z }.

Definition with_str (a : answer) (b : list Z) : answer := mkAnswer 0 (value_int a) b.

(** The bytes of a pointer in memory. *)
Definition ptr_bytes (p : Z) : list Z :=
  [u8 p; u8 (p / 256); u8 (p / 65536); u8 (p / 16777216)].

(** [codepage_addr] is the address of [options.codepage]: the code copies the
    bytes of the pointer, not what it points to. *)
Definition CPCfgGetopt (codepage_addr : Z) (nm : list Z) (o : cfg_opts) (a : answer)
    : C (Z * answer) :=
  match tab_find intlist nm with
  | Some addr => Ret (0, mkAnswer 1 (short_at o addr) (value_str a))
  | None =>
  match tab_find chrlist nm with
  | Some f =>
      b ← wr8 (value_str a) 0 (chars o f);
      b ← wr8 b 1 0;
      Ret (0, with_str a b)
  | None =>
  match tab_find arrlist nm with
  | Some _ =>
      s ← cstr (ptr_bytes codepage_addr);
      b ← strcpy_at (value_str a) 0 s;
      Ret (0, with_str a b)
  | None =>
  match tab_find strlist nm with
  | Some f =>
      s ← deref (strings o f);
      b ← strcpy_at (value_str a) 0 s;
      Ret (0, with_str a b)
  | None => Ret (1, a)
  end end end end.

(** lib/compat/env.c: the same text. *)
Definition cfg_Getopt := CPCfgGetopt.

(** The environment of the system: [CfgGetenv] on the same buffer. *)
Definition CPCfgGetenv (st : cfg) (nm : list Z) (vcap : Z) : C (Z * option (list Z)) :=
  CfgGetenv st nm vcap.

(** ** Well-typed options *)

(** The values a field of type [short int] can have: two for a switch, a
    documented range for CLOCKSCALE (zero when it is not given) and MAXWAIT,
    any number for BUFFERS. *)
Definition short_ok (f : short_field) (v : Z) : Prop :=
  match f with
  | buffers => - 2 ^ 15 <= v < 2 ^ 15
  | clockscale => v ∈ [0; 1; 2; 4]
  | maxwait => 1 <= v <= 255
  | _ => v = 0 \/ v = 1
  end.

Definition text_ptr (p : cptr) : Prop := exists s, p = Str s /\ text s.

Record well_typed (o : cfg_opts) : Prop := {
  wt_shorts : forall f, short_ok f (shorts o f);
  wt_chars : forall f, is_byte (chars o f);
  wt_ints : forall f, - 2 ^ 31 <= ints o f < 2 ^ 31;
  wt_strings : forall f, strings o f = Null \/ text_ptr (strings o f);
  wt_codepage : length (codepage o) = 7%nat /\ Forall is_byte (codepage o);
  wt_mode : (length (mode o) <= 20)%nat /\ Forall text_ptr (mode o)
}.

(** The states of a server that initialises the options and parses files. *)
Inductive configured : cfg -> Prop :=
  | conf_init ok o :
      CfgInitOptions ok (options static_cfg) = Ret (NO_ERROR, o) ->
      configured (mkCfg (type static_cfg) o)
  | conf_parse st addr size line0 ok rc st' :
      configured st -> Forall is_byte addr -> Forall is_byte line0 ->
      CfgParseConfig addr size line0 ok st = Ret (rc, st') -> configured st'.

Create HintDb typed.

Lemma set_short_typed o f v : short_ok f v -> well_typed o -> well_typed (set_short o f v).
Proof.
  intros Hv []. split; cbn; try done. intros g. destruct (decide (g = f)) as [->|Hne].
  - by rewrite fn_lookup_insert.
  - by rewrite fn_lookup_insert_ne.
Qed.

Lemma set_char_typed o f v : is_byte v -> well_typed o -> well_typed (set_char o f v).
Proof.
  intros Hv []. split; cbn; try done. intros g. destruct (decide (g = f)) as [->|Hne].
  - by rewrite fn_lookup_insert.
  - by rewrite fn_lookup_insert_ne.
Qed.

Lemma set_int_typed o f v : - 2 ^ 31 <= v < 2 ^ 31 -> well_typed o -> well_typed (set_int o f v).
Proof.
  intros Hv []. split; cbn; try done. intros g. destruct (decide (g = f)) as [->|Hne].
  - by rewrite fn_lookup_insert.
  - by rewrite fn_lookup_insert_ne.
Qed.

Lemma set_string_typed o f p : p = Null \/ text_ptr p -> well_typed o ->
  well_typed (set_string o f p).
Proof.
  intros Hv []. split; cbn; try done. intros g. destruct (decide (g = f)) as [->|Hne].
  - by rewrite fn_lookup_insert.
  - by rewrite fn_lookup_insert_ne.
Qed.
#[export] Hint Resolve set_short_typed set_char_typed set_int_typed set_string_typed : typed.

(** ** Lines keep options well typed *)

Lemma cstr_bytes b s : Forall is_byte b -> cstr b = Ret s -> text s.
Proof.
  intros Hb. revert s. induction Hb as [|c b Hc _ IH]; intros s; cbn; [done|].
  destruct (Z.eqb_spec c 0); [by intros [= <-]; constructor|].
  intros (s' & E & ->)%fmap_Ret_inv. constructor; [|by apply IH].
  unfold is_byte in Hc. lia.
Qed.

Lemma wr8_bytes b i v b' : Forall is_byte b -> wr8 b i v = Ret b' -> Forall is_byte b'.
Proof.
  intros Hb. unfold wr8. destruct (_ && _); [|done]. intros [= <-].
  apply Forall_insert; [done|apply u8_byte].
Qed.

Lemma wr_bytes_bytes s : forall b i b', Forall is_byte b -> wr_bytes b i s = Ret b' ->
  Forall is_byte b'.
Proof.
  induction s as [|c s IH]; intros b i b' Hb; cbn; [by intros [= <-]|].
  intros H. cinv. eapply IH; [|exact H]. by eapply wr8_bytes.
Qed.

Lemma shift_line_bytes b k b' : Forall is_byte b -> shift_line b k = Ret b' -> Forall is_byte b'.
Proof. unfold shift_line. intros Hb H. cinv. by eapply wr_bytes_bytes. Qed.

Lemma toupper_byte c : is_byte c -> is_byte (toupper c).
Proof. unfold toupper, is_byte. intros H. destruct (Z.leb_spec 97 c), (Z.leb_spec c 122); cbn; lia. Qed.

Lemma strupr_bytes s : Forall is_byte s -> forall s', strupr s = Ret s' -> Forall is_byte s'.
Proof.
  induction 1 as [|c s Hc Hs IH]; intros s'; cbn; [done|].
  destruct (c =? 0); [intros [= <-]; by constructor|].
  intros (r & E & ->)%fmap_Ret_inv. constructor; [by apply toupper_byte|by apply IH].
Qed.

Lemma copy_line_typed line len p : Forall is_byte line -> copy_line line len = Ret p -> text_ptr p.
Proof. unfold copy_line. intros Hb H. cinv. eexists. split; [done|]. by eapply cstr_bytes. Qed.

Lemma dup_line_typed ok line len p : Forall is_byte line -> dup_line ok line len = Ret p ->
  text_ptr p.
Proof. unfold dup_line. destruct ok; [apply copy_line_typed|done]. Qed.

Lemma upper_line_typed line len ok line' p :
  Forall is_byte line -> upper_line line len ok = Ret (line', p) ->
  Forall is_byte line' /\ text_ptr p.
Proof.
  unfold upper_line. destruct ok; [|done]. intros Hb H. cinv.
  assert (Forall is_byte line') by by eapply strupr_bytes. split; [done|].
  by eapply copy_line_typed.
Qed.

Lemma atoi_range line n : atoi line = Ret n -> - 2 ^ 31 <= n < 2 ^ 31.
Proof.
  unfold atoi. intros H. cinv.
  match goal with E : (_ && _) = true |- _ => apply andb_true_iff in E as [?%Z.leb_le ?%Z.ltb_lt] end.
  done.
Qed.

Lemma s16_range n : - 2 ^ 15 <= s16 n < 2 ^ 15.
Proof. unfold s16, signed. destruct (Z.ltb_spec (n mod 2 ^ 16) (2 ^ (16 - 1))); lia. Qed.

Lemma s16_id n : - 2 ^ 15 <= n < 2 ^ 15 -> s16 n = n.
Proof. intros H. unfold s16, signed. destruct (Z.ltb_spec (n mod 2 ^ 16) (2 ^ (16 - 1))); lia. Qed.

Lemma rd8_is_byte line i x : Forall is_byte line -> rd8 line i = Ret x -> is_byte x.
Proof. intros Hb E. by eapply rd8_range. Qed.
#[export] Hint Resolve atoi_range dup_line_typed rd8_is_byte : typed.

(** The fields that a case of the [switch] sets with [two_words], [one_word] or
    [one_char] take two values. *)
Definition switch (f : short_field) : Prop :=
  f <> buffers /\ f <> clockscale /\ f <> maxwait.

Lemma switch_ok f v : switch f -> v = 0 \/ v = 1 -> short_ok f v.
Proof. intros (H1 & H2 & H3) Hv. by destruct f. Qed.

Section cases.
Context (o : cfg_opts) (line : list Z) (len : Z) (ok : bool) (o' : cfg_opts).
Hypothesis Hline : Forall is_byte line.
Hypothesis Ho : well_typed o.

Lemma two_words_typed f w1 v1 w2 v2 :
  two_words o line f w1 v1 w2 v2 = Ret o' -> switch f -> (v1 = 0 \/ v1 = 1) -> (v2 = 0 \/ v2 = 1) ->
  well_typed o'.
Proof.
  unfold two_words. intros H Hf H1 H2. cinv. destruct a; [cinv; by apply set_short_typed, Ho; apply switch_ok|].
  cinv. destruct a; cinv; [by apply set_short_typed, Ho; apply switch_ok|done].
Qed.

Lemma one_word_typed f w v1 v2 :
  one_word o line f w v1 v2 = Ret o' -> switch f -> (v1 = 0 \/ v1 = 1) -> (v2 = 0 \/ v2 = 1) ->
  well_typed o'.
Proof.
  unfold one_word. intros H Hf H1 H2. cinv. apply set_short_typed, Ho. apply switch_ok; [done|].
  by destruct a.
Qed.

Lemma one_char_typed f c v1 v2 :
  one_char o line f c v1 v2 = Ret o' -> switch f -> (v1 = 0 \/ v1 = 1) -> (v2 = 0 \/ v2 = 1) ->
  well_typed o'.
Proof.
  unfold one_char. intros H Hf H1 H2. cinv. apply set_short_typed, Ho. apply switch_ok; [done|].
  by destruct (_ =? c).
Qed.

Lemma a_string_typed f : a_string o line len ok f = Ret o' -> well_typed o'.
Proof. unfold a_string. intros H. cinv. apply set_string_typed, Ho. right. by eapply dup_line_typed. Qed.

Lemma a_char_typed f : a_char o line f = Ret o' -> well_typed o'.
Proof. unfold a_char. intros H. cinv. by apply set_char_typed, Ho; eapply rd8_is_byte. Qed.

Lemma a_number_typed f : a_number o line f = Ret o' -> well_typed o'.
Proof. unfold a_number. intros H. cinv. by apply set_int_typed, Ho; eapply atoi_range. Qed.

Lemma upper_string_typed f line' : upper_string o line len ok f = Ret (line', o') ->
  Forall is_byte line' /\ well_typed o'.
Proof.
  unfold upper_string. intros H. cinv. destruct a as [l p]. cinv.
  apply upper_line_typed in E as [Hl Hp]; [|done]. split; [done|].
  apply set_string_typed, Ho. by right.
Qed.

End cases.

(** One case of the [switch]. *)
Ltac typed_case H :=
  first
    [eapply two_words_typed in H; [exact H|eassumption..|by repeat split|auto|auto]
    |eapply one_word_typed in H; [exact H|eassumption..|by repeat split|auto|auto]
    |eapply one_char_typed in H; [exact H|eassumption..|by repeat split|auto|auto]
    |eapply a_string_typed in H; [exact H|eassumption..]
    |eapply a_char_typed in H; [exact H|eassumption..]
    |eapply a_number_typed in H; [exact H|eassumption..]].

Section switch_cases.
Context (o : cfg_opts) (line : list Z) (len : Z) (ok : bool).
Hypothesis Hline : Forall is_byte line.
Hypothesis Ho : well_typed o.

Lemma codepage_typed l : length l = 7%nat -> Forall is_byte l -> well_typed (set_codepage o l).
Proof. intros Hn Hl. by destruct Ho; split. Qed.

Lemma mode_typed p : (length (mode o) < 20)%nat -> text_ptr p ->
  well_typed (set_mode o (mode o ++ [p])).
Proof.
  intros Hn Hp. destruct Ho as [? ? ? ? ? [Hl Hm]]. split; cbn; try done. split.
  - rewrite length_app. cbn. lia.
  - apply Forall_app. by split; [|apply Forall_singleton].
Qed.

Lemma options_0_8_typed i line' o' : options_0_8 i o line len ok = Ret (line', o') ->
  Forall is_byte line' /\ well_typed o'.
Proof.
  unfold options_0_8. intros H.
  destruct i as [|[|[|[|[|[|[|[|j]]]]]]]];
    try (apply fmap_Ret_inv in H as (x & H & [= <- <-]); split; [done|]; try typed_case H);
    try (by eapply upper_string_typed).
  - cinv. apply set_short_typed, Ho. apply s16_range.
  - cinv. destruct (_ || _) eqn:B; [|done]. cinv. apply set_short_typed, Ho.
    rewrite s16_id by blia. cbn. rewrite !elem_of_cons. blia.
  - cinv. apply codepage_typed; [done|].
    repeat (apply Forall_cons; split; [by eapply rd8_is_byte|]). apply Forall_nil_2.
  - cinv. destruct a as [l p]. cinv. apply upper_line_typed in E as [Hl Hp]; [|done].
    assert (Hf : forall f, well_typed (set_string o f p)) by (intros f; apply set_string_typed, Ho; by right).
    destruct a0; [by cinv|]. cinv. by destruct a0; cinv.
Qed.

Lemma options_9_18_typed i o' : options_9_18 i o line len ok = Ret o' -> well_typed o'.
Proof.
  unfold options_9_18. intros H.
  do 9 (destruct i as [|i]; [typed_case H|]).
  destruct i as [|[|[|[|[|[|[|[|[|j]]]]]]]]]; typed_case H.
Qed.

Lemma options_19_26_typed i o' : options_19_26 i o line len ok = Ret o' -> well_typed o'.
Proof.
  unfold options_19_26. intros H.
  do 19 (destruct i as [|i]; [typed_case H|]).
  destruct i as [|[|[|[|[|[|[|j]]]]]]]; try typed_case H.
  - cinv. destruct (_ && _) eqn:B; [|done]. cinv. apply set_short_typed, Ho.
    rewrite s16_id by blia. cbn. blia.
  - destruct (Nat.ltb_spec (length (mode o)) 20); cinv; [|done].
    apply mode_typed; [done|]. by eapply dup_line_typed.
Qed.

Lemma options_27_36_typed i o' : options_27_36 i o line len ok = Ret o' -> well_typed o'.
Proof.
  unfold options_27_36. intros H.
  do 27 (destruct i as [|i]; [typed_case H|]).
  destruct i as [|[|[|[|[|[|[|[|[|j]]]]]]]]]; typed_case H.
Qed.

Lemma options_37_46_typed i o' : options_37_46 i o line len ok = Ret o' -> well_typed o'.
Proof.
  unfold options_37_46. intros H.
  do 37 (destruct i as [|i]; [typed_case H|]).
  destruct i as [|[|[|[|[|[|[|[|[|j]]]]]]]]]; typed_case H.
Qed.

Lemma options_47_56_typed i o' : options_47_56 i o line = Ret o' -> well_typed o'.
Proof.
  unfold options_47_56. intros H.
  do 47 (destruct i as [|i]; [by cinv|]).
  destruct i as [|[|[|[|[|[|[|[|[|[|j]]]]]]]]]]; first [typed_case H|by cinv].
Qed.

End switch_cases.

Lemma set_option_typed i o line len ok line' o' : Forall is_byte line -> well_typed o ->
  set_option i o line len ok = Ret (line', o') -> Forall is_byte line' /\ well_typed o'.
Proof.
  unfold set_option. intros Hb Ho H.
  destruct (i <=? 8)%nat; [by eapply options_0_8_typed|].
  repeat match type of H with (if ?b then _ else _) = _ => destruct b end;
    apply fmap_Ret_inv in H as (x & H & [= <- <-]); split; [done| |done| |done| |done| |done|];
    [by eapply options_9_18_typed|by eapply options_19_26_typed|by eapply options_27_36_typed
    |by eapply options_37_46_typed|by eapply options_47_56_typed].
Qed.

(** What a step of the parser keeps: a buffer of bytes and typed options. *)
Definition line_typed (line : list Z) (st : cfg) : Prop :=
  Forall is_byte line /\ well_typed (options st).

Lemma types_loop_typed todo : forall i st line len lineno ok rc line' st',
  line_typed line st -> types_loop todo i st line len lineno ok = Ret (Some (rc, line', st')) ->
  line_typed line' st'.
Proof.
  induction todo as [|t todo IH]; intros i st line len lineno ok rc line' st' [Hb Ho];
    cbn [types_loop]; [done|].
  intros H. cinv. destruct (_ =? _)%nat; [|by eapply IH].
  cinv. apply shift_line_bytes in E0; [|done]. destruct ok; cinv; by split.
Qed.

Lemma options_loop_typed todo : forall i st line len ok rc line' st',
  line_typed line st -> options_loop todo i st line len ok = Ret (rc, line', st') ->
  line_typed line' st'.
Proof.
  induction todo as [|kw todo IH]; intros i st line len ok rc line' st' [Hb Ho];
    unfold options_loop; fold options_loop; [by intros [= <- <- <-]|].
  intros H. cinv. destruct a0; [|by eapply IH].
  cinv. destruct a1 as [l2 o]. cinv. apply shift_line_bytes in E1; [|done].
  eapply set_option_typed in E2; [|done..]. done.
Qed.

Lemma CfgParseLine_typed st line len lineno ok rc line' st' :
  line_typed line st -> CfgParseLine st line len lineno ok = Ret (rc, line', st') ->
  line_typed line' st'.
Proof.
  unfold CfgParseLine. intros Hl H. cinv. destruct a as [[[rc1 l1] st1]|].
  - cinv. by eapply types_loop_typed.
  - by eapply options_loop_typed.
Qed.

Lemma parse_loop_typed addr size ok : Forall is_byte addr ->
  forall fuel off line len lineno st st', line_typed line st ->
  parse_loop fuel addr size ok off line len lineno st = Ret st' -> well_typed (options st').
Proof.
  intros Ha. induction fuel as [|fuel IH]; intros off line len lineno st st' Hl; [done|].
  rewrite parse_loop_S. destruct (_ && _); [|intros [= <-]; apply Hl].
  intros H. cinv. destruct a1 as [[[l1 len1] n1] st1]. cinv.
  eapply IH; [|exact H]. revert E1. clear H IH. destruct Hl as [Hb Ho].
  apply wr8_bytes in E0; [|done].
  destruct (is_eol a); [|by intros [= <- <- <- <-]].
  intros E1. cinv. destruct a3 as [[rc l3] st3]. destruct (rc =? 0); [done|]. cinv.
  apply wr8_bytes in E3; [|done]. by eapply CfgParseLine_typed.
Qed.

Lemma init_typed ok o : CfgInitOptions ok (options static_cfg) = Ret (NO_ERROR, o) -> well_typed o.
Proof.
  unfold CfgInitOptions, init_string. intros H. cinv.
  destruct (ok 0%nat), (ok 1%nat), (ok 2%nat); try done; cinv. split; cbn.
  - intros f. destruct f; vm_compute; first [by left|by right|split; (discriminate || done)|constructor].
  - done.
  - intros f. lia.
  - intros f. destruct f; try (by left); right; (eexists; split; [reflexivity|by apply text_check]).
  - split; [done|]. repeat constructor; done.
  - split; [lia|constructor].
Qed.

Lemma configured_typed st : configured st -> well_typed (options st).
Proof.
  induction 1 as [ok o H|st addr size line0 ok rc st' _ IH Ha Hb H]; [by eapply init_typed|].
  unfold CfgParseConfig in H. cinv. eapply parse_loop_typed; [exact Ha|by split|done].
Qed.

(** C4: The options are well typed in every state that initialisation and any
    files lead to: switches are 0 or 1, MAXWAIT is from 1 to 255, CLOCKSCALE
    is 0, 1, 2 or 4, numbers fit their types, strings are null or
    terminated texts, the code page has seven bytes and there are at most
    twenty MODE lines. *)
Theorem options_well_typed st : configured st -> well_typed (options st).
Proof. apply configured_typed. Qed.

(** ** Options read back *)

(** A line of a file: an option that takes a string, or a line that the
    parser skips. *)
Inductive opt_item :=
  | Opt (kw : string) (f : string_field) (up : bool) (v : list Z)
  | Skip (l : list Z).

Definition opt_line (i : opt_item) : list Z :=
  match i with
  | Opt kw _ _ v => bstr kw ++ bstr "=" ++ v
  | Skip l => l
  end.

Definition opt_item_ok (i : opt_item) : Prop :=
  file_line (opt_line i) /\ text (opt_line i) /\
  match i with
  | Opt kw f up v => (kw, f, up) ∈ string_options
  | Skip l => find_type (type static_cfg) l = None /\ find_option l = None
  end.

(** What the lines leave in a field: the value of its last line. *)
Definition assign (f : string_field) (p : cptr) (i : opt_item) : cptr :=
  match i with
  | Opt _ g up v => if decide (f = g) then Str (if up then upper v else v) else p
  | Skip _ => p
  end.
Definition assigned (f : string_field) (its : list opt_item) (p : cptr) : cptr :=
  foldl (assign f) p its.

Lemma assigned_snoc f its i p : assigned f (its ++ [i]) p = assign f (assigned f its p) i.
Proof. apply foldl_snoc. Qed.

Definition opts_stored (st0 : cfg) (its : list opt_item) (st : cfg) : Prop :=
  shaped st /\ forall f, strings (options st) f = assigned f its (strings (options st0) f).

(** A line of a string option: [string_option_stored] at an option of the
    table. *)
Lemma opt_line_step its st0 : Forall opt_item_ok its ->
  forall pre i post st r lineno, its = pre ++ i :: post -> opts_stored st0 pre st ->
  text (opt_line i) -> Z.of_nat (length (opt_line i)) + 1 < 2 ^ 32 ->
  exists rc line st', CfgParseLine st (in_buffer (opt_line i) r) (Z.of_nat (length (opt_line i)))
      lineno true = Ret (rc, line, st') /\ rc <> 0 /\ opts_stored st0 (pre ++ [i]) st'.
Proof.
  intros Hi pre i post st r lineno -> [Hs He] Htx Hl.
  apply Forall_app in Hi as [_ (_ & _ & Hk)%Forall_cons_1%proj1].
  destruct i as [kw f up v|l]; cbn [opt_line] in *.
  - apply text_app in Htx as [_ [_ Hv]%text_app]. rewrite !length_app in Hl.
    destruct (option_line_run st kw f up v r lineno) as [line E]; [done..|lia|].
    exists 1, line. eexists. split; [exact E|]. split; [done|]. split; [exact Hs|].
    intros g. rewrite assigned_snoc, <- He. cbn [assign options set_string strings].
    destruct (decide (g = f)) as [->|Hne]; [by rewrite fn_lookup_insert|].
    by rewrite fn_lookup_insert_ne.
  - exists 2. eexists _, st. split; [|split; [done|]].
    + apply parse_line_ignored; [done|apply find_type_none; [done|apply Hk]|apply Hk].
    + split; [done|]. intros f. by rewrite assigned_snoc, He.
Qed.

Lemma strlist_only nm f : (nm, f) ∈ strlist ->
  tab_find intlist nm = None /\ tab_find chrlist nm = None /\ tab_find arrlist nm = None /\
  tab_find strlist nm = Some f.
Proof.
  intros H.
  assert (G : forallb (fun e : list Z * string_field =>
      match tab_find intlist e.1, tab_find chrlist e.1, tab_find arrlist e.1,
            tab_find strlist e.1 with
      | None, None, None, Some g => bool_decide (g = e.2)
      | _, _, _, _ => false
      end) strlist = true) by (vm_compute; reflexivity).
  rewrite forallb_forall in G. specialize (G (nm, f)). rewrite <- list_elem_of_In in G.
  specialize (G H). cbn [fst snd] in G.
  destruct (tab_find intlist nm), (tab_find chrlist nm), (tab_find arrlist nm),
    (tab_find strlist nm); try done. by apply bool_decide_eq_true in G as ->.
Qed.

(** The answer to a query of a string option. *)
Lemma getopt_string cp nm f o a : (nm, f) ∈ strlist ->
  CPCfgGetopt cp nm o a =
  (s ← deref (strings o f); b ← strcpy_at (value_str a) 0 s; Ret (0, with_str a b)).
Proof. intros (H1 & H2 & H3 & H4)%strlist_only. unfold CPCfgGetopt. by rewrite H1, H2, H3, H4. Qed.

(** C3: Every string option of a file is read back: after a file of option
    lines and skipped lines the query of the option answers with the value of
    the option's last line, or with what it was before; it is undefined when
    the option has never been set, which is null. *)
Theorem config_getopt_roundtrip its st line0 nm f cp a :
  Forall opt_item_ok its -> shaped st -> length line0 = Z.to_nat MAXLENGTH ->
  (nm, f) ∈ strlist ->
  let file := crlf_text (opt_line <$> its) in
  exists st', CfgParseConfig file (Z.of_nat (length file)) line0 (fun _ => true) st = Ret (0, st') /\
    CPCfgGetopt cp nm (options st') a =
    match assigned f its (strings (options st) f) with
    | Str v => b ← strcpy_at (value_str a) 0 v; Ret (0, with_str a b)
    | _ => Undef
    end.
Proof.
  intros Hi Hs Hb Hf file.
  destruct (parse_items opt_line its (opts_stored st)) with (st := st) (line0 := line0)
    as (st' & E & _ & He); [|by apply opt_line_step|by split|done|].
  { eapply Forall_impl; [exact Hi|]. by intros i (H & Ht & _). }
  exists st'. split; [done|]. rewrite (getopt_string _ _ f), He by done.
  by destruct (assigned f its _).
Qed.

Lemma intlist_only nm addr : (nm, addr) ∈ intlist -> tab_find intlist nm = Some addr.
Proof.
  intros H. unfold intlist, named in *. cbn [fmap list_fmap prod_map fst snd id] in *.
  repeat (apply elem_of_cons in H as [E|H]; [injection E as -> ->; vm_compute; reflexivity|]).
  by apply elem_of_nil in H.
Qed.

(** Numbers read back: the query of a number of a configured server
    answers with the field, in its documented range, for the fields of type
    [short int]; for the fields of type [int] the answer is the field exactly
    when it fits 16 bits. *)
Theorem getopt_number st nm addr cp a :
  configured st -> (nm, addr) ∈ intlist ->
  exists v, CPCfgGetopt cp nm (options st) a = Ret (0, mkAnswer 1 v (value_str a)) /\
    - 2 ^ 15 <= v < 2 ^ 15 /\
    match addr with
    | AtShort f => v = shorts (options st) f /\ short_ok f v
    | AtInt f => v = ints (options st) f <-> - 2 ^ 15 <= ints (options st) f < 2 ^ 15
    end.
Proof.
  intros Hc%configured_typed Hn%intlist_only. unfold CPCfgGetopt. rewrite Hn.
  eexists. split; [done|]. destruct addr as [f|f]; cbn [short_at].
  - pose proof (wt_shorts _ Hc f) as Hf. split; [|done].
    destruct f; cbn in Hf; rewrite ?elem_of_cons, ?elem_of_nil in Hf; lia.
  - pose proof (s16_range (ints (options st) f)). split; [done|]. split; [congruence|apply s16_id].
Qed.

(** ** Instances *)

Definition demo_opts : list opt_item :=
  [Skip (bstr "REM paths"); Opt "LIBPATH" libpath false (bstr ".;C:\DLL");
   Opt "COUNTRY" country true (bstr "049,c:\os2\country.sys"); Opt "LIBPATH" libpath false (bstr "D:\DLL")].

Lemma opt_item_check kw f up v :
  (kw, f, up) ∈ string_options ->
  forallb (fun c => (0 <=? c) && (c <? 256) && negb (is_eol c)) (opt_line (Opt kw f up v)) = true ->
  Z.of_nat (length (opt_line (Opt kw f up v))) < MAXLENGTH ->
  forallb (fun c => (0 <? c) && (c <? 256)) (opt_line (Opt kw f up v)) = true ->
  opt_item_ok (Opt kw f up v).
Proof. intros H1 H2 H3 H4. split; [by apply file_line_check|]. split; [by apply text_check|done]. Qed.

Lemma demo_opts_ok : Forall opt_item_ok demo_opts.
Proof.
  constructor; [split; [by apply file_line_check|split; [by apply text_check|split; reflexivity]]|].
  repeat (apply Forall_cons; split;
    [apply opt_item_check; [apply (bool_decide_unpack _); vm_compute; exact I|vm_compute; reflexivity..]|]).
  apply Forall_nil_2.
Qed.

Lemma config_getopt_roundtrip_witness :
  let file := crlf_text (opt_line <$> demo_opts) in
  exists st', CfgParseConfig file (Z.of_nat (length file)) stale (fun _ => true) demo_cfg = Ret (0, st') /\
    CPCfgGetopt 4096 (bstr "libpath") (options st') (mkAnswer 7 7 (replicate 20 7)) =
    match assigned libpath demo_opts (strings (options demo_cfg) libpath) with
    | Str v => b ← strcpy_at (replicate 20 7) 0 v; Ret (0, with_str (mkAnswer 7 7 (replicate 20 7)) b)
    | _ => Undef
    end.
Proof.
  apply (config_getopt_roundtrip demo_opts demo_cfg stale (bstr "libpath") libpath 4096
    (mkAnswer 7 7 (replicate 20 7)) demo_opts_ok demo_shaped); [reflexivity|].
  apply (bool_decide_unpack _); vm_compute; exact I.
Defined.

Definition numbers_file : list Z :=
  crlf_text [bstr "THREADS=40000"; bstr "MAXWAIT=12"; bstr "CODEPAGE=850,437"].

Definition numbers_cfg : cfg :=
  match CfgParseConfig numbers_file (Z.of_nat (length numbers_file)) stale (fun _ => true) demo_cfg with
  | Ret (_, st) => st
  | _ => demo_cfg
  end.

Lemma numbers_configured : configured numbers_cfg.
Proof.
  assert (H : forallb (fun c => (0 <=? c) && (c <? 256)) (numbers_file ++ stale) = true)
    by (vm_compute; reflexivity).
  apply bytes_check, Forall_app in H as [Hf Hs].
  apply (conf_parse demo_cfg numbers_file (Z.of_nat (length numbers_file)) stale (fun _ => true) 0);
    [by apply (conf_init (fun _ => true))|done|done|].
  assert (B : match CfgParseConfig numbers_file (Z.of_nat (length numbers_file)) stale
      (fun _ => true) demo_cfg with Ret (rc, _) => rc =? 0 | _ => false end = true)
    by (vm_compute; reflexivity).
  unfold numbers_cfg. destruct (CfgParseConfig _ _ _ _ _) as [[rc st]| | |]; try discriminate B.
  by apply Z.eqb_eq in B as ->.
Qed.

Lemma options_well_typed_witness : well_typed (options numbers_cfg).
Proof. apply (options_well_typed numbers_cfg numbers_configured). Defined.

Lemma getopt_number_witness :
  exists v, CPCfgGetopt 4096 (bstr "maxwait") (options numbers_cfg) (mkAnswer 0 0 []) =
      Ret (0, mkAnswer 1 v []) /\ - 2 ^ 15 <= v < 2 ^ 15 /\
    v = shorts (options numbers_cfg) maxwait /\ short_ok maxwait v.
Proof.
  apply (getopt_number numbers_cfg (bstr "maxwait") (AtShort maxwait) 4096 (mkAnswer 0 0 [])
    numbers_configured). apply (bool_decide_unpack _); vm_compute; exact I.
Defined.

(** THREADS=40000 is read back as a negative number. *)
Example threads_truncated :
  CPCfgGetopt 4096 (bstr "threads") (options numbers_cfg) (mkAnswer 0 0 []) =
    Ret (0, mkAnswer 1 (-25536) []).
Proof. vm_compute. reflexivity. Qed.

(** The code page is answered with the bytes of its address. *)
Example codepage_address :
  CPCfgGetopt 1193046 (bstr "codepage") (options numbers_cfg) (mkAnswer 0 0 (replicate 9 7)) =
    Ret (0, mkAnswer 0 0 [86; 52; 18; 0; 7; 7; 7; 7; 7]).
Proof. vm_compute. reflexivity. Qed.

(** SWAPPATH cannot be asked for: the table has another name for it. *)
Example swappath_unknown cp o a : CPCfgGetopt cp (bstr "swappath") o a = Ret (1, a).
Proof. reflexivity. Qed.
