(* ===== verification/KalPath.v ===== *)
(** * File names in a program
      ([OS2/Server/platform/l4env/.../os2app/server/src/kal/kal.c, util.c])

    The calls of the library KAL that take a file name complete it with the
    current disk and directory, which they ask the servers for, before they
    pass it to the file server.  The servers' part is the class [Session], what
    is relied on of it the class [SessionLaws]; the calls of the OS/2 server in
    [Os2Api] and of the file server in [FsRouter] are an instance.  A call that
    passes a completed name on is given the stub of the file server as a
    function [send] of the selector in the register fs, of the name and of the
    servers' state. *)
From S2P Require Import Prelude CfgParser PathSearch ProcMgr Os2Api FsRouter.

Definition ERROR_INVALID_FUNCTION : Z := 1.
Definition ERROR_FILENAME_EXCED_RANGE : Z := 206.

(** ** util.c *)

Definition char_to_disknum (chr_dsk : Z) : Z := toupper chr_dsk - ch "A"%char + 1.
Definition disknum_to_char (i_dsk : Z) : Z := u8 (ch "A"%char + toupper i_dsk - 1).

Definition is_slash (c : Z) : bool := (c =? backslash) || (c =? ch "/"%char).

(** [path] is the buffer with the string. *)
Definition isRelativePath (path : list Z) : C bool := c ← rd8 path 0; Ret (negb (is_slash c)).

Definition parse_drv (path : list Z) : C Z :=
  c0 ← rd8 path 0;
  if c0 =? 0 then Ret 0
  else
    c1 ← rd8 path 1;
    if c1 =? ch ":"%char then Ret c0 else Ret 0.

(** [strncpy]: at most [n] characters, and zeros up to [n]. *)
Definition strncpy_at (b s : list Z) (n : nat) : C (list Z) :=
  wr_bytes b 0 (take n s ++ replicate (n - length s) 0).

(** [strncat]: at most [n] characters and a zero. *)
Definition strncat_at (b s : list Z) (n : nat) : C (list Z) := strcat_at b (take n s).

Definition parse_path (path ret_buffer : list Z) (buf_len : nat) : C (list Z) :=
  drive ← parse_drv path;
  s ← cstr (if drive =? 0 then path else drop 2 path);
  strncpy_at ret_buffer s buf_len.

(** ** The servers *)

(** The calls made through IPC: the drive map; the current disk; the current
    directory of a disk, given the map, the buffer and its size, with the buffer
    and the size of the string returned; and the calls that set them. *)
Class Session (S : Type) := {
  FSClientGetDriveMap : S -> C (Z * Z * S);
  CPClientQueryCurrentDisk : S -> C (Z * Z);
  CPClientQueryCurrentDir : Z -> Z -> list Z -> Z -> S -> C (Z * list Z * Z);
  CPClientSetCurrentDir : list Z -> S -> C (Z * S);
  CPClientSetDefaultDisk : Z -> Z -> S -> C (Z * S)
}.

Section kal.
Context {S : Type} `{Session S}.
(** The selectors that [KalEnter] and [KalQuit] load. *)
Variables old_sel tib_sel : Z.

(** The register fs and the servers. *)
Record kst := mkKst { fs : Z; srv : S }.
Definition KalEnter (st : kst) : kst := mkKst old_sel (srv st).
Definition KalQuit (st : kst) : kst := mkKst tib_sel (srv st).

(** What is stored at [pdisknum] and [plogical] comes with the return code. *)
Definition KalQueryCurrentDisk (st : kst) : C (Z * Z * Z * kst) :=
  let st := KalEnter st in
  '(rc, map, s) ← FSClientGetDriveMap (srv st);
  let st := mkKst (fs st) s in
  if negb (rc =? 0) then Ret (rc, 0, map, KalQuit st)
  else
    '(rc, disk) ← CPClientQueryCurrentDisk (srv st);
    Ret (rc, disk, map, KalQuit st).

Definition KalSetCurrentDir (pszDir : list Z) (st : kst) : C (Z * kst) :=
  let st := KalEnter st in
  '(rc, s) ← CPClientSetCurrentDir pszDir (srv st);
  Ret (rc, KalQuit (mkKst (fs st) s)).

Definition KalSetDefaultDisk (disknum : Z) (st : kst) : C (Z * kst) :=
  let st := KalEnter st in
  '(rc, map, s) ← FSClientGetDriveMap (srv st);
  let st := mkKst (fs st) s in
  if negb (rc =? 0) then Ret (rc, KalQuit st)
  else
    '(rc, s) ← CPClientSetDefaultDisk disknum map (srv st);
    Ret (rc, KalQuit (mkKst (fs st) s)).

(** The buffer at [pBuf] and the size at [pcbBuf]. *)
Definition KalQueryCurrentDir (disknum : Z) (pBuf : list Z) (pcbBuf : Z) (st : kst)
    : C (Z * list Z * Z * kst) :=
  let st := KalEnter st in
  '(rc, map, s) ← FSClientGetDriveMap (srv st);
  let st := mkKst (fs st) s in
  if negb (rc =? 0) then Ret (rc, pBuf, pcbBuf, KalQuit st)
  else
    '(rc, buf, len) ← CPClientQueryCurrentDir disknum map pBuf pcbBuf (srv st);
    if negb (rc =? 0) then Ret (rc, buf, len, KalQuit st)
    else
      buf ← wr8 buf (len - 1) 0;
      Ret (NO_ERROR, buf, len, KalQuit st).

(** ** Opening a file *)

Definition zeros (n : nat) : list Z := replicate n 0.

(** The name for the file server, made of the drive number, the name without
    its drive and the directory in [dir_buf2] of size [dirbuf_len2].  The second
    [if] of the code asks again whether the path is relative; inside it is a
    test that is never true. *)
Definition build_name (drv : Z) (path dir_buf2 : list Z) (dirbuf_len2 : Z) : C (list Z) :=
  out ← strncat_at (zeros 100) [disknum_to_char drv] 1;
  rel ← isRelativePath path;
  p ← cstr path;
  if rel : bool then
    out ← strncat_at out [ch ":"%char; backslash] 2;
    d ← cstr dir_buf2;
    out ← strncat_at out d (Z.to_nat dirbuf_len2);
    out ← (if bool_decide (d = []) then Ret out
           else r ← isRelativePath dir_buf2;
                if r : bool then strncat_at out [backslash] 1 else Ret out);
    strncat_at out p (length p)
  else
    out ← strncat_at out [ch ":"%char] 2;
    strncat_at out p (length p).

(** [pszFileName] is the string. *)
Definition KalOpenL (send : Z -> list Z -> S -> C (Z * S)) (pszFileName : list Z) (st : kst)
    : C (Z * kst) :=
  let st := KalEnter st in
  '(rc, dsknum, _, st) ← KalQueryCurrentDisk st;
  if negb (rc =? 0) then Ret (rc, KalQuit st)
  else
    '(rc, _, _, st) ← KalQueryCurrentDir dsknum (zeros 100) 100 st;
    if negb (rc =? 0) then Ret (rc, KalQuit st)
    else
      drive ← parse_drv (pszFileName ++ [0]);
      path ← parse_path (pszFileName ++ [0]) (zeros 100) 99;
      let drv := u8 (char_to_disknum (if drive =? 0 then disknum_to_char dsknum else drive)) in
      '(rc, dir_buf2, dirbuf_len2, st) ← KalQueryCurrentDir drv (zeros 100) 100 st;
      if negb (rc =? 0) then Ret (rc, KalQuit st)
      else
        dir_buf_out ← build_name drv path dir_buf2 dirbuf_len2;
        name ← cstr dir_buf_out;
        '(rc, s) ← send (fs st) name (srv st);
        Ret (rc, KalQuit (mkKst (fs st) s)).

(** ** Searches, queries and programs *)

(** The bytes that an array has before it is written. *)
Variable garbage : nat -> list Z.

(** The name in [str], an array of [cap] bytes, for a name without a drive;
    [buf] holds the current directory and [len] the size of its string.  [i] is
    2, or 3 after the backslash is written. *)
Definition prefix_dir (str : list Z) (pszFileSpec buf : list Z) (len : Z) : C (list Z) :=
  c ← rd8 (pszFileSpec ++ [0]) 0;
  if c =? backslash then Ret str
  else
    str ← wr8 str 2 backslash;
    str ← wr8 str 3 0;
    d ← cstr buf;
    str ← strcat_at str d;
    c ← rd8 str (len + 3 - 2);
    '(str, len) ←
      (if c =? backslash then Ret (str, len)
       else str ← wr8 str (len + 3 - 1) backslash; Ret (str, len + 1));
    wr8 str (len + 3 - 1) 0.

(** What [KalFindFirst], [KalQueryPathInfo] and [KalExecPgm] do to a name
    without a drive: the return code, and the array with the complete name, if
    the name is not too long.  [checks] says whether the result of
    [KalQueryCurrentDisk] is looked at. *)
Definition complete (cap : nat) (checks : bool) (pszFileSpec : list Z) (st : kst)
    : C (Z * option (list Z) * kst) :=
  '(rc, disk, _, st) ← KalQueryCurrentDisk st;
  if checks && negb (rc =? 0) then Ret (rc, None, KalQuit st)
  else
    _ ← require (rc =? 0);
    let drv := u8 (disk - 1 + ch "A"%char) in
    buf ← wr8 (garbage cap) 0 0;
    c ← rd8 (pszFileSpec ++ [0]) 0;
    '(rc, buf, len, st) ←
      (if c =? backslash then Ret (0, buf, 0, st)
       else
         '(rc, buf, len, st) ← KalQueryCurrentDir 0 buf 0 st;
         if negb (rc =? 0) then Ret (rc, buf, len, KalQuit st)
         else KalQueryCurrentDir 0 buf len st);
    if negb (rc =? 0) then Ret (rc, None, KalQuit st)
    else if 256 <? u32 (len + Z.of_nat (length pszFileSpec) + 3) then
      Ret (ERROR_FILENAME_EXCED_RANGE, None, st)
    else
      str ← wr8 (garbage cap) 0 drv;
      str ← wr8 str 1 (ch ":"%char);
      str ← wr8 str 2 0;
      str ← prefix_dir str pszFileSpec buf len;
      str ← strcat_at str pszFileSpec;
      Ret (0, Some str, st).

(** [pszFileSpec[1] != ':'].  A name that is empty has no second character. *)
Definition no_drive (pszFileSpec : list Z) : C bool :=
  c ← rd8 (pszFileSpec ++ [0]) 1; Ret (negb (c =? ch ":"%char)).

(** [KalFindFirst] with an array of 256 bytes and [KalQueryPathInfo] with one of
    260 are this text. *)
Definition with_name (cap : nat) (send : Z -> list Z -> S -> C (Z * S)) (pszFileSpec : list Z)
    (st : kst) : C (Z * kst) :=
  let st := KalEnter st in
  b ← no_drive pszFileSpec;
  '(rc, s, st) ← (if b : bool then complete cap false pszFileSpec st
                  else Ret (0, Some (pszFileSpec ++ [0]), st));
  match s with
  | None => Ret (rc, st)
  | Some s =>
      name ← cstr s;
      '(rc, s) ← send (fs st) name (srv st);
      Ret (rc, KalQuit (mkKst (fs st) s))
  end.
Definition KalFindFirst := with_name 256.
Definition KalQueryPathInfo := with_name 260.

(** [strstr(s, w) != NULL]. *)
Fixpoint contains (w s : list Z) : bool :=
  bool_decide (w `prefix_of` s) ||
  match s with [] => false | _ :: s => contains w s end.

Definition dot_exe : list Z := bstr ".exe".

(** Only a name that is completed gets the extension. *)
Definition KalExecPgm (execFlag : Z) (send : Z -> list Z -> S -> C (Z * S)) (pName : list Z)
    (st : kst) : C (Z * kst) :=
  let st := KalEnter st in
  if 6 <? execFlag then Ret (ERROR_INVALID_FUNCTION, st)
  else
    b ← no_drive pName;
    '(rc, s, st) ←
      (if b : bool then
         '(rc, s, st) ← complete 260 true pName st;
         match s with
         | None => Ret (rc, None, st)
         | Some str =>
             n ← cstr str;
             str ← (if contains dot_exe n then Ret str else strcat_at str dot_exe);
             Ret (rc, Some str, st)
         end
       else Ret (0, Some (pName ++ [0]), st));
    match s with
    | None => Ret (rc, st)
    | Some s =>
        name ← cstr s;
        '(rc, s) ← send (fs st) name (srv st);
        Ret (rc, KalQuit (mkKst (fs st) s))
    end.

End kal.

(** ** Buffers that hold strings *)

Lemma wr8_over b i v : Z.of_nat (length b) <= i -> wr8 b i v = Undef.
Proof. intros H. unfold wr8. destruct (Z.ltb_spec i (Z.of_nat (length b))); [lia|by rewrite andb_false_r]. Qed.

Lemma wr_bytes_over s : forall b i, Z.of_nat (length b) < i + Z.of_nat (length s) -> s <> [] ->
  wr_bytes b i s = Undef.
Proof.
  induction s as [|c s IH]; intros b i Hl Hs; [done|]. cbn [wr_bytes length] in *.
  destruct (wr8 b i c) as [b'| | |] eqn:E; [|by unfold wr8 in E; destruct (_ && _)|done
    |by unfold wr8 in E; destruct (_ && _)].
  cbn [mbind C_bind]. assert (i < Z.of_nat (length b)).
  { destruct (Z.lt_ge_cases i (Z.of_nat (length b))); [done|]. by rewrite wr8_over in E. }
  apply wr8_length in E. destruct s as [|c2 s]; [cbn in Hl; lia|]. apply IH; [|done].
  rewrite E. cbn [length] in *. lia.
Qed.

(** [strcat] in full: the result, or a store behind the buffer. *)
Lemma strcat_cases b d s : holds_str b d -> text s ->
  if (length d + length s <? length b)%nat then
    exists b', strcat_at b s = Ret b' /\ length b' = length b /\ holds_str b' (d ++ s)
  else strcat_at b s = Undef.
Proof.
  intros Hd Hs. unfold strcat_at. rewrite (holds_cstr _ _ Hd). cbn [mbind C_bind].
  destruct Hd as [Hd [r ->]]. unfold strcpy_at.
  destruct (Nat.ltb_spec (length d + length s) (length (d ++ 0 :: r))) as [Hl|Hl].
  - rewrite length_app in Hl. cbn [length] in Hl. set (t := 0 :: r) in *.
    assert (Ht : length t = S (length r)) by done.
    rewrite <- (take_drop (S (length s)) t).
    rewrite (wr_bytes_pre (s ++ [0]) d (take (S (length s)) t) (drop (S (length s)) t));
      [|done|rewrite length_app, length_take; cbn [length]; lia|].
    + eexists. split; [done|]. split; [rewrite !length_app, length_take; cbn [length]; lia|].
      split; [by apply text_app|]. eexists. by rewrite <- !app_assoc.
    + apply Forall_app. split; [by apply text_bytes|]. apply Forall_singleton. unfold is_byte. lia.
  - apply wr_bytes_over; [|by destruct s]. rewrite !length_app in *. cbn [length] in *. lia.
Qed.

Lemma strcat_fits b d s : holds_str b d -> text s -> (length d + length s < length b)%nat ->
  exists b', strcat_at b s = Ret b' /\ length b' = length b /\ holds_str b' (d ++ s).
Proof. intros Hd Hs Hl. pose proof (strcat_cases b d s Hd Hs) as H. by apply Nat.ltb_lt in Hl as E; rewrite E in H. Qed.

Lemma strcat_over b d s : holds_str b d -> text s -> (length b <= length d + length s)%nat ->
  strcat_at b s = Undef.
Proof. intros Hd Hs Hl. pose proof (strcat_cases b d s Hd Hs) as H. by apply Nat.ltb_ge in Hl as E; rewrite E in H. Qed.

Lemma zeros_empty n : holds_str (zeros (S n)) [].
Proof. split; [constructor|]. by exists (zeros n). Qed.

Lemma text_snoc d c : text d -> 0 < c < 256 -> text (d ++ [c]).
Proof. intros Hd Hc. apply text_app. split; [done|]. by apply Forall_singleton. Qed.

(** [strncpy] into zeros. *)
Lemma strncpy_zeros s n k : text s -> (n < k)%nat ->
  strncpy_at (zeros k) s n = Ret (take n s ++ zeros (k - length (take n s))).
Proof.
  intros Hs Hk. unfold strncpy_at, zeros.
  replace k with (n + (k - n))%nat at 1 by lia. rewrite replicate_add.
  assert (Hl : length (take n s ++ replicate (n - length s) 0) = n)
    by (rewrite length_app, length_take, length_replicate; lia).
  pose proof (wr_bytes_pre (take n s ++ replicate (n - length s) 0) [] (replicate n 0)
    (replicate (k - n) 0) 0 eq_refl) as E. cbn [app] in E. rewrite E.
  - rewrite <- app_assoc, <- replicate_add. repeat f_equal. rewrite length_take. lia.
  - by rewrite Hl, length_replicate.
  - apply Forall_app. split; [by apply text_bytes, Forall_take|]. apply Forall_replicate.
    unfold is_byte. lia.
Qed.

(** ** What is relied on of the servers *)

(** What a program sees of the servers: the drive map, the current disk and the
    current directory of each disk, if it exists. *)
Class SessionView (S : Type) := {
  session_ok : S -> Prop;
  drive_map : S -> Z;
  cur_disk : S -> Z;
  cur_dir : S -> Z -> option (list Z)
}.

Definition same_view {S} `{SessionView S} (s s' : S) : Prop :=
  session_ok s' /\ drive_map s' = drive_map s /\ cur_disk s' = cur_disk s /\
  cur_dir s' = cur_dir s.

(** The disk 0 is the current one; a size of 0 is not compared with the
    directory. *)
Class SessionLaws (S : Type) `{Session S} `{SessionView S} := {
  drive_map_law s : session_ok s -> exists s',
    FSClientGetDriveMap s = Ret (NO_ERROR, drive_map s, s') /\ same_view s s';
  cur_disk_law s : session_ok s ->
    CPClientQueryCurrentDisk s = Ret (NO_ERROR, cur_disk s) /\ 1 <= cur_disk s <= 26;
  cur_dir_law s disk d buf cb : session_ok s ->
    cur_dir s (if disk =? 0 then cur_disk s else disk) = Some d ->
    text d /\
    ((cb = 0 \/ Z.of_nat (length d) < cb) -> (length d < length buf)%nat ->
     exists buf', CPClientQueryCurrentDir disk (drive_map s) buf cb s =
       Ret (NO_ERROR, buf', Z.of_nat (length d) + 1) /\
     length buf' = length buf /\ holds_str buf' d)
}.

(** ** The complete name *)

Definition relative (p : list Z) : bool := match p with c :: _ => negb (is_slash c) | [] => true end.

(** The drive letter of a name, and what follows. *)
Definition split_drive (nm : list Z) : option Z * list Z :=
  match nm with
  | c :: c1 :: r => if c1 =? ch ":"%char then (Some c, r) else (None, nm)
  | _ => (None, nm)
  end.

(** A directory, a backslash unless it is empty or begins with a slash, and the
    name. *)
Definition in_dir (d p : list Z) : list Z :=
  d ++ (if bool_decide (d = []) then [] else if relative d then [backslash] else []) ++ p.

Definition full_name (letter : Z) (d p : list Z) : list Z :=
  letter :: ch ":"%char :: (if relative p then backslash :: in_dir d p else p).

Definition letter_of (disk : Z) : Z := ch "A"%char + disk - 1.

Lemma holds_text b d : holds_str b d -> text d.
Proof. by intros []. Qed.

Lemma is_relative_spec b p : holds_str b p -> isRelativePath b = Ret (relative p).
Proof.
  intros [Hp [r ->]]. unfold isRelativePath. destruct p as [|c p]; [done|].
  by inversion_clear Hp.
Qed.

Lemma parse_drv_spec nm : text nm ->
  parse_drv (nm ++ [0]) = Ret (default 0 (split_drive nm).1).
Proof.
  intros Ht. unfold parse_drv. destruct nm as [|c [|c1 nm]]; [done| |];
    inversion_clear Ht as [|? ? Hc _].
  - change (rd8 ([c] ++ [0]) 0) with (Ret c). change (rd8 ([c] ++ [0]) 1) with (Ret 0).
    cbn [mbind C_bind]. by destruct (Z.eqb_spec c 0); [lia|].
  - change (rd8 ((c :: c1 :: nm) ++ [0]) 0) with (Ret c).
    change (rd8 ((c :: c1 :: nm) ++ [0]) 1) with (Ret c1). cbn [mbind C_bind split_drive].
    destruct (Z.eqb_spec c 0); [lia|]. by destruct (c1 =? ch ":"%char).
Qed.

Lemma split_drive_text nm : text nm -> text (split_drive nm).2 /\
  match (split_drive nm).1 with
  | Some c => nm = c :: ch ":"%char :: (split_drive nm).2 /\ 0 < c < 256
  | None => (split_drive nm).2 = nm
  end.
Proof.
  intros Ht. destruct nm as [|c [|c1 nm]]; [done..|]. cbn [split_drive].
  destruct (Z.eqb_spec c1 (ch ":"%char)) as [->|Hne]; [|done]. cbn [fst snd].
  inversion_clear Ht as [|? ? Hc Ht']. inversion_clear Ht' as [|? ? _ Hn]. done.
Qed.

Lemma parse_path_spec nm : text nm ->
  parse_path (nm ++ [0]) (zeros 100) 99 =
    Ret (take 99 (split_drive nm).2 ++ zeros (100 - length (take 99 (split_drive nm).2))).
Proof.
  intros Ht. unfold parse_path. rewrite parse_drv_spec by done. cbn [mbind C_bind].
  destruct (split_drive_text nm Ht) as [Hr Hd].
  destruct ((split_drive nm).1) as [c|]; cbn [from_option id].
  - destruct Hd as [Hn Hc]. destruct (Z.eqb_spec c 0); [lia|].
    rewrite Hn at 1. cbn [app drop]. rewrite drop_0, cstr_text by done. cbn [mbind C_bind].
    apply strncpy_zeros; [done|lia].
  - change (0 =? 0) with true. cbv iota. rewrite <- Hd at 1. rewrite cstr_text by done.
    cbn [mbind C_bind]. apply strncpy_zeros; [done|lia].
Qed.

(** *** A sequence of [strcat] *)

Fixpoint cats (b : list Z) (ss : list (list Z)) : C (list Z) :=
  match ss with [] => Ret b | s :: ss => b ← strcat_at b s; cats b ss end.

Lemma holds_length b d : holds_str b d -> (length d < length b)%nat.
Proof. intros [_ [r ->]]. rewrite length_app. cbn. lia. Qed.

Lemma cats_cases ss : forall b d, holds_str b d -> Forall text ss ->
  if (length d + length (mjoin ss) <? length b)%nat then
    exists b', cats b ss = Ret b' /\ length b' = length b /\ holds_str b' (d ++ mjoin ss)
  else cats b ss = Undef.
Proof.
  induction ss as [|s ss IH]; intros b d Hd Hs; cbn [cats mjoin list_join].
  - cbn [length]. rewrite Nat.add_0_r. pose proof (holds_length _ _ Hd) as Hl.
    apply Nat.ltb_lt in Hl as ->. exists b. by rewrite app_nil_r.
  - apply Forall_cons in Hs as [Hs Hss]. pose proof (strcat_cases b d s Hd Hs) as H.
    rewrite length_app. destruct (Nat.ltb_spec (length d + length s) (length b)) as [Hl|Hl].
    + destruct H as (b1 & -> & Hl1 & H1). cbn [mbind C_bind]. specialize (IH b1 (d ++ s) H1 Hss).
      rewrite length_app, Hl1, <- app_assoc in IH.
      rewrite Nat.add_assoc.
      destruct (_ <? _)%nat; [|done]. destruct IH as (b' & E & Hb' & H'). by exists b'.
    + rewrite H, Nat.add_assoc. case_match eqn:E; [|done]. apply Nat.ltb_lt in E. lia.
Qed.

Lemma disknum_letter disk : 1 <= disk <= 26 -> disknum_to_char disk = letter_of disk.
Proof.
  intros Hd. unfold disknum_to_char, letter_of, toupper. change (ch "A"%char) with 65.
  destruct (Z.leb_spec 97 disk); [lia|]. cbn. rewrite u8_id; [lia|]. unfold is_byte. lia.
Qed.

Lemma letter_text disk : 1 <= disk <= 26 -> text [letter_of disk].
Proof. intros Hd. apply Forall_singleton. unfold letter_of. change (ch "A"%char) with 65. lia. Qed.

Lemma strncat_all b s n : (length s <= n)%nat -> strncat_at b s n = strcat_at b s.
Proof. intros Hn. unfold strncat_at. by rewrite take_ge. Qed.

Lemma bind_ret_r {A} (m : C A) : (x ← m; Ret x) = m.
Proof. by destruct m. Qed.

(** The appends of [KalOpenL]: the complete name, or a store behind the 100
    bytes of the buffer. *)
Lemma build_name_cases disk path p buf d : 1 <= disk <= 26 ->
  holds_str path p -> holds_str buf d ->
  if (length (full_name (letter_of disk) d p) <? 100)%nat then
    exists out, build_name disk path buf (Z.of_nat (length d) + 1) = Ret out /\
      holds_str out (full_name (letter_of disk) d p)
  else build_name disk path buf (Z.of_nat (length d) + 1) = Undef.
Proof.
  intros Hk Hp Hd. pose proof (holds_text _ _ Hp) as Tp. pose proof (holds_text _ _ Hd) as Td.
  set (ss := [letter_of disk] ::
    (if relative p then
       [ch ":"%char; backslash] :: d ::
       ((if bool_decide (d = []) then [] else if relative d then [[backslash]] else []) ++ [p])
     else [[ch ":"%char]; p])).
  assert (Ess : mjoin ss = full_name (letter_of disk) d p).
  { unfold ss, full_name, in_dir. destruct (relative p); cbn; rewrite ?app_nil_r; [|done].
    repeat f_equal. destruct (bool_decide (d = [])); [|destruct (relative d)]; cbn; by rewrite app_nil_r. }
  assert (E : build_name disk path buf (Z.of_nat (length d) + 1) = cats (zeros 100) ss).
  { unfold build_name, ss. cbn [cats]. rewrite disknum_letter by done.
    rewrite strncat_all by done. destruct (strcat_at (zeros 100) _) as [out| | |]; [|done..].
    cbn [mbind C_bind]. rewrite (is_relative_spec _ _ Hp), (holds_cstr _ _ Hp). cbn [mbind C_bind].
    destruct (relative p); cbn [cats]; rewrite strncat_all by (cbn; lia);
      destruct (strcat_at out _) as [o2| | |]; try done; cbn [mbind C_bind].
    - rewrite (holds_cstr _ _ Hd). cbn [mbind C_bind]. rewrite strncat_all by lia.
      destruct (strcat_at o2 d) as [o3| | |]; try done. cbn [mbind C_bind].
      destruct (bool_decide (d = [])); [cbn [mbind C_bind app cats]; by rewrite strncat_all, bind_ret_r|].
      rewrite (is_relative_spec _ _ Hd). cbn [mbind C_bind].
      destruct (relative d); cbn [app cats mbind C_bind].
      + rewrite strncat_all by (cbn; lia). destruct (strcat_at o3 [backslash]) as [o4| | |]; try done.
        cbn [mbind C_bind]. by rewrite strncat_all, bind_ret_r.
      + by rewrite strncat_all, bind_ret_r.
    - by rewrite strncat_all, bind_ret_r. }
  rewrite E. pose proof (cats_cases ss (zeros 100) [] (zeros_empty 99)) as H.
  cbn [length app] in H. rewrite Ess in H. change (length (zeros 100)) with 100%nat in H.
  cbn [Nat.add] in H.
  assert (Ht : Forall text ss).
  { unfold ss. apply Forall_cons. split; [by apply letter_text|].
    destruct (relative p); [|by repeat constructor].
    repeat (apply Forall_cons; split; [first [done|by apply text_check]|]).
    apply Forall_app. split; [|by apply Forall_singleton].
    destruct (bool_decide (d = [])); [constructor|]. destruct (relative d); [|constructor].
    apply Forall_singleton. by apply text_check. }
  specialize (H Ht). destruct (_ <? _)%nat; [|done]. destruct H as (out & -> & _ & Ho). by exists out.
Qed.

(** *** Single characters *)

Lemma end_again b d : holds_str b d -> wr8 b (Z.of_nat (length d)) 0 = Ret b.
Proof. intros [_ [r ->]]. by rewrite wr8_pre. Qed.

Lemma put_char b d c : holds_str b d -> (S (length d) < length b)%nat -> 0 < c < 256 ->
  exists b', (b ← wr8 b (Z.of_nat (length d)) c; wr8 b (Z.of_nat (length d) + 1) 0) = Ret b' /\
    length b' = length b /\ holds_str b' (d ++ [c]).
Proof.
  intros [Hd [r ->]] Hl Hc. rewrite length_app in Hl. destruct r as [|x r]; [cbn in Hl; lia|].
  rewrite wr8_pre by done. cbn [mbind C_bind]. rewrite u8_id by (unfold is_byte; lia).
  replace (d ++ c :: x :: r) with ((d ++ [c]) ++ x :: r) by (by rewrite <- app_assoc).
  rewrite wr8_pre by (rewrite length_app; cbn; lia). eexists. split; [done|].
  split; [rewrite !length_app; cbn; lia|]. split; [by apply text_snoc|by exists r].
Qed.

Lemma holds_last b d c : holds_str b (d ++ [c]) -> rd8 b (Z.of_nat (length d)) = Ret c.
Proof. intros [_ [r ->]]. rewrite <- app_assoc. by apply rd8_pre. Qed.

(** The name that searches, queries and programs are asked for with. *)
Definition found_name (letter : Z) (d nm : list Z) : list Z :=
  letter :: ch ":"%char ::
  (if bool_decide (head nm = Some backslash) then nm
   else backslash :: d ++
     (if bool_decide (last (backslash :: d) = Some backslash) then [] else [backslash]) ++ nm).

(** The size of the directory that a name is completed with, 0 if none is. *)
Definition dir_size (d nm : list Z) : Z :=
  if bool_decide (head nm = Some backslash) then 0 else Z.of_nat (length d) + 1.

Lemma prefix_dir_spec str cap letter d nm buf : text nm -> nm <> [] ->
  holds_str str [letter; ch ":"%char] -> length str = cap ->
  (head nm <> Some backslash -> holds_str buf d) ->
  dir_size d nm + Z.of_nat (length nm) + 3 <= 256 -> (256 <= cap)%nat ->
  exists str', prefix_dir str nm buf (dir_size d nm) = Ret str' /\
    length str' = cap /\
    holds_str str' (take (length (found_name letter d nm) - length nm) (found_name letter d nm)).
Proof.
  intros Hn Hne Hs Hc Hb Hl H256. unfold prefix_dir, found_name, dir_size in *.
  destruct nm as [|x nm]; [done|]. change (rd8 ((x :: nm) ++ [0]) 0) with (Ret x). cbn [mbind C_bind head].
  destruct (Z.eqb_spec x backslash) as [->|Hx].
  { rewrite bool_decide_true by done. exists str. split; [done|]. split; [done|].
    replace (_ - _)%nat with 2%nat by (cbn [length]; lia). done. }
  assert (Hx' : head (x :: nm) <> Some backslash) by (cbn; congruence). specialize (Hb Hx').
  cbn [head] in *. rewrite bool_decide_false in * by congruence.
  assert (Hbs : 0 < backslash < 256) by (unfold backslash; vm_compute; done).
  destruct (put_char str [letter; ch ":"%char] backslash Hs) as (s1 & E1 & L1 & G1); [cbn; lia|done|].
  change (Z.of_nat (length [letter; ch ":"%char])) with 2 in E1. change (2 + 1) with 3 in E1.
  destruct (wr8 str 2 backslash) as [s0| | |]; try done. cbn [mbind C_bind] in E1 |- *. rewrite E1.
  cbn [mbind C_bind app] in *. rewrite (holds_cstr _ _ Hb). cbn [mbind C_bind].
  destruct (strcat_fits s1 _ d G1 (holds_text _ _ Hb)) as (s2 & -> & L2 & G2); [cbn [length]; lia|].
  cbn [mbind C_bind app] in *. set (q := letter :: ch ":"%char :: backslash :: d) in *.
  assert (Eq : exists q' c, q = q' ++ [c] /\ last (backslash :: d) = Some c /\
    Z.of_nat (length q') = Z.of_nat (length d) + 1 + 3 - 2).
  { destruct (exists_last (l := backslash :: d)) as (d' & c & E); [done|].
    exists (letter :: ch ":"%char :: d'), c. split; [by unfold q; rewrite E|].
    rewrite E, last_snoc. split; [done|]. apply (f_equal length) in E. rewrite length_app in E.
    cbn [length] in *. lia. }
  destruct Eq as (q' & c & Eq & El & Hq'). rewrite Eq in G2. rewrite <- Hq', (holds_last _ _ _ G2).
  rewrite El. cbn [mbind C_bind]. rewrite <- Eq in G2.
  assert (Hqlen : Z.of_nat (length q) = Z.of_nat (length d) + 1 + 3 - 1) by (unfold q; cbn [length]; lia).
  destruct (Z.eqb_spec c backslash) as [->|Hcb].
  - rewrite bool_decide_true by done. cbn [mbind C_bind app]. rewrite <- Hqlen, (end_again _ _ G2).
    exists s2. split; [done|]. split; [congruence|].
    assert (Et : (letter :: ch ":"%char :: backslash :: d ++ x :: nm) = q ++ x :: nm) by done.
    rewrite Et, length_app, Nat.add_sub, take_app_length. done.
  - rewrite bool_decide_false by congruence. cbn [mbind C_bind app].
    destruct (put_char s2 q backslash G2) as (s3 & E3 & L3 & G3); [unfold q; cbn [app length] in *; lia|done|].
    rewrite <- Hqlen. destruct (wr8 s2 (Z.of_nat (length q)) backslash) as [s2'| | |]; try done.
    cbn [mbind C_bind] in E3 |- *.
    replace (Z.of_nat (length d) + 1 + 1 + 3 - 1) with (Z.of_nat (length q) + 1) by lia.
    rewrite E3. exists s3. split; [done|]. split; [congruence|].
    assert (Et : (letter :: ch ":"%char :: backslash :: d ++ backslash :: x :: nm) =
      (q ++ [backslash]) ++ x :: nm) by (by rewrite <- app_assoc).
    rewrite Et, length_app, Nat.add_sub, take_app_length. done.
Qed.

(** ** What the calls do *)

Section laws.
Context {S : Type} `{SessionLaws S} (old_sel tib_sel : Z).

(** The servers look the same, and the call has left the host's world. *)
Definition asked (st st' : kst) : Prop := same_view (srv st) (srv st') /\ fs st' = tib_sel.

Lemma same_view_trans s1 s2 s3 : same_view s1 s2 -> same_view s2 s3 -> same_view s1 s3.
Proof. unfold same_view. intuition congruence. Qed.

Lemma query_disk_spec st : session_ok (srv st) ->
  exists st', KalQueryCurrentDisk old_sel tib_sel st =
    Ret (NO_ERROR, cur_disk (srv st), drive_map (srv st), st') /\ asked st st'.
Proof.
  intros Hok. unfold KalQueryCurrentDisk, KalEnter. cbn [srv].
  destruct (drive_map_law _ Hok) as (s' & -> & Hv). cbn [mbind C_bind].
  change (negb (NO_ERROR =? 0)) with false. cbv iota. cbn [srv].
  pose proof Hv as (Hok' & _ & Hc & _). destruct (cur_disk_law _ Hok') as [-> _].
  cbn [mbind C_bind]. rewrite Hc. eexists. split; [done|]. by split.
Qed.

Lemma query_dir_spec st disk d buf cb : session_ok (srv st) ->
  cur_dir (srv st) (if disk =? 0 then cur_disk (srv st) else disk) = Some d ->
  (cb = 0 \/ Z.of_nat (length d) < cb) -> (length d < length buf)%nat ->
  exists buf' st', KalQueryCurrentDir old_sel tib_sel disk buf cb st =
    Ret (NO_ERROR, buf', Z.of_nat (length d) + 1, st') /\
    length buf' = length buf /\ holds_str buf' d /\ asked st st'.
Proof.
  intros Hok Hd Hcb Hl. unfold KalQueryCurrentDir, KalEnter. cbn [srv].
  destruct (drive_map_law _ Hok) as (s' & -> & Hv). cbn [mbind C_bind].
  change (negb (NO_ERROR =? 0)) with false. cbv iota. cbn [srv].
  pose proof Hv as (Hok' & Hm & Hc & Hdir). rewrite <- Hm.
  destruct (cur_dir_law s' disk d buf cb Hok') as [_ (buf' & E & Hl' & Hb)];
    [by rewrite Hdir, Hc|done|done|].
  rewrite E. cbn [mbind C_bind]. change (negb (NO_ERROR =? 0)) with false. cbv iota.
  replace (Z.of_nat (length d) + 1 - 1) with (Z.of_nat (length d)) by lia.
  rewrite (end_again _ _ Hb). cbn [mbind C_bind]. do 2 eexists. split; [done|]. split; [done|]. split; [done|]. by split.
Qed.

(** The disk that a name is on, and the name that the file server is asked
    for. *)
Definition disk_of (s : S) (nm : list Z) : Z :=
  match (split_drive nm).1 with Some c => char_to_disknum c | None => cur_disk s end.

Lemma full_name_length letter d p :
  (2 + length p <= length (full_name letter d p))%nat.
Proof.
  unfold full_name, in_dir. cbn [length]. destruct (relative p); [|lia].
  cbn [length]. rewrite !length_app. lia.
Qed.

Lemma drive_number cur c : 1 <= cur <= 26 ->
  let disk := match c with Some c => char_to_disknum c | None => cur end in
  1 <= disk <= 26 ->
  u8 (char_to_disknum (if default 0 c =? 0 then disknum_to_char cur else default 0 c)) = disk.
Proof.
  intros Hc disk Hd. unfold disk in *. destruct c as [c|]; cbn [from_option id] in *.
  - destruct (Z.eqb_spec c 0) as [->|Hne].
    + change (char_to_disknum 0) with (-64) in Hd. lia.
    + apply u8_id. unfold is_byte. lia.
  - change (0 =? 0) with true. cbv iota. rewrite disknum_letter by done.
    unfold char_to_disknum, letter_of, toupper. change (ch "A"%char) with 65.
    destruct (Z.leb_spec 97 (65 + cur - 1)); [lia|]. cbn [andb].
    rewrite u8_id; [lia|]. unfold is_byte. lia.
Qed.

Lemma open_name_run send nm st d0 d :
  session_ok (srv st) -> text nm ->
  let disk := disk_of (srv st) nm in
  let name := full_name (letter_of disk) d (split_drive nm).2 in
  1 <= disk <= 26 ->
  cur_dir (srv st) (cur_disk (srv st)) = Some d0 -> (length d0 < 100)%nat ->
  cur_dir (srv st) disk = Some d -> (length d < 100)%nat ->
  exists s', same_view (srv st) s' /\
  KalOpenL old_sel tib_sel send nm st =
  if (length name <? 100)%nat
  then '(rc, s) ← send tib_sel name s'; Ret (rc, mkKst tib_sel s)
  else Undef.
Proof.
  intros Hok Ht disk name Hk Hd0 Hl0 Hd Hl. unfold KalOpenL.
  destruct (query_disk_spec (KalEnter old_sel st) Hok) as (st1 & E1 & [V1 F1]).
  cbn [KalEnter srv] in E1, V1. rewrite E1. cbn [mbind C_bind].
  change (negb (NO_ERROR =? 0)) with false. cbv iota.
  pose proof V1 as (Hok1 & _ & Hc1 & Hdir1).
  destruct (cur_disk_law _ Hok) as [_ Hcd].
  destruct (query_dir_spec st1 (cur_disk (srv st)) d0 (zeros 100) 100 Hok1)
    as (b1 & st2 & E2 & _ & _ & [V2 F2]); [|right; lia|done|].
  { destruct (Z.eqb_spec (cur_disk (srv st)) 0); [lia|]. by rewrite Hdir1. }
  rewrite E2. cbn [mbind C_bind]. change (negb (NO_ERROR =? 0)) with false. cbv iota.
  rewrite parse_drv_spec, parse_path_spec by done. cbn [mbind C_bind].
  pose proof (same_view_trans _ _ _ V1 V2) as V12. pose proof V12 as (Hok2 & _ & _ & Hdir2).
  assert (Edisk : u8 (char_to_disknum (if default 0 (split_drive nm).1 =? 0
      then disknum_to_char (cur_disk (srv st)) else default 0 (split_drive nm).1)) = disk).
  { by apply drive_number. }
  rewrite Edisk.
  destruct (query_dir_spec st2 disk d (zeros 100) 100 Hok2)
    as (b2 & st3 & E3 & _ & Hb2 & [V3 F3]); [|right; lia|done|].
  { destruct (Z.eqb_spec disk 0); [lia|]. by rewrite Hdir2. }
  rewrite E3. cbn [mbind C_bind]. change (negb (NO_ERROR =? 0)) with false. cbv iota.
  exists (srv st3). split; [by eapply same_view_trans|].
  destruct (split_drive_text nm Ht) as [Hr _]. set (p := (split_drive nm).2) in *.
  assert (Hp : holds_str (take 99 p ++ zeros (100 - length (take 99 p))) (take 99 p)).
  { split; [by apply Forall_take|]. rewrite length_take.
    exists (zeros (99 - (99 `min` length p))). f_equal. unfold zeros.
    by replace (100 - (99 `min` length p))%nat with (Datatypes.S (99 - (99 `min` length p))) by lia. }
  pose proof (build_name_cases disk _ _ b2 d Hk Hp Hb2) as Hbuild.
  destruct (Nat.ltb_spec (length name) 100) as [Hn|Hn].
  - pose proof (full_name_length (letter_of disk) d p). rewrite take_ge in * by (unfold name in Hn; lia).
    fold name in Hbuild. apply Nat.ltb_lt in Hn as Hn'. rewrite Hn' in Hbuild.
    destruct Hbuild as (out & -> & Ho). cbn [mbind C_bind]. rewrite (holds_cstr _ _ Ho).
    cbn [mbind C_bind]. by rewrite F3.
  - assert (E : (length (full_name (letter_of disk) d (take 99 p)) <? 100)%nat = false).
    { apply Nat.ltb_ge. destruct (Nat.le_gt_cases (length p) 99); [by rewrite take_ge|].
      pose proof (full_name_length (letter_of disk) d (take 99 p)) as H9.
      rewrite length_take in H9. lia. }
    rewrite E in Hbuild. by rewrite Hbuild.
Qed.

(** Opening a file: the name that the file server is asked for is the drive
    of the name or the current one, and the name on it, after the current
    directory of the drive if it is relative.  The call asks with the program's
    selector in fs.  A complete name of 100 bytes or more is stored behind the
    buffer. *)
Theorem open_name send nm st d0 d :
  session_ok (srv st) -> text nm ->
  let disk := disk_of (srv st) nm in
  let name := full_name (letter_of disk) d (split_drive nm).2 in
  1 <= disk <= 26 ->
  cur_dir (srv st) (cur_disk (srv st)) = Some d0 -> (length d0 < 100)%nat ->
  cur_dir (srv st) disk = Some d -> (length d < 100)%nat ->
  exists s', same_view (srv st) s' /\
  KalOpenL old_sel tib_sel send nm st =
  if (length name <? 100)%nat
  then '(rc, s) ← send tib_sel name s'; Ret (rc, mkKst tib_sel s)
  else Undef.
Proof. apply open_name_run. Qed.


Lemma write_drive b l : (3 <= length b)%nat -> 0 < l < 256 ->
  exists b', (b ← wr8 b 0 l; b ← wr8 b 1 (ch ":"%char); wr8 b 2 0) = Ret b' /\
    length b' = length b /\ holds_str b' [l; ch ":"%char].
Proof using.
  intros Hb Hl. destruct b as [|x [|y [|z b]]]; cbn in Hb; try lia.
  pose proof (wr8_pre [] x (y :: z :: b) 0 l eq_refl) as E0.
  pose proof (wr8_pre [u8 l] y (z :: b) 1 (ch ":"%char) eq_refl) as E1.
  pose proof (wr8_pre [u8 l; u8 (ch ":"%char)] z b 2 0 eq_refl) as E2. cbn [app] in E0, E1, E2.
  rewrite E0. cbn [mbind C_bind]. rewrite E1. cbn [mbind C_bind]. rewrite E2.
  rewrite (u8_id l) by (unfold is_byte; lia). change (u8 (ch ":"%char)) with (ch ":"%char).
  change (u8 0) with 0.
  eexists. split; [done|]. split; [done|]. split; [|by exists b].
  repeat (apply Forall_cons; split; [first [done|vm_compute; done]|]). apply Forall_nil_2.
Qed.

Lemma complete_cases garbage cap checks nm st d :
  session_ok (srv st) -> text nm -> nm <> [] ->
  cur_dir (srv st) (cur_disk (srv st)) = Some d -> (length d < cap)%nat -> (256 <= cap)%nat ->
  length (garbage cap) = cap -> Z.of_nat cap + Z.of_nat (length nm) + 4 < 2 ^ 32 ->
  let name := found_name (letter_of (cur_disk (srv st))) d nm in
  exists st', asked st st' /\
  if 256 <? dir_size d nm + Z.of_nat (length nm) + 3 then
    complete old_sel tib_sel garbage cap checks nm st = Ret (ERROR_FILENAME_EXCED_RANGE, None, st')
  else if (length name <? cap)%nat then
    exists str, complete old_sel tib_sel garbage cap checks nm st = Ret (0, Some str, st') /\
      length str = cap /\ holds_str str name
  else complete old_sel tib_sel garbage cap checks nm st = Undef.
Proof.
  intros Hok Ht Hne Hd Hl H256 Hg H32 name. unfold complete.
  destruct (query_disk_spec st Hok) as (st1 & E1 & [V1 F1]). rewrite E1. cbn [mbind C_bind].
  rewrite andb_false_r. change (NO_ERROR =? 0) with true. cbn [require mbind C_bind].
  destruct (cur_disk_law _ Hok) as [_ Hcd]. set (disk := cur_disk (srv st)) in *.
  destruct (garbage cap) as [|g0 g] eqn:Eg; [cbn in Hg; lia|].
  pose proof (wr8_pre [] g0 g 0 0 eq_refl) as Eb. cbn [app] in Eb. rewrite Eb. clear Eb.
  cbn [mbind C_bind]. change (u8 0) with 0.
  destruct nm as [|x nm]; [done|]. change (rd8 ((x :: nm) ++ [0]) 0) with (Ret x). cbn [mbind C_bind].
  assert (Q : exists buf st', asked st st' /\ length buf = cap /\
    (head (x :: nm) <> Some backslash -> holds_str buf d) /\
    (if x =? backslash then Ret (0, 0 :: g, 0, st1)
     else
       '(rc, buf, len, st) ← KalQueryCurrentDir old_sel tib_sel 0 (0 :: g) 0 st1;
       if negb (rc =? 0) then Ret (rc, buf, len, KalQuit tib_sel st)
       else KalQueryCurrentDir old_sel tib_sel 0 buf len st) =
    Ret (0, buf, dir_size d (x :: nm), st')).
  { unfold dir_size. cbn [head]. destruct (Z.eqb_spec x backslash) as [->|Hx].
    { rewrite bool_decide_true by done. exists (0 :: g), st1. split; [by split|]. split; [exact Hg|]. split; [by intros []|done]. }
    rewrite bool_decide_false by congruence.
    pose proof V1 as (Hok1 & _ & Hc1 & Hdir1).
    destruct (query_dir_spec st1 0 d (0 :: g) 0 Hok1) as (b1 & st2 & E2 & L2 & _ & [V2 F2]);
      [cbn; by rewrite Hdir1, Hc1|by left|cbn in *; lia|].
    rewrite E2. cbn [mbind C_bind]. change (negb (NO_ERROR =? 0)) with false. cbv iota.
    pose proof (same_view_trans _ _ _ V1 V2) as V12. pose proof V12 as (Hok2 & _ & Hc2 & Hdir2).
    destruct (query_dir_spec st2 0 d b1 (Z.of_nat (length d) + 1) Hok2)
      as (b2 & st3 & E3 & L3 & Hb3 & [V3 F3]);
      [cbn; by rewrite Hdir2, Hc2|right; lia|rewrite L2; cbn in *; lia|].
    exists b2, st3. split; [split; [by eapply same_view_trans|done]|].
    split; [rewrite L3, L2; cbn in *; lia|]. by split. }
  destruct Q as (buf & st' & Ha & Hbuf & Hbd & ->). cbn [mbind C_bind].
  change (negb (0 =? 0)) with false. cbv iota. exists st'. split; [done|].
  assert (Hsz : 0 <= dir_size d (x :: nm) <= Z.of_nat cap)
    by (unfold dir_size; case_bool_decide; lia).
  rewrite u32_id by (unfold is_u32; lia).
  destruct (Z.ltb_spec 256 (dir_size d (x :: nm) + Z.of_nat (length (x :: nm)) + 3)); [done|].
  assert (Hlt : 0 < letter_of disk < 256).
  { pose proof (letter_text disk Hcd) as Hlt. by inversion_clear Hlt. }
  assert (El : u8 (disk - 1 + ch "A"%char) = letter_of disk).
  { unfold letter_of in *. rewrite u8_id; [lia|unfold is_byte; lia]. }
  rewrite El. destruct (write_drive (g0 :: g) (letter_of disk)) as (s1 & E4 & L4 & G4); [lia|done|].
  destruct (wr8 (g0 :: g) 0 (letter_of disk)) as [s2| | |]; try done. cbn [mbind C_bind] in E4 |- *.
  destruct (wr8 s2 1 (ch ":"%char)) as [s3| | |]; try done. cbn [mbind C_bind] in E4 |- *.
  rewrite E4. cbn [mbind C_bind].
  destruct (prefix_dir_spec s1 cap (letter_of disk) d (x :: nm) buf) as (s5 & -> & L5 & G5);
    [done|done|done|by rewrite L4|done|done|done|].
  fold name in G5. cbn [mbind C_bind].
  pose proof (strcat_cases s5 _ (x :: nm) G5 Ht) as Hcat.
  assert (En : take (length name - length (x :: nm)) name ++ x :: nm = name).
  { unfold name, found_name. cbn [head]. case_bool_decide as Hbs.
    - cbn [length]. by replace (_ - _)%nat with 2%nat by lia.
    - match goal with |- context [bool_decide ?P] => destruct (bool_decide P) end; cbn [app].
      + change (letter_of disk :: ch ":"%char :: backslash :: d ++ x :: nm)
          with ((letter_of disk :: ch ":"%char :: backslash :: d) ++ x :: nm).
        by rewrite length_app, Nat.add_sub, take_app_length.
      + replace (letter_of disk :: ch ":"%char :: backslash :: d ++ backslash :: x :: nm)
          with ((letter_of disk :: ch ":"%char :: backslash :: d ++ [backslash]) ++ x :: nm)
          by (cbn; by rewrite <- app_assoc).
        by rewrite length_app, Nat.add_sub, take_app_length. }
  rewrite En in Hcat. apply (f_equal length) in En as Hlen. rewrite length_app in Hlen.
  rewrite Hlen, L5 in Hcat. destruct (length name <? cap)%nat; [|by rewrite Hcat].
  destruct Hcat as (s6 & -> & L6 & G6). exists s6. split; [done|]. split; [congruence|done].
Qed.

Lemma no_drive_spec nm : text nm -> nm <> [] ->
  no_drive nm = Ret (match (split_drive nm).1 with Some _ => false | None => true end).
Proof using.
  intros Ht Hne. unfold no_drive. destruct nm as [|c [|c1 nm]]; [done|done|].
  change (rd8 ((c :: c1 :: nm) ++ [0]) 1) with (Ret c1). cbn [mbind C_bind split_drive].
  by destruct (c1 =? ch ":"%char).
Qed.

Lemma find_run garbage cap send nm st d :
  session_ok (srv st) -> text nm -> nm <> [] ->
  cur_dir (srv st) (cur_disk (srv st)) = Some d -> (length d < cap)%nat -> (256 <= cap)%nat ->
  length (garbage cap) = cap -> Z.of_nat cap + Z.of_nat (length nm) + 4 < 2 ^ 32 ->
  let name := found_name (letter_of (cur_disk (srv st))) d nm in
  exists s', same_view (srv st) s' /\
  with_name old_sel tib_sel garbage cap send nm st =
  match (split_drive nm).1 with
  | Some _ => '(rc, s) ← send old_sel nm (srv st); Ret (rc, mkKst tib_sel s)
  | None =>
      if 256 <? dir_size d nm + Z.of_nat (length nm) + 3
      then Ret (ERROR_FILENAME_EXCED_RANGE, mkKst tib_sel s')
      else if (length name <? cap)%nat
      then '(rc, s) ← send tib_sel name s'; Ret (rc, mkKst tib_sel s)
      else Undef
  end.
Proof.
  intros Hok Ht Hne Hd Hl H256 Hg H32 name. unfold with_name. rewrite no_drive_spec by done.
  cbn [mbind C_bind]. destruct ((split_drive nm).1).
  - exists (srv st). split; [by repeat split|]. cbn [mbind C_bind]. by rewrite cstr_text.
  - destruct (complete_cases garbage cap false nm (KalEnter old_sel st) d) as (st' & [Hv Hf] & Hc);
      [done..|]. cbn [KalEnter srv] in *. exists (srv st'). split; [done|]. fold name in Hc.
    destruct (256 <? _); [rewrite Hc; cbn; by rewrite <- Hf; destruct st'|].
    destruct (length name <? cap)%nat; [|by rewrite Hc].
    destruct Hc as (str & -> & _ & Hs). cbn [mbind C_bind]. rewrite (holds_cstr _ _ Hs).
    cbn [mbind C_bind]. by rewrite Hf.
Qed.

(** Searches and queries of a path: a name with a drive is passed on as it
    is, also when it is relative; another name is completed with the current
    disk and directory.  A name is refused when it and the directory have more
    than 252 characters; the call then stays in the host's world with the
    program's selector.  A complete name as long as the array ([cap] is 256 for
    a search, where it happens, and 260 for a query) is stored behind it. *)
Theorem find_name garbage cap send nm st d :
  session_ok (srv st) -> text nm -> nm <> [] ->
  cur_dir (srv st) (cur_disk (srv st)) = Some d -> (length d < cap)%nat -> (256 <= cap)%nat ->
  length (garbage cap) = cap -> Z.of_nat cap + Z.of_nat (length nm) + 4 < 2 ^ 32 ->
  let name := found_name (letter_of (cur_disk (srv st))) d nm in
  exists s', same_view (srv st) s' /\
  with_name old_sel tib_sel garbage cap send nm st =
  match (split_drive nm).1 with
  | Some _ => '(rc, s) ← send old_sel nm (srv st); Ret (rc, mkKst tib_sel s)
  | None =>
      if 256 <? dir_size d nm + Z.of_nat (length nm) + 3
      then Ret (ERROR_FILENAME_EXCED_RANGE, mkKst tib_sel s')
      else if (length name <? cap)%nat
      then '(rc, s) ← send tib_sel name s'; Ret (rc, mkKst tib_sel s)
      else Undef
  end.
Proof. apply find_run. Qed.

(** Starting a program: as for a search in an array of 260 bytes, and
    [.exe] is appended to a completed name that does not contain it, for which
    the length is not checked again. *)
Theorem exec_name garbage send nm st d flags :
  session_ok (srv st) -> text nm -> nm <> [] -> (split_drive nm).1 = None -> flags <= 6 ->
  cur_dir (srv st) (cur_disk (srv st)) = Some d -> (length d < 260)%nat ->
  length (garbage 260%nat) = 260%nat -> Z.of_nat (length nm) + 264 < 2 ^ 32 ->
  let name := found_name (letter_of (cur_disk (srv st))) d nm in
  let exe := name ++ (if contains dot_exe name then [] else dot_exe) in
  exists s', same_view (srv st) s' /\
  KalExecPgm old_sel tib_sel garbage flags send nm st =
  if 256 <? dir_size d nm + Z.of_nat (length nm) + 3
  then Ret (ERROR_FILENAME_EXCED_RANGE, mkKst tib_sel s')
  else if (length exe <? 260)%nat
  then '(rc, s) ← send tib_sel exe s'; Ret (rc, mkKst tib_sel s)
  else Undef.
Proof.
  intros Hok Ht Hne Hdrv Hfl Hd Hl Hg H32 name exe. unfold KalExecPgm.
  destruct (Z.ltb_spec 6 flags); [lia|]. rewrite no_drive_spec, Hdrv by done. cbn [mbind C_bind].
  destruct (complete_cases garbage 260 true nm (KalEnter old_sel st) d) as (st' & [Hv Hf] & Hc);
    [done|done|done|done|done|lia|done|lia|].
  cbn [KalEnter srv] in *. exists (srv st'). split; [done|]. fold name in Hc.
  destruct (256 <? _); [rewrite Hc; cbn; by rewrite <- Hf; destruct st'|].
  destruct (Nat.ltb_spec (length name) 260) as [Hn|Hn].
  2: { rewrite Hc. destruct (Nat.ltb_spec (length exe) 260) as [He|]; [|done].
       unfold exe in He. rewrite length_app in He. lia. }
  destruct Hc as (str & -> & Ls & Hs). cbn [mbind C_bind]. rewrite (holds_cstr _ _ Hs).
  cbn [mbind C_bind]. unfold exe. destruct (contains dot_exe name).
  - cbn [mbind C_bind]. rewrite app_nil_r, (holds_cstr _ _ Hs). apply Nat.ltb_lt in Hn as ->.
    cbn [mbind C_bind]. by rewrite Hf.
  - pose proof (strcat_cases str name dot_exe Hs) as Hcat. rewrite length_app.
    rewrite Ls in Hcat. destruct (_ <? 260)%nat; [|rewrite Hcat; [done|by apply text_check]].
    destruct Hcat as (s2 & -> & _ & Hs2); [by apply text_check|]. cbn [mbind C_bind].
    rewrite (holds_cstr _ _ Hs2). cbn [mbind C_bind]. by rewrite Hf.
Qed.

(** For a name without a drive that does not begin with a slash, when the
    current directory neither begins with a slash nor ends with a backslash and
    all fits, opening and searching ask for the same name. *)
Theorem open_find_agree garbage send1 send2 nm st d :
  session_ok (srv st) -> text nm -> nm <> [] -> (split_drive nm).1 = None ->
  head nm <> Some (ch "/"%char) -> relative d = true -> last d <> Some backslash ->
  cur_dir (srv st) (cur_disk (srv st)) = Some d -> (length d + length nm < 96)%nat ->
  length (garbage 256%nat) = 256%nat ->
  exists name s1 s2, same_view (srv st) s1 /\ same_view (srv st) s2 /\
  KalOpenL old_sel tib_sel send1 nm st =
    ('(rc, s) ← send1 tib_sel name s1; Ret (rc, mkKst tib_sel s)) /\
  KalFindFirst old_sel tib_sel garbage send2 nm st =
    ('(rc, s) ← send2 tib_sel name s2; Ret (rc, mkKst tib_sel s)).
Proof.
  intros Hok Ht Hne Hdrv Hsl Hrel Hlast Hd Hl Hg. destruct (cur_disk_law _ Hok) as [_ Hcd].
  assert (Edisk : disk_of (srv st) nm = cur_disk (srv st)) by (unfold disk_of; by rewrite Hdrv).
  assert (Erest : (split_drive nm).2 = nm).
  { pose proof (split_drive_text nm Ht) as [_ Hr]. by rewrite Hdrv in Hr. }
  set (letter := letter_of (cur_disk (srv st))).
  assert (En : full_name letter d nm = found_name letter d nm).
  { unfold full_name, found_name, in_dir, relative at 1. destruct nm as [|x nm]; [done|].
    cbn [head] in *. unfold is_slash. destruct (Z.eqb_spec x (ch "/"%char)) as [->|]; [done|].
    rewrite orb_false_r. destruct (Z.eqb_spec x backslash) as [->|Hx]; cbn [negb].
    { by rewrite bool_decide_true. }
    rewrite (bool_decide_false (Some x = _)) by congruence.
    destruct d as [|y d]; [done|]. rewrite (bool_decide_false (y :: d = [])) by done.
    rewrite Hrel. rewrite (bool_decide_false (last _ = _)); [done|]. by rewrite last_cons_cons. }
  assert (Hlen : (length (full_name letter d nm) < 100)%nat).
  { unfold full_name, in_dir. cbn [length]. destruct (relative nm); cbn [length]; [|lia].
    rewrite !length_app. destruct (bool_decide _); [|destruct (relative d)]; cbn [length]; lia. }
  destruct (open_name_run send1 nm st d d Hok Ht) as (s1 & V1 & E1);
    [by rewrite Edisk|done|lia|by rewrite Edisk|lia|].
  destruct (find_run garbage 256 send2 nm st d Hok Ht Hne Hd) as (s2 & V2 & E2);
    [lia|lia|done|lia|].
  exists (full_name letter d nm), s1, s2. split; [done|]. split; [done|].
  rewrite Edisk, Erest in E1. fold letter in E1, E2. split.
  - rewrite E1. by apply Nat.ltb_lt in Hlen as ->.
  - unfold KalFindFirst. rewrite E2, Hdrv, <- En.
    destruct (Z.ltb_spec 256 (dir_size d nm + Z.of_nat (length nm) + 3)) as [H9|_].
    { unfold dir_size in H9. destruct (bool_decide _); lia. }
    destruct (Nat.ltb_spec (length (full_name letter d nm)) 256); [done|lia].
Qed.
End laws.

(** *** Changing the directory, then opening *)

(** A process that keeps its task and its place in the list is found as
    before. *)
Lemma find_proc_same ps test b p p' : ps !! b = Some p -> next p' = next p -> test p' = test p ->
  forall fuel a, find_proc fuel (<[b := p']> ps) test a = find_proc fuel ps test a.
Proof.
  intros Eb Hn Ht. induction fuel as [|fuel IH]; intros a; [done|]. cbn [find_proc].
  unfold proc_at. destruct (a =? 0); [done|]. rewrite lookup_insert. case_decide as Ha.
  - subst a. rewrite Eb. cbn [need mbind C_bind]. by rewrite Ht, Hn, IH.
  - destruct (ps !! a) as [q|]; [|done]. cbn [need mbind C_bind]. by rewrite IH.
Qed.

Lemma native_same TE t st a p k b : procs st !! a = Some p ->
  PrcGetProcNative TE t (set_procs st (<[a := with_dir p k b]> (procs st))) =
  PrcGetProcNative TE t st.
Proof.
  intros Hp. unfold PrcGetProcNative, search_proc, set_procs. cbn [proc_root procs].
  rewrite map_size_insert_Some by (by exists p). by rewrite (find_proc_same _ _ a p).
Qed.

(** The drive map has exactly the bits of the mounted drives. *)
Lemma mounted_map r ms : registry r ms -> Forall (fun lm => is_letter lm.1) ms ->
  exists m, FSGetDriveMap r (u32 (-1)) = Ret (NO_ERROR, m) /\ m <> u32 (-1) /\
  forall disk, 1 <= disk <= 26 -> Z.testbit m (disk - 1) = bool_decide (is_Some (mount_of ms (letter_of disk))).
Proof.
  intros (free & Hn & used & Ha & Hf & _) Hl.
  destruct (map_loop_spec ms used Hf Hl free 0) as (m & E & Hm). exists m.
  assert (Hget : FSGetDriveMap r (u32 (-1)) = Ret (NO_ERROR, m)).
  { unfold FSGetDriveMap. rewrite Z.eqb_refl. unfold setdrivemap. by rewrite Ha, Hn, Nat2Z.id, E. }
  split; [done|]. split.
  - intros ->. specialize (Hm 31 ltac:(lia)). change (Z.testbit (u32 (-1)) 31) with true in Hm.
    rewrite Z.bits_0 in Hm. cbn [orb] in Hm. symmetry in Hm. apply existsb_exists in Hm as (lm & Hin & Hb).
    rewrite Forall_forall in Hl. apply list_elem_of_In in Hin. specialize (Hl _ Hin).
    unfold is_letter, drive_bit in *. change (ch "a"%char) with 97 in *.
    change (ch "z"%char) with 122 in *. lia.
  - intros disk Hd. rewrite Hm, Z.bits_0 by lia. cbn [orb]. rewrite drive_bit_mount by lia.
    apply bool_decide_ext. rewrite <- mount_of_tolower. rewrite <- (mount_of_tolower ms (letter_of disk)).
    replace (tolower (ch "a"%char + (disk - 1))) with (tolower (letter_of disk)); [done|].
    unfold letter_of, tolower. change (ch "a"%char) with 97. change (ch "A"%char) with 65.
    destruct (Z.leb_spec 65 (65 + disk - 1)), (Z.leb_spec (65 + disk - 1) 90),
      (Z.leb_spec 65 (97 + (disk - 1))), (Z.leb_spec (97 + (disk - 1)) 90); cbn; lia.
Qed.

(** A component without slashes. *)
Definition plain (c : list Z) : Prop := component_ok c /\ (ch "/"%char ∉ c) /\ c <> [].

Lemma walk_plain cs : forall D, Forall plain D -> Forall plain cs -> Forall plain (foldl walk D cs).
Proof.
  induction cs as [|c cs IH]; intros D HD Hcs; [done|]. apply Forall_cons in Hcs as [Hc Hcs].
  cbn [foldl]. apply IH; [|done]. unfold walk. destruct (bool_decide _); [|destruct (bool_decide _); [done|]].
  - destruct (decide (D = [])) as [->|Hne]; [constructor|].
    destruct (exists_last Hne) as (D' & x & ->).
    rewrite removelast_last. by apply Forall_app in HD as [HD _].
  - apply Forall_app. by split; [|apply Forall_singleton].
Qed.

Lemma plain_dir D : Forall plain D -> dir_ok D.
Proof.
  intros HD. split; [eapply Forall_impl; [exact HD|]; by intros c []|].
  destruct D as [|c D]; [by left|right]. apply Forall_cons in HD as [(_ & _ & Hc) _]. by exists c, D.
Qed.

Lemma plain_joins cs : cs <> [] -> Forall plain cs -> joins cs <> [backslash].
Proof.
  intros Hne Hcs E. destruct cs as [|c cs]; [done|]. apply Forall_cons in Hcs as [((_ & Hb) & _ & Hc) Hcs].
  destruct c as [|x c]; [done|]. assert (Hx : x <> backslash) by (intros ->; apply Hb; by left).
  destruct cs; cbn in E; congruence.
Qed.

Lemma joins_snoc_length D c : (length (joins (D ++ [c])) <= length (joins D) + 1 + length c)%nat.
Proof.
  destruct (decide (D = [])) as [->|Hne]; [cbn; lia|]. rewrite joins_snoc, length_app by done.
  cbn [length]. lia.
Qed.

Lemma joins_head c D : Forall plain (c :: D) -> relative (joins (c :: D)) = true.
Proof.
  intros [((_ & Hb) & Hs & Hc) _]%Forall_cons. destruct c as [|x c]; [done|].
  assert (E : exists r, joins ((x :: c) :: D) = x :: r) by (destruct D; by eexists).
  destruct E as [r ->]. unfold relative, is_slash.
  destruct (Z.eqb_spec x backslash) as [->|]; [destruct Hb; by left|].
  destruct (Z.eqb_spec x (ch "/"%char)) as [->|]; [destruct Hs; by left|done].
Qed.

(** The complete name of a file in a directory of components. *)
Lemma plain_full_name letter D nm : Forall plain D -> plain nm ->
  full_name letter (joins D) nm = letter :: ch ":"%char :: backslash :: joins (D ++ [nm]).
Proof.
  intros HD Hn. unfold full_name. change nm with (joins [nm]) at 1.
  rewrite joins_head by by apply Forall_singleton. unfold in_dir.
  destruct D as [|c D]; [done|]. rewrite joins_snoc, joins_head by done.
  rewrite bool_decide_false; [done|]. by intros E%joins_empty; [|apply plain_dir].
Qed.

(** ** The servers of the development *)

(** The OS/2 server as [thread] sees it, the mount registry, and the drive map
    that the file server has made or will make. *)
Record servers := mkServers { prc : prcmgr; router : FSRouter; drivemap : Z }.

Section instance.
Variables (TaskEqual : Z -> Z -> bool) (thread : Z).
Variables old_sel tib_sel : Z.

#[export] Instance os2_session : Session servers := {
  FSClientGetDriveMap s :=
    '(rc, m) ← FSGetDriveMap (router s) (drivemap s);
    Ret (rc, m, mkServers (prc s) (router s) m);
  CPClientQueryCurrentDisk s := CPQueryCurrentDisk TaskEqual thread (prc s);
  CPClientQueryCurrentDir disk logical buf cb s :=
    '(rc, b, n) ← CPQueryCurrentDir TaskEqual thread disk logical (Some buf) (Some cb) (prc s);
    b ← need b; n ← need n; Ret (rc, b, n);
  CPClientSetCurrentDir d s :=
    '(rc, p) ← CPSetCurrentDir TaskEqual thread (Some d) (prc s);
    Ret (rc, mkServers p (router s) (drivemap s));
  CPClientSetDefaultDisk disk logical s :=
    '(rc, p) ← CPSetDefaultDisk TaskEqual thread disk logical (prc s);
    Ret (rc, mkServers p (router s) (drivemap s))
}.

Definition process_of (s : servers) : option t_os2process :=
  match PrcGetProcNative TaskEqual thread (prc s) with
  | Ret a => if a =? 0 then None else procs (prc s) !! a
  | _ => None
  end.

Definition map_of (s : servers) : Z :=
  match FSGetDriveMap (router s) (drivemap s) with Ret (_, m) => m | _ => 0 end.

(** The directory of every drive that exists is that of the process. *)
#[export] Instance os2_view : SessionView servers := {
  session_ok s := FSGetDriveMap (router s) (drivemap s) = Ret (NO_ERROR, map_of s) /\
    map_of s <> u32 (-1) /\
    exists p d, process_of s = Some p /\ holds_str (curdir p) d /\ 1 <= curdisk p <= 26;
  drive_map := map_of;
  cur_disk s := match process_of s with Some p => curdisk p | None => 0 end;
  cur_dir s disk :=
    match process_of s with
    | Some p =>
        if (1 <=? disk) && (disk <=? 26) && Z.testbit (map_of s) (disk - 1)
        then match cstr (curdir p) with Ret d => Some d | _ => None end
        else None
    | None => None
    end
}.

Lemma process_of_inv s p : process_of s = Some p ->
  exists a, PrcGetProcNative TaskEqual thread (prc s) = Ret a /\ a <> 0 /\ procs (prc s) !! a = Some p.
Proof.
  unfold process_of. destruct (PrcGetProcNative _ _ _) as [a| | |]; try done.
  destruct (Z.eqb_spec a 0); [done|]. intros E. by exists a.
Qed.

Lemma drive_exists_spec disk m : 1 <= disk <= 26 ->
  drive_exists disk m = Ret (Z.testbit m (disk - 1)).
Proof.
  intros Hd. unfold drive_exists. rewrite u32_id by (unfold is_u32; lia).
  destruct (Z.ltb_spec (disk - 1) 31); [|lia]. cbn [require mbind C_bind]. f_equal.
  assert (E : Z.land (Z.shiftl 1 (disk - 1)) m = if Z.testbit m (disk - 1) then 2 ^ (disk - 1) else 0).
  { rewrite Z.shiftl_1_l. apply Z.bits_inj'. intros i Hi. rewrite Z.land_spec.
    rewrite Z.pow2_bits_eqb by lia. destruct (Z.eqb_spec (disk - 1) i) as [<-|Hne]; cbn [andb].
    - destruct (Z.testbit m (disk - 1)); [by rewrite Z.pow2_bits_true by lia|by rewrite Z.bits_0].
    - destruct (Z.testbit m (disk - 1)); [|by rewrite Z.bits_0].
      rewrite Z.pow2_bits_eqb by lia. by destruct (Z.eqb_spec (disk - 1) i). }
  rewrite E. destruct (Z.testbit m (disk - 1)); [|done].
  destruct (Z.eqb_spec (2 ^ (disk - 1)) 0) as [E0|]; [|done].
  pose proof (Z.pow_pos_nonneg 2 (disk - 1)). lia.
Qed.

#[export] Instance os2_laws : SessionLaws servers.
Proof.
  split.
  - intros s (Em & Hm & p & d & Hp & Hd & Hk). exists (mkServers (prc s) (router s) (map_of s)).
    cbn [FSClientGetDriveMap os2_session]. rewrite Em. split; [done|].
    assert (Emap : map_of (mkServers (prc s) (router s) (map_of s)) = map_of s).
    { unfold map_of at 1. cbn [router drivemap]. unfold FSGetDriveMap.
      destruct (Z.eqb_spec (map_of s) (u32 (-1))); done. }
    split; [|split; [exact Emap|]].
    + split; [|split; [by rewrite Emap|by exists p, d]]. rewrite Emap. cbn [router drivemap].
      unfold FSGetDriveMap. by destruct (Z.eqb_spec (map_of s) (u32 (-1))).
    + split; [done|]. cbn [cur_dir os2_view]. by rewrite Emap.
  - intros s (_ & _ & p & d & Hp & Hd & Hk). cbn. rewrite Hp.
    destruct (process_of_inv _ _ Hp) as (a & Ha & Ha0 & Hpa).
    unfold CPQueryCurrentDisk. rewrite Ha. cbn [mbind C_bind].
    rewrite (proc_at_ok _ a p) by done. cbn [mbind C_bind]. split; [|done].
    by rewrite u32_id by (unfold is_u32; lia).
  - intros s disk d buf cb (_ & _ & p & d' & Hp & Hd & Hk). cbn. rewrite Hp.
    rewrite (holds_cstr _ _ Hd). set (k := if disk =? 0 then curdisk p else disk) in *.
    destruct ((1 <=? k) && (k <=? 26) && Z.testbit (map_of s) (k - 1)) eqn:Eb; [|done].
    apply andb_true_iff in Eb as [Eb Ebit]. intros [= ->].
    split; [by eapply holds_text|]. intros Hcb Hl.
    destruct (process_of_inv _ _ Hp) as (a & Ha & Ha0 & Hpa).
    unfold CPQueryCurrentDir. rewrite Ha. cbn [mbind C_bind].
    rewrite (proc_at_ok _ a p) by done. cbn [mbind C_bind].
    rewrite (u32_id (curdisk p)) by (unfold is_u32; lia). fold k.
    rewrite drive_exists_spec by blia. cbn [mbind C_bind]. rewrite Ebit. cbn [negb].
    rewrite (holds_cstr _ _ Hd). cbn [mbind C_bind].
    assert (Ecb : negb (cb =? 0) && (cb <? Z.of_nat (length d) + 1) = false).
    { destruct Hcb as [->|Hcb]; [done|]. destruct (Z.ltb_spec cb (Z.of_nat (length d) + 1)); [lia|].
      by rewrite andb_false_r. }
    rewrite Ecb. rewrite strcpy_at_0; [|by eapply holds_text|done]. cbn [mbind C_bind need].
    eexists. split; [done|]. split; [rewrite length_app; cbn [length]; rewrite length_drop; lia|].
    split; [by eapply holds_text|]. by eexists.
Qed.

(** A drive has a letter that is routed. *)
Lemma routed_letter k : 3 <= k <= 26 -> routed_drive (letter_of k) = true.
Proof.
  intros Hk. unfold routed_drive, tolower, letter_of. change (ch "A"%char) with 65.
  change (ch "c"%char) with 99. change (ch "z"%char) with 122.
  destruct (Z.leb_spec 65 (65 + k - 1)), (Z.leb_spec (65 + k - 1) 90); cbn; lia.
Qed.

(** Changing to a relative directory of plain components. *)
Lemma set_plain_dir s a p D d cs : PrcGetProcNative TaskEqual thread s = Ret a -> a <> 0 ->
  procs s !! a = Some p -> buffer_ok (curdir p) -> holds_str (curdir p) (joins D) ->
  Forall plain D -> Forall plain cs -> cs <> [] -> unslash <$> d = joins cs ->
  (length (joins D) + length d + 1 < 256)%nat -> exists b,
  CPSetCurrentDir TaskEqual thread (Some d) s =
    Ret (NO_ERROR, set_procs s (<[a := with_dir p (curdisk p) b]> (procs s))) /\
  holds_str b (joins (foldl walk D cs)).
Proof.
  intros Ha Ha0 Hp Hbuf Hdir HD Hcs Hne Hu Hlen.
  apply (set_dir_loop _ _ _ a p D Ha Ha0 Hp Hbuf (plain_dir D HD) Hdir d cs Hu Hne); [|  | | |done].
  - eapply Forall_impl; [exact Hcs|]. by intros c [].
  - destruct cs; [done|]. apply Forall_cons in Hcs as [_ Hcs]. cbn.
    eapply Forall_impl; [exact Hcs|]. by intros c (_ & _ & ?).
  - left. destruct cs as [|c cs]; [done|]. by apply Forall_cons in Hcs as [(_ & _ & ?) _].
  - by apply plain_joins.
Qed.

(** C10: Changing to a relative directory and then opening a file by its name there:
    the file server is asked for a name that it converts to the host's name of the
    file in the directory reached, on the file system of the current drive.  The
    program has not asked for the map of drives before, and the names fit: the
    directory the 256 bytes of the process, the complete name the 100 bytes of
    [KalOpenL].  An absolute directory would be appended
    ([absolute_dir_appended]). *)
Theorem chdir_then_open send st a p D d cs nm ms place :
  PrcGetProcNative TaskEqual thread (prc (srv st)) = Ret a -> a <> 0 ->
  procs (prc (srv st)) !! a = Some p -> buffer_ok (curdir p) -> holds_str (curdir p) (joins D) ->
  Forall plain D -> Forall plain cs -> plain nm -> cs <> [] -> unslash <$> d = joins cs ->
  drivemap (srv st) = u32 (-1) -> registry (router (srv st)) ms ->
  Forall (fun lm => is_letter lm.1) ms -> 3 <= curdisk p <= 26 ->
  mount_of ms (letter_of (curdisk p)) = Some place -> (split_drive nm).1 = None ->
  (length (joins D) + length d + 1 < 256)%nat ->
  (length (joins (foldl walk D cs)) + length nm < 96)%nat ->
  exists st1 path s', KalSetCurrentDir old_sel tib_sel d st = Ret (NO_ERROR, st1) /\
    KalOpenL old_sel tib_sel send nm st1 =
      ('(rc, s) ← send tib_sel path s'; Ret (rc, mkKst tib_sel s)) /\
    pathconv (router (srv st)) path =
      Ret (0, Some (host_name place (backslash :: joins (foldl walk D cs ++ [nm])))).
Proof.
  intros Ha Ha0 Hp Hbuf Hdir HD Hcs Hnm Hne Hu Hmap Hr Hlet Hk Hpl Hdrv Hlen Hlen2.
  set (D' := foldl walk D cs) in *.
  assert (HD' : Forall plain D') by by apply walk_plain.
  destruct (mounted_map _ _ Hr Hlet) as (m & Em & Hm & Hbit).
  destruct (set_plain_dir _ a p D d cs Ha Ha0 Hp Hbuf Hdir HD Hcs Hne Hu Hlen) as (b & Eset & Hb).
  set (p' := with_dir p (curdisk p) b) in *.
  set (s1 := mkServers (set_procs (prc (srv st)) (<[a := p']> (procs (prc (srv st)))))
    (router (srv st)) (drivemap (srv st))).
  assert (Emap : map_of s1 = m) by (unfold map_of; cbn; by rewrite Hmap, Em).
  assert (Eproc : process_of s1 = Some p').
  { unfold process_of. cbn [prc s1]. unfold p'. rewrite native_same, Ha by done.
    destruct (Z.eqb_spec a 0); [done|]. cbn. apply lookup_insert_eq. }
  assert (Hok : session_ok s1).
  { cbn. rewrite Emap, Hmap. split; [done|]. split; [done|]. exists p', (joins D').
    split; [done|]. split; [done|]. cbn. lia. }
  assert (Ecur : cur_dir s1 (curdisk p) = Some (joins D')).
  { cbn. rewrite Eproc, Emap, Hbit by lia. rewrite Hpl, bool_decide_true by by exists place.
    destruct (Z.leb_spec 1 (curdisk p)), (Z.leb_spec (curdisk p) 26); try lia. cbn [andb].
    change (curdir p') with b. by rewrite (holds_cstr _ _ Hb). }
  assert (Edisk : cur_disk s1 = curdisk p) by (cbn; by rewrite Eproc).
  assert (Ename : full_name (letter_of (curdisk p)) (joins D') nm =
    letter_of (curdisk p) :: ch ":"%char :: backslash :: joins (D' ++ [nm])).
  { apply plain_full_name; [done|done]. }
  assert (Hrest : (split_drive nm).2 = nm).
  { pose proof (split_drive_text nm (proj1 (proj1 Hnm))) as [_ H9]. by rewrite Hdrv in H9. }
  exists (mkKst tib_sel s1), (full_name (letter_of (curdisk p)) (joins D') nm).
  destruct (open_name_run old_sel tib_sel send nm (mkKst tib_sel s1) (joins D') (joins D'))
    as (s' & _ & E); cbn [srv]; unfold disk_of; rewrite ?Hdrv, ?Edisk, ?Ecur; try done;
    [by apply Hnm|lia|lia|lia|].
  exists s'. split; [|split].
  - unfold KalSetCurrentDir. cbn [KalEnter srv CPClientSetCurrentDir os2_session].
    by rewrite Eset.
  - cbn [srv] in E. unfold disk_of in E. rewrite Hdrv, Edisk, Hrest in E. rewrite E.
    destruct (Nat.ltb_spec (length (full_name (letter_of (curdisk p)) (joins D') nm)) 100) as [|H9]; [done|].
    rewrite Ename in H9. cbn [length] in H9. pose proof (joins_snoc_length D' nm). lia.
  - rewrite Ename. rewrite (pathconv_drive _ ms); [|done| | |by left].
    + by rewrite routed_letter, Hpl.
    + unfold letter_of. change (ch "A"%char) with 65. lia.
    + unfold letter_of, backslash. change (ch "A"%char) with 65. change (ch "\"%char) with 92. lia.
Qed.
End instance.

(** ** Instances of the properties

    The thread 17 belongs to the process 200, on drive D in the directory
    OS2. *)
Definition demo_servers : servers := mkServers demo_prc system_router (u32 (-1)).
Definition demo_kst : kst := mkKst 1 demo_servers.
Definition demo_garbage (n : nat) : list Z := replicate n 7.
Definition demo_send (f : Z) (nm : list Z) (s : servers) : C (Z * servers) :=
  Ret (Z.of_nat (length nm), s).

#[local] Existing Instance os2_session.
#[local] Existing Instance os2_view.
#[local] Existing Instance os2_laws.

Lemma demo_process : process_of Z.eqb 17 demo_servers = Some (demo_proc 1 0 100).
Proof.
  unfold process_of. assert (E : PrcGetProcNative Z.eqb 17 (prc demo_servers) = Ret 200)
    by (vm_compute; reflexivity).
  by rewrite E.
Qed.

Lemma demo_session : @session_ok servers (os2_view Z.eqb 17) demo_servers.
Proof.
  split; [vm_compute; reflexivity|]. split; [vm_compute; congruence|].
  exists (demo_proc 1 0 100), (bstr "OS2"). split; [exact demo_process|].
  split; [exact demo_dir|]. cbn. lia.
Qed.

Lemma demo_cur_dir disk : In disk [3; 4; 6] ->
  @cur_dir servers (os2_view Z.eqb 17) demo_servers disk = Some (bstr "OS2").
Proof.
  intros H. cbn [cur_dir os2_view]. rewrite demo_process.
  assert (E : map_of demo_servers = 44) by (vm_compute; reflexivity). rewrite E.
  change (curdir (demo_proc 1 0 100)) with (bstr "OS2" ++ replicate 253 0).
  rewrite (holds_cstr _ _ demo_dir). repeat destruct H as [<-|H]; [done..|done].
Qed.

Lemma demo_cur_disk : @cur_disk servers (os2_view Z.eqb 17) demo_servers = 4.
Proof. cbn [cur_disk os2_view]. by rewrite demo_process. Qed.

Lemma open_name_witness :
  exists s', @same_view _ (os2_view Z.eqb 17) demo_servers s' /\
  @KalOpenL _ (os2_session Z.eqb 17) 1 2 demo_send (bstr "f:read.me") demo_kst =
    ('(rc, s) ← demo_send 2 (bstr "F:\OS2\read.me") s'; Ret (rc, mkKst 2 s)).
Proof.
  destruct (@open_name servers (os2_session Z.eqb 17) (os2_view Z.eqb 17) (os2_laws Z.eqb 17)
    1 2 demo_send (bstr "f:read.me") demo_kst (bstr "OS2") (bstr "OS2")) as (s' & V & E).
  - exact demo_session.
  - by apply text_check.
  - vm_compute. split; congruence.
  - cbn [srv demo_kst]. rewrite demo_cur_disk. apply demo_cur_dir. cbn. lia.
  - vm_compute. lia.
  - apply (demo_cur_dir 6). cbn. lia.
  - vm_compute. lia.
  - exists s'. split; [exact V|]. exact E.
Defined.

Lemma find_name_witness :
  exists s', @same_view _ (os2_view Z.eqb 17) demo_servers s' /\
  @KalFindFirst _ (os2_session Z.eqb 17) 1 2 demo_garbage demo_send (bstr "*.dll") demo_kst =
    ('(rc, s) ← demo_send 2 (bstr "D:\OS2\*.dll") s'; Ret (rc, mkKst 2 s)).
Proof.
  destruct (@find_name servers (os2_session Z.eqb 17) (os2_view Z.eqb 17) (os2_laws Z.eqb 17)
    1 2 demo_garbage 256 demo_send (bstr "*.dll") demo_kst (bstr "OS2")) as (s' & V & E).
  - exact demo_session.
  - by apply text_check.
  - done.
  - cbn [srv demo_kst]. rewrite demo_cur_disk. apply demo_cur_dir. cbn. lia.
  - vm_compute. lia.
  - lia.
  - reflexivity.
  - vm_compute. reflexivity.
  - exists s'. split; [exact V|]. cbn [srv demo_kst] in E. rewrite demo_cur_disk in E. exact E.
Defined.

Lemma exec_name_witness :
  exists s', @same_view _ (os2_view Z.eqb 17) demo_servers s' /\
  @KalExecPgm _ (os2_session Z.eqb 17) 1 2 demo_garbage 0 demo_send (bstr "\cmd") demo_kst =
    ('(rc, s) ← demo_send 2 (bstr "D:\cmd.exe") s'; Ret (rc, mkKst 2 s)).
Proof.
  destruct (@exec_name servers (os2_session Z.eqb 17) (os2_view Z.eqb 17) (os2_laws Z.eqb 17)
    1 2 demo_garbage demo_send (bstr "\cmd") demo_kst (bstr "OS2") 0) as (s' & V & E).
  - exact demo_session.
  - by apply text_check.
  - done.
  - reflexivity.
  - lia.
  - cbn [srv demo_kst]. rewrite demo_cur_disk. apply demo_cur_dir. cbn. lia.
  - vm_compute. lia.
  - reflexivity.
  - vm_compute. reflexivity.
  - exists s'. split; [exact V|]. cbn [srv demo_kst] in E. rewrite demo_cur_disk in E. exact E.
Defined.

Lemma open_find_agree_witness :
  exists name s1 s2, @same_view _ (os2_view Z.eqb 17) demo_servers s1 /\
    @same_view _ (os2_view Z.eqb 17) demo_servers s2 /\
  @KalOpenL _ (os2_session Z.eqb 17) 1 2 demo_send (bstr "dll\a.dll") demo_kst =
    ('(rc, s) ← demo_send 2 name s1; Ret (rc, mkKst 2 s)) /\
  @KalFindFirst _ (os2_session Z.eqb 17) 1 2 demo_garbage demo_send (bstr "dll\a.dll") demo_kst =
    ('(rc, s) ← demo_send 2 name s2; Ret (rc, mkKst 2 s)).
Proof.
  apply (@open_find_agree servers (os2_session Z.eqb 17) (os2_view Z.eqb 17) (os2_laws Z.eqb 17)
    1 2 demo_garbage demo_send demo_send (bstr "dll\a.dll") demo_kst (bstr "OS2")).
  - exact demo_session.
  - by apply text_check.
  - done.
  - reflexivity.
  - vm_compute. congruence.
  - reflexivity.
  - vm_compute. congruence.
  - cbn [srv demo_kst]. rewrite demo_cur_disk. apply demo_cur_dir. cbn. lia.
  - vm_compute. lia.
  - reflexivity.
Defined.

Lemma plain_check cs :
  forallb (fun c => forallb (fun x => (0 <? x) && (x <? 256) && negb (is_slash x)) c &&
    negb (bool_decide (c = []))) cs = true -> Forall plain cs.
Proof.
  rewrite forallb_forall. intros H. apply Forall_forall. intros c Hc%list_elem_of_In.
  apply H in Hc. apply andb_true_iff in Hc as [Hc Hne%negb_true_iff].
  rewrite forallb_forall in Hc.
  assert (G : forall x, x ∈ c -> 0 < x < 256 /\ x <> backslash /\ x <> ch "/"%char).
  { intros x Hx%list_elem_of_In%Hc. unfold is_slash in Hx. blia. }
  split; [split|split].
  - apply Forall_forall. intros x Hx. by apply G.
  - intros Hx. by destruct (G _ Hx) as (_ & ? & _).
  - intros Hx. by destruct (G _ Hx) as (_ & _ & ?).
  - by apply bool_decide_eq_false in Hne.
Qed.

Lemma chdir_then_open_witness :
  exists st1 path s', @KalSetCurrentDir _ (os2_session Z.eqb 17) 1 2 (bstr "BIN/..\DLL") demo_kst =
      Ret (NO_ERROR, st1) /\
    @KalOpenL _ (os2_session Z.eqb 17) 1 2 demo_send (bstr "A.DLL") st1 =
      ('(rc, s) ← demo_send 2 path s'; Ret (rc, mkKst 2 s)) /\
    pathconv system_router path = Ret (0, Some (bstr "//os2/dll/a.dll")).
Proof.
  apply (chdir_then_open Z.eqb 17 1 2 demo_send demo_kst 200 (demo_proc 1 0 100) [bstr "OS2"]
    (bstr "BIN/..\DLL") [bstr "BIN"; bstr ".."; bstr "DLL"] (bstr "A.DLL") system_mounts (bstr "/")).
  - vm_compute. reflexivity.
  - lia.
  - reflexivity.
  - apply demo_buffer.
  - exact demo_dir.
  - by apply plain_check.
  - by apply plain_check.
  - assert (H : Forall plain [bstr "A.DLL"]) by by apply plain_check. by inversion_clear H.
  - done.
  - vm_compute. reflexivity.
  - reflexivity.
  - exact system_router_registry.
  - repeat (apply Forall_cons; split; [vm_compute; split; congruence|]). apply Forall_nil_2.
  - cbn. lia.
  - reflexivity.
  - reflexivity.
  - vm_compute. lia.
  - vm_compute. lia.
Defined.

(** A search for a name that fills the array writes its terminator behind it. *)
Example find_overflow :
  @KalFindFirst _ (os2_session Z.eqb 17) 1 2 demo_garbage demo_send (replicate 249 65) demo_kst = Undef.
Proof. vm_compute. reflexivity. Qed.

(** The directory of the process is taken for that of every drive, and a search
    does not complete a name with a drive at all. *)
Example other_drive :
  @KalOpenL _ (os2_session Z.eqb 17) 1 2 (fun _ nm _ => if bool_decide (nm = bstr "C:\OS2\x") then Exit 1 else Undef)
    (bstr "c:x") demo_kst = Exit 1 /\
  @KalFindFirst _ (os2_session Z.eqb 17) 1 2 demo_garbage
    (fun _ nm _ => if bool_decide (nm = bstr "c:x") then Exit 1 else Undef) (bstr "c:x") demo_kst = Exit 1.
Proof. split; vm_compute; reflexivity. Qed.
