(* ===== verification/KalMod.v ===== *)
(** * Modules of a program ([OS2/Server/platform/l4env/.../os2app/server/src/kal/kal.c])

    How a program loads a module: the executable server ([ExcApi]) opens and
    loads it and shares its sections with the program, then the library KAL asks
    for the sections of the module and of all that it imports and attaches them
    to the program's address space, which is that of [KalMem]. *)
From S2P Require Import Prelude MemMgr CfgParser LxMod LxLoad PathSearch ModMgr ExcApi ModClosed KalMem.

Section kal.
Context {H : Type} `{HostMemory H}.
(** The selectors that [KalEnter] and [KalQuit] load. *)
Variables old_sel tib_sel : Z.
(** What [RegLookupRegion] returns for a region of each type, the constants of
    the host's region mapper. *)
Variable region_code : region_type -> Z.
Variable L4_EUSED : Z.
Variables private_memory_area shared_memory_area : Z.
(** The executable server: its arguments in [ModMgr] and [ExcApi]. *)
Variable io_load_file : list Z -> option (list Z).
Variable ixfCopyModule : module -> module.
Variable IXFHandlers : list IXFHandler.
Variable new_module : gmap Z module -> Z.
Variable new_record : list node -> Z.
Variable blank : IXFModule.
Variable malloc_ok : bool.
Variable ds_of : section -> Z.
Variable DataspaceShare : Z -> Z -> Z.

#[local] Abbreviation ExcClientOpen :=
  (ExcOpen io_load_file ixfCopyModule IXFHandlers new_module new_record blank malloc_ok).
#[local] Abbreviation ExcClientLoad :=
  (ExcLoad io_load_file ixfCopyModule IXFHandlers new_module new_record blank malloc_ok).
#[local] Abbreviation ExcClientShare :=
  (ExcShare io_load_file ixfCopyModule IXFHandlers new_module new_record blank malloc_ok
     ds_of L4DM_READ L4DM_WRITE DataspaceShare).
#[local] Abbreviation ExcClientGetImp :=
  (ExcGetImp io_load_file ixfCopyModule IXFHandlers new_module new_record blank malloc_ok).
#[local] Abbreviation ExcClientGetSect := ExcGetSect.

(** The loop of [attach_module]: each turn first asks for the next section, then
    looks at [rc]. *)
Fixpoint attach_sections (n : nat) (hmod ar index rc : Z) (s : modmgr) (h : H) : C H :=
  match n with
  | O => NoFuel
  | S n =>
      '(r, index, sect) ← ExcClientGetSect hmod index s;
      if negb (r =? 0) || negb (rc =? 0) then Ret h
      else
        sect ← need sect;
        let flags := section_rights L4DM_READ L4DM_WRITE sect in
        let '(t, _, _, _) := l4rm_lookup_region (sec_addr sect) h in
        let rc := u32 (region_code t) in
        if rc =? 0 then
          let '(rc, h) := attach_ds_area (ds_of sect) ar flags (sec_addr sect) h in
          if negb (rc =? 0) && negb (rc =? u32 (- L4_EUSED)) then Ret h
          else attach_sections n hmod ar index rc s h
        else Ret h
  end.

(** The result is always 0.  A module has one section less than [ExcGetSect]
    answers. *)
Definition attach_module (hmod ar : Z) (s : modmgr) (h : H) : C (Z * H) :=
  m ← need (modules s !! hmod);
  h ← attach_sections (2 + length (seclist (mod_ixf m))) hmod ar 0 0 s h;
  Ret (0, h).

(** The loop of [attach_all] over the imports: [attach] is the recursive call. *)
Fixpoint attach_imports (n : nat) (attach : Z -> modmgr -> H -> C (Z * modmgr * H))
    (hmod index rc : Z) (s : modmgr) (h : H) : C (Z * modmgr * H) :=
  match n with
  | O => NoFuel
  | S n =>
      '(r, index, imp, s) ← ExcClientGetImp hmod index s;
      if negb (r =? 0) || negb (rc =? 0) then Ret (rc, s, h)
      else
        imp_hmod ← need imp;
        if imp_hmod =? 0 then attach_imports n attach hmod index rc s h
        else
          '(rc, s, h) ← attach imp_hmod s h;
          attach_imports n attach hmod index rc s h
  end.

Fixpoint attach_all (fuel : nat) (hmod ar : Z) (s : modmgr) (h : H) : C (Z * modmgr * H) :=
  match fuel with
  | O => NoFuel
  | S fuel =>
      '(rc, h) ← attach_module hmod ar s h;
      if negb (rc =? 0) then Ret (rc, s, h)
      else
        m ← need (modules s !! hmod);
        attach_imports (S (length (Modules (mod_ixf m))))
          (fun imp => attach_all fuel imp shared_memory_area) hmod 0 rc s h
  end.

(** The servers and the program: the register fs, the module manager, the
    program's address space, and the dataspaces shared with it. *)
Record world := mkWorld { fs : Z; mgr : modmgr; space : H; shares : list (Z * Z) }.
Definition KalEnter (w : world) : world := mkWorld old_sel (mgr w) (space w) (shares w).
Definition KalQuit (w : world) : world := mkWorld tib_sel (mgr w) (space w) (shares w).
Definition set_mgr (w : world) (s : modmgr) : world := mkWorld (fs w) s (space w) (shares w).

(** The return code, the text for a failure, and what is stored at [phmod] and
    [s], if anything.  Every module is opened with the flag of a program.  [depth]
    bounds the chains of imports that are followed afterwards. *)
Definition KalPvtLoadModule (fuel depth : nat) (cbName : Z) (pszModname : list Z) (w : world)
    : C (Z * list Z * option Z * option os2exec_module_t * world) :=
  '(rc, err, hmod, s) ← ExcClientOpen cbName pszModname true (mgr w);
  let w := set_mgr w s in
  if negb (rc =? 0) then Ret (rc, err, None, None, w)
  else
    '(rc, err, _, x, s) ← ExcClientLoad fuel cbName hmod (mgr w);
    let w := set_mgr w s in
    if negb (rc =? 0) then Ret (rc, err, Some hmod, Some x, w)
    else
      let ar := if exeflag x then private_memory_area else shared_memory_area in
      '(rc, s, log) ← ExcClientShare depth hmod (mgr w) (shares w);
      let w := mkWorld (fs w) s (space w) log in
      if negb (rc =? 0) then Ret (rc, err, Some hmod, Some x, w)
      else
        '(rc, s, h) ← attach_all depth hmod ar (mgr w) (space w);
        Ret (rc, err, Some hmod, Some x, mkWorld (fs w) s h (shares w)).

Definition KalLoadModule (fuel depth : nat) (cbName : Z) (pszModname : list Z) (w : world)
    : C (Z * list Z * option Z * world) :=
  '(rc, err, phmod, _, w) ← KalPvtLoadModule fuel depth cbName pszModname (KalEnter w);
  Ret (rc, err, phmod, KalQuit w).

Definition KalQueryProcAddr (fuel : nat) (hmod ordinal : Z) (pszName : option (list Z)) (w : world)
    : C (Z * option Z * world) :=
  let w := KalEnter w in
  '(rc, pfn) ← ExcQueryProcAddr fuel hmod ordinal pszName (mgr w);
  Ret (rc, pfn, KalQuit w).

Definition KalQueryModuleHandle (pszModname : list Z) (w : world) : Z * Z * world :=
  let w := KalEnter w in
  let '(rc, hmod) := ExcQueryModuleHandle pszModname (mgr w) in (rc, hmod, KalQuit w).

Definition KalQueryModuleName (hmod cbBuf : Z) (w : world) : Z * option (list Z) * world :=
  let w := KalEnter w in
  let '(rc, buf) := ExcQueryModuleName hmod cbBuf (mgr w) in (rc, buf, KalQuit w).

Definition PT_32BIT : Z := 1.

(** What is stored at [pulProcType], if anything.  [pfn] is not initialised. *)
Definition KalQueryProcType (fuel : nat) (hmod ordinal : Z) (pszName : option (list Z)) (w : world)
    : C (Z * option Z * world) :=
  let w := KalEnter w in
  '(rc, pfn, w) ← KalQueryProcAddr fuel hmod ordinal pszName w;
  if negb (rc =? 0) then Ret (rc, None, w)
  else
    pfn ← need pfn;
    Ret (0, if pfn =? 0 then None else Some PT_32BIT, KalQuit w).
End kal.

(** ** Proofs *)

Section attach.
Context {H : Type} `{!HostMemory H} `{!HostView H} `{!HostLaws H}.
Context (region_code : region_type -> Z) (L4_EUSED private_memory_area shared_memory_area : Z).
Context (io_load_file : list Z -> option (list Z)) (ixfCopyModule : module -> module)
  (IXFHandlers : list IXFHandler) (new_module : gmap Z module -> Z) (new_record : list node -> Z)
  (blank : IXFModule) (malloc_ok : bool) (ds_of : section -> Z).
Implicit Types h : H.

#[local] Abbreviation sections := (attach_sections region_code L4_EUSED ds_of).
#[local] Abbreviation attach1 := (attach_module region_code L4_EUSED ds_of).
#[local] Abbreviation the_imports :=
  (attach_imports (H := H) io_load_file ixfCopyModule IXFHandlers new_module new_record blank malloc_ok).
#[local] Abbreviation attach :=
  (attach_all region_code L4_EUSED shared_memory_area io_load_file ixfCopyModule IXFHandlers
     new_module new_record blank malloc_ok ds_of).

(** The modules as the server has them, the module that is loaded and the area
    its sections go to, and the address space before. *)
Context (s : modmgr) (root root_area : Z) (h0 : H).

Definition area_of (h : Z) : Z := if h =? root then root_area else shared_memory_area.
Definition size_of (sec : section) : Z := dsize (ds_of sec) h0.
Definition in_section (sec : section) (y : Z) : bool := within (sec_addr sec) (size_of sec) y.
Definition flags_of : Z := Z.lor L4DM_READ L4DM_WRITE.
(** How an address in a section of the module [hm] is mapped. *)
Definition attached (hm : Z) (sec : section) : cell :=
  Mapped (sec_addr sec) (size_of sec) (ds_of sec) flags_of (area_of hm).

(** The sections of the modules that are needed. *)
Definition needed (hm : Z) (sec : section) : Prop :=
  exists m, rtc (imports s) root hm /\ modules s !! hm = Some m /\ sec ∈ seclist (mod_ixf m).

(** The sections have their dataspaces, lie in addresses that are reserved for
    their module's area, and do not overlap. *)
Record placeable : Prop := {
  pl_ds hm sec : needed hm sec -> opened (ds_of sec) h0 /\ 0 < size_of sec;
  pl_at hm sec : needed hm sec -> 0 <= sec_addr sec /\ sec_addr sec + size_of sec < 2 ^ 32;
  pl_reserved hm sec y : needed hm sec -> in_section sec y = true ->
    where_is y h0 = Reserved (area_of hm);
  pl_apart hm sec hm' sec' y : needed hm sec -> needed hm' sec' -> in_section sec y = true ->
    in_section sec' y = true -> hm = hm' /\ sec = sec';
  pl_nodup hm m : rtc (imports s) root hm -> modules s !! hm = Some m -> NoDup (seclist (mod_ixf m));
  pl_count hm m : rtc (imports s) root hm -> modules s !! hm = Some m ->
    Z.of_nat (length (seclist (mod_ixf m))) + 3 < 2 ^ 32
}.

(** The sections of which [Q] holds are attached, everything else is as before. *)
Definition only_attached (Q : Z -> section -> Prop) (h : H) : Prop :=
  host_ok h /\ data_kept None h0 h /\
  (forall hm sec y, Q hm sec -> in_section sec y = true -> where_is y h = attached hm sec) /\
  forall y, (forall hm sec, Q hm sec -> in_section sec y = false) -> where_is y h = where_is y h0.

Lemma attached_same Q Q' h : only_attached Q h -> (forall hm sec, Q hm sec <-> Q' hm sec) ->
  only_attached Q' h.
Proof.
  intros (H1 & H2 & H3 & H4) HQ. split; [done|]. split; [done|]. split.
  - intros hm sec y Hq. apply H3. by apply HQ.
  - intros y Hy. apply H4. intros hm sec Hq. apply (Hy hm). by apply HQ.
Qed.
Lemma attached_quiet Q h h' : only_attached Q h -> quiet h h' -> only_attached Q h'.
Proof.
  intros (H1 & H2 & H3 & H4) (K1 & K2 & K3). split; [done|]. split; [by eapply kept_trans|]. split.
  - intros hm sec y Hq Hy. rewrite K3. by apply H3.
  - intros y Hy. rewrite K3. by apply H4.
Qed.

Context (Hpl : placeable) (Hcode : u32 (region_code REGION_RESERVED) = 0).

Lemma needed_ds hm sec Q h : needed hm sec -> only_attached Q h ->
  opened (ds_of sec) h /\ dsize (ds_of sec) h = size_of sec.
Proof.
  intros Hn (_ & Hk & _). destruct (pl_ds Hpl hm sec Hn) as [Ho _].
  destruct (Hk (ds_of sec)) as (H1 & H2 & _); done.
Qed.

(** Attaching a section that is not attached yet. *)
Lemma attach_new Q hm sec h : only_attached Q h -> needed hm sec -> ~ Q hm sec ->
  (forall hm' sec', Q hm' sec' -> needed hm' sec') ->
  exists h', attach_ds_area (ds_of sec) (area_of hm) flags_of (sec_addr sec) h = (0, h') /\
    only_attached (fun hm' sec' => Q hm' sec' \/ (hm' = hm /\ sec' = sec)) h'.
Proof.
  intros Hat Hn Hnq HQ. destruct (needed_ds _ _ _ _ Hn Hat) as [Ho Es].
  destruct Hat as (H1 & H2 & H3 & H4). destruct (pl_ds Hpl _ _ Hn) as [_ Hpos].
  destruct (pl_at Hpl _ _ Hn) as [Ha Hb].
  assert (Hout : forall hm' sec' y, Q hm' sec' -> in_section sec y = true -> in_section sec' y = false).
  { intros hm' sec' y Hq Hy. destruct (in_section sec' y) eqn:Ey; [|done].
    destruct (pl_apart Hpl hm sec hm' sec' y) as [-> ->]; [done|by apply HQ|done|done|done]. }
  destruct (attach_seen h (ds_of sec) (area_of hm) flags_of (sec_addr sec)) as (h' & E & Hok & Hk & W);
    rewrite ?Es; try done; try lia.
  { intros y Hy%within_true. rewrite H4; [by apply (pl_reserved Hpl _ sec)|].
    intros hm' sec' Hq. by eapply Hout. }
  rewrite Es in W. fold (in_section sec) in W.
  exists h'. split; [done|]. split; [done|]. split; [by eapply kept_trans|]. split.
  - intros hm' sec' y Hq Hy. rewrite W. destruct (within _ _ y) eqn:Ey.
    + destruct Hq as [Hq|[-> ->]]; [|done]. by rewrite (Hout hm' sec' y Hq Ey) in Hy.
    + destruct Hq as [Hq|[-> ->]]; [by apply H3|]. unfold in_section in Hy. congruence.
  - intros y Hy. rewrite W. destruct (within _ _ y) eqn:Ey.
    + pose proof (Hy hm sec (or_intror (conj eq_refl eq_refl))) as Hy2.
      unfold in_section in Hy2. congruence.
    + apply H4. intros hm' sec' Hq. apply (Hy hm'). by left.
Qed.

Lemma rights_are sec : section_rights L4DM_READ L4DM_WRITE sec = flags_of.
Proof. done. Qed.

Lemma first_address hm sec : needed hm sec -> in_section sec (sec_addr sec) = true.
Proof. intros Hn. destruct (pl_ds Hpl _ _ Hn) as [_ Hpos]. apply within_true. lia. Qed.

(** A section that is attached already stays as it is; whether the loop goes on
    then depends on the host's constants. *)
Lemma attach_again Q hm sec h n ar i : only_attached Q h -> needed hm sec -> Q hm sec ->
  (forall h', only_attached Q h' -> exists h'', sections n hm ar i 0 s h' = Ret h'' /\ only_attached Q h'') ->
  exists h'', (let '(t, _, _, _) := l4rm_lookup_region (sec_addr sec) h in
    let rc := u32 (region_code t) in
    if rc =? 0 then
      let '(rc, h) := attach_ds_area (ds_of sec) (area_of hm) flags_of (sec_addr sec) h in
      if negb (rc =? 0) && negb (rc =? u32 (- L4_EUSED)) then Ret h
      else sections n hm ar i rc s h
    else Ret h) = Ret h'' /\ only_attached Q h''.
Proof.
  intros Hat Hn Hq Hgo. destruct (needed_ds _ _ _ _ Hn Hat) as [Ho Es].
  pose proof (proj1 (proj2 (proj2 Hat)) hm sec _ Hq (first_address _ _ Hn)) as W.
  destruct (lookup_law h (sec_addr sec)) as (t & a & l & d & El & _); [apply Hat|by rewrite W|].
  rewrite El. cbv zeta. destruct (u32 (region_code t) =? 0); [|by exists h].
  destruct (attach_unseen h (ds_of sec) (area_of hm) flags_of (sec_addr sec) (sec_addr sec))
    as (h' & -> & Hqt); [apply Hat|done| |by rewrite W|].
  { destruct (pl_ds Hpl _ _ Hn). lia. }
  change (negb (0 =? 0)) with false. cbv iota. cbn [andb]. apply Hgo. by eapply attached_quiet.
Qed.

(** One turn of the loop. *)
Lemma sections_step hm m n i sec h : modules s !! hm = Some m -> seclist (mod_ixf m) <> [] ->
  Z.of_nat (length (seclist (mod_ixf m))) + 3 < 2 ^ 32 -> (i <= length (seclist (mod_ixf m)))%nat ->
  last (take (S i) (seclist (mod_ixf m))) = Some sec ->
  sections (S n) hm (area_of hm) (Z.of_nat i) 0 s h =
    (let '(t, _, _, _) := l4rm_lookup_region (sec_addr sec) h in
     let rc := u32 (region_code t) in
     if rc =? 0 then
       let '(rc, h) := attach_ds_area (ds_of sec) (area_of hm) flags_of (sec_addr sec) h in
       if negb (rc =? 0) && negb (rc =? u32 (- L4_EUSED)) then Ret h
       else sections n hm (area_of hm) (Z.of_nat (S i)) rc s h
     else Ret h).
Proof.
  intros Hm Hne Hc Hi Hlast. cbn [attach_sections].
  rewrite (get_sect_spec s hm m (seclist (mod_ixf m))) by (done || lia).
  destruct (Z.leb_spec (Z.of_nat i) (Z.of_nat (length (seclist (mod_ixf m))))); [|lia].
  cbn [mbind C_bind]. change (negb (0 =? 0)) with false. cbn [orb].
  replace (Z.to_nat (Z.of_nat i + 1)) with (S i) by lia. rewrite Hlast. cbn [need mbind C_bind].
  by replace (Z.of_nat i + 1) with (Z.of_nat (S i)) by lia.
Qed.

Lemma sections_end hm m n ar i h : modules s !! hm = Some m ->
  Z.of_nat (length (seclist (mod_ixf m))) + 3 < 2 ^ 32 ->
  i = S (length (seclist (mod_ixf m))) \/ seclist (mod_ixf m) = [] ->
  Z.of_nat i + 1 < 2 ^ 32 ->
  sections (S n) hm ar (Z.of_nat i) 0 s h = Ret h.
Proof.
  intros Hm Hc Hi Hb. cbn [attach_sections]. destruct (decide (seclist (mod_ixf m) = [])) as [E|E].
  { unfold ExcGetSect. rewrite Hm. cbn [need mbind C_bind]. by rewrite E. }
  destruct Hi as [->|]; [|done]. rewrite (get_sect_spec s hm m (seclist (mod_ixf m))) by (done || lia).
  by destruct (Z.leb_spec (Z.of_nat (S (length (seclist (mod_ixf m))))) (Z.of_nat (length (seclist (mod_ixf m))))); [lia|].
Qed.

Section one.
Context (hm : Z) (m : module) (Hr : rtc (imports s) root hm) (Hm : modules s !! hm = Some m).
Let L := seclist (mod_ixf m).

Lemma take_some i : L <> [] -> exists sec, last (take (S i) L) = Some sec /\ sec ∈ L.
Proof.
  intros Hne. destruct (last (take (S i) L)) as [sec|] eqn:E.
  - exists sec. split; [done|]. apply last_Some_elem_of in E. by eapply elem_of_take in E as (? & ?%list_elem_of_lookup_2 & _).
  - apply last_None in E. by destruct L.
Qed.

Lemma sections_again Q : (forall sec, sec ∈ L -> Q hm sec) ->
  forall k i h, (i + k = S (length L))%nat -> only_attached Q h ->
  exists h', sections (S k) hm (area_of hm) (Z.of_nat i) 0 s h = Ret h' /\ only_attached Q h'.
Proof.
  intros HQ. pose proof (pl_count Hpl _ _ Hr Hm) as Hc. destruct (decide (L = [])) as [E|Hne].
  { intros k i h Hi Hat. exists h. split; [|done]. apply (sections_end hm m); [done|done|by right|].
    unfold L in *. lia. }
  induction k as [|k IH]; intros i h Hi Hat.
  - exists h. split; [|done]. apply (sections_end hm m); [done|done|left; unfold L in *; lia|unfold L in *; lia].
  - destruct (take_some i Hne) as (sec & Es & Hs).
    rewrite (sections_step hm m (S k) i sec) by (done || (unfold L in *; lia)).
    apply (attach_again Q); [done|by exists m|by apply HQ|]. intros h' Hat'.
    apply IH; [lia|done].
Qed.

Lemma sections_new Q : (forall sec, ~ Q hm sec) -> (forall hm' sec', Q hm' sec' -> needed hm' sec') ->
  forall k i h, (i + k = length L)%nat ->
  only_attached (fun hm' sec' => Q hm' sec' \/ (hm' = hm /\ sec' ∈ take i L)) h ->
  exists h', sections (2 + k) hm (area_of hm) (Z.of_nat i) 0 s h = Ret h' /\
    only_attached (fun hm' sec' => Q hm' sec' \/ (hm' = hm /\ sec' ∈ L)) h'.
Proof.
  intros Hnq HQ. pose proof (pl_count Hpl _ _ Hr Hm) as Hc. fold L in Hc.
  induction k as [|k IH]; intros i h Hi Hat.
  - replace i with (length L) in * by lia. rewrite take_ge in Hat by lia.
    apply (sections_again _) ; [by right|lia|done].
  - destruct (lookup_lt_is_Some_2 L i) as [sec Es]; [lia|].
    pose proof (pl_nodup Hpl _ _ Hr Hm) as Hnd. fold L in Hnd.
    assert (Hn : needed hm sec) by (exists m; split; [done|]; split; [done|by eapply list_elem_of_lookup_2]).
    assert (Hfresh : ~ (Q hm sec \/ (hm = hm /\ sec ∈ take i L))).
    { intros [Hq|[_ Ht]]; [by eapply Hnq|]. apply elem_of_take in Ht as (j & Ej & Hj).
      pose proof (NoDup_lookup _ _ _ _ Hnd Es Ej). lia. }
    assert (HQ' : forall hm' sec', Q hm' sec' \/ (hm' = hm /\ sec' ∈ take i L) -> needed hm' sec').
    { intros hm' sec' [Hq|[-> Ht]]; [by apply HQ|]. apply elem_of_take in Ht as (j & Ej & _).
      exists m. split; [done|]. split; [done|by eapply list_elem_of_lookup_2]. }
    change (2 + S k)%nat with (S (2 + k)). rewrite (sections_step hm m (2 + k) i sec).
    2: done. 2: { intros E. unfold L in Es. by rewrite E in Es. } 2, 3: unfold L in *; lia.
    2: { fold L. rewrite (take_S_r _ _ _ Es). by rewrite last_snoc. }
    assert (W : where_is (sec_addr sec) h = Reserved (area_of hm)).
    { pose proof (first_address _ _ Hn) as Hf. destruct Hat as (_ & _ & _ & H4). rewrite H4.
      - by apply (pl_reserved Hpl _ sec).
      - intros hm' sec' Hq. destruct (in_section sec' (sec_addr sec)) eqn:Ey; [|done].
        destruct (pl_apart Hpl hm sec hm' sec' (sec_addr sec)) as [-> ->]; [done|by apply HQ'|done|done|done]. }
    destruct (lookup_law h (sec_addr sec)) as (t & a & l & d & El & Ht & _); [apply Hat|by rewrite W|].
    rewrite El. cbv zeta. rewrite W in Ht. cbn in Ht. subst t. rewrite Hcode. cbn [Z.eqb].
    destruct (attach_new _ hm sec h Hat Hn Hfresh HQ') as (h' & -> & Hat').
    change (negb (0 =? 0)) with false. cbn [andb]. apply IH; [lia|].
    eapply attached_same; [exact Hat'|]. intros hm' sec'. cbn beta.
    rewrite (take_S_r _ _ _ Es), elem_of_app, list_elem_of_singleton.
    split; [intros [[?|[-> ?]]|[-> ->]]; auto|intros [?|(-> & [?| ->])]; auto].
Qed.
End one.

(** The sections of the modules in a list. *)
Definition of_modules (D : list Z) (hm : Z) (sec : section) : Prop := hm ∈ D /\ needed hm sec.

Lemma needed_in hm m sec : rtc (imports s) root hm -> modules s !! hm = Some m ->
  (needed hm sec <-> sec ∈ seclist (mod_ixf m)).
Proof.
  intros Hr Hm. split; [|by exists m]. intros (m' & _ & Em & Hs). congruence.
Qed.

Lemma attach_one D hm m h : rtc (imports s) root hm -> modules s !! hm = Some m ->
  only_attached (of_modules D) h ->
  exists h', attach1 hm (area_of hm) s h = Ret (0, h') /\ only_attached (of_modules (hm :: D)) h'.
Proof.
  intros Hr Hm Hat. unfold attach_module. rewrite Hm. cbn [need mbind C_bind].
  destruct (decide (hm ∈ D)) as [Hin|Hout].
  - destruct (sections_again hm m Hr Hm (of_modules D)) with (k := S (length (seclist (mod_ixf m))))
      (i := O) (h := h) as (h' & E & Hat'); [|lia|done|].
    { intros sec Hs. split; [done|by exists m]. }
    change (Z.of_nat 0) with 0 in E.
    change (2 + length (seclist (mod_ixf m)))%nat with (S (S (length (seclist (mod_ixf m))))).
    rewrite E. exists h'. split; [done|].
    eapply attached_same; [exact Hat'|]. intros hm' sec. unfold of_modules. rewrite elem_of_cons.
    split; [intros []; auto|]. intros [[->|?] ?]; auto.
  - destruct (sections_new hm m Hr Hm (of_modules D)) with (k := length (seclist (mod_ixf m)))
      (i := O) (h := h) as (h' & E & Hat'); [by intros sec [? _]|by intros hm' sec [_ ?]|lia| |].
    { eapply attached_same; [exact Hat|]. intros hm' sec. rewrite take_0, elem_of_nil. split; [auto|].
      by intros [?|[_ ?]]. }
    change (Z.of_nat 0) with 0 in E. rewrite E. exists h'. split; [done|].
    eapply attached_same; [exact Hat'|]. intros hm' sec.
    unfold of_modules. rewrite elem_of_cons. split.
    + intros [[? ?]|[-> Hs]]; [auto|]. split; [by left|by exists m].
    + intros [[->|?] Hn]; [|by left]. right. split; [done|]. by apply (needed_in hm m).
Qed.

Context (P : Z -> Prop) (rank : Z -> nat) (Hres : resolved s P rank).

Lemma attach_imports_run fuel hm m : P hm -> hm <> 0 -> rtc (imports s) root hm ->
  modules s !! hm = Some m -> (rank hm <= rank root)%nat ->
  (forall (h' : Z) m' D h, P h' -> h' <> 0 -> rtc (imports s) root h' -> modules s !! h' = Some m' ->
     (rank h' < rank hm)%nat -> only_attached (of_modules D) h ->
     exists D' h2, attach fuel h' (area_of h') s h = Ret (0, s, h2) /\
       only_attached (of_modules D') h2 /\ forall x, x ∈ D' <-> x ∈ D \/ rtc (imports s) h' x) ->
  forall k i D h, (i + k = length (Modules (mod_ixf m)))%nat -> only_attached (of_modules D) h ->
  exists D' h2, the_imports (S k) (fun imp => attach fuel imp shared_memory_area) hm (Z.of_nat i) 0 s h =
      Ret (0, s, h2) /\ only_attached (of_modules D') h2 /\
    forall x, x ∈ D' <-> x ∈ D \/ exists n (h' : Z), n ∈ drop i (Modules (mod_ixf m)) /\ h' <> 0 /\
      loaded_as s n h' /\ rtc (imports s) h' x.
Proof.
  intros HP Hh Hr Hm Hrk Hrec. destruct (Hres hm m HP Hm Hh) as [Hlen Hall].
  induction k as [|k IH]; intros i D h Hi Hat.
  - exists D, h. cbn [attach_imports].
    pose proof (get_imp_end io_load_file ixfCopyModule IXFHandlers new_module new_record blank malloc_ok
      s hm m Hh Hm) as E. cbv zeta in E.
    replace (Z.of_nat i) with (Z.of_nat (length (Modules (mod_ixf m)))) by lia. rewrite E.
    split; [done|]. split; [done|]. intros x. rewrite drop_ge by lia.
    split; [by left|]. intros [?|(n & h' & Hn & _)]; [done|]. by apply elem_of_nil in Hn.
  - remember (S k) as k' eqn:Ek. cbn [attach_imports]. subst k'.
    destruct (lookup_lt_is_Some_2 (Modules (mod_ixf m)) i) as [n En]; [lia|].
    rewrite Forall_forall in Hall.
    destruct (Hall n) as (h' & Hld & Hcase); [by eapply list_elem_of_lookup_2|].
    rewrite (get_imp_some _ _ _ _ _ _ _ s hm m i n h') by done. cbn [mbind C_bind].
    change (negb (NO_ERROR =? 0)) with false. change (negb (0 =? 0)) with false. cbn [orb need mbind C_bind].
    rewrite u32_id by (unfold is_u32; lia). replace (Z.of_nat i + 1) with (Z.of_nat (S i)) by lia.
    rewrite (drop_S _ _ _ En). assert (Huniq : forall h2 : Z, loaded_as s n h2 -> h2 = h').
    { intros h2 (p & Ep & <-). destruct Hld as (p' & Ep' & <-). congruence. }
    destruct (Z.eqb_spec h' 0) as [->|Hne].
    + destruct (IH (S i) D h ltac:(lia) Hat) as (D' & h2 & E & Hat' & HD). rewrite E.
      exists D', h2. split; [done|]. split; [done|]. intros x. rewrite HD.
      split; (intros [?|(n' & h3 & Hn & Hrest)]; [by left|right]); [exists n', h3; split; [by right|done]|].
      apply elem_of_cons in Hn as [->|Hn]; [|by exists n', h3].
      destruct Hrest as (H2 & H3%Huniq & _). done.
    + destruct Hcase as [?|(HP' & [m' Em'] & Hrk')]; [done|].
      assert (Himp : imports s hm h').
      { split; [done|]. exists m, n. split; [done|]. split; [by eapply list_elem_of_lookup_2|done]. }
      assert (Har : area_of h' = shared_memory_area).
      { unfold area_of. destruct (Z.eqb_spec h' root) as [->|]; [lia|done]. }
      destruct (Hrec h' m' D h HP' Hne) as (D1 & h1 & E1 & Hat1 & HD1);
        [by eapply rtc_r|done|done|done|]. rewrite Har in E1. rewrite E1. cbn [mbind C_bind].
      destruct (IH (S i) D1 h1 ltac:(lia) Hat1) as (D2 & h2 & E2 & Hat2 & HD2). rewrite E2.
      exists D2, h2. split; [done|]. split; [done|]. intros x. rewrite HD2, HD1. split.
      * intros [[?|H1]|(n' & h3 & Hn & H3)]; [by left|right; exists n, h'; split; [by left|done]|].
        right. exists n', h3. split; [by right|done].
      * intros [?|(n' & h3 & [->|Hn]%elem_of_cons & H2 & H3 & H4)]; [by left; left| |].
        -- apply Huniq in H3 as ->. left. by right.
        -- right. by exists n', h3.
Qed.

Lemma attach_all_run fuel : forall hm m D h, P hm -> hm <> 0 -> rtc (imports s) root hm ->
  modules s !! hm = Some m -> (rank hm <= rank root)%nat -> (rank hm < fuel)%nat ->
  only_attached (of_modules D) h ->
  exists D' h2, attach fuel hm (area_of hm) s h = Ret (0, s, h2) /\
    only_attached (of_modules D') h2 /\ forall x, x ∈ D' <-> x ∈ D \/ rtc (imports s) hm x.
Proof.
  induction fuel as [|fuel IH]; intros hm m D h HP Hh Hr Hm Hrk Hf Hat; [lia|].
  cbn [attach_all]. destruct (attach_one D hm m h Hr Hm Hat) as (h1 & E1 & Hat1). rewrite E1.
  cbn [mbind C_bind]. change (negb (0 =? 0)) with false. cbv iota. rewrite Hm. cbn [need mbind C_bind].
  destruct (attach_imports_run fuel hm m HP Hh Hr Hm Hrk) with (k := length (Modules (mod_ixf m)))
    (i := O) (D := hm :: D) (h := h1) as (D2 & h2 & E2 & Hat2 & HD); [|done|done|].
  { intros h' m' D' h3 HP' Hh' Hr' Hm' Hrk' Hat'. apply (IH h' m'); try done; lia. }
  change (Z.of_nat 0) with 0 in E2. rewrite E2. exists D2, h2. split; [done|]. split; [done|].
  intros x. rewrite HD, elem_of_cons. split.
  - intros [[->|?]|(n & h' & Hn & Hne & Hld & Hx)]; [by right|by left|right].
    eapply rtc_l; [|exact Hx]. split; [done|]. by exists m, n.
  - intros [?|Hx]; [by left; right|].
    inversion Hx as [|? h' ? (Hne & m' & n & Em & Hn & Hld) H4]; subst; [by left; left|].
    right. replace m' with m in * by congruence. by exists n, h'.
Qed.

Lemma attach_root_run fuel m : P root -> root <> 0 -> modules s !! root = Some m ->
  host_ok h0 -> (rank root < fuel)%nat ->
  exists h', attach fuel root root_area s h0 = Ret (0, s, h') /\ only_attached needed h'.
Proof.
  intros HP Hne Hm Hok Hf.
  destruct (attach_all_run fuel root m [] h0 HP Hne (rtc_refl _ _) Hm (le_n _) Hf) as (D & h' & E & Hat & HD).
  { split; [done|]. split; [apply kept_refl|]. split; [by intros hm sec y [?%elem_of_nil _]|done]. }
  unfold area_of in E. rewrite Z.eqb_refl in E. exists h'. split; [done|].
  eapply attached_same; [exact Hat|]. intros hm sec. unfold of_modules. rewrite HD.
  split; [by intros [_ ?]|]. intros Hn. split; [|done]. right. by destruct Hn as (m' & ? & _).
Qed.
End attach.

(** ** What is not seen *)

Section errors.
Context {H : Type} `{!HostMemory H}.
Context (region_code : region_type -> Z) (L4_EUSED shared_memory_area : Z).
Context (io_load_file : list Z -> option (list Z)) (ixfCopyModule : module -> module)
  (IXFHandlers : list IXFHandler) (new_module : gmap Z module -> Z) (new_record : list node -> Z)
  (blank : IXFModule) (malloc_ok : bool) (ds_of : section -> Z).
Implicit Types h : H.
#[local] Abbreviation attach :=
  (attach_all region_code L4_EUSED shared_memory_area io_load_file ixfCopyModule IXFHandlers
     new_module new_record blank malloc_ok ds_of).

Lemma imports_code n (f : Z -> modmgr -> H -> C (Z * modmgr * H)) hmod :
  (forall imp s h, yields (f imp s h) (fun '(rc, _, _) => rc = 0)) ->
  forall index s h, yields (attach_imports io_load_file ixfCopyModule IXFHandlers new_module new_record
    blank malloc_ok n f hmod index 0 s h) (fun '(rc, _, _) => rc = 0).
Proof.
  intros Hf. induction n as [|n IH]; intros index s h; [done|]. cbn [attach_imports].
  apply yields_any. intros [[[r i] imp] s1]. change (negb (0 =? 0)) with false. rewrite orb_false_r.
  destruct (negb (r =? 0)); [done|]. apply yields_need. intros k _. destruct (k =? 0); [apply IH|].
  eapply yields_bind; [apply Hf|]. intros [[rc s2] h2] ->. apply IH.
Qed.

(** Attaching a module and what it imports never reports an error, whatever
    the host answers and whichever sections could not be attached. *)
Theorem attach_reports_success fuel hmod ar s h rc s' h' :
  attach_all region_code L4_EUSED shared_memory_area io_load_file ixfCopyModule IXFHandlers
    new_module new_record blank malloc_ok ds_of fuel hmod ar s h = Ret (rc, s', h') -> rc = 0.
Proof.
  intros E. enough (Hy : forall fuel hmod ar s h, yields (attach fuel hmod ar s h) (fun '(rc, _, _) => rc = 0))
    by (eapply yields_ret in E; [|apply Hy]; exact E).
  clear. induction fuel as [|fuel IH]; intros hmod ar s h; [done|]. cbn [attach_all]. unfold attach_module.
  destruct (need (modules s !! hmod)) as [m| | |]; try done. cbn [mbind C_bind].
  destruct (attach_sections _ _ _ _ _ _ _ _ _ _) as [h1| | |]; try done. cbn [mbind C_bind].
  change (negb (0 =? 0)) with false. cbv iota. apply imports_code. intros imp s1 h2. apply IH.
Qed.

(** Where a reserved region has another code than 0 no section is attached. *)
Theorem reserved_not_attached `{!HostView H} `{!HostLaws H} hmod ar s h m sec l :
  modules s !! hmod = Some m -> seclist (mod_ixf m) = sec :: l ->
  Z.of_nat (length (seclist (mod_ixf m))) + 3 < 2 ^ 32 ->
  host_ok h -> where_is (sec_addr sec) h = Reserved ar -> u32 (region_code REGION_RESERVED) <> 0 ->
  attach_module region_code L4_EUSED ds_of hmod ar s h = Ret (0, h).
Proof.
  intros Hm El Hl Hok W Hcode. unfold attach_module. rewrite Hm. cbn [need mbind C_bind].
  rewrite El. change (2 + length (sec :: l))%nat with (S (S (length (sec :: l)))).
  generalize (S (length (sec :: l))). intros n0. cbn [attach_sections].
  rewrite (get_sect_spec s hmod m (sec :: l)) by (done || lia || by rewrite <- El).
  destruct (Z.leb_spec 0 (Z.of_nat (length (sec :: l)))); [|lia]. cbn [mbind C_bind].
  change (negb (0 =? 0)) with false. cbn [orb]. change (Z.to_nat (0 + 1)) with 1%nat.
  rewrite firstn_cons, firstn_O. cbn [last need mbind C_bind].
  destruct (lookup_law h (sec_addr sec)) as (t & a & n & d & E & Ht & _); [done|by rewrite W|].
  rewrite E. cbv zeta. rewrite W in Ht. cbn in Ht. subst t.
  destruct (Z.eqb_spec (u32 (region_code REGION_RESERVED)) 0); [done|]. reflexivity.
Qed.
End errors.

(** ** Loading a module *)

Section load.
Context {H : Type} `{!HostMemory H} `{!HostView H} `{!HostLaws H}.
Context (old_sel tib_sel : Z).
Context (region_code : region_type -> Z) (L4_EUSED private_memory_area shared_memory_area : Z).
Context (io_load_file : list Z -> option (list Z)) (ixfCopyModule : module -> module)
  (IXFHandlers : list IXFHandler) (new_module : gmap Z module -> Z) (new_record : list node -> Z)
  (blank : IXFModule) (malloc_ok : bool) (ds_of : section -> Z) (DataspaceShare : Z -> Z -> Z).
Context `{!Loader IXFHandlers new_module new_record}.
#[local] Abbreviation load_module :=
  (KalLoadModule (H := H) old_sel tib_sel region_code L4_EUSED private_memory_area shared_memory_area
     io_load_file ixfCopyModule IXFHandlers new_module new_record blank malloc_ok ds_of DataspaceShare).

(** C8: A program that loads a module which is not loaded yet: when the loader
    reports success, the call ends with the module's handle, the sections of the
    module and of all that it imports are shared with the program, and exactly
    the addresses of these sections are changed in its address space, where they
    are mapped readable and writable, each where the loader has placed it.  For
    this the sections must lie in separate places that are reserved in the areas where
    [attach_module] looks for them, and [RegLookupRegion] must answer a reserved region
    with 0: otherwise success is reported too and nothing is attached
    ([library_as_program], [attached_nowhere]). *)
Theorem load_module_attaches fuel cbName name w rank e h s m : forall
  (root_area := if mod_exec m then private_memory_area else shared_memory_area),
  closed (mgr w) rank -> host_ok (space w) ->
  getrec (get_fname name) (mlist (mgr w)) = (1, None) ->
  stricmp (get_fname name) (bstr "EMXWRAP") <> 0 -> stricmp (get_fname name) (bstr "SUB32") <> 0 ->
  load_named io_load_file ixfCopyModule IXFHandlers new_module new_record blank malloc_ok
    fuel cbName name true (mgr w) = Ret (NO_ERROR, e, h, s) ->
  modules s !! h = Some m ->
  placeable shared_memory_area ds_of s h root_area (space w) ->
  (forall ds r, DataspaceShare ds r = 0) -> u32 (region_code REGION_RESERVED) = 0 ->
  exists n, forall depth, (n < depth)%nat -> exists l space',
    load_module fuel depth cbName name w =
      Ret (0, e, Some h, mkWorld tib_sel s space' (shares w ++ l)) /\
    shared_from ds_of L4DM_READ L4DM_WRITE s h l /\
    only_attached shared_memory_area ds_of h root_area (space w) (needed s h) space'.
Proof.
  intros root_area Hc Hok Hg He Hs E Hm Hpl Hshare Hcode.
  apply load_named_inv in E as (e0 & h0 & s0 & E0 & E).
  destruct (open_load_closes _ _ _ _ _ _ _ _ _ _ _ _ _ _ _ _ _ _ _ Hc Hg He Hs E0 E)
    as (-> & Hne & _ & Hr & rank' & Hc' & Hres).
  assert (HP : loaded_module s h0) by by eexists.
  exists (rank' h0). intros depth Hd.
  destruct (share_reaches_imports io_load_file ixfCopyModule IXFHandlers new_module new_record blank malloc_ok
    ds_of L4DM_READ L4DM_WRITE DataspaceShare Hshare s (loaded_module s) rank' depth h0 m (shares w)
    Hres HP Hne Hm Hd) as (l & El & Hl).
  destruct (attach_root_run region_code L4_EUSED shared_memory_area io_load_file ixfCopyModule IXFHandlers
    new_module new_record blank malloc_ok ds_of s h0 root_area (space w) Hpl Hcode (loaded_module s) rank'
    Hres depth m HP Hne Hm Hok Hd) as (space' & Ea & Hat).
  exists l, space'. split; [|by split].
  unfold KalLoadModule, KalPvtLoadModule, ExcOpen. cbn [KalEnter mgr]. rewrite E0. cbn [mbind C_bind].
  change (negb (NO_ERROR =? 0)) with false. cbv iota. unfold ExcLoad. cbn [set_mgr mgr]. rewrite E.
  cbn [mbind C_bind]. rewrite Hm. cbn [need mbind C_bind].
  change (negb (NO_ERROR =? 0)) with false. cbv iota. cbn [exeflag set_mgr mgr shares KalEnter space fs].
  unfold ExcShare. rewrite El. cbn [mbind C_bind]. change (negb (0 =? 0)) with false. cbv iota.
  cbn [mgr space shares fs]. fold root_area. rewrite Ea. reflexivity.
Qed.
End load.

(** ** Instances of the properties

    The program of [ModClosed] with its two libraries; the areas are 1 and 2. *)
Definition app_cells (y : Z) : cell :=
  if within 65536 16 y then Reserved 1
  else if within 131072 32 y then Reserved 1
  else if within 200 10 y then Reserved 2
  else if within 300 8 y then Reserved 2
  else if within 0 (2 ^ 32 - 1) y then Free else Other.
Definition app_sizes (d : Z) : Z := if d =? 0 then 16 else if d =? 1 then 32 else if d =? 2 then 10 else 8.
Definition app_space : dhost := mkDh app_cells 4 app_sizes (fun d o => 100 * d + o) 8192.
Definition app_code (t : region_type) : Z := match t with REGION_RESERVED => 0 | _ => 1 end.
Definition app_world : world := mkWorld 2 lib_start app_space [].

Ltac app_split y := unfold app_cells in *;
  destruct (within_spec 65536 16 y), (within_spec 131072 32 y), (within_spec 200 10 y),
    (within_spec 300 8 y), (within_spec 0 (2 ^ 32 - 1) y); try lia.

Lemma app_host_ok : host_ok app_space.
Proof.
  split; [done|]. split; [done|]. intros x. unfold cell_ok. cbn [app_space cells count sizes].
  app_split x; try done; lia.
Qed.

(** The modules of the program and their sections. *)
Definition app_modules : list (Z * (bool * list section)) :=
  [(6001, (false, [mkSection 200 10 2])); (6002, (false, [mkSection 300 8 3]));
   (6000, (true, [mkSection 65536 16 0; mkSection 131072 32 1]))].
Definition module_view (m : module) : bool * list section := (mod_exec m, seclist (mod_ixf m)).

Section app.
Context (s : modmgr) (Hs : map_to_list (module_view <$> modules s) = app_modules).

Lemma app_module hm m : modules s !! hm = Some m -> (hm, module_view m) ∈ app_modules.
Proof. intros Hm. rewrite <- Hs. apply elem_of_map_to_list. by rewrite lookup_fmap, Hm. Qed.

Lemma app_needed hm sec : needed s 6000 hm sec ->
  (hm, sec) ∈ [(6000, mkSection 65536 16 0); (6000, mkSection 131072 32 1); (6001, mkSection 200 10 2);
               (6002, mkSection 300 8 3)].
Proof.
  intros (m & _ & Hm & Hsec). apply app_module in Hm. unfold module_view, app_modules in Hm.
  repeat (apply elem_of_cons in Hm as [[= -> _ El]|Hm];
    [rewrite El in Hsec; repeat (apply elem_of_cons in Hsec as [->|Hsec]; [set_solver|]);
     by apply elem_of_nil in Hsec|]). by apply elem_of_nil in Hm.
Qed.

Lemma app_placeable : placeable 2 sec_id s 6000 1 app_space.
Proof.
  assert (Hcases : forall (P : Z -> section -> Prop), P 6000 (mkSection 65536 16 0) ->
    P 6000 (mkSection 131072 32 1) -> P 6001 (mkSection 200 10 2) -> P 6002 (mkSection 300 8 3) ->
    forall hm sec, needed s 6000 hm sec -> P hm sec).
  { intros P H1 H2 H3 H4 hm sec Hn. apply app_needed in Hn.
    repeat (apply elem_of_cons in Hn as [[= -> ->]|Hn]; [done|]). by apply elem_of_nil in Hn. }
  split.
  - apply (Hcases (fun hm sec => _)); cbn; lia.
  - apply (Hcases (fun hm sec => _)); cbn; lia.
  - intros hm sec y Hn. revert hm sec Hn.
    apply (Hcases (fun hm sec => in_section sec_id app_space sec y = true -> _)); cbn;
      unfold in_section, size_of; cbn; intros Hy%within_true; app_split y; done.
  - intros hm sec hm' sec' y Hn Hn'. revert hm sec Hn.
    apply (Hcases (fun hm sec => in_section sec_id app_space sec y = true -> _ -> hm = hm' /\ sec = sec'));
      revert hm' sec' Hn'; apply (Hcases (fun hm' sec' => _ -> in_section sec_id app_space sec' y = true -> _));
      unfold in_section, size_of; cbn; intros Hy%within_true Hy'%within_true; (lia || done).
  - intros hm m _ Hm. apply app_module in Hm. unfold module_view, app_modules in Hm.
    repeat (apply elem_of_cons in Hm as [[= -> _ ->]|Hm];
      [by apply (NoDup_fmap_1 sec_id), (bool_decide_unpack _)|]). by apply elem_of_nil in Hm.
  - intros hm m _ Hm. apply app_module in Hm. unfold module_view, app_modules in Hm.
    repeat (apply elem_of_cons in Hm as [[= -> _ ->]|Hm]; [cbn; lia|]). by apply elem_of_nil in Hm.
Qed.
End app.

#[local] Abbreviation app_load :=
  (load_named lib_provider id [lib_format] lib_new_module lib_new_record blank_ixf true
     7 260 (bstr "APP.EXE") true lib_start).
#[local] Abbreviation app_kal_load depth :=
  (KalLoadModule 1 2 app_code 17 1 2 lib_provider id [lib_format] lib_new_module lib_new_record blank_ixf
     true sec_id (fun _ _ => 0) 7 depth 260 (bstr "APP.EXE") app_world).

Lemma app_loads : exists s m, app_load = Ret (NO_ERROR, [], 6000, s) /\
  modules s !! 6000 = Some m /\
  module_view m = (true, [mkSection 65536 16 0; mkSection 131072 32 1]) /\
  map_to_list (module_view <$> modules s) = app_modules.
Proof.
  assert (Ev : match app_load with
    | Ret (rc, e, h, s) => (rc, e, h) = (0, [], 6000) /\ module_view <$> (modules s !! 6000) =
          Some (true, [mkSection 65536 16 0; mkSection 131072 32 1]) /\
        map_to_list (module_view <$> modules s) = app_modules
    | _ => False end) by (vm_compute; split; [|split]; reflexivity).
  destruct app_load as [[[[rc e] h] s]| | |]; [|destruct Ev..]. destruct Ev as ([= -> -> ->] & Em & El).
  destruct (modules s !! 6000) as [m|] eqn:Em'; [|done]. exists s, m. split; [reflexivity|].
  split; [exact Em'|]. split; [|exact El]. change (Some (module_view m) = Some (true, [mkSection 65536 16 0; mkSection 131072 32 1])) in Em.
  congruence.
Qed.

Lemma load_module_attaches_witness : exists n s, app_load = Ret (NO_ERROR, [], 6000, s) /\
  forall depth, (n < depth)%nat -> exists l space',
    app_kal_load depth = Ret (0, [], Some 6000, mkWorld 2 s space' l) /\
    where_is 65540 space' = Mapped 65536 16 0 3 1.
Proof.
  destruct app_loads as (s & m & E & Hm & [= Hex Hsec] & Hs).
  destruct (load_module_attaches 1 2 app_code 17 1 2 lib_provider id [lib_format] lib_new_module
    lib_new_record blank_ixf true sec_id (fun _ _ => 0) 7 260 (bstr "APP.EXE") app_world (fun _ => O) []
    6000 s m) as (n & Hn).
  - exact lib_closed.
  - exact app_host_ok.
  - reflexivity.
  - vm_compute. discriminate.
  - vm_compute. discriminate.
  - exact E.
  - exact Hm.
  - rewrite Hex. by apply app_placeable.
  - done.
  - reflexivity.
  - exists n, s. split; [exact E|]. intros depth Hd. destruct (Hn depth Hd) as (l & space' & El & _ & Hat).
    exists l, space'. split; [exact El|]. destruct Hat as (_ & _ & W & _).
    rewrite Hex in W. apply (W 6000 (mkSection 65536 16 0) 65540); [|reflexivity].
    exists m. split; [apply rtc_refl|]. split; [exact Hm|]. rewrite Hsec. by left.
Defined.

(** The call reports success although nothing is attached, under the host's
    other convention, in which the code of memory that is mapped is 0. *)
Definition mapped_is_zero (t : region_type) : Z := match t with REGION_DATASPACE => 0 | _ => 1 end.
Example attached_nowhere :
  match KalLoadModule 1 2 mapped_is_zero 17 1 2 lib_provider id [lib_format] lib_new_module lib_new_record
      blank_ixf true sec_id (fun _ _ => 0) 7 7 260 (bstr "APP.EXE") app_world with
  | Ret (rc, _, h, w) => (rc, h) = (0, Some 6000) /\ where_is 65540 (space w) = Reserved 1
  | _ => False
  end.
Proof. vm_compute. by split. Qed.

(** A library is opened with the flag of a program too, and its sections are
    looked for in the area of programs, where they are not: none is attached. *)
Example library_as_program :
  match KalLoadModule 1 2 app_code 17 1 2 lib_provider id [lib_format] lib_new_module lib_new_record
      blank_ixf true sec_id (fun _ _ => 0) 7 7 260 (bstr "MSG.dll") app_world with
  | Ret (rc, _, h, w) => (rc, h) = (0, Some 6000) /\ where_is 300 (space w) = Reserved 2
  | _ => False
  end.
Proof. vm_compute. by split. Qed.

Lemma attach_reports_success_witness :
  attach_all mapped_is_zero 17 2 lib_provider id [lib_format] lib_new_module lib_new_record blank_ixf true
    sec_id 3 5000 1 ex_mm app_space = Ret (0, ex_mm, app_space) /\ 0 = 0.
Proof.
  assert (E : attach_all mapped_is_zero 17 2 lib_provider id [lib_format] lib_new_module lib_new_record
    blank_ixf true sec_id 3 5000 1 ex_mm app_space = Ret (0, ex_mm, app_space)) by reflexivity.
  split; [exact E|].
  exact (attach_reports_success mapped_is_zero 17 2 lib_provider id [lib_format] lib_new_module
    lib_new_record blank_ixf true sec_id 3 5000 1 ex_mm app_space 0 ex_mm app_space E).
Defined.
