(* ===== verification/BootLib.v ===== *)
(** * The library of the boot loader ([bootseq/loader/shared], [bootseq/loader/cmdline.c])

    A string that a function only runs through is the list of its bytes, a
    pointer into it the rest of the string; reading at its end gives the
    terminating zero.  Memory that is changed is a buffer. *)
From S2P Require Import Prelude.

(** The byte a pointer into a string points to. *)
Definition cur (s : list Z) : Z := match s with [] => 0 | c :: _ => c end.

(** ** Characters and words *)

Definition grub_isspace (c : Z) : bool := (c =? 32) || (c =? 9) || (c =? 13) || (c =? 10).

Fixpoint skip_ws (s : list Z) : list Z :=
  match s with
  | [] => []
  | c :: s' => if grub_isspace c then skip_ws s' else s
  end.

Fixpoint wordend (s : list Z) : list Z :=
  match s with
  | [] => []
  | c :: s' => if negb (grub_isspace c) then wordend s' else s
  end.

(** The two loops of [skip_to]: over the word and over what separates words. *)
Definition separator (after_equal : bool) (c : Z) : bool :=
  (c =? 32) || (c =? 9) || (after_equal && (c =? 61)).
Fixpoint skip_word (after_equal : bool) (s : list Z) : list Z :=
  match s with
  | [] => []
  | c :: s' => if separator after_equal c then s else skip_word after_equal s'
  end.
Fixpoint skip_blank (after_equal : bool) (s : list Z) : list Z :=
  match s with
  | [] => []
  | c :: s' => if separator after_equal c then skip_blank after_equal s' else s
  end.
Definition skip_to (after_equal : bool) (cmdline : list Z) : list Z :=
  skip_blank after_equal (skip_word after_equal cmdline).

(** [index] counts from 1; 0 is no place. *)
Fixpoint index_from (i c : Z) (s : list Z) : Z :=
  match s with
  | [] => 0
  | x :: s' => if x =? c then i + 1 else index_from (i + 1) c s'
  end.
Definition grub_index (c : Z) (s : list Z) : Z := index_from 0 c s.

(** The first [n] characters of both strings agree, and neither ends there. *)
Fixpoint abbrev (s1 s2 : list Z) (n : nat) : bool :=
  match n with
  | O => true
  | S n =>
      match s1, s2 with
      | p :: s1, q :: s2 => if p =? q then abbrev s1 s2 n else false
      | _, _ => false
      end
  end.

Fixpoint grub_strcmp (s1 s2 : list Z) : Z :=
  match s1, s2 with
  | [], [] => 0
  | [], c :: _ => if 0 <? s8 c then -1 else 1
  | c :: _, [] => if s8 c <? 0 then -1 else 1
  | a :: s1, b :: s2 =>
      if s8 a <? s8 b then -1 else if s8 b <? s8 a then 1 else grub_strcmp s1 s2
  end.

(** The inner loop of [strstr]: [tmp] is used up while the bytes agree. *)
Fixpoint starts_with (ptr tmp : list Z) : bool :=
  match tmp with
  | [] => true
  | t :: tmp => match ptr with p :: ptr => if p =? t then starts_with ptr tmp else false | [] => false end
  end.
(** A string without characters is found nowhere. *)
Fixpoint grub_strstr (s1 s2 : list Z) : option (list Z) :=
  match s1 with
  | [] => None
  | _ :: s1' =>
      if negb (Z.of_nat (length s2) =? 0) && starts_with s1 s2 then Some s1 else grub_strstr s1' s2
  end.

(** ** Numbers *)

Definition MAXINT : Z := 0x7FFFFFFF.

(** The value of the digit [c], [None] where the loop is left. *)
Definition digit_of (mult c : Z) : option Z :=
  let digit := u32 (tolower (s8 c) - ch "0") in
  if 9 <? digit then
    let digit := u32 (digit - 49) in
    if (mult =? 10) || (5 <? digit) then None else Some (u32 (digit + 10))
  else Some digit.

Fixpoint parse_digits (mult myint : Z) (found : bool) (ptr : list Z) : option (list Z * Z) :=
  match digit_of mult (cur ptr), ptr with
  | Some digit, _ :: ptr' =>
      if (MAXINT - digit) / mult <? myint then None
      else parse_digits mult (myint * mult + digit) true ptr'
  | _, _ => if found then Some (ptr, myint) else None
  end.

(** [None] is the result 0: no number, or one that is too large. *)
Definition safe_parse_maxint (str : list Z) : option (list Z * Z) :=
  if (cur str =? ch "0") && (tolower (s8 (cur (tail str))) =? ch "x")
  then parse_digits 16 0 false (drop 2 str)
  else parse_digits 10 0 false str.

(** The digits of [num], the last one first; a number has at most ten. *)
Fixpoint number_digits (fuel : nat) (num mult : Z) : C (list Z) :=
  match fuel with
  | O => NoFuel
  | S fuel =>
      let dig := num mod mult in
      let d := if 9 <? dig then dig + ch "a" - 10 else ch "0" + dig in
      let num := num / mult in
      if num =? 0 then Ret [d] else (fun ds => d :: ds) <$> number_digits fuel num mult
  end.
Definition digits_fuel : nat := 32.

(** [convert_to_ascii(buf, c, num)]: what is written to [buf]. *)
Definition convert_to_ascii (c num : Z) : C (list Z) :=
  let num := u32 num in
  let mult := if (c =? ch "x") || (c =? ch "X") then 16 else 10 in
  if Z.testbit num 31 && (c =? ch "d")
  then (fun ds => ch "-" :: reverse ds) <$> number_digits digits_fuel (u32 (- num)) mult
  else reverse <$> number_digits digits_fuel num mult.

(** ** Memory *)

Fixpoint copy_down (n : nat) (b : list Z) (to from : Z) : C (list Z) :=
  match n with
  | O => Ret b
  | S n => c ← rd8 b (from - 1); b ← wr8 b (to - 1) c; copy_down n b (to - 1) (from - 1)
  end.
Fixpoint copy_up (n : nat) (b : list Z) (to from : Z) : C (list Z) :=
  match n with
  | O => Ret b
  | S n => c ← rd8 b from; b ← wr8 b to c; copy_up n b (to + 1) (from + 1)
  end.

(** [memmove] within one buffer; the second result is the pointer returned.  A
    negative length leads out of any buffer. *)
Definition grub_memmove (b : list Z) (to from len : Z) : C (list Z * Z) :=
  if from =? to then Ret (b, to)
  else if len <? 0 then Undef
  else if (from <? to) && (to <? from + len) then
    b ← copy_down (Z.to_nat len) b (to + len) (from + len); Ret (b, to)
  else b ← copy_up (Z.to_nat len) b to from; Ret (b, to + len).

(** The string at a position of a buffer. *)
Definition str_at (s : list Z) (p : Z) : C (list Z) :=
  if 0 <=? p then cstr (drop (Z.to_nat p) s) else Undef.

(** ** Lemmas *)

Lemma str_at_pre pre t r p : p = Z.of_nat (length pre) -> text t -> str_at (pre ++ t ++ 0 :: r) p = Ret t.
Proof.
  intros -> Ht. unfold str_at. destruct (Z.leb_spec 0 (Z.of_nat (length pre))); [|lia].
  rewrite Nat2Z.id, drop_app_length. by apply cstr_text.
Qed.


Lemma starts_with_spec s t : starts_with s t = true <-> t `prefix_of` s.
Proof.
  revert s. induction t as [|c t IH]; intros [|x s]; cbn.
  - split; [intros _; apply prefix_nil|done].
  - split; [intros _; apply prefix_nil|done].
  - split; [done|]. by intros [k ?].
  - destruct (Z.eqb_spec x c) as [->|Hne].
    + rewrite IH. split; [by apply prefix_cons|by intros ?%prefix_cons_inv_2].
    + split; [done|]. intros ?%prefix_cons_inv_1. congruence.
Qed.

Lemma abbrev_spec s1 s2 : abbrev s1 s2 (length s2) = true <-> s2 `prefix_of` s1.
Proof.
  rewrite <- starts_with_spec. revert s1. induction s2 as [|c s2 IH]; intros [|x s1]; cbn; try done.
  destruct (x =? c); [apply IH|done].
Qed.

Lemma strstr_nil s : grub_strstr s [] = None.
Proof. by induction s. Qed.

(** The first place where [s2] occurs in [s1]. *)
Lemma strstr_found s1 s2 r : grub_strstr s1 s2 = Some r ->
  exists k, s1 = take k s1 ++ r /\ r = drop k s1 /\ s2 `prefix_of` r /\
    forall i, (i < k)%nat -> ~ s2 `prefix_of` drop i s1.
Proof.
  induction s1 as [|c s1 IH]; cbn [grub_strstr]; [done|].
  destruct (negb _ && starts_with (c :: s1) s2) eqn:E.
  - intros [= <-]. apply andb_true_iff in E as [_ E%starts_with_spec]. exists O.
    split_and!; [done..|]. lia.
  - intros Hs. destruct (IH Hs) as (k & E1 & E2 & Hp & Hf). exists (S k). cbn. split_and!; [by f_equal|done..|].
    intros [|i] Hi; [|apply Hf; lia]. cbn. intros Hp'. apply andb_false_iff in E as [E|E].
    + rewrite negb_false_iff, Z.eqb_eq in E. destruct s2; [|by cbn in E]. by rewrite strstr_nil in Hs.
    + apply starts_with_spec in Hp'. congruence.
Qed.

Lemma strstr_absent s1 s2 : s2 <> [] -> grub_strstr s1 s2 = None ->
  forall i, (i < length s1)%nat -> ~ s2 `prefix_of` drop i s1.
Proof.
  intros H2. induction s1 as [|c s1 IH]; cbn [grub_strstr length]; [lia|].
  destruct (negb _ && starts_with (c :: s1) s2) eqn:E; [done|]. intros Hs [|i] Hi; [|apply IH; [done|lia]].
  apply andb_false_iff in E as [E|E].
  - rewrite negb_false_iff, Z.eqb_eq in E. by destruct s2.
  - cbn. intros Hp%starts_with_spec. congruence.
Qed.

Lemma strcmp_refl s : grub_strcmp s s = 0.
Proof. induction s as [|c s IH]; cbn; [done|]. by rewrite Z.ltb_irrefl. Qed.

Lemma s8_inj a b : is_byte a -> is_byte b -> s8 a = s8 b -> a = b.
Proof.
  unfold is_byte, s8, signed. intros Ha Hb.
  destruct (Z.ltb_spec (a mod 2 ^ 8) (2 ^ (8 - 1))), (Z.ltb_spec (b mod 2 ^ 8) (2 ^ (8 - 1))); lia.
Qed.

Lemma strcmp_eq s1 s2 : Forall is_byte s1 -> Forall is_byte s2 -> grub_strcmp s1 s2 = 0 -> s1 = s2.
Proof.
  intros H1. revert s2. induction H1 as [|a s1 Ha _ IH]; intros s2 [|b s2' Hb H2]; cbn; try done.
  - by destruct (_ <? _).
  - by destruct (_ <? _).
  - destruct (Z.ltb_spec (s8 a) (s8 b)); [done|]. destruct (Z.ltb_spec (s8 b) (s8 a)); [done|].
    intros E. f_equal; [apply s8_inj; [done..|lia]|by apply IH].
Qed.

Lemma strcmp_spec s1 s2 : text s1 -> text s2 -> grub_strcmp s1 s2 = 0 <-> s1 = s2.
Proof.
  intros H1%text_bytes H2%text_bytes. split; [by apply strcmp_eq|]. intros ->. apply strcmp_refl.
Qed.

(** *** [strip] and words *)

Lemma skip_ws_suffix s : exists k, s = k ++ skip_ws s /\ Forall (fun c => grub_isspace c = true) k.
Proof.
  induction s as [|c s (k & E & Hk)]; cbn; [by exists []|].
  destruct (grub_isspace c) eqn:Ec; [|by exists []]. exists (c :: k). split; [cbn; by f_equal|by constructor].
Qed.

(** *** Numbers *)

Definition digit_char (d : Z) : Z := if 9 <? d then d + ch "a" - 10 else ch "0" + d.

Lemma digit_of_char mult d : mult = 10 \/ mult = 16 -> 0 <= d < mult ->
  digit_of mult (digit_char d) = Some d.
Proof.
  intros Hm Hd. assert (Hall : forallb (fun k => let d := Z.of_nat k in
    (match digit_of 16 (digit_char d) with Some e => e =? d | None => false end) &&
    (if d <? 10 then match digit_of 10 (digit_char d) with Some e => e =? d | None => false end else true))
    (seq 0 16) = true) by (vm_compute; reflexivity).
  rewrite forallb_forall in Hall. specialize (Hall (Z.to_nat d)).
  cbv zeta in Hall. rewrite Z2Nat.id in Hall by lia.
  apply andb_true_iff in Hall as [H16 H10]; [|apply in_seq; lia].
  destruct Hm as [->| ->].
  - destruct (Z.ltb_spec d 10); [|lia]. destruct (digit_of 10 _); [|done]. f_equal. by apply Z.eqb_eq.
  - destruct (digit_of 16 _); [|done]. f_equal. by apply Z.eqb_eq.
Qed.

(** The number that digits stand for, the last digit first. *)
Fixpoint of_digits (mult : Z) (ds : list Z) : Z :=
  match ds with [] => 0 | d :: ds => d + mult * of_digits mult ds end.

Lemma number_digits_spec mult fuel : mult = 10 \/ mult = 16 -> forall num : Z,
  0 <= num < 2 ^ Z.of_nat (S fuel) -> exists ds : list Z, ds <> [] /\
    number_digits (S fuel) num mult = Ret (digit_char <$> ds) /\ Forall (fun d => 0 <= d < mult) ds /\
    of_digits mult ds = num.
Proof.
  intros Hm. induction fuel as [|fuel IH]; intros num Hn.
  - exists [num]. change (2 ^ Z.of_nat 1) with 2 in Hn. split_and!; [done| | |cbn; lia].
    + cbn [number_digits]. rewrite Z.div_small, Z.mod_small by (destruct Hm as [->| ->]; lia). done.
    + apply Forall_singleton. destruct Hm as [->| ->]; lia.
  - remember (S fuel) as f eqn:Ef. cbn [number_digits]. destruct (Z.eqb_spec (num / mult) 0) as [E|E].
    + exists [num]. assert (0 <= num < mult) by (destruct Hm as [->| ->]; lia).
      split_and!; [done| | |cbn; lia]; [by rewrite Z.mod_small by done|by apply Forall_singleton].
    + destruct (IH (num / mult)) as (ds & Hne & Eds & Hall & Hv).
      { rewrite (Nat2Z.inj_succ f), Z.pow_succ_r in Hn by lia. destruct Hm as [->| ->]; lia. }
      exists (num mod mult :: ds). rewrite Eds. split_and!; [done..| |].
      * constructor; [|done]. destruct Hm as [->| ->]; lia.
      * cbn. rewrite Hv. destruct Hm as [->| ->]; lia.
Qed.

Lemma of_digits_nonneg mult ds : 0 <= mult -> Forall (fun d => 0 <= d < mult) ds -> 0 <= of_digits mult ds.
Proof. intros Hm. induction 1; cbn; [lia|]. nia. Qed.

Lemma parse_digits_app mult ds : mult = 10 \/ mult = 16 -> Forall (fun d => 0 <= d < mult) ds ->
  forall acc f r, 0 <= acc -> acc * mult ^ Z.of_nat (length ds) + of_digits mult ds <= MAXINT ->
  parse_digits mult acc f (reverse (digit_char <$> ds) ++ r) =
  parse_digits mult (acc * mult ^ Z.of_nat (length ds) + of_digits mult ds)
    (f || negb (Z.of_nat (length ds) =? 0)) r.
Proof.
  intros Hm. induction 1 as [|d ds Hd Hds IH]; intros acc f r Ha Hmax.
  - cbn. rewrite orb_false_r. f_equal. lia.
  - assert (Hp : mult ^ Z.of_nat (length (d :: ds)) = mult * mult ^ Z.of_nat (length ds)).
    { cbn [length]. rewrite Nat2Z.inj_succ, Z.pow_succ_r by lia. done. }
    rewrite Hp in Hmax |- *. cbn [of_digits] in Hmax |- *.
    pose proof (of_digits_nonneg mult ds ltac:(lia) Hds) as Hnn.
    rewrite fmap_cons, reverse_cons, <- (assoc_L _). cbn [app].
    set (X := acc * mult ^ Z.of_nat (length ds) + of_digits mult ds).
    assert (HX : 0 <= X). { unfold X. assert (0 <= mult ^ Z.of_nat (length ds)) by (apply Z.pow_nonneg; lia). nia. }
    assert (EX : acc * (mult * mult ^ Z.of_nat (length ds)) + (d + mult * of_digits mult ds) = X * mult + d)
      by (unfold X; ring).
    rewrite EX in Hmax |- *.
    rewrite IH; [|done|fold X; nia]. fold X. cbn [parse_digits cur].
    rewrite digit_of_char by done.
    destruct (Z.ltb_spec ((MAXINT - d) / mult) X) as [Hlt|Hge].
    { exfalso. destruct Hm as [->| ->]; lia. }
    rewrite orb_true_r. done.
Qed.

Lemma parse_digits_end mult acc r : digit_of mult (cur r) = None ->
  parse_digits mult acc true r = Some (r, acc).
Proof. intros E. destruct r; cbn [parse_digits]; by rewrite E. Qed.

Lemma number_parts num mult : mult = 10 \/ mult = 16 -> 0 <= num <= MAXINT -> exists ds : list Z,
  ds <> [] /\ number_digits digits_fuel num mult = Ret (digit_char <$> ds) /\
  Forall (fun d => 0 <= d < mult) ds /\ of_digits mult ds = num /\
  forall r, digit_of mult (cur r) = None ->
    parse_digits mult 0 false (reverse (digit_char <$> ds) ++ r) = Some (r, num).
Proof.
  intros Hm Hn. destruct (number_digits_spec mult 31 Hm num) as (ds & Hne & E & Hall & Hv).
  { change (2 ^ Z.of_nat 32) with (2 * (MAXINT + 1)). unfold MAXINT in *. lia. }
  exists ds. split; [done|]. split; [exact E|]. split; [done|]. split; [done|].
  intros r Hr. rewrite parse_digits_app; [|done|done|lia|].
  - rewrite Hv, Z.mul_0_l, Z.add_0_l. destruct ds as [|d ds]; [done|].
    change (false || negb (Z.of_nat (length (d :: ds)) =? 0)) with true. by rewrite parse_digits_end.
  - rewrite Hv. lia.
Qed.

Lemma parse_digits_over mult ds : mult = 10 \/ mult = 16 -> Forall (fun d => 0 <= d < mult) ds ->
  forall acc f r, 0 <= acc <= MAXINT -> MAXINT < acc * mult ^ Z.of_nat (length ds) + of_digits mult ds ->
  parse_digits mult acc f (reverse (digit_char <$> ds) ++ r) = None.
Proof.
  intros Hm. induction 1 as [|d ds Hd Hds IH]; intros acc f r Ha Hmax.
  - cbn in Hmax. lia.
  - rewrite fmap_cons, reverse_cons, <- (assoc_L _). cbn [app].
    destruct (Z.le_gt_cases (acc * mult ^ Z.of_nat (length ds) + of_digits mult ds) MAXINT) as [Hle|Hgt];
      [|by apply IH].
    rewrite parse_digits_app by (done || lia). cbn [parse_digits cur]. rewrite digit_of_char by done.
    set (X := acc * mult ^ Z.of_nat (length ds) + of_digits mult ds) in *.
    assert (EX : acc * mult ^ Z.of_nat (length (d :: ds)) + of_digits mult (d :: ds) = X * mult + d).
    { unfold X. cbn [length of_digits]. rewrite Nat2Z.inj_succ, Z.pow_succ_r by lia. ring. }
    rewrite EX in Hmax. destruct (Z.ltb_spec ((MAXINT - d) / mult) X); [done|].
    exfalso. destruct Hm as [->| ->]; lia.
Qed.

Lemma convert_spec c num : c = ch "d" \/ c = ch "x" -> 0 <= num <= MAXINT ->
  convert_to_ascii c num =
  reverse <$> number_digits digits_fuel num (if c =? ch "x" then 16 else 10).
Proof.
  intros Hc Hn. unfold convert_to_ascii. cbv zeta. rewrite u32_id by (unfold is_u32, MAXINT in *; lia).
  replace (Z.testbit num 31) with false.
  - cbn [andb]. by destruct Hc as [->| ->].
  - symmetry. apply Z.bits_above_log2; [lia|]. destruct (Z.eqb_spec num 0) as [->|]; [cbn; lia|].
    apply Z.log2_lt_pow2; unfold MAXINT in *; lia.
Qed.

Lemma parse_hex s : safe_parse_maxint (bstr "0x" ++ s) = parse_digits 16 0 false s.
Proof. reflexivity. Qed.

(** Nothing but a zero may be taken for the start of a hexadecimal number. *)
Lemma parse_dec ds r : ds <> [] -> Forall (fun d => 0 <= d < 10) ds ->
  tolower (s8 (cur r)) <> ch "x" ->
  safe_parse_maxint (reverse (digit_char <$> ds) ++ r) =
  parse_digits 10 0 false (reverse (digit_char <$> ds) ++ r).
Proof.
  intros Hne Hall Hr. unfold safe_parse_maxint.
  destruct (tolower (s8 (cur (tail _))) =? ch "x") eqn:E; [|by rewrite andb_false_r].
  exfalso. apply Z.eqb_eq in E. rewrite <- fmap_reverse in E.
  assert (Hrev : Forall (fun d => 0 <= d < 10) (reverse ds)) by by apply Forall_reverse.
  destruct (reverse ds) as [|d [|d' l]] eqn:El.
  - apply (f_equal reverse) in El. rewrite reverse_involutive in El. by subst.
  - by apply Hr.
  - cbn in E. apply Forall_cons in Hrev as [_ [Hd' _]%Forall_cons].
    assert (Hall10 : forallb (fun k => negb (tolower (s8 (digit_char (Z.of_nat k))) =? ch "x")) (seq 0 10) = true)
      by (vm_compute; reflexivity).
    rewrite forallb_forall in Hall10. specialize (Hall10 (Z.to_nat d')). rewrite Z2Nat.id in Hall10 by lia.
    rewrite E, Z.eqb_refl in Hall10. discriminate Hall10. apply in_seq. lia.
Qed.

(** C26: A number that [convert_to_ascii] writes is the number that
    [safe_parse_maxint] reads, in decimal and, after 0x, in hexadecimal, and what
    follows the number is left. *)
Theorem number_roundtrip n r : 0 <= n <= MAXINT -> digit_of 16 (cur r) = None ->
  tolower (s8 (cur r)) <> ch "x" -> exists dec hex,
  convert_to_ascii (ch "d") n = Ret dec /\ safe_parse_maxint (dec ++ r) = Some (r, n) /\
  convert_to_ascii (ch "x") n = Ret hex /\ safe_parse_maxint (bstr "0x" ++ hex ++ r) = Some (r, n).
Proof.
  intros Hn Hr Hx.
  destruct (number_parts n 10 (or_introl eq_refl) Hn) as (d & Hd & Ed & Hall & _ & Pd).
  destruct (number_parts n 16 (or_intror eq_refl) Hn) as (h & _ & Eh & _ & _ & Ph).
  exists (reverse (digit_char <$> d)), (reverse (digit_char <$> h)).
  rewrite !convert_spec by auto. change (ch "d" =? ch "x") with false. rewrite Z.eqb_refl, Ed, Eh.
  split; [done|]. split; [|split; [done|]].
  - rewrite parse_dec by done. apply Pd. revert Hr. unfold digit_of. cbv zeta.
    destruct (9 <? _); [|done]. done.
  - rewrite parse_hex. by apply Ph.
Qed.

(** A decimal number above the largest [int] is refused. *)
Lemma number_too_large ds r : Forall (fun d => 0 <= d < 10) ds -> ds <> [] ->
  tolower (s8 (cur r)) <> ch "x" -> MAXINT < of_digits 10 ds ->
  safe_parse_maxint (reverse (digit_char <$> ds) ++ r) = None.
Proof.
  intros Hall Hne Hx Hmax. rewrite parse_dec by done.
  apply parse_digits_over; [by left|done|unfold MAXINT; lia|lia].
Qed.

(** *** [memmove] *)

Lemma rd8_lookup b i : 0 <= i < Z.of_nat (length b) -> exists c, b !! Z.to_nat i = Some c /\ rd8 b i = Ret c.
Proof.
  intros Hi. destruct (lookup_lt_is_Some_2 b (Z.to_nat i)) as [c E]; [lia|]. exists c. split; [done|].
  unfold rd8. destruct (Z.leb_spec 0 i); [by rewrite E|lia].
Qed.

(** The bytes of [b] from [from] on are in [b'] at [to], the others as in [b]. *)
Definition moved (b b' : list Z) (to from : Z) (n : nat) : Prop :=
  length b' = length b /\ forall i : nat, b' !! i =
    if decide (to <= Z.of_nat i < to + Z.of_nat n) then b !! Z.to_nat (Z.of_nat i - to + from) else b !! i.

Lemma moved_app b b' to from n : 0 <= to -> 0 <= from -> to + Z.of_nat n <= Z.of_nat (length b) ->
  from + Z.of_nat n <= Z.of_nat (length b) -> moved b b' to from n ->
  b' = take (Z.to_nat to) b ++ take n (drop (Z.to_nat from) b) ++ drop (Z.to_nat to + n) b.
Proof.
  intros Ht Hf Ht' Hf' [Hl Hm]. apply list_eq. intros i. rewrite Hm.
  destruct (decide (Z.to_nat to <= i)%nat) as [Hi|Hi].
  - rewrite lookup_app_r by (rewrite length_take; lia). rewrite length_take, Nat.min_l by lia.
    destruct (decide (i < Z.to_nat to + n)%nat) as [Hi'|Hi'].
    + rewrite decide_True by lia. rewrite lookup_app_l by (rewrite length_take, length_drop; lia).
      rewrite lookup_take by lia. rewrite decide_True by lia. rewrite lookup_drop. f_equal. lia.
    + rewrite decide_False by lia. rewrite lookup_app_r by (rewrite length_take, length_drop; lia).
      rewrite length_take, length_drop, lookup_drop. f_equal. lia.
  - rewrite decide_False by lia. rewrite lookup_app_l by (rewrite length_take; lia).
    rewrite lookup_take. by rewrite decide_True by lia.
Qed.

Lemma copied_byte b to from : Forall is_byte b -> 0 <= to < Z.of_nat (length b) ->
  0 <= from < Z.of_nat (length b) -> exists c, b !! Z.to_nat from = Some c /\ rd8 b from = Ret c /\
    wr8 b to c = Ret (<[Z.to_nat to := c]> b) /\ Forall is_byte (<[Z.to_nat to := c]> b).
Proof.
  intros Hb Ht Hf. destruct (rd8_lookup b from Hf) as (c & E & Er). exists c.
  assert (Hc : is_byte c) by (eapply Forall_lookup_1; [exact Hb|exact E]).
  split_and!; [done|done| |by apply Forall_insert]. rewrite wr8_inside by done. by rewrite u8_id.
Qed.

Lemma copy_up_moves n : forall b to from, Forall is_byte b -> 0 <= to -> 0 <= from ->
  to <= from \/ from + Z.of_nat n <= to -> to + Z.of_nat n <= Z.of_nat (length b) ->
  from + Z.of_nat n <= Z.of_nat (length b) ->
  exists b', copy_up n b to from = Ret b' /\ moved b b' to from n.
Proof.
  induction n as [|n IH]; intros b to from Hb Ht Hf Hd Ht' Hf'; cbn [copy_up].
  { exists b. split; [done|]. split; [done|]. intros i. by rewrite decide_False by lia. }
  destruct (copied_byte b to from) as (c & E & Er & Ew & Hb1); [done|lia..|].
  rewrite Er. cbn [mbind C_bind]. rewrite Ew. cbn [mbind C_bind].
  destruct (IH (<[Z.to_nat to:=c]> b) (to + 1) (from + 1)) as (b' & -> & Hl & Hm);
    [done|lia..|rewrite length_insert; lia|rewrite length_insert; lia|].
  exists b'. split; [done|]. split; [by rewrite Hl, length_insert|]. intros i. rewrite Hm.
  destruct (decide (Z.of_nat i = to)) as [Hi|Hi].
  - rewrite decide_False by lia. rewrite decide_True by lia.
    replace (Z.to_nat to) with i by lia. rewrite list_lookup_insert_eq by lia. rewrite <- E. f_equal. lia.
  - destruct (decide (to + 1 <= Z.of_nat i < to + 1 + Z.of_nat n)).
    + rewrite decide_True by lia. rewrite list_lookup_insert_ne by lia. f_equal. lia.
    + rewrite decide_False by lia. by rewrite list_lookup_insert_ne by lia.
Qed.

Lemma copy_down_moves n : forall b to from, Forall is_byte b -> 0 <= to -> 0 <= from ->
  from <= to -> to + Z.of_nat n <= Z.of_nat (length b) -> from + Z.of_nat n <= Z.of_nat (length b) ->
  exists b', copy_down n b (to + Z.of_nat n) (from + Z.of_nat n) = Ret b' /\ moved b b' to from n.
Proof.
  induction n as [|n IH]; intros b to from Hb Ht Hf Hd Ht' Hf'; cbn [copy_down].
  { exists b. split; [done|]. split; [done|]. intros i. by rewrite decide_False by lia. }
  replace (to + Z.of_nat (S n) - 1) with (to + Z.of_nat n) by lia.
  replace (from + Z.of_nat (S n) - 1) with (from + Z.of_nat n) by lia.
  destruct (copied_byte b (to + Z.of_nat n) (from + Z.of_nat n)) as (c & E & Er & Ew & Hb1); [done|lia..|].
  rewrite Er. cbn [mbind C_bind]. rewrite Ew. cbn [mbind C_bind].
  destruct (IH (<[Z.to_nat (to + Z.of_nat n):=c]> b) to from) as (b' & -> & Hl & Hm);
    [done|lia..|rewrite length_insert; lia|rewrite length_insert; lia|].
  exists b'. split; [done|]. split; [by rewrite Hl, length_insert|]. intros i. rewrite Hm.
  destruct (decide (Z.of_nat i = to + Z.of_nat n)) as [Hi|Hi].
  - rewrite decide_False by lia. rewrite decide_True by lia.
    replace (Z.to_nat (to + Z.of_nat n)) with i by lia. rewrite list_lookup_insert_eq by lia.
    rewrite <- E. f_equal. lia.
  - destruct (decide (to <= Z.of_nat i < to + Z.of_nat n)).
    + rewrite decide_True by lia. by rewrite list_lookup_insert_ne by lia.
    + rewrite decide_False by lia. by rewrite list_lookup_insert_ne by lia.
Qed.

(** [memmove] puts the bytes that were at [from] to [to], also where both ranges
    overlap, and keeps every other byte. *)
Theorem memmove_spec b to from len : Forall is_byte b -> 0 <= to -> 0 <= from -> 0 <= len ->
  to + len <= Z.of_nat (length b) -> from + len <= Z.of_nat (length b) -> exists p,
  grub_memmove b to from len =
    Ret (take (Z.to_nat to) b ++ take (Z.to_nat len) (drop (Z.to_nat from) b) ++
         drop (Z.to_nat to + Z.to_nat len) b, p).
Proof.
  intros Hb Ht Hf Hn Ht' Hf'. unfold grub_memmove.
  destruct (Z.eqb_spec from to) as [->|Hne].
  { exists to. do 2 f_equal. apply moved_app; [done..|lia|lia|]. split; [done|]. intros i.
    destruct (decide _); [f_equal; lia|done]. }
  destruct (Z.ltb_spec len 0); [lia|]. destruct (Z.ltb_spec from to), (Z.ltb_spec to (from + len)); cbn [andb].
  - destruct (copy_down_moves (Z.to_nat len) b to from) as (b' & E & Hm); [done|lia..|].
    rewrite Z2Nat.id in E by lia. rewrite E. exists to. cbn [mbind C_bind]. do 2 f_equal.
    by apply moved_app; [lia..|].
  - destruct (copy_up_moves (Z.to_nat len) b to from) as (b' & -> & Hm); [done|lia..|].
    exists (to + len). cbn [mbind C_bind]. do 2 f_equal. by apply moved_app; [lia..|].
  - destruct (copy_up_moves (Z.to_nat len) b to from) as (b' & -> & Hm); [done|lia..|].
    exists (to + len). cbn [mbind C_bind]. do 2 f_equal. by apply moved_app; [lia..|].
  - destruct (copy_up_moves (Z.to_nat len) b to from) as (b' & -> & Hm); [done|lia..|].
    exists (to + len). cbn [mbind C_bind]. do 2 f_equal. by apply moved_app; [lia..|].
Qed.

(** Where it copies upwards the pointer returned is the end of the copy. *)
Lemma memmove_result b : grub_memmove (1 :: 2 :: b) 0 1 1 = Ret (2 :: 2 :: b, 1).
Proof. reflexivity. Qed.

(** *** Strings in buffers, and runs *)

(** Two runs that end in the same way, with results that are related. *)
Definition same_run {A B} (R : A -> B -> Prop) (m : C A) (n : C B) : Prop :=
  match m, n with
  | Ret a, Ret b => R a b
  | Exit c, Exit d => c = d
  | Undef, Undef | NoFuel, NoFuel => True
  | _, _ => False
  end.

Lemma same_bind {A B A' B'} (R : A -> B -> Prop) (Q : A' -> B' -> Prop) m n f g :
  same_run R m n -> (forall a b, n = Ret b -> R a b -> same_run Q (f a) (g b)) ->
  same_run Q (m ≫= f) (n ≫= g).
Proof. destruct m, n; cbn; auto; try done. Qed.

Lemma same_refl {A} (m : C A) : same_run eq m m.
Proof. by destruct m. Qed.

Lemma strcpy_app a r t : text t -> (length t < length r)%nat ->
  strcpy_at (a ++ r) (Z.of_nat (length a)) t = Ret (a ++ t ++ 0 :: drop (S (length t)) r).
Proof.
  intros Ht Hl. unfold strcpy_at. rewrite <- (take_drop (S (length t)) r) at 1.
  rewrite wr_bytes_pre; [by rewrite <- app_assoc|done| |].
  - rewrite length_app, length_take; cbn [length]. lia.
  - apply Forall_app. split; [by apply text_bytes|]. apply Forall_singleton. unfold is_byte. lia.
Qed.

(** *** A string in memory *)

(** The string [s] with its end is at the place [p] of [b]. *)
Definition string_at (b : list Z) (p : Z) (s : list Z) : Prop :=
  text s /\ 0 <= p /\ exists r, drop (Z.to_nat p) b = s ++ 0 :: r.

Lemma string_at_read b p s : string_at b p s -> str_at b p = Ret s.
Proof.
  intros (Ht & Hp & r & E). unfold str_at. destruct (Z.leb_spec 0 p); [|lia]. rewrite E. by apply cstr_text.
Qed.

Lemma string_at_inside b p s : string_at b p s -> p + Z.of_nat (length s) < Z.of_nat (length b).
Proof.
  intros (_ & Hp & r & E). apply (f_equal length) in E. rewrite length_drop, length_app in E.
  cbn [length] in E. lia.
Qed.

Lemma string_at_unique b p s s' : string_at b p s -> string_at b p s' -> s = s'.
Proof. intros H%string_at_read H'%string_at_read. congruence. Qed.

(** What does not change the bytes of a string keeps it. *)
Lemma string_at_same b b' p s : string_at b p s ->
  (forall i : nat, p <= Z.of_nat i <= p + Z.of_nat (length s) -> b' !! i = b !! i) -> string_at b' p s.
Proof.
  intros (Ht & Hp & r & E) Hsame. split; [done|]. split; [done|].
  exists (drop (S (length s)) (drop (Z.to_nat p) b')).
  assert (Et : take (S (length s)) (drop (Z.to_nat p) b') = s ++ [0]).
  { apply list_eq. intros i. destruct (decide (i < S (length s))%nat) as [Hi|Hi].
    - rewrite lookup_take_lt by done. rewrite lookup_drop, Hsame by lia. rewrite <- lookup_drop, E.
      destruct (decide (i < length s)%nat).
      + by rewrite !lookup_app_l by lia.
      + replace i with (length s) by lia. by rewrite !lookup_app_r, Nat.sub_diag by lia.
    - rewrite !lookup_ge_None_2; [done|rewrite length_app; cbn; lia|rewrite length_take; lia]. }
  rewrite <- (take_drop (S (length s)) (drop (Z.to_nat p) b')) at 1. rewrite Et. by rewrite <- app_assoc.
Qed.

Lemma strcpy_at_spec b p s : text s -> 0 <= p -> p + Z.of_nat (length s) < Z.of_nat (length b) ->
  exists b', strcpy_at b p s = Ret b' /\ length b' = length b /\ string_at b' p s /\
    forall i : nat, Z.of_nat i < p \/ p + Z.of_nat (length s) < Z.of_nat i -> b' !! i = b !! i.
Proof.
  intros Hs Hp Hl.
  assert (Hlt : length (take (Z.to_nat p) b) = Z.to_nat p) by (rewrite length_take; lia).
  pose proof (strcpy_app (take (Z.to_nat p) b) (drop (Z.to_nat p) b) s Hs) as E.
  rewrite take_drop, Hlt, Z2Nat.id in E by lia. rewrite E by (rewrite length_drop; lia).
  eexists. split; [done|]. rewrite drop_drop. split_and!.
  - rewrite !length_app, Hlt. cbn [length]. rewrite length_drop. lia.
  - split; [done|]. split; [done|]. exists (drop (Z.to_nat p + S (length s)) b).
    rewrite <- Hlt at 1. by rewrite drop_app_length.
  - intros i [Hi|Hi].
    + rewrite lookup_app_l by lia. by rewrite lookup_take_lt by lia.
    + rewrite lookup_app_r by lia. rewrite Hlt, lookup_app_r by lia.
      replace (i - Z.to_nat p - length s)%nat with (S (i - Z.to_nat p - length s - 1)) by lia.
      rewrite lookup_cons_ne_0 by done. cbn [Nat.pred].
      rewrite lookup_drop. f_equal. lia.
Qed.

(** ** Examples *)

Example skip_prefix : skip_to true (bstr "set A=b c") = bstr "A=b c" /\
  skip_to true (bstr "A = b c") = bstr "b c" /\ skip_to false (bstr "A = b") = bstr "= b".
Proof. by vm_compute. Qed.

Lemma number_roundtrip_witness : 0 <= 4000 <= MAXINT /\ exists dec hex,
  convert_to_ascii (ch "d") 4000 = Ret dec /\ safe_parse_maxint (dec ++ bstr " k") = Some (bstr " k", 4000) /\
  convert_to_ascii (ch "x") 4000 = Ret hex /\
  safe_parse_maxint (bstr "0x" ++ hex ++ bstr " k") = Some (bstr " k", 4000).
Proof.
  split; [unfold MAXINT; lia|]. apply (number_roundtrip 4000 (bstr " k")).
  - unfold MAXINT. lia.
  - reflexivity.
  - vm_compute. discriminate.
Defined.

Lemma memmove_spec_witness : exists p,
  grub_memmove (bstr "abcdef") 2 0 3 = Ret (bstr "ababcf", p) /\ 0 <= 3.
Proof.
  destruct (memmove_spec (bstr "abcdef") 2 0 3) as [p E];
    [apply bytes_check; reflexivity|lia|lia|lia|vm_compute; discriminate|vm_compute; discriminate|].
  exists p. split; [exact E|lia].
Defined.
