(* ===== verification/BootCfg.v ===== *)
(** * Configuration files of the boot loader ([bootseq/loader/cfgparse.c])

    A file is read in pieces of 1024 bytes; a line may lie in several pieces, and
    lines that end with a continuation sign are put together. *)
From S2P Require Import Prelude BootLib.

Definition BUFSIZE : Z := 0x400.
Definition LF : Z := 10.
Definition CR : Z := 13.

(** ** Strings in a static buffer

    [below] is the byte that lies in front of the buffer: for an empty string at
    its beginning the code looks there. *)

Section strings.
Variable below : Z.

Definition rdb (s : list Z) (i : Z) : C Z := if i =? -1 then Ret below else rd8 s i.

(** The two loops of [strip]. *)
Fixpoint strip_tail (fuel : nat) (s : list Z) (i : Z) : C (list Z) :=
  match fuel with
  | O => NoFuel
  | S fuel =>
      c ← rdb s i;
      if grub_isspace c then s ← wr8 s i 0; strip_tail fuel s (i - 1) else Ret s
  end.
Fixpoint strip_head (fuel : nat) (s : list Z) (p : Z) : C Z :=
  match fuel with
  | O => NoFuel
  | S fuel => c ← rdb s p; if grub_isspace c then strip_head fuel s (p + 1) else Ret p
  end.

(** The buffer afterwards and the pointer that is returned. *)
Definition strip (s : list Z) (p : Z) : C (list Z * Z) :=
  t ← str_at s p;
  s ← strip_tail (length s + 2) s (p + Z.of_nat (length t) - 1);
  p ← strip_head (length s + 2) s p;
  Ret (s, p).

(** Ends the string at the first [c], if there is one. *)
Definition cut (c : Z) (s : list Z) (p : Z) : C (list Z) :=
  t ← str_at s p;
  let l := grub_index c t in
  if l =? 0 then Ret s else wr8 s (p + l - 1) 0.

Definition trim (s : list Z) (p : Z) : C (list Z) := s ← cut CR s p; cut LF s p.

(** ** Lines *)

(** The loop of [getline]: [i] bytes are in [linebuf]. *)
Fixpoint getline_loop (fuel : nat) (b : list Z) (n q i : Z) : C (list Z * Z) :=
  match fuel with
  | O => NoFuel
  | S fuel =>
      c ← rd8 b q;
      if negb (c =? CR) && negb (c =? LF) && negb (c =? 0) && (q <? n) then
        _ ← require (i <? BUFSIZE);
        '(line, q) ← getline_loop fuel b n (q + 1) (i + 1);
        Ret (c :: line, q)
      else Ret ([], q)
  end.

(** A byte [c] at [q] that belongs to the end of the line. *)
Definition line_end (c : Z) (b line : list Z) (q : Z) : C (list Z * Z) :=
  x ← rd8 b q;
  if x =? c then
    _ ← require (Z.of_nat (length line) <? BUFSIZE); Ret (line ++ [c], q + 1)
  else Ret (line, q).

Definition getline (b : list Z) (p n : Z) : C (list Z * Z) :=
  '(line, q) ← getline_loop (length b + 1) b n p 0;
  '(line, q) ← line_end CR b line q;
  '(line, q) ← line_end LF b line q;
  _ ← require (Z.of_nat (length line) <? BUFSIZE);
  Ret (line, q).

(** ** The parser

    The static variables of [process_cfg]. *)
Record cfg_state := { cs_s : list Z; s_pos : Z; cs_str : list Z; str_pos : Z }.

(** [panic] stops the machine. *)
Definition panic {A} : C A := Exit 1.

Context {X : Type}.
Variable process_cfg_line : list Z -> X -> C (Z * X).

(** The end of the line, comments and spaces are removed; the pointer is where the
    rest begins. *)
Definition clean_line (s : list Z) : C (list Z * Z) :=
  s ← trim s 0; '(s, line) ← strip s 0;
  s ← cut (ch ";") s line;
  s ← cut (ch "#") s line;
  strip s line.

(** What is done with a line [s] that is complete; [false] is the result -1. *)
Definition one_line (st : cfg_state) (x : X) : C (bool * cfg_state * X) :=
  let '{| cs_s := s; s_pos := _; cs_str := str; str_pos := str_pos |} := st in
  '(s, line) ← clean_line s;
  t ← str_at s line;
  let i := Z.of_nat (length t) in
  c ← rdb s (line + i - 1);
  if (c =? ch "^") || (c =? ch "&") then
    s ← wr8 s (line + i - 1) 0;
    if BUFSIZE <? str_pos + i - 1 then panic
    else
      t ← str_at s line;
      str ← strcpy_at str str_pos t;
      s ← wr8 s 0 0;
      Ret (true, {| cs_s := s; s_pos := 0; cs_str := str; str_pos := str_pos + (i - 1) |}, x)
  else if BUFSIZE <? str_pos + i then panic
  else
    str ← strcpy_at str str_pos t;
    s ← wr8 s 0 0;
    t ← str_at str 0;
    '(rc, x) ← process_cfg_line t x;
    Ret (negb (rc =? 0), {| cs_s := s; s_pos := 0; cs_str := str; str_pos := 0 |}, x).

(** The lines of one piece [b] of [rd] bytes; what lies behind the buffer comes
    after them in [b]. *)
Fixpoint lines_loop (fuel : nat) (b : list Z) (rd p : Z) (f : bool) (st : cfg_state) (x : X)
    : C (bool * cfg_state * X) :=
  match fuel with
  | O => NoFuel
  | S fuel =>
      c ← rd8 b p;
      if (c =? 0) || negb f then Ret (true, st, x)
      else
        '(line, p) ← getline b p rd;
        let i := Z.of_nat (length line) in
        if BUFSIZE <? s_pos st + i then panic
        else
          s ← strcpy_at (cs_s st) (s_pos st) line;
          let st := {| cs_s := s; s_pos := s_pos st + i; cs_str := cs_str st; str_pos := str_pos st |} in
          let f := p <? rd in
          final ← rd8 b (rd - 1);
          if f || (final =? LF) then
            '(ok, st, x) ← one_line st x;
            if negb ok then Ret (false, st, x) else lines_loop fuel b rd p f st x
          else lines_loop fuel b rd p f st x
  end.

(** The file functions of the pre-loader: the size when the file can be opened,
    and the bytes read at a position.  [old] is the buffer before it is read
    into, [after] what lies behind it. *)
Variable u_open : option Z.
Variable u_read : Z -> Z -> list Z.
Variable after : list Z.

Fixpoint pieces_loop (fuel : nat) (sz bytes_read : Z) (old : list Z) (st : cfg_state) (x : X)
    : C (Z * cfg_state * X) :=
  match fuel with
  | O => NoFuel
  | S fuel =>
      if sz =? 0 then Ret (1, st, x)
      else
        match u_open with
        | None => Ret (0, st, x)
        | Some _ =>
            let got := u_read bytes_read BUFSIZE in
            let rd := Z.of_nat (length got) in
            if rd =? 0 then Ret (0, st, x)
            else
              _ ← require (rd <=? BUFSIZE);
              let buf := got ++ drop (length got) old in
              let sz := u32 (sz - rd) in
              '(ok, st, x) ← lines_loop (length (buf ++ after) + 1) (buf ++ after) rd 0 true st x;
              if negb ok then Ret (-1, st, x)
              else pieces_loop fuel sz (bytes_read + rd) buf st x
        end
  end.

Definition process_cfg (old : list Z) (st : cfg_state) (x : X) : C (Z * cfg_state * X) :=
  match u_open with
  | None => Ret (0, st, x)
  | Some size => pieces_loop (S (Z.to_nat size)) size 0 old st x
  end.
End strings.

(** ** What the lines of a file are *)

Fixpoint before (c : Z) (l : list Z) : list Z :=
  match l with [] => [] | x :: l' => if x =? c then [] else x :: before c l' end.

(** Without the spaces at both ends. *)
Definition strip_list (l : list Z) : list Z := reverse (skip_ws (reverse (skip_ws l))).

(** What a line of the file says: without its end, spaces and comments. *)
Definition clean (l : list Z) : list Z :=
  strip_list (before (ch "#") (before (ch ";") (strip_list (before LF (before CR l))))).

(** It is continued in the next line, without the sign. *)
Definition continued (l : list Z) : option (list Z) :=
  match last l with
  | Some c => if (c =? ch "^") || (c =? ch "&") then Some (removelast l) else None
  | None => None
  end.

(** The lines put together: those that are complete, after what is there of the
    first one. *)
Fixpoint logical (acc : list Z) (ls : list (list Z)) : list (list Z) :=
  match ls with
  | [] => []
  | l :: ls =>
      match continued (clean l) with
      | Some part => logical (acc ++ part) ls
      | None => (acc ++ clean l) :: logical [] ls
      end
  end.

(** *** Lemmas on strings in a buffer *)

Lemma before_app c l1 l2 : c ∉ l1 -> before c (l1 ++ l2) = l1 ++ before c l2.
Proof.
  induction l1 as [|x l1 IH]; cbn; [done|]. rewrite not_elem_of_cons. intros [Hx Hl].
  destruct (Z.eqb_spec x c); [congruence|]. by rewrite IH.
Qed.

Lemma before_absent c l : c ∉ l -> before c l = l.
Proof. intros H. rewrite <- (app_nil_r l) at 1. rewrite before_app by done. cbn. apply app_nil_r. Qed.

Lemma before_prefix c l : exists r, l = before c l ++ r.
Proof.
  induction l as [|x l [r IH]]; cbn; [by exists []|]. destruct (x =? c); [by exists (x :: l)|].
  exists r. cbn. by f_equal.
Qed.

Lemma text_before c l : text l -> text (before c l).
Proof. intros H. destruct (before_prefix c l) as [r E]. rewrite E in H. by apply text_app in H as [? _]. Qed.

Lemma index_before c l : forall i, 0 <= i ->
  ((c ∉ l) /\ index_from i c l = 0) \/
  (exists r, l = before c l ++ c :: r /\ index_from i c l = i + Z.of_nat (length (before c l)) + 1).
Proof.
  induction l as [|x l IH]; intros i Hi; cbn.
  - left. split; [apply not_elem_of_nil|done].
  - destruct (Z.eqb_spec x c) as [->|Hne].
    + right. exists l. split; [done|]. cbn. lia.
    + destruct (IH (i + 1)) as [[Hn E]|(r & El & E)]; [lia| |].
      * left. split; [by rewrite not_elem_of_cons|done].
      * right. exists r. split; [cbn; by f_equal|]. rewrite E. cbn [length]. lia.
Qed.

Lemma cut_spec c pre t r p : p = Z.of_nat (length pre) -> text t -> exists r',
  cut c (pre ++ t ++ 0 :: r) p = Ret (pre ++ before c t ++ 0 :: r') /\
  length (before c t ++ 0 :: r') = length (t ++ 0 :: r).
Proof.
  intros -> Ht. unfold cut. rewrite str_at_pre by done. cbn [mbind C_bind]. unfold grub_index.
  destruct (index_before c t 0) as [[Hn E]|(r' & El & E)]; [lia| |]; rewrite E; cbv zeta.
  - change (0 =? 0) with true. cbv iota. exists r. rewrite before_absent by done. done.
  - destruct (Z.eqb_spec (0 + Z.of_nat (length (before c t)) + 1) 0); [lia|].
    exists (r' ++ 0 :: r). rewrite El at 1. rewrite <- !app_assoc. cbn [app].
    rewrite app_assoc, wr8_pre by (rewrite length_app; lia). rewrite <- app_assoc. split; [done|].
    rewrite El at 2. rewrite !length_app. cbn [length]. rewrite length_app. cbn [length]. lia.
Qed.

(** *** Spaces *)

Lemma strip_tail_spaces below w : forall a z fuel i, Forall (fun c => grub_isspace c = true) w ->
  i = Z.of_nat (length a + length w) - 1 -> exists z', length z' = length (w ++ z) /\
  Forall (eq 0) (take (length w) z') /\ (drop (length w) z' = z) /\
  strip_tail below (length w + fuel) (a ++ w ++ z) i = strip_tail below fuel (a ++ z') (Z.of_nat (length a) - 1).
Proof.
  induction w as [|c w IH] using rev_ind; intros a z fuel i Hw ->.
  - exists z. split_and!; [done|constructor|done|]. cbn. f_equal. lia.
  - apply Forall_app in Hw as [Hw Hc]. apply Forall_cons_1 in Hc as [Hc _].
    rewrite !(length_app w [c]). cbn [length]. rewrite (Nat.add_comm (length w) 1). cbn [Nat.add strip_tail].
    rewrite <- (app_assoc w). cbn [app].
    destruct (IH a (0 :: z) fuel (Z.of_nat (length a + length w) - 1) Hw eq_refl) as (z' & Hl & Hz & Hd & E).
    exists z'. split_and!.
    + rewrite Hl, !length_app. cbn [length]. lia.
    + assert (Hlk : z' !! length w = Some 0) by (rewrite <- (Nat.add_0_r (length w)), <- lookup_drop, Hd; done).
      rewrite (take_S_r _ _ _ Hlk). apply Forall_app. split; [done|by apply Forall_singleton].
    + replace (S (length w)) with (length w + 1)%nat by lia. by rewrite <- drop_drop, Hd.
    + unfold rdb. destruct (Z.eqb_spec (Z.of_nat (length a + S (length w)) - 1) (-1)); [lia|].
      rewrite (app_assoc a). rewrite rd8_pre by (rewrite length_app; lia). cbn [mbind C_bind].
      rewrite Hc. rewrite wr8_pre by (rewrite length_app; lia). cbn [mbind C_bind].
      change (u8 0) with 0. rewrite <- app_assoc. rewrite <- E. f_equal. lia.
Qed.

Definition spaces (l : list Z) : Prop := Forall (fun c => grub_isspace c = true) l.

Lemma skip_ws_head l c : head (skip_ws l) = Some c -> grub_isspace c = false.
Proof. induction l as [|x l IH]; cbn; [done|]. destruct (grub_isspace x) eqn:E; [done|]. by intros [= <-]. Qed.

Lemma strip_parts t : exists lead trail, t = lead ++ strip_list t ++ trail /\ spaces lead /\ spaces trail /\
  (strip_list t = [] -> trail = []) /\
  (forall c, head (strip_list t) = Some c -> grub_isspace c = false) /\
  (forall c, last (strip_list t) = Some c -> grub_isspace c = false).
Proof.
  destruct (skip_ws_suffix t) as (lead & E1 & H1). destruct (skip_ws_suffix (reverse (skip_ws t))) as (k & E2 & H2).
  assert (E3 : skip_ws t = strip_list t ++ reverse k).
  { unfold strip_list. rewrite <- reverse_app, <- E2. by rewrite reverse_involutive. }
  exists lead, (reverse k). split_and!; [by rewrite <- E3|done|by apply Forall_reverse| | |].
  - intros E. destruct (skip_ws t) as [|c l] eqn:Es; [by cbn in E2; destruct k|].
    exfalso. rewrite E in E3. cbn in E3. assert (Hc : grub_isspace c = false) by (eapply skip_ws_head; by rewrite Es).
    apply Forall_reverse in H2. rewrite <- E3 in H2. apply Forall_cons_1 in H2 as [H2 _]. congruence.
  - intros c Hc. eapply skip_ws_head. rewrite E3. by destruct (strip_list t).
  - intros c Hc. unfold strip_list in Hc. rewrite last_reverse in Hc. by eapply skip_ws_head.
Qed.

Lemma strip_head_spec below lead : forall pre c r fuel p, spaces lead -> grub_isspace c = false ->
  p = Z.of_nat (length pre) -> (length lead < fuel)%nat ->
  strip_head below fuel (pre ++ lead ++ c :: r) p = Ret (p + Z.of_nat (length lead)).
Proof.
  induction lead as [|x lead IH]; intros pre c r fuel p Hl Hc -> Hf; (destruct fuel as [|fuel]; [lia|]);
    cbn [strip_head]; unfold rdb; (destruct (Z.eqb_spec (Z.of_nat (length pre)) (-1)); [lia|]).
  - cbn [app]. rewrite rd8_pre by done. cbn [mbind C_bind]. rewrite Hc. f_equal. cbn. lia.
  - apply Forall_cons_1 in Hl as [Hx Hl]. cbn [app]. rewrite rd8_pre by done. cbn [mbind C_bind]. rewrite Hx.
    specialize (IH (pre ++ [x]) c r fuel (Z.of_nat (length pre) + 1) Hl Hc).
    rewrite <- app_assoc in IH. cbn [app] in IH. rewrite IH.
    + cbn [length]. f_equal. lia.
    + rewrite length_app. cbn. lia.
    + cbn in Hf. lia.
Qed.

Lemma strip_tail_stop below fuel s i c : rdb below s i = Ret c -> grub_isspace c = false ->
  strip_tail below (S fuel) s i = Ret s.
Proof. intros E Hc. cbn [strip_tail]. rewrite E. cbn [mbind C_bind]. by rewrite Hc. Qed.

Lemma text_strip t : text t -> text (strip_list t).
Proof.
  intros H. destruct (strip_parts t) as (lead & trail & E & _). rewrite E in H.
  by apply text_app in H as [_ [H _]%text_app].
Qed.

Lemma strip_blank below pre t r : grub_isspace below = false -> spaces pre -> text t ->
  strip_list t = [] -> exists pre' r',
    strip below (pre ++ t ++ 0 :: r) (Z.of_nat (length pre)) = Ret (pre' ++ 0 :: r', Z.of_nat (length pre)) /\
    length (pre' ++ 0 :: r') = length (pre ++ t ++ 0 :: r) /\ length pre' = length pre /\
    Forall (eq 0) pre'.
Proof.
  intros Hb Hpre Ht Ec. unfold strip. rewrite str_at_pre by done. cbn [mbind C_bind].
  destruct (strip_parts t) as (lead & trail & E & Hlead & _ & Hnil & _). specialize (Hnil Ec).
  rewrite Ec in E. subst trail. rewrite app_nil_r in E. cbn [app] in E. subst lead.
  destruct (strip_tail_spaces below (pre ++ t) [] (0 :: r) (length r + 3)
    (Z.of_nat (length pre) + Z.of_nat (length t) - 1)) as (z' & Hl & Hz & Hd & Es);
    [by apply Forall_app|rewrite length_app; cbn; lia|].
  cbn [app length] in Es. rewrite <- app_assoc in Es.
  replace (length (pre ++ t ++ 0%Z :: r) + 2)%nat with (length (pre ++ t) + (length r + 3))%nat
    by (rewrite !length_app; cbn [length]; lia).
  rewrite Es, Nat.add_comm. cbn [Nat.add]. rewrite (strip_tail_stop below _ _ _ below) by done.
  cbn [mbind C_bind].
  assert (Ez : exists r', z' = take (length pre) z' ++ 0 :: r').
  { rewrite length_app in Hz, Hd.
    destruct (drop (length pre) z') as [|c r'] eqn:Er.
    - apply (f_equal length) in Er. rewrite length_drop, Hl, !length_app in Er. cbn in Er. lia.
    - exists r'. rewrite <- (take_drop (length pre) z') at 1. rewrite Er. do 2 f_equal.
      assert (Hc : z' !! length pre = Some c)
        by (rewrite <- (Nat.add_0_r (length pre)), <- lookup_drop, Er; done).
      destruct t as [|c0 t].
      + cbn in Hd. rewrite Nat.add_0_r, Er in Hd. by injection Hd.
      + symmetry. eapply Forall_lookup_1; [exact Hz|]. rewrite lookup_take_lt; [exact Hc|cbn; lia]. }
  destruct Ez as [r' Ez]. exists (take (length pre) z'), r'.
  assert (Hlp : length (take (length pre) z') = length pre)
    by (rewrite length_take, Hl, !length_app; lia).
  pose proof (strip_head_spec below [] (take (length pre) z') 0 r' (length z' + 2)
    (Z.of_nat (length pre))) as Eh.
  cbn [app length] in Eh. rewrite <- Ez, Z.add_0_r in Eh.
  rewrite Eh; [|constructor|done|by rewrite Hlp|lia]. cbn [mbind C_bind app].
  rewrite <- Ez, Hlp. split; [done|]. split; [|split; [done|]].
  - rewrite Hl, !length_app. cbn. lia.
  - rewrite length_app in Hz. rewrite <- (Nat.min_l (length pre) (length pre + length t)) by lia.
    rewrite <- take_take. by apply Forall_take.
Qed.

Lemma strip_full below pre t r : text t -> strip_list t <> [] -> exists lead r',
    strip below (pre ++ t ++ 0 :: r) (Z.of_nat (length pre)) =
      Ret ((pre ++ lead) ++ strip_list t ++ 0 :: r', Z.of_nat (length (pre ++ lead))) /\
    length ((pre ++ lead) ++ strip_list t ++ 0 :: r') = length (pre ++ t ++ 0 :: r) /\ spaces lead.
Proof.
  intros Ht Hne. unfold strip. rewrite str_at_pre by done. cbn [mbind C_bind].
  destruct (strip_parts t) as (lead & trail & E & Hlead & Htrail & _ & Hhd & Hlast).
  destruct (strip_list t) as [|x core] eqn:Ec; [done|].
  rewrite E.
  assert (Ecore : exists c0 y, x :: core = c0 ++ [y] /\ grub_isspace y = false).
  { destruct (exists_last (l := x :: core)) as (c0 & y & Ey); [done|]. exists c0, y. split; [done|].
    apply Hlast. rewrite Ey. apply last_snoc. }
  destruct Ecore as (c0 & y & Ey & Hy).
  destruct (strip_tail_spaces below trail (pre ++ lead ++ x :: core) (0 :: r)
    (length (pre ++ lead ++ x :: core) + length r + 3)
    (Z.of_nat (length pre) + Z.of_nat (length (lead ++ (x :: core) ++ trail)) - 1))
    as (z' & Hl & Hz & Hd & Es); [done|rewrite !length_app; lia|].
  replace (pre ++ (lead ++ (x :: core) ++ trail) ++ 0 :: r)
    with ((pre ++ lead ++ x :: core) ++ trail ++ 0 :: r) by (by rewrite <- !app_assoc).
  replace (length ((pre ++ lead ++ x :: core) ++ trail ++ 0%Z :: r) + 2)%nat
    with (length trail + (length (pre ++ lead ++ x :: core) + length r + 3))%nat
    by (rewrite !(length_app (pre ++ lead ++ x :: core)), (length_app trail); cbn [length]; lia).
  rewrite Es. rewrite (Nat.add_comm _ 3). cbn [Nat.add].
  rewrite (strip_tail_stop below _ _ _ y); [| |done]; last first.
  { rewrite Ey. unfold rdb. rewrite !length_app. cbn [length].
    destruct (Z.eqb_spec (Z.of_nat (length pre + (length lead + (length c0 + 1))) - 1) (-1)); [lia|].
    rewrite !app_assoc, <- (app_assoc _ [y]). cbn [app]. apply rd8_pre. rewrite !length_app. lia. }
  cbn [mbind C_bind].
  assert (Ez : exists r', z' = 0 :: r').
  { destruct z' as [|c r']; [by rewrite length_app in Hl; cbn in Hl; lia|]. exists r'. f_equal.
    destruct trail as [|c1 trail]; [cbn in Hd; by injection Hd|].
    cbn in Hz. by apply Forall_cons_1 in Hz as [<- _]. }
  destruct Ez as [r' ->]. exists lead, r'.
  rewrite <- !app_assoc. rewrite (strip_head_spec below lead pre x (core ++ 0 :: r') _ _);
    [|done|by apply Hhd|done|rewrite !length_app; cbn [length app]; rewrite ?length_app; lia].
  cbn [mbind C_bind app]. split; [do 2 f_equal; rewrite length_app; lia|]. split; [|done].
  revert Hl. repeat (rewrite length_app || cbn [length]). lia.
Qed.

(** What [strip] leaves of a string that has spaces, or nothing, in front. *)
Lemma strip_spec below pre t r : grub_isspace below = false -> spaces pre -> text t -> exists pre' r',
    strip below (pre ++ t ++ 0 :: r) (Z.of_nat (length pre)) =
      Ret (pre' ++ strip_list t ++ 0 :: r', Z.of_nat (length pre')) /\
    length (pre' ++ strip_list t ++ 0 :: r') = length (pre ++ t ++ 0 :: r) /\
    (strip_list t <> [] -> spaces pre') /\
    (strip_list t = [] -> Forall (eq 0) pre' /\ length pre' = length pre).
Proof.
  intros Hb Hpre Ht. destruct (decide (strip_list t = [])) as [E|E].
  - destruct (strip_blank below pre t r Hb Hpre Ht E) as (pre' & r' & Es & Hl & Hp & Hz).
    exists pre', r'. rewrite E, Es, Hp. by split_and!.
  - destruct (strip_full below pre t r Ht E) as (lead & r' & Es & Hl & Hlead).
    exists (pre ++ lead), r'. split_and!; [done|done|intros _; by apply Forall_app|done].
Qed.

(** ** One line *)

Lemma text_clean l : text l -> text (clean l).
Proof. intros H. unfold clean. by apply text_strip, text_before, text_before, text_strip, text_before, text_before. Qed.

Lemma continued_inv l part : continued l = Some part -> exists c, l = part ++ [c] /\
  (c = ch "^" \/ c = ch "&").
Proof.
  unfold continued. destruct (last l) as [c|] eqn:E; [|done].
  destruct ((c =? ch "^") || (c =? ch "&")) eqn:Ec; [|done]. intros [= <-]. exists c. split; [|blia].
  apply last_Some in E as [l' ->]. by rewrite removelast_last.
Qed.

(** The buffers hold the beginning of a line and what lines before it have left. *)
Record holds (pend acc : list Z) (st : cfg_state) : Prop := {
  ho_s : exists r, cs_s st = pend ++ r;
  ho_s_len : Z.of_nat (length (cs_s st)) = BUFSIZE;
  ho_s_pos : s_pos st = Z.of_nat (length pend);
  ho_str : exists r, cs_str st = acc ++ r;
  ho_str_len : Z.of_nat (length (cs_str st)) = BUFSIZE;
  ho_str_pos : str_pos st = Z.of_nat (length acc)
}.

Section lines.
Context (below : Z) {X : Type} (process_cfg_line : list Z -> X -> C (Z * X)).

Definition step_line (pend acc : list Z) (x : X) : C (bool * list Z * X) :=
  match continued (clean pend) with
  | Some part => Ret (true, acc ++ part, x)
  | None => '(rc, x) ← process_cfg_line (acc ++ clean pend) x; Ret (negb (rc =? 0), [], x)
  end.

(** What the code looks at in front of an empty string is no space and no
    continuation sign. *)
Definition harmless : Prop :=
  grub_isspace below = false /\ below <> ch "^" /\ below <> ch "&".

(** The string that is left of a line, and where it is. *)
Lemma cleaned pend r : harmless -> text pend -> exists pre r',
  clean_line below (pend ++ 0 :: r) = Ret (pre ++ clean pend ++ 0 :: r', Z.of_nat (length pre)) /\
  length (pre ++ clean pend ++ 0 :: r') = length (pend ++ 0 :: r) /\
  (clean pend = [] -> Forall (eq 0) pre).
Proof.
  intros [Hb _] Ht. unfold clean_line, trim.
  destruct (cut_spec CR [] pend r 0 eq_refl Ht) as (r1 & E1 & L1). cbn [app] in E1. rewrite E1.
  cbn [mbind C_bind].
  destruct (cut_spec LF [] _ r1 0 eq_refl (text_before CR _ Ht)) as (r2 & E2 & L2). cbn [app] in E2.
  rewrite E2. cbn [mbind C_bind].
  assert (T2 : text (before LF (before CR pend))) by by apply text_before, text_before.
  destruct (strip_spec below [] _ r2 Hb (Forall_nil_2 _) T2) as (pre & r3 & E3 & L3 & Hs & Hz).
  change (Z.of_nat (length [])) with 0 in E3. cbn [app] in E3. rewrite E3. cbn [mbind C_bind].
  set (t3 := strip_list (before LF (before CR pend))) in *.
  assert (Hpre : spaces pre).
  { destruct (decide (t3 = [])) as [E|E]; [|by apply Hs].
    apply Hz in E as [_ E]. destruct pre; [constructor|done]. }
  assert (T3 : text t3) by by apply text_strip.
  destruct (cut_spec (ch ";") pre t3 r3 _ eq_refl T3) as (r4 & E4 & L4). rewrite E4. cbn [mbind C_bind].
  assert (T4 : text (before (ch ";") t3)) by by apply text_before.
  destruct (cut_spec (ch "#") pre _ r4 _ eq_refl T4) as (r5 & E5 & L5). rewrite E5. cbn [mbind C_bind].
  assert (T5 : text (before (ch "#") (before (ch ";") t3))) by by apply text_before.
  destruct (strip_spec below pre _ r5 Hb Hpre T5) as (pre' & r6 & E6 & L6 & _ & Hz').
  exists pre', r6. split; [exact E6|]. split; [|by intros [? _]%Hz'].
  change (strip_list _) with (clean pend) in L6. rewrite L6. cbn [app] in L3.
  rewrite length_app, L5, L4, <- length_app, L3, L2, L1. done.
Qed.

(** The character that decides whether the line is continued. *)
Lemma sign_char pre t r : harmless -> (t = [] -> Forall (eq 0) pre) -> exists c,
  rdb below (pre ++ t ++ 0 :: r) (Z.of_nat (length pre) + Z.of_nat (length t) - 1) = Ret c /\
  ((c =? ch "^") || (c =? ch "&")) = match continued t with Some _ => true | None => false end.
Proof.
  intros (_ & H1 & H2) Hz. unfold rdb, continued.
  destruct t as [|c0 t0 _] using rev_ind.
  - specialize (Hz eq_refl). cbn [app length last]. destruct pre as [|z pre _] using rev_ind.
    + exists below. split; [done|]. blia.
    + exists 0. apply Forall_app in Hz as [_ Hz]. apply Forall_cons_1 in Hz as [<- _].
      rewrite length_app. cbn [length].
      destruct (Z.eqb_spec (Z.of_nat (length pre + 1) + Z.of_nat 0 - 1) (-1)); [lia|].
      rewrite <- app_assoc. cbn [app]. rewrite rd8_pre by lia. done.
  - exists c0. rewrite last_snoc, length_app. cbn [length].
    destruct (Z.eqb_spec (Z.of_nat (length pre) + Z.of_nat (length t0 + 1) - 1) (-1)); [lia|].
    rewrite <- !app_assoc. cbn [app]. rewrite app_assoc, rd8_pre by (rewrite length_app; lia).
    split; [done|]. by destruct (_ || _).
Qed.

Definition line_result (a : bool * cfg_state * X) (b : bool * list Z * X) : Prop :=
  let '(ok, st, x) := a in let '(ok', acc, x') := b in ok = ok' /\ x = x' /\ holds [] acc st.

Lemma one_line_run st pend acc x r : harmless -> text pend -> text acc ->
  holds pend acc st -> cs_s st = pend ++ 0 :: r ->
  Z.of_nat (length acc + length (clean pend)) < BUFSIZE ->
  same_run line_result (one_line below process_cfg_line st x) (step_line pend acc x).
Proof.
  intros Hb Ht Ha [_ Hsl _ [rs Hs] Hstl Hsp] Es Hfit. destruct st as [s sp str strp]. cbn [cs_s s_pos cs_str str_pos] in *. subst s strp str.
  unfold one_line, step_line. cbv beta iota. destruct (cleaned pend r Hb Ht) as (pre & r' & E & El & Hz). rewrite E.
  cbn [mbind C_bind]. rewrite <- El in Hsl. clear E El.
  pose proof (text_clean _ Ht) as Hc. set (t := clean pend) in *.
  rewrite str_at_pre by done. cbn [mbind C_bind]. cbv zeta.
  destruct (sign_char pre t r' Hb Hz) as (c & -> & Ec). cbn [mbind C_bind]. rewrite Ec.
  assert (Hrs : Z.of_nat (length acc) + Z.of_nat (length rs) = BUFSIZE) by (rewrite length_app in Hstl; lia).
  destruct (continued t) as [part|] eqn:Econt.
  - apply continued_inv in Econt as (c0 & Et & _). rewrite Et in Hfit, Hsl, Hc |- *.
    rewrite length_app in Hfit |- *. cbn [length] in Hfit |- *. rewrite <- (app_assoc part). cbn [app].
    rewrite (app_assoc pre). rewrite wr8_pre by (rewrite length_app; lia). cbn [mbind C_bind].
    destruct (Z.ltb_spec BUFSIZE (Z.of_nat (length acc) + Z.of_nat (length part + 1) - 1)); [lia|].
    rewrite <- app_assoc. change (u8 0) with 0.
    assert (Hp : text part) by by apply text_app in Hc as [? _].
    rewrite str_at_pre by done. cbn [mbind C_bind]. rewrite strcpy_app by (done || lia). cbn [mbind C_bind].
    destruct (wr8_first (pre ++ part ++ 0 :: 0 :: r') 0) as (s' & -> & Hs'); [rewrite !length_app; cbn; lia|].
    cbn [mbind C_bind same_run line_result]. split_and!; [done..|].
    split; cbn; [by exists s'|rewrite Hs'; revert Hsl; repeat (rewrite length_app || cbn [length]); lia|done| | |].
    + eexists. by rewrite <- app_assoc.
    + revert Hrs. repeat (rewrite length_app || cbn [length] || rewrite length_drop). lia.
    + rewrite length_app. lia.
  - destruct (Z.ltb_spec BUFSIZE (Z.of_nat (length acc) + Z.of_nat (length t))); [lia|].
    rewrite strcpy_app by (done || lia). cbn [mbind C_bind].
    destruct (wr8_first (pre ++ t ++ 0 :: r') 0) as (s' & -> & Hs'); [rewrite !length_app; cbn; lia|].
    cbn [mbind C_bind]. rewrite app_assoc.
    change (str_at ((acc ++ t) ++ 0 :: drop (S (length t)) rs) 0)
      with (str_at ([] ++ (acc ++ t) ++ 0 :: drop (S (length t)) rs) (Z.of_nat (length (@nil Z)))).
    rewrite str_at_pre by (done || by apply text_app). cbn [mbind C_bind].
    eapply same_bind; [apply same_refl|]. intros [rc x1] [rc2 x2] _ [= -> ->].
    cbn [same_run line_result]. split_and!; [done..|].
    split; cbn; [by exists s'|by rewrite Hs'|done|by eexists| |done].
    revert Hrs. repeat (rewrite length_app || cbn [length] || rewrite length_drop). lia.
Qed.
End lines.

(** ** One piece *)

Definition plain (w : list Z) : Prop := Forall (fun c => c <> 0 /\ c <> CR /\ c <> LF) w.

Lemma getline_loop_spec w : forall pre d rest n i fuel, plain w ->
  (d = CR \/ d = LF \/ d = 0 \/ Z.of_nat (length pre + length w) = n) ->
  Z.of_nat (length pre + length w) <= n -> i + Z.of_nat (length w) <= BUFSIZE -> (length w < fuel)%nat ->
  getline_loop fuel (pre ++ w ++ d :: rest) n (Z.of_nat (length pre)) i =
  Ret (w, Z.of_nat (length pre + length w)).
Proof.
  induction w as [|c w IH]; intros pre d rest n i fuel Hw Hd Hn Hi Hf; (destruct fuel as [|fuel]; [lia|]);
    cbn [getline_loop app].
  - rewrite rd8_pre by done. cbn [mbind C_bind]. rewrite Nat.add_0_r in *. cbn [length] in *.
    replace (negb (d =? CR) && negb (d =? LF) && negb (d =? 0) && (Z.of_nat (length pre) <? n)) with false; [done|].
    symmetry. rewrite !andb_false_iff, !negb_false_iff, !Z.eqb_eq, Z.ltb_ge. lia.
  - apply Forall_cons_1 in Hw as [(H0 & H1 & H2) Hw]. rewrite rd8_pre by done. cbn [mbind C_bind length] in *.
    replace (negb (c =? CR) && negb (c =? LF) && negb (c =? 0) && (Z.of_nat (length pre) <? n)) with true
      by (symmetry; rewrite !andb_true_iff, !negb_true_iff, !Z.eqb_neq, Z.ltb_lt; lia).
    destruct (Z.ltb_spec i BUFSIZE); [|lia]. cbn [require mbind C_bind].
    specialize (IH (pre ++ [c]) d rest n (i + 1) fuel Hw). rewrite <- app_assoc, length_app in IH.
    cbn [app length] in IH. replace (Z.of_nat (length pre) + 1) with (Z.of_nat (length pre + 1)) by lia.
    rewrite IH by (lia || (destruct Hd as [?|[?|[?|?]]]; tauto || lia)). cbn [mbind C_bind].
    do 2 f_equal. lia.
Qed.

Lemma line_end_skip c pre d rest line q : q = Z.of_nat (length pre) -> d <> c ->
  line_end c (pre ++ d :: rest) line q = Ret (line, q).
Proof.
  intros -> Hd. unfold line_end. rewrite rd8_pre by done. cbn [mbind C_bind].
  by destruct (Z.eqb_spec d c).
Qed.

Lemma line_end_take c pre rest line q : q = Z.of_nat (length pre) -> Z.of_nat (length line) < BUFSIZE ->
  line_end c (pre ++ c :: rest) line q = Ret (line ++ [c], q + 1).
Proof.
  intros -> Hl. unfold line_end. rewrite rd8_pre by done. cbn [mbind C_bind].
  rewrite Z.eqb_refl. destruct (Z.ltb_spec (Z.of_nat (length line)) BUFSIZE); [done|lia].
Qed.

(** A line feed may have a carriage return in front. *)
Definition maybe_cr (e : list Z) : Prop := e = [] \/ e = [CR].

Lemma getline_full pre w e rest n : plain w -> maybe_cr e ->
  Z.of_nat (length pre + length (w ++ e ++ [LF])) <= n -> Z.of_nat (length (w ++ e ++ [LF])) < BUFSIZE ->
  getline (pre ++ (w ++ e ++ [LF]) ++ rest) (Z.of_nat (length pre)) n =
  Ret (w ++ e ++ [LF], Z.of_nat (length pre + length (w ++ e ++ [LF]))).
Proof.
  intros Hw He Hn Hl. unfold getline. rewrite !length_app in Hn, Hl. cbn [length] in Hn, Hl.
  destruct He as [->| ->]; cbn [app length] in *; rewrite <- !app_assoc; cbn [app].
  - rewrite getline_loop_spec; [|done|by right; left|lia|lia|rewrite !length_app; cbn [length]; lia].
    cbn [mbind C_bind]. rewrite app_assoc, line_end_skip by (rewrite ?length_app; lia || done).
    cbn [mbind C_bind]. rewrite line_end_take by (rewrite ?length_app; lia). cbn [mbind C_bind].
    rewrite length_app. cbn [length].
    destruct (Z.ltb_spec (Z.of_nat (length w + 1)) BUFSIZE); [|lia]. cbn. do 2 f_equal. lia.
  - rewrite getline_loop_spec; [|done|by left|lia|lia|rewrite !length_app; cbn [length]; lia].
    cbn [mbind C_bind]. rewrite app_assoc, line_end_take by (rewrite ?length_app; lia).
    cbn [mbind C_bind].
    change (CR :: LF :: rest) with ([CR] ++ LF :: rest). rewrite app_assoc.
    rewrite line_end_take by (rewrite ?length_app; cbn [length]; lia). cbn [mbind C_bind].
    rewrite <- app_assoc, length_app. cbn [length app].
    destruct (Z.ltb_spec (Z.of_nat (length w + 2)) BUFSIZE); [|lia]. cbn. do 2 f_equal.
    rewrite length_app. cbn [length]. lia.
Qed.

Lemma getline_rest pre w e d rest : plain w -> maybe_cr e -> d <> CR -> d <> LF ->
  Z.of_nat (length (w ++ e)) < BUFSIZE ->
  getline (pre ++ (w ++ e) ++ d :: rest) (Z.of_nat (length pre)) (Z.of_nat (length pre + length (w ++ e))) =
  Ret (w ++ e, Z.of_nat (length pre + length (w ++ e))).
Proof.
  intros Hw He H1 H2 Hl. unfold getline. rewrite !length_app in Hl |- *. rewrite <- app_assoc.
  destruct He as [->| ->]; cbn [app length] in *; rewrite ?app_nil_r, ?Nat.add_0_r in *.
  - rewrite getline_loop_spec; [|done|by right; right; right|lia|lia|rewrite ?length_app; lia].
    cbn [mbind C_bind]. rewrite app_assoc, line_end_skip by (rewrite ?length_app; lia || done).
    cbn [mbind C_bind]. rewrite line_end_skip by (rewrite ?length_app; lia || done).
    cbn [mbind C_bind]. destruct (Z.ltb_spec (Z.of_nat (length w)) BUFSIZE); [done|lia].
  - rewrite (length_app w [CR]) in *. cbn [length] in *.
    rewrite getline_loop_spec; [|done|by left|lia|lia|rewrite ?length_app; lia].
    cbn [mbind C_bind]. rewrite app_assoc, line_end_take by (rewrite ?length_app; lia).
    cbn [mbind C_bind].
    change (CR :: d :: rest) with ([CR] ++ d :: rest). rewrite app_assoc.
    rewrite line_end_skip by (rewrite ?length_app; cbn [length]; lia || done). cbn [mbind C_bind].
    rewrite length_app. cbn [length].
    destruct (Z.ltb_spec (Z.of_nat (length w + 1)) BUFSIZE); [|lia]. cbn. do 2 f_equal. lia.
Qed.

(** Carriage returns stand only in front of line feeds. *)
Definition cr_lf (c : list Z) : Prop := forall a d r, c = a ++ CR :: d :: r -> d = LF.

Lemma cr_lf_app_r a c : cr_lf (a ++ c) -> cr_lf c.
Proof. intros H a' d r ->. apply (H (a ++ a') d r). by rewrite <- app_assoc. Qed.
Lemma cr_lf_app_l a c : cr_lf (a ++ c) -> cr_lf a.
Proof. intros H a' d r ->. apply (H a' d (r ++ c)). by rewrite <- app_assoc. Qed.

Lemma first_line c : text c -> cr_lf c -> exists w e, plain w /\ maybe_cr e /\
  ((exists rest, c = (w ++ e ++ [LF]) ++ rest) \/ (c = w ++ e /\ LF ∉ c)).
Proof.
  induction 1 as [|x c Hx Hc IH]; intros Hcr.
  - exists [], []. split_and!; [constructor|by left|]. right. split; [done|apply not_elem_of_nil].
  - destruct (Z.eq_dec x LF) as [->|Hlf].
    { exists [], []. split_and!; [constructor|by left|]. left. by exists c. }
    destruct (Z.eq_dec x CR) as [->|Hcr'].
    { exists [], [CR]. split_and!; [constructor|by right|]. destruct c as [|d r].
      - right. split; [done|]. by apply not_elem_of_cons; split; [|apply not_elem_of_nil].
      - left. rewrite (Hcr [] d r eq_refl). by exists r. }
    destruct IH as (w & e & Hw & He & Hrest); [by apply (cr_lf_app_r [x])|].
    exists (x :: w), e. split_and!; [constructor; [|done]; split_and!; [lia|done|done]|done|].
    destruct Hrest as [[rest ->]|[-> Hn]]; [left; by exists rest|right]. split; [done|].
    rewrite not_elem_of_cons. split; [|done]. congruence.
Qed.

(** What is left of a line and of the lines before it when a byte has been read. *)
Definition next_acc (pend acc : list Z) : list Z :=
  match continued (clean pend) with Some part => acc ++ part | None => [] end.
Definition left1 (pa : list Z * list Z) (c : Z) : list Z * list Z :=
  let '(pend, acc) := pa in
  if c =? LF then ([], next_acc (pend ++ [LF]) acc) else (pend ++ [c], acc).

(** The lines fit into the buffers. *)
Fixpoint fits (pend acc l : list Z) : Prop :=
  match l with
  | [] => True
  | c :: l =>
      Z.of_nat (length pend + 1) < BUFSIZE /\
      (c = LF -> Z.of_nat (length acc + length (clean (pend ++ [LF]))) < BUFSIZE) /\
      let '(pend, acc) := left1 (pend, acc) c in fits pend acc l
  end.

Lemma fits_app l1 : forall pend acc l2, fits pend acc (l1 ++ l2) <->
  fits pend acc l1 /\ fits (foldl left1 (pend, acc) l1).1 (foldl left1 (pend, acc) l1).2 l2.
Proof.
  induction l1 as [|c l1 IH]; intros pend acc l2; cbn [app fits foldl]; [cbn; tauto|].
  destruct (left1 (pend, acc) c) as [p a] eqn:E. rewrite IH. tauto.
Qed.

Lemma left_plain w : forall pend acc, LF ∉ w -> foldl left1 (pend, acc) w = (pend ++ w, acc).
Proof.
  induction w as [|c w IH]; intros pend acc Hw; cbn; [by rewrite app_nil_r|].
  apply not_elem_of_cons in Hw as [Hc Hw]. destruct (Z.eqb_spec c LF); [congruence|].
  rewrite IH by done. by rewrite <- app_assoc.
Qed.

Lemma left_line w pend acc : LF ∉ w ->
  foldl left1 (pend, acc) (w ++ [LF]) = ([], next_acc (pend ++ w ++ [LF]) acc).
Proof. intros Hw. rewrite foldl_app, left_plain by done. cbn. by rewrite <- app_assoc. Qed.

Lemma fits_plain w : forall pend acc, LF ∉ w -> w <> [] -> fits pend acc w ->
  Z.of_nat (length (pend ++ w)) < BUFSIZE.
Proof.
  induction w as [|c w IH]; intros pend acc Hw Hne Hf; [done|]. cbn [fits] in Hf.
  destruct Hf as (H1 & _ & Hf). apply not_elem_of_cons in Hw as [Hc Hw]. cbn in Hf.
  destruct (Z.eqb_spec c LF); [congruence|]. destruct w as [|d w].
  - rewrite length_app. done.
  - specialize (IH (pend ++ [c]) acc Hw ltac:(done) Hf). by rewrite <- app_assoc in IH.
Qed.

Lemma fits_line w pend acc rest : LF ∉ w -> fits pend acc ((w ++ [LF]) ++ rest) ->
  Z.of_nat (length (pend ++ w ++ [LF])) < BUFSIZE /\
  Z.of_nat (length acc + length (clean (pend ++ w ++ [LF]))) < BUFSIZE /\
  fits [] (next_acc (pend ++ w ++ [LF]) acc) rest.
Proof.
  intros Hw. rewrite fits_app, left_line by done. cbn [fst snd]. intros [Hf Hr]. split_and!; [| |done].
  - apply fits_app in Hf as [_ Hf]. rewrite left_plain in Hf by done. cbn [fst snd fits] in Hf.
    destruct Hf as [Hf _]. rewrite app_assoc, length_app. done.
  - apply fits_app in Hf as [_ Hf]. rewrite left_plain in Hf by done. cbn [fst snd fits] in Hf.
    destruct Hf as (_ & Hf & _). specialize (Hf eq_refl). by rewrite <- app_assoc in Hf.
Qed.

Section pieces.
Context (below : Z) {X : Type} (process_cfg_line : list Z -> X -> C (Z * X)).

(** What the bytes of a file do, one after the other. *)
Fixpoint consume (pend acc l : list Z) (x : X) : C (bool * list Z * list Z * X) :=
  match l with
  | [] => Ret (true, pend, acc, x)
  | c :: l =>
      if c =? LF then
        '(ok, acc, x) ← step_line process_cfg_line (pend ++ [LF]) acc x;
        if negb ok then Ret (false, [], [], x) else consume [] acc l x
      else consume (pend ++ [c]) acc l x
  end.

Lemma consume_plain w : forall pend acc l x, LF ∉ w ->
  consume pend acc (w ++ l) x = consume (pend ++ w) acc l x.
Proof.
  induction w as [|c w IH]; intros pend acc l x Hw; cbn [app consume]; [by rewrite app_nil_r|].
  apply not_elem_of_cons in Hw as [Hc Hw]. destruct (Z.eqb_spec c LF); [congruence|].
  rewrite IH by done. by rewrite <- app_assoc.
Qed.

Lemma consume_app l1 : forall pend acc l2 x, consume pend acc (l1 ++ l2) x =
  '(ok, pend, acc, x) ← consume pend acc l1 x;
  if negb ok then Ret (false, [], [], x) else consume pend acc l2 x.
Proof.
  induction l1 as [|c l1 IH]; intros pend acc l2 x; cbn [app consume]; [done|].
  destruct (c =? LF); [|apply IH].
  destruct (step_line process_cfg_line (pend ++ [LF]) acc x) as [[[ok a] x1]| | |]; try done.
  cbn [mbind C_bind]. by destruct ok; [apply IH|].
Qed.

Lemma step_left pend acc x ok acc' x' : step_line process_cfg_line pend acc x = Ret (ok, acc', x') ->
  acc' = next_acc pend acc.
Proof.
  unfold step_line, next_acc. destruct (continued _); [by intros [= <- <- <-]|].
  destruct (process_cfg_line _ _) as [[rc x1]| | |]; [|done..]. by intros [= <- <- <-].
Qed.

Lemma step_false pend acc x acc' x' : step_line process_cfg_line pend acc x = Ret (false, acc', x') ->
  acc' = [].
Proof.
  unfold step_line. destruct (continued _); [done|].
  destruct (process_cfg_line _ _) as [[rc x1]| | |]; [|done..]. by intros [= _ <- <-].
Qed.

Lemma consume_left l : forall pend acc x ok pend' acc' x', consume pend acc l x = Ret (ok, pend', acc', x') ->
  ok = true -> (pend', acc') = foldl left1 (pend, acc) l.
Proof.
  induction l as [|c l IH]; intros pend acc x ok pend' acc' x'; cbn [consume foldl];
    [by intros [= <- <- <- <-]|]. unfold left1 at 2. destruct (c =? LF); [|apply IH].
  destruct (step_line process_cfg_line (pend ++ [LF]) acc x) as [[[ok1 a] x1]| | |] eqn:E; try done.
  cbn [mbind C_bind]. apply step_left in E as ->. destruct ok1; [apply IH|]. by intros [= <- <- <- <-].
Qed.

Definition piece_result (a : bool * cfg_state * X) (b : bool * list Z * list Z * X) : Prop :=
  let '(ok, st, x) := a in let '(ok', pend, acc, x') := b in ok = ok' /\ x = x' /\ holds pend acc st.

(** Behind the piece there is no end of a line, or the piece ends with one. *)
Definition piece_ends (c : list Z) (d : Z) : Prop := last c = Some LF \/ (d <> CR /\ d <> LF).

Lemma add_line st pend acc line : holds pend acc st -> text line ->
  Z.of_nat (length (pend ++ line)) < BUFSIZE -> exists s r,
    strcpy_at (cs_s st) (s_pos st) line = Ret s /\ s = (pend ++ line) ++ 0 :: r /\
    holds (pend ++ line) acc {| cs_s := s; s_pos := s_pos st + Z.of_nat (length line);
      cs_str := cs_str st; str_pos := str_pos st |}.
Proof.
  intros [[r Hs] Hsl Hsp Hstr Hstl Hstp] Ht Hl. rewrite Hs in Hsl |- *. rewrite Hsp.
  rewrite length_app in Hsl, Hl. rewrite strcpy_app by (done || lia).
  eexists _, _. split; [done|]. split; [by rewrite <- app_assoc|].
  split; cbn [cs_s s_pos cs_str str_pos]; [|revert Hsl|rewrite length_app; lia|done..].
  - eexists. by rewrite <- app_assoc.
  - repeat (rewrite length_app || cbn [length] || rewrite length_drop). lia.
Qed.

Lemma text_next pend acc : text pend -> text acc -> text (next_acc pend acc).
Proof.
  intros Hp Ha. unfold next_acc. destruct (continued _) as [part|] eqn:E; [|constructor].
  apply continued_inv in E as (c & E & _). pose proof (text_clean _ Hp) as Hc. rewrite E in Hc.
  apply text_app in Hc as [? _]. by apply text_app.
Qed.

(** The line read last, which is not complete yet or ends the piece. *)
Lemma loop_stops b rd fuel p st x d : rd8 b p = Ret d ->
  lines_loop below process_cfg_line (S fuel) b rd p false st x = Ret (true, st, x).
Proof. intros E. cbn [lines_loop]. rewrite E. cbn [mbind C_bind]. by rewrite orb_true_r. Qed.

Lemma loop_turn fuel pre c d rest pend acc st x line p : holds pend acc st -> text c -> c <> [] ->
  getline (pre ++ c ++ d :: rest) (Z.of_nat (length pre)) (Z.of_nat (length (pre ++ c))) = Ret (line, p) ->
  text line -> Z.of_nat (length (pend ++ line)) < BUFSIZE -> exists st' r,
  cs_s st' = (pend ++ line) ++ 0 :: r /\ holds (pend ++ line) acc st' /\
  lines_loop below process_cfg_line (S fuel) (pre ++ c ++ d :: rest) (Z.of_nat (length (pre ++ c)))
    (Z.of_nat (length pre)) true st x =
  if (p <? Z.of_nat (length (pre ++ c))) || (default 0 (last c) =? LF) then
    '(ok, st, x) ← one_line below process_cfg_line st' x;
    if negb ok then Ret (false, st, x)
    else lines_loop below process_cfg_line fuel (pre ++ c ++ d :: rest) (Z.of_nat (length (pre ++ c))) p
           (p <? Z.of_nat (length (pre ++ c))) st x
  else lines_loop below process_cfg_line fuel (pre ++ c ++ d :: rest) (Z.of_nat (length (pre ++ c))) p
         (p <? Z.of_nat (length (pre ++ c))) st' x.
Proof.
  intros Hst Hc Hne Hg Ht Hl. destruct (add_line st pend acc line Hst Ht Hl) as (s & r & Es & Esr & Hst').
  eexists _, r. split; [|split; [exact Hst'|]]; [done|]. cbn [lines_loop].
  destruct (exists_last (l := c)) as (c0 & y & Ey); [done|].
  assert (Hc0 : exists c1 c2, c = c1 :: c2 /\ 0 < c1) by (destruct Hc; [done|eauto with lia]).
  destruct Hc0 as (c1 & c2 & Ec1 & Hc1).
  assert (R1 : rd8 (pre ++ c ++ d :: rest) (Z.of_nat (length pre)) = Ret c1)
    by (rewrite Ec1; by apply rd8_pre).
  assert (R2 : rd8 (pre ++ c ++ d :: rest) (Z.of_nat (length (pre ++ c)) - 1) = Ret y).
  { rewrite Ey, <- (app_assoc c0), app_assoc. apply rd8_pre. rewrite !length_app. cbn [length]. lia. }
  rewrite R1. cbn [mbind C_bind]. destruct (Z.eqb_spec c1 0); [lia|]. cbn [orb negb].
  rewrite Hg. cbn [mbind C_bind]. cbv zeta. rewrite (ho_s_pos _ _ _ Hst).
  destruct (Z.ltb_spec BUFSIZE (Z.of_nat (length pend) + Z.of_nat (length line)));
    [rewrite length_app in Hl; lia|].
  rewrite <- (ho_s_pos _ _ _ Hst), Es. cbn [mbind C_bind]. rewrite R2. cbn [mbind C_bind].
  replace (default 0 (last c)) with y by (by rewrite Ey, last_snoc). done.
Qed.

Lemma plain_no_lf w e : plain w -> maybe_cr e -> LF ∉ w ++ e.
Proof.
  intros Hw He. rewrite not_elem_of_app. split.
  - intros Hin. eapply Forall_forall in Hw; [|exact Hin]. by destruct Hw as (_ & _ & []).
  - destruct He as [->| ->]; [apply not_elem_of_nil|].
    by apply not_elem_of_cons; split; [|apply not_elem_of_nil].
Qed.

(** The statement for a piece [c]. *)
Definition runs_piece (c : list Z) : Prop := forall pre d rest pend acc st x fuel,
  (length c < fuel)%nat -> text c -> cr_lf c -> (c <> [] -> piece_ends c d) ->
  text pend -> text acc -> fits pend acc c -> holds pend acc st ->
  same_run piece_result
    (lines_loop below process_cfg_line fuel (pre ++ c ++ d :: rest) (Z.of_nat (length (pre ++ c)))
       (Z.of_nat (length pre)) (match c with [] => false | _ => true end) st x)
    (consume pend acc c x).

(** A piece that begins with a line. *)
Lemma piece_line w e c' : harmless below -> plain w -> maybe_cr e ->
  runs_piece c' -> runs_piece ((w ++ e ++ [LF]) ++ c').
Proof.
  intros Hb Hw He IH pre d rest pend acc st x fuel Hfu Hc Hcr Hend Hp Ha Hfit Hst.
  destruct fuel as [|fuel]; [lia|]. remember (w ++ e ++ [LF]) as u eqn:Eu0.
  assert (Eu : u = (w ++ e) ++ [LF]) by by rewrite <- app_assoc.
  pose proof (plain_no_lf w e Hw He) as Hlf.
  destruct (fits_line (w ++ e) pend acc c' Hlf) as (Hl1 & Hl2 & Hfit'); [by rewrite <- Eu|].
  rewrite <- Eu in Hl1, Hl2, Hfit'. apply text_app in Hc as [Hu Hc'].
  assert (Hne : u ++ c' <> []) by (intros [E0 _]%app_eq_nil; rewrite Eu in E0; by apply app_eq_nil in E0 as [_ ?]).
  replace (match u ++ c' with [] => false | _ => true end) with true by by destruct (u ++ c').
  destruct (loop_turn fuel pre (u ++ c') d rest pend acc st x u (Z.of_nat (length pre + length u)))
    as (st' & r & Es & Hst' & ->); [done|by apply text_app|done| |done|done|].
  { rewrite <- app_assoc. rewrite Eu0. apply getline_full; [done|done| |]; rewrite <- Eu0; rewrite !length_app in *; lia. }
  replace ((Z.of_nat (length pre + length u) <? Z.of_nat (length (pre ++ u ++ c')))
    || (default 0 (last (u ++ c')) =? LF)) with true; last first.
  { symmetry. rewrite !length_app. destruct c' as [|c1 c'].
    - rewrite app_nil_r, Eu, last_snoc. apply orb_true_r.
    - apply orb_true_iff. left. apply Z.ltb_lt. cbn [length]. lia. }
  replace (u ++ c') with ((w ++ e) ++ LF :: c') by (rewrite Eu; by rewrite <- !app_assoc).
  rewrite consume_plain by done. cbn [consume]. rewrite Z.eqb_refl.
  replace ((pend ++ w ++ e) ++ [LF]) with (pend ++ u) by (rewrite Eu; by rewrite <- !app_assoc).
  eapply same_bind; [apply (one_line_run _ _ _ (pend ++ u) acc x r); [done|by apply text_app|done..]|].
  intros [[ok st2] x2] [[ok' acc'] x2'] Estep (<- & <- & Hst2).
  destruct ok; cbn [negb]; [apply step_left in Estep as ->|by apply step_false in Estep as ->].
  specialize (IH (pre ++ u) d rest [] (next_acc (pend ++ u) acc) st2 x2 fuel).
  rewrite <- !app_assoc in IH. cbn [app] in IH.
  replace ((w ++ e) ++ LF :: c') with (u ++ c') by (rewrite Eu; by rewrite <- !app_assoc).
  rewrite <- !app_assoc.
  replace (Z.of_nat (length pre + length u) <? Z.of_nat (length (pre ++ u ++ c')))
    with (match c' with [] => false | _ => true end); last first.
  { symmetry. rewrite !length_app. destruct c'; cbn [length]; [apply Z.ltb_ge|apply Z.ltb_lt]; lia. }
  rewrite <- (length_app pre u). apply IH; [|done|by apply cr_lf_app_r in Hcr| |constructor|by apply text_next; [apply text_app|]|done|done].
  - rewrite length_app in Hfu. rewrite Eu in Hfu. rewrite length_app in Hfu. cbn in Hfu. lia.
  - intros Hc''. destruct (Hend Hne) as [El|?]; [left|by right]. destruct (exists_last Hc'') as (c0 & y & Ey).
    rewrite Ey, app_assoc, last_snoc in El. by rewrite Ey, last_snoc.
Qed.

(** The rest of a piece. *)
Lemma piece_rest w e : plain w -> maybe_cr e -> runs_piece (w ++ e).
Proof.
  intros Hw He pre d rest pend acc st x fuel Hfu Hc Hcr Hend Hp Ha Hfit Hst.
  destruct fuel as [|fuel]; [lia|]. pose proof (plain_no_lf w e Hw He) as Hlf.
  destruct (decide (w ++ e = [])) as [->|Hne].
  { rewrite (loop_stops _ _ _ _ _ _ d) by by apply rd8_pre. done. }
  replace (match w ++ e with [] => false | _ => true end) with true by by destruct (w ++ e).
  pose proof (fits_plain _ _ _ Hlf Hne Hfit) as Hl.
  destruct (Hend Hne) as [El|[H1 H2]].
  { apply last_Some_elem_of in El. done. }
  destruct (loop_turn fuel pre (w ++ e) d rest pend acc st x (w ++ e)
    (Z.of_nat (length pre + length (w ++ e)))) as (st' & r & Es & Hst' & ->); [done..| |done|done|].
  { rewrite (length_app pre). apply getline_rest; [done..|]. rewrite length_app in Hl. lia. }
  rewrite (length_app pre (w ++ e)), Z.ltb_irrefl. cbn [orb].
  destruct (Z.eqb_spec (default 0 (last (w ++ e))) LF) as [El|_].
  { destruct (last (w ++ e)) as [y|] eqn:Ey; [|done]. cbn in El. subst y. apply last_Some_elem_of in Ey. done. }
  assert (0 < length (w ++ e))%nat by (destruct (w ++ e); [done|cbn; lia]).
  destruct fuel as [|fuel]; [lia|]. rewrite (loop_stops _ _ _ _ _ _ d); last first.
  { rewrite app_assoc. apply rd8_pre. by rewrite (length_app pre). }
  pose proof (consume_plain (w ++ e) pend acc [] x Hlf) as Ec. rewrite app_nil_r in Ec. rewrite Ec.
  cbn [consume same_run piece_result]. by split_and!.
Qed.

Lemma piece_run n : forall c, (length c <= n)%nat -> text c -> cr_lf c -> harmless below -> runs_piece c.
Proof.
  induction n as [|n IH]; intros c Hn Hc Hcr Hb.
  - destruct c; [|cbn in Hn; lia]. apply (piece_rest [] []); [constructor|by left].
  - destruct (first_line c Hc Hcr) as (w & e & Hw & He & [[c' ->]|[-> _]]); [|by apply piece_rest].
    apply piece_line; [done..|]. apply text_app in Hc as [_ Hc]. apply cr_lf_app_r in Hcr.
    apply IH; [|done..]. rewrite !length_app in Hn. cbn [length] in Hn. lia.
Qed.
End pieces.

(** ** The whole file *)

(** A line and whether a carriage return is in front of its end. *)
Definition line_bytes (l : list Z * bool) : list Z := l.1 ++ (if l.2 then [CR] else []) ++ [LF].
Definition file_of (ls : list (list Z * bool)) : list Z := mjoin (line_bytes <$> ls).

Definition line_text (l : list Z) : Prop := Forall (fun c => 0 < c < 256 /\ c <> CR /\ c <> LF) l.

(** Every line fits into the buffer, alone and after what is continued in it. *)
Fixpoint short_lines (acc : list Z) (ls : list (list Z * bool)) : bool :=
  match ls with
  | [] => true
  | l :: ls =>
      (Z.of_nat (length (line_bytes l)) <? BUFSIZE) &&
      (Z.of_nat (length acc + length (clean l.1)) <? BUFSIZE) &&
      short_lines (match continued (clean l.1) with Some part => acc ++ part | None => [] end) ls
  end.

Lemma line_plain l : line_text l -> plain l.
Proof. intros H. eapply Forall_impl; [exact H|]. cbn. intros c (? & ? & ?). split_and!; [lia|done..]. Qed.

Lemma line_bytes_cr l : exists e, maybe_cr e /\ line_bytes l = l.1 ++ e ++ [LF].
Proof. destruct l as [l []]; [exists [CR]|exists []]; (split; [|done]); [by right|by left]. Qed.

Lemma text_line_bytes l : line_text l.1 -> text (line_bytes l).
Proof.
  intros H. unfold line_bytes. apply text_app. split.
  - eapply Forall_impl; [exact H|]. cbn. tauto.
  - apply text_check. by destruct l.2.
Qed.

Lemma clean_line_bytes l : line_text l.1 -> clean (line_bytes l) = clean l.1.
Proof.
  intros H%line_plain. destruct (line_bytes_cr l) as (e & He & ->). unfold clean.
  do 4 f_equal.
  assert (Hcr : CR ∉ l.1) by (intros Hin; eapply Forall_forall in H; [|exact Hin]; by destruct H as (_ & [] & _)).
  assert (Hlf : LF ∉ l.1) by (intros Hin; eapply Forall_forall in H; [|exact Hin]; by destruct H as (_ & _ & [])).
  rewrite (before_absent CR (l.1)), (before_absent LF (l.1)) by done.
  rewrite before_app by done. destruct He as [->| ->]; cbn.
  - rewrite before_app by done. apply app_nil_r.
  - by rewrite app_nil_r, before_absent.
Qed.

Lemma cr_lf_cons c l : c <> CR \/ head l = Some LF \/ l = [] -> cr_lf l -> cr_lf (c :: l).
Proof.
  intros Hc Hl [|a0 a] d r E; cbn in E; injection E as -> ->.
  - destruct Hc as [?|[Hc|Hc]]; [done| |done]. by injection Hc.
  - by apply (Hl a d r).
Qed.

Lemma cr_lf_file ls : Forall (fun l => line_text l.1) ls -> cr_lf (file_of ls).
Proof.
  induction 1 as [|l ls Hl _ IH]; [intros a d r E; by destruct a|]. unfold file_of in *.
  rewrite fmap_cons. cbn [mjoin list_join]. destruct (line_bytes_cr l) as (e & He & ->).
  apply line_plain in Hl. rewrite <- !app_assoc.
  assert (He' : cr_lf (e ++ [LF] ++ mjoin (line_bytes <$> ls))).
  { destruct He as [->| ->]; cbn [app]; repeat (apply cr_lf_cons; [by (left; discriminate) || by right; left|]); done. }
  induction Hl as [|c w (_ & Hc & _) _ IHw]; [done|]. apply cr_lf_cons; [by left|done].
Qed.

Lemma text_file ls : Forall (fun l => line_text l.1) ls -> text (file_of ls).
Proof.
  induction 1 as [|l ls Hl _ IH]; [constructor|]. unfold file_of. rewrite fmap_cons. cbn.
  apply text_app. split; [by apply text_line_bytes|done].
Qed.

Lemma file_ends_lf ls : ls <> [] -> last (file_of ls) = Some LF.
Proof.
  intros (ls' & l & ->)%exists_last. unfold file_of. rewrite fmap_app, join_app. cbn.
  rewrite app_nil_r. destruct (line_bytes_cr l) as (e & _ & ->). by rewrite !app_assoc, last_snoc.
Qed.

Lemma fits_line_intro w pend acc rest : LF ∉ w -> Z.of_nat (length (pend ++ w ++ [LF])) < BUFSIZE ->
  Z.of_nat (length acc + length (clean (pend ++ w ++ [LF]))) < BUFSIZE ->
  fits [] (next_acc (pend ++ w ++ [LF]) acc) rest -> fits pend acc ((w ++ [LF]) ++ rest).
Proof.
  revert pend. induction w as [|c w IH]; intros pend Hw H1 H2 H3; cbn [app fits left1].
  - rewrite length_app in H1. cbn [app] in *. rewrite Z.eqb_refl. split_and!; [|done..]. cbn in H1. lia.
  - apply not_elem_of_cons in Hw as [Hc Hw]. destruct (Z.eqb_spec c LF); [congruence|].
    rewrite !length_app in H1. cbn [length] in H1. split_and!; [lia|done|].
    apply IH; [done|rewrite !length_app; cbn [length]; lia|by rewrite <- app_assoc..].
Qed.

Lemma fits_file ls : forall acc, Forall (fun l => line_text l.1) ls -> short_lines acc ls = true ->
  fits [] acc (file_of ls).
Proof.
  induction ls as [|l ls IH]; intros acc Hls Hs; [done|]. apply Forall_cons_1 in Hls as [Hl Hls].
  cbn [short_lines] in Hs. apply andb_true_iff in Hs as [[H1 H2]%andb_true_iff H3].
  apply Z.ltb_lt in H1, H2. unfold file_of. rewrite fmap_cons. cbn [mjoin list_join].
  rewrite <- (clean_line_bytes l) in H2, H3 by done. pose proof (line_plain _ Hl) as Hp.
  destruct (line_bytes_cr l) as (e & He & E). rewrite E in *. rewrite app_assoc.
  apply fits_line_intro; [by apply plain_no_lf|by rewrite <- app_assoc..|].
  rewrite <- app_assoc. by apply IH.
Qed.

Section whole.
Context (below : Z) {X : Type} (process_cfg_line : list Z -> X -> C (Z * X)).

(** The specification: the lines are executed one after the other until one
    fails. *)
Fixpoint exec_lines (ls : list (list Z)) (x : X) : C (Z * X) :=
  match ls with
  | [] => Ret (1, x)
  | l :: ls =>
      '(rc, x) ← process_cfg_line l x; if rc =? 0 then Ret (-1, x) else exec_lines ls x
  end.

Lemma consume_false l : forall pend acc x pend' acc' x',
  consume process_cfg_line pend acc l x = Ret (false, pend', acc', x') -> pend' = [] /\ acc' = [].
Proof.
  induction l as [|c l IH]; intros pend acc x pend' acc' x'; cbn [consume]; [done|].
  destruct (c =? LF); [|apply IH].
  destruct (step_line process_cfg_line (pend ++ [LF]) acc x) as [[[[] a] x1]| | |]; try done;
    cbn [mbind C_bind negb]; [apply IH|]. by intros [= <- <- _].
Qed.

Lemma consume_file ls : forall acc x, Forall (fun l => line_text l.1) ls ->
  ('(ok, _, _, x) ← consume process_cfg_line [] acc (file_of ls) x; Ret (if ok : bool then 1 else -1, x)) =
  exec_lines (logical acc (fst <$> ls)) x.
Proof.
  induction ls as [|l ls IH]; intros acc x Hls; [done|]. apply Forall_cons_1 in Hls as [Hl Hls].
  unfold file_of in *. rewrite !fmap_cons. cbn [mjoin list_join logical].
  pose proof (line_plain _ Hl) as Hp. pose proof (clean_line_bytes l Hl) as Ecl.
  destruct (line_bytes_cr l) as (e & He & E). rewrite E in *.
  pose proof (plain_no_lf _ _ Hp He) as Hlf. rewrite app_assoc, <- (app_assoc _ [LF]).
  rewrite consume_plain by done. cbn [consume app]. rewrite Z.eqb_refl, <- app_assoc.
  unfold step_line. rewrite Ecl. destruct (continued (clean l.1)) as [part|]; cbn [mbind C_bind negb].
  - by apply IH.
  - cbn [exec_lines]. destruct (process_cfg_line (acc ++ clean l.1) x) as [[rc x1]| | |]; try done.
    cbn [mbind C_bind]. destruct (rc =? 0); [done|]. by apply IH.
Qed.

Lemma consume_texts l : forall pend acc x pend' acc' x', text pend -> text acc -> text l ->
  consume process_cfg_line pend acc l x = Ret (true, pend', acc', x') -> text pend' /\ text acc'.
Proof.
  induction l as [|c l IH]; intros pend acc x pend' acc' x' Hp Ha Hl; cbn [consume]; [by intros [= <- <- _]|].
  apply Forall_cons_1 in Hl as [Hc Hl]. assert (Hpc : text (pend ++ [c])) by
    (apply text_app; split; [done|by apply Forall_singleton]).
  destruct (Z.eqb_spec c LF) as [->|]; [|by apply IH].
  destruct (step_line process_cfg_line (pend ++ [LF]) acc x) as [[[ok a] x1]| | |] eqn:E; try done.
  cbn [mbind C_bind]. apply step_left in E as ->. destruct ok; cbn [negb]; [|done].
  apply IH; [constructor|by apply text_next|done].
Qed.

Definition whole_result (a : Z * cfg_state * X) (b : bool * list Z * list Z * X) : Prop :=
  let '(rc, st, x) := a in let '(ok, pend, acc, x') := b in
  rc = (if ok : bool then 1 else -1) /\ x = x' /\ holds pend acc st.

Variable file : list Z.
Variable after : list Z.
Definition disk_read (pos n : Z) : list Z := take (Z.to_nat n) (drop (Z.to_nat pos) file).

(** What lies behind the buffer is no end of a line. *)
Definition clear_behind : Prop := exists d r, after = d :: r /\ d <> CR /\ d <> LF.

Lemma piece_in_buffer c old : clear_behind -> Z.of_nat (length old) = BUFSIZE -> c <> [] ->
  Z.of_nat (length c) = BUFSIZE \/ (Z.of_nat (length c) < BUFSIZE /\ last c = Some LF) ->
  exists d rest, (c ++ drop (length c) old) ++ after = c ++ d :: rest /\ piece_ends c d.
Proof.
  intros (d & r & -> & Hd) Ho Hne [Hc|[Hc Hl]].
  - exists d, r. rewrite drop_ge by lia. rewrite app_nil_r. split; [done|by right].
  - destruct (drop (length c) old) as [|d' r'] eqn:E.
    + apply (f_equal length) in E. rewrite length_drop in E. cbn in E. lia.
    + exists d', (r' ++ d :: r). rewrite <- app_assoc. split; [done|by left].
Qed.

(** The bytes read at a position before the end of the file. *)
Lemma next_piece pos : 0 <= pos -> drop (Z.to_nat pos) file <> [] ->
  let rest := drop (Z.to_nat pos) file in let c := disk_read pos BUFSIZE in
  c <> [] /\ Z.of_nat (length c) <= BUFSIZE /\
  rest = c ++ drop (Z.to_nat (pos + Z.of_nat (length c))) file /\
  (Z.of_nat (length c) = BUFSIZE \/ c = rest).
Proof.
  intros Hpos Hne rest c. unfold disk_read in c. fold rest in c.
  assert (Hl : length c = min (Z.to_nat BUFSIZE) (length rest)) by (unfold c; by rewrite length_take).
  assert (0 < length rest)%nat by (fold rest in Hne; destruct rest; [done|cbn; lia]).
  assert (Hb : BUFSIZE = 1024) by done.
  split; [intros E; rewrite E in Hl; cbn [length] in Hl; lia|]. split; [lia|]. split.
  - rewrite Z2Nat.inj_add, Nat2Z.id, <- drop_drop by lia. fold rest. rewrite Hl.
    destruct (Nat.min_spec (Z.to_nat BUFSIZE) (length rest)) as [[_ ->]|[Hge ->]].
    + unfold c. by rewrite take_drop.
    + unfold c. rewrite drop_all, take_ge by lia. by rewrite app_nil_r.
  - destruct (Nat.le_gt_cases (Z.to_nat BUFSIZE) (length rest)); [left; lia|right].
    unfold c. by rewrite take_ge by lia.
Qed.

Lemma last_drop_some k : drop k file <> [] -> last (drop k file) = last file.
Proof.
  intros (l & y & E)%exists_last. rewrite E, last_snoc. rewrite <- (take_drop k file), E, app_assoc.
  by rewrite last_snoc.
Qed.

Lemma pieces_run size fuel : forall pos old st pend acc x, harmless below -> clear_behind ->
  (Z.to_nat (Z.of_nat (length (drop (Z.to_nat pos) file))) < fuel)%nat -> 0 <= pos ->
  Z.of_nat (length file) < 2 ^ 32 -> Z.of_nat (length old) = BUFSIZE ->
  text file -> cr_lf file -> (drop (Z.to_nat pos) file <> [] -> last file = Some LF) ->
  text pend -> text acc -> fits pend acc (drop (Z.to_nat pos) file) -> holds pend acc st ->
  same_run whole_result
    (pieces_loop below process_cfg_line (Some size) disk_read after fuel
       (Z.of_nat (length (drop (Z.to_nat pos) file))) pos old st x)
    (consume process_cfg_line pend acc (drop (Z.to_nat pos) file) x).
Proof.
  induction fuel as [|fuel IH]; intros pos old st pend acc x Hb Hcl Hfu Hpos Hsz Ho Ht Hcr Hlast Hp Ha Hfit Hst;
    [lia|]. cbn [pieces_loop].
  set (rest := drop (Z.to_nat pos) file) in *.
  destruct (Z.eqb_spec (Z.of_nat (length rest)) 0) as [E0|E0].
  { destruct rest; [|done]. by split_and!. }
  assert (Hne : rest <> []) by by destruct rest.
  assert (Hlr : Z.of_nat (length rest) <= Z.of_nat (length file)) by (unfold rest; rewrite length_drop; lia).
  destruct (next_piece pos Hpos Hne) as (Hc & Hlc & Er & Ed). fold rest in Er, Ed.
  set (c := disk_read pos BUFSIZE) in *. cbv zeta.
  destruct (Z.eqb_spec (Z.of_nat (length c)) 0) as [E1|_]; [destruct c; [done|cbn in E1; lia]|].
  destruct (Z.leb_spec (Z.of_nat (length c)) BUFSIZE); [|lia]. cbn [require mbind C_bind].
  assert (Etext : text rest) by by apply text_drop.
  assert (Ecr : cr_lf rest) by (eapply cr_lf_app_r; unfold rest; by rewrite take_drop).
  destruct (piece_in_buffer c old Hcl Ho Hc) as (d & r & Eb & Hpe).
  { destruct (Z.eq_dec (Z.of_nat (length c)) BUFSIZE) as [?|Hs]; [by left|right]. split; [lia|].
    destruct Ed as [Ed|Ed]; [lia|]. rewrite Ed. specialize (Hlast Hne). unfold rest.
    by rewrite last_drop_some. }
  set (pos' := pos + Z.of_nat (length c)) in *. set (rest' := drop (Z.to_nat pos') file) in *.
  assert (Efit := Hfit). rewrite Er in Efit. apply fits_app in Efit as [Hf1 Hf2].
  assert (Etc : text c /\ text rest') by (rewrite Er in Etext; by apply text_app in Etext).
  assert (Hcr' : cr_lf c) by (rewrite Er in Ecr; by apply cr_lf_app_l in Ecr).
  replace (consume process_cfg_line pend acc rest x)
    with (consume process_cfg_line pend acc (c ++ rest') x) by (by rewrite <- Er).
  rewrite consume_app, Eb.
  pose proof (piece_run below process_cfg_line (length c) c (le_n _) (proj1 Etc) Hcr' Hb [] d r pend acc st x
    (length (c ++ d :: r) + 1)%nat) as Hrun.
  replace (match c with [] => false | _ => true end) with true in Hrun by by destruct c.
  eapply same_bind; [apply Hrun; [rewrite length_app; lia|by destruct Etc|done|by intros _|done..]|].
  intros [[ok st1] x1] [[[ok' p1] a1] x1'] Ec (<- & <- & Hst1). destruct ok; cbn [negb].
  - apply consume_left in Ec as Epa; [|done].
    rewrite <- Epa in Hf2. cbn [fst snd] in Hf2.
    replace (u32 (Z.of_nat (length rest) - Z.of_nat (length c))) with (Z.of_nat (length rest')); last first.
    { rewrite Er, length_app. symmetry. rewrite u32_id; unfold is_u32; rewrite Er, length_app in Hlr; lia. }
    assert (Hlc' : (0 < length c)%nat) by (destruct c; [done|cbn; lia]).
    destruct (consume_texts c pend acc x p1 a1 x1 Hp Ha (proj1 Etc) Ec) as [Tp Ta].
    apply IH; try done.
    + rewrite Er, length_app in Hfu. fold rest'. lia.
    + lia.
    + rewrite length_app, length_drop. lia.
    + intros _. by apply Hlast.
  - apply consume_false in Ec as [-> ->]. by split_and!.
Qed.

(** What the code needs of a file and of the memory around its buffers. *)
Record readable_file (ls : list (list Z * bool)) (old : list Z) : Prop := {
  rf_below : harmless below;
  rf_behind : clear_behind;
  rf_lines : Forall (fun l => line_text l.1) ls;
  rf_short : short_lines [] ls = true;
  rf_file : file = file_of ls;
  rf_size : Z.of_nat (length file) < 2 ^ 32;
  rf_buffer : Z.of_nat (length old) = BUFSIZE
}.

Lemma process_cfg_run ls old st x : readable_file ls old -> holds [] [] st ->
  same_run whole_result
    (process_cfg below process_cfg_line (Some (Z.of_nat (length file))) disk_read after old st x)
    (consume process_cfg_line [] [] file x).
Proof.
  intros [Hb Hcl Hls Hs Ef Hsz Ho] Hst. unfold process_cfg.
  pose proof (pieces_run (Z.of_nat (length file)) (S (Z.to_nat (Z.of_nat (length file)))) 0 old st [] [] x
    Hb Hcl) as Hrun.
  change (drop (Z.to_nat 0) file) with file in Hrun.
  apply Hrun; [lia|lia|done|done| | | |constructor|constructor| |done].
  - rewrite Ef. by apply text_file.
  - rewrite Ef. by apply cr_lf_file.
  - intros Hne. rewrite Ef. apply file_ends_lf. intros ->. by rewrite Ef in Hne.
  - rewrite Ef. by apply fits_file.
Qed.

(** C11: Executing a configuration file is executing its lines, with comments and
    spaces removed and continued lines put together, one after the other until one
    of them fails, wherever the ends of the pieces are in which the file is read.
    Every line, the last one included, ends in a line feed and fits into the buffers;
    what lies in front of these and behind that of a piece is harmless
    ([last_line_lost], [empty_line_below], [line_cut_behind] show the need). *)
Theorem process_cfg_lines ls old st x : readable_file ls old -> holds [] [] st ->
  ('(rc, _, x) ← process_cfg below process_cfg_line (Some (Z.of_nat (length file))) disk_read after old st x;
   Ret (rc, x)) = exec_lines (logical [] (fst <$> ls)) x.
Proof.
  intros Hf Hst. rewrite <- consume_file by apply Hf. rewrite <- (rf_file _ _ Hf).
  pose proof (process_cfg_run ls old st x Hf Hst) as Hsame.
  destruct (process_cfg _ _ _ _ _ _ _ _) as [[[rc st1] x1]| | |],
    (consume process_cfg_line [] [] file x) as [[[[ok p] a] x2]| | |]; cbn in Hsame |- *; try done.
  - by destruct Hsame as (-> & -> & _).
  - by rewrite Hsame.
Qed.
End whole.

(** ** Examples *)

(** A line processor that keeps the lines it is given, and fails at "fail". *)
Definition keep_lines (l : list Z) (x : list (list Z)) : C (Z * list (list Z)) :=
  Ret (if grub_strcmp l (bstr "fail") =? 0 then 0 else 1, x ++ [l]).
Definition zeros (n : Z) : list Z := repeat 0 (Z.to_nat n).
Definition fresh : cfg_state :=
  {| cs_s := zeros BUFSIZE; s_pos := 0; cs_str := zeros BUFSIZE; str_pos := 0 |}.

Definition boot_lines : list (list Z * bool) :=
  [(bstr "; " ++ repeat (ch "x") 990, true); (bstr "", true); (bstr "  set A=one  # a comment", true);
   (bstr "title OS/2", false); (bstr "kernel ^", true); (bstr "	/boot/l4/kernel", true)].

Lemma fresh_holds : holds [] [] fresh.
Proof. split; vm_compute; try done; by eexists. Qed.

Lemma boot_lines_text : Forall (fun l : list Z * bool => line_text l.1) boot_lines.
Proof.
  apply Forall_forall. intros l Hl. apply Forall_forall. intros c Hc.
  assert (Hall : forallb (fun l : list Z * bool =>
    forallb (fun c => (0 <? c) && (c <? 256) && negb (c =? CR) && negb (c =? LF)) l.1) boot_lines = true)
    by (vm_compute; reflexivity).
  rewrite forallb_forall in Hall. specialize (Hall l). rewrite forallb_forall in Hall.
  specialize (Hall (proj1 (list_elem_of_In _ _) Hl) c (proj1 (list_elem_of_In _ _) Hc)).
  clear -Hall. blia.
Qed.

Example boot_lines_logical : logical [] (fst <$> boot_lines) =
  [bstr ""; bstr ""; bstr "set A=one"; bstr "title OS/2"; bstr "kernel /boot/l4/kernel"].
Proof. vm_compute. reflexivity. Qed.

Lemma process_cfg_lines_witness : exists x,
  ('(rc, _, x) ← process_cfg 0 keep_lines (Some (Z.of_nat (length (file_of boot_lines))))
     (disk_read (file_of boot_lines)) [0] (zeros BUFSIZE) fresh []; Ret (rc, x)) = Ret (1, x).
Proof.
  exists (logical [] (fst <$> boot_lines)).
  rewrite (process_cfg_lines 0 keep_lines (file_of boot_lines) [0] boot_lines (zeros BUFSIZE) fresh []);
    [vm_compute; reflexivity| |exact fresh_holds].
  split; [by vm_compute|by exists 0, []|exact boot_lines_text|by vm_compute|reflexivity|
    vm_compute; reflexivity|vm_compute; reflexivity].
Defined.

(** A last line without an end is not executed; it is put in front of the first
    line of the next file. *)
Example last_line_lost :
  (let f1 := bstr "set A=1" in let f2 := bstr "set B=2" ++ [LF] in
   '(rc1, st, x) ← process_cfg 0 keep_lines (Some (Z.of_nat (length f1))) (disk_read f1) [0]
                     (zeros BUFSIZE) fresh [];
   '(rc2, _, x') ← process_cfg 0 keep_lines (Some (Z.of_nat (length f2))) (disk_read f2) [0]
                     (zeros BUFSIZE) st x;
   Ret (rc1, x, rc2, x')) = Ret (1, [], 1, [bstr "set A=1set B=2"]).
Proof. vm_compute. reflexivity. Qed.

(** An empty line makes the code look in front of the buffer; a space that lies
    there is overwritten. *)
Example empty_line_below : process_cfg 32 keep_lines (Some 1) (disk_read [LF]) [0] (zeros BUFSIZE) fresh [] = Undef.
Proof. vm_compute. reflexivity. Qed.

(** Behind a full piece the code looks at the byte after the buffer: a line feed
    there cuts the line off. *)
Example line_cut_behind :
  (let f := bstr "; " ++ repeat (ch "x") 1015 ++ [LF] ++ bstr "set A=1" ++ [LF] in
   '(_, _, x) ← process_cfg 0 keep_lines (Some (Z.of_nat (length f))) (disk_read f) [LF; 0]
                  (zeros BUFSIZE) fresh [];
   '(_, _, y) ← process_cfg 0 keep_lines (Some (Z.of_nat (length f))) (disk_read f) [0]
                  (zeros BUFSIZE) fresh [];
   Ret (x, y)) = Ret ([[]; bstr "set A="], [[]; bstr "set A=1"]).
Proof. vm_compute. reflexivity. Qed.
