(* ===== verification/BootVar.v ===== *)
(** * Variables of the boot loader ([bootseq/loader/loader/commands.c])

    Names and values are strings in a store of 1024 bytes that only grows; the
    list of variables holds pointers into it.  A string is written in place when
    it is no longer than the one before. *)
From S2P Require Import Prelude BootLib.

Definition VARIABLES_MAX : nat := 30.
Definition VARIABLE_STORE_SIZE : Z := 1024.

(** The name and the value of a variable: offsets in the store, [None] where the
    pointer is null. *)
Abbreviation entry := (option Z * option Z)%type.

Record var_state := { store : list Z; actpos : Z; variable_list : list entry }.

Definition set_store (v : var_state) (b : list Z) : var_state :=
  {| store := b; actpos := actpos v; variable_list := variable_list v |}.
Definition set_entry (v : var_state) (i : Z) (e : entry) : var_state :=
  {| store := store v; actpos := actpos v; variable_list := <[Z.to_nat i := e]> (variable_list v) |}.

(** ** Looking up *)

Fixpoint index_loop (b : list Z) (l : list entry) (i : Z) (var : list Z) : C Z :=
  match l with
  | [] => Ret (-1)
  | (None, _) :: l => index_loop b l (i + 1) var
  | (Some p, _) :: l =>
      name ← str_at b p;
      if grub_strcmp name var =? 0 then Ret i else index_loop b l (i + 1) var
  end.
Definition var_get_index (v : var_state) (var : list Z) : C Z :=
  if cur var =? 0 then Ret (-1) else index_loop (store v) (variable_list v) 0 var.

Definition entry_at (v : var_state) (i : Z) : C entry :=
  if 0 <=? i then need (variable_list v !! Z.to_nat i) else Undef.

(** The string of the value; [None] is the null pointer. *)
Definition var_get (v : var_state) (var : list Z) : C (option (list Z)) :=
  i ← var_get_index v var;
  if i =? -1 then Ret None
  else
    e ← entry_at v i;
    match e.2 with None => Ret None | Some p => Some <$> str_at (store v) p end.

Definition var_alloc_mem (v : var_state) (len : Z) : option Z * var_state :=
  if (VARIABLE_STORE_SIZE <? u32 (actpos v + len)) || (len =? 0) then (None, v)
  else (Some (actpos v),
        {| store := store v; actpos := actpos v + len; variable_list := variable_list v |}).

Fixpoint free_loop (l : list entry) (i : Z) : Z :=
  match l with [] => -1 | (None, _) :: _ => i | (Some _, _) :: l => free_loop l (i + 1) end.
Definition var_get_free_var (v : var_state) : Z := free_loop (variable_list v) 0.

(** A copy of [s] in new memory of the store. *)
Definition new_string (v : var_state) (s : list Z) : C (option Z * var_state) :=
  match var_alloc_mem v (Z.of_nat (length s) + 1) with
  | (None, v) => Ret (None, v)
  | (Some a, v) => b ← strcpy_at (store v) a s; Ret (Some a, set_store v b)
  end.

(** ** References to variables in a string

    The string is read from memory that goes on behind its end. *)

(** The name of a reference and the memory from its end on: a parenthesis or the
    terminating zero. *)
Fixpoint scan_end (b : list Z) : C (list Z * list Z) :=
  match b with
  | [] => Undef
  | c :: b' =>
      if (c =? 0) || (c =? ch ")") then Ret ([], b)
      else '(name, r) ← scan_end b'; Ret (c :: name, r)
  end.

(** What is written; behind a reference to an unknown variable the next byte is
    copied whatever it is. *)
Fixpoint var_sprint_once (fuel : nat) (v : var_state) (b : list Z) : C (list Z) :=
  match fuel with
  | O => NoFuel
  | S fuel =>
      let copy_char (b : list Z) : C (list Z) :=
        match b with [] => Undef | c :: b => (fun out => c :: out) <$> var_sprint_once fuel v b end in
      match b with
      | [] => Undef
      | c :: b' =>
          if c =? 0 then Ret []
          else if (c =? ch "$") && (cur b' =? ch "(") then
            '(name, r) ← scan_end (tail b');
            if cur r =? ch ")" then
              val ← var_get v name;
              match val with
              | Some val => (fun out => val ++ out) <$> var_sprint_once fuel v (tail r)
              | None => copy_char (tail r)
              end
            else copy_char b
          else copy_char b
      end
  end.

Definition buffer_size : Z := 1000.

(** The bytes before the first zero, if there is one. *)
Fixpoint until_zero (l : list Z) : list Z :=
  match l with [] => [] | c :: l' => if c =? 0 then [] else c :: until_zero l' end.

(** [i] turns are left; [cap] is the size of the caller's buffer.  Where the text
    is longer than the buffer the code loops forever. *)
Fixpoint sprint_loop (i : nat) (cap : Z) (v : var_state) (buf buffer : list Z) : C (list Z) :=
  match i with
  | O => Ret buf
  | S i =>
      if buffer_size <? Z.of_nat (length buf) then NoFuel
      else
        buffer ← strcpy_at buffer 0 buf;
        out ← var_sprint_once (length buffer + 1) v buffer;
        _ ← require (Z.of_nat (length out) <? cap);
        let out := until_zero out in
        if grub_strcmp out buf =? 0 then Ret out else sprint_loop i cap v out buffer
  end.

(** [stale] is what the local buffer holds at first.  The result is the text that
    is left in the caller's buffer. *)
Definition var_sprint (cap : Z) (stale : list Z) (v : var_state) (str : list Z) : C (list Z) :=
  _ ← require (Z.of_nat (length str) <? cap);
  sprint_loop 10 cap v str stale.

(** The last four bytes of the buffer are a mark that must not be written over. *)
Definition var_sprint_buffer_size : Z := 1500.
Definition var_sprint_buf (stale : list Z) (v : var_state) (str : list Z) : C (list Z) :=
  var_sprint (var_sprint_buffer_size - 4) stale v str.

(** ** Setting *)

(** The characters that a name must not have. *)
Definition bad_name (name : list Z) : bool :=
  existsb (fun c => (c =? ch "(") || (c =? ch ")") || (c =? 32)) name.

(** [val] is an offset in the store. *)
Definition var_set_no_copy (v : var_state) (name : list Z) (val : Z) : C (Z * var_state) :=
  if (val <? 0) || (VARIABLE_STORE_SIZE <=? val) then Ret (1, v)
  else
    i ← var_get_index v name;
    if i =? -1 then
      if bad_name name then Ret (1, v)
      else
        let i := var_get_free_var v in
        if i =? -1 then Ret (1, v)
        else
          '(a, v) ← new_string v name;
          match a with
          | None => Ret (1, v)
          | Some a => Ret (0, set_entry v i (Some a, Some val))
          end
    else
      e ← entry_at v i; Ret (0, set_entry v i (e.1, Some val)).

Definition var_set (stale : list Z) (v : var_state) (name value : list Z) (parse : bool) : C (Z * var_state) :=
  value ← (if parse then var_sprint_buf stale v value else Ret value);
  i ← var_get_index v name;
  if i =? -1 then
    if bad_name name then Ret (1, v)
    else
      let i := var_get_free_var v in
      if i =? -1 then Ret (1, v)
      else
        '(a, v) ← new_string v name;
        match a with
        | None => Ret (1, v)
        | Some a =>
            e ← entry_at v i;
            let v := set_entry v i (Some a, e.2) in
            '(b, v) ← new_string v value;
            match b with
            | None => Ret (1, v)
            | Some b => Ret (0, set_entry v i (Some a, Some b))
            end
        end
  else
    e ← entry_at v i;
    p ← need e.2;
    old ← str_at (store v) p;
    if Z.of_nat (length value) <=? Z.of_nat (length old) then
      b ← strcpy_at (store v) p value; Ret (0, set_store v b)
    else
      '(a, v) ← new_string v value;
      match a with
      | None => Ret (1, v)
      | Some a => Ret (0, set_entry v i (e.1, Some a))
      end.

(** ** The command [set]

    Its argument is [name=value], [name:=value] where references in the value are
    replaced at once, or [name?=value] for a variable that has no value yet. *)

Fixpoint scan_until (stop : Z -> bool) (s : list Z) : list Z * list Z :=
  match s with
  | [] => ([], [])
  | c :: s' => if stop c then ([], s) else let '(a, r) := scan_until stop s' in (c :: a, r)
  end.

Definition set_func (stale : list Z) (v : var_state) (arg : list Z) : C (Z * var_state) :=
  let a := skip_ws arg in
  if cur a =? 0 then Ret (0, v)
  else
    let '(variable, a) := scan_until (fun c => (c =? ch ":") || (c =? ch "=") || (c =? ch "?") || (c =? 32)) a in
    let a := skip_ws a in
    let '(parse, a) := if cur a =? ch ":" then (true, tail a) else (false, a) in
    let '(emptysetonly, a) := if cur a =? ch "?" then (true, tail a) else (false, a) in
    if negb (cur a =? ch "=") then Ret (1, v)
    else
      let a := skip_ws (tail a) in
      let '(end_char, a) := if cur a =? 34 then (34, tail a) else (32, a) in
      let '(value, _) := scan_until (fun c => c =? end_char) a in
      if emptysetonly then
        i ← var_get_index v variable;
        if i =? -1 then var_set stale v variable value parse else Ret (0, v)
      else var_set stale v variable value parse.

(** ** What references stand for *)

Inductive part := Lit (w : list Z) | Ref (n : list Z).

Definition part_text (p : part) : list Z :=
  match p with Lit w => w | Ref n => ch "$" :: ch "(" :: n ++ [ch ")"] end.
Definition flatten (ps : list part) : list Z := mjoin (part_text <$> ps).

Definition good_part (p : part) : Prop :=
  match p with Lit w => text w /\ (ch "$" ∉ w) | Ref n => text n /\ (ch ")" ∉ n) end.

Section expansion.
Context (v : var_state).
(** The variables that have a value, as parts. *)
Context (env : list Z -> option (list part)).
Hypothesis env_get : forall n qs, text n -> env n = Some qs -> var_get v n = Ret (Some (flatten qs)).
Hypothesis env_good : forall n qs, env n = Some qs -> Forall good_part qs.

(** [s] is the text of the parts with all references replaced, in the values also,
    at most [k] deep. *)
Inductive full : nat -> list part -> list Z -> Prop :=
  | full_nil k : full k [] []
  | full_lit k w ps s : full k ps s -> full k (Lit w :: ps) (w ++ s)
  | full_ref k n qs ps s1 s2 : env n = Some qs -> full k qs s1 -> full (S k) ps s2 ->
      full (S k) (Ref n :: ps) (s1 ++ s2).

(** One level of references is replaced. *)
Definition subst_part (p : part) : list part :=
  match p with Lit w => [Lit w] | Ref n => default [] (env n) end.
Definition subst (ps : list part) : list part := mjoin (subst_part <$> ps).

Lemma flatten_app ps qs : flatten (ps ++ qs) = flatten ps ++ flatten qs.
Proof. unfold flatten. by rewrite fmap_app, join_app. Qed.

Lemma good_text ps : Forall good_part ps -> text (flatten ps).
Proof.
  induction 1 as [|p ps Hp _ IH]; [constructor|]. unfold flatten in *. rewrite fmap_cons. cbn.
  apply text_app. split; [|done]. destruct p as [w|n]; [by destruct Hp|]. destruct Hp as [Hn _].
  cbn [part_text]. constructor; [by vm_compute|]. constructor; [by vm_compute|].
  apply text_app. split; [done|]. by apply text_check.
Qed.

Lemma good_subst ps : Forall good_part ps -> Forall good_part (subst ps).
Proof.
  induction 1 as [|p ps Hp _ IH]; [constructor|]. unfold subst in *. rewrite fmap_cons. cbn.
  apply Forall_app. split; [|done]. destruct p as [w|n]; cbn; [by apply Forall_singleton|].
  destruct (env n) as [qs|] eqn:E; [by eapply env_good|constructor].
Qed.

Lemma scan_name n r : text n -> ch ")" ∉ n -> scan_end (n ++ ch ")" :: r) = Ret (n, ch ")" :: r).
Proof.
  induction 1 as [|c n Hc Hn IH]; intros Hp; cbn; [done|]. apply not_elem_of_cons in Hp as [Hc' Hp].
  destruct (Z.eqb_spec c 0); [lia|]. destruct (Z.eqb_spec c (ch ")")); [congruence|]. cbn.
  by rewrite IH.
Qed.

Lemma once_lit w : forall fuel r, text w -> ch "$" ∉ w -> (length w <= fuel)%nat ->
  var_sprint_once fuel v (w ++ r) = (fun out => w ++ out) <$> var_sprint_once (fuel - length w) v r.
Proof.
  induction w as [|c w IH]; intros fuel r Ht Hd Hf; cbn [app length].
  - rewrite Nat.sub_0_r. by destruct (var_sprint_once fuel v r).
  - apply Forall_cons_1 in Ht as [Hc Ht]. apply not_elem_of_cons in Hd as [Hd Hd'].
    destruct fuel as [|fuel]; [cbn in Hf; lia|]. cbn [var_sprint_once].
    destruct (Z.eqb_spec c 0); [lia|]. destruct (Z.eqb_spec c (ch "$")); [congruence|]. cbn [andb].
    rewrite IH by (done || cbn in Hf; lia). cbn [Nat.sub].
    by destruct (var_sprint_once (fuel - length w) v r).
Qed.

Lemma once_parts ps : forall k s r fuel, full k ps s -> Forall good_part ps ->
  (length (flatten ps) < fuel)%nat ->
  var_sprint_once fuel v (flatten ps ++ 0 :: r) = Ret (flatten (subst ps)).
Proof.
  induction ps as [|p ps IH]; intros k s r fuel Hfull Hg Hf.
  { destruct fuel; [cbn in Hf; lia|done]. }
  apply Forall_cons_1 in Hg as [Hp Hg]. change (p :: ps) with ([p] ++ ps) in Hf |- *.
  unfold subst. rewrite fmap_app, join_app, !flatten_app in *. fold (subst ps).
  rewrite length_app in Hf. rewrite <- app_assoc. cbn [fmap list_fmap mjoin list_join].
  rewrite app_nil_r. unfold flatten at 1 in Hf. cbn [fmap list_fmap mjoin list_join] in Hf.
  rewrite app_nil_r in Hf. unfold flatten at 1. cbn [fmap list_fmap mjoin list_join]. rewrite app_nil_r.
  inversion Hfull as [|? w ? s' Hrest|? n qs ? s1 s2 En Hqs Hrest]; subst.
  - destruct Hp as [Ht Hd]. cbn [part_text subst_part] in *. rewrite once_lit by (done || lia).
    rewrite (IH _ _ _ _ Hrest) by (done || lia). cbn. f_equal. unfold flatten. cbn. by rewrite app_nil_r.
  - destruct Hp as [Ht Hd]. destruct fuel as [|fuel]; [lia|]. cbn [part_text subst_part app] in *.
    cbn [var_sprint_once cur tail]. change (ch "$" =? 0) with false. rewrite !Z.eqb_refl. cbn [andb].
    rewrite <- app_assoc. cbn [app]. rewrite scan_name by done. cbn [mbind C_bind cur]. rewrite Z.eqb_refl.
    rewrite (env_get n qs) by done. rewrite En. cbn [mbind C_bind tail default from_option id].
    cbn [length] in Hf. rewrite length_app in Hf. rewrite (IH _ _ _ _ Hrest) by (done || lia). done.
Qed.

Lemma full_app k ps qs s : full k (ps ++ qs) s <-> exists s1 s2, s = s1 ++ s2 /\ full k ps s1 /\ full k qs s2.
Proof.
  split.
  - revert s. induction ps as [|p ps IH]; intros s H; [exists [], s; split_and!; [done|constructor|done]|].
    inversion H as [|? w ? s' Hr|? n rs ? s1 s2 En Hrs Hr]; subst; apply IH in Hr as (a & b & -> & Ha & Hb).
    + exists (w ++ a), b. split_and!; [by rewrite app_assoc|by constructor|done].
    + exists (s1 ++ a), b. split_and!; [by rewrite app_assoc|by econstructor|done].
  - intros (s1 & s2 & -> & H1 & H2). revert H2. induction H1 as [|k w ps s _ IH|k n rs ps s1 s3 En Hrs _ _ IH];
      intros H2; cbn [app]; [done|..]; rewrite <- app_assoc.
    + constructor. by apply IH.
    + econstructor; [done..|]. by apply IH.
Qed.

Lemma full_subst k ps s : full (S k) ps s -> full k (subst ps) s.
Proof.
  revert s. induction ps as [|p ps IH]; intros s H; unfold subst in *; rewrite ?fmap_cons; cbn.
  - inversion H. constructor.
  - inversion H as [|? w ? s' Hr|? n qs ? s1 s2 En Hqs Hr]; subst; cbn.
    + constructor. by apply IH.
    + rewrite En. cbn. apply full_app. exists s1, s2. split_and!; [done|done|by apply IH].
Qed.

Lemma full_up k ps s : full k ps s -> full (S k) ps s.
Proof. induction 1; econstructor; eauto. Qed.

Lemma full_0 ps s : full 0 ps s -> flatten ps = s /\ subst ps = ps.
Proof.
  intros H. remember O as k eqn:Ek. induction H as [|k w ps s _ IH|]; [done| |done].
  destruct (IH Ek) as [E1 E2]. change (subst (Lit w :: ps)) with (Lit w :: subst ps).
  change (flatten (Lit w :: ps)) with (w ++ flatten ps). by rewrite E1, E2.
Qed.

(** ** What [var_sprint] gives *)

(** The text after [j] passes. *)
Definition pass (j : nat) (ps : list part) : list part := Nat.iter j subst ps.

Lemma pass_S j ps : pass (S j) ps = pass j (subst ps).
Proof. unfold pass. by rewrite Nat.iter_succ_r. Qed.

Lemma until_zero_text s : text s -> until_zero s = s.
Proof. induction 1 as [|c s Hc _ IH]; cbn; [done|]. destruct (Z.eqb_spec c 0); [lia|by rewrite IH]. Qed.

(** The texts of all passes fit into the buffers. *)
Definition passes_fit (cap : Z) (n : nat) (ps : list part) : Prop :=
  forall j, (j <= n)%nat -> Z.of_nat (length (flatten (pass j ps))) < Z.min buffer_size cap.

Lemma one_pass k ps s cap buffer : full k ps s -> Forall good_part ps ->
  Z.of_nat (length buffer) = buffer_size -> passes_fit cap 1 ps -> exists buffer',
  strcpy_at buffer 0 (flatten ps) = Ret buffer' /\ Z.of_nat (length buffer') = buffer_size /\
  var_sprint_once (length buffer' + 1) v buffer' = Ret (flatten (subst ps)).
Proof.
  intros Hfull Hg Hb Hfit. pose proof (good_text ps Hg) as Ht.
  pose proof (Hfit 0%nat ltac:(lia)) as H0. change (pass 0 ps) with ps in H0.
  pose proof (strcpy_app [] buffer (flatten ps) Ht ltac:(lia)) as E. cbn [app length] in E.
  change (Z.of_nat 0) with 0 in E. rewrite E. eexists. split; [done|]. split.
  - revert Hb. repeat (rewrite length_app || cbn [length] || rewrite length_drop). lia.
  - eapply once_parts; [exact Hfull|done|]. rewrite !length_app. lia.
Qed.

(** A pass that changes nothing ends the loop; the others would change nothing
    either. *)
Lemma pass_same n : forall ps s k, full k ps s -> Forall good_part ps -> flatten (subst ps) = flatten ps ->
  flatten (pass n ps) = flatten ps.
Proof.
  assert (Honce : forall ps s k ps' s' k', full k ps s -> full k' ps' s' -> Forall good_part ps ->
    Forall good_part ps' -> flatten ps = flatten ps' -> flatten (subst ps) = flatten (subst ps')).
  { intros ps s k ps' s' k' H H' Hg Hg' E.
    pose proof (once_parts ps k s [] (S (length (flatten ps))) H Hg ltac:(lia)) as E1.
    pose proof (once_parts ps' k' s' [] (S (length (flatten ps))) H' Hg' ltac:(rewrite E; lia)) as E2.
    rewrite <- E in E2. congruence. }
  induction n as [|n IH]; intros ps s k Hf Hg E; [done|]. rewrite pass_S.
  destruct k as [|k]; [apply full_0 in Hf as Hs; destruct Hs as [_ ->]; by eapply IH|].
  pose proof (full_subst _ _ _ Hf) as Hf'. pose proof (good_subst _ Hg) as Hg'.
  rewrite (IH _ _ _ Hf' Hg'); [done|]. eapply (Honce _ _ _ _ _ _ Hf' Hf); done.
Qed.

Lemma sprint_passes i : forall ps s k cap buffer, full k ps s -> Forall good_part ps ->
  Z.of_nat (length buffer) = buffer_size -> passes_fit cap i ps ->
  sprint_loop i cap v (flatten ps) buffer = Ret (flatten (pass i ps)).
Proof.
  induction i as [|i IH]; intros ps s k cap buffer Hfull Hg Hb Hfit; [done|]. cbn [sprint_loop].
  assert (Hk : exists k', full k' (subst ps) s).
  { destruct k as [|k]; [|exists k; by apply full_subst].
    exists O. by destruct (full_0 _ _ Hfull) as [_ ->]. }
  destruct Hk as [k' Hk'].
  pose proof (Hfit 0%nat ltac:(lia)) as H0. change (pass 0 ps) with ps in H0.
  pose proof (Hfit 1%nat ltac:(lia)) as H1. change (pass 1 ps) with (subst ps) in H1.
  destruct (Z.ltb_spec buffer_size (Z.of_nat (length (flatten ps)))); [lia|].
  destruct (one_pass k ps s cap buffer Hfull Hg Hb) as (b' & -> & Hb' & Eo).
  { intros j Hj. apply Hfit. lia. }
  cbn [mbind C_bind]. rewrite Eo. cbn [mbind C_bind].
  destruct (Z.ltb_spec (Z.of_nat (length (flatten (subst ps)))) cap); [|lia]. cbn [require mbind C_bind].
  cbv zeta. pose proof (good_text _ (good_subst _ Hg)) as Ht. rewrite until_zero_text by done.
  rewrite pass_S. destruct (Z.eqb_spec (grub_strcmp (flatten (subst ps)) (flatten ps)) 0) as [E|E].
  - apply strcmp_spec in E; [|done|by apply good_text]. f_equal. symmetry.
    rewrite <- pass_S, E. by eapply pass_same.
  - apply (IH _ s k'); [done|by apply good_subst|done|]. intros j Hj. rewrite <- pass_S. apply Hfit. lia.
Qed.

Lemma full_pass k : forall ps s, full k ps s -> flatten (pass k ps) = s.
Proof.
  induction k as [|k IH]; intros ps s H; [by apply full_0 in H as [? _]|].
  rewrite pass_S. by apply IH, full_subst.
Qed.

Lemma var_sprint_full ps s cap stale : full 10 ps s -> Forall good_part ps ->
  Z.of_nat (length stale) = buffer_size -> passes_fit cap 10 ps ->
  var_sprint cap stale v (flatten ps) = Ret s.
Proof.
  intros Hfull Hg Hb Hfit. unfold var_sprint.
  pose proof (Hfit 0%nat ltac:(lia)) as H0. change (pass 0 ps) with ps in H0.
  destruct (Z.ltb_spec (Z.of_nat (length (flatten ps))) cap); [|lia]. cbn [require mbind C_bind].
  rewrite (sprint_passes 10 ps s 10) by done. f_equal. by apply full_pass.
Qed.
End expansion.

(** ** The store *)

(** What the list of variables stands for: a name and a value, or nothing. *)
Abbreviation names := (list (option (list Z * list Z))).

Definition entry_is (b : list Z) (limit : Z) (e : entry) (o : option (list Z * list Z)) : Prop :=
  match o with
  | None => e = (None, None)
  | Some (n, s) => exists p q, e = (Some p, Some q) /\
      string_at b p n /\ p + Z.of_nat (length n) < limit /\
      string_at b q s /\ q + Z.of_nat (length s) < limit
  end.

(** The place and the text of a name ([false]) or a value ([true]). *)
Definition slot (es : list entry) (l : names) (i : nat) (is_value : bool) : option (Z * list Z) :=
  match es !! i, l !! i with
  | Some (Some p, Some q), Some (Some (n, s)) => Some (if is_value then (q, s) else (p, n))
  | _, _ => None
  end.

Definition apart (x y : Z * list Z) : Prop :=
  x.1 + Z.of_nat (length x.2) < y.1 \/ y.1 + Z.of_nat (length y.2) < x.1.

(** Every variable has a name and a value in the store. *)
Record readable (v : var_state) (l : names) : Prop := {
  rd_size : Z.of_nat (length (store v)) = VARIABLE_STORE_SIZE;
  rd_pos : 0 <= actpos v <= VARIABLE_STORE_SIZE;
  rd_entries : Forall2 (entry_is (store v) (actpos v)) (variable_list v) l
}.

(** No two strings overlap, so that each can be written in place. *)
Record wf_vars (v : var_state) (l : names) : Prop := {
  wv_read : readable v l;
  wv_apart i j b b' x y : slot (variable_list v) l i b = Some x -> slot (variable_list v) l j b' = Some y ->
    (i, b) <> (j, b') -> apart x y
}.

Lemma wv_size v l : wf_vars v l -> Z.of_nat (length (store v)) = VARIABLE_STORE_SIZE.
Proof. by intros [[] _]. Qed.
Lemma wv_pos v l : wf_vars v l -> 0 <= actpos v <= VARIABLE_STORE_SIZE.
Proof. by intros [[] _]. Qed.
Lemma wv_entries v l : wf_vars v l -> Forall2 (entry_is (store v) (actpos v)) (variable_list v) l.
Proof. by intros [[] _]. Qed.
#[export] Hint Resolve wv_read : cmodel.

Fixpoint find (l : names) (n : list Z) (i : Z) : Z :=
  match l with
  | [] => -1
  | None :: l => find l n (i + 1)
  | Some (m, _) :: l => if decide (m = n) then i else find l n (i + 1)
  end.
Fixpoint assoc (l : names) (n : list Z) : option (list Z) :=
  match l with
  | [] => None
  | None :: l => assoc l n
  | Some (m, s) :: l => if decide (m = n) then Some s else assoc l n
  end.
(** The empty name is never found. *)
Definition value_of (l : names) (n : list Z) : option (list Z) := if decide (n = []) then None else assoc l n.

Lemma find_spec l n : forall i, 0 <= i ->
  (find l n i = -1 /\ assoc l n = None /\ forall s, Some (n, s) ∉ l) \/
  (exists k s, find l n i = i + Z.of_nat k /\ l !! k = Some (Some (n, s)) /\ assoc l n = Some s).
Proof.
  induction l as [|[[m s]|] l IH]; intros i Hi; cbn [find assoc].
  - left. split_and!; [done..|]. intros s. apply not_elem_of_nil.
  - destruct (decide (m = n)) as [->|Hne].
    + right. exists O, s. split_and!; [lia|done..].
    + destruct (IH (i + 1)) as [(E1 & E2 & H)|(k & s' & E1 & E2 & E3)]; [lia| |].
      * left. split_and!; [done..|]. intros s'. rewrite not_elem_of_cons. split; [congruence|apply H].
      * right. exists (S k), s'. split_and!; [lia|done..].
  - destruct (IH (i + 1)) as [(E1 & E2 & H)|(k & s' & E1 & E2 & E3)]; [lia| |].
    + left. split_and!; [done..|]. intros s'. rewrite not_elem_of_cons. split; [done|apply H].
    + right. exists (S k), s'. split_and!; [lia|done..].
Qed.

Lemma index_loop_spec b limit es l n : Forall2 (entry_is b limit) es l -> text n -> forall i,
  index_loop b es i n = Ret (find l n i).
Proof.
  intros H Hn. induction H as [|e o es l He _ IH]; intros i; cbn [index_loop find]; [done|].
  destruct o as [[m s]|]; cbn in He.
  - destruct He as (p & q & -> & Hp & _). rewrite (string_at_read _ _ _ Hp). cbn [mbind C_bind].
    destruct Hp as [Hm _]. destruct (Z.eqb_spec (grub_strcmp m n) 0) as [E|E];
      rewrite strcmp_spec in E by done; by destruct (decide (m = n)).
  - subst e. apply IH.
Qed.

Lemma cur_text n : text n -> (cur n =? 0) = bool_decide (n = []).
Proof. intros [|c n' Hc _]; [done|]. cbn. destruct (Z.eqb_spec c 0); [lia|done]. Qed.

Lemma var_get_index_spec v l n : readable v l -> text n ->
  var_get_index v n = Ret (if decide (n = []) then -1 else find l n 0).
Proof.
  intros [_ _ He] Hn. unfold var_get_index. rewrite cur_text by done.
  destruct (decide (n = [])) as [->|Hne]; [done|]. rewrite bool_decide_eq_false_2 by done.
  by eapply index_loop_spec.
Qed.

Lemma entry_at_spec v l k n s : readable v l -> l !! k = Some (Some (n, s)) -> exists p q,
  variable_list v !! k = Some (Some p, Some q) /\ entry_at v (0 + Z.of_nat k) = Ret (Some p, Some q) /\
  string_at (store v) p n /\ string_at (store v) q s /\
  p + Z.of_nat (length n) < actpos v /\ q + Z.of_nat (length s) < actpos v.
Proof.
  intros [_ _ He] Hk. destruct (Forall2_lookup_r _ _ _ _ _ He Hk) as (e & Ee & p & q & -> & H1 & H2 & H3 & H4).
  exists p, q. split_and!; [done| |done..]. unfold entry_at. rewrite Z.add_0_l.
  destruct (Z.leb_spec 0 (Z.of_nat k)); [|lia]. by rewrite Nat2Z.id, Ee.
Qed.

Lemma var_get_spec v l n : readable v l -> text n -> var_get v n = Ret (value_of l n).
Proof.
  intros Hw Hn. unfold var_get, value_of. rewrite (var_get_index_spec _ l) by done. cbn [mbind C_bind].
  destruct (decide (n = [])); [done|].
  destruct (find_spec l n 0) as [(-> & -> & _)|(k & s & -> & Hk & ->)]; [lia|done|].
  destruct (entry_at_spec v l k n s Hw Hk) as (p & q & _ & -> & _ & Hq & _).
  destruct (Z.eqb_spec (0 + Z.of_nat k) (-1)); [lia|]. cbn [mbind C_bind snd].
  by rewrite (string_at_read _ _ _ Hq).
Qed.

(** *** Changes *)

(** A string that no variable has, below the limit. *)
Definition spare (v : var_state) (l : names) (x : Z * list Z) : Prop :=
  string_at (store v) x.1 x.2 /\ x.1 + Z.of_nat (length x.2) < actpos v /\
  forall i b y, slot (variable_list v) l i b = Some y -> apart x y.

Lemma slot_is v l i b x : readable v l -> slot (variable_list v) l i b = Some x ->
  string_at (store v) x.1 x.2 /\ 0 <= x.1 /\ x.1 + Z.of_nat (length x.2) < actpos v.
Proof.
  intros Hw. unfold slot. destruct (l !! i) as [[[n s]|]|] eqn:El;
    [|by destruct (variable_list v !! i) as [[[] []]|]..].
  destruct (entry_at_spec v l i n s Hw El) as (p & q & -> & _ & Hp & Hq & Hp' & Hq').
  intros [= <-]. destruct b; cbn; (split_and!; [done| |done]); [by destruct Hq as (_ & ? & _)|
    by destruct Hp as (_ & ? & _)].
Qed.

(** Writing where no string of the variables is. *)
Lemma wf_write v l b' x : wf_vars v l -> length b' = length (store v) ->
  (forall i : nat, Z.of_nat i < x.1 \/ x.1 + Z.of_nat (length x.2) < Z.of_nat i -> b' !! i = store v !! i) ->
  (forall i b y, slot (variable_list v) l i b = Some y -> apart x y) -> wf_vars (set_store v b') l.
Proof.
  intros [[H1 H2 H3] H4] Hl Hb Hx. split; [|done].
  split; cbn [set_store store actpos variable_list]; [by rewrite Hl|done|].
  apply Forall2_same_length_lookup. split; [by eapply Forall2_length|]. intros i e o He Ho.
  pose proof (Forall2_lookup_lr _ _ _ _ _ _ H3 He Ho) as Heo. destruct o as [[n s]|]; [|done].
  destruct Heo as (p & q & -> & Hp & Hp' & Hq & Hq'). exists p, q. split; [done|].
  assert (Hsame : forall b y, slot (variable_list v) l i b = Some y -> string_at (store v) y.1 y.2 ->
    string_at b' y.1 y.2).
  { intros b y Hy Hs. eapply string_at_same; [exact Hs|]. intros j Hj. apply Hb.
    specialize (Hx i b y Hy). unfold apart in Hx. lia. }
  split_and!; [|done| |done].
  - apply (Hsame false (p, n)); [|done]. unfold slot. by rewrite He, Ho.
  - apply (Hsame true (q, s)); [|done]. unfold slot. by rewrite He, Ho.
Qed.

(** A string below the limit. *)
Definition stored (v : var_state) (p : Z) (s : list Z) : Prop :=
  string_at (store v) p s /\ p + Z.of_nat (length s) < actpos v.

(** What a new string does not change. *)
Record extends (v v' : var_state) : Prop := {
  ex_list : variable_list v' = variable_list v;
  ex_stored p s : stored v p s -> stored v' p s
}.

Lemma new_string_read v l s : readable v l -> text s -> Z.of_nat (length s) < 2 ^ 31 ->
  if actpos v + Z.of_nat (length s) <? VARIABLE_STORE_SIZE then exists v',
    new_string v s = Ret (Some (actpos v), v') /\ readable v' l /\ stored v' (actpos v) s /\ extends v v' /\
    actpos v' = actpos v + Z.of_nat (length s) + 1
  else new_string v s = Ret (None, v).
Proof.
  intros [H1 H2 H3] Hs Hlen. unfold new_string, var_alloc_mem, VARIABLE_STORE_SIZE in *.
  rewrite u32_id by (unfold is_u32; lia).
  destruct (Z.eqb_spec (Z.of_nat (length s) + 1) 0); [lia|]. rewrite orb_false_r.
  destruct (Z.ltb_spec (actpos v + Z.of_nat (length s)) 1024) as [Hfit|Hfit],
    (Z.ltb_spec 1024 (actpos v + (Z.of_nat (length s) + 1))); try lia; [|done].
  destruct (strcpy_at_spec (store v) (actpos v) s Hs) as (b' & Eb & Hl & Hat & Hsame); [lia|lia|].
  cbn [store]. rewrite Eb. cbn [mbind C_bind]. eexists. split; [done|].
  assert (Hkeep : forall p t, string_at (store v) p t -> p + Z.of_nat (length t) < actpos v -> string_at b' p t).
  { intros p t Ht Hp. eapply string_at_same; [exact Ht|]. intros i Hi. apply Hsame. lia. }
  cbn [set_store store actpos variable_list]. split; [|split; [split; [done|cbn; lia]|split; [split|cbn; lia]]].
  - split; cbn; [by rewrite Hl|unfold VARIABLE_STORE_SIZE; lia|].
    eapply Forall2_impl; [exact H3|]. intros e [[m t]|]; [|done].
    intros (p & q & -> & Hp & Hp' & Hq & Hq'). exists p, q. split_and!; [done|by apply Hkeep|lia|by apply Hkeep|lia].
  - done.
  - intros p t [Ht Hp]. split; [by apply Hkeep|cbn; lia].
Qed.

Lemma new_string_spec v l s : wf_vars v l -> text s -> Z.of_nat (length s) < 2 ^ 31 ->
  if actpos v + Z.of_nat (length s) <? VARIABLE_STORE_SIZE then exists v',
    new_string v s = Ret (Some (actpos v), v') /\ wf_vars v' l /\ spare v' l (actpos v, s) /\
    variable_list v' = variable_list v /\ actpos v' = actpos v + Z.of_nat (length s) + 1 /\
    (forall x, spare v l x -> spare v' l x)
  else new_string v s = Ret (None, v).
Proof.
  intros [Hr Ha] Hs Hlen. pose proof (new_string_read v l s Hr Hs Hlen) as Hnew.
  destruct (Z.ltb_spec (actpos v + Z.of_nat (length s)) VARIABLE_STORE_SIZE); [|done].
  destruct Hnew as (v' & E & Hr' & [Hat Hlim] & [Hl Hk] & Hp). exists v'. rewrite Hl.
  split_and!; [done| | |done|done|].
  - split; [done|]. by rewrite Hl.
  - split; [done|]. split; [done|]. rewrite Hl. intros i b y Hy. apply (slot_is v) in Hy as (_ & _ & Hy); [|done].
    by right.
  - intros x (Hx1 & Hx2 & Hx3). split; [|split; [lia|by rewrite Hl]]. by apply Hk.
Qed.

Lemma slot_insert es l i j b e n s p q : e = (Some p, Some q) -> (i < length es)%nat -> (i < length l)%nat ->
  slot (<[i := e]> es) (<[i := Some (n, s)]> l) j b =
  if decide (j = i) then Some (if b then (q, s) else (p, n)) else slot es l j b.
Proof.
  intros -> H1 H2. unfold slot. destruct (decide (j = i)) as [->|Hj].
  - by rewrite !list_lookup_insert_eq by done.
  - by rewrite !list_lookup_insert_ne by done.
Qed.

(** An entry is given a name and a value that are not those of another one. *)
Lemma wf_set_entry v l (i : nat) n s p q : wf_vars v l -> (i < length l)%nat ->
  string_at (store v) p n -> p + Z.of_nat (length n) < actpos v ->
  string_at (store v) q s -> q + Z.of_nat (length s) < actpos v -> apart (p, n) (q, s) ->
  (forall j b y, j <> i -> slot (variable_list v) l j b = Some y -> apart (p, n) y /\ apart (q, s) y) ->
  wf_vars (set_entry v (Z.of_nat i) (Some p, Some q)) (<[i := Some (n, s)]> l).
Proof.
  intros [[H1 H2 H3] H4] Hi Hp Hp' Hq Hq' Hpq Hx. pose proof (Forall2_length _ _ _ H3) as Hlen.
  split; [split|]; cbn [set_entry store actpos variable_list]; [done|done| |].
  - rewrite Nat2Z.id. apply Forall2_insert; [done|]. by exists p, q.
  - rewrite Nat2Z.id. intros j k b b' x y. rewrite !(slot_insert _ _ _ _ _ _ _ _ p q) by (done || lia).
    unfold apart in *. destruct (decide (j = i)) as [->|Hj], (decide (k = i)) as [->|Hk]; intros Ex Ey Hne.
    + injection Ex as <-. injection Ey as <-. destruct b, b'; cbn in *; [done|tauto|tauto|done].
    + injection Ex as <-. destruct (Hx k b' y Hk Ey). destruct b; cbn in *; tauto.
    + injection Ey as <-. destruct (Hx j b x Hj Ex). destruct b'; cbn in *; tauto.
    + by eapply H4.
Qed.

(** ** The variables as a map *)

Lemma find_first l n : forall i k, 0 <= i -> find l n i = i + Z.of_nat k ->
  forall j s, (j < k)%nat -> l !! j <> Some (Some (n, s)).
Proof.
  induction l as [|o l IH]; intros i k Hi Hk j s Hj; [done|]. cbn [find] in Hk.
  destruct o as [[m t]|]; [destruct (decide (m = n)) as [->|Hne]; [lia|]|].
  - destruct j as [|j]; [cbn; congruence|]. apply (IH (i + 1) (k - 1)%nat); lia.
  - destruct j as [|j]; [done|]. apply (IH (i + 1) (k - 1)%nat); lia.
Qed.

Lemma assoc_insert l n s m o : forall k, l !! k = Some o -> (o = None \/ exists t, o = Some (n, t)) ->
  (forall j t, (j < k)%nat -> l !! j <> Some (Some (n, t))) ->
  assoc (<[k := Some (n, s)]> l) m = if decide (m = n) then Some s else assoc l m.
Proof.
  induction l as [|o' l IH]; intros k Hk Ho Hf; [done|]. destruct k as [|k].
  - change (<[0%nat := Some (n, s)]> (o' :: l)) with (Some (n, s) :: l). cbn [assoc]. injection Hk as ->. destruct (decide (n = m)) as [->|Hne]; [by rewrite decide_True|].
    rewrite decide_False by done. destruct Ho as [->|[t ->]]; [done|]. by rewrite decide_False.
  - assert (IHl : assoc (<[k := Some (n, s)]> l) m = if decide (m = n) then Some s else assoc l m).
    { apply IH; [done|done|]. intros j t Hj. apply (Hf (S j) t). lia. }
    change (<[S k := Some (n, s)]> (o' :: l)) with (o' :: <[k := Some (n, s)]> l). cbn [assoc]. rewrite IHl.
    destruct o' as [[m' t]|]; [|done]. destruct (decide (m' = m)) as [->|Hne]; [|done].
    destruct (decide (m = n)) as [->|]; [|done]. by destruct (Hf 0%nat t ltac:(lia)).
Qed.

(** The state [v] holds the variables [m]. *)
Definition means (v : var_state) (m : gmap (list Z) (list Z)) : Prop :=
  exists l, wf_vars v l /\ forall n, m !! n = value_of l n.

Lemma means_insert v l m n s k o : (forall x, m !! x = value_of l x) -> n <> [] -> l !! k = Some o ->
  (o = None \/ exists t, o = Some (n, t)) -> (forall j t, (j < k)%nat -> l !! j <> Some (Some (n, t))) ->
  wf_vars v (<[k := Some (n, s)]> l) -> means v (<[n := s]> m).
Proof.
  intros Hm Hn Hk Ho Hf Hw. exists (<[k := Some (n, s)]> l). split; [done|]. intros x. unfold value_of.
  rewrite (assoc_insert _ _ _ _ o) by done. rewrite lookup_insert, Hm. unfold value_of.
  destruct (decide (n = x)) as [->|Hx]; [by rewrite decide_False, decide_True|].
  by rewrite (decide_False (P := x = n)).
Qed.

Lemma var_get_means v m n : means v m -> text n -> var_get v n = Ret (m !! n).
Proof. intros (l & Hw & Hm) Hn. rewrite (var_get_spec v l) by auto with cmodel. by rewrite Hm. Qed.

(** *** Values that exist already *)

Lemma set_in_place v l k n old s : wf_vars v l -> l !! k = Some (Some (n, old)) -> text s ->
  (length s <= length old)%nat -> exists p q b,
  variable_list v !! k = Some (Some p, Some q) /\ strcpy_at (store v) q s = Ret b /\
  wf_vars (set_store v b) (<[k := Some (n, s)]> l).
Proof.
  intros Hw Hk Hs Hl. destruct (entry_at_spec v l k n old (wv_read _ _ Hw) Hk) as (p & q & Ek & _ & Hp & Hq & Hp' & Hq').
  pose proof (string_at_inside _ _ _ Hq) as Hin. assert (Hq0 : 0 <= q) by by destruct Hq as (_ & ? & _).
  destruct (strcpy_at_spec (store v) q s Hs Hq0) as (b & Eb & Hlb & Hat & Hsame); [lia|].
  exists p, q, b. split; [done|]. split; [done|]. pose proof Hw as [[H1 H2 H3] H4].
  assert (Hother : forall j c y, slot (variable_list v) l j c = Some y -> (j, c) <> (k, true) ->
    apart y (q, old)).
  { intros j c y Hy Hne. apply (H4 j k c true y (q, old) Hy); [|done]. unfold slot. by rewrite Ek, Hk. }
  split; [split|]; cbn [set_store store actpos variable_list]; [by rewrite Hlb|done| |].
  - apply Forall2_same_length_lookup. split; [rewrite length_insert; by eapply Forall2_length|].
    intros j e o He. destruct (decide (j = k)) as [->|Hj].
    + rewrite list_lookup_insert_eq by (by eapply lookup_lt_Some). intros [= <-].
      rewrite Ek in He. injection He as <-. exists p, q. split; [done|]. split_and!; [|done|done|lia].
      assert (Hpq : apart (p, n) (q, old)).
      { apply (Hother k false); [|congruence]. unfold slot. by rewrite Ek, Hk. }
      eapply string_at_same; [exact Hp|]. intros i Hi. apply Hsame. unfold apart in Hpq. cbn in Hpq. lia.
    + rewrite list_lookup_insert_ne by done. intros Ho.
      pose proof (Forall2_lookup_lr _ _ _ _ _ _ H3 He Ho) as Heo. destruct o as [[m t]|]; [|done].
      destruct Heo as (p' & q' & -> & Hm1 & Hm2 & Ht1 & Ht2). exists p', q'.
      assert (Ha : forall c y, slot (variable_list v) l j c = Some y -> string_at (store v) y.1 y.2 ->
        string_at b y.1 y.2).
      { intros c y Hy Hsy. eapply string_at_same; [exact Hsy|]. intros i Hi. apply Hsame.
        specialize (Hother j c y Hy ltac:(congruence)). unfold apart in Hother. cbn in Hother. lia. }
      split_and!; [done| |done| |done].
      * apply (Ha false (p', m)); [unfold slot; by rewrite He, Ho|done].
      * apply (Ha true (q', t)); [unfold slot; by rewrite He, Ho|done].
  - assert (Hslot : forall j c y, slot (variable_list v) (<[k := Some (n, s)]> l) j c = Some y ->
      exists y', slot (variable_list v) l j c = Some y' /\ y'.1 = y.1 /\ (length y.2 <= length y'.2)%nat).
    { intros j c y. unfold slot. destruct (decide (j = k)) as [->|Hj].
      - rewrite list_lookup_insert_eq by (by eapply lookup_lt_Some). rewrite Ek, Hk. intros [= <-].
        eexists. split; [done|]. by destruct c.
      - rewrite list_lookup_insert_ne by done. intros Hy. exists y. split; [done|]. done. }
    intros i j c c' x y Hx Hy Hne. apply Hslot in Hx as (x' & Hx & Ex & Hlx). apply Hslot in Hy as (y' & Hy & Ey & Hly).
    specialize (H4 i j c c' x' y' Hx Hy Hne). unfold apart in *. lia.
Qed.

(** A value in new memory. *)
Lemma set_longer v l k n old s : wf_vars v l -> l !! k = Some (Some (n, old)) -> text s ->
  actpos v + Z.of_nat (length s) < VARIABLE_STORE_SIZE -> exists p q v',
  variable_list v !! k = Some (Some p, Some q) /\ new_string v s = Ret (Some (actpos v), v') /\
  wf_vars (set_entry v' (0 + Z.of_nat k) (Some p, Some (actpos v))) (<[k := Some (n, s)]> l).
Proof.
  intros Hw Hk Hs Hfit. destruct (entry_at_spec v l k n old (wv_read _ _ Hw) Hk) as (p & q & Ek & _ & Hp & Hq & Hp' & Hq').
  pose proof (wv_pos _ _ Hw) as Hpos. unfold VARIABLE_STORE_SIZE in *.
  pose proof (new_string_spec v l s Hw Hs ltac:(lia)) as Hnew. unfold VARIABLE_STORE_SIZE in Hnew.
  destruct (Z.ltb_spec (actpos v + Z.of_nat (length s)) 1024); [|lia].
  destruct Hnew as (v' & Enew & Hw' & (Hat & Hlt & Hap) & El & Epos & _). exists p, q, v'.
  split; [done|]. split; [done|]. rewrite Z.add_0_l. rewrite <- El in Ek.
  destruct (entry_at_spec v' l k n old (wv_read _ _ Hw') Hk) as (p1 & q1 & Ek1 & _ & Hp1 & _ & Hp1' & _).
  rewrite Ek in Ek1. injection Ek1 as <- <-.
  assert (Hslot : forall c, slot (variable_list v') l k c = Some (if c then (q, old) else (p, n)))
    by (intros c; unfold slot; by rewrite Ek, Hk).
  apply wf_set_entry; [done|by eapply lookup_lt_Some|done|lia|done|done| |].
  - specialize (Hap k false (p, n) (Hslot false)). unfold apart in *. tauto.
  - intros j b y Hj Hy. split; [|by eapply Hap].
    apply (wv_apart _ _ Hw' k j false b); [apply (Hslot false)|done|congruence].
Qed.

Lemma free_var_spec b limit es l : Forall2 (entry_is b limit) es l -> forall i, 0 <= i ->
  (free_loop es i = -1 /\ forall k, l !! k <> Some None) \/
  (exists k, free_loop es i = i + Z.of_nat k /\ l !! k = Some None /\ es !! k = Some (None, None)).
Proof.
  induction 1 as [|e o es l He _ IH]; intros i Hi; cbn [free_loop]; [by left|].
  destruct o as [[n s]|]; cbn in He.
  - destruct He as (p & q & -> & _). destruct (IH (i + 1)) as [[E H]|(k & E & H)]; [lia| |].
    + left. split; [done|]. intros [|k]; [done|apply H].
    + right. exists (S k). split; [lia|done].
  - subst e. right. exists O. split; [lia|done].
Qed.

Lemma new_string_entry v i e s : new_string (set_entry v i e) s =
  '(a, v') ← new_string v s; Ret (a, set_entry v' i e).
Proof.
  unfold new_string, var_alloc_mem. cbn [set_entry actpos store].
  destruct (_ || _); [done|]. cbn [store]. by destruct (strcpy_at _ _ _).
Qed.

Lemma set_entry_twice v i e e' : set_entry (set_entry v i e) i e' = set_entry v i e'.
Proof. unfold set_entry. cbn. by rewrite list_insert_insert_eq. Qed.

(** A name in new memory, and the value after it. *)
Lemma set_new v l k n s : wf_vars v l -> l !! k = Some None -> text n -> text s ->
  actpos v + Z.of_nat (length n) + Z.of_nat (length s) + 1 < VARIABLE_STORE_SIZE -> exists v1 v2,
  new_string v n = Ret (Some (actpos v), v1) /\ variable_list v1 = variable_list v /\
  new_string v1 s = Ret (Some (actpos v1), v2) /\
  wf_vars (set_entry v2 (Z.of_nat k) (Some (actpos v), Some (actpos v1))) (<[k := Some (n, s)]> l).
Proof.
  intros Hw Hk Hn Hs Hfit. pose proof (wv_pos _ _ Hw) as Hpos. unfold VARIABLE_STORE_SIZE in *.
  pose proof (new_string_spec v l n Hw Hn ltac:(lia)) as H1. unfold VARIABLE_STORE_SIZE in H1.
  destruct (Z.ltb_spec (actpos v + Z.of_nat (length n)) 1024); [|lia].
  destruct H1 as (v1 & E1 & Hw1 & Hsp1 & El1 & Ep1 & _).
  pose proof (new_string_spec v1 l s Hw1 Hs ltac:(lia)) as H2. unfold VARIABLE_STORE_SIZE in H2.
  destruct (Z.ltb_spec (actpos v1 + Z.of_nat (length s)) 1024); [|lia].
  destruct H2 as (v2 & E2 & Hw2 & (Hq & Hq' & Hqa) & El2 & Ep2 & Hkeep).
  destruct (Hkeep _ Hsp1) as (Hp & Hp' & Hpa).
  exists v1, v2. split_and!; [done..|].
  apply wf_set_entry; [done|by eapply lookup_lt_Some|done|done|done|done| |].
  - left. cbn. lia.
  - intros j b y _ Hy. split; [by eapply Hpa|by eapply Hqa].
Qed.

(** There is room for a new value. *)
Definition has_room (v : var_state) (m : gmap (list Z) (list Z)) (n s : list Z) : Prop :=
  match m !! n with
  | Some old => (length s <= length old)%nat \/ actpos v + Z.of_nat (length s) < VARIABLE_STORE_SIZE
  | None => bad_name n = false /\ var_get_free_var v <> -1 /\
      actpos v + Z.of_nat (length n) + Z.of_nat (length s) + 1 < VARIABLE_STORE_SIZE
  end.

Lemma var_set_means stale v m n s : means v m -> text n -> text s -> n <> [] -> has_room v m n s ->
  exists v', var_set stale v n s false = Ret (0, v') /\ means v' (<[n := s]> m).
Proof.
  intros (l & Hw & Hm) Hn Hs Hne Hroom. unfold has_room in Hroom. rewrite Hm in Hroom. unfold value_of in Hroom.
  rewrite decide_False in Hroom by done.
  unfold var_set. cbn [mbind C_bind]. rewrite (var_get_index_spec v l) by auto with cmodel.
  rewrite decide_False by done. cbn [mbind C_bind].
  destruct (find_spec l n 0) as [(Ef & Ea & Hnone)|(k & old & Ef & Hk & Ea)]; [lia| |]; rewrite Ef; rewrite Ea in Hroom.
  - change (-1 =? -1) with true. cbv iota. destruct Hroom as (Hbad & Hfree & Hfit). rewrite Hbad. cbv zeta.
    unfold var_get_free_var in *.
    destruct (free_var_spec _ _ _ _ (wv_entries _ _ Hw) 0) as [[E _]|(k & E & Hk & Ek)]; [lia|done|].
    rewrite E. destruct (Z.eqb_spec (0 + Z.of_nat k) (-1)); [lia|].
    destruct (set_new v l k n s Hw Hk Hn Hs Hfit) as (v1 & v2 & E1 & El1 & E2 & Hw').
    rewrite E1. cbn [mbind C_bind]. unfold entry_at. rewrite Z.add_0_l, El1.
    destruct (Z.leb_spec 0 (Z.of_nat k)); [|lia]. rewrite Nat2Z.id, Ek. cbn [need mbind C_bind snd].
    rewrite new_string_entry, E2. cbn [mbind C_bind]. rewrite set_entry_twice. eexists. split; [done|].
    eapply (means_insert _ l m n s k None); [done|done|done|by left| |done].
    intros j t _ Hj. apply list_elem_of_lookup_2 in Hj. by eapply Hnone.
  - destruct (Z.eqb_spec (0 + Z.of_nat k) (-1)); [lia|].
    destruct (entry_at_spec v l k n old (wv_read _ _ Hw) Hk) as (p & q & Ek & -> & Hp & Hq & _ & _).
    cbn [mbind C_bind snd fst need]. rewrite (string_at_read _ _ _ Hq). cbn [mbind C_bind].
    assert (Hmeans : forall v', wf_vars v' (<[k := Some (n, s)]> l) -> means v' (<[n := s]> m)).
    { intros v' Hw'. eapply (means_insert _ l m n s k (Some (n, old))); [done|done|done|by right; exists old| |done].
      apply (find_first l n 0 k); lia. }
    destruct (Z.leb_spec (Z.of_nat (length s)) (Z.of_nat (length old))) as [Hle|Hgt].
    + destruct (set_in_place v l k n old s Hw Hk Hs ltac:(lia)) as (p1 & q1 & b & Ek1 & Eb & Hw').
      rewrite Ek in Ek1. injection Ek1 as <- <-. rewrite Eb. cbn [mbind C_bind]. eexists. split; [done|].
      by apply Hmeans.
    + destruct Hroom as [Hle|Hfit]; [lia|].
      destruct (set_longer v l k n old s Hw Hk Hs Hfit) as (p1 & q1 & v' & Ek1 & Enew & Hw').
      rewrite Ek in Ek1. injection Ek1 as <- <-. rewrite Enew. cbn [mbind C_bind]. eexists. split; [done|].
      by apply Hmeans.
Qed.

(** C18: Setting a variable changes its value and no other, over the names and values
    that are in the store, where there is room. *)
Theorem var_set_get stale v m n s k : means v m -> text n -> text s -> text k -> n <> [] ->
  has_room v m n s -> exists v',
  var_set stale v n s false = Ret (0, v') /\ means v' (<[n := s]> m) /\
  var_get v' k = Ret (<[n := s]> m !! k).
Proof.
  intros Hv Hn Hs Hk Hne Hroom. destruct (var_set_means stale v m n s Hv Hn Hs Hne Hroom) as (v' & E & Hv').
  exists v'. split; [done|]. split; [done|]. by apply var_get_means.
Qed.

(** The first variable without a name gets one: it is found there. *)
Lemma index_new b limit es l n p q : Forall2 (entry_is b limit) es l -> text n -> (forall s, Some (n, s) ∉ l) ->
  string_at b p n -> forall k i, 0 <= i -> es !! k = Some (None, None) ->
  index_loop b (<[k := (Some p, q)]> es) i n = Ret (i + Z.of_nat k).
Proof.
  intros H Hn Hno Hp. induction H as [|e o es l He _ IH]; intros k i Hi Hk; [done|].
  assert (Hno' : forall s, Some (n, s) ∉ l) by (intros s Hs; apply (Hno s); by right).
  destruct k as [|k].
  - change (<[0%nat := (Some p, q)]> (e :: es)) with ((Some p, q) :: es). cbn [index_loop].
    rewrite (string_at_read _ _ _ Hp). cbn [mbind C_bind]. rewrite strcmp_refl. cbn. f_equal. lia.
  - change (<[S k := (Some p, q)]> (e :: es)) with (e :: <[k := (Some p, q)]> es). cbn [index_loop].
    cbn in Hk. replace (i + Z.of_nat (S k)) with ((i + 1) + Z.of_nat k) by lia.
    destruct o as [[m s]|]; cbn in He.
    + destruct He as (p' & q' & -> & Hp' & _). rewrite (string_at_read _ _ _ Hp'). cbn [mbind C_bind].
      destruct (Z.eqb_spec (grub_strcmp m n) 0) as [E|E]; [|apply IH; [done|lia|done]].
      apply strcmp_spec in E as ->; [|by destruct Hp'|done]. destruct (Hno s). by left.
    + subst e. apply IH; [done|lia|done].
Qed.

(** C27: A variable whose name fits into the store and whose value does not is left
    without a value; setting it again reads through a null pointer. *)
Theorem value_lost stale v m n s s' : means v m -> text n -> text s -> n <> [] -> m !! n = None ->
  bad_name n = false -> var_get_free_var v <> -1 -> Z.of_nat (length s) < 2 ^ 31 ->
  actpos v + Z.of_nat (length n) < VARIABLE_STORE_SIZE <= actpos v + Z.of_nat (length n) + Z.of_nat (length s) + 1 ->
  exists v', var_set stale v n s false = Ret (1, v') /\ var_get v' n = Ret None /\
  var_set stale v' n s' false = Undef.
Proof.
  intros (l & Hw & Hm) Hn Hs Hne Hnone Hbad Hfree Hls Hfit. rewrite Hm in Hnone. unfold value_of in Hnone.
  rewrite decide_False in Hnone by done. pose proof (wv_pos _ _ Hw) as Hpos.
  destruct (find_spec l n 0) as [(Ef & Ea & Hno)|(k & old & _ & _ & Ea)]; [lia| |congruence].
  unfold var_get_free_var in *.
  destruct (free_var_spec _ _ _ _ (wv_entries _ _ Hw) 0) as [[E _]|(k & E & Hk & Ek)]; [lia|done|].
  unfold VARIABLE_STORE_SIZE in *.
  pose proof (new_string_spec v l n Hw Hn ltac:(lia)) as H1. unfold VARIABLE_STORE_SIZE in H1.
  destruct (Z.ltb_spec (actpos v + Z.of_nat (length n)) 1024); [|lia].
  destruct H1 as (v1 & E1 & Hw1 & (Hat & _ & _) & El1 & Ep1 & _). cbn [fst snd] in Hat.
  pose proof (new_string_spec v1 l s Hw1 Hs Hls) as H2. unfold VARIABLE_STORE_SIZE in H2.
  destruct (Z.ltb_spec (actpos v1 + Z.of_nat (length s)) 1024); [lia|].
  set (v' := set_entry v1 (Z.of_nat k) (Some (actpos v), None)).
  assert (Ek' : entry_at v' (Z.of_nat k) = Ret (Some (actpos v), None)).
  { unfold entry_at. destruct (Z.leb_spec 0 (Z.of_nat k)); [|lia]. cbn [v' set_entry variable_list].
    rewrite Nat2Z.id, list_lookup_insert_eq; [done|]. rewrite El1. by eapply lookup_lt_Some. }
  assert (Ei : var_get_index v' n = Ret (Z.of_nat k)).
  { unfold var_get_index. rewrite cur_text, bool_decide_eq_false_2 by done. cbn [v' set_entry store variable_list].
    rewrite Nat2Z.id, El1. pose proof (wv_entries _ _ Hw1) as He1. rewrite El1 in He1.
    rewrite (index_new _ _ _ _ _ _ _ He1 Hn Hno Hat k 0) by done. done. }
  exists v'. split_and!.
  - unfold var_set. cbn [mbind C_bind]. rewrite (var_get_index_spec v l) by auto with cmodel. rewrite decide_False by done.
    cbn [mbind C_bind]. rewrite Ef. change (-1 =? -1) with true. cbv iota. rewrite Hbad. cbv zeta.
    unfold var_get_free_var. rewrite E. destruct (Z.eqb_spec (0 + Z.of_nat k) (-1)); [lia|].
    rewrite E1. cbn [mbind C_bind]. unfold entry_at. rewrite Z.add_0_l, El1.
    destruct (Z.leb_spec 0 (Z.of_nat k)); [|lia]. rewrite Nat2Z.id, Ek. cbn [need mbind C_bind snd].
    rewrite new_string_entry, H2. done.
  - unfold var_get. rewrite Ei. cbn [mbind C_bind]. destruct (Z.eqb_spec (Z.of_nat k) (-1)); [lia|].
    by rewrite Ek'.
  - unfold var_set. cbn [mbind C_bind]. rewrite Ei. cbn [mbind C_bind].
    destruct (Z.eqb_spec (Z.of_nat k) (-1)); [lia|]. by rewrite Ek'.
Qed.

(** *** References *)

(** The parts that values are made of. *)
Definition values_are (m : gmap (list Z) (list Z)) (env : list Z -> option (list part)) : Prop :=
  forall n qs, env n = Some qs -> m !! n = Some (flatten qs) /\ Forall good_part qs.

(** C21: The text that [var_sprint] gives has every reference replaced by the value of
    its variable, in the values also, up to ten levels deep. *)
Theorem references_replaced v m env ps s cap stale : means v m -> values_are m env ->
  full env 10 ps s -> Forall good_part ps -> Z.of_nat (length stale) = buffer_size ->
  passes_fit env cap 10 ps -> var_sprint cap stale v (flatten ps) = Ret s.
Proof.
  intros Hv Henv. apply (var_sprint_full v env).
  - intros n qs Hn E. destruct (Henv n qs E) as [Em _]. rewrite (var_get_means v m) by done. by rewrite Em.
  - intros n qs E. by destruct (Henv n qs E).
Qed.

(** *** The command *)

Definition name_char (c : Z) : bool :=
  negb ((c =? ch ":") || (c =? ch "=") || (c =? ch "?") || (c =? ch "(") || (c =? ch ")") || grub_isspace c).
Definition good_name (n : list Z) : Prop := text n /\ n <> [] /\ Forall (fun c => name_char c = true) n.
(** A value that needs no quotes. *)
Definition good_value (s : list Z) : Prop :=
  text s /\ (32 ∉ s) /\ cur s <> 34 /\ grub_isspace (cur s) = false.

Lemma scan_until_app stop w c r : Forall (fun c => stop c = false) w -> stop c = true ->
  scan_until stop (w ++ c :: r) = (w, c :: r).
Proof. induction 1 as [|x w Hx _ IH]; intros Hc; cbn; [by rewrite Hc|]. rewrite Hx. by rewrite IH. Qed.

Lemma scan_until_all stop w : Forall (fun c => stop c = false) w -> scan_until stop w = (w, []).
Proof. induction 1 as [|x w Hx _ IH]; cbn; [done|]. rewrite Hx. by rewrite IH. Qed.

Lemma skip_ws_stays s : grub_isspace (cur s) = false -> skip_ws s = s.
Proof. destruct s as [|c s]; cbn; [done|]. by intros ->. Qed.

Lemma name_char_inv c : name_char c = true -> grub_isspace c = false /\
  ((c =? ch ":") || (c =? ch "=") || (c =? ch "?") || (c =? 32)) = false /\ c <> ch ")" /\ c <> ch "(".
Proof.
  unfold name_char, grub_isspace. rewrite negb_true_iff, !orb_false_iff, !Z.eqb_neq. intuition.
Qed.

Lemma set_func_spec stale v n s : good_name n -> good_value s ->
  set_func stale v (n ++ ch "=" :: s) = var_set stale v n s false.
Proof.
  intros (Hn & Hne & Hnc) (Hs & Hsp & Hq & Hws). unfold set_func. cbv zeta.
  assert (Hcn : grub_isspace (cur (n ++ ch "=" :: s)) = false /\ cur (n ++ ch "=" :: s) <> 0).
  { destruct n as [|c n]; [done|]. apply Forall_cons_1 in Hnc as [Hc _]. apply Forall_cons_1 in Hn as [Hc0 _].
    cbn. split; [by apply name_char_inv|lia]. }
  destruct Hcn as [Hcn Hc0]. rewrite skip_ws_stays by done.
  destruct (Z.eqb_spec (cur (n ++ ch "=" :: s)) 0); [done|].
  rewrite scan_until_app; [|eapply Forall_impl; [exact Hnc|]; by intros c (_ & ? & _)%name_char_inv|done].
  rewrite (skip_ws_stays (ch "=" :: s)) by done. cbn [cur].
  change (ch "=" =? ch ":") with false. cbv iota. cbn [cur tail].
  change (ch "=" =? ch "?") with false. cbv iota. cbn [cur tail].
  rewrite Z.eqb_refl. cbn [negb]. rewrite skip_ws_stays by done.
  destruct (Z.eqb_spec (cur s) 34); [done|].
  rewrite scan_until_all; [done|]. apply Forall_forall. intros c Hc. apply Z.eqb_neq. by intros ->.
Qed.

Lemma full_one env k w : full env k [Lit w] w.
Proof. pose proof (full_lit env k w [] [] (full_nil env k)) as H. by rewrite app_nil_r in H. Qed.

(** C24: After the command [set n=s] the text [$(n)] stands for [s]. *)
Theorem set_then_expand stale cap v m n s a b : means v m -> good_name n -> good_value s -> has_room v m n s ->
  text a -> text b -> ch "$" ∉ a ++ s ++ b -> Z.of_nat (length stale) = buffer_size ->
  Z.of_nat (length a + length n + length s + length b + 3) < Z.min buffer_size cap -> exists v',
  set_func stale v (n ++ ch "=" :: s) = Ret (0, v') /\ means v' (<[n := s]> m) /\
  var_sprint cap stale v' (a ++ (bstr "$(" ++ n ++ bstr ")") ++ b) = Ret (a ++ s ++ b).
Proof.
  intros Hv Hn Hs Hroom Ha Hb Hd Hst Hfit. rewrite !not_elem_of_app in Hd. destruct Hd as (Hda & Hds & Hdb).
  rewrite set_func_spec by done. pose proof Hn as (Hnt & Hne & Hnc). pose proof Hs as (Hsv & _).
  destruct (var_set_means stale v m n s Hv Hnt Hsv Hne Hroom) as (v' & E & Hv').
  exists v'. split; [done|]. split; [done|].
  set (env := fun x => if decide (x = n) then Some [Lit s] else None).
  assert (Hnp : ch ")" ∉ n).
  { intros Hin. eapply Forall_forall in Hnc; [|exact Hin]. by apply name_char_inv in Hnc as (_ & _ & [] & _). }
  assert (Et : a ++ (bstr "$(" ++ n ++ bstr ")") ++ b = flatten [Lit a; Ref n; Lit b]).
  { unfold flatten. cbn. by rewrite app_nil_r. }
  assert (Eenv : forall x qs, env x = Some qs -> x = n /\ qs = [Lit s]).
  { intros x qs. unfold env. destruct (decide (x = n)) as [->|]; [|done]. by intros [= <-]. }
  rewrite Et. apply (var_sprint_full v' env).
  - intros x qs Hx [-> ->]%Eenv. rewrite (var_get_means v' _ n Hv') by done. rewrite lookup_insert_eq.
    do 2 f_equal. symmetry. apply app_nil_r.
  - intros x qs [-> ->]%Eenv. apply Forall_singleton. by split.
  - apply full_lit. eapply full_ref; [unfold env; by rewrite decide_True| |].
    + apply full_one.
    + apply full_one.
  - repeat constructor; done.
  - done.
  - assert (Esub : subst env [Lit a; Ref n; Lit b] = [Lit a; Lit s; Lit b]).
    { unfold subst. cbn. unfold env. by rewrite decide_True. }
    intros [|j] _.
    + change (pass env 0 ?x) with x. unfold flatten. cbn [fmap list_fmap mjoin list_join part_text].
      repeat (rewrite length_app || cbn [length app]). lia.
    + rewrite pass_S, Esub.
      assert (Eid : pass env j [Lit a; Lit s; Lit b] = [Lit a; Lit s; Lit b]).
      { clear. induction j as [|j IH]; [done|]. rewrite pass_S. exact IH. }
      rewrite Eid. unfold flatten. cbn [fmap list_fmap mjoin list_join part_text].
      repeat (rewrite length_app || cbn [length app]). lia.
Qed.

(** ** Examples *)

Definition empty_vars : var_state :=
  {| store := replicate 1024 0; actpos := 0; variable_list := replicate VARIABLES_MAX (None, None) |}.
Definition stale0 : list Z := replicate 1000 0.

Lemma empty_readable : readable empty_vars (replicate VARIABLES_MAX None).
Proof. split; [vm_compute; done|vm_compute; done|by apply Forall2_replicate]. Qed.

Lemma empty_means : means empty_vars ∅.
Proof.
  exists (replicate VARIABLES_MAX None). split.
  - split; [apply empty_readable|]. intros i j b b' x y Hx. unfold slot in Hx. cbn [empty_vars variable_list] in Hx.
    destruct (replicate VARIABLES_MAX (None, None) !! i) as [e|] eqn:E; [|done].
    apply lookup_replicate in E as [-> _]. done.
  - intros n. rewrite lookup_empty. unfold value_of. by destruct (decide (n = [])).
Qed.

Lemma demo_name : good_name (bstr "DRIVE").
Proof. split_and!; [by apply text_check|done|]. by repeat constructor. Qed.

Lemma demo_value : good_value (bstr "hd0").
Proof.
  split_and!; [by apply text_check| |by vm_compute|by vm_compute].
  intros H. by apply list_elem_of_In in H; repeat (destruct H as [H|H]; [by vm_compute in H|]).
Qed.

Lemma demo_room : has_room empty_vars ∅ (bstr "DRIVE") (bstr "hd0").
Proof. unfold has_room. rewrite lookup_empty. by vm_compute. Qed.

Lemma var_set_get_witness : exists v', var_set stale0 empty_vars (bstr "DRIVE") (bstr "hd0") false = Ret (0, v') /\
  var_get v' (bstr "DRIVE") = Ret (Some (bstr "hd0")).
Proof.
  destruct (var_set_get stale0 empty_vars ∅ (bstr "DRIVE") (bstr "hd0") (bstr "DRIVE") empty_means)
    as (v' & E & _ & Eg); [by apply text_check..|done|exact demo_room|].
  exists v'. split; [exact E|]. rewrite Eg. by rewrite lookup_insert_eq.
Defined.

(** Values may refer to other variables. *)
Definition demo_env (n : list Z) : option (list part) :=
  if decide (n = bstr "ROOT") then Some [Lit (bstr "("); Ref (bstr "DRIVE"); Lit (bstr ",0)")]
  else if decide (n = bstr "DRIVE") then Some [Lit (bstr "hd0")] else None.
Definition demo_vars : C (Z * var_state) :=
  '(_, v) ← var_set stale0 empty_vars (bstr "DRIVE") (bstr "hd0") false;
  var_set stale0 v (bstr "ROOT") (bstr "($(DRIVE),0)") false.

Lemma demo_values : exists v, demo_vars = Ret (0, v) /\
  means v (<[bstr "ROOT" := bstr "($(DRIVE),0)"]> (<[bstr "DRIVE" := bstr "hd0"]> ∅)).
Proof.
  unfold demo_vars.
  destruct (var_set_means stale0 empty_vars ∅ (bstr "DRIVE") (bstr "hd0") empty_means) as (v1 & E1 & M1);
    [by apply text_check..|done|exact demo_room|].
  rewrite E1. cbn [mbind C_bind]. vm_compute in E1. injection E1 as <-.
  apply (var_set_means stale0 _ _ (bstr "ROOT") _ M1); [by apply text_check..|done|].
  unfold has_room. rewrite lookup_insert_ne, lookup_empty by done. by vm_compute.
Qed.

Definition good_partb (p : part) : bool :=
  match p with
  | Lit w => forallb (fun c => (0 <? c) && (c <? 256) && negb (c =? ch "$")) w
  | Ref n => forallb (fun c => (0 <? c) && (c <? 256) && negb (c =? ch ")")) n
  end.

Lemma good_parts_check ps : forallb good_partb ps = true -> Forall good_part ps.
Proof.
  assert (H : forall d w, forallb (fun c => (0 <? c) && (c <? 256) && negb (c =? d)) w = true ->
    text w /\ (d ∉ w)).
  { intros d w Hw. rewrite forallb_forall in Hw. split.
    - apply Forall_forall. intros c Hc%list_elem_of_In%Hw. blia.
    - intros Hc%list_elem_of_In%Hw. blia. }
  rewrite forallb_forall. intros Hps. apply Forall_forall. intros [w|n] Hp%list_elem_of_In%Hps; by apply H.
Qed.

Lemma references_replaced_witness : exists v, demo_vars = Ret (0, v) /\
  var_sprint 1024 stale0 v (bstr "kernel $(ROOT)/os2krnl") = Ret (bstr "kernel (hd0,0)/os2krnl").
Proof.
  destruct demo_values as (v & E & M). exists v. split; [exact E|].
  apply (references_replaced v _ demo_env [Lit (bstr "kernel "); Ref (bstr "ROOT"); Lit (bstr "/os2krnl")]
    (bstr "kernel (hd0,0)/os2krnl") 1024 stale0 M).
  - intros n qs. unfold demo_env. destruct (decide (n = bstr "ROOT")) as [->|].
    + intros [= <-]. split; [by rewrite lookup_insert_eq|]. by apply good_parts_check.
    + destruct (decide (n = bstr "DRIVE")) as [->|]; [|done]. intros [= <-]. split; [by vm_compute|].
      by apply good_parts_check.
  - change (bstr "kernel (hd0,0)/os2krnl")
      with (bstr "kernel " ++ (bstr "(" ++ bstr "hd0" ++ bstr ",0)" ++ []) ++ bstr "/os2krnl" ++ []).
    apply full_lit. eapply full_ref; [reflexivity| |apply full_lit, full_nil].
    apply full_lit. eapply full_ref; [reflexivity|apply full_one|apply full_lit, full_nil].
  - by apply good_parts_check.
  - reflexivity.
  - intros j Hj. do 11 (destruct j as [|j]; [by vm_compute|]). lia.
Defined.

Lemma set_then_expand_witness : exists v',
  set_func stale0 empty_vars (bstr "DRIVE=hd0") = Ret (0, v') /\
  var_sprint 1024 stale0 v' (bstr "root ($(DRIVE),0)") = Ret (bstr "root (hd0,0)").
Proof.
  destruct (set_then_expand stale0 1024 empty_vars ∅ (bstr "DRIVE") (bstr "hd0") (bstr "root (") (bstr ",0)")
    empty_means demo_name demo_value demo_room) as (v' & E & _ & Ex);
    [by apply text_check|by apply text_check| |reflexivity|by vm_compute|].
  - intros H. apply list_elem_of_In in H. vm_compute in H.
    repeat (destruct H as [H|H]; [discriminate H|]). exact H.
  - exists v'. split; [exact E|exact Ex].
Defined.

(** Behind a reference to an unknown variable at the end of the text the code reads
    past the end: what the buffer held before appears. *)
Example unknown_at_end :
  var_sprint_once 1001 empty_vars (bstr "a$(NO)" ++ 0 :: bstr "old" ++ [0]) = Ret (bstr "a" ++ 0 :: bstr "old") /\
  var_sprint 1024 stale0 empty_vars (bstr "a$(NO)") = Ret (bstr "a") /\
  var_sprint_once 1001 empty_vars (bstr "a$(NO)$(NO)b" ++ [0]) = Ret (bstr "a$(NO)b").
Proof. by vm_compute. Qed.

(** A text of exactly 1000 bytes overflows the local buffer by its end. *)
Example full_buffer : var_sprint 2000 stale0 empty_vars (replicate 1000 97) = Undef.
Proof. vm_compute. reflexivity. Qed.

(** A variable that refers to itself is replaced ten times. *)
Example endless_reference :
  ('(_, v) ← var_set stale0 empty_vars (bstr "A") (bstr "x$(A)") false; var_sprint 1024 stale0 v (bstr "$(A)")) =
  Ret (bstr "xxxxxxxxxx$(A)").
Proof. vm_compute. reflexivity. Qed.

(** The longest value that fits, and one that does not. *)
Example store_full :
  (fst <$> var_set stale0 empty_vars (bstr "A") (replicate 1021 97) false) = Ret 0 /\
  (fst <$> var_set stale0 empty_vars (bstr "A") (replicate 1022 97) false) = Ret 1.
Proof. by vm_compute. Qed.

Lemma value_lost_witness : exists v',
  var_set stale0 empty_vars (bstr "AB") (replicate 1022 97) false = Ret (1, v') /\
  var_get v' (bstr "AB") = Ret None /\ var_set stale0 v' (bstr "AB") (bstr "x") false = Undef.
Proof.
  apply (value_lost stale0 empty_vars ∅ (bstr "AB") (replicate 1022 97) (bstr "x") empty_means);
    [by apply text_check|by apply text_check|done|done|reflexivity|by vm_compute|by vm_compute|by vm_compute].
Defined.
