(* ===== verification/BootToggle.v ===== *)
(** * Toggles of the boot loader ([bootseq/loader/loader/commands.c])

    A toggle is a key with blocks of values for variables; each press of the key
    gives the variables the values of the next block.  The values are strings in
    the store of the variables, and a variable points to the value of the block. *)
From S2P Require Import Prelude BootLib BootVar.

Definition TOGGLES : nat := 24.
Definition MAX_BLOCKS : nat := 24.
Definition MAX_VAR_PER_BLOCK : nat := 5.

(** The place in the list of variables and the value: an offset in the store. *)
Record block_var := { bv_var : Z; bv_value : option Z }.
Record block := { nr_vars : Z; vars : list block_var }.
Record toggle := { key : Z; current_block : Z; nr_blocks : Z; blocks : list block }.

Inductive command := COMMAND_INITIAL | COMMAND_NONE | COMMAND_SET | COMMAND_SELECT | COMMAND_TRIGGER.
#[export] Instance command_eq_dec : EqDecision command.
Proof. solve_decision. Defined.

Record toggle_state := {
  variables : var_state;
  toggle_data : list toggle;
  toggles_used : Z;
  slot_no : Z;
  prev_cmd : command;
  last_key_pressed : Z;
  triggers_only : bool
}.

Definition with_vars (t : toggle_state) (v : var_state) : toggle_state :=
  {| variables := v; toggle_data := toggle_data t; toggles_used := toggles_used t; slot_no := slot_no t;
     prev_cmd := prev_cmd t; last_key_pressed := last_key_pressed t; triggers_only := triggers_only t |}.
Definition with_data (t : toggle_state) (d : list toggle) : toggle_state :=
  {| variables := variables t; toggle_data := d; toggles_used := toggles_used t; slot_no := slot_no t;
     prev_cmd := prev_cmd t; last_key_pressed := last_key_pressed t; triggers_only := triggers_only t |}.
Definition with_slot (t : toggle_state) (used slot : Z) : toggle_state :=
  {| variables := variables t; toggle_data := toggle_data t; toggles_used := used; slot_no := slot;
     prev_cmd := prev_cmd t; last_key_pressed := last_key_pressed t; triggers_only := triggers_only t |}.
Definition with_cmd (t : toggle_state) (c : command) : toggle_state :=
  {| variables := variables t; toggle_data := toggle_data t; toggles_used := toggles_used t;
     slot_no := slot_no t; prev_cmd := c; last_key_pressed := last_key_pressed t;
     triggers_only := triggers_only t |}.

(** Elements of the arrays, within their bounds. *)
Definition at_index {A} (l : list A) (i : Z) : C A := if 0 <=? i then need (l !! Z.to_nat i) else Undef.
Definition set_index {A} (l : list A) (i : Z) (x : A) : list A := <[Z.to_nat i := x]> l.

Definition set_toggle (t : toggle_state) (s : Z) (g : toggle) : toggle_state :=
  with_data t (set_index (toggle_data t) s g).
Definition set_block (g : toggle) (i : Z) (b : block) : toggle :=
  {| key := key g; current_block := current_block g; nr_blocks := nr_blocks g;
     blocks := set_index (blocks g) i b |}.
Definition set_current (g : toggle) (b : Z) : toggle :=
  {| key := key g; current_block := b; nr_blocks := nr_blocks g; blocks := blocks g |}.

(** What [memset] leaves in a slot. *)
Definition empty_block : block :=
  {| nr_vars := 0; vars := replicate MAX_VAR_PER_BLOCK {| bv_var := 0; bv_value := None |} |}.
Definition empty_toggle : toggle :=
  {| key := 0; current_block := 0; nr_blocks := 0; blocks := replicate MAX_BLOCKS empty_block |}.

(** ** Keys *)

Fixpoint find_key (l : list toggle) (k i : Z) : Z :=
  match l with [] => -1 | g :: l => if key g =? k then i else find_key l k (i + 1) end.
(** All slots are searched here, the unused ones also. *)
Definition get_toggle_slot_for_key (t : toggle_state) (k : Z) : Z := find_key (toggle_data t) k 0.
Definition toggle_find_slot (t : toggle_state) (k : Z) : Z :=
  find_key (take (Z.to_nat (toggles_used t)) (toggle_data t)) k 0.

(** The first [n] variables of a block get their values. *)
Fixpoint do_vars (n : nat) (l : list block_var) (v : var_state) : C var_state :=
  match n with
  | O => Ret v
  | S n =>
      match l with
      | [] => Undef
      | x :: l =>
          e ← entry_at v (bv_var x);
          (* a null value is no place in the store *)
          '(_, v) ← match bv_value x with
                    | Some q => p ← need e.1; name ← str_at (store v) p; var_set_no_copy v name q
                    | None => Ret (1, v)
                    end;
          do_vars n l v
      end
  end.

Definition toggle_do_block (t : toggle_state) (slot block_nr : Z) : C (bool * toggle_state) :=
  if toggles_used t <=? slot then Ret (false, t)
  else
    g ← at_index (toggle_data t) slot;
    if nr_blocks g <=? block_nr then Ret (false, t)
    else
      b ← at_index (blocks g) block_nr;
      v ← do_vars (Z.to_nat (nr_vars b)) (vars b) (variables t);
      Ret (true, with_vars t v).

Definition toggle_do_key (t : toggle_state) (k : Z) : C (bool * toggle_state) :=
  let slot := toggle_find_slot t k in
  if slot =? -1 then Ret (false, t)
  else
    g ← at_index (toggle_data t) slot;
    let c := if current_block g + 1 =? nr_blocks g then 0 else current_block g + 1 in
    let t := set_toggle t slot (set_current g c) in
    '(_, t) ← toggle_do_block t slot c;
    Ret (true, t).

(** ** The definition of a toggle

    [seg] is the text of one variable, [stop] the character after it: a comma or
    the closing brace. *)

(** The name ends in front of the last character of the text at the latest. *)
Fixpoint scan_name (r : list Z) : list Z * list Z :=
  match r with
  | c :: r' =>
      if (2 <? Z.of_nat (length r)) && negb (c =? ch "=") && negb (grub_isspace c)
      then let '(n, s) := scan_name r' in (c :: n, s)
      else ([], r)
  | [] => ([], [])
  end.

(** [false] is a bad argument. *)
Definition process_var (t : toggle_state) (bl var : Z) (seg : list Z) (stop : Z) : C (bool * toggle_state) :=
  let '(name, p) := scan_name (skip_ws (seg ++ [stop])) in
  let p := skip_ws p in
  if negb (cur p =? ch "=") then Ret (false, t)
  else
    let value := removelast (skip_ws (tail p)) in
    g ← at_index (toggle_data t) (slot_no t);
    b ← at_index (blocks g) bl;
    x ← at_index (vars b) var;
    let finish (t : toggle_state) (x : block_var) : C (bool * toggle_state) :=
      let n := if nr_vars b <=? var then var + 1 else nr_vars b in
      Ret (true, set_toggle t (slot_no t)
                   (set_block g bl {| nr_vars := n; vars := set_index (vars b) var x |})) in
    i ← var_get_index (variables t) name;
    same ← match bv_value x with
           | Some q => old ← str_at (store (variables t)) q; Ret (negb (i =? -1) && (grub_strcmp old value =? 0))
           | None => Ret false
           end;
    if same : bool then finish t x
    else
      '(a, v) ← new_string (variables t) value;
      match a with
      | None => Ret (false, with_vars t v)
      | Some a =>
          '(_, v) ← var_set_no_copy v name a;
          i ← var_get_index v name;
          if i =? -1 then
            Ret (false, set_toggle (with_vars t v) (slot_no t)
                   (set_block g bl {| nr_vars := nr_vars b;
                                      vars := set_index (vars b) var {| bv_var := i; bv_value := bv_value x |} |}))
          else finish (with_vars t v) {| bv_var := i; bv_value := Some a |}
      end.

Inductive outcome := Done | BadArg | WontFit.

(** The loop over the characters of a block: [seg] is the part since the last
    comma.  A comma at the end of the block belongs to the value before it. *)
Fixpoint process_block (t : toggle_state) (bl var : Z) (seg rest : list Z) : C (outcome * toggle_state) :=
  match rest with
  | [] => Ret (Done, t)
  | c :: rest' =>
      let at_end := match rest' with [] => true | _ => false end in
      if (c =? ch ",") || at_end then
        if var =? Z.of_nat MAX_VAR_PER_BLOCK then Ret (WontFit, t)
        else
          '(ok, t) ← (if at_end then process_var t bl var (seg ++ [c]) (ch "}")
                      else process_var t bl var seg (ch ","));
          if negb ok then Ret (BadArg, t) else process_block t bl (var + 1) [] rest'
      else process_block t bl var (seg ++ [c]) rest'
  end.

(** The text up to the closing brace. *)
Fixpoint scan_brace (s : list Z) : option (list Z * list Z) :=
  match s with
  | [] => None
  | c :: s' =>
      if c =? ch "}" then Some ([], s')
      else match scan_brace s' with Some (b, r) => Some (c :: b, r) | None => None end
  end.

(** The blocks one after the other; [n] is the number of blocks at the end. *)
Fixpoint set_blocks (fuel : nat) (t : toggle_state) (block_nr : Z) (a : list Z)
    : C (outcome * Z * toggle_state) :=
  match fuel with
  | O => NoFuel
  | S fuel =>
      let a := skip_ws a in
      if cur a =? 0 then Ret (Done, block_nr, t)
      else if negb (cur a =? ch "{") then Ret (BadArg, block_nr, t)
      else
        match scan_brace (tail a) with
        | None => Ret (BadArg, block_nr, t)
        | Some (text, a) =>
            '(r, t) ← process_block t block_nr 0 [] text;
            match r with
            | Done =>
                let block_nr := block_nr + 1 in
                if negb (cur a =? 0) && (block_nr =? Z.of_nat MAX_BLOCKS) then Ret (WontFit, block_nr, t)
                else if cur a =? 0 then Ret (Done, block_nr, t) else set_blocks fuel t block_nr a
            | r => Ret (r, block_nr, t)
            end
        end
  end.


(** ** The command [toggle] *)

(** The word up to a white-space character; without one the code runs over the end
    of the text. *)
Fixpoint scan_word (s : list Z) : C (list Z * list Z) :=
  match s with
  | [] => Undef
  | c :: s' => if grub_isspace c then Ret ([], s) else '(w, r) ← scan_word s'; Ret (c :: w, r)
  end.

Definition reset_blocks (bs : list block) : list block :=
  ((fun b => {| nr_vars := 0; vars := vars b |}) <$> take MAX_VAR_PER_BLOCK bs) ++ drop MAX_VAR_PER_BLOCK bs.

Definition toggle_set (t : toggle_state) (a : list Z) : C (Z * toggle_state) :=
  if (cur a =? 0) || (cur (tail a) =? 0) then Ret (1, t)
  else
    let k := cur a in
    let s := get_toggle_slot_for_key t k in
    let '(s, t, fits) :=
      if s =? -1 then
        let s := toggles_used t in
        if s =? Z.of_nat TOGGLES then (s, with_slot t (toggles_used t) s, false)
        else (s, with_slot t (toggles_used t + 1) s, true)
      else (s, with_slot t (toggles_used t) s, true) in
    if negb fits then Ret (1, t)
    else
      g ← at_index (toggle_data t) s;
      let t := set_toggle t s {| key := k; current_block := 0; nr_blocks := 0; blocks := reset_blocks (blocks g) |} in
      '(r, n, t) ← set_blocks (length a + 1) t 0 (tail a);
      match r with
      | Done =>
          g ← at_index (toggle_data t) s;
          let t := set_toggle t s {| key := key g; current_block := current_block g; nr_blocks := n;
                                     blocks := blocks g |} in
          '(_, t) ← toggle_do_block t s 0;
          Ret (0, with_cmd t COMMAND_NONE)
      | _ => Ret (1, t)
      end.

Fixpoint toggle_select (fuel : nat) (t : toggle_state) (a : list Z) : C (Z * toggle_state) :=
  match fuel with
  | O => NoFuel
  | S fuel =>
      if cur a =? 0 then Ret (0, with_cmd t COMMAND_NONE)
      else
        let k := cur a in let a := tail a in
        if (k =? last_key_pressed t) || (negb (bool_decide (prev_cmd t = COMMAND_TRIGGER)) && triggers_only t)
        then Ret (0, t)
        else if negb (cur a =? ch "=") then Ret (1, t)
        else
          match safe_parse_maxint (tail a) with
          | None => Ret (1, t)
          | Some (a, b) =>
              let s := toggle_find_slot t k in
              if s =? -1 then Ret (1, t)
              else
                '(ok, t) ← toggle_do_block t s b;
                if negb ok then Ret (1, t)
                else
                  g ← at_index (toggle_data t) s;
                  toggle_select fuel (set_toggle t s (set_current g b)) (skip_ws a)
          end
  end.

Fixpoint toggle_func (fuel : nat) (t : toggle_state) (arg : list Z) : C (Z * toggle_state) :=
  match fuel with
  | O => NoFuel
  | S fuel =>
      let '(_, a) := scan_until (fun c => negb (c =? 32)) arg in
      '(word, a) ← scan_word a;
      let a := skip_ws (tail a) in
      if grub_strcmp word (bstr "set") =? 0 then toggle_set t a
      else if grub_strcmp word (bstr "select") =? 0 then toggle_select (length a + 1) t a
      else if grub_strcmp word (bstr "trigger") =? 0 then
        let '(vr, r) := scan_until (fun c => (c =? 32) || (c =? ch "=")) a in
        if negb (cur r =? ch "=") || negb (cur (tail r) =? ch "=") || bool_decide (vr = []) then Ret (1, t)
        else
          '(vl, r) ← scan_word (tail (tail r));
          if bool_decide (vl = []) then Ret (1, t)
          else
            vrval ← var_get (variables t) vr;
            match vrval with
            | None => Ret (1, t)
            | Some vrval =>
                let a := skip_ws r in
                let t := with_cmd t COMMAND_TRIGGER in
                t ← (if grub_strcmp vrval vl =? 0 then snd <$> toggle_func fuel t a else Ret t);
                Ret (0, with_cmd t COMMAND_NONE)
            end
      else Ret (1, t)
  end.


(** ** What a toggle means *)

Abbreviation binding := (list Z * list Z)%type.

Definition assign (m : gmap (list Z) (list Z)) (bs : list binding) : gmap (list Z) (list Z) :=
  foldl (fun m b => <[b.1 := b.2]> m) m bs.

(** The values of the variables, where they may share their places in the store. *)
Definition reads (v : var_state) (l : names) (m : gmap (list Z) (list Z)) : Prop :=
  readable v l /\ forall n, m !! n = value_of l n.

Definition name_list (l : names) : list (option (list Z)) := option_map fst <$> l.

Lemma find_name_list l l' n : name_list l = name_list l' -> forall i, find l n i = find l' n i.
Proof.
  revert l'. induction l as [|o l IH]; intros [|o' l'] H i; try done. cbn in H. injection H as Ho Hl.
  cbn [find]. destruct o as [[m s]|], o' as [[m' s']|]; try done; cbn in Ho.
  - injection Ho as ->. destruct (decide (m' = n)); [done|by apply IH].
  - by apply IH.
Qed.

(** The variable of a block is [b.1] and its value the string [b.2]. *)
Definition var_is (v : var_state) (l : names) (x : block_var) (b : binding) : Prop :=
  text b.1 /\ b.1 <> [] /\ bv_var x = find l b.1 0 /\ bv_var x <> -1 /\
  exists q, bv_value x = Some q /\ stored v q b.2.

Record block_is (v : var_state) (l : names) (b : block) (bs : list binding) : Prop := {
  bi_count : nr_vars b = Z.of_nat (length bs);
  bi_vars : Forall2 (var_is v l) (take (length bs) (vars b)) bs
}.

(** What only adds strings and variables. *)
Record adds (v : var_state) (l : names) (v' : var_state) (l' : names) : Prop := {
  gr_stored p s : stored v p s -> stored v' p s;
  gr_find n : find l n 0 <> -1 -> find l' n 0 = find l n 0
}.

Lemma adds_refl v l : adds v l v l.
Proof. by split. Qed.
Lemma adds_trans v l v' l' v'' l'' : adds v l v' l' -> adds v' l' v'' l'' -> adds v l v'' l''.
Proof.
  intros [A1 A2] [B1 B2]. split; [auto|]. intros n Hn. rewrite B2; [by apply A2|]. by rewrite A2.
Qed.
Lemma var_adds v l v' l' x b : adds v l v' l' -> var_is v l x b -> var_is v' l' x b.
Proof.
  intros [G1 G2] (Hn & Hne & Hx & Hx1 & q & Hq & Hs). split_and!; [done|done| |done|].
  - rewrite G2; [done|]. by rewrite <- Hx.
  - exists q. split; [done|]. by apply G1.
Qed.
#[local] Hint Resolve adds_refl adds_trans var_adds : core.

Lemma block_adds v l v' l' b bs : adds v l v' l' -> block_is v l b bs -> block_is v' l' b bs.
Proof. intros G [H1 H2]. split; [done|]. eapply Forall2_impl; [exact H2|]. eauto. Qed.

(** *** Pointing a variable to a value *)

Lemma stored_inside v l q s : readable v l -> stored v q s -> 0 <= q < VARIABLE_STORE_SIZE.
Proof. intros [H1 H2 _] [Hq Hl]. pose proof (string_at_inside _ _ _ Hq). destruct Hq as (_ & ? & _). lia. Qed.

Lemma find_index l n : find l n 0 <> -1 -> exists k s, find l n 0 = Z.of_nat k /\ l !! k = Some (Some (n, s)).
Proof. intros Hf. destruct (find_spec l n 0) as [(E & _)|(k & s & E & Hk & _)]; [lia|done|]. exists k, s. by rewrite E. Qed.

Lemma find_insert_old l k n s : l !! k = Some (Some (n, s)) -> forall s' m, find (<[k := Some (n, s')]> l) m 0 = find l m 0.
Proof.
  intros Hk s' m. apply find_name_list. unfold name_list. rewrite list_fmap_insert. apply list_insert_id.
  by rewrite list_lookup_fmap, Hk.
Qed.

(** [points v v' l l']: the variables are [l'] in the same store. *)
Lemma set_no_copy_old v l m n q s : reads v l m -> text n -> n <> [] -> find l n 0 <> -1 -> stored v q s ->
  exists v' l', var_set_no_copy v n q = Ret (0, v') /\ reads v' l' (<[n := s]> m) /\ adds v l v' l' /\
    actpos v' = actpos v /\ name_list l' = name_list l.
Proof.
  intros [Hr Hm] Hn Hne Hf Hq. destruct (find_index l n Hf) as (k & old & Ef & Hk).
  destruct (entry_at_spec v l k n old Hr Hk) as (p & q0 & Ek & Ee & Hp & _ & Hp' & _).
  pose proof (stored_inside _ _ _ _ Hr Hq) as Hin.
  assert (Hlen : (k < length (variable_list v))%nat) by (by eapply lookup_lt_Some).
  exists (set_entry v (Z.of_nat k) (Some p, Some q)), (<[k := Some (n, s)]> l). split_and!.
  - unfold var_set_no_copy. destruct (Z.ltb_spec q 0), (Z.leb_spec VARIABLE_STORE_SIZE q); try lia. cbn [orb].
    rewrite (var_get_index_spec v l) by done. rewrite decide_False by done. cbn [mbind C_bind]. rewrite Ef in *.
    destruct (Z.eqb_spec (Z.of_nat k) (-1)); [done|]. rewrite Z.add_0_l in Ee. by rewrite Ee.
  - destruct Hr as [H1 H2 H3]. split; [split; [done|done|]|].
    + cbn [set_entry variable_list store actpos]. rewrite Nat2Z.id. apply Forall2_insert; [done|].
      exists p, q. split_and!; [done..| |]; apply Hq.
    + intros x. unfold value_of. rewrite (assoc_insert _ _ _ _ (Some (n, old))); [|done|by right; exists old|].
      * rewrite lookup_insert, Hm. unfold value_of. destruct (decide (n = x)) as [->|Hx].
        { by rewrite decide_False, decide_True. }
        by rewrite (decide_False (P := x = n)).
      * apply (find_first l n 0 k); lia.
  - split; [done|]. intros x _. by eapply find_insert_old.
  - done.
  - unfold name_list. rewrite list_fmap_insert. apply list_insert_id. by rewrite list_lookup_fmap, Hk.
Qed.

(** *** Pressing the key *)

Lemma do_vars_spec xs : forall bs n v l m, reads v l m -> Forall2 (var_is v l) (take n xs) bs ->
  length bs = n -> exists v' l',
  do_vars n xs v = Ret v' /\ reads v' l' (assign m bs) /\ adds v l v' l'.
Proof.
  induction xs as [|x xs IH]; intros [|[n0 s] bs] n v l m Hr H Hn; subst n; cbn [length take] in *;
    try by exists v, l; auto.
  - by inversion H.
  - apply Forall2_cons in H as [Hx H]. pose proof Hx as (Hnt & Hne & Ex & Hx1 & q & Eq & Hq). cbn in *.
    destruct (set_no_copy_old v l m n0 q s Hr Hnt Hne ltac:(congruence) Hq) as (v1 & l1 & E1 & Hr1 & G1 & _).
    destruct (find_index l n0 ltac:(congruence)) as (k & old & Ek & Hk). destruct Hr as [Hr Hm].
    destruct (entry_at_spec v l k n0 old Hr Hk) as (p & q0 & _ & Ee & Hp & _). rewrite Z.add_0_l in Ee.
    cbn [do_vars]. rewrite Ex, Ek, Ee. cbn [mbind C_bind fst need]. rewrite Eq, (string_at_read _ _ _ Hp).
    cbn [mbind C_bind]. rewrite E1. cbn [mbind C_bind].
    destruct (IH bs (length bs) v1 l1 _ Hr1) as (v2 & l2 & E2 & Hr2 & G2); [|done|].
    { eapply Forall2_impl; [exact H|]. eauto. }
    exists v2, l2. split; [done|]. split; [done|]. eauto.
Qed.

(** The toggle [g] has the blocks [bss], and the place of the current one is [c]. *)
Record toggle_is (v : var_state) (l : names) (g : toggle) (k : Z) (bss : list (list binding)) (c : nat) : Prop := {
  ti_key : key g = k;
  ti_count : nr_blocks g = Z.of_nat (length bss);
  ti_current : current_block g = Z.of_nat c /\ (c < length bss)%nat;
  ti_blocks : Forall2 (block_is v l) (take (length bss) (blocks g)) bss
}.

Lemma toggle_adds v l v' l' g k bss c : adds v l v' l' -> toggle_is v l g k bss c -> toggle_is v' l' g k bss c.
Proof. intros G [H1 H2 H3 H4]. split; [done..|]. eapply Forall2_impl; [exact H4|]. intros b bs. by apply block_adds. Qed.

(** The slot [s] has the toggle, its key finds it, and the variables are [m]. *)
Record toggling (t : toggle_state) (s : nat) (k : Z) (bss : list (list binding)) (c : nat)
    (m : gmap (list Z) (list Z)) : Prop := {
  tg_found : toggle_find_slot t k = Z.of_nat s;
  tg_used : Z.of_nat s < toggles_used t;
  tg_is : exists g l, toggle_data t !! s = Some g /\ reads (variables t) l m /\ toggle_is (variables t) l g k bss c
}.

Lemma at_index_ok {A} (l : list A) (i : nat) x : l !! i = Some x -> at_index l (Z.of_nat i) = Ret x.
Proof. intros H. unfold at_index. destruct (Z.leb_spec 0 (Z.of_nat i)); [|lia]. by rewrite Nat2Z.id, H. Qed.

Lemma do_block_spec t s k bss c m i bs g l : Z.of_nat s < toggles_used t -> toggle_data t !! s = Some g ->
  reads (variables t) l m -> toggle_is (variables t) l g k bss c -> bss !! i = Some bs -> exists v' l',
  toggle_do_block t (Z.of_nat s) (Z.of_nat i) = Ret (true, with_vars t v') /\
  reads v' l' (assign m bs) /\ adds (variables t) l v' l'.
Proof.
  intros Hs Hg Hr [_ Hn _ Hb] Hi. unfold toggle_do_block.
  pose proof (lookup_lt_Some _ _ _ Hi) as Hlt.
  destruct (Z.leb_spec (toggles_used t) (Z.of_nat s)); [lia|]. rewrite (at_index_ok _ _ _ Hg). cbn [mbind C_bind].
  rewrite Hn. destruct (Z.leb_spec (Z.of_nat (length bss)) (Z.of_nat i)); [lia|].
  destruct (Forall2_lookup_r _ _ _ _ _ Hb Hi) as (b & Eb & Hcount & Hvars).
  rewrite lookup_take_lt in Eb by done. rewrite (at_index_ok _ _ _ Eb). cbn [mbind C_bind].
  rewrite Hcount, Nat2Z.id.
  destruct (do_vars_spec (vars b) bs (length bs) _ l m Hr Hvars eq_refl) as (v' & l' & E & Hr' & G).
  exists v', l'. by rewrite E.
Qed.

Definition next_block (n c : nat) : nat := if decide (S c = n) then 0%nat else S c.

Lemma find_key_insert l k : forall i s g, l !! s = Some g -> forall g', key g' = key g ->
  find_key (<[s := g']> l) k i = find_key l k i.
Proof.
  induction l as [|g0 l IH]; intros i [|s] g Hs g' Hk; try done.
  - injection Hs as <-. cbn. by rewrite Hk.
  - change (<[S s := g']> (g0 :: l)) with (g0 :: <[s := g']> l). cbn. by rewrite (IH _ _ g).
Qed.

Lemma find_slot_insert l n k s g g' : l !! s = Some g -> key g' = key g ->
  find_key (take n (<[s := g']> l)) k 0 = find_key (take n l) k 0.
Proof.
  intros Hs Hk. destruct (Nat.lt_ge_cases s n).
  - rewrite take_insert_lt by done. eapply find_key_insert; [|done]. by rewrite lookup_take_lt.
  - by rewrite take_insert_ge.
Qed.

Lemma do_key_spec t s k bss c m bs : toggling t s k bss c m -> bss !! next_block (length bss) c = Some bs ->
  exists t', toggle_do_key t k = Ret (true, t') /\ toggling t' s k bss (next_block (length bss) c) (assign m bs).
Proof.
  intros [Hf Hu (g & l & Hg & Hr & Ht)] Hbs. set (c' := next_block (length bss) c) in *.
  unfold toggle_do_key. rewrite Hf. destruct (Z.eqb_spec (Z.of_nat s) (-1)); [lia|].
  rewrite (at_index_ok _ _ _ Hg). cbn [mbind C_bind]. cbv zeta.
  replace (if current_block g + 1 =? nr_blocks g then 0 else current_block g + 1) with (Z.of_nat c'); last first.
  { destruct Ht as [_ -> [-> Hc] _]. unfold c', next_block. destruct (decide _), (Z.eqb_spec (Z.of_nat c + 1) (Z.of_nat (length bss))); lia. }
  set (g' := set_current g (Z.of_nat c')). set (t1 := set_toggle t (Z.of_nat s) g').
  assert (Hg' : toggle_data t1 !! s = Some g').
  { cbn. unfold set_index. rewrite Nat2Z.id. apply list_lookup_insert_eq. by eapply lookup_lt_Some. }
  assert (Ht' : toggle_is (variables t1) l g' k bss c').
  { destruct Ht as [H1 H2 H3 H4]. split; [done..| |done]. split; [done|]. by eapply lookup_lt_Some. }
  destruct (do_block_spec t1 s k bss c' m c' bs g' l Hu Hg' Hr Ht' Hbs) as (v' & l' & E & Hr' & G).
  rewrite E. cbn [mbind C_bind]. eexists. split; [done|]. split.
  - cbn. unfold toggle_find_slot. cbn. unfold set_index. rewrite Nat2Z.id. rewrite (find_slot_insert _ _ _ _ g) by done. exact Hf.
  - done.
  - exists g', l'. split; [done|]. split; [done|]. by eapply toggle_adds.
Qed.

(** The key [k] is pressed [n] times. *)
Fixpoint presses (n : nat) (k : Z) (t : toggle_state) : C toggle_state :=
  match n with O => Ret t | S n => '(_, t) ← toggle_do_key t k; presses n k t end.

(** The variables after [n] presses. *)
Fixpoint cycled (n : nat) (bss : list (list binding)) (c : nat) (m : gmap (list Z) (list Z)) : gmap (list Z) (list Z) :=
  match n with
  | O => m
  | S n => let c := next_block (length bss) c in cycled n bss c (assign m (default [] (bss !! c)))
  end.

Lemma next_block_lt n c : (c < n)%nat -> (next_block n c < n)%nat.
Proof. unfold next_block. destruct (decide _); lia. Qed.

Lemma next_block_iter n : forall j c, (c < n)%nat -> Nat.iter j (next_block n) c = ((c + j) mod n)%nat.
Proof.
  induction j as [|j IH]; intros c Hc; cbn [Nat.iter].
  - rewrite Nat.add_0_r. symmetry. by apply Nat.mod_small.
  - change (next_block n (Nat.iter j (next_block n) c) = ((c + S j) mod n)%nat).
    rewrite IH by done. unfold next_block. replace (c + S j)%nat with (c + j + 1)%nat by lia.
    rewrite <- (Nat.Div0.add_mod_idemp_l (c + j) 1). set (x := ((c + j) mod n)%nat).
    assert (x < n)%nat by (apply Nat.mod_upper_bound; lia).
    destruct (decide (S x = n)) as [E|E].
    + replace (x + 1)%nat with n by lia. by rewrite Nat.Div0.mod_same.
    + rewrite Nat.mod_small; lia.
Qed.

Lemma presses_spec k bss s : forall n t c m, toggling t s k bss c m -> exists t',
  presses n k t = Ret t' /\ toggling t' s k bss (Nat.iter n (next_block (length bss)) c) (cycled n bss c m).
Proof.
  induction n as [|n IH]; intros t c m Ht; [by exists t|].
  assert (Hc : (c < length bss)%nat) by (destruct Ht as [_ _ (g & l & _ & _ & [_ _ [_ ?] _])]; done).
  destruct (lookup_lt_is_Some_2 bss _ (next_block_lt _ _ Hc)) as [bs Hbs].
  destruct (do_key_spec t s k bss c m bs Ht Hbs) as (t1 & E & Ht1). cbn [presses]. rewrite E. cbn [mbind C_bind].
  cbn [cycled]. cbv zeta. rewrite Hbs. cbn [default]. rewrite Nat.iter_succ_r. by apply IH.
Qed.

(** *** New values *)

Fixpoint free_count (l : names) : nat :=
  match l with [] => 0 | None :: l => S (free_count l) | Some _ :: l => free_count l end.

Lemma free_count_insert l x : forall k, l !! k = Some None -> free_count l = S (free_count (<[k := Some x]> l)).
Proof.
  induction l as [|o l IH]; intros [|k] Hk; try done; [by injection Hk as ->|].
  change (<[S k := Some x]> (o :: l)) with (o :: <[k := Some x]> l). cbn [free_count].
  rewrite (IH k Hk). by destruct o.
Qed.

Lemma free_count_none l : free_count l <> 0%nat -> exists k, l !! k = Some None.
Proof.
  induction l as [|[x|] l IH]; cbn; intros H; [done| |by exists 0%nat].
  destruct (IH H) as [k Hk]. by exists (S k).
Qed.

Lemma free_count_names l l' : name_list l = name_list l' -> free_count l = free_count l'.
Proof.
  revert l'. induction l as [|o l IH]; intros [|o' l'] H; try done. injection H as Ho Hl. cbn.
  rewrite (IH _ Hl). by destruct o, o'.
Qed.

Lemma find_insert_new l k n s : l !! k = Some None -> forall m i, 0 <= i -> find l m i <> -1 ->
  m <> n -> find (<[k := Some (n, s)]> l) m i = find l m i.
Proof.
  revert k. induction l as [|o l IH]; intros [|k] Hk m i Hi Hf Hm; try done.
  - injection Hk as ->. change (<[0%nat := Some (n, s)]> (None :: l)) with (Some (n, s) :: l). cbn [find].
    by rewrite decide_False.
  - change (<[S k := Some (n, s)]> (o :: l)) with (o :: <[k := Some (n, s)]> l). cbn [find] in *.
    destruct o as [[m' s']|]; [destruct (decide (m' = m)); [done|]|]; apply IH; done || lia.
Qed.

Lemma set_no_copy_new v l m n q s : reads v l m -> text n -> n <> [] -> find l n 0 = -1 -> stored v q s ->
  bad_name n = false -> free_count l <> 0%nat -> actpos v + Z.of_nat (length n) < VARIABLE_STORE_SIZE ->
  exists v' l', var_set_no_copy v n q = Ret (0, v') /\ reads v' l' (<[n := s]> m) /\ adds v l v' l' /\
    actpos v' = actpos v + Z.of_nat (length n) + 1 /\ free_count l = S (free_count l').
Proof.
  intros [Hr Hm] Hn Hne Hf Hq Hbad Hfree Hroom. pose proof (stored_inside _ _ _ _ Hr Hq) as Hin.
  assert (Hno : forall j t, l !! j <> Some (Some (n, t))).
  { intros j t Hj. destruct (find_spec l n 0) as [(_ & _ & Hno)|(k & s0 & E & _)]; [lia| |lia].
    apply (Hno t). by eapply list_elem_of_lookup_2. }
  destruct (free_var_spec _ _ _ _ (rd_entries _ _ Hr) 0) as [[_ Hnone]|(k & Ek & Hk & Ee)]; [lia| |].
  { destruct (free_count_none l Hfree) as [k Hk]. by destruct (Hnone k). }
  assert (Hlen : Z.of_nat (length n) < 2 ^ 31) by (pose proof (rd_pos _ _ Hr); unfold VARIABLE_STORE_SIZE in *; lia).
  pose proof (new_string_read v l n Hr Hn Hlen) as Hnew.
  destruct (Z.ltb_spec (actpos v + Z.of_nat (length n)) VARIABLE_STORE_SIZE); [|lia].
  destruct Hnew as (v1 & E1 & Hr1 & Ha & [Hl1 Hk1] & Hp1).
  exists (set_entry v1 (Z.of_nat k) (Some (actpos v), Some q)), (<[k := Some (n, s)]> l).
  assert (Hkl : (k < length (variable_list v))%nat) by (by eapply lookup_lt_Some).
  assert (Hfind : forall x, find l x 0 <> -1 -> find (<[k := Some (n, s)]> l) x 0 = find l x 0).
  { intros x Hx. apply find_insert_new; [done|lia|done|]. by intros ->. }
  split_and!.
  - unfold var_set_no_copy. destruct (Z.ltb_spec q 0), (Z.leb_spec VARIABLE_STORE_SIZE q); try lia. cbn [orb].
    rewrite (var_get_index_spec v l) by done. rewrite decide_False by done. cbn [mbind C_bind]. rewrite Hf.
    change (-1 =? -1) with true. cbv iota. rewrite Hbad. cbv zeta. unfold var_get_free_var. rewrite Ek.
    destruct (Z.eqb_spec (0 + Z.of_nat k) (-1)); [lia|]. rewrite E1. cbn [mbind C_bind]. by rewrite Z.add_0_l.
  - destruct Hr1 as [H1 H2 H3]. rewrite Hl1 in H3. split; [split; [done|done|]|].
    + cbn [set_entry variable_list store actpos]. rewrite Nat2Z.id, Hl1. apply Forall2_insert; [done|].
      exists (actpos v), q. apply Hk1 in Hq. split_and!; [done| | | |]; apply Ha || apply Hq.
    + intros x. unfold value_of. rewrite (assoc_insert _ _ _ _ None); [|done|by left|by intros j t _; apply Hno].
      rewrite lookup_insert, Hm. unfold value_of. destruct (decide (n = x)) as [->|Hx].
      { by rewrite decide_False, decide_True. }
      by rewrite (decide_False (P := x = n)).
  - split; [exact Hk1|done].
  - done.
  - by apply free_count_insert.
Qed.

Definition good_binding (b : binding) : Prop :=
  text b.1 /\ b.1 <> [] /\ bad_name b.1 = false /\ text b.2.

(** What is left after a value: memory for it, its name and their ends, and one
    place in the list. *)
Definition cost (b : binding) : Z := Z.of_nat (length b.1) + Z.of_nat (length b.2) + 2.
Definition spends (v : var_state) (l : names) (v' : var_state) (l' : names) (n : Z) (k : nat) : Prop :=
  actpos v' <= actpos v + n /\ (free_count l <= free_count l' + k)%nat.

Lemma give_value v l m b : reads v l m -> good_binding b -> actpos v + cost b <= VARIABLE_STORE_SIZE ->
  free_count l <> 0%nat -> exists v1 v' l',
  new_string v b.2 = Ret (Some (actpos v), v1) /\ var_set_no_copy v1 b.1 (actpos v) = Ret (0, v') /\
  var_get_index v' b.1 = Ret (find l' b.1 0) /\ var_is v' l' {| bv_var := find l' b.1 0; bv_value := Some (actpos v) |} b /\
  reads v' l' (<[b.1 := b.2]> m) /\ adds v l v' l' /\ spends v l v' l' (cost b) 1.
Proof.
  destruct b as [n s]. unfold cost, spends. cbn [fst snd].
  intros [Hr Hm] (Hn & Hne & Hbad & Hs) Hroom Hfree. pose proof (rd_pos _ _ Hr) as Hp. cbn [fst snd] in *.
  pose proof (new_string_read v l s Hr Hs) as Hnew. unfold VARIABLE_STORE_SIZE in Hroom, Hp.
  specialize (Hnew ltac:(lia)). unfold VARIABLE_STORE_SIZE in Hnew.
  destruct (Z.ltb_spec (actpos v + Z.of_nat (length s)) 1024) as [_|?]; [|lia].
  destruct Hnew as (v1 & E1 & Hr1 & Ha & [Hl1 Hk1] & Hp1). assert (Hr1' : reads v1 l m) by done.
  assert (G1 : adds v l v1 l) by done.
  assert (Hset : exists v' l', var_set_no_copy v1 n (actpos v) = Ret (0, v') /\ reads v' l' (<[n := s]> m) /\
    adds v1 l v' l' /\ actpos v' <= actpos v1 + Z.of_nat (length n) + 1 /\ (free_count l <= free_count l' + 1)%nat).
  { destruct (decide (find l n 0 = -1)) as [E|E].
    - destruct (set_no_copy_new v1 l m n (actpos v) s Hr1' Hn Hne E Ha Hbad Hfree) as
        (v' & l' & E' & Hr' & G & Hp' & Hf'); [unfold VARIABLE_STORE_SIZE; lia|].
      exists v', l'. split_and!; [done|done|done|lia|lia].
    - destruct (set_no_copy_old v1 l m n (actpos v) s Hr1' Hn Hne E Ha) as (v' & l' & E' & Hr' & G & Hp' & Hf').
      exists v', l'. apply free_count_names in Hf'. split_and!; [done|done|done|lia|lia]. }
  destruct Hset as (v' & l' & E' & Hr' & G & Hp' & Hf'). exists v1, v', l'.
  split; [done|]. split; [done|]. split.
  { rewrite (var_get_index_spec v' l'); [by rewrite decide_False|apply Hr'|done]. }
  split; [|split; [done|split; [eauto|split; lia]]].
  split_and!; [done|done|done| |exists (actpos v); split; [done|by apply G]].
  cbn. destruct Hr' as [_ Hm']. specialize (Hm' n). rewrite lookup_insert_eq in Hm'. unfold value_of in Hm'.
  rewrite decide_False in Hm' by done.
  destruct (find_spec l' n 0) as [(_ & E & _)|(k & ? & -> & _)]; [lia| |lia]. congruence.
Qed.

(** *** The text of a toggle *)

(** A name and a value that can be written in a block without quotes. *)
Definition toggle_char (c : Z) : Prop := c <> ch "," /\ c <> ch "}".
Record good_pair (b : binding) : Prop := {
  gp_name : good_name b.1;
  gp_value : text b.2;
  gp_start : grub_isspace (cur b.2) = false;
  gp_chars : Forall toggle_char (b.1 ++ b.2)
}.
Definition pair_text (b : binding) : list Z := b.1 ++ ch "=" :: b.2.

Lemma name_not_bad n : Forall (fun c => name_char c = true) n -> bad_name n = false.
Proof.
  intros H. unfold bad_name. destruct (existsb _ n) eqn:E; [|done]. apply existsb_exists in E as (c & Hc & Ec).
  apply list_elem_of_In in Hc. eapply Forall_forall in H; [|exact Hc]. apply name_char_inv in H as (_ & H & H1 & H2).
  rewrite !orb_false_iff, !Z.eqb_neq in H. rewrite !orb_true_iff, !Z.eqb_eq in Ec. intuition.
Qed.

Lemma name_start n r : n <> [] -> Forall (fun c => name_char c = true) n -> grub_isspace (cur (n ++ r)) = false.
Proof. intros Hne H. destruct H as [|c n Hc _]; [done|]. cbn. by apply name_char_inv. Qed.

Lemma pair_binding b : good_pair b -> good_binding b.
Proof. intros [(Hn & Hne & Hc) Hv _ _]. split_and!; [done|done|by apply name_not_bad|done]. Qed.

Lemma scan_name_spec n v stop : Forall (fun c => name_char c = true) n ->
  scan_name (n ++ ch "=" :: v ++ [stop]) = (n, ch "=" :: v ++ [stop]).
Proof.
  induction 1 as [|c n Hc _ IH].
  - cbn [app scan_name]. rewrite Z.eqb_refl. cbn [negb]. rewrite andb_false_r. cbn. done.
  - cbn [app scan_name]. apply name_char_inv in Hc as (Hs & He & _ & _).
    rewrite !orb_false_iff in He. destruct He as [[[_ He] _] _].
    rewrite He, Hs. cbn [negb]. destruct (Z.ltb_spec 2 (Z.of_nat (length (c :: n ++ ch "=" :: v ++ [stop])))) as [_|Hl].
    + cbn [andb]. by rewrite IH.
    + repeat (rewrite length_app in Hl || cbn [length] in Hl). lia.
Qed.

(** The toggle [k] of the slot [s] while it is defined. *)
Definition upd (t : toggle_state) (s : nat) (k : Z) (v : var_state) (bl : list block) : toggle_state :=
  set_toggle (with_vars t v) (Z.of_nat s) {| key := k; current_block := 0; nr_blocks := 0; blocks := bl |}.

Definition free_var : block_var := {| bv_var := 0; bv_value := None |}.
(** A block after its first variables have been read. *)
Definition filled (xs : list block_var) : block :=
  {| nr_vars := Z.of_nat (length xs); vars := xs ++ replicate (MAX_VAR_PER_BLOCK - length xs) free_var |}.

Fixpoint pairs_text (bs : list binding) : list Z :=
  match bs with
  | [] => []
  | [b] => pair_text b
  | b :: bs => pair_text b ++ ch "," :: pairs_text bs
  end.
Fixpoint costs (bs : list binding) : Z := match bs with [] => 0 | b :: bs => cost b + costs bs end.

Lemma costs_pos bs : 0 <= costs bs.
Proof. induction bs as [|[]]; cbn; unfold cost; lia. Qed.

Lemma pair_no_comma b : good_pair b -> ch "," ∉ pair_text b.
Proof.
  intros [_ _ _ H] Hin. unfold pair_text in Hin. apply elem_of_app in Hin as [Hin|[Hin|Hin]%elem_of_cons]; [|done|];
    (eapply Forall_forall in H; [|apply elem_of_app; eauto]); by destruct H.
Qed.

Lemma pairs_text_nonempty b bs : pairs_text (b :: bs) <> [].
Proof. destruct bs; cbn; unfold pair_text; by destruct (b.1). Qed.

Definition block_text (bs : list binding) : list Z := ch "{" :: pairs_text bs ++ [ch "}"].
Definition all_costs (bss : list (list binding)) : Z := foldr (fun bs n => costs bs + n) 0 bss.
Definition good_block (bs : list binding) : Prop := Forall good_pair bs /\ (length bs <= MAX_VAR_PER_BLOCK)%nat.

Lemma pairs_no_brace bs : Forall good_pair bs -> ch "}" ∉ pairs_text bs.
Proof.
  assert (H1 : forall b, good_pair b -> ch "}" ∉ pair_text b).
  { intros b [_ _ _ H] Hin. unfold pair_text in Hin. apply elem_of_app in Hin as [Hin|[Hin|Hin]%elem_of_cons]; [|done|];
      (eapply Forall_forall in H; [|apply elem_of_app; eauto]); by destruct H. }
  induction 1 as [|b bs Hb _ IH]; [apply not_elem_of_nil|]. destruct bs as [|b2 bs]; [by apply H1|].
  change (pairs_text (b :: b2 :: bs)) with (pair_text b ++ ch "," :: pairs_text (b2 :: bs)).
  rewrite not_elem_of_app, not_elem_of_cons. split_and!; [by apply H1|done|done].
Qed.

Lemma scan_brace_spec w r : ch "}" ∉ w -> scan_brace (w ++ ch "}" :: r) = Some (w, r).
Proof.
  induction w as [|c w IH]; intros Hw; cbn; [done|]. apply not_elem_of_cons in Hw as [Hc Hw].
  destruct (Z.eqb_spec c (ch "}")); [done|]. by rewrite IH.
Qed.

Lemma all_costs_pos bss : 0 <= all_costs bss.
Proof. induction bss as [|bs bss IH]; cbn; [lia|]. pose proof (costs_pos bs). unfold all_costs in IH. lia. Qed.

Section slots.
Variable t : toggle_state.
Variable s : nat.
Variable k : Z.
Hypothesis Hs : (s < length (toggle_data t))%nat.
Hypothesis Hslot : slot_no t = Z.of_nat s.

Lemma upd_at v bl : at_index (toggle_data (upd t s k v bl)) (slot_no (upd t s k v bl)) =
  Ret {| key := k; current_block := 0; nr_blocks := 0; blocks := bl |}.
Proof.
  cbn. rewrite Hslot. apply at_index_ok. unfold set_index. rewrite Nat2Z.id. by apply list_lookup_insert_eq.
Qed.

Lemma upd_set v bl v' i b : set_toggle (with_vars (upd t s k v bl) v') (slot_no (with_vars (upd t s k v bl) v'))
    (set_block {| key := k; current_block := 0; nr_blocks := 0; blocks := bl |} i b) =
  upd t s k v' (set_index bl i b).
Proof.
  cbn. rewrite Hslot. unfold upd, set_toggle, with_data, set_index. cbn. by rewrite list_insert_insert_eq.
Qed.

(** There is room for [n] more bytes and [j] more variables. *)
Definition room (v : var_state) (l : names) (n : Z) (j : nat) : Prop :=
  actpos v + n <= VARIABLE_STORE_SIZE /\ (j <= free_count l)%nat.

Lemma room_step v l v' l' c n j : room v l (c + n) (S j) -> spends v l v' l' c 1 -> room v' l' n j.
Proof. unfold room, spends. lia. Qed.

Lemma process_var_spec ds xs r b stop v l m : good_pair b -> grub_isspace stop = false ->
  (length xs < MAX_VAR_PER_BLOCK)%nat -> reads v l m -> room v l (cost b) 1 -> exists v' l' x,
  process_var (upd t s k v (ds ++ filled xs :: r)) (Z.of_nat (length ds)) (Z.of_nat (length xs)) (pair_text b) stop =
    Ret (true, upd t s k v' (ds ++ filled (xs ++ [x]) :: r)) /\
  var_is v' l' x b /\ reads v' l' (<[b.1 := b.2]> m) /\ adds v l v' l' /\ spends v l v' l' (cost b) 1.
Proof.
  intros Hb Hstop Hxs Hr [Hroom Hfree]. pose proof Hb as [(Hn & Hne & Hnc) Hv Hst _].
  destruct (give_value v l m b Hr (pair_binding b Hb) Hroom ltac:(lia)) as
    (v1 & v' & l' & E1 & E2 & E3 & Hx & Hr' & G & Hsp).
  set (x := {| bv_var := find l' b.1 0; bv_value := Some (actpos v) |}) in *. exists v', l', x.
  split; [|done]. unfold process_var, pair_text. rewrite <- app_assoc. cbn [app].
  rewrite skip_ws_stays by (by apply name_start).
  rewrite scan_name_spec by done. rewrite (skip_ws_stays (ch "=" :: _)) by done. cbn [cur tail].
  rewrite Z.eqb_refl. cbn [negb].
  rewrite skip_ws_stays by (by destruct (b.2)). rewrite removelast_last. cbv zeta.
  rewrite upd_at. cbn [mbind C_bind blocks].
  assert (Ed : at_index (ds ++ filled xs :: r) (Z.of_nat (length ds)) = Ret (filled xs)).
  { apply at_index_ok. by rewrite lookup_app_r, Nat.sub_diag by lia. }
  rewrite Ed. cbn [mbind C_bind filled vars nr_vars].
  assert (Erep : replicate (MAX_VAR_PER_BLOCK - length xs) free_var =
    free_var :: replicate (MAX_VAR_PER_BLOCK - S (length xs)) free_var).
  { by replace (MAX_VAR_PER_BLOCK - length xs)%nat with (S (MAX_VAR_PER_BLOCK - S (length xs))) by lia. }
  assert (Ex : at_index (xs ++ replicate (MAX_VAR_PER_BLOCK - length xs) free_var) (Z.of_nat (length xs)) = Ret free_var).
  { apply at_index_ok. by rewrite lookup_app_r, Nat.sub_diag, Erep by lia. }
  rewrite Ex. cbn [mbind C_bind free_var bv_value].
  assert (Ei : exists i, var_get_index (variables (upd t s k v (ds ++ filled xs :: r))) b.1 = Ret i).
  { eexists. apply (var_get_index_spec v l); [apply Hr|done]. }
  destruct Ei as [i Ei]. rewrite Ei. cbn [mbind C_bind].
  change (variables (upd t s k v (ds ++ filled xs :: r))) with v. rewrite E1. cbn [mbind C_bind].
  rewrite E2. cbn [mbind C_bind]. rewrite E3. cbn [mbind C_bind].
  destruct Hx as (_ & _ & _ & Hx1 & _). cbn [x bv_var] in Hx1.
  destruct (Z.eqb_spec (find l' b.1 0) (-1)); [done|]. rewrite upd_set. do 2 f_equal. unfold upd. f_equal. f_equal.
  unfold set_index. rewrite Nat2Z.id, insert_app_r_alt, Nat.sub_diag by lia. cbn [list_insert insert].
  f_equal. f_equal. rewrite Z.leb_refl. unfold filled. rewrite length_app. cbn [length]. f_equal; [lia|].
  rewrite Nat2Z.id, insert_app_r_alt, Nat.sub_diag, Erep by lia. cbn [list_insert insert]. rewrite <- app_assoc.
  cbn [app]. do 3 f_equal. lia.
Qed.

Lemma process_block_chars w : forall u bl var seg rest, ch "," ∉ w -> rest <> [] ->
  process_block u bl var seg (w ++ rest) = process_block u bl var (seg ++ w) rest.
Proof.
  induction w as [|c w IH]; intros u bl var seg rest Hw Hr; [by rewrite app_nil_r|].
  apply not_elem_of_cons in Hw as [Hc Hw]. cbn [app process_block].
  assert (match w ++ rest with [] => true | _ => false end = false) as -> by (by destruct w, rest).
  destruct (Z.eqb_spec c (ch ",")); [done|]. cbn [orb]. rewrite IH by done. by rewrite <- app_assoc.
Qed.

Lemma process_block_spec bs : forall ds xs r v l m, Forall good_pair bs ->
  (length xs + length bs <= MAX_VAR_PER_BLOCK)%nat -> reads v l m -> room v l (costs bs) (length bs) ->
  exists v' l' ys,
  process_block (upd t s k v (ds ++ filled xs :: r)) (Z.of_nat (length ds)) (Z.of_nat (length xs)) [] (pairs_text bs) =
    Ret (Done, upd t s k v' (ds ++ filled (xs ++ ys) :: r)) /\
  Forall2 (var_is v' l') ys bs /\ reads v' l' (assign m bs) /\ adds v l v' l' /\
  spends v l v' l' (costs bs) (length bs).
Proof.
  induction bs as [|b bs IH]; intros ds xs r v l m Hg Hlen Hr Hroom.
  { exists v, l, []. rewrite app_nil_r. split_and!; [done|constructor|done|done|unfold spends; cbn; lia]. }
  apply Forall_cons_1 in Hg as [Hb Hg]. cbn [costs length] in *.
  assert (Hroom1 : room v l (cost b) 1) by (pose proof (costs_pos bs); unfold room in *; lia).
  assert (Hmax : Z.of_nat (length xs) <> Z.of_nat MAX_VAR_PER_BLOCK) by lia.
  pose proof (pair_no_comma b Hb) as Hcomma.
  destruct bs as [|b2 bs].
  - destruct (process_var_spec ds xs r b (ch "}") v l m Hb eq_refl ltac:(lia) Hr Hroom1) as
      (v' & l' & x & E & Hx & Hr' & G & Hsp).
    exists v', l', [x]. cbn [pairs_text]. destruct (exists_last (pairs_text_nonempty b [])) as (w & c & Ew).
    cbn [pairs_text] in Ew. rewrite Ew in *. apply not_elem_of_app in Hcomma as [Hw _].
    rewrite process_block_chars by done. cbn [app process_block]. rewrite orb_true_r.
    destruct (Z.eqb_spec (Z.of_nat (length xs)) (Z.of_nat MAX_VAR_PER_BLOCK)); [done|]. rewrite E.
    cbn [mbind C_bind negb]. split_and!; [done|by constructor; [|constructor]|done|done|]. unfold spends in *. cbn [costs length]. lia.
  - destruct (process_var_spec ds xs r b (ch ",") v l m Hb eq_refl ltac:(lia) Hr Hroom1) as
      (v1 & l1 & x & E & Hx & Hr1 & G1 & Hsp1).
    destruct (IH ds (xs ++ [x]) r v1 l1 (<[b.1 := b.2]> m) Hg) as (v' & l' & ys & E2 & Hys & Hr' & G & Hsp);
      [rewrite length_app; cbn in *; lia|done|by eapply room_step|].
    exists v', l', (x :: ys). change (pairs_text (b :: b2 :: bs)) with (pair_text b ++ ch "," :: pairs_text (b2 :: bs)).
    rewrite process_block_chars by done. cbn [app process_block]. rewrite Z.eqb_refl. cbn [orb].
    assert (match pairs_text (b2 :: bs) with [] => true | _ => false end = false) as ->
      by (pose proof (pairs_text_nonempty b2 bs); by destruct (pairs_text (b2 :: bs))).
    destruct (Z.eqb_spec (Z.of_nat (length xs)) (Z.of_nat MAX_VAR_PER_BLOCK)); [done|]. rewrite E.
    cbn [mbind C_bind negb].
    replace (Z.of_nat (length xs) + 1) with (Z.of_nat (length (xs ++ [x]))) by (rewrite length_app; cbn; lia).
    rewrite E2. rewrite <- app_assoc. cbn [app]. split_and!; [done| |done|by eapply adds_trans|].
    + constructor; [by eapply var_adds|done].
    + unfold spends in *. lia.
Qed.

Lemma set_blocks_spec bss : forall fuel dss v l m, (length bss < fuel)%nat -> Forall good_block bss ->
  (length dss + length bss <= MAX_BLOCKS)%nat -> reads v l m -> room v l (all_costs bss) (length (mjoin bss)) ->
  exists v' l' yss,
  set_blocks fuel (upd t s k v ((filled <$> dss) ++ replicate (MAX_BLOCKS - length dss) empty_block))
      (Z.of_nat (length dss)) (mjoin (block_text <$> bss)) =
    Ret (Done, Z.of_nat (length dss + length bss),
         upd t s k v' ((filled <$> (dss ++ yss)) ++ replicate (MAX_BLOCKS - length (dss ++ yss)) empty_block)) /\
  Forall2 (Forall2 (var_is v' l')) yss bss /\ reads v' l' (assign m (mjoin bss)) /\ adds v l v' l'.
Proof.
  induction bss as [|bs bss IH]; intros fuel dss v l m Hf Hg Hlen Hr Hroom; (destruct fuel as [|fuel]; [cbn in Hf; lia|]).
  { exists v, l, []. rewrite app_nil_r, Nat.add_0_r. split_and!; [done|constructor|done|done]. }
  apply Forall_cons_1 in Hg as [[Hb Hb5] Hg]. cbn [length] in Hf, Hlen.
  change (all_costs (bs :: bss)) with (costs bs + all_costs bss) in Hroom.
  change (mjoin (bs :: bss)) with (bs ++ mjoin bss) in *. rewrite length_app in Hroom.
  pose proof (all_costs_pos bss) as Hall.
  destruct (process_block_spec bs (filled <$> dss) [] (replicate (MAX_BLOCKS - S (length dss)) empty_block) v l m Hb)
    as (v1 & l1 & ys & E1 & Hys & Hr1 & G1 & Hsp1); [cbn; lia|done|unfold room in *; lia|].
  destruct (IH fuel (dss ++ [ys]) v1 l1 (assign m bs) ltac:(lia) Hg) as (v' & l' & yss & E2 & Hyss & Hr' & G);
    [rewrite length_app; cbn; lia|done|unfold room, spends in *; lia|].
  exists v', l', (ys :: yss).
  assert (Erep : replicate (MAX_BLOCKS - length dss) empty_block =
    filled [] :: replicate (MAX_BLOCKS - S (length dss)) empty_block).
  { replace (MAX_BLOCKS - length dss)%nat with (S (MAX_BLOCKS - S (length dss))) by lia. done. }
  assert (Etext : mjoin (block_text <$> bs :: bss) = ch "{" :: pairs_text bs ++ ch "}" :: mjoin (block_text <$> bss)).
  { cbn. unfold block_text. cbn [app]. by rewrite <- app_assoc. }
  rewrite Etext. cbn [set_blocks]. cbv zeta. rewrite (skip_ws_stays (ch "{" :: _)) by done. cbn [cur tail].
  change (ch "{" =? 0) with false. rewrite Z.eqb_refl. cbn [negb].
  rewrite scan_brace_spec by (by apply pairs_no_brace). rewrite Erep.
  cbn [length] in E1. rewrite length_fmap in E1. change (Z.of_nat 0) with 0 in E1. rewrite E1. cbn [mbind C_bind app].
  replace ((filled <$> dss) ++ filled ys :: replicate (MAX_BLOCKS - S (length dss)) empty_block)
    with ((filled <$> (dss ++ [ys])) ++ replicate (MAX_BLOCKS - length (dss ++ [ys])) empty_block)
    by (rewrite fmap_app, <- app_assoc, length_app; cbn; do 3 f_equal; lia).
  replace (Z.of_nat (length dss) + 1) with (Z.of_nat (length (dss ++ [ys]))) by (rewrite length_app; cbn; lia).
  replace (length dss + length (bs :: bss))%nat with (length (dss ++ [ys]) + length bss)%nat
    by (rewrite length_app; cbn; lia).
  replace (dss ++ ys :: yss) with ((dss ++ [ys]) ++ yss) by (by rewrite <- app_assoc).
  assert (Hrest : Forall2 (Forall2 (var_is v' l')) (ys :: yss) (bs :: bss) /\
    reads v' l' (assign m (bs ++ mjoin bss)) /\ adds v l v' l').
  { split_and!; [|unfold assign in *; by rewrite foldl_app|by eapply adds_trans]. constructor; [|done].
    eapply Forall2_impl; [exact Hys|]. eauto. }
  destruct bss as [|b2 bss].
  - split; [|done]. cbn [mjoin list_join fmap list_fmap cur]. rewrite Z.eqb_refl. cbn [negb andb].
    apply Forall2_nil_inv_r in Hyss as ->. rewrite app_nil_r, Nat.add_0_r in *.
    destruct fuel as [|fuel]; [lia|]. cbn in E2. done.
  - split; [|done]. rewrite <- E2. cbn [fmap list_fmap mjoin list_join block_text app cur].
    change (ch "{" =? 0) with false. cbn [negb andb].
    destruct (Z.eqb_spec (Z.of_nat (length (dss ++ [ys]))) (Z.of_nat MAX_BLOCKS)) as [E|_]; [|done].
    rewrite length_app in E. cbn in *. lia.
Qed.
End slots.

(** *** Definition and use *)

Lemma assign_other bs : forall m x, x ∉ bs.*1 -> assign m bs !! x = m !! x.
Proof.
  induction bs as [|b bs IH]; intros m x Hx; [done|]. apply not_elem_of_cons in Hx as [Hb Hx].
  unfold assign in *. cbn [foldl]. rewrite IH by done. by rewrite lookup_insert_ne.
Qed.

Lemma assign_in bs : forall m b, NoDup bs.*1 -> b ∈ bs -> assign m bs !! b.1 = Some b.2.
Proof.
  induction bs as [|b0 bs IH]; intros m b Hnd Hb; [by apply elem_of_nil in Hb|].
  apply NoDup_cons in Hnd as [Hn Hnd]. apply elem_of_cons in Hb as [->|Hb]; [|by apply IH].
  change (assign m (b0 :: bs)) with (assign (<[b0.1 := b0.2]> m) bs). rewrite assign_other by done.
  by rewrite lookup_insert_eq.
Qed.

Lemma cycled_last bss : forall n c m, exists m',
  cycled n bss c (assign m (default [] (bss !! c))) =
  assign m' (default [] (bss !! Nat.iter n (next_block (length bss)) c)).
Proof.
  induction n as [|n IH]; intros c m; [by exists m|]. cbn [cycled]. cbv zeta. rewrite Nat.iter_succ_r. apply IH.
Qed.

Definition untouched (bss : list (list binding)) (x : list Z) : Prop := forall bs, bs ∈ bss -> x ∉ bs.*1.

Lemma untouched_at bss x i : untouched bss x -> x ∉ (default [] (bss !! i)).*1.
Proof.
  intros Hx. destruct (bss !! i) as [bs|] eqn:E; cbn; [|apply not_elem_of_nil]. apply Hx. by eapply list_elem_of_lookup_2.
Qed.

Lemma cycled_other bss x : untouched bss x -> forall n c m, cycled n bss c m !! x = m !! x.
Proof.
  intros Hx. induction n as [|n IH]; intros c m; [done|]. cbn [cycled]. cbv zeta. rewrite IH, assign_other; [done|].
  by apply untouched_at.
Qed.

Lemma untouched_all bss x : untouched bss x -> x ∉ (mjoin bss).*1.
Proof.
  induction bss as [|bs bss IH]; intros Hx; [apply not_elem_of_nil|].
  change (mjoin (bs :: bss)) with (bs ++ mjoin bss). rewrite fmap_app, not_elem_of_app. split.
  - apply Hx. by left.
  - apply IH. intros y Hy. apply Hx. by right.
Qed.

Lemma find_key_new g k l : forall s i, key g = k -> find_key l k i = -1 -> 0 <= i -> (s < length l)%nat ->
  find_key (take (S s) (<[s := g]> l)) k i = i + Z.of_nat s.
Proof.
  induction l as [|g0 l IH]; intros s i Hg Hf Hi Hs; [cbn in Hs; lia|]. cbn [find_key] in Hf.
  destruct (Z.eqb_spec (key g0) k) as [|Hne]; [lia|]. destruct s as [|s].
  - change (<[0%nat := g]> (g0 :: l)) with (g :: l). cbn. rewrite Hg, Z.eqb_refl. lia.
  - change (<[S s := g]> (g0 :: l)) with (g0 :: <[s := g]> l). cbn [take find_key].
    destruct (Z.eqb_spec (key g0) k); [done|]. cbn in Hs. rewrite IH; [lia|done|done|lia|lia].
Qed.

(** The slot [s], the next one, is unused, and no slot has the key. *)
Record new_slot (t : toggle_state) (s : nat) (k : Z) : Prop := {
  ns_used : toggles_used t = Z.of_nat s;
  ns_free : toggle_data t !! s = Some empty_toggle;
  ns_all : length (toggle_data t) = TOGGLES;
  ns_key : get_toggle_slot_for_key t k = -1
}.

Lemma blocks_longer bss : (length bss <= length (mjoin (block_text <$> bss)))%nat.
Proof.
  induction bss as [|bs bss IH]; [done|].
  change (mjoin (block_text <$> bs :: bss)) with (block_text bs ++ mjoin (block_text <$> bss)).
  rewrite length_app. cbn [block_text length]. lia.
Qed.

Lemma toggle_set_spec t s k bss l m : new_slot t s k -> k <> 0 -> reads (variables t) l m ->
  bss <> [] -> (length bss <= MAX_BLOCKS)%nat -> Forall good_block bss ->
  room (variables t) l (all_costs bss) (length (mjoin bss)) -> exists t',
  toggle_set t (k :: 32 :: mjoin (block_text <$> bss)) = Ret (0, t') /\
  toggling t' s k bss 0 (assign (assign m (mjoin bss)) (default [] (bss !! 0%nat))).
Proof.
  intros [Hu Hfree Hall Hkey] Hk Hr Hne Hlen Hg Hroom. pose proof (lookup_lt_Some _ _ _ Hfree) as Hs.
  unfold toggle_set. cbn [cur tail]. destruct (Z.eqb_spec k 0); [done|]. change (32 =? 0) with false. cbn [orb].
  rewrite Hkey, Hu. change (-1 =? -1) with true. cbv iota zeta.
  destruct (Z.eqb_spec (Z.of_nat s) (Z.of_nat TOGGLES)); [lia|]. cbn [negb].
  set (t0 := with_slot t (Z.of_nat s + 1) (Z.of_nat s)).
  change (toggle_data t0) with (toggle_data t). rewrite (at_index_ok _ _ _ Hfree). cbn [mbind C_bind].
  change (reset_blocks (blocks empty_toggle)) with (replicate (MAX_BLOCKS - 0) empty_block).
  change (set_toggle t0 (Z.of_nat s) _) with
    (upd t0 s k (variables t) ((filled <$> []) ++ replicate (MAX_BLOCKS - 0) empty_block)).
  replace (set_blocks _ _ 0 _) with
    (set_blocks (length (k :: 32%Z :: mjoin (block_text <$> bss)) + 1)
      (upd t0 s k (variables t) ((filled <$> []) ++ replicate (MAX_BLOCKS - @length (list block_var) []) empty_block))
      (Z.of_nat (@length (list block_var) [])) (mjoin (block_text <$> bss))); last first.
  { destruct bss as [|bs bss]; [done|]. rewrite Nat.add_1_r. done. }
  assert (Hfuel : (length bss < length (k :: 32%Z :: mjoin (block_text <$> bss)) + 1)%nat).
  { cbn [length]. pose proof (blocks_longer bss). lia. }
  destruct (set_blocks_spec t0 s k Hs eq_refl bss _ [] _ l m Hfuel Hg Hlen Hr Hroom) as
    (v' & l' & yss & E & Hyss & Hr' & G).
  rewrite E. cbn [mbind C_bind length app Nat.add] in *. clear E.
  set (t1 := upd t0 s k v' _).
  assert (E1 : at_index (toggle_data t1) (Z.of_nat s) = Ret {| key := k; current_block := 0; nr_blocks := 0;
      blocks := (filled <$> yss) ++ replicate (MAX_BLOCKS - length yss) empty_block |}).
  { apply (upd_at t0 s k Hs eq_refl). }
  rewrite E1. cbn [mbind C_bind key current_block blocks].
  set (g := {| key := k; current_block := 0; nr_blocks := Z.of_nat (length bss);
    blocks := (filled <$> yss) ++ replicate (MAX_BLOCKS - length yss) empty_block |}).
  set (t2 := set_toggle t1 (Z.of_nat s) g).
  assert (Hlt : (0 < length bss)%nat) by (destruct bss; [done|cbn; lia]).
  assert (Ed : toggle_data t2 = <[s := g]> (toggle_data t)).
  { cbn. unfold set_index. by rewrite Nat2Z.id, list_insert_insert_eq. }
  assert (Eg : toggle_data t2 !! s = Some g) by (rewrite Ed; by apply list_lookup_insert_eq).
  assert (Ht : toggle_is v' l' g k bss 0).
  { split; [done..|]. cbn [g blocks]. rewrite <- (Forall2_length _ _ _ Hyss), <- (length_fmap filled yss).
    rewrite take_app_length. apply Forall2_fmap_l. eapply Forall2_impl; [exact Hyss|]. intros ys bs H. split.
    - cbn. by rewrite (Forall2_length _ _ _ H).
    - cbn [filled vars]. rewrite <- (Forall2_length _ _ _ H). by rewrite take_app_length. }
  destruct (lookup_lt_is_Some_2 bss 0 Hlt) as [bs Hbs].
  destruct (do_block_spec t2 s k bss 0 (assign m (mjoin bss)) 0 bs g l') as (v2 & l2 & E2 & Hr2 & G2);
    [cbn; lia|done..|].
  change (Z.of_nat 0) with 0 in E2. rewrite E2. cbn [mbind C_bind]. eexists. split; [done|]. rewrite Hbs. cbn [default].
  split; [|cbn; lia|].
  - unfold toggle_find_slot. cbn [with_cmd with_vars toggle_data toggles_used]. rewrite Ed.
    replace (Z.to_nat (toggles_used t2)) with (S s) by (cbn; lia).
    rewrite (find_key_new g k) by done. done.
  - exists g, l2. split; [done|]. split; [done|]. by eapply toggle_adds.
Qed.

Lemma toggle_func_set fuel t r : toggle_func (S fuel) t (bstr "set " ++ r) = toggle_set t (skip_ws r).
Proof. reflexivity. Qed.

(** C22: After the command [toggle set] with some blocks, and after each number of
    presses of the key, the variables of the block whose turn it is have the values
    of the block, and a variable in no block has the value it had before. *)
Theorem toggle_cycles fuel t s k bss l m : new_slot t s k -> k <> 0 -> grub_isspace k = false ->
  reads (variables t) l m -> bss <> [] -> (length bss <= MAX_BLOCKS)%nat -> Forall good_block bss ->
  room (variables t) l (all_costs bss) (length (mjoin bss)) -> exists t',
  toggle_func (S fuel) t (bstr "set " ++ k :: 32 :: mjoin (block_text <$> bss)) = Ret (0, t') /\
  forall n, exists t'', presses n k t' = Ret t'' /\
    (forall bs b, bss !! (n mod length bss)%nat = Some bs -> NoDup bs.*1 -> b ∈ bs ->
       var_get (variables t'') b.1 = Ret (Some b.2)) /\
    (forall x, text x -> untouched bss x -> var_get (variables t'') x = Ret (m !! x)).
Proof.
  intros Hnew Hk Hks Hr Hne Hlen Hg Hroom.
  destruct (toggle_set_spec t s k bss l m Hnew Hk Hr Hne Hlen Hg Hroom) as (t' & E & Ht). exists t'. split.
  - rewrite toggle_func_set, skip_ws_stays by done. exact E.
  - intros n. destruct (presses_spec k bss s n t' 0 _ Ht) as (t'' & En & Ht''). exists t''. split; [done|].
    destruct Ht'' as [_ _ (g & l' & _ & [Hrd Hm] & _)].
    assert (Hget : forall x, text x -> var_get (variables t'') x =
      Ret (cycled n bss 0 (assign (assign m (mjoin bss)) (default [] (bss !! 0%nat))) !! x)).
    { intros x Hx. rewrite (var_get_spec _ l') by done. by rewrite Hm. }
    split.
    + intros bs b Hbs Hnd Hb. assert (Hlt : (0 < length bss)%nat) by (destruct bss; [done|cbn; lia]).
      assert (Hbt : text b.1).
      { rewrite Forall_forall in Hg. destruct (Hg bs) as [Hp _]; [by eapply list_elem_of_lookup_2|].
        rewrite Forall_forall in Hp. by destruct (Hp b Hb) as [[? _] _ _ _]. }
      rewrite Hget by done. destruct (cycled_last bss n 0 (assign m (mjoin bss))) as [m' ->].
      rewrite next_block_iter, Nat.add_0_l, Hbs by done. cbn [default]. by rewrite assign_in.
    + intros x Hx Hun. rewrite Hget by done. rewrite cycled_other, !assign_other; [done|by apply untouched_all|
        by apply untouched_at|done].
Qed.

(** ** Examples *)

Definition no_toggles : toggle_state :=
  {| variables := empty_vars; toggle_data := replicate TOGGLES empty_toggle; toggles_used := 0; slot_no := 0;
     prev_cmd := COMMAND_INITIAL; last_key_pressed := 0; triggers_only := false |}.

Definition demo_blocks : list (list binding) :=
  [[(bstr "DRIVE", bstr "hd0"); (bstr "PART", bstr "1")];
   [(bstr "DRIVE", bstr "hd1"); (bstr "PART", bstr "")]; [(bstr "DRIVE", bstr "cd")]].

Definition good_pairb (b : binding) : bool :=
  forallb (fun c => (0 <? c) && (c <? 256)) (b.1 ++ b.2) && negb (bool_decide (b.1 = [])) &&
  forallb name_char b.1 && negb (grub_isspace (cur b.2)) &&
  forallb (fun c => negb (c =? ch ",") && negb (c =? ch "}")) (b.1 ++ b.2).

Lemma good_pair_check b : good_pairb b = true -> good_pair b.
Proof.
  unfold good_pairb. rewrite !andb_true_iff, !negb_true_iff, bool_decide_eq_false.
  intros [[[[Ht%text_check Hne] Hn] Hs] Hc]. apply text_app in Ht as [H1 H2].
  split; [split_and!; [done|done|]|done|done|].
  - apply Forall_forall. intros c Hx. rewrite forallb_forall in Hn. by apply Hn, list_elem_of_In.
  - apply Forall_forall. intros c Hx. rewrite forallb_forall in Hc.
    specialize (Hc c (proj1 (list_elem_of_In _ _) Hx)). unfold toggle_char. blia.
Qed.

Lemma demo_good : Forall good_block demo_blocks.
Proof. repeat (apply Forall_cons; split; [split; [repeat (apply Forall_cons; split; [by apply good_pair_check|]); constructor|cbn; unfold MAX_VAR_PER_BLOCK; lia]|]). constructor. Qed.

Lemma empty_reads : reads empty_vars (replicate VARIABLES_MAX None) ∅.
Proof.
  split; [apply empty_readable|]. intros n. rewrite lookup_empty. unfold value_of. by destruct (decide (n = [])).
Qed.

(** After five presses it is the turn of the third block. *)
Lemma toggle_cycles_witness : exists t' t'',
  toggle_func 1 no_toggles (bstr "set d {DRIVE=hd0,PART=1}{DRIVE=hd1,PART=}{DRIVE=cd}") = Ret (0, t') /\
  presses 5 (ch "d") t' = Ret t'' /\ var_get (variables t'') (bstr "DRIVE") = Ret (Some (bstr "cd")).
Proof.
  destruct (toggle_cycles 0 no_toggles 0 (ch "d") demo_blocks (replicate VARIABLES_MAX None) ∅) as (t' & E & H);
    [by split|done|done|exact empty_reads|done|vm_compute; lia|exact demo_good|split; vm_compute; [done|lia]|].
  destruct (H 5%nat) as (t'' & E5 & Hget & _). exists t', t''. split; [exact E|]. split; [exact E5|].
  apply (Hget [(bstr "DRIVE", bstr "cd")] (bstr "DRIVE", bstr "cd")); [reflexivity| |by left].
  apply NoDup_singleton.
Defined.

(** Commands one after the other; a key is pressed where the text is one byte. *)
Fixpoint session (t : toggle_state) (cs : list string) : C toggle_state :=
  match cs with
  | [] => Ret t
  | c :: cs =>
      t ← match bstr c with
          | [k] => snd <$> toggle_do_key t k
          | line => if abbrev line (bstr "set ") 4
                    then '(_, v) ← set_func stale0 (variables t) (drop 4 line); Ret (with_vars t v)
                    else snd <$> toggle_func 5 t (drop 7 line)
          end;
      session t cs
  end.
Definition value_after (cs : list string) (n : string) : C (option (list Z)) :=
  t ← session no_toggles cs; var_get (variables t) (bstr n).

(** A variable points to the value of the block: setting it, where the value fits,
    changes the block. *)
Example block_overwritten :
  value_after ["toggle set d {A=long}{A=x}"; "d"; "d"]%string "A" = Ret (Some (bstr "long")) /\
  value_after ["toggle set d {A=long}{A=x}"; "set A=y"; "d"; "d"]%string "A" = Ret (Some (bstr "y")).
Proof. by vm_compute. Qed.

(** A comma behind the last variable belongs to its value. *)
Example comma_in_value :
  value_after ["toggle set d {A=1,B=2,}"]%string "B" = Ret (Some (bstr "2,")).
Proof. by vm_compute. Qed.

(** Defining a toggle again clears the number of variables of its first five blocks
    only: the sixth block keeps its old second variable. *)
Example sixth_block_kept :
  value_after ["toggle set d {A=1}{A=2}{A=3}{A=4}{A=5}{A=6,B=old}";
               "toggle set d {A=1}{A=2}{A=3}{A=4}{A=5}{A=7}"; "set B=newer"; "toggle select d=5"]%string "B" =
  Ret (Some (bstr "old")).
Proof. by vm_compute. Qed.

(** A value that is as before is taken for a definition that is as before, also where
    it is for another variable. *)
Example other_variable_ignored :
  value_after ["set B=0"; "toggle set d {A=1}"; "toggle set d {B=1}"]%string "B" = Ret (Some (bstr "0")).
Proof. by vm_compute. Qed.

(** Without a space behind its first word the command reads over the end. *)
Example no_second_word : toggle_func 1 no_toggles (bstr "set") = Undef.
Proof. reflexivity. Qed.

(** A trigger executes its command where the variable has the value. *)
Example triggers :
  value_after ["toggle set d {A=1,C=x}{A=2,C=y}"; "toggle trigger A==1 select d=1"]%string "C" = Ret (Some (bstr "y")) /\
  value_after ["toggle set d {A=1,C=x}{A=2,C=y}"; "toggle trigger A==2 select d=1"]%string "C" = Ret (Some (bstr "x")).
Proof. by vm_compute. Qed.
