(* ===== verification/BootMod.v ===== *)
(** * Boot modules ([bootseq/loader/loader/boot.c], [commands.c])

    The command [module] reads a file to the next page of memory and puts its
    command line behind it; the loader keeps a list of what it loaded. *)
From S2P Require Import Prelude BootLib.

(** ** Memory *)

(** Memory that was never written holds zeros. *)
Definition peek (m : mem) (a : Z) : Z := default 0 (m !! a).
Fixpoint poke (m : mem) (a : Z) (l : list Z) : mem :=
  match l with [] => m | c :: l => poke (<[a := c]> m) (a + 1) l end.

Fixpoint read_str (fuel : nat) (m : mem) (a : Z) : list Z :=
  match fuel with
  | O => []
  | S fuel => if peek m a =? 0 then [] else peek m a :: read_str fuel m (a + 1)
  end.
(** The string at an address. *)
Definition str_in (m : mem) (a : Z) : list Z := read_str (S (size m)) m a.

(** ** Modules *)

Record module_entry := { mod_start : Z; mod_end : Z; cmdline : Z }.

(** [multiboot] says whether a multiboot kernel was loaded before. *)
Record boot_modules := {
  cur_addr : Z; mods : list module_entry; ram : mem; mb_cmdline : Z; multiboot : bool
}.

Definition set_cur_addr (st : boot_modules) (a : Z) : boot_modules :=
  {| cur_addr := a; mods := mods st; ram := ram st; mb_cmdline := mb_cmdline st; multiboot := multiboot st |}.
Definition set_cmdline (st : boot_modules) (m : mem) (p : Z) : boot_modules :=
  {| cur_addr := cur_addr st; mods := mods st; ram := m; mb_cmdline := p; multiboot := multiboot st |}.

Definition MB_CMDLINE_BUF : Z := 0x4c000.
Definition MB_CMDLINE_BUFLEN : Z := 0x6000.
Definition MODS_MAX : nat := 256.

Definition page_up (a : Z) : Z := Z.land (u32 (a + 0xFFF)) 0xFFFFF000.

Section modules.
(** The kilobytes of memory above the first megabyte; the contents of a file,
    nothing where it cannot be opened; and [create_lip_module]. *)
Context (mem_upper : Z) (files : list Z -> option (list Z)) (lip_module : boot_modules -> boot_modules).

(** The result is 1 when the module was loaded. *)
Definition load_module (module arg : list Z) (st : boot_modules) : C (Z * boot_modules) :=
  let a := page_up (cur_addr st) in
  let st := set_cur_addr st a in
  match files module with
  | None => Ret (0, st)
  | Some bytes =>
      let len := Z.of_nat (length bytes) in
      if u32 (1024 * (1024 + mem_upper)) <=? u32 (a + len) then Ret (0, st)
      else if len =? 0 then Ret (0, st)
      else
        _ ← require (bool_decide (length (mods st) < MODS_MAX)%nat);
        let e := u32 (a + len) in
        Ret (1, {| cur_addr := u32 (e + Z.of_nat (length arg));
                   mods := mods st ++ [{| mod_start := a; mod_end := e; cmdline := e |}];
                   ram := poke (poke (ram st) a bytes) e (arg ++ [0]);
                   mb_cmdline := mb_cmdline st; multiboot := multiboot st |})
  end.

(** The command; here 0 means success.  Behind [--type] as many bytes are copied as the
    whole argument has; those behind its end are not used. *)
Definition module_func (arg : list Z) (st : boot_modules) : C (Z * boot_modules) :=
  let len := Z.of_nat (length arg) in
  let typed := abbrev arg (bstr "--type") 6 in
  let arg := if typed then skip_to true arg else arg in
  if typed && abbrev arg (bstr "lip") 3 then Ret (0, lip_module st)
  else if multiboot st then
    if MB_CMDLINE_BUF + MB_CMDLINE_BUFLEN <? mb_cmdline st + len + 1 then Ret (1, st)
    else
      let st := set_cmdline st (poke (ram st) (mb_cmdline st) (arg ++ [0])) (mb_cmdline st) in
      '(rc, st) ← load_module arg arg st;
      if rc =? 0 then Ret (1, st) else Ret (0, set_cmdline st (ram st) (mb_cmdline st + len + 1))
  else Ret (1, st).

(** The command [modaddr]. *)
Definition modaddr_func (arg : list Z) (st : boot_modules) : C (Z * boot_modules) :=
  if multiboot st then
    match safe_parse_maxint arg with
    | Some (_, addr) => Ret (0, set_cur_addr st addr)
    | None => Ret (1, st)
    end
  else Ret (1, st).
End modules.

(** ** Memory, the lemmas *)

Lemma peek_poke_out m a l x : x < a \/ a + Z.of_nat (length l) <= x -> peek (poke m a l) x = peek m x.
Proof.
  revert m a. induction l as [|c l IH]; intros m a H; cbn [poke length] in *; [done|].
  rewrite IH by lia. unfold peek. by rewrite lookup_insert_ne by lia.
Qed.
Lemma peek_poke_in l : forall m a i c, l !! i = Some c -> peek (poke m a l) (a + Z.of_nat i) = c.
Proof.
  induction l as [|d l IH]; intros m a [|i] c H; cbn in H; [done|done| |]; cbn [poke].
  - injection H as ->. rewrite peek_poke_out by lia. unfold peek. by rewrite Z.add_0_r, lookup_insert_eq.
  - rewrite <- (IH (<[a := d]> m) (a + 1) i c H). f_equal. lia.
Qed.

(** Bytes at an address. *)
Definition held (m : mem) (a : Z) (l : list Z) : Prop :=
  forall i c, l !! i = Some c -> peek m (a + Z.of_nat i) = c.

Lemma held_poke m a l : held (poke m a l) a l.
Proof. intros i c H. by apply peek_poke_in. Qed.
Lemma held_keep m a l b l' : held m a l -> a + Z.of_nat (length l) <= b \/ b + Z.of_nat (length l') <= a ->
  held (poke m b l') a l.
Proof.
  intros H Hd i c Hi. pose proof (lookup_lt_Some _ _ _ Hi). rewrite peek_poke_out by lia. by apply H.
Qed.
Lemma held_app m a l l' : held m a (l ++ l') <-> held m a l /\ held m (a + Z.of_nat (length l)) l'.
Proof.
  split.
  - intros H. split; intros i c Hi.
    + apply H. by apply lookup_app_l_Some.
    + replace (a + Z.of_nat (length l) + Z.of_nat i) with (a + Z.of_nat (length l + i)) by lia. apply H.
      rewrite lookup_app_r by lia. by replace (length l + i - length l)%nat with i by lia.
  - intros [H1 H2] i c [Hi|[Hl Hi]]%lookup_app_Some; [by apply H1|]. rewrite <- (H2 _ _ Hi). f_equal. lia.
Qed.

Definition no_zero (l : list Z) : Prop := Forall (fun c => c <> 0) l.
Lemma text_no_zero l : text l -> no_zero l.
Proof. intros H. eapply Forall_impl; [exact H|]. intros c Hc. cbn in Hc. lia. Qed.

(** Characters in a row are places that were written. *)
Lemma held_size l : forall m a, held m a l -> no_zero l -> (length l <= size m)%nat.
Proof.
  induction l as [|c l IH]; intros m a H Ht; cbn [length]; [lia|]. apply Forall_cons_1 in Ht as [Hc Ht].
  assert (Hp : peek m a = c) by (rewrite <- (H O c eq_refl); f_equal; lia).
  unfold peek in Hp. destruct (m !! a) as [x|] eqn:E; cbn in Hp; [|congruence].
  assert (Hl : (length l <= size (delete a m))%nat).
  { apply (IH _ (a + 1)); [|done]. intros i d Hi. rewrite <- (H (S i) d Hi). unfold peek.
    rewrite lookup_delete_ne by lia. do 2 f_equal. lia. }
  rewrite map_size_delete, E in Hl.
  assert (size m <> O) by (intros ->%map_size_empty_inv; by rewrite lookup_empty in E). lia.
Qed.

Lemma str_in_exact m a l : held m a l -> no_zero l -> peek m (a + Z.of_nat (length l)) = 0 -> str_in m a = l.
Proof.
  intros H Ht Hz. pose proof (held_size l m a H Ht) as Hl. unfold str_in.
  assert (G : forall l fuel a, held m a l -> no_zero l -> (length l < fuel)%nat -> peek m (a + Z.of_nat (length l)) = 0 ->
    read_str fuel m a = l); [|by apply G; [..|lia|]].
  clear. induction l as [|c l IH]; intros fuel a H Ht Hf Hz; (destruct fuel as [|fuel]; [lia|]); cbn [read_str length] in *.
  - rewrite Z.add_0_r in Hz. by rewrite Hz.
  - apply Forall_cons_1 in Ht as [Hc Ht]. assert (Hp : peek m a = c) by (rewrite <- (H O c eq_refl); f_equal; lia).
    rewrite Hp. destruct (Z.eqb_spec c 0); [done|]. f_equal. apply IH; [|done|lia|].
    + intros i d Hi. rewrite <- (H (S i) d Hi). f_equal. lia.
    + rewrite <- Hz. f_equal. lia.
Qed.

Lemma page_up_spec a : 0 <= a -> a + 0xFFF < 2 ^ 32 ->
  page_up a mod 4096 = 0 /\ a <= page_up a <= a + 0xFFF.
Proof.
  intros H0 H1. unfold page_up. rewrite u32_id by (split; lia).
  replace (Z.land (a + 0xFFF) 0xFFFFF000) with ((a + 0xFFF) / 4096 * 4096); [lia|].
  apply Z.bits_inj'. intros n Hn. rewrite Z.land_spec.
  change 4096 with (2 ^ 12). rewrite <- Z.shiftr_div_pow2, <- Z.shiftl_mul_pow2 by lia.
  change 0xFFFFF000 with (Z.shiftl (Z.ones 20) 12).
  rewrite !Z.shiftl_spec by done. destruct (Z.ltb_spec n 12).
  - rewrite (Z.testbit_neg_r _ (n - 12)), (Z.testbit_neg_r (Z.ones 20)) by lia. by rewrite andb_false_r.
  - rewrite Z.shiftr_spec by lia. replace (n - 12 + 12) with n by lia. destruct (Z.ltb_spec n 32).
    + rewrite Z.ones_spec_low by lia. by rewrite andb_true_r.
    + rewrite Z.ones_spec_high by lia. rewrite andb_false_r. apply Z.bits_above_log2; [lia|].
      assert (Z.log2 (a + 0xFFF) < 32) by (apply Z.log2_lt_pow2; lia). lia.
Qed.

(** ** What is loaded *)

(** The modules of the list [l] of command lines and contents are in memory between [lo]
    and [hi], one behind the other, each at the beginning of a page and with its command
    line behind it. *)
Fixpoint placed (m : mem) (lo : Z) (es : list module_entry) (l : list (list Z * list Z)) (hi : Z) : Prop :=
  match es, l with
  | [], [] => lo <= hi
  | e :: es, (arg, bytes) :: l =>
      lo <= mod_start e /\ mod_start e mod 4096 = 0 /\ mod_end e = mod_start e + Z.of_nat (length bytes) /\
      cmdline e = mod_end e /\ held m (mod_start e) (bytes ++ arg) /\
      placed m (mod_end e + Z.of_nat (length arg)) es l hi
  | _, _ => False
  end.

Lemma placed_length m lo es l hi : placed m lo es l hi -> length es = length l.
Proof.
  revert lo l. induction es as [|e es IH]; intros lo [|[arg bytes] l] H; cbn in *; [done..|].
  destruct H as (_ & _ & _ & _ & _ & H). f_equal. by eapply IH.
Qed.
Lemma placed_le m lo es l hi : placed m lo es l hi -> lo <= hi.
Proof.
  revert lo l. induction es as [|e es IH]; intros lo [|[arg bytes] l] H; cbn in *; [done..|].
  destruct H as (H1 & _ & H2 & _ & _ & H3%IH). lia.
Qed.
Lemma placed_hi m lo es l hi hi' : placed m lo es l hi -> hi <= hi' -> placed m lo es l hi'.
Proof.
  revert lo l. induction es as [|e es IH]; intros lo [|[arg bytes] l] H Hh; cbn in *; [lia|done|done|].
  destruct H as (H1 & H2 & H3 & H4 & H5 & H6). split_and!; try done. by apply IH.
Qed.
(** What is written above [hi] or below [lo] leaves the modules as they are. *)
Lemma placed_poke m lo es l hi b l' : placed m lo es l hi -> hi <= b \/ b + Z.of_nat (length l') <= lo ->
  placed (poke m b l') lo es l hi.
Proof.
  revert lo l. induction es as [|e es IH]; intros lo [|[arg bytes] l] H Hb; cbn in *; [done..|].
  destruct H as (H1 & H2 & H3 & H4 & H5 & H6). pose proof (placed_le _ _ _ _ _ H6). split_and!; try done.
  - apply held_keep; [done|]. rewrite length_app. lia.
  - apply IH; [done|lia].
Qed.
Lemma placed_snoc m lo es l hi e arg bytes : placed m lo es l hi -> hi <= mod_start e -> mod_start e mod 4096 = 0 ->
  mod_end e = mod_start e + Z.of_nat (length bytes) -> cmdline e = mod_end e ->
  held m (mod_start e) (bytes ++ arg) ->
  placed m lo (es ++ [e]) (l ++ [(arg, bytes)]) (mod_end e + Z.of_nat (length arg)).
Proof.
  revert lo l. induction es as [|e' es IH]; intros lo [|[arg' bytes'] l] H; intros; cbn in *; try done.
  - split_and!; try done; lia.
  - destruct H as (H1' & H2' & H3' & H4' & H5' & H6'). split_and!; try done. by apply IH.
Qed.

(** The modules one by one. *)
Lemma placed_entries m lo es l hi : placed m lo es l hi ->
  Forall2 (fun e x => lo <= mod_start e /\ mod_start e mod 4096 = 0 /\
    cmdline e = mod_start e + Z.of_nat (length x.2) /\ held m (mod_start e) (x.2 ++ x.1)) es l.
Proof.
  revert lo l. induction es as [|e es IH]; intros lo [|[arg bytes] l] H; cbn in *; try done.
  destruct H as (H1 & H2 & H3 & H4 & H5 & H6). constructor; [cbn; split_and!; (done || lia)|].
  eapply Forall2_impl; [by eapply IH|]. intros e' x (G1 & G2 & G3 & G4). split_and!; [lia|done|done|done].
Qed.

Section loading.
Context (mem_upper : Z) (files : list Z -> option (list Z)) (lip_module : boot_modules -> boot_modules).

(** The end of memory; addresses a little above it can still be counted. *)
Definition ram_end : Z := 1024 * (1024 + mem_upper).
Hypothesis Hend : 0 <= mem_upper /\ ram_end + 0x2000 <= 2 ^ 32.
(** With a file the sum does not wrap around. *)
Hypothesis Hfiles : forall name bytes, files name = Some bytes ->
  ram_end + 0x2000 + Z.of_nat (length bytes) <= 2 ^ 32.

Record well_placed (st : boot_modules) (l : list (list Z * list Z)) : Prop := {
  wp_mods : placed (ram st) 0x100000 (mods st) l (cur_addr st);
  wp_cur : page_up (cur_addr st) <= ram_end + 0x1FFF /\ cur_addr st + 0xFFF < 2 ^ 32;
  wp_line : MB_CMDLINE_BUF <= mb_cmdline st <= MB_CMDLINE_BUF + MB_CMDLINE_BUFLEN;
  wp_kernel : multiboot st = true
}.

Definition plain_arg (arg : list Z) : Prop :=
  abbrev arg (bstr "--type") 6 = false /\ Z.of_nat (length arg) < 0x800.

(** A module that does not fit or does not exist leaves the others alone. *)
Lemma well_placed_page st l : well_placed st l -> well_placed (set_cur_addr st (page_up (cur_addr st))) l.
Proof.
  intros [H1 [H2 H3] H4 H5]. pose proof (placed_le _ _ _ _ _ H1) as Hle.
  destruct (page_up_spec (cur_addr st)) as [Hm Hp]; [lia|lia|]. split; cbn; [|split|done|done].
  - eapply placed_hi; [done|lia].
  - assert (page_up (page_up (cur_addr st)) = page_up (cur_addr st)); [|lia].
    destruct (page_up_spec (page_up (cur_addr st))) as [Hm' Hp']; [lia|lia|]. lia.
  - lia.
Qed.

Lemma well_placed_line st l arg : well_placed st l ->
  mb_cmdline st + Z.of_nat (length arg) + 1 <= MB_CMDLINE_BUF + MB_CMDLINE_BUFLEN ->
  well_placed (set_cmdline st (poke (ram st) (mb_cmdline st) (arg ++ [0])) (mb_cmdline st)) l.
Proof.
  intros [H1 H2 H3 H4] Ha. split; cbn; [|done..]. apply placed_poke; [done|]. right. rewrite length_app.
  unfold MB_CMDLINE_BUF, MB_CMDLINE_BUFLEN in *. cbn. lia.
Qed.

(** What is loaded before stays the same in memory up to the beginning of the next page; a
    zero is behind the command line of a new module. *)
Definition added (arg : list Z) (st st' : boot_modules) (e : module_entry) : Prop :=
  mods st' = mods st ++ [e] /\ cur_addr st <= cur_addr st' /\ peek (ram st') (cur_addr st') = 0 /\
  (forall x, 0x100000 <= x < page_up (cur_addr st) -> peek (ram st') x = peek (ram st) x) /\
  cmdline e + Z.of_nat (length arg) = cur_addr st'.
Definition unchanged (st st' : boot_modules) : Prop :=
  mods st' = mods st /\ cur_addr st <= cur_addr st' /\
  forall x, 0x100000 <= x -> peek (ram st') x = peek (ram st) x.

Definition file_fits (st : boot_modules) (bytes : list Z) : Prop :=
  bytes <> [] /\ page_up (cur_addr st) + Z.of_nat (length bytes) < ram_end.

Lemma load_module_spec arg st l : well_placed st l -> Z.of_nat (length arg) < 0x800 -> (length l < MODS_MAX)%nat ->
  (exists bytes st', files arg = Some bytes /\ file_fits st bytes /\
     load_module mem_upper files arg arg st = Ret (1, st') /\ well_placed st' (l ++ [(arg, bytes)]) /\
     mb_cmdline st' = mb_cmdline st /\ exists e, added arg st st' e) \/
  ((forall bytes, files arg = Some bytes -> ~ file_fits st bytes) /\
   exists st', load_module mem_upper files arg arg st = Ret (0, st') /\ well_placed st' l /\ unchanged st st').
Proof.
  intros Hst Ha Hl. pose proof (well_placed_page st l Hst) as Hst'. unfold load_module, file_fits.
  destruct Hst as [H1 [H2 H3] H4 H5]. pose proof (placed_le _ _ _ _ _ H1) as Hle.
  destruct (page_up_spec (cur_addr st)) as [Hm Hp]; [lia|lia|].
  assert (Hun : unchanged st (set_cur_addr st (page_up (cur_addr st)))) by (split; [done|split; [cbn; lia|done]]).
  destruct (files arg) as [bytes|] eqn:Ef; [|right; split; [done|]; by eexists].
  pose proof (Hfiles _ _ Ef) as Hb. unfold ram_end in *. rewrite (u32_id (1024 * (1024 + mem_upper))) by (split; lia).
  cbv zeta. rewrite !(u32_id (page_up _ + _)) by (split; lia).
  destruct (Z.leb_spec (1024 * (1024 + mem_upper)) (page_up (cur_addr st) + Z.of_nat (length bytes))) as [Hbig|Hfit].
  { right. split; [|by eexists]. intros b [= <-] [_ ?]. lia. }
  destruct (Z.eqb_spec (Z.of_nat (length bytes)) 0) as [E0|E0].
  { right. split; [|by eexists]. intros b [= <-] [? _]. destruct bytes; [done|cbn in E0; lia]. }
  left. exists bytes. eexists. split; [done|]. split; [split; [by intros ->|done]|].
  rewrite bool_decide_eq_true_2 by (cbn; rewrite (placed_length _ _ _ _ _ H1); done). cbn [require mbind C_bind].
  split; [reflexivity|]. destruct Hst' as [H1' _ _ _].
  assert (Hcur : 0 <= page_up (cur_addr st) + Z.of_nat (length bytes) + Z.of_nat (length arg)
    < ram_end + 0x800) by (unfold ram_end; lia). unfold ram_end in Hcur.
  destruct (page_up_spec (page_up (cur_addr st) + Z.of_nat (length bytes) + Z.of_nat (length arg))) as [_ Hp']; [lia|lia|].
  rewrite u32_id by (split; lia). split; [|split; [done|]]; last first.
  { eexists. split; [done|]. cbn [cur_addr ram set_cur_addr]. split; [lia|]. split.
    - pose proof (held_poke (poke (ram st) (page_up (cur_addr st)) bytes)
        (page_up (cur_addr st) + Z.of_nat (length bytes)) (arg ++ [0])) as [_ H]%held_app.
      specialize (H O 0 eq_refl). by rewrite Z.add_0_r in H.
    - split; [|cbn [cmdline]; lia]. intros x Hx. rewrite !peek_poke_out by lia. done. }
  split; cbn [cur_addr mods ram mb_cmdline multiboot set_cur_addr]; [|unfold ram_end; lia|done|done].
  apply (placed_snoc _ _ _ _ (page_up (cur_addr st)) (Build_module_entry _ _ _)); cbn [mod_start mod_end cmdline]; try done.
  - apply placed_poke; [apply placed_poke; [done|]|]; left; lia.
  - apply held_app. split; [apply held_keep; [apply held_poke|lia]|].
    by apply (held_app _ _ arg [0]), held_poke.
Qed.

(** The command, with what it does to memory. *)
Lemma module_func_spec arg st l : well_placed st l -> plain_arg arg -> (length l < MODS_MAX)%nat ->
  mb_cmdline st + Z.of_nat (length arg) + 1 <= MB_CMDLINE_BUF + MB_CMDLINE_BUFLEN ->
  (exists bytes st' e, files arg = Some bytes /\ file_fits st bytes /\
     module_func mem_upper files lip_module arg st = Ret (0, st') /\ well_placed st' (l ++ [(arg, bytes)]) /\
     added arg st st' e) \/
  ((forall bytes, files arg = Some bytes -> ~ file_fits st bytes) /\
   exists st', module_func mem_upper files lip_module arg st = Ret (1, st') /\ well_placed st' l /\ unchanged st st').
Proof.
  intros Hst [Ht Ha] Hl Hroom. unfold module_func. rewrite Ht, (wp_kernel _ _ Hst). cbv zeta. cbn [andb].
  destruct (Z.ltb_spec (MB_CMDLINE_BUF + MB_CMDLINE_BUFLEN) (mb_cmdline st + Z.of_nat (length arg) + 1)); [lia|].
  assert (Hline : forall x, 0x100000 <= x -> peek (poke (ram st) (mb_cmdline st) (arg ++ [0])) x = peek (ram st) x).
  { intros x Hx. apply peek_poke_out. right. rewrite length_app. cbn. unfold MB_CMDLINE_BUF, MB_CMDLINE_BUFLEN in *. lia. }
  destruct (load_module_spec arg _ l (well_placed_line st l arg Hst Hroom) Ha Hl)
    as [(bytes & st' & Ef & Hfit & E & Hst' & Eline & e & A1 & A2 & A3 & A4 & A5)|(Hno & st' & E & Hst' & U1 & U2 & U3)].
  - left. exists bytes. do 2 eexists. split; [done|]. split; [done|]. rewrite E. cbn [mbind C_bind].
    split; [reflexivity|]. split.
    + destruct Hst' as [G1 G2 G3 G4]. split; cbn; [done|done| |done].
      cbn in Eline. destruct Hst as [_ _ G _]. rewrite Eline. lia.
    + split; [exact A1|]. split; [done|]. split; [done|]. split; [|done]. intros x Hx. cbn [ram set_cmdline cur_addr] in *.
      rewrite A4 by done. apply Hline. lia.
  - right. split; [done|]. rewrite E. cbn [mbind C_bind]. eexists. split; [reflexivity|]. split; [done|].
    split; [done|]. split; [done|]. intros x Hx. rewrite U3 by done. by apply Hline.
Qed.

(** C16: The command [module] puts the contents of the file at the beginning of the next page
    and its command line behind it, and every module loaded before is still in its place,
    whole; where the file does not exist, is empty or does not fit, nothing is loaded and
    the command reports it. *)
Theorem module_command arg st l : well_placed st l -> plain_arg arg -> (length l < MODS_MAX)%nat ->
  mb_cmdline st + Z.of_nat (length arg) + 1 <= MB_CMDLINE_BUF + MB_CMDLINE_BUFLEN ->
  (exists bytes st', files arg = Some bytes /\ file_fits st bytes /\
     module_func mem_upper files lip_module arg st = Ret (0, st') /\ well_placed st' (l ++ [(arg, bytes)])) \/
  ((forall bytes, files arg = Some bytes -> ~ file_fits st bytes) /\
   exists st', module_func mem_upper files lip_module arg st = Ret (1, st') /\ well_placed st' l).
Proof.
  intros Hst Ha Hl Hroom.
  destruct (module_func_spec arg st l Hst Ha Hl Hroom) as [(bytes & st' & e & Ef & Hf & E & Hst' & _)|(Hno & st' & E & Hst' & _)].
  - left. by exists bytes, st'.
  - right. split; [done|]. by exists st'.
Qed.
End loading.

(** ** Concrete modules *)

Definition demo_module_files (n : list Z) : option (list Z) :=
  if bool_decide (n = bstr "/os2krnl") then Some (replicate 4088 7)
  else if bool_decide (n = bstr "/os2ldr") then Some [1; 2; 3]
  else if bool_decide (n = bstr "foo /os2ldr") then Some [9] else None.
Definition no_modules : boot_modules :=
  {| cur_addr := 0x200000; mods := []; ram := ∅; mb_cmdline := MB_CMDLINE_BUF; multiboot := true |}.
Definition run_module (arg : string) (st : boot_modules) : C (Z * boot_modules) :=
  module_func 4096 demo_module_files id (bstr arg) st.

Lemma no_modules_placed : well_placed 4096 no_modules [].
Proof. split; cbn; [lia|split; [by vm_compute|lia]|vm_compute; by split|done]. Qed.

Lemma module_command_witness : exists st', run_module "/os2ldr" no_modules = Ret (0, st') /\
  well_placed 4096 st' [(bstr "/os2ldr", [1; 2; 3])].
Proof.
  destruct (module_command 4096 demo_module_files id ltac:(split; vm_compute; congruence)
    (fun n b => ltac:(unfold demo_module_files; repeat case_bool_decide; intros E; inversion E; subst; vm_compute; congruence))
    (bstr "/os2ldr") no_modules [] no_modules_placed ltac:(by split)
    ltac:(cbn; unfold MODS_MAX; lia) ltac:(vm_compute; congruence)) as [(bytes & st' & E1 & _ & E2 & H)|[H _]].
  - exists st'. split; [exact E2|]. injection E1 as <-. exact H.
  - exfalso. apply (H [1; 2; 3]); [done|]. split; [done|]. by vm_compute.
Defined.

(** The address behind a module and its command line may be the beginning of a page:
    the next module takes the place of the zero, and the command line goes on in it. *)
Example terminator_lost : ('(_, st) ← run_module "/os2krnl" no_modules; '(_, st) ← run_module "/os2ldr" st;
  Ret ((fun e => str_in (ram st) (cmdline e)) <$> mods st)) =
  Ret [bstr "/os2krnl" ++ [1; 2; 3] ++ bstr "/os2ldr"; bstr "/os2ldr"].
Proof. vm_compute. reflexivity. Qed.

(** Behind an option [--type] the type is taken for a part of the name. *)
Example type_in_name : (st ← snd <$> run_module "--type=foo /os2ldr" no_modules;
  Ret ((fun e => str_in (ram st) (cmdline e)) <$> mods st)) = Ret [bstr "foo /os2ldr"].
Proof. vm_compute. reflexivity. Qed.
