(* ===== verification/BootMenu.v ===== *)
(** * Command lines and menus of the boot loader ([bootseq/loader/loader/loader.c])

    A line of a configuration file is a command that is executed at once, or,
    behind the first title, a part of a menu item.  The items are structures in
    the menu buffer that point to each other and to their commands. *)
From S2P Require Import Prelude BootLib BootCfg BootVar BootToggle BootMod.

(** ** What commands change *)

Record settings := {
  default_item : Z; menu_timeout : Z; menu_width : Z; menu_height : Z;
  menu_colors : Z * Z * Z * Z; screen_colors : Z * Z * Z * Z
}.

Record boot_state := {
  toggles : toggle_state;
  var_expand_line_edit : bool;
  numbers : settings;
  curr_cfg : list Z;
  prev_cfg : list Z;
  modules : boot_modules
}.

Definition with_toggles (b : boot_state) (t : toggle_state) : boot_state :=
  {| toggles := t; var_expand_line_edit := var_expand_line_edit b; numbers := numbers b;
     curr_cfg := curr_cfg b; prev_cfg := prev_cfg b; modules := modules b |}.
Definition with_numbers (b : boot_state) (n : settings) : boot_state :=
  {| toggles := toggles b; var_expand_line_edit := var_expand_line_edit b; numbers := n;
     curr_cfg := curr_cfg b; prev_cfg := prev_cfg b; modules := modules b |}.
Definition with_expand (b : boot_state) (e : bool) : boot_state :=
  {| toggles := toggles b; var_expand_line_edit := e; numbers := numbers b;
     curr_cfg := curr_cfg b; prev_cfg := prev_cfg b; modules := modules b |}.

Definition handler : Type := list Z -> boot_state -> C (Z * boot_state).

(** ** Commands *)

Definition set_cmd (stale : list Z) : handler := fun arg b =>
  '(rc, v) ← set_func stale (variables (toggles b)) arg; Ret (rc, with_toggles b (with_vars (toggles b) v)).

Definition toggle_cmd : handler := fun arg b =>
  '(rc, t) ← toggle_func (length arg + 1) (toggles b) arg; Ret (rc, with_toggles b t).

(** The words are compared by their first bytes. *)
Definition varexpand_func : handler := fun arg b =>
  let c := cur (skip_ws arg) in
  if (c =? ch "o") || (c =? ch "t") || (c =? ch "1") then Ret (0, with_expand b true)
  else if (c =? ch "o") || (c =? ch "f") || (c =? ch "0") then Ret (0, with_expand b false)
  else if negb (c =? 0) then Ret (1, b)
  else Ret (0, with_expand b (negb (var_expand_line_edit b))).

(** A number that is not there leaves a local variable without a value. *)
Definition need_number (arg : list Z) : C Z :=
  match safe_parse_maxint arg with Some (_, n) => Ret n | None => Undef end.

Definition set_numbers (s : settings) (d t w h : Z) (c c' : Z * Z * Z * Z) : settings :=
  {| default_item := d; menu_timeout := t; menu_width := w; menu_height := h; menu_colors := c; screen_colors := c' |}.

Definition default_func : handler := fun arg b =>
  n ← need_number arg; let s := numbers b in
  Ret (0, with_numbers b (set_numbers s n (menu_timeout s) (menu_width s) (menu_height s) (menu_colors s) (screen_colors s))).
Definition timeout_func : handler := fun arg b =>
  let s := numbers b in
  let n := match safe_parse_maxint arg with Some (_, n) => n | None => menu_timeout s end in
  Ret (0, with_numbers b (set_numbers s (default_item s) n (menu_width s) (menu_height s) (menu_colors s) (screen_colors s))).
Definition width_func : handler := fun arg b =>
  let s := numbers b in
  let n := match safe_parse_maxint arg with Some (_, n) => n | None => menu_width s end in
  Ret (0, with_numbers b (set_numbers s (default_item s) (menu_timeout s) n (menu_height s) (menu_colors s) (screen_colors s))).
Definition height_func : handler := fun arg b =>
  let s := numbers b in
  let n := match safe_parse_maxint arg with Some (_, n) => n | None => menu_height s end in
  Ret (0, with_numbers b (set_numbers s (default_item s) (menu_timeout s) (menu_width s) n (menu_colors s) (screen_colors s))).
Definition four_bytes (c : Z) : Z * Z * Z * Z :=
  (Z.land c 0xff, Z.land (Z.shiftr c 8) 0xff, Z.land (Z.shiftr c 16) 0xff, Z.land (Z.shiftr c 24) 0xff).
Definition color_func : handler := fun arg b =>
  n ← need_number arg; let s := numbers b in
  Ret (0, with_numbers b (set_numbers s (default_item s) (menu_timeout s) (menu_width s) (menu_height s) (four_bytes n) (screen_colors s))).
Definition screen_func : handler := fun arg b =>
  n ← need_number arg; let s := numbers b in
  Ret (0, with_numbers b (set_numbers s (default_item s) (menu_timeout s) (menu_width s) (menu_height s) (menu_colors s) (four_bytes n))).

(** Names of files have 256 bytes.  Without an argument the code puts a letter over
    the end of the string and goes on with what lies behind it. *)
Definition CFG_LEN : Z := 0x100.
Definition configfile_func : handler := fun arg b =>
  _ ← require (negb (cur arg =? 0));
  _ ← require (Z.of_nat (length arg) <? CFG_LEN);
  Ret (0, {| toggles := toggles b; var_expand_line_edit := var_expand_line_edit b; numbers := numbers b;
             curr_cfg := arg; prev_cfg := curr_cfg b; modules := modules b |}).

(** The references in the text are replaced for the screen. *)
Definition print_func (stale : list Z) : handler := fun arg b =>
  _ ← var_sprint_buf stale (variables (toggles b)) arg; Ret (0, b).

(** ** Executing a line *)

Definition BUFLEN : Z := 0x800.

(** The device the loader was started from takes the place of each empty pair of
    parentheses; the text is put together in a buffer of [BUFLEN] bytes. *)
Fixpoint macro_loop (fuel : nat) (at_drive q : list Z) : C (list Z) :=
  match fuel with
  | O => NoFuel
  | S fuel =>
      match grub_strstr q (bstr "()") with
      | Some r => (fun out => take (length q - length r) q ++ at_drive ++ out) <$> macro_loop fuel at_drive (drop 2 r)
      | None => Ret q
      end
  end.
Definition macro_subst (at_drive path : list Z) : C (list Z) :=
  out ← macro_loop (S (length path)) at_drive path;
  _ ← require (Z.of_nat (length out) <? BUFLEN);
  Ret out.

Section commands.
(** The name of the boot device, what the local buffer of [var_sprint] held, and
    the commands that are not modelled, by their names. *)
Context (at_drive stale : list Z) (host : list Z -> handler).

Definition other (name : string) : list Z * handler := (bstr name, host (bstr name)).
Definition builtins : list (list Z * handler) :=
  [other "kernel"; other "module"; other "modaddr"; other "lipmodule"; other "bsmodule"; other "vbeset";
   (bstr "set", set_cmd stale); (bstr "toggle", toggle_cmd); (bstr "varexpand", varexpand_func);
   other "root"; other "boot"; (bstr "default", default_func); (bstr "timeout", timeout_func);
   (bstr "color", color_func); (bstr "width", width_func); (bstr "height", height_func);
   (bstr "screen", screen_func); other "os2ldr"; other "dlat"; other "serial"; other "write";
   (bstr "configfile", configfile_func); (bstr "print", print_func stale); (bstr "echo", print_func stale);
   other "prompt"; other "help"; other "ls"; other "dir"; other "blocklist"; other "loop"; other "preproc";
   other "exit"; other "quit"].

(** Backslashes become slashes, but for one at the beginning. *)
Definition slashes (line : list Z) : list Z :=
  match line with
  | [] => []
  | c :: r => c :: ((fun c => if c =? ch "\" then ch "/" else c) <$> r)
  end.

Fixpoint run_builtin (bs : list (list Z * handler)) (line : list Z) (b : boot_state) : C (Z * boot_state) :=
  match bs with
  | [] => Ret (1, b)
  | (name, func) :: bs =>
      let c := cur (drop (length name) line) in
      if abbrev line name (length name) && ((c =? 32) || (c =? 0)) then
        s ← macro_subst at_drive (skip_to true line);
        str ← var_sprint 0x400 stale (variables (toggles b)) s;
        if triggers_only (toggles b) && abbrev str (bstr "set") 3 then run_builtin bs line b
        else
          '(rc, b) ← func str b;
          Ret (if rc =? 0 then 1 else 0, b)
      else run_builtin bs line b
  end.

Definition exec_line (line : list Z) (b : boot_state) : C (Z * boot_state) :=
  if cur line =? 0 then Ret (1, b) else run_builtin builtins (slashes line) b.

(** ** The menu

    The structures by their addresses; titles and command lines are strings by
    their addresses.  [scr] has no value until the first command is added. *)

Record script_t := { scr : option Z; num : Z; title : Z; next : Z; prev : Z }.
Record string_t := { str_s : Z; last_one : Z; st_next : Z; st_prev_ : Z }.

Definition MENU_BUF : Z := 0x56040.
Definition MENU_BUFLEN : Z := 0x4560.
Definition SCRIPT_SIZE : Z := 20.
Definition STRING_SIZE : Z := 16.

(** Where the command lines are put, and how much room there is. *)
Context (config_lines config_room : Z).

Record menu_state := {
  scripts : gmap Z script_t; strings : gmap Z string_t; texts : gmap Z (list Z);
  menu_len : Z; config_len : Z; section : Z; num_items : Z;
  menu_first : Z; menu_last : Z; sc : Z; sc_prev : Z; st_prev : Z
}.

Definition set_next (a : Z) (s : script_t) : script_t :=
  {| scr := scr s; num := num s; title := title s; next := a; prev := prev s |}.
Definition set_st_next (a : Z) (s : string_t) : string_t :=
  {| str_s := str_s s; last_one := last_one s; st_next := a; st_prev_ := st_prev_ s |}.

(** A field of the structure at [p] is changed; a null pointer is passed over. *)
Definition update {A} (m : gmap Z A) (p : Z) (f : A -> A) : C (gmap Z A) :=
  if p =? 0 then Ret m else a ← need (m !! p); Ret (<[p := f a]> m).

Definition add_title (line : list Z) (m : menu_state) : C menu_state :=
  let s := skip_to true line in
  let t := MENU_BUF + menu_len m in
  let len := menu_len m + Z.of_nat (length s) + 1 in
  let a := MENU_BUF + len in
  _ ← require (len + SCRIPT_SIZE <=? MENU_BUFLEN);
  let new := {| scr := None; num := 0; title := t; next := 0; prev := sc_prev m |} in
  ss ← update (scripts m) (sc_prev m) (set_next a);
  let sect := section m + 1 in
  Ret {| scripts := <[a := new]> ss; strings := strings m; texts := <[t := s]> (texts m);
         menu_len := len + SCRIPT_SIZE; config_len := config_len m; section := sect; num_items := num_items m + 1;
         menu_first := if sect =? 1 then a else menu_first m; menu_last := a; sc := a; sc_prev := a;
         st_prev := st_prev m |}.

Definition add_command (line : list Z) (m : menu_state) : C menu_state :=
  let a := MENU_BUF + menu_len m in
  _ ← require (menu_len m + STRING_SIZE <=? MENU_BUFLEN);
  ts ← update (strings m) (st_prev m) (set_st_next a);
  s ← need (scripts m !! sc m);
  let s' := {| scr := if num s =? 0 then Some a else scr s; num := num s + 1; title := title s;
               next := next s; prev := prev s |} in
  let t := config_lines + config_len m in
  let len := config_len m + Z.of_nat (length line) + 1 in
  _ ← require (len <=? config_room);
  let new := {| str_s := t; last_one := 1; st_next := 0; st_prev_ := st_prev m |} in
  Ret {| scripts := <[sc m := s']> (scripts m); strings := <[a := new]> ts; texts := <[t := line]> (texts m);
         menu_len := menu_len m + STRING_SIZE; config_len := len; section := section m; num_items := num_items m;
         menu_first := menu_first m; menu_last := menu_last m; sc := sc m; sc_prev := sc_prev m; st_prev := a |}.

Definition process_cfg_line1 (line : list Z) (x : menu_state * boot_state) : C (Z * (menu_state * boot_state)) :=
  let '(m, b) := x in
  if cur line =? 0 then Ret (1, (m, b))
  else if abbrev line (bstr "title") 5 then m ← add_title line m; Ret (1, (m, b))
  else if negb (section m =? 0) then m ← add_command line m; Ret (1, (m, b))
  else '(rc, b) ← exec_line line b; Ret (rc, (m, b)).

(** Before a configuration file is read.  [st_prev] is not among what is reset. *)
Definition init_menu (m : menu_state) : menu_state :=
  {| scripts := ∅; strings := ∅; texts := ∅; menu_len := 0; config_len := 0; section := 0; num_items := 0;
     menu_first := 0; menu_last := 0; sc := 0; sc_prev := 0; st_prev := st_prev m |}.
Definition init_vars (m : menu_state) (b : boot_state) : C (menu_state * boot_state) :=
  '(_, b) ← width_func (bstr "68") b; '(_, b) ← height_func (bstr "15") b; Ret (init_menu m, b).

(** *** Executing an item *)

(** The lines that belong to one command are put together in a buffer of 2048
    bytes; [line] is the pointer to the next one. *)
Fixpoint concat_lines (fuel : nat) (m : menu_state) (line : Z) (buf : list Z) : C (list Z * Z) :=
  match fuel with
  | O => NoFuel
  | S fuel =>
      n ← need (strings m !! line);
      s ← need (texts m !! str_s n);
      let buf := buf ++ s in
      _ ← require (Z.of_nat (length buf) <? 0x800);
      if last_one n =? 0 then concat_lines fuel m (st_next n) buf else Ret (buf, st_next n)
  end.

Fixpoint script_loop (n : nat) (m : menu_state) (line : Z) (b : boot_state) : C (Z * boot_state) :=
  match n with
  | O => Ret (1, b)
  | S n =>
      '(buf, line) ← concat_lines (S (size (strings m))) m line [];
      '(rc, b) ← exec_line buf b;
      if negb (rc =? 1) then Ret (rc, b) else script_loop n m line b
  end.

Definition exec_script (m : menu_state) (script : Z) (b : boot_state) : C (Z * boot_state) :=
  s ← need (scripts m !! script);
  if num s =? 0 then Ret (1, b) else line ← need (scr s); script_loop (Z.to_nat (num s)) m line b.

(** The loop of [exec_cfg] that goes to the item that was chosen, counted from 1. *)
Fixpoint run_item (itm : nat) (m : menu_state) (scr : Z) (b : boot_state) : C (Z * boot_state) :=
  match itm with
  | O => Ret (1, b)
  | S O => exec_script m scr b
  | S itm => s ← need (scripts m !! scr); run_item itm m (next s) b
  end.
End commands.

(** ** Choosing an item

    What [get_user_input] changes: the item, how far its title is moved, the
    state of the menu (0: menu, 1: command line, 2: editor) and how deep
    configuration files are nested. *)
Record view := { item : Z; shift : Z; state : Z; menu_nest_lvl : Z }.

Definition go_to (u : view) (i : Z) : view :=
  {| item := i; shift := shift u; state := state u; menu_nest_lvl := menu_nest_lvl u |}.
Definition move (u : view) (s : Z) : view :=
  {| item := item u; shift := s; state := state u; menu_nest_lvl := menu_nest_lvl u |}.
Definition set_state (u : view) (s : Z) : view :=
  {| item := item u; shift := shift u; state := s; menu_nest_lvl := menu_nest_lvl u |}.

(** The number of lines of the menu, from [draw_menu]. *)
Definition screen_items (menu_height num_items : Z) : Z :=
  if num_items <? menu_height then num_items + 1 else menu_height.

(** The height and width that [draw_watches] sets. *)
Definition draw_watches (b : boot_state) : boot_state :=
  let s := numbers b in
  with_numbers b (set_numbers s (default_item s) (menu_timeout s) 79 (Z.quot (2 * 24) 3 - 3)
                    (menu_colors s) (screen_colors s)).

(** [toggle_print_status]: whether some toggle has a variable. *)
Definition prints_something (t : toggle_state) : bool :=
  existsb (fun g => existsb (fun b => 0 <? nr_vars b) (take (Z.to_nat (nr_blocks g)) (blocks g)))
    (take (Z.to_nat (toggles_used t)) (toggle_data t)).

Definition with_process (t : toggle_state) (k : Z) (only : bool) : toggle_state :=
  {| variables := variables t; toggle_data := toggle_data t; toggles_used := toggles_used t; slot_no := slot_no t;
     prev_cmd := prev_cmd t; last_key_pressed := k; triggers_only := only |}.

(** [n] is [num_items], the number of the last item. *)
Definition get_user_input (c n : Z) (u : view) (b : boot_state) : C (Z * view * boot_state) :=
  let b := with_toggles b (with_process (toggles b) (last_key_pressed (toggles b)) false) in
  let w := menu_width (numbers b) in
  let lines := screen_items (menu_height (numbers b)) n in
  if c =? 0xe then let i := item u + 1 in Ret (1, go_to u (if n + 1 <=? i then 0 else i), b)
  else if c =? 0x10 then let i := item u - 1 in Ret (1, go_to u (if i <=? -1 then n else i), b)
  else if c =? 0x6 then Ret (1, (if - w <=? shift u then move u (shift u - 1) else u), b)
  else if c =? 0x2 then Ret (1, (if shift u <? 0 then move u (shift u + 1) else u), b)
  else if c =? 0x3 then let i := item u + (lines - 1) in Ret (1, go_to u (if n + 1 <=? i then 0 else i), b)
  else if c =? 0x7 then let i := item u - (lines - 1) in Ret (1, go_to u (if i <? 0 then n else i), b)
  else if (c =? 0x7400) || (c =? 0x5) then
    let s := shift u + 10 in Ret (1, move u (if 2 * w <=? s then w else s), b)
  else if (c =? 0x7300) || (c =? 0x1) then
    let s := shift u - 10 in Ret (1, move u (if s <? 0 then 0 else s), b)
  else if (c =? 0x3e00) || (c =? 0x1245) || (c =? 0x1265) then
    Ret (0, (if state u =? 0 then set_state u 2 else u), b)
  else if c =? 0x11b then Ret (0, (if state u =? 0 then set_state u (state u + 1) else u), b)
  else if c =? 0x1c0d then
    Ret (0, {| item := item u + 1; shift := shift u; state := state u; menu_nest_lvl := menu_nest_lvl u + 1 |}, b)
  else if c =? 0xe08 then
    if 0 <? menu_nest_lvl u then
      Ret (-1, {| item := item u; shift := shift u; state := 0; menu_nest_lvl := menu_nest_lvl u - 1 |},
           {| toggles := toggles b; var_expand_line_edit := var_expand_line_edit b; numbers := numbers b;
              curr_cfg := prev_cfg b; prev_cfg := []; modules := modules b |})
    else Ret (1, u, b)
  else if c =? 0x2d00 then Exit 0
  else
    let k := Z.land c 0xff in
    let b := with_toggles b (with_process (toggles b) k false) in
    '(ok, t) ← toggle_do_key (toggles b) k;
    let b := with_toggles b t in
    if negb ok then Ret (1, u, b)
    else
      let b := draw_watches b in
      if prints_something (toggles b) then
        Ret (-1, set_state u 0, with_toggles b (with_process (toggles b) k true))
      else Ret (1, u, b).

(** The loop of [exec_menu] over the keys that are pressed; [None] where it waits
    for one more. *)
Fixpoint menu_loop (keys : list Z) (n : Z) (u : view) (b : boot_state) : C (option (Z * view) * boot_state) :=
  match keys with
  | [] => Ret (None, b)
  | c :: keys =>
      '(t, u, b) ← get_user_input c n u b;
      if (t =? 0) || (t =? -1) then Ret (Some (t, u), b) else menu_loop keys n u b
  end.

(** The item that is chosen at first: [junk] is what the local variable holds, which
    is given a value only when [menu_item] is not 0. *)
Definition first_item (junk menu_item lines n default_item : Z) : Z :=
  let i := if negb (menu_item =? 0) then menu_item else junk in
  let i := if lines <=? i then n else i in
  if i =? 0 then default_item else i.

(** ** What the menu holds *)

(** A menu item: its title and its commands. *)
Abbreviation menu_item := (list Z * list (list Z))%type.

Definition all_commands (items : list menu_item) : list (list Z) := mjoin (snd <$> items).
(** How many commands there are before item [i]. *)
Definition offset (items : list menu_item) (i : nat) : nat := length (all_commands (take i items)).
Definition ptr (l : list Z) (i : nat) : Z := default 0 (l !! i).

Section menus.
Context (at_drive stale : list Z) (host : list Z -> handler) (config_lines config_room : Z).
Hypothesis Hcfg : MENU_BUF + MENU_BUFLEN <= config_lines.

(** An address of the menu buffer, or of the command lines, that is in use. *)
Definition in_menu (m : menu_state) (a : Z) : Prop := MENU_BUF <= a < MENU_BUF + menu_len m.
Definition in_config (m : menu_state) (a : Z) : Prop := config_lines <= a < config_lines + config_len m.

(** The structures of the items are at [ss], those of all commands at [ts]. *)
Record built (m : menu_state) (items : list menu_item) (ss ts : list Z) : Prop := {
  bu_section : section m = Z.of_nat (length items) /\ num_items m = Z.of_nat (length items);
  bu_lengths : length ss = length items /\ length ts = length (all_commands items);
  bu_ends : menu_first m = ptr ss 0 /\ sc m = default 0 (last ss) /\ sc_prev m = default 0 (last ss) /\
            st_prev m = default 0 (last ts);
  bu_script i t cs a : items !! i = Some (t, cs) -> ss !! i = Some a -> exists s, scripts m !! a = Some s /\
    texts m !! title s = Some t /\ num s = Z.of_nat (length cs) /\ next s = ptr ss (S i) /\
    (cs <> [] -> scr s = Some (ptr ts (offset items i)));
  bu_string j c a : all_commands items !! j = Some c -> ts !! j = Some a -> exists n, strings m !! a = Some n /\
    texts m !! str_s n = Some c /\ last_one n = 1 /\ st_next n = ptr ts (S j);
  bu_places : Forall (in_menu m) ss /\ Forall (in_menu m) ts;
  bu_nodup : NoDup ss /\ NoDup ts;
  bu_texts t x : texts m !! t = Some x -> in_menu m t \/ in_config m t;
  bu_used : 0 <= menu_len m <= MENU_BUFLEN /\ 0 <= config_len m
}.

Lemma last_lookup_ptr (l : list Z) a : last l = Some a -> l !! (length l - 1)%nat = Some a.
Proof. rewrite last_lookup. by replace (pred (length l)) with (length l - 1)%nat by lia. Qed.

Lemma ptr_snoc l a i : ptr (l ++ [a]) i = if decide (i = length l) then a else ptr l i.
Proof.
  unfold ptr. destruct (decide (i = length l)) as [->|Hi].
  - by rewrite lookup_app_r, Nat.sub_diag by lia.
  - destruct (Nat.lt_ge_cases i (length l)).
    + by rewrite lookup_app_l.
    + rewrite lookup_app_r by lia. destruct (i - length l)%nat as [|k] eqn:E; [lia|]. cbn.
      by rewrite (lookup_ge_None_2 l i) by lia.
Qed.

(** Addresses of structures are not null. *)
Lemma update_last {A} (M : gmap Z A) (l : list Z) f :
  (forall a, a ∈ l -> a <> 0) -> (forall a, a ∈ l -> is_Some (M !! a)) -> exists M',
  update M (default 0 (last l)) f = Ret M' /\
  forall b, M' !! b = if decide (last l = Some b) then f <$> M !! b else M !! b.
Proof.
  intros Hnz Hin. unfold update. destruct (last l) as [a|] eqn:E; cbn [default from_option id].
  - assert (Ha : a ∈ l) by (by apply last_Some_elem_of). destruct (Z.eqb_spec a 0); [by destruct (Hnz a Ha)|].
    destruct (Hin a Ha) as [x Hx]. rewrite Hx. cbn [need mbind C_bind]. eexists. split; [done|].
    intros b. destruct (decide (Some a = Some b)) as [[= ->]|Hne].
    + by rewrite lookup_insert_eq, Hx.
    + rewrite lookup_insert_ne; [done|]. by intros ->.
  - exists M. split; [done|]. intros b. by rewrite decide_False.
Qed.

Lemma all_commands_snoc items t cs : all_commands (items ++ [(t, cs)]) = all_commands items ++ cs.
Proof. unfold all_commands. rewrite fmap_app, join_app. cbn. by rewrite app_nil_r. Qed.

Lemma offset_snoc items x i : (i <= length items)%nat -> offset (items ++ [x]) i = offset items i.
Proof. intros Hi. unfold offset. by rewrite take_app_le. Qed.

Lemma MENU_BUF_pos : 0 < MENU_BUF.
Proof. done. Qed.

Lemma built_nonzero m items ss ts : built m items ss ts -> (forall a, a ∈ ss -> a <> 0) /\ (forall a, a ∈ ts -> a <> 0).
Proof.
  intros H. destruct (bu_places _ _ _ _ H) as [H1 H2]. rewrite Forall_forall in H1, H2. pose proof MENU_BUF_pos.
  split; intros a Ha; [specialize (H1 a Ha)|specialize (H2 a Ha)]; unfold in_menu in *; lia.
Qed.

Lemma built_scripts m items ss ts a : built m items ss ts -> a ∈ ss -> is_Some (scripts m !! a).
Proof.
  intros H [i Hi]%list_elem_of_lookup. destruct (bu_lengths _ _ _ _ H) as [Hl _].
  destruct (lookup_lt_is_Some_2 items i) as [[t cs] Hx]; [rewrite <- Hl; by eapply lookup_lt_Some|].
  destruct (bu_script _ _ _ _ H i t cs a Hx Hi) as (s & -> & _). by exists s.
Qed.

Lemma built_strings m items ss ts a : built m items ss ts -> a ∈ ts -> is_Some (strings m !! a).
Proof.
  intros H [i Hi]%list_elem_of_lookup. destruct (bu_lengths _ _ _ _ H) as [_ Hl].
  destruct (lookup_lt_is_Some_2 (all_commands items) i) as [c Hx]; [rewrite <- Hl; by eapply lookup_lt_Some|].
  destruct (bu_string _ _ _ _ H i c a Hx Hi) as (s & -> & _). by exists s.
Qed.

Lemma last_index (l : list Z) i a : NoDup l -> l !! i = Some a -> last l = Some a <-> S i = length l.
Proof.
  intros Hnd Hi. pose proof (lookup_lt_Some _ _ _ Hi). split.
  - intros Hl%last_lookup_ptr. pose proof (NoDup_lookup _ _ _ _ Hnd Hi Hl). lia.
  - intros Hl. rewrite last_lookup. by replace (pred (length l)) with i by lia.
Qed.

Definition title_size (t : list Z) : Z := Z.of_nat (length t) + 1 + SCRIPT_SIZE.

Lemma fresh_texts m items ss ts t : built m items ss ts -> ~ in_menu m t -> ~ in_config m t -> texts m !! t = None.
Proof.
  intros H Hn Hc. destruct (texts m !! t) as [x|] eqn:E; [|done]. by destruct (bu_texts _ _ _ _ H t x E).
Qed.

Lemma last_default (l : list Z) a : default 0 (last (l ++ [a])) = a.
Proof. by rewrite last_snoc. Qed.

Lemma add_title_spec m items ss ts line : built m items ss ts ->
  menu_len m + title_size (skip_to true line) <= MENU_BUFLEN -> exists m' a,
  add_title line m = Ret m' /\ built m' (items ++ [(skip_to true line, [])]) (ss ++ [a]) ts /\
  menu_len m' = menu_len m + title_size (skip_to true line) /\ config_len m' = config_len m.
Proof.
  intros H Hfit. set (s := skip_to true line) in *. unfold add_title. fold s. cbv zeta.
  set (t := MENU_BUF + menu_len m). set (len := menu_len m + Z.of_nat (length s) + 1). set (a := MENU_BUF + len).
  unfold title_size in Hfit. destruct (Z.leb_spec (len + SCRIPT_SIZE) MENU_BUFLEN); [|lia].
  cbn [require mbind C_bind]. destruct (built_nonzero _ _ _ _ H) as [Hnz _].
  destruct (bu_ends _ _ _ _ H) as (Ef & Es & Ep & Et). rewrite Ep.
  destruct (update_last (scripts m) ss (set_next a) Hnz) as (M & EM & HM).
  { intros x Hx. by eapply built_scripts. }
  rewrite EM. cbn [mbind C_bind]. eexists _, a. split; [done|].
  destruct (bu_places _ _ _ _ H) as [Hss Hts]. destruct (bu_lengths _ _ _ _ H) as [Hl1 Hl2].
  destruct (bu_section _ _ _ _ H) as [Hsec Hnum]. destruct (bu_nodup _ _ _ _ H) as [Nss Nts].
  destruct (bu_used _ _ _ _ H) as [Hu Hu'].
  assert (Hsize : SCRIPT_SIZE = 20) by done.
  assert (Hnew : forall x, x ∈ ss -> x <> a).
  { intros x Hx ->. rewrite Forall_forall in Hss. specialize (Hss a Hx). unfold in_menu in Hss. lia. }
  assert (Hold : forall p x, texts m !! p = Some x -> p <> t).
  { intros p x Hx ->. rewrite (fresh_texts _ _ _ _ t H) in Hx; [done| |]; unfold in_menu, in_config; lia. }
  split; [|cbn [menu_len config_len]; unfold title_size; split; lia].
  split; cbn [section num_items menu_first sc sc_prev st_prev scripts strings texts menu_len config_len].
  - rewrite !length_app. cbn [length]. lia.
  - rewrite !length_app, all_commands_snoc, app_nil_r. cbn [length]. lia.
  - rewrite !last_default. split_and!; [|done|done|done]. rewrite Hsec. destruct ss as [|a0 ss].
    + rewrite <- Hl1. done.
    + destruct (Z.eqb_spec (Z.of_nat (length items) + 1) 1); [cbn in Hl1; lia|]. by rewrite Ef.
  - intros i t0 cs x Hi Hx. 
    apply lookup_snoc_Some in Hi as [[Hi Hi']|[-> [= <- <-]]].
    + rewrite lookup_app_l in Hx by lia. destruct (bu_script _ _ _ _ H i t0 cs x Hi' Hx) as (s0 & E0 & E1 & E2 & E3 & E4).
      assert (Hxa : a <> x) by (apply not_eq_sym, Hnew; by eapply list_elem_of_lookup_2).
      rewrite lookup_insert_ne by done. rewrite HM, E0.
      assert (Htx : <[t := s]> (texts m) !! title s0 = Some t0).
      { rewrite lookup_insert_ne; [done|]. apply not_eq_sym. by eapply Hold. }
      rewrite offset_snoc by lia. rewrite ptr_snoc.
      destruct (decide (last ss = Some x)) as [Hlast|Hlast].
      * exists (set_next a s0). apply (last_index ss i x Nss Hx) in Hlast. rewrite Hlast, decide_True by done. done.
      * exists s0. rewrite decide_False; [done|]. intros E. apply Hlast. by apply (last_index ss i x Nss Hx).
    + rewrite lookup_app_r, Hl1, Nat.sub_diag in Hx by lia. injection Hx as <-. rewrite lookup_insert_eq.
      eexists. split; [done|]. cbn [title num next scr]. rewrite lookup_insert_eq. split_and!; [done|done| |done].
      rewrite ptr_snoc, decide_False by lia. unfold ptr. by rewrite lookup_ge_None_2 by lia.
  - intros j c x Hj Hx. rewrite all_commands_snoc, app_nil_r in Hj.
    destruct (bu_string _ _ _ _ H j c x Hj Hx) as (n & E0 & E1 & E2). exists n. split; [done|].
    rewrite lookup_insert_ne; [done|]. apply not_eq_sym. by eapply Hold.
  - split; [apply Forall_app; split|]; [|apply Forall_singleton; unfold in_menu; cbn [menu_len]; lia|];
      (eapply Forall_impl; [eassumption|]); intros x; unfold in_menu; cbn [menu_len]; lia.
  - split; [|done]. apply NoDup_app. split_and!; [done| |apply NoDup_singleton].
    intros x Hx Hx'. apply list_elem_of_singleton in Hx' as ->. by apply (Hnew a).
  - intros p x. destruct (decide (p = t)) as [->|Hp].
    + intros _. left. unfold in_menu. cbn [menu_len]. lia.
    + rewrite lookup_insert_ne by done. intros [Hx|Hx]%(bu_texts _ _ _ _ H); [left|by right].
      unfold in_menu in *. cbn [menu_len]. lia.
  - lia.
Qed.

Lemma offset_last pre x : offset (pre ++ [x]) (length pre) = length (all_commands pre).
Proof. unfold offset. by rewrite take_app_length. Qed.

Lemma offset_change pre x y i : (i <= length pre)%nat -> offset (pre ++ [x]) i = offset (pre ++ [y]) i.
Proof. intros Hi. by rewrite !offset_snoc. Qed.

Lemma ptr_app l a i : (i < length l)%nat -> ptr (l ++ [a]) i = ptr l i.
Proof. intros Hi. rewrite ptr_snoc. by rewrite decide_False by lia. Qed.

Lemma add_command_spec m pre t0 cs ss ts line : built m (pre ++ [(t0, cs)]) ss ts ->
  menu_len m + STRING_SIZE <= MENU_BUFLEN -> config_len m + Z.of_nat (length line) + 1 <= config_room ->
  exists m' a,
  add_command config_lines config_room line m = Ret m' /\ built m' (pre ++ [(t0, cs ++ [line])]) ss (ts ++ [a]) /\
  menu_len m' = menu_len m + STRING_SIZE /\ config_len m' = config_len m + Z.of_nat (length line) + 1.
Proof.
  intros H Hfit Hroom. unfold add_command. cbv zeta.
  set (a := MENU_BUF + menu_len m). set (t := config_lines + config_len m).
  destruct (Z.leb_spec (menu_len m + STRING_SIZE) MENU_BUFLEN); [|lia]. cbn [require mbind C_bind].
  destruct (built_nonzero _ _ _ _ H) as [_ Hnz].
  destruct (bu_ends _ _ _ _ H) as (Ef & Es & Ep & Et). rewrite Et.
  destruct (update_last (strings m) ts (set_st_next a) Hnz) as (M & EM & HM).
  { intros x Hx. by eapply built_strings. }
  rewrite EM. cbn [mbind C_bind].
  destruct (bu_places _ _ _ _ H) as [Hss Hts]. destruct (bu_lengths _ _ _ _ H) as [Hl1 Hl2].
  destruct (bu_section _ _ _ _ H) as [Hsec Hnum]. destruct (bu_nodup _ _ _ _ H) as [Nss Nts].
  destruct (bu_used _ _ _ _ H) as [Hu Hu']. rewrite length_app in Hl1, Hsec, Hnum. cbn [length] in Hl1, Hsec, Hnum.
  rewrite all_commands_snoc, length_app in Hl2.
  assert (Hsize : STRING_SIZE = 16) by done.
  destruct (lookup_lt_is_Some_2 ss (length pre)) as [c0 Hc0]; [lia|].
  assert (Esc : sc m = c0) by (rewrite Es, (proj2 (last_index ss _ c0 Nss Hc0)); [done|lia]).
  destruct (bu_script _ _ _ _ H (length pre) t0 cs c0) as (s0 & E0 & E1 & E2 & E3 & E4);
    [by rewrite lookup_app_r, Nat.sub_diag by lia|done|].
  rewrite Esc, E0. cbn [need mbind C_bind].
  destruct (Z.leb_spec (config_len m + Z.of_nat (length line) + 1) config_room); [|lia]. cbn [require mbind C_bind].
  eexists _, a. split; [done|].
  assert (Hnew : forall x, x ∈ ts -> x <> a).
  { intros x Hx ->. rewrite Forall_forall in Hts. specialize (Hts a Hx). unfold in_menu in Hts. lia. }
  assert (Hold : forall p x, texts m !! p = Some x -> t <> p).
  { intros p x Hx <-. rewrite (fresh_texts _ _ _ _ t H) in Hx; [done| |]; unfold in_menu, in_config; lia. }
  split; [|cbn [menu_len config_len]; split; lia].
  split; cbn [section num_items menu_first sc sc_prev st_prev scripts strings texts menu_len config_len].
  - rewrite !length_app. cbn [length]. lia.
  - rewrite !length_app, all_commands_snoc, !length_app. cbn [length]. lia.
  - rewrite last_default. split_and!; congruence.
  - intros i t1 cs1 x Hi Hx. destruct (decide (i = length pre)) as [->|Hne].
    + rewrite lookup_app_r, Nat.sub_diag in Hi by lia. injection Hi as <- <-.
      assert (x = c0) as -> by congruence. rewrite lookup_insert_eq. eexists. split; [done|].
      cbn [title num next scr]. rewrite lookup_insert_ne by (by eapply Hold). rewrite offset_last.
      split_and!; [done|rewrite length_app; cbn [length]; lia|done|]. intros _. destruct cs as [|c1 cs].
      * rewrite E2. cbn [length]. change (Z.of_nat 0 =? 0) with true. cbv iota. rewrite ptr_snoc, decide_True; [done|].
        rewrite Hl2. cbn. lia.
      * rewrite E2. cbn [length]. destruct (Z.eqb_spec (Z.of_nat (S (length cs))) 0); [lia|].
        rewrite E4 by done. rewrite offset_last. rewrite ptr_app; [done|]. rewrite Hl2. cbn. lia.
    + assert (Hip : (i < length pre)%nat).
      { apply lookup_lt_Some in Hi. rewrite length_app in Hi. cbn in Hi. lia. }
      rewrite lookup_app_l in Hi by done.
      destruct (bu_script _ _ _ _ H i t1 cs1 x) as (s1 & F0 & F1 & F2 & F3 & F4);
        [by rewrite lookup_app_l|done|].
      exists s1. rewrite lookup_insert_ne.
      * split; [done|]. rewrite lookup_insert_ne by (by eapply Hold). split_and!; [done|done|done|].
        intros Hcs. rewrite F4 by done. rewrite (offset_change pre (t0, cs ++ [line]) (t0, cs)) by lia.
        rewrite ptr_app; [done|]. rewrite Hl2, offset_snoc by lia.
        assert (offset pre i < length (all_commands pre))%nat; [|lia].
        unfold offset, all_commands. rewrite <- (take_drop i pre) at 2. rewrite fmap_app, join_app, length_app.
        rewrite (drop_S pre _ i Hi). cbn [fmap list_fmap mjoin list_join]. rewrite length_app.
        destruct cs1; [done|]. cbn. lia.
      * intros <-. apply Hne. eapply NoDup_lookup; [exact Nss|exact Hx|exact Hc0].
  - intros j c x Hj Hx. rewrite all_commands_snoc, app_assoc in Hj.
    apply lookup_snoc_Some in Hj as [[Hj Hj']|[-> <-]].
    + rewrite length_app in Hj. rewrite lookup_app_l in Hx by lia.
      destruct (bu_string _ _ _ _ H j c x) as (n & F0 & F1 & F2 & F3); [by rewrite all_commands_snoc|done|].
      assert (Hxa : a <> x) by (apply not_eq_sym, Hnew; by eapply list_elem_of_lookup_2).
      rewrite lookup_insert_ne by done. rewrite HM, F0.
      assert (Htx : <[t := line]> (texts m) !! str_s n = Some c).
      { rewrite lookup_insert_ne; [done|]. by eapply Hold. }
      rewrite ptr_snoc. destruct (decide (last ts = Some x)) as [Hlast|Hlast].
      * exists (set_st_next a n). apply (last_index ts j x Nts Hx) in Hlast. rewrite Hlast, decide_True by done. done.
      * exists n. rewrite decide_False; [done|]. intros E. apply Hlast. by apply (last_index ts j x Nts Hx).
    + rewrite lookup_app_r in Hx by (rewrite length_app; lia).
      rewrite length_app, <- Hl2, Nat.sub_diag in Hx. injection Hx as <-.
      rewrite lookup_insert_eq. eexists. split; [done|]. cbn [str_s last_one st_next]. rewrite lookup_insert_eq.
      split_and!; [done|done|]. rewrite ptr_snoc, decide_False by (rewrite length_app; lia). unfold ptr.
      rewrite lookup_ge_None_2 by (rewrite length_app; lia). done.
  - split; [|apply Forall_app; split; [|apply Forall_singleton; unfold in_menu; cbn [menu_len]; lia]];
      (eapply Forall_impl; [eassumption|]); intros x; unfold in_menu; cbn [menu_len]; lia.
  - split; [done|]. apply NoDup_app. split_and!; [done| |apply NoDup_singleton].
    intros x Hx Hx'. apply list_elem_of_singleton in Hx' as ->. by apply (Hnew a).
  - intros p x. destruct (decide (p = t)) as [->|Hp].
    + intros _. right. unfold in_config. cbn [config_len]. lia.
    + rewrite lookup_insert_ne by done. intros [Hx|Hx]%(bu_texts _ _ _ _ H); [left|right];
        unfold in_menu, in_config in *; cbn [menu_len config_len]; lia.
  - lia.
Qed.

(** *** Reading the lines *)

Definition is_title (line : list Z) : bool := abbrev line (bstr "title") 5.

(** The commands before the first title, and the items. *)
Fixpoint item_lines (ls : list (list Z)) : list (list Z) * list menu_item :=
  match ls with
  | [] => ([], [])
  | l :: ls =>
      let '(cs, items) := item_lines ls in
      if cur l =? 0 then (cs, items)
      else if is_title l then ([], (skip_to true l, cs) :: items) else (l :: cs, items)
  end.

(** What the items take of the two buffers. *)
Definition menu_size (items : list menu_item) : Z :=
  foldr (fun i n => title_size i.1 + STRING_SIZE * Z.of_nat (length i.2) + n) 0 items.
Definition lines_size (cs : list (list Z)) : Z := foldr (fun c n => Z.of_nat (length c) + 1 + n) 0 cs.

Lemma lines_size_app a b : lines_size (a ++ b) = lines_size a + lines_size b.
Proof. induction a; cbn in *; unfold lines_size in *; lia. Qed.
Lemma lines_size_pos a : 0 <= lines_size a.
Proof. induction a; cbn in *; unfold lines_size in *; lia. Qed.
Lemma menu_size_pos items : 0 <= menu_size items.
Proof.
  induction items as [|[t cs] l IH]; cbn [menu_size foldr fst snd]; [lia|]. fold (menu_size l).
  unfold title_size, SCRIPT_SIZE, STRING_SIZE. lia.
Qed.

Definition fits_menu (m : menu_state) (cs : list (list Z)) (items : list menu_item) : Prop :=
  menu_len m + STRING_SIZE * Z.of_nat (length cs) + menu_size items <= MENU_BUFLEN /\
  config_len m + lines_size cs + lines_size (all_commands items) <= config_room.

(** A title makes room for its item. *)
Lemma fits_title m l cs items : fits_menu m [] ((skip_to true l, cs) :: items) -> 
  menu_len m + title_size (skip_to true l) <= MENU_BUFLEN /\
  forall m1, menu_len m1 = menu_len m + title_size (skip_to true l) -> config_len m1 = config_len m ->
    fits_menu m1 cs items.
Proof.
  intros [F1 F2]. change (menu_size (_ :: items)) with
    (title_size (skip_to true l) + STRING_SIZE * Z.of_nat (length cs) + menu_size items) in F1.
  change (all_commands ((skip_to true l, cs) :: items)) with (cs ++ all_commands items) in F2.
  rewrite lines_size_app in F2. change (lines_size []) with 0 in F2. cbn [length] in F1.
  pose proof (menu_size_pos items). unfold STRING_SIZE, fits_menu in *. split; [lia|].
  intros m1 -> ->. unfold STRING_SIZE. lia.
Qed.

#[local] Abbreviation line1 := (process_cfg_line1 at_drive stale host config_lines config_room).
#[local] Abbreviation exec := (exec_line at_drive stale host).

Lemma line1_cases l m b : line1 l (m, b) =
  if cur l =? 0 then Ret (1, (m, b))
  else if is_title l then m ← add_title l m; Ret (1, (m, b))
  else if negb (section m =? 0) then m ← add_command config_lines config_room l m; Ret (1, (m, b))
  else '(rc, b) ← exec l b; Ret (rc, (m, b)).
Proof. reflexivity. Qed.

Lemma lines_run ls : forall m b pre t cs ss ts, built m (pre ++ [(t, cs)]) ss ts ->
  fits_menu m (item_lines ls).1 (item_lines ls).2 -> exists m' ss' ts',
  exec_lines line1 ls (m, b) = Ret (1, (m', b)) /\
  built m' (pre ++ (t, cs ++ (item_lines ls).1) :: (item_lines ls).2) ss' ts'.
Proof.
  induction ls as [|l ls IH]; intros m b pre t cs ss ts H [F1 F2].
  { exists m, ss, ts. cbn. by rewrite app_nil_r. }
  cbn [exec_lines item_lines] in *. rewrite line1_cases. destruct (item_lines ls) as [cs1 items1] eqn:Ei.
  assert (Hsec : section m <> 0).
  { destruct (bu_section _ _ _ _ H) as [-> _]. rewrite length_app. cbn. lia. }
  destruct (Z.eqb_spec (cur l) 0) as [|Hl0].
  - cbn [fst snd mbind C_bind] in *. by apply (IH m b pre t cs ss ts H).
  - destruct (is_title l) eqn:Et; cbn [fst snd] in *.
    + destruct (fits_title m l cs1 items1 (conj F1 F2)) as [Fit Frest].
      destruct (add_title_spec m _ ss ts l H Fit) as (m1 & a & E & H1 & L1 & L2).
      rewrite E. cbn [mbind C_bind]. change (1 =? 0) with false. cbv iota.
      destruct (IH m1 b _ _ [] _ _ H1 (Frest m1 L1 L2)) as (m' & ss' & ts' & E' & H').
      exists m', ss', ts'. split; [done|]. cbn [fst snd] in H'. rewrite app_nil_r. rewrite <- app_assoc in H'. exact H'.
    + cbn [length lines_size foldr] in F1, F2. fold (lines_size cs1) in F2.
      destruct (Z.eqb_spec (section m) 0); [done|]. cbn [negb].
      destruct (add_command_spec m pre t cs ss ts l H) as (m1 & a & E & H1 & L1 & L2).
      { pose proof (menu_size_pos items1). unfold STRING_SIZE in *. lia. }
      { pose proof (lines_size_pos cs1). pose proof (lines_size_pos (all_commands items1)). lia. }
      rewrite E. cbn [mbind C_bind]. change (1 =? 0) with false. cbv iota.
      destruct (IH m1 b pre t _ _ _ H1) as (m' & ss' & ts' & E' & H').
      { cbn [fst snd]. split; unfold STRING_SIZE in *; lia. }
      exists m', ss', ts'. split; [done|]. cbn [fst snd] in H'. by rewrite <- app_assoc in H'.
Qed.

(** The menu is that of the items, and the state of the commands is as given; when
    a command failed no menu is made. *)
Definition menu_result (items : list menu_item) (x : Z * (menu_state * boot_state)) (y : Z * boot_state) : Prop :=
  x.1 = y.1 /\ x.2.2 = y.2 /\ (y.1 = 1 -> exists ss ts, built x.2.1 items ss ts).

Lemma exec_line_empty l b : cur l = 0 -> exec l b = Ret (1, b).
Proof. intros E. unfold exec_line. by rewrite E, Z.eqb_refl. Qed.

Lemma menu_run ls : forall m b, built m [] [] [] -> fits_menu m [] (item_lines ls).2 ->
  same_run (menu_result (item_lines ls).2) (exec_lines line1 ls (m, b)) (exec_lines exec (item_lines ls).1 b).
Proof.
  induction ls as [|l ls IH]; intros m b H F.
  { split; [done|]. split; [done|]. intros _. by exists [], []. }
  cbn [exec_lines item_lines] in *. rewrite line1_cases.
  destruct (item_lines ls) as [cs items] eqn:Ei. cbn [fst snd] in *.
  destruct (bu_section _ _ _ _ H) as [Hsec _].
  destruct (Z.eqb_spec (cur l) 0) as [Hl0|Hl0].
  - cbn [fst snd mbind C_bind] in *. change (1 =? 0) with false. cbv iota. by apply IH.
  - destruct (is_title l) eqn:Et; cbn [fst snd] in *.
    + destruct (fits_title m l cs items F) as [Fit Frest].
      destruct (add_title_spec m _ [] [] l H Fit) as (m1 & a & E & H1 & L1 & L2).
      rewrite E. cbn [mbind C_bind]. change (1 =? 0) with false. cbv iota.
      destruct (lines_run ls m1 b [] _ [] _ _ H1) as (m' & ss' & ts' & E' & H').
      { rewrite Ei. by apply Frest. }
      rewrite E'. rewrite Ei in H'. cbn [app fst snd exec_lines] in *. split; [done|]. split; [done|].
      intros _. by exists ss', ts'.
    + rewrite Hsec. cbn [length]. change (Z.of_nat 0 =? 0) with true. cbn [negb exec_lines].
      destruct (exec l b) as [[rc b1]| | |]; try done. cbn [mbind C_bind].
      destruct (Z.eqb_spec rc 0); [split; [done|split; [done|done]]|]. by apply IH.
Qed.

(** C12: Reading the first configuration file, one that [process_cfg] can read and whose
    menu fits into the buffers, executes the commands before the first title and makes
    the menu of the items behind it: for each title, in their order, the commands up to
    the next one.  When a command fails, reading ends.  Before a later file the pointer
    to the last command is not reset, so that the menu is not empty ([stale_command]). *)
Theorem menu_from_file below file after ls old st m b :
  readable_file below file after ls old -> holds [] [] st -> built m [] [] [] ->
  fits_menu m [] (item_lines (logical [] (fst <$> ls))).2 ->
  same_run (fun x y => menu_result (item_lines (logical [] (fst <$> ls))).2 (x.1.1, x.2) y)
    (process_cfg below line1 (Some (Z.of_nat (length file))) (disk_read file) after old st (m, b))
    (exec_lines exec (item_lines (logical [] (fst <$> ls))).1 b).
Proof.
  intros Hf Hst Hm Hfit.
  pose proof (process_cfg_run below line1 file after ls old st (m, b) Hf Hst) as H1.
  pose proof (menu_run (logical [] (fst <$> ls)) m b Hm Hfit) as H2.
  rewrite <- (consume_file line1 ls [] (m, b) (rf_lines _ _ _ _ _ Hf)), <- (rf_file _ _ _ _ _ Hf) in H2.
  destruct (process_cfg _ _ _ _ _ _ _ _) as [[[rc st1] x1]| | |],
    (consume line1 [] [] file (m, b)) as [[[[ok p] a] x2]| | |]; try done.
  - destruct H1 as (-> & -> & _). exact H2.
  - cbn in H1. subst. exact H2.
Qed.

(** *** Executing an item *)

(** The commands one after the other, while each of them succeeds. *)
Fixpoint run_commands (cs : list (list Z)) (b : boot_state) : C (Z * boot_state) :=
  match cs with
  | [] => Ret (1, b)
  | c :: cs => '(rc, b) ← exec c b; if negb (rc =? 1) then Ret (rc, b) else run_commands cs b
  end.

Definition short (c : list Z) : Prop := Z.of_nat (length c) < 0x800.

Lemma script_loop_spec m items ss ts cs : forall j b, built m items ss ts -> Forall short cs ->
  take (length cs) (drop j (all_commands items)) = cs ->
  script_loop at_drive stale host (length cs) m (ptr ts j) b = run_commands cs b.
Proof.
  induction cs as [|c cs IH]; intros j b H Hs Hd; [done|]. apply Forall_cons_1 in Hs as [Hc Hs].
  assert (Hj : all_commands items !! j = Some c).
  { rewrite <- (Nat.add_0_r j), <- lookup_drop. destruct (drop j (all_commands items)); [done|]. by injection Hd as ->. }
  destruct (bu_lengths _ _ _ _ H) as [_ Hl].
  destruct (lookup_lt_is_Some_2 ts j) as [a Ha]; [rewrite Hl; by eapply lookup_lt_Some|].
  destruct (bu_string _ _ _ _ H j c a Hj Ha) as (n & E0 & E1 & E2 & E3).
  cbn [length script_loop concat_lines]. unfold ptr at 1. rewrite Ha. cbn [default from_option id].
  rewrite E0. cbn [need mbind C_bind]. rewrite E1. cbn [need mbind C_bind app].
  unfold short in Hc. destruct (Z.ltb_spec (Z.of_nat (length c)) 0x800); [|lia]. cbn [require mbind C_bind].
  rewrite E2. change (1 =? 0) with false. cbn [mbind C_bind run_commands].
  destruct (exec_line at_drive stale host c b) as [[rc b1]| | |]; try done. cbn [mbind C_bind].
  destruct (negb (rc =? 1)); [done|]. rewrite E3. apply IH; [done|done|].
  replace (drop (S j) (all_commands items)) with (tail (drop j (all_commands items))).
  - destruct (drop j (all_commands items)); [done|]. cbn in Hd. by injection Hd as _ Hd.
  - rewrite <- Nat.add_1_r, <- drop_drop. by destruct (drop j _).
Qed.

Lemma item_commands items i t cs : items !! i = Some (t, cs) ->
  take (length cs) (drop (offset items i) (all_commands items)) = cs.
Proof.
  intros Hi. unfold offset, all_commands. rewrite <- (take_drop_middle items i _ Hi) at 2.
  rewrite fmap_app, join_app, fmap_cons. cbn [mjoin list_join snd]. rewrite drop_app_length. by rewrite take_app_length.
Qed.

Lemma exec_script_spec m items ss ts i t cs a b : built m items ss ts -> items !! i = Some (t, cs) ->
  ss !! i = Some a -> Forall short cs -> exec_script at_drive stale host m a b = run_commands cs b.
Proof.
  intros H Hi Ha Hs. destruct (bu_script _ _ _ _ H i t cs a Hi Ha) as (s & E0 & _ & E2 & _ & E4).
  unfold exec_script. rewrite E0. cbn [need mbind C_bind]. rewrite E2. destruct cs as [|c cs]; [done|].
  destruct (Z.eqb_spec (Z.of_nat (length (c :: cs))) 0); [done|]. rewrite E4 by done. cbn [need mbind C_bind].
  rewrite Nat2Z.id. by eapply script_loop_spec; [|done|apply (item_commands items i t)].
Qed.

(** Going to an item of the menu executes its commands and no others. *)
Lemma run_item_spec m items ss ts i t cs b : built m items ss ts -> items !! i = Some (t, cs) -> Forall short cs ->
  run_item at_drive stale host (S i) m (menu_first m) b = run_commands cs b.
Proof.
  intros H Hi Hs. destruct (bu_ends _ _ _ _ H) as (-> & _). destruct (bu_lengths _ _ _ _ H) as [Hl _].
  enough (Hgo : forall k j, (j + k = i)%nat ->
    run_item at_drive stale host (S k) m (ptr ss j) b = run_commands cs b) by (by apply (Hgo i 0%nat)).
  assert (Hat : forall j, (j <= i)%nat -> exists a, ss !! j = Some a /\ ptr ss j = a).
  { intros j Hj. destruct (lookup_lt_is_Some_2 ss j) as [a Ha]; [apply lookup_lt_Some in Hi; lia|].
    exists a. unfold ptr. by rewrite Ha. }
  induction k as [|k IH]; intros j Hj.
  - rewrite Nat.add_0_r in Hj. subst j. destruct (Hat i) as (a & Ha & ->); [lia|].
    cbn [run_item]. by eapply exec_script_spec.
  - destruct (Hat j) as (a & Ha & Ep); [lia|]. cbn [run_item]. rewrite Ep.
    destruct (lookup_lt_is_Some_2 items j) as [[t' cs'] Hx]; [apply lookup_lt_Some in Hi; lia|].
    destruct (bu_script _ _ _ _ H j t' cs' a Hx Ha) as (s & -> & _ & _ & E3 & _). cbn [need mbind C_bind].
    rewrite E3. apply (IH (S j)). lia.
Qed.
End menus.

(** ** Keys *)

(** The height of the menu stays positive and the item on the menu, or, where [lo] is
    -1, above its first item, as it is without the command [default]. *)
Record on_menu (lo n : Z) (u : view) (b : boot_state) : Prop := {
  om_first : -1 <= lo <= 0;
  om_last : 0 <= n;
  om_item : lo <= item u <= n;
  om_height : 1 <= menu_height (numbers b)
}.

Lemma screen_items_pos h n : 0 <= n -> 1 <= h -> 1 <= screen_items h n.
Proof. unfold screen_items. destruct (Z.ltb_spec n h); lia. Qed.

Lemma toggle_do_key_numbers (b : boot_state) t : numbers (with_toggles b t) = numbers b.
Proof. done. Qed.

(** What a key leads to: the menu again, an item that is on the menu, or, when the
    state is no longer that of the menu or the result is -1, something else. *)
Lemma get_user_input_spec c lo n u b t u' b' : on_menu lo n u b -> state u = 0 ->
  get_user_input c n u b = Ret (t, u', b') ->
  (t = 1 /\ on_menu lo n u' b' /\ state u' = 0) \/
  (t = 0 /\ state u' = 0 /\ lo + 1 <= item u' <= n + 1) \/ (t = 0 /\ state u' <> 0) \/ t = -1.
Proof.
  intros [Hlo Hn Hi Hh] Hs. unfold get_user_input. cbv zeta.
  pose proof (screen_items_pos (menu_height (numbers b)) n ltac:(lia) Hh) as Hl.
  set (b1 := with_toggles b _). change (numbers b1) with (numbers b). rewrite Hs. change (0 =? 0) with true. cbv iota.
  assert (Hgo : forall i, lo <= i <= n -> on_menu lo n (go_to u i) b1) by (by split).
  assert (Hmv : forall i, on_menu lo n (move u i) b1) by (by split).
  assert (Hb1 : on_menu lo n u b1) by (by split).
  destruct (c =? 0xe). { intros [= <- <- <-]. left. split; [done|]. split; [|done]. apply Hgo. destruct (Z.leb_spec (n + 1) (item u + 1)); lia. }
  destruct (c =? 0x10). { intros [= <- <- <-]. left. split; [done|]. split; [|done]. apply Hgo. destruct (Z.leb_spec (item u - 1) (-1)); lia. }
  destruct (c =? 0x6). { intros [= <- <- <-]. left. by destruct (_ <=? _). }
  destruct (c =? 0x2). { intros [= <- <- <-]. left. by destruct (_ <? _). }
  destruct (c =? 0x3). { intros [= <- <- <-]. left. split; [done|]. split; [|done]. apply Hgo. destruct (Z.leb_spec (n + 1) (item u + (screen_items (menu_height (numbers b)) n - 1))); lia. }
  destruct (c =? 0x7). { intros [= <- <- <-]. left. split; [done|]. split; [|done]. apply Hgo. destruct (Z.ltb_spec (item u - (screen_items (menu_height (numbers b)) n - 1)) 0); lia. }
  destruct (_ || _). { intros [= <- <- <-]. left. by destruct (_ <=? _). }
  destruct (_ || _). { intros [= <- <- <-]. left. by destruct (_ <? _). }
  destruct (_ || _). { intros [= <- <- <-]. right. by right; left. }
  destruct (c =? 0x11b). { intros [= <- <- <-]. right. by right; left. }
  destruct (c =? 0x1c0d). { intros [= <- <- <-]. right. left. cbn. split_and!; [done|done|lia|lia]. }
  destruct (c =? 0xe08). { destruct (_ <? _); intros [= <- <- <-]; [by do 3 right|by left]. }
  destruct (c =? 0x2d00); [done|]. set (k := Z.land c 0xff).
  destruct (toggle_do_key _ k) as [[ok t1]| | |]; try done. cbn [mbind C_bind].
  destruct ok; cbn [negb]; [|by intros [= <- <- <-]; left].
  destruct (prints_something _); intros [= <- <- <-]; [by do 3 right|]. left. split; [done|]. split; [|done].
  split; [done|done|done|]. by vm_compute.
Qed.

Lemma menu_loop_spec keys lo n : forall u b u' b', on_menu lo n u b -> state u = 0 ->
  menu_loop keys n u b = Ret (Some (0, u'), b') -> state u' = 0 -> lo + 1 <= item u' <= n + 1.
Proof.
  induction keys as [|c keys IH]; intros u b u' b' Hon Hs; cbn [menu_loop]; [done|].
  destruct (get_user_input c n u b) as [[[t u1] b1]| | |] eqn:E; try done. cbn [mbind C_bind].
  destruct (get_user_input_spec c lo n u b t u1 b1 Hon Hs E) as [(-> & Hon1 & Hs1)|[(-> & _ & H)|[(-> & H)| ->]]].
  - change ((1 =? 0) || (1 =? -1)) with false. cbv iota. by apply IH.
  - change ((0 =? 0) || (0 =? -1)) with true. cbv iota. by intros [= <- _].
  - change ((0 =? 0) || (0 =? -1)) with true. cbv iota. by intros [= <- _] ?.
  - by intros [= <- _].
Qed.

(** C13: Whatever keys are pressed, when the item that is highlighted at first is one of
    the menu ([lo] is 0), the item that is chosen with the enter key is one of the menu, and
    what is executed are its commands, one after the other until one fails.  When none is
    highlighted at first, as without the command [default] ([lo] is -1), none can be chosen
    too, and then nothing is executed. *)
Theorem chosen_item_runs at_drive stale host config_lines m items ss ts keys lo u b u' b' b'' :
  built config_lines m items ss ts -> Forall (fun i => Forall short i.2) items ->
  on_menu lo (num_items m - 1) u b -> state u = 0 ->
  menu_loop keys (num_items m - 1) u b = Ret (Some (0, u'), b') -> state u' = 0 ->
  lo + 1 <= item u' <= Z.of_nat (length items) /\
  run_item at_drive stale host (Z.to_nat (item u')) m (menu_first m) b'' =
    match Z.to_nat (item u') with
    | O => Ret (1, b'')
    | S i => match items !! i with
             | Some (t, cs) => run_commands at_drive stale host cs b''
             | None => Undef
             end
    end.
Proof.
  intros H Hs Hon Hu Hk Hu'. pose proof (menu_loop_spec keys lo _ u b u' b' Hon Hu Hk Hu') as Hi.
  destruct (bu_section _ _ _ _ _ H) as [_ Hn]. rewrite Hn in Hi. destruct Hon as [Hlo _ _ _].
  split; [lia|]. destruct (Z.to_nat (item u')) as [|i] eqn:Ei; [done|].
  destruct (lookup_lt_is_Some_2 items i) as [[t cs] Hx]; [lia|]. rewrite Hx.
  apply (run_item_spec at_drive stale host config_lines m items ss ts _ t); [done|done|].
  rewrite Forall_forall in Hs. apply (Hs (t, cs)). by eapply list_elem_of_lookup_2.
Qed.

(** ** Which command a line executes *)

(** A word without what ends it in a line. *)
Definition word (w : list Z) : Prop := text w /\ w <> [] /\ Forall (fun c => separator true c = false /\ c <> ch "\") w.

(** A line up to its first blank, and what follows. *)
Fixpoint up_to_blank (l : list Z) : list Z * list Z :=
  match l with
  | [] => ([], [])
  | c :: l' => if c =? 32 then ([], l) else prod_map (cons c) id (up_to_blank l')
  end.

Lemma first_word l n : text l -> word n ->
  abbrev l n (length n) && ((cur (drop (length n) l) =? 32) || (cur (drop (length n) l) =? 0)) =
  bool_decide (n = (up_to_blank l).1).
Proof.
  intros Hl (Hn & _ & Hns). revert n Hn Hns. induction Hl as [|c l Hc _ IH]; intros n Hn Hns.
  - destruct n as [|d n]; [done|]. apply Forall_cons_1 in Hn as [Hd _]. cbn [up_to_blank fst].
    rewrite bool_decide_eq_false_2 by done. cbn. destruct (Z.eqb_spec 0 d); [lia|done].
  - cbn [up_to_blank]. destruct n as [|d n].
    { cbn. destruct (Z.eqb_spec c 32) as [->|]; [by rewrite bool_decide_eq_true_2|].
      destruct (Z.eqb_spec c 0); [lia|]. by rewrite bool_decide_eq_false_2. }
    apply Forall_cons_1 in Hn as [_ Hn]. apply Forall_cons_1 in Hns as [[Hd _] Hns].
    assert (Hd32 : d <> 32) by (by intros ->). cbn [length abbrev drop].
    destruct (Z.eqb_spec c d) as [->|Hcd].
    + rewrite (IH n Hn Hns). destruct (Z.eqb_spec d 32); [done|]. cbn [prod_map fst].
      destruct (up_to_blank l) as [w r]. apply bool_decide_ext. split; [by intros ->|by intros [= ->]].
    + rewrite bool_decide_eq_false_2; [done|]. destruct (c =? 32); [done|].
      destruct (up_to_blank l) as [w r]. cbn. congruence.
Qed.

Lemma up_to_blank_app l : l = (up_to_blank l).1 ++ (up_to_blank l).2 /\
  ((up_to_blank l).2 = [] \/ exists r, (up_to_blank l).2 = 32 :: r).
Proof.
  induction l as [|c l IH]; cbn [up_to_blank]; [by split; [|left]|].
  destruct (Z.eqb_spec c 32) as [->|]; [split; [done|right; by exists l]|].
  destruct (up_to_blank l) as [w r]. cbn in *. destruct IH as [-> H]. done.
Qed.

Lemma skip_to_word l : word (up_to_blank l).1 -> skip_to true l = skip_blank true (up_to_blank l).2.
Proof.
  destruct (up_to_blank_app l) as [E Hr]. intros (_ & _ & Hw). rewrite E at 1.
  destruct (up_to_blank l) as [w r]. cbn [fst snd] in *. clear E. unfold skip_to. f_equal.
  induction Hw as [|c w [Hc _] _ IH]; cbn [app skip_word]; [|by rewrite Hc].
  destruct Hr as [->|[r' ->]]; done.
Qed.

Lemma up_to_blank_word w r : word w -> up_to_blank (w ++ 32 :: r) = (w, 32 :: r).
Proof.
  intros (_ & _ & Hw). induction Hw as [|c w [Hc _] _ IH]; [done|]. cbn [app up_to_blank]. rewrite IH.
  destruct (Z.eqb_spec c 32) as [->|]; [by vm_compute in Hc|done].
Qed.

(** Every backslash is a slash, but for one in the first place. *)
Definition with_slashes (line : list Z) : list Z :=
  imap (fun i c => if bool_decide (i <> 0%nat) && (c =? ch "\") then ch "/" else c) line.

Lemma slashes_spec l : slashes l = with_slashes l.
Proof.
  destruct l as [|c l]; [done|]. unfold with_slashes. cbn [slashes]. rewrite imap_cons. f_equal.
  rewrite <- imap_const. by apply imap_ext.
Qed.

Lemma with_slashes_none l : ch "\" ∉ l -> with_slashes l = l.
Proof.
  intros H. unfold with_slashes. apply list_eq. intros i. rewrite list_lookup_imap. destruct (l !! i) as [c|] eqn:E; [|done]. cbn. f_equal.
  destruct (Z.eqb_spec c (ch "\")) as [->|]; [|by rewrite andb_false_r].
  destruct H. by apply list_elem_of_lookup_2 in E.
Qed.

Lemma with_slashes_text l : text l -> text (with_slashes l).
Proof.
  intros H. apply Forall_lookup. intros i c. unfold with_slashes. rewrite list_lookup_imap.
  destruct (l !! i) as [x|] eqn:E; [|done]. cbn. intros [= <-].
  destruct (_ && _); [by vm_compute|]. exact (Forall_lookup_1 _ _ _ _ H E).
Qed.

Section lines.
Context (at_drive stale : list Z) (host : list Z -> handler).

(** What the command [func] is given.  Where only triggers are executed, a command is
    passed over when its argument begins with set. *)
Definition call (func : handler) (arg : list Z) (b : boot_state) : C (Z * boot_state) :=
  s ← macro_subst at_drive arg;
  str ← var_sprint 0x400 stale (variables (toggles b)) s;
  if triggers_only (toggles b) && abbrev str (bstr "set") 3 then Ret (1, b)
  else '(rc, b) ← func str b; Ret (if rc =? 0 then 1 else 0, b).

Lemma run_builtin_none bs l b : text l -> Forall (fun e => word e.1) bs ->
  (up_to_blank l).1 ∉ bs.*1 -> run_builtin at_drive stale bs l b = Ret (1, b).
Proof.
  intros Hl. induction 1 as [|[n func] bs Hn _ IH]; [done|]. rewrite fmap_cons. intros [Hne H]%not_elem_of_cons.
  cbn [run_builtin fst] in *. rewrite (first_word l n Hl Hn), bool_decide_eq_false_2 by done. by apply IH.
Qed.

Lemma run_builtin_spec bs l b : text l -> Forall (fun e => word e.1) bs -> NoDup bs.*1 ->
  run_builtin at_drive stale bs l b =
  match list_find (fun e => e.1 = (up_to_blank l).1) bs with
  | Some (_, (_, func)) => call func (skip_blank true (up_to_blank l).2) b
  | None => Ret (1, b)
  end.
Proof.
  intros Hl. induction 1 as [|[n func] bs Hn Hbs IH]; [done|]. rewrite fmap_cons. intros [Hx Hnd]%NoDup_cons.
  cbn [run_builtin list_find fst] in *. rewrite (first_word l n Hl Hn).
  destruct (decide (n = (up_to_blank l).1)) as [E|Hne].
  - rewrite bool_decide_eq_true_2 by done. rewrite skip_to_word by by rewrite <- E. unfold call.
    destruct (macro_subst _ _) as [x| | |]; try done. cbn [mbind C_bind].
    destruct (var_sprint _ _ _ _) as [str| | |]; try done. cbn [mbind C_bind].
    destruct (_ && _); [|done]. apply run_builtin_none; [done|done|]. by rewrite <- E.
  - rewrite bool_decide_eq_false_2 by done. rewrite IH by done. by destruct (list_find _ bs) as [[i [n' f]]|].
Qed.

Lemma builtin_words : Forall (fun e => word e.1) (builtins stale host).
Proof.
  assert (H : forallb (fun n => negb (bool_decide (n = [])) &&
    forallb (fun c => (0 <? c) && (c <? 256) && negb (separator true c) && negb (c =? ch "\")) n)
    (fst <$> builtins stale host) = true) by (vm_compute; reflexivity).
  rewrite forallb_forall in H. apply Forall_forall. intros e He.
  specialize (H e.1). rewrite <- list_elem_of_In in H. specialize (H (list_elem_of_fmap_2 fst _ e He)).
  apply andb_true_iff in H as [Hne Hall]. rewrite forallb_forall in Hall.
  split_and!.
  - apply Forall_forall. intros c Hc%list_elem_of_In%Hall. blia.
  - by apply negb_true_iff, bool_decide_eq_false in Hne.
  - apply Forall_forall. intros c Hc%list_elem_of_In%Hall. rewrite !andb_true_iff, !negb_true_iff in Hc.
    destruct Hc as [[_ Hs] Hb]. split; [done|]. by apply Z.eqb_neq.
Qed.

Lemma builtin_names : NoDup (builtins stale host).*1.
Proof. apply (bool_decide_unpack _). by vm_compute. Qed.

Lemma exec_line_builtins line b : text line ->
  exec_line at_drive stale host line b = run_builtin at_drive stale (builtins stale host) (with_slashes line) b.
Proof.
  intros Ht. unfold exec_line. rewrite slashes_spec. destruct (Z.eqb_spec (cur line) 0) as [E|_]; [|done].
  destruct Ht as [|c r Hc _]; [done|]. cbn in E. lia.
Qed.

(** C14: A line, with its backslashes made slashes but for one at the beginning, executes
    the command whose name is all that stands before the first blank, or the whole line,
    with the rest in which the boot device and the values of the variables are put.  Where
    only triggers are executed, a command whose argument begins with set is passed over.  A
    line that begins with no command's name does nothing, without an error; a name with a
    tab behind it is none. *)
Theorem exec_line_command line b : text line ->
  let l := with_slashes line in
  exec_line at_drive stale host line b =
  match list_find (fun e => e.1 = (up_to_blank l).1) (builtins stale host) with
  | Some (_, (_, func)) => call func (skip_blank true (up_to_blank l).2) b
  | None => Ret (1, b)
  end.
Proof.
  intros Ht l. rewrite exec_line_builtins by done.
  apply run_builtin_spec; [by apply with_slashes_text|apply builtin_words|apply builtin_names].
Qed.
End lines.

(** ** Examples *)

Definition empty_menu : menu_state :=
  {| scripts := ∅; strings := ∅; texts := ∅; menu_len := 0; config_len := 0; section := 0; num_items := 0;
     menu_first := 0; menu_last := 0; sc := 0; sc_prev := 0; st_prev := 0 |}.
Definition first_settings : settings :=
  {| default_item := -1; menu_timeout := 0; menu_width := 68; menu_height := 15;
     menu_colors := (0, 7, 0, 7); screen_colors := (0, 7, 0, 7) |}.
Definition first_state : boot_state :=
  {| toggles := no_toggles; var_expand_line_edit := true; numbers := first_settings; curr_cfg := []; prev_cfg := [];
     modules := no_modules |}.

(** A command of the host notes what it is given in the name of the file. *)
Definition note (name : list Z) : handler := fun arg b =>
  Ret (0, {| toggles := toggles b; var_expand_line_edit := var_expand_line_edit b; numbers := numbers b;
             curr_cfg := curr_cfg b ++ name ++ bstr "<" ++ arg ++ bstr ">"; prev_cfg := prev_cfg b;
             modules := modules b |}).
Definition hd0 : list Z := bstr "(hd0,0)".
Definition lines_at : Z := 0x100000.
Definition demo_exec : list Z -> boot_state -> C (Z * boot_state) := exec_line hd0 stale0 note.

Lemma empty_built : built lines_at empty_menu [] [] [].
Proof.
  split; [done|done|done|by intros [|i]|by intros [|j]|by split|split; constructor|done|].
  unfold MENU_BUFLEN. cbn. lia.
Qed.

Definition demo_file : list (list Z * bool) :=
  [(bstr "; the boot menu", true); (bstr "set SYS=()/boot  # from the boot device", true); (bstr "", true);
   (bstr "default 1", false); (bstr "title osFree", true); (bstr "kernel $(SYS)/l4ka", true);
   (bstr "module ^", true); (bstr "	$(SYS)/os2srv", true); (bstr "title DOS", true); (bstr "os2ldr", true)].

Lemma demo_items : item_lines (logical [] (fst <$> demo_file)) =
  ([bstr "set SYS=()/boot"; bstr "default 1"],
   [(bstr "osFree", [bstr "kernel $(SYS)/l4ka"; bstr "module $(SYS)/os2srv"]); (bstr "DOS", [bstr "os2ldr"])]).
Proof. vm_compute. reflexivity. Qed.

Lemma demo_text : Forall (fun l : list Z * bool => line_text l.1) demo_file.
Proof.
  apply Forall_forall. intros l Hl. apply Forall_forall. intros c Hc.
  assert (Hall : forallb (fun l : list Z * bool =>
    forallb (fun c => (0 <? c) && (c <? 256) && negb (c =? CR) && negb (c =? LF)) l.1) demo_file = true)
    by (vm_compute; reflexivity).
  rewrite forallb_forall in Hall. specialize (Hall l). rewrite forallb_forall in Hall.
  specialize (Hall (proj1 (list_elem_of_In _ _) Hl) c (proj1 (list_elem_of_In _ _) Hc)).
  clear -Hall. blia.
Qed.

Lemma demo_readable : readable_file 0 (file_of demo_file) [0] demo_file (zeros BUFSIZE).
Proof.
  split; [by vm_compute|by exists 0, []|exact demo_text|by vm_compute|reflexivity|by vm_compute|by vm_compute].
Qed.

Definition demo_read : C (Z * cfg_state * (menu_state * boot_state)) :=
  process_cfg 0 (process_cfg_line1 hd0 stale0 note lines_at 0x10000) (Some (Z.of_nat (length (file_of demo_file))))
    (disk_read (file_of demo_file)) [0] (zeros BUFSIZE) fresh (empty_menu, first_state).

Lemma menu_from_file_witness : exists st m b ss ts,
  demo_read = Ret (1, st, (m, b)) /\ built lines_at m (item_lines (logical [] (fst <$> demo_file))).2 ss ts.
Proof.
  assert (H : same_run (fun x y => menu_result lines_at (item_lines (logical [] (fst <$> demo_file))).2 (x.1.1, x.2) y)
    demo_read (exec_lines demo_exec (item_lines (logical [] (fst <$> demo_file))).1 first_state)).
  { apply (menu_from_file hd0 stale0 note lines_at 0x10000); [by vm_compute|exact demo_readable|exact fresh_holds|
      exact empty_built|by vm_compute]. }
  assert (Hy : fst <$> exec_lines demo_exec (item_lines (logical [] (fst <$> demo_file))).1 first_state = Ret 1)
    by (vm_compute; reflexivity).
  revert H Hy. generalize (item_lines (logical [] (fst <$> demo_file))).2 as items.
  generalize (exec_lines demo_exec (item_lines (logical [] (fst <$> demo_file))).1 first_state) as y.
  generalize demo_read as x. intros [[[rc st] [m b]]| | |] [[rc' b']| | |] items H Hy; try done.
  injection Hy as ->. destruct H as (Erc & Eb & Hbuilt). cbn [fst snd] in *. subst.
  destruct (Hbuilt eq_refl) as (ss & ts & Hm). by exists st, m, b', ss, ts.
Defined.

(** The menu of the file: down, down, up and enter choose the second item. *)
Definition demo_view : view := {| item := 0; shift := 0; state := 0; menu_nest_lvl := 0 |}.
Definition chosen (keys : list Z) : C (list Z) :=
  '(_, _, (m, b)) ← demo_read;
  '(r, b) ← menu_loop keys (num_items m - 1) demo_view b;
  match r with
  | Some (_, u) => '(_, b) ← run_item hd0 stale0 note (Z.to_nat (item u)) m (menu_first m) b; Ret (curr_cfg b)
  | None => Ret (bstr "?")
  end.

Example choose_items :
  chosen [0x1c0d] = Ret (bstr "kernel<(hd0,0)/boot/l4ka>module<(hd0,0)/boot/os2srv>") /\
  chosen [0xe; 0xe; 0x10; 0x1c0d] = Ret (bstr "os2ldr<>") /\ chosen [0xe] = Ret (bstr "?").
Proof. by vm_compute. Qed.

Lemma chosen_item_runs_witness : exists m b ss ts u' b' cs,
  built lines_at m [(bstr "DOS", [bstr "os2ldr"])] ss ts /\
  menu_loop [0xe; 0x1c0d] (num_items m - 1) demo_view b = Ret (Some (0, u'), b') /\
  run_item hd0 stale0 note (Z.to_nat (item u')) m (menu_first m) b' = run_commands hd0 stale0 note cs b' /\
  cs = [bstr "os2ldr"].
Proof.
  destruct (lines_run hd0 stale0 note lines_at 0x10000 ltac:(by vm_compute) [bstr "os2ldr"]
    {| scripts := {[ MENU_BUF + 4 := {| scr := None; num := 0; title := MENU_BUF; next := 0; prev := 0 |} ]};
       strings := ∅; texts := {[ MENU_BUF := bstr "DOS" ]}; menu_len := 24; config_len := 0; section := 1;
       num_items := 1; menu_first := MENU_BUF + 4; menu_last := MENU_BUF + 4; sc := MENU_BUF + 4;
       sc_prev := MENU_BUF + 4; st_prev := 0 |} first_state [] (bstr "DOS") [] [MENU_BUF + 4] [])
    as (m & ss & ts & _ & Hm).
  - split; [done|done|done| |by intros [|j]| | | |unfold MENU_BUFLEN; cbn; lia].
    + intros [|i] t cs a; [|done]. intros [= <- <-] [= <-]. eexists. split; [by apply lookup_singleton_Some|].
      split; [by apply lookup_singleton_Some|done].
    + split; [|constructor]. apply Forall_singleton. unfold in_menu. cbn [menu_len]. lia.
    + split; [apply NoDup_singleton|constructor].
    + cbn [texts]. intros t x [<- _]%lookup_singleton_Some. left. unfold in_menu. cbn [menu_len]. lia.
  - by vm_compute.
  - exists m, first_state, ss, ts.
    assert (Hn : num_items m = 1) by (destruct (bu_section _ _ _ _ _ Hm) as [_ ->]; reflexivity).
    rewrite Hn. eexists {| item := 1; shift := 0; state := 0; menu_nest_lvl := 1 |}, _, _.
    split; [exact Hm|]. split; [reflexivity|].
    destruct (chosen_item_runs hd0 stale0 note lines_at m _ ss ts [0xe; 0x1c0d] 0 demo_view first_state
      {| item := 1; shift := 0; state := 0; menu_nest_lvl := 1 |} first_state first_state Hm) as (_ & E).
    + repeat constructor.
    + rewrite Hn. split; vm_compute; try done; by split.
    + done.
    + rewrite Hn. reflexivity.
    + done.
    + split; [exact E|]. reflexivity.
Defined.

Lemma exec_line_command_witness : demo_exec (bstr "kernel ()\l4ka") first_state =
  call hd0 stale0 (note (bstr "kernel")) (bstr "()/l4ka") first_state /\
  (exists b, call hd0 stale0 (note (bstr "kernel")) (bstr "()/l4ka") first_state = Ret (1, b) /\
    curr_cfg b = bstr "kernel<(hd0,0)/l4ka>").
Proof.
  split; [|eexists; by split; [vm_compute|]].
  apply (exec_line_command hd0 stale0 note (bstr "kernel ()\l4ka") first_state). by apply text_check.
Defined.

(** Reading a second file: its first command is linked to the last one of the file
    before, in memory that has been cleared. *)
Example stale_command :
  ('(_, st, (m, b)) ← demo_read; '(m, b) ← init_vars m b;
   process_cfg 0 (process_cfg_line1 hd0 stale0 note lines_at 0x10000) (Some (Z.of_nat (length (file_of demo_file))))
     (disk_read (file_of demo_file)) [0] (zeros BUFSIZE) st (m, b)) = Undef.
Proof. vm_compute. reflexivity. Qed.

Definition variable_after (lines : list string) (n : string) : C (option (list Z)) :=
  '(_, b) ← exec_lines demo_exec (bstr <$> lines) first_state; var_get (variables (toggles b)) (bstr n).

(** A tab does not end the name of a command: the line is passed over.  So is a
    command that does not exist. *)
Example tab_ignored :
  variable_after ["set A=1"]%string "A" = Ret (Some (bstr "1")) /\
  variable_after ["set	A=1"; "sett A=1"]%string "A" = Ret None.
Proof. by vm_compute. Qed.

(** Everything that begins like a title is one. *)
Example title_prefix : item_lines [bstr "titles x"; bstr "boot"] = ([], [(bstr "x", [bstr "boot"])]).
Proof. vm_compute. reflexivity. Qed.

(** Switching the expansion off switches it on: its first byte is that of [on]. *)
Example varexpand_off : (fun r => var_expand_line_edit r.2) <$> varexpand_func (bstr "off") first_state = Ret true.
Proof. vm_compute. reflexivity. Qed.

(** Where only triggers are to be executed, [set] is, and [toggle set] is not. *)
Example triggers_only_sets :
  (let b := with_toggles first_state (with_process no_toggles 0 true) in
   '(_, b) ← demo_exec (bstr "set A=1") b; '(_, b) ← demo_exec (bstr "toggle set d {B=1}") b;
   x ← var_get (variables (toggles b)) (bstr "A"); y ← var_get (variables (toggles b)) (bstr "B"); Ret (x, y)) =
  Ret (Some (bstr "1"), None).
Proof. vm_compute. reflexivity. Qed.

(** The item at first: what the local variable happens to hold; the last one, where
    that is large; and without the command [default] none, so that enter executes
    nothing.  The command's argument is not compared with the number of items. *)
Example first_items :
  first_item 3 0 5 4 (-1) = 3 /\ first_item 1000 0 5 4 (-1) = 4 /\ first_item 0 0 5 4 (-1) = -1 /\
  first_item 0 0 5 4 9 = 9 /\
  ('(r, _) ← menu_loop [0x1c0d] 4 {| item := -1; shift := 0; state := 0; menu_nest_lvl := 0 |} first_state;
   Ret (option_map (fun x => item x.2) r)) = Ret (Some 0).
Proof. by vm_compute. Qed.

(** A title can be moved by more than the 128 bytes of blanks in [draw_menu]. *)
Example far_right :
  ('(r, _) ← menu_loop (replicate 15 0x7400 ++ [0x1c0d]) 4 demo_view (draw_watches first_state);
   Ret (option_map (fun x => shift x.2) r)) = Ret (Some 150).
Proof. vm_compute. reflexivity. Qed.

Example configfile_nothing : demo_exec (bstr "configfile") first_state = Undef.
Proof. vm_compute. reflexivity. Qed.
