(* ===== verification/BootPP.v ===== *)
(** * The preprocessor of the boot loader ([bootseq/loader/loader/pp.c])

    It puts files in the place of [!include] lines and selects lines between
    [!ifeq], [!else] and [!endif]; what it makes of a text is preprocessed again
    while there is a directive in it.

    A text is what is in memory from its beginning up to the zero behind it.  The
    code keeps its length apart, and the two are modelled apart, as a pass may write
    more bytes than it counts.  Each pass writes to the next free page; the model
    gives it memory of its own.  The theorems describe a text by the tree of its
    conditions ([doc]) and its lines ([ltok]): [outer_run] is one pass on lines,
    [if_loop_spec] relates it to the loop over bytes. *)
From S2P Require Import Prelude BootLib BootCfg BootVar.

(** ** Moving over a line

    Reading beyond the text is undefined. *)

Definition is_eol_char (c : Z) : bool := (c =? CR) || (c =? LF).

(** The bytes in front of the first one that [stop] holds of. *)
Fixpoint until (stop : Z -> bool) (l : list Z) : C (list Z * list Z) :=
  match l with
  | [] => Undef
  | c :: l' => if stop c then Ret ([], l) else '(w, r) ← until stop l'; Ret (c :: w, r)
  end.

Definition over_eol (l : list Z) : list Z := match l with c :: l' => if is_eol_char c then l' else l | [] => [] end.
Fixpoint over_blanks (l : list Z) : list Z :=
  match l with c :: l' => if c =? 32 then over_blanks l' else l | [] => [] end.

(** The line with a line end of two bytes, and what comes behind it. *)
Definition copy_to_eol (line : list Z) : C (list Z * list Z) :=
  '(w, r) ← until is_eol_char line; Ret (w ++ [CR; LF], over_eol (over_eol r)).
Definition skip_to_eol (line : list Z) : C (list Z) :=
  '(_, r) ← until is_eol_char line; Ret (over_eol (over_eol r)).

(** How far [r] is behind [line]. *)
Definition distance (line r : list Z) : Z := Z.of_nat (length line) - Z.of_nat (length r).

(** ** Conditions *)

Record if_state := { out : list Z; left : Z; count : Z; skip : bool; flag : bool }.

Definition emit (s : if_state) (l : list Z) : if_state :=
  {| out := out s ++ l; left := left s; count := count s; skip := skip s; flag := flag s |}.
Definition shorten (s : if_state) (n : Z) : if_state :=
  {| out := out s; left := left s - n; count := count s; skip := skip s; flag := flag s |}.
Definition set_count (s : if_state) (n : Z) : if_state :=
  {| out := out s; left := left s; count := n; skip := skip s; flag := flag s |}.
Definition set_flags (s : if_state) (k f : bool) : if_state :=
  {| out := out s; left := left s; count := count s; skip := k; flag := f |}.

(** The size of the buffers for a name and a value. *)
Definition WORD_SIZE : Z := 24.

Definition copied (line : list Z) (s : if_state) : C (list Z * if_state) :=
  '(w, r) ← copy_to_eol line; Ret (r, emit s w).
Definition dropped (line : list Z) (s : if_state) : C (list Z * if_state) :=
  r ← skip_to_eol line; Ret (r, shorten s (distance line r)).

(** One line; the result is what follows it. *)
Definition if_line (v : var_state) (line : list Z) (s : if_state) : C (list Z * if_state) :=
  if starts_with line (bstr "!ifeq ") then
    let s := set_count s (count s + 1) in
    if count s =? 1 then
      '(var, r) ← until (fun c => c =? 32) (over_blanks (drop 6 line));
      _ ← require (Z.of_nat (length var) <? WORD_SIZE);
      '(val, r) ← until (fun c => (c =? 32) || is_eol_char c) (over_blanks r);
      _ ← require (Z.of_nat (length val) <? WORD_SIZE);
      (* a variable that is not there is a null pointer *)
      x ← var_get v var; x ← need x;
      let flag := grub_strcmp x val =? 0 in
      let r := over_eol (over_eol (over_blanks r)) in
      Ret (r, set_flags (shorten s (distance line r)) (negb flag) flag)
    else copied line s
  else if starts_with line (bstr "!else") then
    if count s =? 1 then
      let r := over_eol (over_eol (over_blanks (drop 5 line))) in
      Ret (r, set_flags (shorten s (distance line r)) (flag s) (flag s))
    else if skip s then dropped line s else copied line s
  else if starts_with line (bstr "!endif") then
    '(r, s) ← (if 1 <? count s then copied line s
               else if skip s then dropped line s
               else let r := over_blanks (drop 6 line) in Ret (r, shorten s (distance line r)));
    let s := if count s =? 1 then set_flags s false false else s in
    Ret (r, set_count s (count s - 1))
  else if skip s then dropped line s else copied line s.

(** [m] is the length of the text at the beginning. *)
Fixpoint if_loop (fuel : nat) (v : var_state) (from : list Z) (m : Z) (line : list Z) (s : if_state) : C if_state :=
  match fuel with
  | O => NoFuel
  | S fuel =>
      '(line, s) ← if_line v line s;
      if distance from line <? m then if_loop fuel v from m line s else Ret s
  end.
Definition subst_if (v : var_state) (from : list Z) (len : Z) : C (list Z * Z) :=
  s ← if_loop (S (length from)) v from len from {| out := []; left := len; count := 0; skip := false; flag := false |};
  Ret (out s, left s).

(** ** Files

    [files] gives the contents of a file, nothing for one that cannot be opened. *)
Section preprocess.
Context (files : list Z -> list Z).

(** One line; the text so far and its length. *)
Definition include_line (line out : list Z) (len : Z) : C (list Z * list Z * Z) :=
  if starts_with line (bstr "!include ") then
    let r := over_blanks (drop 9 line) in
    let r := if cur r =? 34 then tail r else r in
    '(name, r) ← until (fun c => is_eol_char c || (c =? 34)) r;
    let r := if cur r =? 34 then tail r else r in
    let r := over_eol (over_eol r) in
    let text := files name in
    Ret (r, out ++ text, len + (Z.of_nat (length text) - distance line r))
  else '(w, r) ← copy_to_eol line; Ret (r, out ++ w, len).

Fixpoint include_loop (fuel : nat) (from : list Z) (m : Z) (line out : list Z) (len : Z) : C (list Z * Z) :=
  match fuel with
  | O => NoFuel
  | S fuel =>
      '(line, out, len) ← include_line line out len;
      if distance from line <? m then include_loop fuel from m line out len else Ret (out, len)
  end.
Definition subst_include (from : list Z) (len : Z) : C (list Z * Z) :=
  include_loop (S (length from)) from len from [] len.

(** ** Passes

    There is one more pass when the first place of [word] in the text is the
    beginning of a line; [below] is the byte in front of the text. *)
Definition once_more (below : Z) (from word : list Z) : bool :=
  match grub_strstr from word with
  | Some p =>
      let k := (length from - length p)%nat in
      match k with O => below =? LF | S k => default 0 (from !! k) =? LF end
  | None => false
  end.

Fixpoint passes (fuel : nat) (pass : list Z -> Z -> C (list Z * Z)) (below : Z) (word from : list Z) (len : Z)
    : C (list Z * Z) :=
  match fuel with
  | O => NoFuel
  | S fuel =>
      '(from, len) ← pass from len;
      if once_more below from word then passes fuel pass below word from len else Ret (from, len)
  end.

(** The text that is left in memory: [len] bytes of what the last pass wrote. *)
Definition preprocess (fuel : nat) (v : var_state) (below : Z) (text : list Z) : C (list Z) :=
  '(from, len) ← passes fuel subst_include below (bstr "!include ") text (Z.of_nat (length text));
  '(from, len) ← passes fuel (subst_if v) below (bstr "!if") from len;
  Ret (take (Z.to_nat len) from).
End preprocess.

(** ** Texts with conditions *)

(** A text: lines, and conditions with the texts between them; [e] says whether
    there is an [!else]. *)
Inductive doc :=
  | DNil
  | DLine (w : list Z) (rest : doc)
  | DIf (x s : list Z) (a : doc) (e : bool) (b : doc) (rest : doc).

(** The lines of a text. *)
Inductive ltok := TLine (w : list Z) | TIf (x s : list Z) | TElse | TEnd.

Fixpoint tokens (d : doc) : list ltok :=
  match d with
  | DNil => []
  | DLine w d => TLine w :: tokens d
  | DIf x s a e b d => TIf x s :: tokens a ++ (if e then TElse :: tokens b else []) ++ TEnd :: tokens d
  end.

Definition tok_line (t : ltok) : list Z :=
  match t with
  | TLine w => w
  | TIf x s => bstr "!ifeq " ++ x ++ 32 :: s
  | TElse => bstr "!else"
  | TEnd => bstr "!endif"
  end.
Definition tok_text (t : ltok) : list Z := tok_line t ++ [CR; LF].
Definition text_of (ts : list ltok) : list Z := mjoin (tok_text <$> ts).

(** The lines that the conditions select. *)
Section selection.
Variable env : list Z -> option (list Z).
Definition holds_of (x s : list Z) : bool := bool_decide (env x = Some s).
Fixpoint selected (d : doc) : list (list Z) :=
  match d with
  | DNil => []
  | DLine w d => w :: selected d
  | DIf x s a e b d => (if holds_of x s then selected a else if e then selected b else []) ++ selected d
  end.

(** *** One level *)

Fixpoint dapp (d d' : doc) : doc :=
  match d with
  | DNil => d'
  | DLine w d => DLine w (dapp d d')
  | DIf x s a e b d => DIf x s a e b (dapp d d')
  end.

(** What is left of a text that is passed over: its conditions, without lines. *)
Fixpoint skeleton (d : doc) : doc :=
  match d with
  | DNil => DNil
  | DLine _ d => skeleton d
  | DIf x s a e b d => DIf x s (if e then dapp (skeleton a) (skeleton b) else skeleton a) false DNil (skeleton d)
  end.

(** The outermost conditions are decided; behind the part that is kept an empty line
    may be left. *)
Fixpoint one_level (d : doc) : doc :=
  match d with
  | DNil => DNil
  | DLine w d => DLine w (one_level d)
  | DIf x s a e b d =>
      let blank := DLine [] DNil in
      dapp (if holds_of x s
            then dapp a (if e then skeleton b else blank)
            else dapp (skeleton a) (if e then dapp b blank else DNil)) (one_level d)
  end.

Fixpoint depth (d : doc) : nat :=
  match d with
  | DNil => 0
  | DLine _ d => depth d
  | DIf _ _ a e b d => S (depth a `max` (if e then depth b else 0)) `max` depth d
  end.

Lemma tokens_dapp d d' : tokens (dapp d d') = tokens d ++ tokens d'.
Proof. induction d as [|w d IH|x s a _ e b _ d IH]; cbn; rewrite ?IH; [done..|]. by rewrite <- !app_assoc. Qed.
Lemma selected_dapp d d' : selected (dapp d d') = selected d ++ selected d'.
Proof. induction d as [|w d IH|x s a _ e b _ d IH]; cbn; rewrite ?IH; [done..|]. by rewrite app_assoc. Qed.
Lemma depth_dapp d d' : depth (dapp d d') = (depth d `max` depth d')%nat.
Proof. induction d as [|w d IH|x s a _ e b _ d IH]; cbn; rewrite ?IH; lia. Qed.

Lemma selected_skeleton d : selected (skeleton d) = [].
Proof.
  induction d as [|w d IH|x s a IHa e b IHb d IH]; cbn; [done..|]. rewrite IH, app_nil_r.
  destruct (holds_of x s); [|done]. destruct e; [|done]. by rewrite selected_dapp, IHa, IHb.
Qed.
Lemma depth_skeleton d : (depth (skeleton d) <= depth d)%nat.
Proof.
  induction d as [|w d IH|x s a IHa e b IHb d IH]; cbn; [done..|]. destruct e; rewrite ?depth_dapp; lia.
Qed.

Definition not_blank (w : list Z) : Prop := w <> [].

(** It keeps the lines that are selected, but for empty ones, and takes one level
    of conditions away. *)
Lemma selected_one_level d : filter not_blank (selected (one_level d)) = filter not_blank (selected d).
Proof.
  induction d as [|w d IH|x s a _ e b _ d IH]; cbn [one_level selected]; [done| |].
  - rewrite !filter_cons. by destruct (decide _); rewrite IH.
  - rewrite selected_dapp, !filter_app, IH. f_equal.
    assert (Hb : filter not_blank [[]] = []) by done.
    destruct (holds_of x s), e; rewrite !selected_dapp, ?selected_skeleton, ?selected_dapp; cbn [selected app];
      rewrite ?filter_app, ?Hb, ?app_nil_r; done.
Qed.

Lemma depth_one_level d : (depth (one_level d) <= pred (depth d))%nat.
Proof.
  induction d as [|w d IH|x s a _ e b _ d IH]; cbn [one_level depth]; [done..|]. rewrite depth_dapp.
  pose proof (depth_skeleton a). pose proof (depth_skeleton b).
  destruct (holds_of x s), e; rewrite !depth_dapp; cbn [depth]; lia.
Qed.

(** *** The machine on lines *)

Definition machine : Type := Z * bool * bool.

Definition tok_step (t : ltok) (q : machine) : option (list ltok * machine) :=
  let '(c, k, f) := q in
  match t with
  | TLine w => Some (if k then [] else [t], (c, k, f))
  | TIf x s =>
      if c + 1 =? 1 then
        match env x with Some y => let f := bool_decide (y = s) in Some ([], (c + 1, negb f, f)) | None => None end
      else Some ([t], (c + 1, k, f))
  | TElse => if c =? 1 then Some ([], (c, f, f)) else Some (if k then [] else [t], (c, k, f))
  | TEnd =>
      let l := if 1 <? c then [t] else if k then [] else [TLine []] in
      if c =? 1 then Some (l, (c - 1, false, false)) else Some (l, (c - 1, k, f))
  end.

Fixpoint tok_run (ts : list ltok) (q : machine) : option (list ltok * machine) :=
  match ts with
  | [] => Some ([], q)
  | t :: ts =>
      match tok_step t q with
      | Some (l, q) => match tok_run ts q with Some (l', q) => Some (l ++ l', q) | None => None end
      | None => None
      end
  end.

Lemma tok_run_app ts ts' q : tok_run (ts ++ ts') q =
  match tok_run ts q with
  | Some (l, q) => match tok_run ts' q with Some (l', q) => Some (l ++ l', q) | None => None end
  | None => None
  end.
Proof.
  revert q. induction ts as [|t ts IH]; intros q; cbn.
  - by destruct (tok_run ts' q) as [[l' q']|].
  - destruct (tok_step t q) as [[l q1]|]; [|done]. rewrite IH.
    destruct (tok_run ts q1) as [[l1 q2]|]; [|done]. destruct (tok_run ts' q2) as [[l2 q3]|]; [|done].
    by rewrite app_assoc.
Qed.

(** Inside a condition, a text is copied or its skeleton is. *)
Lemma inner_run k d : forall c f, 1 <= c ->
  tok_run (tokens d) (c, k, f) = Some (tokens (if k : bool then skeleton d else d), (c, k, f)).
Proof.
  induction d as [|w d IH|x s a IHa e b IHb d IH]; intros c f Hc; [by destruct k| |].
  - cbn [tokens tok_run tok_step]. rewrite IH by done. by destruct k.
  - assert (E1 : (c + 1 =? 1) = false) by (apply Z.eqb_neq; lia).
    assert (E2 : (1 <? c + 1) = true) by (apply Z.ltb_lt; lia).
    cbn [tokens tok_run tok_step]. rewrite E1, tok_run_app, IHa, tok_run_app by lia. destruct e.
    + cbn [tok_run tok_step]. rewrite E1, IHb by lia. cbn [tok_run tok_step]. rewrite E1, E2.
      replace (c + 1 - 1) with c by lia. rewrite IH by done.
      destruct k; cbn [skeleton tokens app]; [|by rewrite <- ?app_assoc].
      rewrite tokens_dapp. by rewrite <- ?app_assoc.
    + cbn [tok_run tok_step]. rewrite E1, E2. replace (c + 1 - 1) with c by lia. rewrite IH by done.
      by destruct k.
Qed.

(** Every name in a condition has a value. *)
Fixpoint defined (d : doc) : Prop :=
  match d with
  | DNil => True
  | DLine _ d => defined d
  | DIf x s a e b d => is_Some (env x) /\ defined a /\ defined b /\ defined d
  end.

Lemma outer_run d : defined d -> tok_run (tokens d) (0, false, false) = Some (tokens (one_level d), (0, false, false)).
Proof.
  induction d as [|w d IH|x s a _ e b _ d IH]; intros Hd; [done| |].
  - cbn [tokens tok_run tok_step]. by rewrite IH.
  - destruct Hd as ([y Hy] & _ & _ & Hd). specialize (IH Hd).
    cbn [tokens tok_run tok_step one_level]. change (0 + 1 =? 1) with true. cbv iota. rewrite Hy.
    assert (Ehold : holds_of x s = bool_decide (y = s)).
    { unfold holds_of. rewrite Hy. apply bool_decide_ext. split; congruence. }
    rewrite Ehold, tok_run_app, inner_run, tok_run_app by lia.
    destruct e; cbn [tok_run tok_step]; change (0 + 1 =? 1) with true; cbv iota.
    + rewrite inner_run by lia. cbn [tok_run tok_step]. change (1 <? 0 + 1) with false.
      change (0 + 1 =? 1) with true. cbv iota. change (0 + 1 - 1) with 0. rewrite IH.
      destruct (bool_decide (y = s)); cbn [negb app]; rewrite ?tokens_dapp; cbn [tokens];
        rewrite ?tokens_dapp, ?app_nil_r, <- ?app_assoc; done.
    + change (1 <? 0 + 1) with false. cbv iota. change (0 + 1 - 1) with 0. rewrite IH.
      destruct (bool_decide (y = s)); cbn [negb app]; rewrite ?tokens_dapp; cbn [tokens];
        rewrite ?tokens_dapp, ?app_nil_r, <- ?app_assoc; done.
Qed.
End selection.

(** ** Texts in memory *)

Definition pp_char (c : Z) : Prop := c <> CR /\ c <> LF /\ c <> ch "!".
Definition pp_word (w : list Z) : Prop :=
  text w /\ Forall (fun c => pp_char c /\ c <> 32) w /\ Z.of_nat (length w) < WORD_SIZE.
Definition good_tok (t : ltok) : Prop :=
  match t with
  | TLine w => Forall pp_char w
  | TIf x s => pp_word x /\ x <> [] /\ pp_word s
  | _ => True
  end.

Lemma until_app stop w c r : Forall (fun c => stop c = false) w -> stop c = true ->
  until stop (w ++ c :: r) = Ret (w, c :: r).
Proof. induction 1 as [|x w Hx _ IH]; intros Hc; cbn; [by rewrite Hc|]. rewrite Hx. by rewrite IH. Qed.

Lemma pp_not_eol w : Forall pp_char w -> Forall (fun c => is_eol_char c = false) w.
Proof.
  intros H. eapply Forall_impl; [exact H|]. intros c (H1 & H2 & _). unfold is_eol_char.
  by apply orb_false_iff; split; apply Z.eqb_neq.
Qed.

Lemma copy_to_eol_spec w r : Forall pp_char w -> copy_to_eol (w ++ CR :: LF :: r) = Ret (w ++ [CR; LF], r).
Proof. intros H. unfold copy_to_eol. by rewrite until_app by (done || by apply pp_not_eol). Qed.
Lemma skip_to_eol_spec w r : Forall pp_char w -> skip_to_eol (w ++ CR :: LF :: r) = Ret r.
Proof. intros H. unfold skip_to_eol. by rewrite until_app by (done || by apply pp_not_eol). Qed.

Lemma over_blanks_spec w c r : Forall (fun c => c <> 32) w -> c <> 32 -> over_blanks (w ++ c :: r) = w ++ c :: r.
Proof.
  intros [|x w' Hx _] Hc; cbn; [by destruct (Z.eqb_spec c 32)|]. by destruct (Z.eqb_spec x 32).
Qed.

Lemma starts_with_app p r : starts_with (p ++ r) p = true.
Proof. apply starts_with_spec. by exists r. Qed.

(** A line without an exclamation mark begins with no directive. *)
Lemma starts_plain w r p : Forall pp_char w -> head p = Some (ch "!") -> starts_with (w ++ CR :: r) p = false.
Proof.
  intros Hw Hp. destruct p as [|c0 p]; [done|]. injection Hp as ->. revert Hw.
  intros [|c w' (_ & _ & Hc) _]; cbn [app starts_with]; [done|]. by destruct (Z.eqb_spec c (ch "!")).
Qed.

Lemma distance_app a r : distance (a ++ r) r = Z.of_nat (length a).
Proof. unfold distance. rewrite length_app. lia. Qed.

Section texts.
Context (v : var_state) (env : list Z -> option (list Z)).
Hypothesis Henv : forall x, text x -> var_get v x = Ret (env x).
Hypothesis Hvalues : forall x y, env x = Some y -> text y.

Lemma tok_text_app t r : tok_text t ++ r = tok_line t ++ CR :: LF :: r.
Proof. unfold tok_text. by rewrite <- app_assoc. Qed.

Lemma tok_chars t : good_tok t -> t = TLine (tok_line t) \/ (exists w, tok_line t = ch "!" :: w /\ Forall pp_char w).
Proof.
  destruct t as [w|x s| |]; cbn [good_tok tok_line]; [by left|..]; intros H; right.
  - destruct H as ((_ & Hx & _) & _ & (_ & Hs & _)). exists (bstr "ifeq " ++ x ++ 32 :: s). split; [done|].
    apply Forall_app. split; [by repeat constructor|]. apply Forall_app. split; [|constructor; [done|]];
      (eapply Forall_impl; [eassumption|]); by intros c [].
  - eexists. split; [reflexivity|]. by repeat constructor.
  - eexists. split; [reflexivity|]. by repeat constructor.
Qed.

Lemma tok_not_eol t : good_tok t -> Forall (fun c => is_eol_char c = false) (tok_line t).
Proof.
  intros H. destruct (tok_chars t H) as [Et|(w & -> & Hw)].
  - rewrite Et in H |- *. by apply pp_not_eol.
  - constructor; [done|by apply pp_not_eol].
Qed.

Lemma copied_spec t r s : good_tok t ->
  copied (tok_text t ++ r) s = Ret (r, emit s (tok_text t)).
Proof.
  intros H. rewrite tok_text_app. unfold copied, copy_to_eol. rewrite until_app by (done || by apply tok_not_eol). done.
Qed.
Lemma dropped_spec t r s : good_tok t ->
  dropped (tok_text t ++ r) s = Ret (r, shorten s (Z.of_nat (length (tok_text t)))).
Proof.
  intros H. rewrite <- (distance_app (tok_text t) r). rewrite tok_text_app. unfold dropped, skip_to_eol.
  rewrite until_app by (done || by apply tok_not_eol). done.
Qed.

(** The directive a line begins with. *)
Lemma starts_tok t r : good_tok t ->
  starts_with (tok_text t ++ r) (bstr "!ifeq ") = match t with TIf _ _ => true | _ => false end /\
  starts_with (tok_text t ++ r) (bstr "!else") = match t with TElse => true | _ => false end /\
  starts_with (tok_text t ++ r) (bstr "!endif") = match t with TEnd => true | _ => false end.
Proof.
  destruct t as [w|x s| |]; intros Hg; rewrite tok_text_app; cbn [tok_line].
  - cbn in Hg. by rewrite !(starts_plain w) by done.
  - split_and!; [|done..]. rewrite <- app_assoc. apply starts_with_app.
  - by split_and!.
  - by split_and!.
Qed.

Lemma if_line_word x w s r : pp_word x -> x <> [] -> pp_word w -> env x <> None -> count s + 1 = 1 ->
  if_line v (tok_text (TIf x w) ++ r) s =
  (let f := bool_decide (env x = Some w) in
   Ret (r, set_flags (shorten (set_count s 1) (Z.of_nat (length (tok_text (TIf x w))))) (negb f) f)).
Proof.
  intros (Hx & Hxc & Hxl) Hxne (Hw & Hwc & Hwl) He Hc. unfold if_line.
  destruct (starts_tok (TIf x w) r) as (-> & _); [by split_and!|]. cbv zeta. rewrite Hc. cbn [set_count count].
  change (1 =? 1) with true. cbv iota. rewrite <- (distance_app (tok_text (TIf x w)) r).
  rewrite tok_text_app. cbn [tok_line].
  replace ((bstr "!ifeq " ++ x ++ 32 :: w) ++ CR :: LF :: r) with (bstr "!ifeq " ++ x ++ 32 :: w ++ CR :: LF :: r)
    by (by rewrite <- !app_assoc).
  change (drop 6 (bstr "!ifeq " ++ ?l)) with l.
  assert (Hx32 : Forall (fun c => (c =? 32) = false) x).
  { eapply Forall_impl; [exact Hxc|]. intros c [_ H]. by apply Z.eqb_neq. }
  assert (Eb : over_blanks (x ++ 32 :: w ++ CR :: LF :: r) = x ++ 32 :: w ++ CR :: LF :: r).
  { destruct Hxc as [|c x' [_ H] _]; [done|]. cbn. by destruct (Z.eqb_spec c 32). }
  rewrite Eb, until_app by done. cbn [mbind C_bind].
  destruct (Z.ltb_spec (Z.of_nat (length x)) WORD_SIZE); [|lia]. cbn [require mbind C_bind].
  change (over_blanks (32 :: ?l)) with (over_blanks l).
  rewrite over_blanks_spec by (done || (eapply Forall_impl; [exact Hwc|]; by intros c [])).
  rewrite until_app; [|eapply Forall_impl; [exact Hwc|]|done]; last first.
  { intros c [(H1 & H2 & _) H3]. unfold is_eol_char. rewrite !orb_false_iff, !Z.eqb_neq. done. }
  cbn [mbind C_bind]. destruct (Z.ltb_spec (Z.of_nat (length w)) WORD_SIZE); [|lia]. cbn [require mbind C_bind].
  rewrite Henv by done. cbn [mbind C_bind]. destruct (env x) as [y|] eqn:Ey; [|done]. cbn [need mbind C_bind].
  assert (Ef : (grub_strcmp y w =? 0) = bool_decide (Some y = Some w)).
  { pose proof (strcmp_spec y w (Hvalues x y Ey) Hw) as E.
    destruct (Z.eqb_spec (grub_strcmp y w) 0) as [E'|E']; symmetry.
    - apply bool_decide_eq_true. f_equal. by apply E.
    - apply bool_decide_eq_false. intros [= ->]. apply E'. by apply E. }
  rewrite Ef. done.
Qed.

(** What a line does to the text so far, its length and the flags. *)
Definition moved_on (t : ltok) (l : list ltok) (q : machine) (s s' : if_state) : Prop :=
  out s' = out s ++ text_of l /\
  left s' = left s - (Z.of_nat (length (tok_text t)) - Z.of_nat (length (text_of l))) /\
  (count s', skip s', flag s') = q.

Lemma text_of_one t : text_of [t] = tok_text t.
Proof. unfold text_of. cbn. apply app_nil_r. Qed.

Lemma moved_copied t q s : (count s, skip s, flag s) = q -> moved_on t [t] q s (emit s (tok_text t)).
Proof. intros <-. unfold moved_on. rewrite text_of_one. cbn. split_and!; [done|lia|done]. Qed.
Lemma moved_dropped t q s : (count s, skip s, flag s) = q ->
  moved_on t [] q s (shorten s (Z.of_nat (length (tok_text t)))).
Proof. intros <-. unfold moved_on. cbn. rewrite app_nil_r. split_and!; [done|lia|done]. Qed.

(** One step for every line but [!endif] where nothing is skipped. *)
Lemma if_line_tok t r s l q : good_tok t -> tok_step env t (count s, skip s, flag s) = Some (l, q) ->
  t <> TEnd -> exists s', if_line v (tok_text t ++ r) s = Ret (r, s') /\ moved_on t l q s s'.
Proof.
  intros Hg Hq Ht. destruct t as [w|x w| |]; [| | |done].
  - cbn in Hq. injection Hq as <- <-. unfold if_line. destruct (starts_tok (TLine w) r Hg) as (-> & -> & ->).
    destruct (skip s) eqn:Ek; eexists; (split; [by first [apply dropped_spec|apply copied_spec]|]);
      [apply moved_dropped|apply moved_copied]; by rewrite Ek.
  - cbn [tok_step] in Hq. destruct (Z.eqb_spec (count s + 1) 1) as [E|E].
    + destruct (env x) as [y|] eqn:Ey; [|done]. injection Hq as <- <-. destruct Hg as (Hx & Hne & Hw).
      eexists. split; [apply if_line_word; by rewrite ?Ey|]. rewrite Ey.
      assert (Eb : bool_decide (Some y = Some w) = bool_decide (y = w)) by (apply bool_decide_ext; naive_solver).
      rewrite Eb, E. unfold moved_on. cbn. rewrite app_nil_r. split_and!; [done|lia|done].
    + injection Hq as <- <-. unfold if_line. destruct (starts_tok (TIf x w) r Hg) as (-> & _ & _). cbv zeta.
      cbn [set_count count]. destruct (Z.eqb_spec (count s + 1) 1); [done|].
      eexists. split; [by apply copied_spec|]. by apply (moved_copied _ _ (set_count s (count s + 1))).
  - unfold if_line. destruct (starts_tok TElse r Hg) as (-> & -> & _). cbn [tok_step] in Hq.
    destruct (count s =? 1) eqn:Ec.
    + injection Hq as <- <-. eexists. split; [reflexivity|].
      unfold moved_on. cbn [set_flags shorten out left count skip flag text_of fmap list_fmap mjoin list_join length].
      rewrite app_nil_r. split_and!; [done| |done].
      change (over_eol (over_eol (over_blanks (drop 5 (tok_text TElse ++ r))))) with r. rewrite distance_app.
      cbn [length]. lia.
    + destruct (skip s) eqn:Ek; injection Hq as <- <-;
        eexists; (split; [by first [apply dropped_spec|apply copied_spec]|]);
        [apply moved_dropped|apply moved_copied]; by rewrite Ek.
Qed.

(** [!endif]: where nothing is skipped, its line end is left as an empty line. *)
Lemma if_line_end r s l q : tok_step env TEnd (count s, skip s, flag s) = Some (l, q) ->
  (exists s', if_line v (tok_text TEnd ++ r) s = Ret (r, s') /\ moved_on TEnd l q s s') \/
  (exists s1 s', if_line v (tok_text TEnd ++ r) s = Ret (CR :: LF :: r, s1) /\
     if_line v (CR :: LF :: r) s1 = Ret (r, s') /\ moved_on TEnd l q s s').
Proof.
  intros Hq. assert (Hg : good_tok TEnd) by done. unfold if_line at 1 2.
  destruct (starts_tok TEnd r Hg) as (-> & -> & ->). cbn [tok_step] in Hq.
  destruct (1 <? count s) eqn:E1; [|destruct (skip s) eqn:Ek].
  - left. rewrite copied_spec by done. cbn [mbind C_bind]. cbv zeta. cbn [emit count].
    assert (Ec : (count s =? 1) = false) by (apply Z.eqb_neq; apply Z.ltb_lt in E1; lia).
    rewrite Ec in Hq |- *. injection Hq as <- <-. eexists. split; [reflexivity|].
    destruct (moved_copied TEnd _ s eq_refl) as (H1 & H2 & _). unfold moved_on. cbn in H1, H2 |- *. done.
  - left. rewrite dropped_spec by done. cbn [mbind C_bind]. cbv zeta. cbn [shorten count].
    destruct (moved_dropped TEnd _ s eq_refl) as (H1 & H2 & _). unfold moved_on.
    destruct (count s =? 1) eqn:Ec; injection Hq as <- <-; eexists; (split; [reflexivity|]);
      cbn in H1, H2 |- *; rewrite ?Ek; done.
  - right. change (over_blanks (drop 6 (tok_text TEnd ++ r))) with (CR :: LF :: r). cbn [mbind C_bind].
    cbv zeta. change (tok_text TEnd ++ r) with (bstr "!endif" ++ CR :: LF :: r). rewrite distance_app.
    cbn [shorten count]. set (s1 := set_count _ _). exists s1, (emit s1 [CR; LF]). split; [done|].
    assert (Ek1 : skip s1 = false) by (unfold s1; destruct (count s =? 1); cbn; done).
    split.
    + change (if_line v (tok_text (TLine []) ++ r) s1 = Ret (r, emit s1 [CR; LF])). unfold if_line.
      destruct (starts_tok (TLine []) r ltac:(constructor)) as (-> & -> & ->). rewrite Ek1.
      apply (copied_spec (TLine [])). constructor.
    + unfold moved_on, s1. destruct (count s =? 1); injection Hq as <- <-; cbn; rewrite ?Ek; split_and!; done || lia.
Qed.

(** What is behind a line decides whether the loop goes on. *)
Lemma distance_end pre a r m : m = Z.of_nat (length (pre ++ a ++ r)) ->
  (distance (pre ++ a ++ r) r <? m) = negb (bool_decide (r = [])).
Proof.
  intros ->. unfold distance. destruct r as [|c r]; cbn [length]; [apply Z.ltb_ge|apply Z.ltb_lt]; lia.
Qed.

Lemma if_loop_tok t r l q s pre m : good_tok t -> tok_step env t (count s, skip s, flag s) = Some (l, q) ->
  m = Z.of_nat (length (pre ++ tok_text t ++ r)) ->
  exists k s', (k <= length (tok_text t))%nat /\ moved_on t l q s s' /\ forall fuel,
    if_loop (k + fuel) v (pre ++ tok_text t ++ r) m (tok_text t ++ r) s =
    if bool_decide (r = []) then Ret s' else if_loop fuel v (pre ++ tok_text t ++ r) m r s'.
Proof.
  intros Hg Hq Hm.
  assert (H1 : forall s', if_line v (tok_text t ++ r) s = Ret (r, s') -> moved_on t l q s s' ->
    exists k s', (k <= length (tok_text t))%nat /\ moved_on t l q s s' /\ forall fuel,
    if_loop (k + fuel) v (pre ++ tok_text t ++ r) m (tok_text t ++ r) s =
    if bool_decide (r = []) then Ret s' else if_loop fuel v (pre ++ tok_text t ++ r) m r s').
  { intros s' E Hs'. exists 1%nat, s'. split; [unfold tok_text; rewrite length_app; cbn; lia|]. split; [done|].
    intros fuel. cbn [Nat.add if_loop]. rewrite E. cbn [mbind C_bind]. rewrite distance_end by done.
    by destruct (bool_decide _). }
  destruct t as [w|x w| |]; [| | |].
  1-3: destruct (if_line_tok _ r s l q Hg Hq ltac:(done)) as (s' & E & Hs'); by apply (H1 s').
  destruct (if_line_end r s l q Hq) as [(s' & E & Hs')|(s1 & s' & E1 & E2 & Hs')]; [by apply (H1 s')|].
  exists 2%nat, s'. split; [vm_compute; lia|]. split; [done|]. intros fuel. cbn [Nat.add if_loop]. rewrite E1.
  cbn [mbind C_bind]. change (tok_text TEnd ++ r) with (bstr "!endif" ++ CR :: LF :: r).
  change (tok_text TEnd ++ r) with (bstr "!endif" ++ CR :: LF :: r) in Hm. rewrite distance_end by done.
  cbn [negb bool_decide]. rewrite E2. cbn [mbind C_bind].
  replace (pre ++ bstr "!endif" ++ CR :: LF :: r) with (pre ++ (bstr "!endif" ++ [CR; LF]) ++ r)
    by (by rewrite <- app_assoc).
  rewrite distance_end; [by destruct (bool_decide (r = []))|]. rewrite Hm. by rewrite <- app_assoc.
Qed.

Lemma text_of_cons t ts : text_of (t :: ts) = tok_text t ++ text_of ts.
Proof. done. Qed.
Lemma text_of_app ts ts' : text_of (ts ++ ts') = text_of ts ++ text_of ts'.
Proof. unfold text_of. by rewrite fmap_app, join_app. Qed.
Lemma text_of_nil ts : text_of ts = [] -> ts = [].
Proof. destruct ts as [|t ts]; [done|]. rewrite text_of_cons. unfold tok_text. by destruct (tok_line t). Qed.

Lemma if_loop_spec ts : forall fuel s l q pre m, ts <> [] -> Forall good_tok ts ->
  tok_run env ts (count s, skip s, flag s) = Some (l, q) ->
  m = Z.of_nat (length (pre ++ text_of ts)) -> (length (text_of ts) <= fuel)%nat ->
  exists s', if_loop fuel v (pre ++ text_of ts) m (text_of ts) s = Ret s' /\ out s' = out s ++ text_of l /\
    left s' = left s - (Z.of_nat (length (text_of ts)) - Z.of_nat (length (text_of l))).
Proof.
  induction ts as [|t ts IH]; intros fuel s l q pre m Hne Hg Hrun Hm Hf; [done|].
  apply Forall_cons_1 in Hg as [Ht Hg]. cbn [tok_run] in Hrun.
  destruct (tok_step env t _) as [[l1 q1]|] eqn:Et; [|done].
  destruct (tok_run env ts q1) as [[l2 q2]|] eqn:Ets; [|done]. injection Hrun as <- <-.
  rewrite text_of_cons in *. rewrite length_app in Hf.
  destruct (if_loop_tok t (text_of ts) l1 q1 s pre m Ht Et Hm) as (k & s1 & Hk & (Ho & Hl & Eq) & E).
  replace fuel with (k + (fuel - k))%nat by lia. rewrite E, text_of_app, !length_app.
  destruct (decide (ts = [])) as [->|Hts].
  - cbn in Ets. injection Ets as <- <-. exists s1. change (text_of []) with (@nil Z).
    rewrite !app_nil_r. cbn [length]. split_and!; [done|done|lia].
  - rewrite bool_decide_eq_false_2 by (by intros ?%text_of_nil).
    destruct (IH (fuel - k)%nat s1 l2 q2 (pre ++ tok_text t) m Hts Hg) as (s' & E' & Ho' & Hl').
    + by rewrite Eq.
    + by rewrite <- app_assoc.
    + lia.
    + rewrite <- app_assoc in E'. exists s'. split; [done|]. rewrite Ho', Ho, <- app_assoc. split; [done|lia].
Qed.

Lemma subst_if_spec ts l q : ts <> [] -> Forall good_tok ts -> tok_run env ts (0, false, false) = Some (l, q) ->
  subst_if v (text_of ts) (Z.of_nat (length (text_of ts))) = Ret (text_of l, Z.of_nat (length (text_of l))).
Proof.
  intros Hne Hg Hrun. unfold subst_if.
  destruct (if_loop_spec ts (S (length (text_of ts)))
    {| out := []; left := Z.of_nat (length (text_of ts)); count := 0; skip := false; flag := false |}
    l q [] (Z.of_nat (length (text_of ts))) Hne Hg Hrun) as (s' & E & Ho & Hl); [done|lia|].
  cbn [app] in E. rewrite E. cbn [mbind C_bind]. rewrite Ho, Hl. cbn [out left app]. f_equal. f_equal. lia.
Qed.

(** *** Documents *)

Definition good_doc (d : doc) : Prop := Forall good_tok (tokens d) /\ defined env d.

Lemma good_dapp d d' : good_doc (dapp d d') <-> good_doc d /\ good_doc d'.
Proof.
  unfold good_doc. rewrite tokens_dapp, Forall_app.
  enough (defined env (dapp d d') <-> defined env d /\ defined env d') by tauto.
  induction d as [|w d IH|x s a _ e b _ d IH]; cbn; [tauto|done|]. rewrite IH. tauto.
Qed.
Lemma good_line w d : good_doc (DLine w d) <-> Forall pp_char w /\ good_doc d.
Proof. unfold good_doc. cbn. rewrite Forall_cons. tauto. Qed.
Lemma good_if x s a e b d : good_doc (DIf x s a e b d) ->
  good_doc a /\ (e = true -> good_doc b) /\ good_doc d /\ good_tok (TIf x s) /\ is_Some (env x) /\ defined env b.
Proof.
  unfold good_doc. cbn [tokens defined]. rewrite Forall_cons, !Forall_app, Forall_cons.
  intros ((H1 & H2 & H3 & H4 & H5) & H6 & H7 & H8 & H9). split_and!; try done.
  intros ->. by apply Forall_cons_1 in H3 as [_ H3].
Qed.

Lemma good_skeleton d : good_doc d -> good_doc (skeleton d).
Proof.
  induction d as [|w d IH|x s a IHa e b IHb d IH]; intros Hd; cbn [skeleton]; [done| |].
  - by apply good_line in Hd as [_ Hd%IH].
  - apply good_if in Hd as (Ha%IHa & Hb & [Hd1 Hd2]%IH & Hx & He & _).
    assert (Hc : good_doc (if e then dapp (skeleton a) (skeleton b) else skeleton a)).
    { destruct e; [|done]. apply good_dapp. split; [done|]. by apply IHb, Hb. }
    destruct Hc as [Hc1 Hc2]. split; cbn; [|done].
    rewrite Forall_cons, Forall_app, Forall_cons. done.
Qed.

Lemma good_one_level d : good_doc d -> good_doc (one_level env d).
Proof.
  induction d as [|w d IH|x s a IHa e b IHb d IH]; intros Hd; cbn [one_level]; [done| |].
  - apply good_line in Hd as [Hw Hd%IH]. by apply good_line.
  - apply good_if in Hd as (Ha & Hb & Hd%IH & _ & _ & _). apply good_dapp. split; [|done].
    assert (Hblank : good_doc (DLine [] DNil)) by (apply good_line; by split; [|split]).
    assert (Hnil : good_doc DNil) by (by split).
    destruct (holds_of env x s), e; repeat (apply good_dapp; split); auto using good_skeleton.
Qed.

(** The first condition of a text. *)
Lemma no_condition d : depth d = O -> tokens d = TLine <$> selected env d.
Proof.
  induction d as [|w d IH|x s a _ e b _ d IH]; intros Hd; cbn in *; [done| |lia]. by rewrite IH.
Qed.
Lemma first_condition d : depth d <> O -> exists ws x s ts, tokens d = (TLine <$> ws) ++ TIf x s :: ts.
Proof.
  induction d as [|w d IH|x s a _ e b _ d IH]; intros Hd; cbn in Hd; [done| |].
  - destruct (IH Hd) as (ws & x & s & ts & E). exists (w :: ws), x, s, ts. cbn. by rewrite E.
  - exists [], x, s. eexists. reflexivity.
Qed.

Lemma strstr_skip w r word : Forall (fun c => c <> ch "!") w -> head word = Some (ch "!") ->
  grub_strstr (w ++ r) word = grub_strstr r word.
Proof.
  intros Hw Hh. destruct word as [|c0 word]; [done|]. injection Hh as ->.
  induction Hw as [|c w Hc _ IH]; cbn [app grub_strstr starts_with]; [done|].
  destruct (Z.eqb_spec c (ch "!")); [done|]. by rewrite andb_false_r.
Qed.

Lemma lines_plain ws : Forall good_tok (TLine <$> ws) -> Forall (fun c => c <> ch "!") (text_of (TLine <$> ws)).
Proof.
  induction ws as [|w ws IH]; cbn [fmap list_fmap]; [constructor|]. intros [Hw Hws]%Forall_cons_1.
  rewrite text_of_cons, tok_text_app. apply Forall_app. split; [eapply Forall_impl; [exact Hw|]; by intros c (_ & _ & ?)|].
  constructor; [done|]. constructor; [done|]. by apply IH.
Qed.

Lemma lines_end w ws : exists p, text_of (TLine <$> (w :: ws)) = p ++ [LF].
Proof.
  revert w. induction ws as [|w' ws IH]; intros w; cbn [fmap list_fmap].
  - exists (w ++ [CR]). rewrite text_of_one. unfold tok_text. cbn. by rewrite <- app_assoc.
  - destruct (IH w') as [p E]. cbn [fmap list_fmap] in E. exists (tok_text (TLine w) ++ p).
    by rewrite text_of_cons, E, app_assoc.
Qed.

(** Another pass is made just if there is a condition. *)
Lemma once_more_if below w d : good_doc (DLine w d) ->
  once_more below (text_of (tokens (DLine w d))) (bstr "!if") = negb (depth d =? 0)%nat.
Proof.
  intros [Hg _]. unfold once_more. change (depth d) with (depth (DLine w d)).
  set (d' := DLine w d) in *. destruct (Nat.eqb_spec (depth d') 0) as [E|E].
  - rewrite (no_condition d' E) in Hg |- *. rewrite <- (app_nil_r (text_of _)).
    by rewrite strstr_skip by (done || by apply lines_plain).
  - assert (Hws : exists ws x s ts, tokens d' = (TLine <$> (w :: ws)) ++ TIf x s :: ts).
    { destruct (first_condition d E) as (ws & x & s & ts & E'). exists ws, x, s, ts. cbn. by rewrite E'. }
    destruct Hws as (ws & x & s & ts & E'). rewrite E' in Hg |- *. apply Forall_app in Hg as [Hws _].
    rewrite text_of_app, strstr_skip, text_of_cons by (done || by apply lines_plain).
    cbn [negb]. set (r := tok_text (TIf x s) ++ text_of ts).
    assert (Er : grub_strstr r (bstr "!if") = Some r) by done. rewrite Er, length_app.
    destruct (lines_end w ws) as [p ->].
    replace (length (p ++ [LF]) + length r - length r)%nat with (S (length p)) by (rewrite length_app; cbn; lia).
    rewrite <- app_assoc, lookup_app_r, Nat.sub_diag by done. done.
Qed.

(** The passes over conditions. *)
Lemma passes_if fuel : forall below w d, good_doc (DLine w d) -> (depth d < fuel)%nat ->
  exists ls, passes fuel (subst_if v) below (bstr "!if") (text_of (tokens (DLine w d)))
    (Z.of_nat (length (text_of (tokens (DLine w d))))) =
    Ret (text_of (TLine <$> ls), Z.of_nat (length (text_of (TLine <$> ls)))) /\
    filter not_blank ls = filter not_blank (selected env (DLine w d)).
Proof.
  induction fuel as [|fuel IH]; intros below w d Hd Hf; [lia|]. cbn [passes].
  destruct Hd as [Hg Hdef]. pose proof (good_one_level _ (conj Hg Hdef)) as Hd1.
  assert (Hne : tokens (DLine w d) <> []) by (by cbn).
  rewrite (subst_if_spec _ _ _ Hne Hg (outer_run env _ Hdef)). cbn [mbind C_bind one_level].
  cbn [one_level] in Hd1. rewrite once_more_if by done.
  pose proof (depth_one_level env d) as Hdepth. pose proof (selected_one_level env (DLine w d)) as Hsel.
  cbn [one_level] in Hsel.
  destruct (Nat.eqb_spec (depth (one_level env d)) 0) as [E|E]; cbn [negb].
  - exists (selected env (DLine w (one_level env d))). split; [|done].
    by rewrite (no_condition (DLine w (one_level env d))).
  - destruct (IH below w (one_level env d) Hd1) as (ls & E1 & E2); [lia|]. exists ls. split; [done|]. by rewrite E2.
Qed.

End texts.

(** *** Files *)

(** A source: lines, and places where a file is included. *)
Inductive source_line := SLine (w : list Z) | SInclude (quoted : bool) (name : list Z).

Definition no_eol (w : list Z) : Prop := Forall (fun c => c <> CR /\ c <> LF) w.
Definition quote (q : bool) (w : list Z) : list Z := if q then 34 :: w ++ [34] else w.
Definition source_bytes (x : source_line) : list Z :=
  (match x with SLine w => w | SInclude q n => bstr "!include " ++ quote q n end) ++ [CR; LF].
Definition source_text (xs : list source_line) : list Z := mjoin (source_bytes <$> xs).
Definition good_source (x : source_line) : Prop :=
  match x with
  | SLine w => no_eol w /\ starts_with w (bstr "!include ") = false
  | SInclude _ n => no_eol n /\ Forall (fun c => c <> 34) n /\ n <> [] /\ head n <> Some 32
  end.

Definition included_line (files : list Z -> list Z) (x : source_line) : list Z :=
  match x with SLine w => w ++ [CR; LF] | SInclude _ n => files n end.
Definition included (files : list Z -> list Z) (xs : list source_line) : list Z := mjoin (included_line files <$> xs).

Lemma no_eol_stops w : no_eol w -> Forall (fun c => is_eol_char c = false) w.
Proof.
  intros H. eapply Forall_impl; [exact H|]. intros c [H1 H2]. unfold is_eol_char.
  by apply orb_false_iff; split; apply Z.eqb_neq.
Qed.

(** A word of a line does not begin with what the line itself does not begin with. *)
Lemma starts_line w r p : no_eol p -> starts_with w p = false -> starts_with (w ++ CR :: r) p = false.
Proof.
  revert p. induction w as [|c w IH]; intros [|c' p] Hp Hs; cbn [app starts_with] in *; try done.
  - apply Forall_cons_1 in Hp as [[Hc _] _]. by destruct (Z.eqb_spec CR c') as [<-|].
  - apply Forall_cons_1 in Hp as [_ Hp]. destruct (c =? c'); [by apply IH|done].
Qed.

Lemma no_eol_include : no_eol (bstr "!include ").
Proof. by repeat constructor. Qed.

Section includes.
Context (files : list Z -> list Z).

Lemma include_line_spec x r out len : good_source x ->
  include_line files (source_bytes x ++ r) out len =
  Ret (r, out ++ included_line files x,
       len + (Z.of_nat (length (included_line files x)) - Z.of_nat (length (source_bytes x)))).
Proof.
  intros Hx. unfold include_line. rewrite <- (distance_app (source_bytes x) r).
  destruct x as [w|q n]; cbn [included_line].
  - destruct Hx as [Hw Hs].
    assert (E : source_bytes (SLine w) ++ r = w ++ CR :: LF :: r) by (unfold source_bytes; by rewrite <- app_assoc).
    assert (Ed : distance (w ++ CR :: LF :: r) r = Z.of_nat (length (w ++ [CR; LF]))).
    { rewrite <- distance_app with (r := r). by rewrite <- app_assoc. }
    rewrite E, starts_line, Ed by (done || apply no_eol_include). unfold copy_to_eol.
    rewrite until_app by (done || by apply no_eol_stops). cbn [mbind C_bind over_eol is_eol_char orb Z.eqb].
    change (over_eol (over_eol (CR :: LF :: r))) with r. f_equal. f_equal. lia.
  - destruct Hx as (Hn & Hq & Hne & H32).
    assert (E : source_bytes (SInclude q n) ++ r = bstr "!include " ++ quote q n ++ CR :: LF :: r).
    { unfold source_bytes. by rewrite <- !app_assoc. }
    rewrite E, starts_with_app. destruct n as [|c n]; [done|].
    assert (Hc : (c =? 32) = false) by (apply Z.eqb_neq; intros ->; by apply H32).
    assert (Hc34 : (c =? 34) = false) by (apply Forall_cons_1 in Hq as [Hq _]; by apply Z.eqb_neq).
    assert (Hstop : Forall (fun c => is_eol_char c || (c =? 34) = false) (c :: n)).
    { apply no_eol_stops in Hn. rewrite Forall_forall in Hn, Hq |- *. intros a Ha. rewrite Hn by done.
      cbn. apply Z.eqb_neq. by apply Hq. }
    destruct q; cbn [quote].
    + change (over_blanks (drop 9 (bstr "!include " ++ ?l))) with l. cbn [app]. rewrite <- app_assoc.
      cbv zeta. change (cur (34 :: ?l) =? 34) with true. cbv iota. cbn [tail].
      change (c :: n ++ [34] ++ CR :: LF :: r) with ((c :: n) ++ 34 :: CR :: LF :: r).
      rewrite until_app by done. cbn [mbind C_bind]. change (cur (34 :: ?l) =? 34) with true. cbv iota. done.
    + change (drop 9 (bstr "!include " ++ ?l)) with l. cbn [app over_blanks]. rewrite Hc.
      cbv zeta. change (cur (c :: ?l)) with c. rewrite Hc34.
      change (c :: n ++ CR :: LF :: r) with ((c :: n) ++ CR :: LF :: r). rewrite until_app by done. done.
Qed.

Lemma source_bytes_end x : exists w, source_bytes x = w ++ [CR; LF].
Proof. destruct x; by eexists. Qed.
Lemma source_text_cons x xs : source_text (x :: xs) = source_bytes x ++ source_text xs.
Proof. done. Qed.
Lemma source_text_nil xs : source_text xs = [] -> xs = [].
Proof.
  destruct xs as [|x xs]; [done|]. rewrite source_text_cons. destruct (source_bytes_end x) as [w ->]. by destruct w.
Qed.

Lemma include_loop_spec xs : forall fuel pre m out len, xs <> [] -> Forall good_source xs ->
  m = Z.of_nat (length (pre ++ source_text xs)) -> (length (source_text xs) <= fuel)%nat ->
  include_loop files fuel (pre ++ source_text xs) m (source_text xs) out len =
  Ret (out ++ included files xs,
       len + (Z.of_nat (length (included files xs)) - Z.of_nat (length (source_text xs)))).
Proof.
  induction xs as [|x xs IH]; intros fuel pre m out len Hne Hg Hm Hf; [done|].
  apply Forall_cons_1 in Hg as [Hx Hg]. rewrite source_text_cons in *. rewrite length_app in *.
  assert (Hpos : (0 < length (source_bytes x))%nat).
  { destruct (source_bytes_end x) as [w ->]. rewrite length_app. cbn. lia. }
  destruct fuel as [|fuel]; [lia|]. cbn [include_loop]. rewrite include_line_spec by done. cbn [mbind C_bind].
  rewrite distance_end by (rewrite Hm, !length_app; lia).
  change (included files (x :: xs)) with (included_line files x ++ included files xs).
  rewrite !length_app. destruct (decide (xs = [])) as [->|Hxs].
  - change (included files []) with (@nil Z). change (source_text []) with (@nil Z).
    cbn [negb bool_decide decide length]. f_equal. f_equal; [by rewrite app_nil_r|lia].
  - rewrite bool_decide_eq_false_2 by (by intros ?%source_text_nil). cbn [negb].
    rewrite app_assoc, IH; [|done|done|rewrite Hm, !length_app; lia|lia].
    rewrite <- app_assoc. f_equal. f_equal. lia.
Qed.

Lemma subst_include_spec xs : xs <> [] -> Forall good_source xs ->
  subst_include files (source_text xs) (Z.of_nat (length (source_text xs))) =
  Ret (included files xs, Z.of_nat (length (included files xs))).
Proof.
  intros Hne Hg. unfold subst_include.
  pose proof (include_loop_spec xs (S (length (source_text xs))) [] _ [] (Z.of_nat (length (source_text xs)))
    Hne Hg eq_refl) as E. cbn [app] in E. rewrite E by lia. f_equal. f_equal. lia.
Qed.
End includes.

(** Nothing is left to include in lines and conditions. *)
Lemma nothing_to_include ts : Forall good_tok ts -> grub_strstr (text_of ts) (bstr "!include ") = None.
Proof.
  induction ts as [|t ts IH]; intros Hg; [done|]. apply Forall_cons_1 in Hg as [Ht Hg].
  rewrite text_of_cons, tok_text_app. destruct (tok_chars t Ht) as [Et|(w & Et & Hw)].
  - rewrite Et in Ht. change (CR :: LF :: text_of ts) with ([CR; LF] ++ text_of ts).
    rewrite app_assoc, strstr_skip; [by apply IH| |done]. apply Forall_app. split.
    + eapply Forall_impl; [exact Ht|]. by intros c (_ & _ & ?).
    + by repeat constructor.
  - assert (Es : starts_with (tok_line t ++ CR :: LF :: text_of ts) (bstr "!include ") = false).
    { destruct t as [w'|x s| |]; [|done..]. by apply starts_plain. }
    rewrite Et in Es |- *. cbn [app grub_strstr] in Es |- *. rewrite Es, andb_false_r.
    change (CR :: LF :: text_of ts) with ([CR; LF] ++ text_of ts).
    rewrite app_assoc, strstr_skip; [by apply IH| |done]. apply Forall_app. split.
    + eapply Forall_impl; [exact Hw|]. by intros c (_ & _ & ?).
    + by repeat constructor.
Qed.

Lemma means_text v m n s : means v m -> m !! n = Some s -> text s.
Proof.
  intros (l & Hw & Hm) E. rewrite Hm in E. unfold value_of in E. destruct (decide (n = [])); [done|].
  destruct (find_spec l n 0) as [(_ & E' & _)|(k & s' & _ & Hk & E')]; [lia|congruence|].
  assert (s' = s) as -> by congruence.
  destruct (entry_at_spec v l k n s) as (p & q & _ & _ & _ & Hs & _); [by auto with cmodel|done|]. by destruct Hs.
Qed.

(** The values of the variables in conditions. *)
Definition lookup_vars (m : gmap (list Z) (list Z)) (x : list Z) : option (list Z) := m !! x.

(** C19: What [preprocess] makes of a text has the contents of the included files in the
    place of the [!include] lines, and of these the lines that the conditions select, in
    any depth; it may have more empty lines.  The text is in CR LF format and begins with a
    plain line; lines hold no exclamation mark but in directives, the conditions ask for
    variables that are set, and included files include no others. *)
Theorem preprocess_selects files fuel v m below xs w d : means v m -> xs <> [] -> Forall good_source xs ->
  included files xs = text_of (tokens (DLine w d)) -> good_doc (lookup_vars m) (DLine w d) -> (depth d < fuel)%nat ->
  exists ls, preprocess files fuel v below (source_text xs) = Ret (text_of (TLine <$> ls)) /\
    filter not_blank ls = filter not_blank (selected (lookup_vars m) (DLine w d)).
Proof.
  intros Hv Hne Hxs Hinc Hg Hf. unfold preprocess. destruct fuel as [|fuel]; [lia|]. cbn [passes].
  rewrite subst_include_spec by done. cbn [mbind C_bind]. rewrite Hinc.
  assert (E0 : once_more below (text_of (tokens (DLine w d))) (bstr "!include ") = false)
    by (unfold once_more; by rewrite nothing_to_include by apply Hg).
  rewrite E0. cbn [mbind C_bind].
  destruct (passes_if v (lookup_vars m) (fun x Hx => var_get_means v m x Hv Hx) (fun x y E => means_text v m x y Hv E)
    (S fuel) below w d Hg Hf) as (ls & E & Hls).
  cbn [passes] in E. rewrite E. cbn [mbind C_bind]. exists ls. split; [|done].
  by rewrite Nat2Z.id, firstn_all.
Qed.

(** *** The end of a pass *)

(** A result that is not [NoFuel], and leaves less than [n] bytes. *)
Definition consumes {A} (n : nat) (rest : A -> list Z) (c : C A) : Prop :=
  match c with Ret x => (length (rest x) < n)%nat | NoFuel => False | _ => True end.

Lemma until_inv stop l : match until stop l with
  | Ret (w, r) => length l = (length w + length r)%nat /\ exists c r', r = c :: r' /\ stop c = true
  | NoFuel => False
  | _ => True
  end.
Proof.
  induction l as [|c l IH]; cbn [until]; [done|]. destruct (stop c) eqn:E; [split; [done|by exists c, l]|].
  destruct (until stop l) as [[w r]| | |]; cbn; try done. destruct IH as [-> ?]. done.
Qed.

Lemma over_eol_length l : (length (over_eol l) <= length l)%nat.
Proof. destruct l as [|c l]; cbn; [lia|]. destruct (is_eol_char c); cbn; lia. Qed.
Lemma over_blanks_length l : (length (over_blanks l) <= length l)%nat.
Proof. induction l as [|c l IH]; cbn; [lia|]. destruct (c =? 32); cbn; lia. Qed.
Lemma tail_if_length (b : bool) (l : list Z) : (length (if b then tail l else l) <= length l)%nat.
Proof. destruct b; [|lia]. destruct l; cbn; lia. Qed.

Lemma over_line_end r c r' : r = c :: r' -> is_eol_char c = true -> (length (over_eol (over_eol r)) < length r)%nat.
Proof. intros -> Hc. cbn [over_eol]. rewrite Hc. pose proof (over_eol_length r'). cbn. lia. Qed.

Lemma copy_to_eol_consumes l : consumes (length l) snd (copy_to_eol l).
Proof.
  unfold copy_to_eol. pose proof (until_inv is_eol_char l) as H.
  destruct (until is_eol_char l) as [[w r]| | |]; cbn; try done. destruct H as [-> (c & r' & E & Hc)].
  pose proof (over_line_end r c r' E Hc). lia.
Qed.
Lemma copied_consumes l s : consumes (length l) fst (copied l s).
Proof.
  unfold copied. pose proof (copy_to_eol_consumes l) as H. by destruct (copy_to_eol l) as [[w r]| | |].
Qed.
Lemma dropped_consumes l s : consumes (length l) fst (dropped l s).
Proof.
  unfold dropped, skip_to_eol. pose proof (until_inv is_eol_char l) as H.
  destruct (until is_eol_char l) as [[w r]| | |]; cbn; try done. destruct H as [-> (c & r' & E & Hc)].
  pose proof (over_line_end r c r' E Hc). lia.
Qed.

Lemma starts_with_length l p : starts_with l p = true -> (length p <= length l)%nat.
Proof. intros [r ->]%starts_with_spec. rewrite length_app. lia. Qed.

Lemma str_at_ends b p : str_at b p <> NoFuel.
Proof.
  unfold str_at. destruct (0 <=? p); [|done]. induction (drop (Z.to_nat p) b) as [|c l IH]; cbn; [done|].
  destruct (c =? 0); [done|]. by destruct (cstr l).
Qed.
Lemma var_get_ends v n : var_get v n <> NoFuel.
Proof.
  unfold var_get, var_get_index. assert (H : forall l i, index_loop (store v) l i n <> NoFuel).
  { induction l as [|[[p|] q] l IH]; intros i; cbn [index_loop]; [done| |apply IH].
    pose proof (str_at_ends (store v) p). destruct (str_at (store v) p); cbn; try done. by destruct (_ =? 0). }
  assert (H' : (if cur n =? 0 then Ret (-1) else index_loop (store v) (variable_list v) 0 n) <> NoFuel)
    by (destruct (cur n =? 0); [done|apply H]).
  destruct (if cur n =? 0 then _ else _) as [i| | |]; cbn; try done. destruct (i =? -1); [done|].
  unfold entry_at. destruct (0 <=? i); [|done]. destruct (variable_list v !! Z.to_nat i) as [[p [q|]]|]; cbn; try done.
  pose proof (str_at_ends (store v) q). by destruct (str_at (store v) q).
Qed.

Lemma if_line_consumes v l s : consumes (length l) fst (if_line v l s).
Proof.
  unfold if_line. destruct (starts_with l (bstr "!ifeq ")) eqn:E1;
    [|destruct (starts_with l (bstr "!else")) eqn:E2; [|destruct (starts_with l (bstr "!endif")) eqn:E3]].
  - apply starts_with_length in E1. change (length (bstr "!ifeq ")) with 6%nat in E1. cbv zeta.
    destruct (_ =? 1); [|apply copied_consumes].
    pose proof (over_blanks_length (drop 6 l)) as Hb. rewrite length_drop in Hb.
    pose proof (until_inv (fun c => c =? 32) (over_blanks (drop 6 l))) as H1.
    destruct (until _ (over_blanks (drop 6 l))) as [[x r]| | |]; cbn [mbind C_bind]; try done. destruct H1 as [H1 _].
    destruct (_ <? WORD_SIZE); [|done]. cbn [require mbind C_bind].
    pose proof (over_blanks_length r) as Hr.
    pose proof (until_inv (fun c => (c =? 32) || is_eol_char c) (over_blanks r)) as H2.
    destruct (until _ (over_blanks r)) as [[y r']| | |]; cbn [mbind C_bind]; try done. destruct H2 as [H2 _].
    destruct (_ <? WORD_SIZE); [|done]. cbn [require mbind C_bind].
    pose proof (var_get_ends v x) as Hv. destruct (var_get v x) as [[y'|]| | |]; cbn; try done.
    pose proof (over_blanks_length r'). pose proof (over_eol_length (over_blanks r')).
    pose proof (over_eol_length (over_eol (over_blanks r'))). lia.
  - apply starts_with_length in E2. change (length (bstr "!else")) with 5%nat in E2.
    destruct (count s =? 1); [|destruct (skip s); [apply dropped_consumes|apply copied_consumes]]. cbn.
    pose proof (over_blanks_length (drop 5 l)) as Hb. rewrite length_drop in Hb.
    pose proof (over_eol_length (over_blanks (drop 5 l))).
    pose proof (over_eol_length (over_eol (over_blanks (drop 5 l)))). lia.
  - apply starts_with_length in E3. change (length (bstr "!endif")) with 6%nat in E3.
    assert (H : consumes (length l) fst (if 1 <? count s then copied l s else if skip s then dropped l s
      else let r := over_blanks (drop 6 l) in Ret (r, shorten s (distance l r)))).
    { destruct (1 <? count s); [apply copied_consumes|]. destruct (skip s); [apply dropped_consumes|]. cbn.
      pose proof (over_blanks_length (drop 6 l)) as Hb. rewrite length_drop in Hb. lia. }
    by destruct (if 1 <? count s then _ else _) as [[r s']| | |].
  - destruct (skip s); [apply dropped_consumes|apply copied_consumes].
Qed.

Lemma include_line_consumes files l out len : consumes (length l) (fun x => x.1.1) (include_line files l out len).
Proof.
  unfold include_line. destruct (starts_with l (bstr "!include ")) eqn:E.
  - apply starts_with_length in E. change (length (bstr "!include ")) with 9%nat in E. cbv zeta.
    pose proof (over_blanks_length (drop 9 l)) as Hb. rewrite length_drop in Hb.
    pose proof (tail_if_length (cur (over_blanks (drop 9 l)) =? 34) (over_blanks (drop 9 l))) as Ht.
    pose proof (until_inv (fun c => is_eol_char c || (c =? 34))
      (if cur (over_blanks (drop 9 l)) =? 34 then tail (over_blanks (drop 9 l)) else over_blanks (drop 9 l))) as H.
    destruct (until _ _) as [[w r]| | |]; cbn; try done. destruct H as [H _].
    pose proof (tail_if_length (cur r =? 34) r). pose proof (over_eol_length (if cur r =? 34 then tail r else r)).
    pose proof (over_eol_length (over_eol (if cur r =? 34 then tail r else r))). lia.
  - pose proof (copy_to_eol_consumes l) as H. by destruct (copy_to_eol l) as [[w r]| | |].
Qed.

(** C36: Both passes end on every text, whatever its lines are: each step goes at least one
    byte further. *)
Theorem pass_ends files v from len : subst_if v from len <> NoFuel /\ subst_include files from len <> NoFuel.
Proof.
  split.
  - unfold subst_if. set (s0 := Build_if_state _ _ _ _ _). clearbody s0.
    enough (H : forall fuel line s, (length line < fuel)%nat -> if_loop fuel v from len line s <> NoFuel).
    { specialize (H (S (length from)) from s0 ltac:(lia)). by destruct (if_loop _ _ _ _ _ _). }
    induction fuel as [|fuel IH]; intros line s Hf; [lia|]. cbn [if_loop].
    pose proof (if_line_consumes v line s) as H. destruct (if_line v line s) as [[r s']| | |]; cbn in *; try done.
    destruct (_ <? len); [|done]. apply IH. lia.
  - unfold subst_include.
    enough (H : forall fuel line out n, (length line < fuel)%nat ->
      include_loop files fuel from len line out n <> NoFuel)
      by (apply H; lia).
    induction fuel as [|fuel IH]; intros line out n Hf; [lia|]. cbn [include_loop].
    pose proof (include_line_consumes files line out n) as H.
    destruct (include_line files line out n) as [[[r o] n']| | |]; cbn in *; try done.
    destruct (_ <? len); [|done]. apply IH. lia.
Qed.

(** ** Concrete texts *)

Definition pp_charb (c : Z) : bool := negb (is_eol_char c) && negb (c =? ch "!").
Definition pp_wordb (w : list Z) : bool :=
  forallb (fun c => pp_charb c && negb (c =? 32) && (0 <? c) && (c <? 256)) w && (Z.of_nat (length w) <? WORD_SIZE).
Definition good_tokb (t : ltok) : bool :=
  match t with
  | TLine w => forallb pp_charb w
  | TIf x s => pp_wordb x && negb (bool_decide (x = [])) && pp_wordb s
  | _ => true
  end.
Definition good_sourceb (x : source_line) : bool :=
  match x with
  | SLine w => forallb (fun c => negb (is_eol_char c)) w && negb (starts_with w (bstr "!include "))
  | SInclude _ n => forallb (fun c => negb (is_eol_char c) && negb (c =? 34)) n &&
                    negb (bool_decide (n = [])) && negb (bool_decide (head n = Some 32))
  end.

Lemma not_eol_inv c : negb (is_eol_char c) = true -> c <> CR /\ c <> LF.
Proof. intros H%negb_true_iff. unfold is_eol_char in H. by apply orb_false_iff in H as [?%Z.eqb_neq ?%Z.eqb_neq]. Qed.
Lemma pp_char_inv c : pp_charb c = true -> pp_char c.
Proof.
  intros [[H1 H2]%not_eol_inv H3%negb_true_iff]%andb_true_iff. split_and!; [done|done|by apply Z.eqb_neq].
Qed.
Lemma forallb_inv {A} (f : A -> bool) (P : A -> Prop) l :
  (forall x, f x = true -> P x) -> forallb f l = true -> Forall P l.
Proof. intros H. rewrite forallb_forall, Forall_forall. intros Hf x Hx. apply H, Hf. by apply list_elem_of_In. Qed.

Lemma pp_word_inv w : pp_wordb w = true -> pp_word w.
Proof.
  intros [Hw Hl%Z.ltb_lt]%andb_true_iff.
  assert (H : Forall (fun c => (pp_char c /\ c <> 32) /\ 0 < c < 256) w).
  { revert Hw. apply forallb_inv. intros c [[[H1%pp_char_inv H2%negb_true_iff%Z.eqb_neq]%andb_true_iff
      H3%Z.ltb_lt]%andb_true_iff H4%Z.ltb_lt]%andb_true_iff. done. }
  apply Forall_and in H as [H1 H2]. by split_and!.
Qed.
Lemma good_tok_inv t : good_tokb t = true -> good_tok t.
Proof.
  destruct t as [w|x s| |]; cbn;
    [|intros [[H1%pp_word_inv H2%negb_true_iff]%andb_true_iff H3%pp_word_inv]%andb_true_iff|done..].
  - apply forallb_inv, pp_char_inv.
  - split_and!; [done| |done]. by apply bool_decide_eq_false in H2.
Qed.
Lemma good_toks_check ts : forallb good_tokb ts = true -> Forall good_tok ts.
Proof. apply forallb_inv, good_tok_inv. Qed.
Lemma good_source_inv x : good_sourceb x = true -> good_source x.
Proof.
  destruct x as [w|q n]; cbn.
  - intros [H1 H2%negb_true_iff]%andb_true_iff. split; [|done]. revert H1. apply forallb_inv, not_eol_inv.
  - intros [[H1 H2%negb_true_iff]%andb_true_iff H3%negb_true_iff]%andb_true_iff.
    assert (H : Forall (fun c => (c <> CR /\ c <> LF) /\ c <> 34) n).
    { revert H1. apply forallb_inv. by intros c [H1%not_eol_inv H2'%negb_true_iff%Z.eqb_neq]%andb_true_iff. }
    apply Forall_and in H as [Ha Hb]. apply bool_decide_eq_false in H2, H3. by split_and!.
Qed.
Lemma good_source_check xs : forallb good_sourceb xs = true -> Forall good_source xs.
Proof. apply forallb_inv, good_source_inv. Qed.

Definition crlf_lines (ls : list string) : list Z := mjoin ((fun l => bstr l ++ [CR; LF]) <$> ls).
Definition pp_demo_files (n : list Z) : list Z :=
  if bool_decide (n = bstr "more") then crlf_lines ["kernel"; "!ifeq DRIVE hd1"; "module"; "!endif"]
  else if bool_decide (n = bstr "outer") then crlf_lines ["!include more"] else [].
Definition demo_source : list source_line :=
  [SLine (bstr "title"); SLine (bstr "!ifeq DRIVE hd0"); SInclude true (bstr "more"); SLine (bstr "!else");
   SLine (bstr "other"); SLine (bstr "!endif"); SLine (bstr "boot")].
Definition demo_doc : doc :=
  DIf (bstr "DRIVE") (bstr "hd0")
    (DLine (bstr "kernel") (DIf (bstr "DRIVE") (bstr "hd1") (DLine (bstr "module") DNil) false DNil DNil)) true
    (DLine (bstr "other") DNil) (DLine (bstr "boot") DNil).

Lemma preprocess_selects_witness : exists v ls,
  var_set stale0 empty_vars (bstr "DRIVE") (bstr "hd0") false = Ret (0, v) /\
  preprocess pp_demo_files 3 v 0 (source_text demo_source) = Ret (text_of (TLine <$> ls)) /\
  filter not_blank ls = bstr <$> ["title"; "kernel"; "boot"]%string.
Proof.
  destruct (var_set_means stale0 empty_vars ∅ (bstr "DRIVE") (bstr "hd0") empty_means) as (v & E & M);
    [by apply text_check..|done|exact demo_room|].
  destruct (preprocess_selects pp_demo_files 3 v _ 0 demo_source (bstr "title") demo_doc M) as (ls & E1 & E2).
  - done.
  - by apply good_source_check.
  - vm_compute. reflexivity.
  - split; [by apply good_toks_check|]. by repeat split; eexists.
  - vm_compute. lia.
  - exists v, ls. split; [exact E|]. split; [exact E1|]. rewrite E2. vm_compute. reflexivity.
Defined.

Definition with_drive : var_state :=
  match var_set stale0 empty_vars (bstr "DRIVE") (bstr "hd0") false with Ret (_, v) => v | _ => empty_vars end.

(** Of a file included by an included one, and of conditions in conditions. *)
Example nested_include : preprocess pp_demo_files 5 with_drive 0 (crlf_lines ["a"; "!include outer"; "b"]%string) =
  Ret (crlf_lines ["a"; "kernel"; "b"]%string).
Proof. vm_compute. reflexivity. Qed.

(** Another pass is made only if the first place of the word is the beginning of a line:
    after a mention of [!include] in a line, what an included file includes is not. *)
Example include_mentioned :
  preprocess pp_demo_files 5 with_drive 0 (crlf_lines ["rem !include is read"; "!include outer"; "b"]%string) =
  Ret (crlf_lines ["rem !include is read"; "!include more"; "b"]%string).
Proof. vm_compute. reflexivity. Qed.

(** The byte in front of the text is not a line feed: a condition that a pass leaves at
    the beginning stays. *)
Example condition_at_start :
  preprocess pp_demo_files 5 with_drive 0
    (crlf_lines ["!ifeq DRIVE hd0"; "!ifeq DRIVE hd0"; "a"; "!endif"; "!endif"; "b"]%string) =
  Ret (crlf_lines ["!ifeq DRIVE hd0"; "a"; "!endif"; ""; "b"]%string).
Proof. vm_compute. reflexivity. Qed.

(** A condition on a variable that is not set uses a null pointer, also where the
    condition is in a part that is not selected. *)
Example unset_variable :
  preprocess pp_demo_files 5 with_drive 0 (crlf_lines ["a"; "!ifeq OTHER 1"; "b"; "!endif"]%string) = Undef /\
  preprocess pp_demo_files 5 with_drive 0
    (crlf_lines ["a"; "!ifeq DRIVE hd1"; "!ifeq OTHER 1"; "b"; "!endif"; "!endif"]%string) = Undef.
Proof. split; vm_compute; reflexivity. Qed.

(** Line feeds become two bytes, but the length of the text stays: its end is cut off. *)
Example line_feeds_only :
  preprocess pp_demo_files 5 with_drive 0 (bstr "one" ++ [LF] ++ bstr "two" ++ [LF] ++ bstr "three" ++ [LF]) =
  Ret (bstr "one" ++ [CR; LF] ++ bstr "two" ++ [CR; LF] ++ bstr "thre" ).
Proof. vm_compute. reflexivity. Qed.

(** The last line must have an end, and the text must not be empty. *)
Example no_line_end :
  preprocess pp_demo_files 5 with_drive 0 (crlf_lines ["a"]%string ++ bstr "b") = Undef /\
  preprocess pp_demo_files 5 with_drive 0 [] = Undef.
Proof. split; vm_compute; reflexivity. Qed.

(** A file that includes itself is included for ever. *)
Definition self_files (n : list Z) : list Z :=
  if bool_decide (n = bstr "self") then crlf_lines ["!include self"]%string else [].
Example includes_itself fuel v below :
  preprocess self_files fuel v below (crlf_lines ["a"; "!include self"]%string) = NoFuel.
Proof.
  set (t := crlf_lines _).
  assert (Ep : subst_include self_files t (Z.of_nat (length t)) = Ret (t, Z.of_nat (length t)))
    by (vm_compute; reflexivity).
  assert (Em : once_more below t (bstr "!include ") = true) by (vm_compute; reflexivity).
  unfold preprocess.
  assert (E : forall fuel,
    passes fuel (subst_include self_files) below (bstr "!include ") t (Z.of_nat (length t)) = NoFuel).
  { clear fuel. induction fuel as [|fuel IH]; [done|]. cbn [passes]. rewrite Ep. cbn [mbind C_bind]. by rewrite Em. }
  by rewrite E.
Qed.
