(* ===== verification/BootLoad.v ===== *)
(** * Loading the modules of OS/2 at boot ([bootseq/loader/kernels/cfgsys.c])

    When OS/2 is started from the loader, the files that its kernel needs before it can
    read a disk are loaded as boot modules: the kernel's own, the drivers that
    CONFIG.SYS names and the libraries on its LIBPATH. *)
From S2P Require Import Prelude BootLib BootMod BootVar BootToggle BootMenu.

(** ** What the loader does for it

    [exec_cmd] executes a line as on the loader's command line; the result is 0 when it
    failed.  The command lines of the modules are in memory. *)
Class BootLoader (St : Type) := {
  exec_cmd : list Z -> St -> C (Z * St);
  cmdlines : St -> list (list Z)
}.

(** What CONFIG.SYS says; an option that is not in it is a null pointer.  The two
    code pages are followed by a zero. *)
Record boot_cfg := {
  psd : list (Z * list Z); basedev : list (Z * list Z); device : list (Z * list Z); ifs : list (Z * list Z);
  call_ : list (Z * list Z); run : list (Z * list Z); set_ : list (Z * list Z); ixf : list (Z * list Z);
  libpath : option (list Z); country : option (list Z); devinfo_kbd : option (list Z);
  devinfo_vio : option (list Z); codepage : list Z; protshell : option (list Z)
}.

(** [type]: the lists of lines by the names of their commands. *)
Definition type_table (c : boot_cfg) : list (list Z * list (Z * list Z)) :=
  [(bstr "PSD", psd c); (bstr "BASEDEV", basedev c); (bstr "DEVICE", device c); (bstr "IFS", ifs c);
   (bstr "CALL", call_ c); (bstr "RUN", run c); (bstr "SET", set_ c); (bstr "IXF", ixf c)].

(** [CfgGetenv]: the value of the first line whose name goes on like [name] up to its
    equal sign. *)
Fixpoint env_match (p name : list Z) : option (list Z) :=
  match p with
  | [] => None
  | c :: p => if c =? ch "=" then Some p
              else if c =? toupper (cur name) then env_match p (tail name) else None
  end.
Fixpoint cfg_getenv (l : list (Z * list Z)) (name : list Z) : option (list Z) :=
  match l with
  | [] => None
  | (_, p) :: l => match env_match p name with Some v => Some v | None => cfg_getenv l name end
  end.

(** ** Names of files *)

(** The characters up to one that [stop] holds of. *)
Fixpoint upto (stop : Z -> bool) (s : list Z) : list Z * list Z :=
  match s with
  | [] => ([], [])
  | c :: s' => if stop c then ([], s) else let '(w, r) := upto stop s' in (c :: w, r)
  end.

Definition lower (c : Z) : Z := tolower (if c =? ch "\" then ch "/" else c).

(** The second character of a name; an empty one has no such place. *)
Definition second (s : list Z) : C Z := need ((s ++ [0]) !! 1%nat).

(** The name in small letters and with slashes, without drive and the first slash. *)
Definition strip (module : list Z) : C (list Z) :=
  let m := lower <$> module in
  c ← second m;
  let m := if c =? ch ":" then drop 2 m else m in
  Ret (if cur m =? ch "/" then tail m else m).

Definition has_part (s c : list Z) : bool := match grub_strstr c s with Some _ => true | None => false end.

(** The size of the buffers for a command and for the name of a library. *)
Definition STR_LEN : Z := 0x200.
Definition BUF_LEN : Z := 0x400.
Definition fits (s : list Z) (n : Z) : C unit := require (Z.of_nat (length s) <? n).

Definition dirs : list (list Z) := [bstr "/os2/boot"; bstr "/os2"; bstr "/"].

Section preload.
Context {St : Type} `{!BootLoader St}.

Fixpoint try_dirs (rc : Z) (ds : list (list Z)) (s : list Z) (st : St) : C (Z * St) :=
  match ds with
  | [] => Ret (rc, st)
  | d :: ds =>
      let str := bstr "module " ++ d ++ ch "/" :: s in
      _ ← fits str STR_LEN;
      '(rc, st) ← exec_cmd str st;
      if negb (rc =? 0) then Ret (rc, st) else try_dirs rc ds s st
  end.

(** The result is 0 when the file was not loaded. *)
Definition preload_module (module : list Z) (three_dirs : bool) (st : St) : C (Z * St) :=
  s ← strip module;
  if existsb (has_part s) (cmdlines st) then Ret (1, st)
  else
    let s := fst (upto grub_isspace s) in
    if three_dirs then try_dirs 0 dirs s st
    else
      let str := bstr "module /" ++ s in
      _ ← fits str STR_LEN;
      exec_cmd str st.

(** An entry that is a single dot is left out. *)
Fixpoint library_loop (fuel : nat) (p name : list Z) (st : St) : C (Z * St) :=
  match fuel with
  | O => NoFuel
  | S fuel =>
      let '(e, t) := upto (fun c => c =? ch ";") p in
      if bool_decide (e = bstr ".") then
        _ ← require (negb (bool_decide (t = []))); library_loop fuel (tail t) name st
      else
        z ← need (last e);
        let buf := e ++ (if z =? ch "\" then [] else [ch "\"]) ++ name in
        _ ← fits buf STR_LEN;
        '(rc, st) ← preload_module buf false st;
        if negb (rc =? 0) then Ret (rc, st)
        else if bool_decide (t = []) then Ret (rc, st)
        else library_loop fuel (tail t) name st
  end.
Definition preload_library (libpath : option (list Z)) (name : list Z) (st : St) : C (Z * St) :=
  p ← need libpath; library_loop (S (length p)) p name st.

(** ** Lists of files

    The results of what follows are 0 for success. *)

Definition and_then (c : C (Z * St)) (k : St -> C (Z * St)) : C (Z * St) :=
  '(rc, st) ← c; if rc =? 0 then k st else Ret (1, st).

(** Files that must be loaded, in order, each with [load]. *)
Fixpoint all_of {A} (load : A -> St -> C (Z * St)) (l : list A) (st : St) : C (Z * St) :=
  match l with
  | [] => Ret (0, st)
  | a :: l => '(rc, st) ← load a st; if rc =? 0 then Ret (1, st) else all_of load l st
  end.
(** Files that need not be there. *)
Fixpoint any_of (l : list (list Z)) (st : St) : C St :=
  match l with
  | [] => Ret st
  | a :: l => '(_, st) ← preload_module a false st; any_of l st
  end.

Fixpoint load_type (table : list (list Z * list (Z * list Z))) (tp : list Z) (st : St) : C (Z * St) :=
  match table with
  | [] => Ret (0, st)
  | (name, l) :: table =>
      and_then (if grub_strcmp name tp =? 0 then all_of (fun a => preload_module a.2 true) l st else Ret (0, st))
        (load_type table tp)
  end.

(** Whether a name is on the boot drive [drv]. *)
Definition on_bootdrv (drv : Z) (str : list Z) : C bool :=
  c ← second str;
  Ret (((c =? ch ":") && (toupper (cur str) =? toupper drv)) || (cur str =? ch "\")).

Fixpoint all_on_drive (drv : Z) (l : list (Z * list Z)) (st : St) : C (Z * St) :=
  match l with
  | [] => Ret (0, st)
  | (_, a) :: l =>
      b ← on_bootdrv drv a;
      if (b : bool) then
        '(rc, st) ← preload_module a false st; if rc =? 0 then Ret (1, st) else all_on_drive drv l st
      else all_on_drive drv l st
  end.
Fixpoint load_type_bootdrv (table : list (list Z * list (Z * list Z))) (drv : Z) (tp : list Z) (st : St) : C (Z * St) :=
  match table with
  | [] => Ret (0, st)
  | (name, l) :: table =>
      and_then (if grub_strcmp name tp =? 0 then all_on_drive drv l st else Ret (0, st))
        (load_type_bootdrv table drv tp)
  end.

(** ** The steps of [load_modules] *)

(** What follows the first comma. *)
Definition after_comma (s : list Z) : C (list Z) :=
  let t := snd (upto (fun c => c =? ch ",") s) in _ ← require (negb (bool_decide (t = []))); Ret (tail t).

(** The files of the options COUNTRY and DEVINFO. *)
Definition country_file (c : boot_cfg) : C (list Z) := p ← need (country c); after_comma p.
Definition kbd_file (c : boot_cfg) : C (list Z) := p ← need (devinfo_kbd c); p ← after_comma p; after_comma p.
Definition vio_file (c : boot_cfg) : C (list Z) := p ← need (devinfo_vio c); p ← after_comma p; after_comma p.

(** The drivers before the first file system, or those of the boot drive when the system
    is started from a memory disk. *)
Fixpoint devices_before (line : Z) (l : list (Z * list Z)) (st : St) : C (Z * St) :=
  match l with
  | [] => Ret (0, st)
  | (n, a) :: l =>
      if n <? line then
        '(rc, st) ← preload_module a false st; if rc =? 0 then Ret (1, st) else devices_before line l st
      else Ret (0, st)
  end.
Definition load_drivers (c : boot_cfg) (ramdisk : bool) (drv : Z) (st : St) : C (Z * St) :=
  if ramdisk then
    and_then (load_type_bootdrv (type_table c) drv (bstr "IFS") st) (fun st =>
    and_then (load_type_bootdrv (type_table c) drv (bstr "DEVICE") st) (fun st =>
    and_then (load_type_bootdrv (type_table c) drv (bstr "RUN") st) (fun st =>
    and_then (load_type_bootdrv (type_table c) drv (bstr "CALL") st) (fun st =>
      d ← need (protshell c);
      b ← on_bootdrv drv d;
      if (b : bool) then all_of (fun a => preload_module a false) [d] st else Ret (0, st)))))
  else
    (* without an IFS line its number is 0 and its name a null pointer *)
    let line := match ifs c with (n, _) :: _ => n | [] => 0 end in
    and_then (devices_before line (device c) st) (fun st =>
      f ← need (snd <$> head (ifs c)); all_of (fun a => preload_module a false) [f] st).

(** The names between the parentheses; the loop does not end without a closing one. *)
Fixpoint video_loop (fuel : nat) (libpath : option (list Z)) (p : list Z) (st : St) : C (Z * St) :=
  match fuel with
  | O => NoFuel
  | S fuel =>
      let '(e, t) := upto (fun c => (c =? ch ",") || (c =? ch ")")) p in
      let str := (tolower <$> e) ++ bstr ".dll" in
      match t with
      | [] => video_loop fuel libpath p st
      | c :: r =>
          _ ← fits str BUF_LEN;
          '(rc, st) ← preload_library libpath str st;
          if rc =? 0 then Ret (1, st)
          else if c =? ch ")" then Ret (0, st) else video_loop fuel libpath r st
      end
  end.
Definition load_video (c : boot_cfg) (st : St) : C (Z * St) :=
  match cfg_getenv (set_ c) (bstr "VIDEO_DEVICES") with
  | None => Ret (0, st)
  | Some buf =>
      _ ← fits buf BUF_LEN;
      match cfg_getenv (set_ c) buf with
      | None => Ret (0, st)
      | Some buf =>
          _ ← fits buf BUF_LEN;
          let p := snd (upto (fun c => c =? ch "(") buf) in
          if bool_decide (p = []) then Ret (0, st)
          else video_loop (S (length p)) (libpath c) (tail p) st
      end
  end.

(** The files of the two code pages, for each module that is unicode.sys. *)
Fixpoint codepage_loop (l : nat) (p : list Z) (st : St) : C (Z * St) :=
  match l with
  | O => Ret (0, st)
  | S l =>
      let '(e, t) := upto (fun c => c =? ch ",") p in
      '(rc, st) ← preload_module (bstr "/language/codepage/ibm" ++ e) false st;
      if rc =? 0 then Ret (1, st) else if bool_decide (t = []) then Ret (0, st) else codepage_loop l (tail t) st
  end.
Definition codepage_files (c : boot_cfg) (st : St) : C (Z * St) :=
  and_then (all_of (fun a => preload_module a false) [bstr "/language/codepage/ucstbl.lst"] st)
    (codepage_loop 2 (codepage c)).
Fixpoint unicode_loop (fuel i : nat) (c : boot_cfg) (st : St) : C (Z * St) :=
  match fuel with
  | O => NoFuel
  | S fuel =>
      match cmdlines st !! i with
      | None => Ret (0, st)
      | Some line =>
          and_then (if has_part (bstr "unicode.sys") line
                    then codepage_files c st else Ret (0, st))
            (unicode_loop fuel (S i) c)
      end
  end.

(** The file of messages is looked for along DPATH; behind the last entry the loop goes
    on with what is in the buffer. *)
Fixpoint message_loop (fuel : nat) (t : list Z) (st : St) : C St :=
  match fuel with
  | O => NoFuel
  | S fuel =>
      if bool_decide (t = []) then Ret st
      else
        let '(e, p) := upto (fun c => c =? ch ";") t in
        if bool_decide (tolower <$> e = bstr ".") then
          _ ← require (negb (bool_decide (p = []))); message_loop fuel (tail p) st
        else
          let e := tolower <$> e in
          z ← need (last e);
          let str := e ++ (if z =? ch "\" then [] else [ch "\"]) ++ bstr "oso001.msg" in
          _ ← fits str BUF_LEN;
          '(rc, st) ← preload_module str false st;
          if negb (rc =? 0) then Ret st
          else _ ← require (negb (bool_decide (p = []))); message_loop fuel (tail p) st
  end.
Definition load_messages (c : boot_cfg) (st : St) : C (Z * St) :=
  match cfg_getenv (set_ c) (bstr "DPATH") with
  | None => Ret (0, st)
  | Some buf => _ ← fits buf BUF_LEN; st ← message_loop (S (length buf)) buf st; Ret (0, st)
  end.

Definition kernel_files : list (list Z) := bstr <$> ["os2ldr"; "os2ldr.msg"; "os2krnl"]%string.
Definition optional_files : list (list Z) :=
  bstr <$> ["os2dump"; "os2dbcs"; "os2dbcs.fnt"; "os2ldr.fnt"; "os2ldr.ini";
            "kdb.ini"; "altf2on.$$$"; "os2norev.$$$"; "os2logo"]%string.
Definition implicit_basedevs : list (list Z) :=
  bstr <$> ["resource.sys"; "clock01.sys"; "screen01.sys"; "kbdbase.sys"; "isapnp.snp"; "pnp.sys"]%string.
Definition libraries : list (list Z) :=
  bstr <$> ["doscall1.dll"; "sesmgr.dll"; "msg.dll"; "nls.dll"; "os2char.dll"; "bvscalls.dll"; "bmscalls.dll";
            "bkscalls.dll"; "kbdcalls.dll"; "moucalls.dll"; "quecalls.dll"; "viocalls.dll"]%string.

(** All but the file of messages. *)
Definition load_files (c : boot_cfg) (ramdisk : bool) (drv : Z) (st : St) : C (Z * St) :=
  let load a := preload_module a false in
  and_then (all_of load kernel_files st) (fun st =>
  and_then (st ← any_of optional_files st; Ret (0, st)) (fun st =>
  and_then (load_type (type_table c) (bstr "PSD") st) (fun st =>
  and_then (all_of (fun a => preload_module a true) implicit_basedevs st) (fun st =>
  and_then (load_type (type_table c) (bstr "BASEDEV") st) (fun st =>
  and_then (p ← country_file c; all_of load [p] st) (fun st =>
  and_then (p ← kbd_file c; all_of load [p] st) (fun st =>
  and_then (p ← vio_file c; all_of load [p] st) (fun st =>
  and_then (all_of (preload_library (libpath c)) libraries st) (fun st =>
  and_then (load_drivers c ramdisk drv st) (fun st =>
  and_then (load_video c st) (fun st =>
  unicode_loop (S MODS_MAX) 0 c st))))))))))).

(** [addr] is the first address behind the modules. *)
Definition load_modules (c : boot_cfg) (ramdisk : bool) (drv addr : Z) (st : St) : C (Z * St) :=
  h ← convert_to_ascii (ch "x") addr;
  '(_, st) ← exec_cmd (bstr "modaddr 0x" ++ h) st;
  and_then (load_files c ramdisk drv st) (load_messages c).
End preload.

(** ** What is relied on of the loader

    [ready n]: [n] more modules can be loaded; [above a]: nothing that is loaded is at
    the address [a] or behind it; [loaded p]: the file [p] is in memory as a module.  A
    command [module] that succeeds adds the name as the last of the command lines. *)

(** Names in commands, which the loader takes as they are. *)
Definition plain (w : list Z) : Prop := text w /\ Forall (fun c => c <> ch "(" /\ c <> ch "\") w.
Definition good_path (p : list Z) : Prop := plain p /\ head p = Some (ch "/") /\ Z.of_nat (length p) < STR_LEN.

Class BootLoaderLaws (St : Type) `{!BootLoader St} := {
  ready : nat -> St -> Prop;
  above : Z -> St -> Prop;
  loaded : list Z -> St -> Prop;
  ready_less n s : ready (S n) s -> ready n s;
  ready_max n s : ready n s -> (length (cmdlines s) <= MODS_MAX)%nat;
  lines_loaded n p s : ready n s -> p ∈ cmdlines s -> loaded p s;
  module_law n p s : ready (S n) s -> good_path p -> exists rc s',
    exec_cmd (bstr "module " ++ p) s = Ret (rc, s') /\
    if rc =? 0 then ready (S n) s' /\ cmdlines s' = cmdlines s
    else ready n s' /\ cmdlines s' = cmdlines s ++ [p];
  modaddr_law n a h s : ready n s -> above a s -> 0 <= a <= MAXINT -> convert_to_ascii (ch "x") a = Ret h ->
    exists rc s', exec_cmd (bstr "modaddr 0x" ++ h) s = Ret (rc, s') /\ ready n s' /\ cmdlines s' = cmdlines s
}.

(** ** Files and their names *)

(** What is looked for in the command lines, and what of it the command gets. *)
Definition strip_name (m : list Z) : list Z := match strip m with Ret s => s | _ => [] end.
Definition stem (m : list Z) : list Z := fst (upto grub_isspace (strip_name m)).

(** A file as it is tried: the paths it is loaded by, the names that are looked for before. *)
Record target := { tg_paths : list (list Z); tg_names : list (list Z) }.

#[global] Instance target_eq : EqDecision target.
Proof. solve_decision. Defined.

Definition file_target (three : bool) (m : list Z) : target := {|
  tg_paths := if three then (fun d => d ++ ch "/" :: stem m) <$> dirs else [ch "/" :: stem m];
  tg_names := [strip_name m]
|}.

(** A command line that has one of the names of the file in it is its own. *)
Definition mine (t : target) (p : list Z) : Prop :=
  Forall (fun nm => has_part nm p = true -> p ∈ tg_paths t) (tg_names t).
#[global] Instance mine_dec t p : Decision (mine t p).
Proof. unfold mine. apply _. Defined.

(** No file's name is in the path of another one that is tried before it. *)
Definition distinct (ts : list target) : Prop :=
  ForallOrdPairs (fun a b => Forall (mine b) (tg_paths a)) ts.

Lemma distinct_app l1 l2 : distinct (l1 ++ l2) ->
  distinct l1 /\ distinct l2 /\ forall a b, a ∈ l1 -> b ∈ l2 -> Forall (mine b) (tg_paths a).
Proof.
  unfold distinct. induction l1 as [|a l1 IH]; intros H; [split_and!; [constructor|done|by intros a b ?%elem_of_nil]|].
  inversion_clear H as [|? ? Ha H']. destruct (IH H') as (H1 & H2 & H3).
  rewrite Forall_app in Ha. destruct Ha as [Ha1 Ha2]. split_and!; [by constructor|done|].
  intros x b [->|Hx]%elem_of_cons Hb; [|by apply H3]. rewrite Forall_forall in Ha2. by apply Ha2.
Qed.

Fixpoint distinct_b (ts : list target) : bool :=
  match ts with
  | [] => true
  | a :: ts => forallb (fun b => forallb (fun p => forallb (fun nm =>
      negb (has_part nm p) || existsb (fun q => bool_decide (q = p)) (tg_paths b)) (tg_names b)) (tg_paths a)) ts && distinct_b ts
  end.
Lemma distinct_check ts : distinct_b ts = true -> distinct ts.
Proof.
  induction ts as [|a ts IH]; cbn [distinct_b]; intros H; [constructor|]. apply andb_true_iff in H as [H1 H2].
  constructor; [|by apply IH]. apply Forall_forall. intros b Hb%list_elem_of_In. rewrite forallb_forall in H1. specialize (H1 b Hb).
  apply Forall_forall. intros p Hp%list_elem_of_In. rewrite forallb_forall in H1. specialize (H1 p Hp).
  apply Forall_forall. intros nm Hn%list_elem_of_In Hpart. rewrite forallb_forall in H1. specialize (H1 nm Hn).
  rewrite Hpart in H1. cbn in H1. apply existsb_exists in H1 as (q & Hq & ->%bool_decide_eq_true). by apply list_elem_of_In.
Qed.

Section laws.
Context {St : Type} `{Hlaws : BootLoaderLaws St}.

Lemma ready_le n m s : ready m s -> (n <= m)%nat -> ready n s.
Proof. intros H. induction 1 as [|m _ IH]; [done|]. apply IH. by apply ready_less. Qed.

(** *** Command lines *)

Definition has (w : list Z) (s : St) : Prop := exists c, c ∈ cmdlines s /\ has_part w c = true.
Lemma has_part_spec w c : has_part w c = true <-> w <> [] /\ exists a b, c = a ++ w ++ b.
Proof.
  unfold has_part. destruct (decide (w = [])) as [->|Hw].
  - rewrite strstr_nil. split; [done|by intros []].
  - destruct (grub_strstr c w) as [r|] eqn:E; split; intros H; try done.
    + split; [done|]. destruct (strstr_found _ _ _ E) as (k & Ec & _ & [b Hb] & _).
      exists (take k c), b. by rewrite <- Hb.
    + exfalso. destruct H as (_ & a & b & ->).
      apply (strstr_absent _ _ Hw E (length a)); [rewrite !length_app; destruct w; [done|cbn; lia]|].
      rewrite drop_app_length. by exists b.
Qed.

Lemma has_existsb w s : existsb (has_part w) (cmdlines s) = true <-> has w s.
Proof. rewrite existsb_exists. unfold has. by setoid_rewrite list_elem_of_In. Qed.

(** The new command lines are those of the files [ts]. *)
Definition adds (ts : list target) (s s' : St) : Prop :=
  exists l, cmdlines s' = cmdlines s ++ l /\ Forall (fun p => exists t, t ∈ ts /\ p ∈ tg_paths t) l.
(** The file is loaded by one of its paths. *)
Definition there (s : St) (t : target) : Prop := exists p, p ∈ tg_paths t /\ p ∈ cmdlines s.
Definition clear (s : St) (t : target) : Prop := Forall (mine t) (cmdlines s).

Lemma adds_same ts s s' : cmdlines s' = cmdlines s -> adds ts s s'.
Proof. intros E. exists []. rewrite app_nil_r. split; [done|constructor]. Qed.
Lemma adds_more ts1 ts2 s1 s2 s3 : adds ts1 s1 s2 -> adds ts2 s2 s3 -> adds (ts1 ++ ts2) s1 s3.
Proof.
  intros (l1 & E1 & H1) (l2 & E2 & H2). exists (l1 ++ l2). rewrite E2, E1, app_assoc. split; [done|].
  apply Forall_app. split; [eapply Forall_impl; [exact H1|]|eapply Forall_impl; [exact H2|]];
    intros p (t & Ht & Hp); exists t; (split; [apply elem_of_app; auto|done]).
Qed.
Lemma adds_weaken ts ts' s s' : adds ts s s' -> ts ⊆ ts' -> adds ts' s s'.
Proof.
  intros (l & E & H) Hs. exists l. split; [done|]. eapply Forall_impl; [exact H|]. intros p (t & Ht & Hp). exists t. eauto.
Qed.
Lemma adds_there ts s s' t : adds ts s s' -> there s t -> there s' t.
Proof. intros (l & E & _) (p & Hp & Hc). exists p. split; [done|]. rewrite E. apply elem_of_app. by left. Qed.
Lemma adds_clear ts s s' t : adds ts s s' -> clear s t -> (forall a, a ∈ ts -> Forall (mine t) (tg_paths a)) -> clear s' t.
Proof.
  intros (l & E & H) Hc Ha. unfold clear. rewrite E. apply Forall_app. split; [done|].
  eapply Forall_impl; [exact H|]. intros p (a & Hin & Hp). specialize (Ha a Hin). rewrite Forall_forall in Ha. by apply Ha.
Qed.
Lemma same_clear s s' t : cmdlines s' = cmdlines s -> clear s t -> clear s' t.
Proof. unfold clear. by intros ->. Qed.

(** *** One file *)

Definition good_name (m : list Z) : Prop :=
  text m /\ Forall (fun c => c <> ch "(") m /\ stem m <> [] /\ Z.of_nat (length m) + 20 < STR_LEN.

(** [f] loads at most the file [t], and after success it is there. *)
Definition loads_one (f : St -> C (Z * St)) (t : target) : Prop :=
  forall k s, ready (S k) s -> clear s t -> exists rc s', f s = Ret (rc, s') /\
    if rc =? 0 then ready (S k) s' /\ cmdlines s' = cmdlines s else ready k s' /\ adds [t] s s' /\ there s' t.

(** [f] loads at most [n] modules and only the files [ts], and after success those of [us]
    are there. *)
Definition gives (n : nat) (f : St -> C (Z * St)) (ts us : list target) : Prop :=
  forall k s, ready (k + n) s -> Forall (clear s) ts -> distinct ts -> exists rc s', f s = Ret (rc, s') /\
    (rc = 0 -> ready k s' /\ adds ts s s' /\ Forall (there s') us).

Lemma upto_suffix stop s : exists b, s = fst (upto stop s) ++ b.
Proof.
  induction s as [|c s [b IH]]; cbn; [by exists []|]. destruct (stop c); [by eexists|].
  destruct (upto stop s) as [w r]. cbn in *. exists b. by rewrite IH at 1.
Qed.

Lemma lower_plain c : 0 < c < 256 -> c <> ch "(" ->
  0 < lower c < 256 /\ lower c <> ch "(" /\ lower c <> ch "\".
Proof.
  intros H1 H3. unfold lower. destruct (Z.eqb_spec c (ch "\")) as [->|Hb].
  - split_and!; vm_compute; congruence.
  - unfold tolower. change (ch "(") with 40 in *. change (ch "\") with 92 in *.
    destruct (Z.leb_spec 65 c), (Z.leb_spec c 90); cbn; lia.
Qed.

Lemma strip_some m : m <> [] -> exists s k, strip m = Ret s /\ s = drop k (lower <$> m).
Proof.
  intros Hm. unfold strip, second. destruct (((lower <$> m) ++ [0]) !! 1%nat) as [c|] eqn:E.
  - cbn [need mbind C_bind].
    set (l := lower <$> m). assert (Ht : forall x, exists k, (if cur x =? ch "/" then tail x else x) = drop k x).
    { intros x. destruct (cur x =? ch "/"); [exists 1%nat; by destruct x|by exists O]. }
    destruct (c =? ch ":").
    + destruct (Ht (drop 2 l)) as [k ->]. eexists _, _. split; [done|]. by rewrite drop_drop.
    + destruct (Ht l) as [k ->]. by eexists _, _.
  - apply lookup_ge_None in E. rewrite length_app, length_fmap in E. destruct m; [done|cbn in E; lia].
Qed.

Lemma stem_spec m : good_name m -> exists b, strip m = Ret (strip_name m) /\ strip_name m = stem m ++ b /\
  plain (stem m) /\ stem m <> [] /\ (length (stem m) <= length m)%nat.
Proof.
  intros (Ht & Hc & Hs & _). assert (Hm : m <> []) by (intros ->; by vm_compute in Hs).
  destruct (strip_some m Hm) as (s & k & E & Es). unfold stem, strip_name in *. rewrite E in *.
  destruct (upto_suffix grub_isspace s) as [b Hb]. exists b. split; [done|]. split; [done|].
  set (w := fst (upto grub_isspace s)) in *.
  assert (Hall : Forall (fun c => 0 < c < 256 /\ c <> ch "(" /\ c <> ch "\") w).
  { assert (H : Forall (fun c => 0 < c < 256 /\ c <> ch "(" /\ c <> ch "\") (lower <$> m)).
    { rewrite Forall_fmap. eapply Forall_impl; [apply Forall_and; exact (conj Ht Hc)|].
      intros c (H1 & H2). by apply lower_plain. }
    apply (Forall_drop _ k) in H. rewrite <- Es, Hb in H. by apply Forall_app in H as [H _]. }
  split; [apply Forall_and in Hall as [H1 H2]; by split|]. split; [done|].
  apply (f_equal length) in Hb. rewrite Es in Hb at 1. rewrite length_drop, length_fmap, length_app in Hb. lia.
Qed.

Lemma fits_ok s n : Z.of_nat (length s) < n -> fits s n = Ret ().
Proof. intros H. unfold fits. by destruct (Z.ltb_spec (Z.of_nat (length s)) n); [|lia]. Qed.


(** A command [module] with a path of the file. *)
Lemma module_there k s p t : ready (S k) s -> good_path p -> p ∈ tg_paths t ->
  exists rc s', exec_cmd (bstr "module " ++ p) s = Ret (rc, s') /\
    if rc =? 0 then ready (S k) s' /\ cmdlines s' = cmdlines s else ready k s' /\ adds [t] s s' /\ there s' t.
Proof.
  intros Hr Hp Ht. destruct (module_law k p s Hr Hp) as (rc & s' & E & H). exists rc, s'. split; [done|].
  destruct (rc =? 0); [done|]. destruct H as [H Ec]. split; [done|]. split.
  - exists [p]. split; [done|]. apply Forall_singleton. exists t. split; [by left|done].
  - exists p. split; [done|]. rewrite Ec. apply elem_of_app. right. by left.
Qed.

Lemma path_good d w : plain d -> head d = Some (ch "/") -> plain w ->
  Z.of_nat (length d) + Z.of_nat (length w) + 1 < STR_LEN -> good_path (d ++ ch "/" :: w).
Proof.
  intros [Hd1 Hd2] Hh [Hw1 Hw2] Hl. split; [split|split].
  - apply text_app. split; [done|]. constructor; [by vm_compute|done].
  - apply Forall_app. split; [done|]. constructor; [by vm_compute|done].
  - by destruct d.
  - rewrite length_app. cbn. lia.
Qed.
Lemma has_part_self w a : w <> [] -> has_part w (a ++ w) = true.
Proof. intros Hw. apply has_part_spec. split; [done|]. exists a, []. by rewrite app_nil_r. Qed.

Lemma try_dirs_spec w ds t : plain w -> w <> [] -> Z.of_nat (length w) + 20 < STR_LEN ->
  Forall (fun d => plain d /\ head d = Some (ch "/") /\ Z.of_nat (length d) < 10) ds ->
  ((fun d => d ++ ch "/" :: w) <$> ds) ⊆ tg_paths t ->
  forall k s, ready (S k) s -> exists rc s', try_dirs 0 ds w s = Ret (rc, s') /\
    if rc =? 0 then ready (S k) s' /\ cmdlines s' = cmdlines s else ready k s' /\ adds [t] s s' /\ there s' t.
Proof.
  intros Hw Hne Hl Hds. induction Hds as [|d ds (Hd & Hh & Hdl) _ IH]; intros Ht k s Hr; cbn [try_dirs].
  - exists 0, s. done.
  - rewrite fits_ok by (rewrite !length_app; cbn [length]; change (length (bstr "module ")) with 7%nat; lia).
    cbn [mbind C_bind].
    assert (Hp : good_path (d ++ ch "/" :: w)) by (apply path_good; done || lia).
    destruct (module_there k s (d ++ ch "/" :: w) t Hr Hp) as (rc & s' & E & H); [apply Ht; by left|].
    rewrite E. cbn [mbind C_bind]. destruct (Z.eqb_spec rc 0) as [->|Hrc]; cbn [negb].
    + destruct H as [H Ec]. destruct (IH (fun p Hin => Ht p (list_elem_of_further _ _ _ Hin)) k s' H) as (rc & s'' & E' & H').
      exists rc, s''. split; [done|]. destruct (rc =? 0); [by rewrite <- Ec|].
      destruct H' as (R & (l & El & Hl') & H'). split_and!; [done| |done]. exists l. by rewrite <- Ec.
    + exists rc, s'. split; [done|]. by destruct (Z.eqb_spec rc 0).
Qed.

Lemma dirs_good : Forall (fun d => plain d /\ head d = Some (ch "/") /\ Z.of_nat (length d) < 10) dirs.
Proof.
  assert (H : forallb (fun d => forallb (fun c => (0 <? c) && (c <? 256) && negb (c =? ch "(")
    && negb (c =? ch "\")) d && bool_decide (head d = Some (ch "/")) && (Z.of_nat (length d) <? 10)) dirs = true)
    by (vm_compute; reflexivity).
  rewrite Forall_forall. intros d Hd%list_elem_of_In. rewrite forallb_forall in H. specialize (H d Hd).
  apply andb_true_iff in H as [[H1 H2%bool_decide_eq_true]%andb_true_iff H3%Z.ltb_lt]. split; [|done].
  rewrite forallb_forall in H1. split; apply Forall_forall; intros c Hc%list_elem_of_In%H1;
    rewrite !andb_true_iff, !negb_true_iff, !Z.eqb_neq, !Z.ltb_lt in Hc; tauto.
Qed.

Lemma preload_module_spec m three t : good_name m -> tg_paths (file_target three m) ⊆ tg_paths t ->
  strip_name m ∈ tg_names t -> loads_one (preload_module m three) t.
Proof.
  intros Hm Hpaths Hname k s Hr Hcl. destruct (stem_spec m Hm) as (b & E & Et & Hw & Hne & Hlen). destruct Hm as (_ & _ & _ & Hl).
  unfold preload_module. rewrite E. cbn [mbind C_bind].
  destruct (existsb (has_part (strip_name m)) (cmdlines s)) eqn:Eh.
  - exists 1, s. split; [done|]. cbn. split; [by apply ready_less|]. split; [by apply adds_same|].
    apply has_existsb in Eh as (c & Hc & Hp). exists c. split; [|done].
    unfold clear, mine in Hcl. rewrite Forall_forall in Hcl. specialize (Hcl c Hc). rewrite Forall_forall in Hcl. by eapply Hcl.
  - change (fst (upto grub_isspace (strip_name m))) with (stem m). unfold file_target in Hpaths.
    destruct three; [by apply try_dirs_spec; [done|done|lia|apply dirs_good|done|done]|].
    rewrite fits_ok by (rewrite length_app; change (length (bstr "module /")) with 8%nat; lia). cbn [mbind C_bind].
    change (bstr "module /" ++ stem m) with (bstr "module " ++ [ch "/"] ++ stem m).
    apply module_there; [done| |apply Hpaths; by left].
    destruct Hw as [Hw1 Hw2]. split; [split|split].
    + constructor; [by vm_compute|done].
    + constructor; [by vm_compute|done].
    + done.
    + cbn. lia.
Qed.
Lemma preload_one m three : good_name m -> loads_one (preload_module m three) (file_target three m).
Proof. intros Hm. apply preload_module_spec; [done|done|by left]. Qed.

(** *** Several files *)

Lemma gives_nothing : gives 0 (fun s => Ret (0, s)) [] [].
Proof. intros k s Hr _ _. exists 0, s. rewrite Nat.add_0_r in Hr. split; [done|]. intros _. split_and!; [done|by apply adds_same|constructor]. Qed.
Lemma gives_ext n f g ts us : (forall s, f s = g s) -> gives n f ts us -> gives n g ts us.
Proof. intros E H k s Hr. rewrite <- E. by apply H. Qed.
Lemma gives_le n m f ts us : gives n f ts us -> (n <= m)%nat -> gives m f ts us.
Proof. intros H Hn k s Hr. apply H. eapply ready_le; [exact Hr|lia]. Qed.
Lemma gives_less n f ts us us' : gives n f ts us -> us' ⊆ us -> gives n f ts us'.
Proof.
  intros H Hs k s Hr Hc Hd. destruct (H k s Hr Hc Hd) as (rc & s' & E & H'). exists rc, s'. split; [done|].
  intros Hrc. destruct (H' Hrc) as (R & A & U). split_and!; [done|done|].
  rewrite Forall_forall in *. intros t Ht. by apply U, Hs.
Qed.

(** After the files [ts1] those of [ts2] can still be loaded. *)
Lemma clear_after ts1 ts2 s s' : adds ts1 s s' -> Forall (clear s) ts2 -> distinct (ts1 ++ ts2) -> Forall (clear s') ts2.
Proof.
  intros A Hc Hd. apply distinct_app in Hd as (_ & _ & Hd). rewrite Forall_forall in *. intros t Ht.
  eapply adds_clear; [exact A|by apply Hc|]. intros a Ha. by apply Hd.
Qed.

Lemma gives_then n m f g ts us ts' us' : gives n f ts us -> gives m g ts' us' ->
  gives (n + m) (fun s => and_then (f s) g) (ts ++ ts') (us ++ us').
Proof.
  intros Hf Hg k s Hr Hc Hd. pose proof (distinct_app _ _ Hd) as (D1 & D2 & _). apply Forall_app in Hc as [C1 C2].
  destruct (Hf (k + m)%nat s) as (rc & s1 & E1 & H1); [|done|done|].
  { by replace (k + m + n)%nat with (k + (n + m))%nat by lia. }
  unfold and_then. rewrite E1. cbn [mbind C_bind]. destruct (Z.eqb_spec rc 0) as [->|Hrc]; [|by exists 1, s1].
  destruct (H1 eq_refl) as (R1 & A1 & W1).
  destruct (Hg k s1 R1 (clear_after _ _ _ _ A1 C2 Hd) D2) as (rc & s2 & E2 & H2). exists rc, s2.
  split; [done|]. intros Hrc. destruct (H2 Hrc) as (R2 & A2 & W2). split_and!; [done|by eapply adds_more|].
  apply Forall_app. split; [|done]. eapply Forall_impl; [exact W1|]. intros t. by apply adds_there with ts'.
Qed.

(** One file that must be there, or that need not, and then others. *)
Lemma gives_cons n f g t ts us : loads_one f t -> gives n g ts us ->
  gives (S n) (fun s => '(rc, s) ← f s; if rc =? 0 then Ret (1, s) else g s) (t :: ts) (t :: us).
Proof.
  intros Hf Hg k s Hr Hc Hd. apply Forall_cons_1 in Hc as [C1 C2]. rewrite Nat.add_succ_r in Hr.
  destruct (Hf _ s Hr C1) as (rc & s1 & E1 & H1). rewrite E1. cbn [mbind C_bind].
  destruct (rc =? 0); [by exists 1, s1|]. destruct H1 as (R1 & A1 & W1).
  destruct (Hg k s1 R1 (clear_after [t] ts _ _ A1 C2 Hd)) as (rc2 & s2 & E2 & H2); [by apply (distinct_app [t])|].
  exists rc2, s2. split; [done|]. intros Hrc. destruct (H2 Hrc) as (R2 & A2 & W2).
  split_and!; [done|by apply (adds_more [t] ts s s1)|]. constructor; [by eapply adds_there|done].
Qed.
Lemma gives_try n f g t ts us : loads_one f t -> gives n g ts us ->
  gives (S n) (fun s => '(_, s) ← f s; g s) (t :: ts) us.
Proof.
  intros Hf Hg k s Hr Hc Hd. apply Forall_cons_1 in Hc as [C1 C2]. rewrite Nat.add_succ_r in Hr.
  destruct (Hf _ s Hr C1) as (rc & s1 & E1 & H1). rewrite E1. cbn [mbind C_bind].
  assert (H : ready (k + n) s1 /\ adds [t] s s1).
  { destruct (rc =? 0); [|by destruct H1 as (? & ? & _)]. destruct H1. split; [by apply ready_less|by apply adds_same]. }
  destruct H as [R1 A1].
  destruct (Hg k s1 R1 (clear_after [t] ts _ _ A1 C2 Hd)) as (rc2 & s2 & E2 & H2); [by apply (distinct_app [t])|].
  exists rc2, s2. split; [done|]. intros Hrc. destruct (H2 Hrc) as (R2 & A2 & W2).
  split_and!; [done|by apply (adds_more [t] ts s s1)|done].
Qed.

Lemma all_of_spec {A} load (l : list A) t : (forall a, a ∈ l -> loads_one (load a) (t a)) ->
  gives (length l) (all_of load l) (t <$> l) (t <$> l).
Proof.
  induction l as [|a l IH]; intros Hl; [apply gives_nothing|]. cbn [length fmap list_fmap].
  eapply gives_ext; [|apply gives_cons; [apply Hl; by left|apply IH; intros b Hb; apply Hl; by right]]. done.
Qed.
Lemma preload_all l three : Forall good_name l ->
  gives (length l) (all_of (fun a => preload_module a three) l) (file_target three <$> l) (file_target three <$> l).
Proof. intros Hl. apply all_of_spec. intros a Ha. apply preload_one. by eapply Forall_forall in Ha. Qed.

Lemma any_of_spec l : Forall good_name l ->
  gives (length l) (fun s => st ← any_of l s; Ret (0, st)) (file_target false <$> l) [].
Proof.
  induction 1 as [|a l Ha Hl IH]; [apply gives_nothing|]. cbn [length fmap list_fmap].
  eapply gives_ext; [|apply gives_try; [by apply (preload_one a false)|exact IH]].
  intros s. cbn [any_of]. destruct (preload_module a false s) as [[rc s1]| | |]; done.
Qed.

(** The lines of a command. *)
Definition lines_of (table : list (list Z * list (Z * list Z))) (tp : list Z) : list (list Z) :=
  snd <$> mjoin (snd <$> List.filter (fun e => grub_strcmp e.1 tp =? 0) table).
Definition on_drive (drv : Z) (a : list Z) : bool := match on_bootdrv drv a with Ret b => b | _ => false end.


Lemma load_type_spec table tp : Forall good_name (lines_of table tp) ->
  gives (length (lines_of table tp)) (load_type table tp) (file_target true <$> lines_of table tp)
    (file_target true <$> lines_of table tp).
Proof.
  unfold lines_of. induction table as [|[name l] table IH]; intros Hg; cbn [load_type List.filter fst] in *;
    [apply gives_nothing|].
  destruct (grub_strcmp name tp =? 0).
  - cbn [fmap list_fmap snd mjoin list_join] in *. rewrite fmap_app in *. rewrite fmap_app, length_app.
    apply Forall_app in Hg as [Hl Hg]. apply (gives_then _ _ (all_of (fun a => preload_module a.2 true) l)).
    + rewrite length_fmap, <- list_fmap_compose. apply all_of_spec. intros a Ha. apply preload_one.
      rewrite Forall_fmap in Hl. rewrite Forall_forall in Hl. exact (Hl a Ha).
    + by apply IH.
  - apply (gives_then 0 _ (fun s => Ret (0, s)) _ [] []); [apply gives_nothing|by apply IH].
Qed.

Lemma second_some m : good_name m -> exists c, second m = Ret c.
Proof.
  intros (_ & _ & Hs & _). unfold second. destruct ((m ++ [0]) !! 1%nat) as [c|] eqn:E; [by exists c|].
  apply lookup_ge_None in E. rewrite length_app in E. destruct m; [by vm_compute in Hs|cbn in E; lia].
Qed.
Lemma on_drive_spec drv a : good_name a -> on_bootdrv drv a = Ret (on_drive drv a).
Proof. intros Ha. unfold on_drive, on_bootdrv. by destruct (second_some a Ha) as [c ->]. Qed.

Lemma all_on_drive_spec drv l : Forall good_name (snd <$> l) ->
  gives (length l) (all_on_drive drv l) (file_target false <$> List.filter (on_drive drv) (snd <$> l))
    (file_target false <$> List.filter (on_drive drv) (snd <$> l)).
Proof.
  induction l as [|[n a] l IH]; intros Hg; [apply gives_nothing|].
  cbn [fmap list_fmap snd length List.filter] in *. apply Forall_cons_1 in Hg as [Ha Hg].
  eapply gives_ext; [intros s; cbn [all_on_drive]; rewrite on_drive_spec by done; reflexivity|]. cbn [mbind C_bind].
  destruct (on_drive drv a); [|eapply gives_le; [by apply IH|lia]].
  cbn [fmap list_fmap]. apply gives_cons; [by apply preload_one|by apply IH].
Qed.
Lemma load_type_bootdrv_spec table drv tp : Forall good_name (lines_of table tp) ->
  gives (length (lines_of table tp)) (load_type_bootdrv table drv tp)
    (file_target false <$> List.filter (on_drive drv) (lines_of table tp))
    (file_target false <$> List.filter (on_drive drv) (lines_of table tp)).
Proof.
  unfold lines_of. induction table as [|[name l] table IH]; intros Hg; cbn [load_type_bootdrv List.filter fst] in *;
    [apply gives_nothing|].
  destruct (grub_strcmp name tp =? 0).
  - cbn [fmap list_fmap snd mjoin list_join] in *. rewrite fmap_app in *. rewrite List.filter_app, fmap_app, length_app.
    apply Forall_app in Hg as [Hl Hg]. apply (gives_then _ _ (all_on_drive drv l)).
    + rewrite length_fmap. by apply all_on_drive_spec.
    + by apply IH.
  - apply (gives_then 0 _ (fun s => Ret (0, s)) _ [] []); [apply gives_nothing|by apply IH].
Qed.

(** *** Libraries *)

Definition no_blank (s : list Z) : Prop := Forall (fun c => grub_isspace c = false) s.
Definition named (s : list Z) : Prop :=
  text s /\ Forall (fun c => c <> ch "(") s /\ no_blank s.

(** The name of a library, and the directories of a path that can be searched for it. *)
Definition good_library (n : list Z) : Prop :=
  named n /\ n <> [] /\ head n <> Some (ch ":") /\ head n <> Some (ch "/") /\ head n <> Some (ch "\").
Definition good_dir (room : Z) (e : list Z) : Prop :=
  e = bstr "." \/ (named e /\ e <> [] /\ e <> bstr "." /\ (ch ";" ∉ e) /\ Z.of_nat (length e) + room + 25 < STR_LEN).

Fixpoint path_text (es : list (list Z)) : list Z :=
  match es with [] => [] | [e] => e | e :: es => e ++ ch ";" :: path_text es end.
(** The last entry of a path is a directory. *)
Definition good_dirs (room : Z) (es : list (list Z)) : Prop :=
  Forall (good_dir room) es /\ exists e, last es = Some e /\ e <> bstr ".".

(** The file of a library in a directory, and the files that are tried for it. *)
Definition in_dir (n e : list Z) : list Z :=
  e ++ (if bool_decide (last e = Some (ch "\")) then [] else [ch "\"]) ++ n.
Definition searched (es : list (list Z)) : list (list Z) := List.filter (fun e => negb (bool_decide (e = bstr "."))) es.
Definition library_target (es : list (list Z)) (n : list Z) : target := {|
  tg_paths := (fun m => ch "/" :: stem m) <$> (in_dir n <$> searched es);
  tg_names := strip_name <$> (in_dir n <$> searched es)
|}.

Lemma lower_blank c : grub_isspace c = false -> grub_isspace (lower c) = false.
Proof.
  unfold lower, tolower, grub_isspace. intros H. destruct (Z.eqb_spec c (ch "\")) as [->|_]; [by vm_compute|].
  destruct (Z.leb_spec 65 c), (Z.leb_spec c 90); cbn [andb]; try done. lia.
Qed.

Lemma upto_all stop s : Forall (fun c => stop c = false) s -> upto stop s = (s, []).
Proof. induction 1 as [|c s Hc _ IH]; cbn; [done|]. by rewrite Hc, IH. Qed.
Lemma upto_app stop s c r : Forall (fun c => stop c = false) s -> stop c = true -> upto stop (s ++ c :: r) = (s, c :: r).
Proof. induction 1 as [|x s Hx _ IH]; intros Hc; cbn; [by rewrite Hc|]. by rewrite Hx, IH. Qed.

Lemma not_in_stops x s : x ∉ s -> Forall (fun c => (c =? x) = false) s.
Proof. intros H. apply Forall_forall. intros c Hc. apply Z.eqb_neq. by intros ->. Qed.

(** The name stays whole behind a directory. *)
Lemma strip_library a n : last a = Some (ch "\") -> good_library n -> exists y, strip (a ++ n) = Ret (y ++ (lower <$> n)).
Proof.
  intros Ha (_ & Hn & H1 & H2 & H3). unfold strip, second. rewrite fmap_app.
  destruct n as [|d n]; [done|]. assert (Hd : lower d <> ch ":" /\ lower d <> ch "/").
  { unfold lower. destruct (Z.eqb_spec d (ch "\")) as [->|]; [done|]. cbn in H1, H2.
    assert (d <> ch ":" /\ d <> ch "/") as [G1 G2] by (split; intros ->; done).
    unfold tolower. destruct (Z.leb_spec 65 d), (Z.leb_spec d 90); cbn [andb]; try done.
    change (ch ":") with 58. change (ch "/") with 47. lia. }
  destruct Hd as [Hd1 Hd2]. destruct a as [|x [|y a]]; [done| |].
  - injection Ha as ->. cbn [fmap list_fmap app lookup list_lookup need mbind C_bind].
    destruct (Z.eqb_spec (lower d) (ch ":")); [done|]. exists []. done.
  - cbn [fmap list_fmap app lookup list_lookup need mbind C_bind]. destruct (Z.eqb_spec (lower y) (ch ":")) as [Hy|Hy].
    + destruct a as [|z a].
      { injection Ha as ->. by vm_compute in Hy. }
      cbn [drop fmap list_fmap app cur head default].
      destruct (lower z =? ch "/"); [exists (lower <$> a)|exists (lower <$> (z :: a))]; done.
    + cbn [cur head default app].
      destruct (lower x =? ch "/"); [exists (lower <$> (y :: a))|exists (lower <$> (x :: y :: a))]; done.
Qed.

Lemma library_name a n : last a = Some (ch "\") -> named a -> good_library n ->
  Z.of_nat (length a) + Z.of_nat (length n) + 20 < STR_LEN -> good_name (a ++ n).
Proof.
  intros Ha (Ht & Hc & Hb) Hn Hl. destruct (strip_library a n Ha Hn) as [y Ey].
  destruct Hn as ((Htn & Hcn & Hbn) & Hne & _).
  assert (Hblank : Forall (fun c => grub_isspace c = false) (y ++ (lower <$> n))).
  { destruct (strip_some (a ++ n)) as (s & k & E & Es); [by destruct a|]. rewrite Ey in E. injection E as E.
    rewrite E, Es. apply Forall_drop. rewrite Forall_fmap. eapply Forall_impl; [apply Forall_app; by split|].
    intros c. apply lower_blank. }
  assert (Est : stem (a ++ n) = y ++ (lower <$> n)) by (unfold stem, strip_name; by rewrite Ey, upto_all).
  assert (Hnn : (lower <$> n) <> []) by (by destruct n).
  split_and!.
  - by apply text_app.
  - by apply Forall_app.
  - rewrite Est. by destruct y.
  - rewrite length_app. lia.
Qed.

Lemma library_try n e t : good_library n -> named e -> e <> [] ->
  Z.of_nat (length e) + Z.of_nat (length n) + 25 < STR_LEN ->
  (ch "/" :: stem (in_dir n e)) ∈ tg_paths t -> strip_name (in_dir n e) ∈ tg_names t -> exists z, last e = Some z /\
  let buf := e ++ (if z =? ch "\" then [] else [ch "\"]) ++ n in
  fits buf STR_LEN = Ret () /\ loads_one (preload_module buf false) t.
Proof.
  intros Hn (Ht & Hc & Hb) He Hl Hpath Hname. destruct (last e) as [z|] eqn:Ez; [|by apply last_None in Ez].
  exists z. split; [done|]. cbv zeta.
  assert (Ebuf : e ++ (if z =? ch "\" then [] else [ch "\"]) ++ n = in_dir n e).
  { unfold in_dir. rewrite Ez. do 2 f_equal. destruct (Z.eqb_spec z (ch "\")); case_bool_decide; congruence. }
  rewrite Ebuf. clear Ebuf. unfold in_dir in *. rewrite Ez in *.
  set (sep := if bool_decide (Some z = Some (ch "\")) then [] else [ch "\"]) in *.
  assert (Hsep : sep = [] /\ z = ch "\" \/ sep = [ch "\"]).
  { unfold sep. case_bool_decide as Hz; [left; split; [done|congruence]|by right]. }
  assert (Hlen : (length sep <= 1)%nat) by (destruct Hsep as [[-> _]| ->]; cbn; lia).
  split; [apply fits_ok; rewrite !length_app; lia|]. apply preload_module_spec.
  - rewrite app_assoc. apply library_name; [..|done|rewrite length_app; lia].
    + destruct Hsep as [[-> ->]| ->]; [by rewrite app_nil_r|by rewrite last_snoc].
    + destruct Hsep as [[-> _]| ->]; [by rewrite app_nil_r|]. split_and!.
      * apply text_app. split; [done|]. by apply text_check.
      * apply Forall_app. split; [done|]. by repeat constructor.
      * apply Forall_app. split; [done|]. by repeat constructor.
  - intros p Hp. cbn [file_target tg_paths] in Hp. apply list_elem_of_singleton in Hp as ->. exact Hpath.
  - exact Hname.
Qed.

Lemma library_loop_spec n t es : good_library n -> good_dirs (Z.of_nat (length n)) es ->
  tg_paths (library_target es n) ⊆ tg_paths t -> tg_names (library_target es n) ⊆ tg_names t ->
  forall fuel, (length (path_text es) < fuel)%nat -> loads_one (library_loop fuel (path_text es) n) t.
Proof.
  intros Hn. induction es as [|e es IH]; intros [Hes (z & Hz & Hdot)] Hps Hnms fuel Hf k s Hr Hcl; [done|].
  destruct fuel as [|fuel]; [lia|]. apply Forall_cons_1 in Hes as [He Hes].
  assert (Hpart : Forall (fun c => (c =? ch ";") = false) e).
  { destruct He as [->|(_ & _ & _ & H & _)]; [by repeat constructor|by apply not_in_stops]. }
  assert (Hsplit : exists r, upto (fun c => c =? ch ";") (path_text (e :: es)) = (e, r) /\
    (es = [] /\ r = [] \/ (r = ch ";" :: path_text es /\ good_dirs (Z.of_nat (length n)) es /\
      (length (path_text es) < fuel)%nat))).
  { destruct es as [|e' es]; [exists []; split; [by apply upto_all|by left]|]. eexists. split; [by apply upto_app|]. right.
    split; [done|]. split; [|change (path_text (e :: e' :: es)) with (e ++ ch ";" :: path_text (e' :: es)) in Hf;
      rewrite length_app in Hf; cbn [length] in Hf; lia]. split; [done|]. by exists z. }
  destruct Hsplit as (r & Ep & Ht). cbn [library_loop]. rewrite Ep.
  unfold library_target, searched in Hps, Hnms. cbn [List.filter tg_paths tg_names] in Hps, Hnms.
  destruct He as [->|(Hnm & Hne & Hnd & _ & Hlen)].
  - rewrite bool_decide_eq_true_2 by done. destruct Ht as [[-> _]|(-> & Hd & Hf')]; [by injection Hz as <-|].
    cbn [bool_decide negb require mbind C_bind tail]. by apply IH.
  - rewrite bool_decide_eq_false_2 in Hps, Hnms |- * by done. cbn [negb fmap list_fmap] in Hps, Hnms.
    destruct (library_try n e t Hn Hnm Hne ltac:(lia)) as (z' & Ez & Hfit & Hone); [apply Hps; by left|apply Hnms; by left|].
    rewrite Ez. cbn [need mbind C_bind].
    rewrite Hfit. cbn [mbind C_bind]. destruct (Hone k s Hr Hcl) as (rc & s1 & E1 & H1). rewrite E1. cbn [mbind C_bind].
    destruct (Z.eqb_spec rc 0) as [->|Hrc]; cbn [negb].
    + destruct Ht as [[-> ->]|(-> & Hd & Hf')]; [by exists 0, s1|]. cbn [bool_decide tail]. destruct H1 as [H1 Ec].
      destruct (IH Hd (fun p Hin => Hps p (list_elem_of_further _ _ _ Hin)) (fun p Hin => Hnms p (list_elem_of_further _ _ _ Hin))
        fuel Hf' k s1 H1 (same_clear _ _ _ Ec Hcl)) as (rc & s2 & E2 & H2).
      exists rc, s2. split; [done|]. destruct (rc =? 0); [by rewrite <- Ec|].
      destruct H2 as (R & (l & El & Hl) & H2). split_and!; [done| |done]. exists l. by rewrite <- Ec.
    + exists rc, s1. split; [done|]. by destruct (Z.eqb_spec rc 0).
Qed.

Lemma preload_library_spec n es : good_library n -> good_dirs (Z.of_nat (length n)) es ->
  loads_one (preload_library (Some (path_text es)) n) (library_target es n).
Proof. intros Hn Hes. unfold preload_library. cbn [need mbind C_bind]. apply library_loop_spec; [done..|lia]. Qed.

Lemma good_dirs_le r r' es : good_dirs r' es -> r <= r' -> good_dirs r es.
Proof.
  intros [H Hl] Hr. split; [|done]. eapply Forall_impl; [exact H|].
  intros e [->|(H1 & H2 & H3 & H4 & H5)]; [by left|right]. split_and!; try done. lia.
Qed.

(** *** Drivers *)

Fixpoint before (line : Z) (l : list (Z * list Z)) : list (list Z) :=
  match l with [] => [] | (n, a) :: l => if n <? line then a :: before line l else [] end.

Lemma devices_before_spec line l : Forall good_name (snd <$> l) ->
  gives (length l) (devices_before line l) (file_target false <$> before line l) (file_target false <$> before line l).
Proof.
  induction l as [|[n a] l IH]; intros Hg; cbn [devices_before before]; [apply gives_nothing|].
  cbn [fmap list_fmap snd] in Hg. apply Forall_cons_1 in Hg as [Ha Hg].
  destruct (n <? line); [|eapply gives_le; [apply gives_nothing|lia]].
  cbn [fmap list_fmap length]. apply gives_cons; [by apply preload_one|by apply IH].
Qed.

(** The drivers that are loaded, and how many there may be. *)
Definition drivers (c : boot_cfg) (ramdisk : bool) (drv : Z) : list (list Z) :=
  if ramdisk then
    List.filter (on_drive drv) (snd <$> ifs c) ++ List.filter (on_drive drv) (snd <$> device c) ++
    List.filter (on_drive drv) (snd <$> run c) ++ List.filter (on_drive drv) (snd <$> call_ c) ++
    List.filter (on_drive drv) (option_list (protshell c))
  else before (match ifs c with (n, _) :: _ => n | [] => 0 end) (device c) ++ option_list (snd <$> head (ifs c)).
Definition driver_count (c : boot_cfg) (ramdisk : bool) : nat :=
  if ramdisk then length (ifs c) + (length (device c) + (length (run c) + (length (call_ c) + 1)))
  else length (device c) + 1.
Definition good_drivers (c : boot_cfg) (ramdisk : bool) : Prop :=
  if ramdisk then Forall good_name (snd <$> ifs c) /\ Forall good_name (snd <$> device c) /\
    Forall good_name (snd <$> run c) /\ Forall good_name (snd <$> call_ c) /\
    exists d, protshell c = Some d /\ good_name d
  else Forall good_name (snd <$> device c) /\ exists n f, head (ifs c) = Some (n, f) /\ good_name f.

Lemma table_lines c : lines_of (type_table c) (bstr "PSD") = snd <$> psd c /\
  lines_of (type_table c) (bstr "BASEDEV") = snd <$> basedev c /\
  lines_of (type_table c) (bstr "DEVICE") = snd <$> device c /\ lines_of (type_table c) (bstr "IFS") = snd <$> ifs c /\
  lines_of (type_table c) (bstr "CALL") = snd <$> call_ c /\ lines_of (type_table c) (bstr "RUN") = snd <$> run c.
Proof.
  split_and!; match goal with |- _ = snd <$> ?l => change (snd <$> (l ++ []) = snd <$> l) end; by rewrite app_nil_r.
Qed.

Lemma bootdrv_lines c drv tp (l : list (Z * list Z)) : lines_of (type_table c) (bstr tp) = snd <$> l ->
  Forall good_name (snd <$> l) ->
  gives (length l) (load_type_bootdrv (type_table c) drv (bstr tp))
    (file_target false <$> List.filter (on_drive drv) (snd <$> l))
    (file_target false <$> List.filter (on_drive drv) (snd <$> l)).
Proof.
  intros E Hl. pose proof (load_type_bootdrv_spec (type_table c) drv (bstr tp)) as H. rewrite E in H.
  rewrite length_fmap in H. by apply H.
Qed.

Lemma load_drivers_spec c ramdisk drv : good_drivers c ramdisk ->
  gives (driver_count c ramdisk) (load_drivers c ramdisk drv) (file_target false <$> drivers c ramdisk drv)
    (file_target false <$> drivers c ramdisk drv).
Proof.
  unfold good_drivers, driver_count, load_drivers, drivers. destruct (table_lines c) as (_ & _ & Ed & Ei & Ec & Er).
  destruct ramdisk.
  - intros (Hi & Hd & Hr & Hc & d & Ep & Hg). rewrite !fmap_app.
    apply gives_then; [by apply bootdrv_lines|]. apply gives_then; [by apply bootdrv_lines|].
    apply gives_then; [by apply bootdrv_lines|]. apply gives_then; [by apply bootdrv_lines|].
    rewrite Ep. change (option_list (Some d)) with [d]. cbn [List.filter].
    eapply gives_ext; [intros s; cbn [need mbind C_bind]; by rewrite (on_drive_spec drv d Hg)|].
    cbn [mbind C_bind]. destruct (on_drive drv d); [|eapply gives_le; [apply gives_nothing|lia]].
    apply (preload_all [d] false). by constructor.
  - intros (Hd & n & f & Eh & Hf). rewrite fmap_app. apply gives_then; [by apply devices_before_spec|].
    rewrite Eh. change (option_list (snd <$> Some (n, f))) with [f]. cbn [fmap option_fmap option_map snd need mbind C_bind].
    apply (preload_all [f] false). by constructor.
Qed.

(** *** Screens *)

Fixpoint names_text (es : list (list Z)) : list Z :=
  match es with [] => [] | [e] => e ++ [ch ")"] | e :: es => e ++ ch "," :: names_text es end.
Definition video_file (e : list Z) : list Z := (tolower <$> e) ++ bstr ".dll".

(** The longest name of a library. *)
Definition LIB_LEN : Z := 40.
Definition video_name (e : list Z) : Prop :=
  (ch "," ∉ e) /\ (ch ")" ∉ e) /\ good_library (video_file e) /\ Z.of_nat (length (video_file e)) <= LIB_LEN.

(** The screen libraries that the lines [SET] name. *)
Inductive screens (sets : list (Z * list Z)) : list (list Z) -> Prop :=
  | no_video : cfg_getenv sets (bstr "VIDEO_DEVICES") = None -> screens sets []
  | no_screen v : cfg_getenv sets (bstr "VIDEO_DEVICES") = Some v -> Z.of_nat (length v) < BUF_LEN ->
      cfg_getenv sets v = None -> screens sets []
  | screen_list v pre es post : cfg_getenv sets (bstr "VIDEO_DEVICES") = Some v -> Z.of_nat (length v) < BUF_LEN ->
      cfg_getenv sets v = Some (pre ++ ch "(" :: names_text es ++ post) ->
      Z.of_nat (length (pre ++ ch "(" :: names_text es ++ post)) < BUF_LEN ->
      ch "(" ∉ pre -> es <> [] -> Forall video_name es -> screens sets es.

Lemma video_loop_spec dirs es post : good_dirs LIB_LEN dirs -> es <> [] -> Forall video_name es ->
  forall fuel, (length (names_text es) < fuel)%nat ->
  gives (length es) (video_loop fuel (Some (path_text dirs)) (names_text es ++ post))
    (library_target dirs <$> (video_file <$> es)) (library_target dirs <$> (video_file <$> es)).
Proof.
  intros Hd. induction es as [|e es IH]; intros Hne Hes fuel Hf; [done|].
  apply Forall_cons_1 in Hes as [(Hc & Hp & Hlib & Hlen) Hes]. destruct fuel as [|fuel]; [lia|].
  assert (Hstop : Forall (fun c => (c =? ch ",") || (c =? ch ")") = false) e).
  { apply Forall_forall. intros c Hin. apply orb_false_iff. split; apply Z.eqb_neq; by intros ->. }
  assert (Hsplit : exists c r, upto (fun c => (c =? ch ",") || (c =? ch ")")) (names_text (e :: es) ++ post) = (e, c :: r) /\
    (es = [] /\ c = ch ")" \/ (es <> [] /\ c = ch "," /\ r = names_text es ++ post /\ (length (names_text es) < fuel)%nat))).
  { destruct es as [|e' es].
    - exists (ch ")"), post. cbn [names_text]. rewrite <- app_assoc. split; [by apply upto_app|by left].
    - change (names_text (e :: e' :: es)) with (e ++ ch "," :: names_text (e' :: es)) in *. rewrite <- app_assoc.
      exists (ch ","), (names_text (e' :: es) ++ post). split; [by apply upto_app|]. right. split_and!; [done..|].
      rewrite length_app in Hf. cbn [length] in Hf. lia. }
  destruct Hsplit as (c & r & Ep & Hcase). cbn [fmap list_fmap length].
  pose proof (preload_library_spec (video_file e) dirs Hlib (good_dirs_le _ _ _ Hd Hlen)) as Hone.
  eapply gives_ext; [intros s; cbn [video_loop]; rewrite Ep;
    change ((tolower <$> e) ++ bstr ".dll") with (video_file e);
    rewrite fits_ok by (unfold BUF_LEN, LIB_LEN in *; lia); reflexivity|]. cbn [mbind C_bind].
  destruct Hcase as [[-> ->]|(Hes0 & -> & -> & Hf')].
  - apply (gives_cons 0 _ (fun s => Ret (0, s)) _ [] []); [done|apply gives_nothing].
  - apply gives_cons; [done|]. by apply IH.
Qed.

Lemma load_video_spec c dirs es : libpath c = Some (path_text dirs) -> good_dirs LIB_LEN dirs -> screens (set_ c) es ->
  gives (length es) (load_video c) (library_target dirs <$> (video_file <$> es)) (library_target dirs <$> (video_file <$> es)).
Proof.
  intros El Hd Hes. unfold load_video.
  destruct Hes as [E|v E Hl E'|v pre es post E Hl E' Hl' Hpre Hne Hes]; rewrite E; [apply gives_nothing| |].
  - rewrite fits_ok by done. cbn [mbind C_bind]. rewrite E'. apply gives_nothing.
  - rewrite fits_ok by done. cbn [mbind C_bind]. rewrite E', fits_ok by done. cbn [mbind C_bind].
    rewrite upto_app by (done || by apply not_in_stops). cbn [snd]. cbv zeta. rewrite bool_decide_eq_false_2 by done.
    cbn [tail]. rewrite El. apply video_loop_spec; [done..|]. cbn [length]. rewrite length_app. lia.
Qed.

(** *** Code pages *)

Definition codepage_names (p : list Z) : list (list Z) :=
  let '(e, t) := upto (fun c => c =? ch ",") p in
  (fun e => bstr "/language/codepage/ibm" ++ e) <$>
    (if bool_decide (t = []) then [e] else [e; fst (upto (fun c => c =? ch ",") (tail t))]).
Definition unicode_files (c : boot_cfg) : list (list Z) :=
  bstr "/language/codepage/ucstbl.lst" :: codepage_names (codepage c).

Lemma codepage_all p s : codepage_loop 2 p s = all_of (fun a => preload_module a false) (codepage_names p) s.
Proof.
  unfold codepage_names. cbn [codepage_loop]. destruct (upto _ p) as [e t]. case_bool_decide as Ht; cbn [fmap list_fmap all_of].
  - destruct (preload_module _ _ s) as [[rc s1]| | |]; done.
  - destruct (upto _ (tail t)) as [e' t']. cbn [fst]. destruct (preload_module _ _ s) as [[rc s1]| | |]; cbn; try done.
    destruct (rc =? 0); [done|]. destruct (preload_module _ _ s1) as [[rc' s2]| | |]; cbn; try done.
    destruct (rc' =? 0); [done|]. by case_bool_decide.
Qed.
Lemma codepage_names_length p : (length (codepage_names p) <= 2)%nat.
Proof. unfold codepage_names. destruct (upto _ p) as [e t]. rewrite length_fmap. case_bool_decide; cbn; lia. Qed.

(** A module that is there already is not loaded again. *)
(** A module that is there already is not loaded again. *)
Lemma preload_present m three s : good_name m -> has (strip_name m) s -> preload_module m three s = Ret (1, s).
Proof.
  intros Hm Hh. destruct (stem_spec m Hm) as (b & E & _). unfold preload_module. rewrite E. cbn [mbind C_bind].
  apply has_existsb in Hh. by rewrite Hh.
Qed.
Lemma there_has m s : good_name m -> no_blank m -> there s (file_target false m) -> has (strip_name m) s.
Proof.
  intros Hm Hb (p & Hp & Hc). exists p. split; [done|]. apply list_elem_of_singleton in Hp as ->.
  destruct (stem_spec m Hm) as (_ & _ & _ & _ & Hne & _).
  assert (Hm0 : m <> []) by (intros ->; by vm_compute in Hne). destruct (strip_some m Hm0) as (t & k & E & Et).
  assert (Hs : stem m = strip_name m).
  { unfold stem, strip_name. rewrite E, upto_all; [done|]. rewrite Et. apply Forall_drop. rewrite Forall_fmap.
    eapply Forall_impl; [exact Hb|]. intros c. apply lower_blank. }
  rewrite <- Hs. by apply (has_part_self (stem m) [ch "/"]).
Qed.
Lemma all_present l s : Forall (fun m => good_name m /\ has (strip_name m) s) l ->
  all_of (fun a => preload_module a false) l s = Ret (0, s).
Proof.
  induction 1 as [|m l (Hm & Hh) _ IH]; cbn [all_of]; [done|]. rewrite preload_present by done. cbn [mbind C_bind].
  exact IH.
Qed.

Lemma codepage_files_all c s : codepage_files c s =
  and_then (all_of (fun a => preload_module a false) [bstr "/language/codepage/ucstbl.lst"] s)
    (all_of (fun a => preload_module a false) (codepage_names (codepage c))).
Proof.
  unfold codepage_files, and_then. destruct (all_of _ _ s) as [[rc s1]| | |]; cbn; try done.
  destruct (rc =? 0); [apply codepage_all|done].
Qed.

Definition pages (c : boot_cfg) : list target := file_target false <$> unicode_files c.
Lemma codepage_files_spec c : Forall good_name (unicode_files c) -> gives 3 (codepage_files c) (pages c) (pages c).
Proof.
  intros Hg. apply Forall_cons_1 in Hg as [H1 H2].
  eapply gives_ext; [intros s; symmetry; apply codepage_files_all|].
  apply (gives_then 1 2 _ _ [_] [_]); [apply (preload_all [_] false); by constructor|].
  eapply gives_le; [by apply preload_all|apply codepage_names_length].
Qed.

Lemma unicode_loop_spec c : Forall (fun m => good_name m /\ no_blank m) (unicode_files c) -> distinct (pages c) ->
  forall fuel i k s, (fuel + i = S MODS_MAX)%nat -> (i <= MODS_MAX)%nat ->
  (ready (k + 3) s /\ Forall (clear s) (pages c)) \/ (ready k s /\ Forall (there s) (pages c)) ->
  exists rc s', unicode_loop fuel i c s = Ret (rc, s') /\ (rc = 0 -> ready k s' /\ adds (pages c) s s').
Proof.
  intros Hg Hd. assert (Hgood : Forall good_name (unicode_files c)) by (eapply Forall_impl; [exact Hg|]; by intros m []).
  induction fuel as [|fuel IH]; intros i k s Hf Hi Hs; [lia|]. cbn [unicode_loop].
  assert (Hk : ready k s) by (destruct Hs as [[Hs _]|[Hs _]]; [eapply ready_le; [exact Hs|lia]|done]).
  destruct (cmdlines s !! i) as [line|] eqn:El; [|exists 0, s; split; [done|]; intros _; split; [done|by apply adds_same]].
  assert (Hi' : (S i <= MODS_MAX)%nat) by (apply lookup_lt_Some in El; pose proof (ready_max k s Hk); lia).
  unfold and_then at 1. destruct (has_part _ line); [|cbn [mbind C_bind]; rewrite Z.eqb_refl; apply IH; [lia|done|done]].
  destruct Hs as [[Hs Hc]|[_ Hall]].
  - destruct (codepage_files_spec c Hgood k s Hs Hc Hd) as (rc & s1 & E1 & H1). rewrite E1. cbn [mbind C_bind].
    destruct (Z.eqb_spec rc 0) as [->|Hrc]; [|by exists 1, s1].
    destruct (H1 eq_refl) as (R1 & A1 & W1). destruct (IH (S i) k s1) as (rc2 & s2 & E2 & H2); [lia|done|by right|].
    exists rc2, s2. split; [done|]. intros Hrc. destruct (H2 Hrc) as [R2 A2]. split; [done|].
    eapply adds_weaken; [by eapply adds_more|]. intros t Ht. by apply elem_of_app in Ht as [|].
  - assert (Hp : Forall (fun m => good_name m /\ has (strip_name m) s) (unicode_files c)).
    { unfold pages in Hall. rewrite Forall_fmap in Hall. eapply Forall_impl; [apply Forall_and; exact (conj Hg Hall)|].
      intros m [[? ?] ?]. split; [done|]. by apply there_has. }
    rewrite codepage_files_all. apply Forall_cons_1 in Hp as [Hp1 Hp2]. rewrite all_present by (by constructor).
    unfold and_then at 1. cbn [mbind C_bind]. rewrite Z.eqb_refl, all_present by done. cbn [mbind C_bind].
    rewrite Z.eqb_refl. apply IH; [lia|done|by right].
Qed.

(** ** What [load_modules] loads *)

Record good_cfg (c : boot_cfg) (ramdisk : bool) (dirs es : list (list Z)) (f1 f2 f3 : list Z) : Prop := {
  gc_psd : Forall good_name (snd <$> psd c);
  gc_basedev : Forall good_name (snd <$> basedev c);
  gc_country : country_file c = Ret f1 /\ good_name f1;
  gc_kbd : kbd_file c = Ret f2 /\ good_name f2;
  gc_vio : vio_file c = Ret f3 /\ good_name f3;
  gc_libpath : libpath c = Some (path_text dirs) /\ good_dirs LIB_LEN dirs;
  gc_drivers : good_drivers c ramdisk;
  gc_screens : screens (set_ c) es;
  gc_codepage : Forall (fun m => good_name m /\ no_blank m) (unicode_files c)
}.

(** The files that must be there, and with them those that need not be, in the order in
    which they are tried. *)
Definition devices (c : boot_cfg) : list target :=
  (file_target true <$> (snd <$> psd c)) ++ (file_target true <$> implicit_basedevs) ++
  (file_target true <$> (snd <$> basedev c)).
Definition others (c : boot_cfg) (ramdisk : bool) (drv : Z) (dirs es : list (list Z)) (f1 f2 f3 : list Z) : list target :=
  (file_target false <$> [f1; f2; f3]) ++ (library_target dirs <$> libraries) ++
  (file_target false <$> drivers c ramdisk drv) ++ (library_target dirs <$> (video_file <$> es)).
Definition needed (c : boot_cfg) (ramdisk : bool) (drv : Z) (dirs es : list (list Z)) (f1 f2 f3 : list Z) : list target :=
  (file_target false <$> kernel_files) ++ devices c ++ others c ramdisk drv dirs es f1 f2 f3.
Definition tried (c : boot_cfg) (ramdisk : bool) (drv : Z) (dirs es : list (list Z)) (f1 f2 f3 : list Z) : list target :=
  (file_target false <$> kernel_files) ++ (file_target false <$> optional_files) ++ devices c ++
  others c ramdisk drv dirs es f1 f2 f3 ++ pages c.
(** How many modules there may be, with the files that need not be there and those of the
    code pages. *)
Definition module_count (c : boot_cfg) (ramdisk : bool) (es : list (list Z)) : nat :=
  36 + length (psd c) + length (basedev c) + driver_count c ramdisk + length es.

Lemma text_checkb w : forallb (fun c => (0 <? c) && (c <? 256) && negb (c =? ch "(")) w = true ->
  text w /\ Forall (fun c => c <> ch "(") w.
Proof.
  rewrite forallb_forall. intros H. split; apply Forall_forall; intros c Hc%list_elem_of_In%H;
    rewrite !andb_true_iff, !negb_true_iff, !Z.eqb_neq, !Z.ltb_lt in Hc; tauto.
Qed.
Definition name_check (m : list Z) : bool :=
  forallb (fun c => (0 <? c) && (c <? 256) && negb (c =? ch "(")) m &&
  negb (bool_decide (stem m = [])) && (Z.of_nat (length m) + 20 <? STR_LEN).
Lemma names_good l : forallb name_check l = true -> Forall good_name l.
Proof.
  rewrite forallb_forall. intros H. apply Forall_forall. intros m Hm%list_elem_of_In%H. unfold name_check in Hm.
  rewrite !andb_true_iff, negb_true_iff, bool_decide_eq_false, Z.ltb_lt in Hm.
  destruct Hm as [[[H1 H2]%text_checkb H3] H4]. by split_and!.
Qed.

Definition library_check (n : list Z) : bool :=
  forallb (fun c => (0 <? c) && (c <? 256) && negb (c =? ch "(")) n &&
  forallb (fun c => negb (grub_isspace c)) n && negb (bool_decide (n = [])) &&
  negb (bool_decide (head n = Some (ch ":"))) && negb (bool_decide (head n = Some (ch "/"))) &&
  negb (bool_decide (head n = Some (ch "\"))).
Lemma library_good n : library_check n = true -> good_library n.
Proof.
  unfold library_check. rewrite !andb_true_iff, !negb_true_iff, !bool_decide_eq_false.
  intros [[[[[[H1 H2]%text_checkb H3] H4] H5] H6] H7]. split; [|done]. split_and!; [done|done|].
  apply Forall_forall. intros c Hc. rewrite forallb_forall in H3. apply negb_true_iff, H3. by apply list_elem_of_In.
Qed.

Lemma type_lines c tp (l : list (Z * list Z)) : lines_of (type_table c) (bstr tp) = snd <$> l ->
  Forall good_name (snd <$> l) -> gives (length l) (load_type (type_table c) (bstr tp))
    (file_target true <$> (snd <$> l)) (file_target true <$> (snd <$> l)).
Proof.
  intros E Hl. pose proof (load_type_spec (type_table c) (bstr tp)) as H. rewrite E in H.
  rewrite length_fmap in H. by apply H.
Qed.

Lemma one_file f x : x = Ret f -> good_name f ->
  gives 1 (fun s => p ← x; all_of (fun a : list Z => preload_module a false) [p] s)
    [file_target false f] [file_target false f].
Proof.
  intros -> Hf. eapply gives_ext; [intros s; reflexivity|]. apply (preload_all [f] false). by constructor.
Qed.

Lemma all_libraries dirs : good_dirs LIB_LEN dirs ->
  gives (length libraries) (all_of (preload_library (Some (path_text dirs))) libraries)
    (library_target dirs <$> libraries) (library_target dirs <$> libraries).
Proof.
  intros Hd. assert (H : forallb (fun n => library_check n && (Z.of_nat (length n) <=? LIB_LEN)) libraries = true)
    by (vm_compute; reflexivity).
  rewrite forallb_forall in H. apply all_of_spec. intros n Hn%list_elem_of_In%H.
  apply andb_true_iff in Hn as [Hn%library_good Hl%Z.leb_le]. apply preload_library_spec; [done|].
  by eapply good_dirs_le.
Qed.

Lemma gives_pages c : Forall (fun m => good_name m /\ no_blank m) (unicode_files c) ->
  gives 3 (unicode_loop (S MODS_MAX) 0 c) (pages c) [].
Proof.
  intros Hg k s Hr Hc Hd. destruct (unicode_loop_spec c Hg Hd (S MODS_MAX) 0 k s) as (rc & s' & E & H); [lia|lia|by left|].
  exists rc, s'. split; [done|]. intros Hrc. destruct (H Hrc). split_and!; [done|done|constructor].
Qed.

Lemma load_files_spec c ramdisk drv dirs es f1 f2 f3 : good_cfg c ramdisk dirs es f1 f2 f3 ->
  gives (module_count c ramdisk es) (load_files c ramdisk drv) (tried c ramdisk drv dirs es f1 f2 f3)
    (needed c ramdisk drv dirs es f1 f2 f3).
Proof.
  intros [Hpsd Hbase [E1 F1] [E2 F2] [E3 F3] [El Hd] Hdrv Hscr Hcp].
  destruct (table_lines c) as (Ep & Eb & _ & _ & _ & _).
  assert (Hk : Forall good_name kernel_files) by (apply names_good; vm_compute; reflexivity).
  assert (Ho : Forall good_name optional_files) by (apply names_good; vm_compute; reflexivity).
  assert (Hi : Forall good_name implicit_basedevs) by (apply names_good; vm_compute; reflexivity).
  pose proof (load_video_spec c dirs es El Hd Hscr) as Hvideo. pose proof (gives_pages c Hcp) as Hpages.
  pose proof (gives_then _ _ _ _ _ _ _ _ (load_drivers_spec c ramdisk drv Hdrv) (gives_then _ _ _ _ _ _ _ _ Hvideo Hpages)) as G.
  pose proof (gives_then _ _ _ _ _ _ _ _ (all_libraries dirs Hd) G) as G1.
  pose proof (gives_then _ _ _ _ _ _ _ _ (one_file f3 _ E3 F3) G1) as G2.
  pose proof (gives_then _ _ _ _ _ _ _ _ (one_file f2 _ E2 F2) G2) as G3.
  pose proof (gives_then _ _ _ _ _ _ _ _ (one_file f1 _ E1 F1) G3) as G4.
  pose proof (gives_then _ _ _ _ _ _ _ _ (type_lines c "BASEDEV" _ Eb Hbase) G4) as G5.
  pose proof (gives_then _ _ _ _ _ _ _ _ (preload_all _ true Hi) G5) as G6.
  pose proof (gives_then _ _ _ _ _ _ _ _ (type_lines c "PSD" _ Ep Hpsd) G6) as G7.
  pose proof (gives_then _ _ _ _ _ _ _ _ (any_of_spec _ Ho) G7) as G8.
  pose proof (gives_then _ _ _ _ _ _ _ _ (preload_all _ false Hk) G8) as G9. rewrite <- El in G9.
  eapply gives_le; [|shelve]. unfold tried, needed, devices, others. rewrite <- !app_assoc.
  rewrite app_nil_l, app_nil_r in G9. exact G9.
  Unshelve. unfold module_count.
  change (length kernel_files) with 3%nat. change (length optional_files) with 9%nat.
  change (length implicit_basedevs) with 6%nat. change (length libraries) with 12%nat. lia.
Qed.

(** C15: For a system none of whose files has its name within the path of another file that
    is tried or loaded before it, [load_modules] reports success only when every file that the kernel
    needs is loaded, by one of the paths it is looked for under: the kernel's own, those of
    the PSD and BASEDEV lines, the implicit drivers, the country, keyboard and video tables,
    the drivers before the first file system or of the boot drive, the libraries that are
    looked for along LIBPATH and those of the screen.  Nothing on the way is undefined
    whatever files exist, and only the file of messages is looked for after that. *)
Theorem needed_files_loaded c ramdisk drv addr dirs es f1 f2 f3 n s : good_cfg c ramdisk dirs es f1 f2 f3 ->
  distinct (tried c ramdisk drv dirs es f1 f2 f3) -> Forall (clear s) (tried c ramdisk drv dirs es f1 f2 f3) ->
  ready (n + module_count c ramdisk es) s -> above addr s -> 0 <= addr <= MAXINT -> exists rc s',
    load_modules c ramdisk drv addr s = (if rc =? 0 then load_messages c s' else Ret (1, s')) /\
    (rc = 0 -> ready n s' /\
       Forall (fun t => exists p, p ∈ tg_paths t /\ loaded p s') (needed c ramdisk drv dirs es f1 f2 f3)).
Proof.
  intros Hc Hd Hs Hr Ha Hm. unfold load_modules.
  destruct (number_parts addr 16 (or_intror eq_refl) Hm) as (d & _ & Eh & _).
  assert (E : convert_to_ascii (ch "x") addr = Ret (reverse (digit_char <$> d))).
  { rewrite convert_spec by auto. change (ch "x" =? ch "x") with true. cbv iota. by rewrite Eh. }
  rewrite E. cbn [mbind C_bind]. destruct (modaddr_law _ _ _ s Hr Ha Hm E) as (rc0 & s0 & E0 & R0 & C0). rewrite E0.
  cbn [mbind C_bind].
  destruct (load_files_spec c ramdisk drv dirs es f1 f2 f3 Hc n s0 R0) as (rc & s' & E1 & H); [|done|].
  { eapply Forall_impl; [exact Hs|]. intros t. by apply same_clear. }
  exists rc, s'. split; [unfold and_then; by rewrite E1|]. intros Hrc. destruct (H Hrc) as (R & _ & W). split; [done|].
  eapply Forall_impl; [exact W|]. intros t (p & Hp & Hin). exists p. split; [done|]. by apply (lines_loaded n).
Qed.
End laws.

(** ** The loader of [BootMenu]

    [exec_cmd] is [exec_line], and the commands [module] and [modaddr] are those of
    [BootMod]. *)

Lemma once_plain v p : forall fuel r, text p -> ch "(" ∉ p -> (length p < fuel)%nat ->
  var_sprint_once fuel v (p ++ 0 :: r) = Ret p.
Proof.
  induction p as [|c p IH]; intros fuel r Ht Hp Hf; (destruct fuel as [|fuel]; [cbn in Hf; lia|]); [done|].
  apply Forall_cons_1 in Ht as [Hc Ht]. apply not_elem_of_cons in Hp as [_ Hp]. cbn [app var_sprint_once].
  destruct (Z.eqb_spec c 0); [lia|].
  assert (Hnext : (cur (p ++ 0 :: r) =? ch "(") = false).
  { destruct p as [|d p]; [done|]. apply not_elem_of_cons in Hp as [Hd _]. cbn. by apply Z.eqb_neq. }
  rewrite Hnext, andb_false_r, IH by (done || cbn in Hf; lia). done.
Qed.

Lemma sprint_plain stale v p : text p -> ch "(" ∉ p -> Z.of_nat (length p) < buffer_size ->
  Z.of_nat (length stale) = buffer_size -> var_sprint 0x400 stale v p = Ret p.
Proof.
  intros Ht Hp Hl Hs. unfold buffer_size in *. unfold var_sprint.
  destruct (Z.ltb_spec (Z.of_nat (length p)) 0x400); [|lia]. cbn [require mbind C_bind sprint_loop].
  unfold buffer_size. destruct (Z.ltb_spec 1000 (Z.of_nat (length p))); [lia|].
  pose proof (strcpy_app [] stale p Ht ltac:(lia)) as E. cbn [app length] in E. change (Z.of_nat 0) with 0 in E.
  rewrite E. cbn [mbind C_bind]. rewrite once_plain by (done || (rewrite length_app; lia)). cbn [mbind C_bind].
  destruct (Z.ltb_spec (Z.of_nat (length p)) 0x400); [|lia]. cbn [require mbind C_bind].
  by rewrite until_zero_text, strcmp_refl.
Qed.

Lemma macro_plain at_drive p : ch "(" ∉ p -> Z.of_nat (length p) < BUFLEN -> macro_subst at_drive p = Ret p.
Proof.
  intros Hp Hl. unfold macro_subst. cbn [macro_loop]. destruct (grub_strstr p (bstr "()")) as [r|] eqn:E.
  - exfalso. destruct (strstr_found _ _ _ E) as (k & Ep & _ & [b ->] & _). apply Hp. rewrite Ep.
    apply elem_of_app. right. by left.
  - cbn [mbind C_bind]. by destruct (Z.ltb_spec (Z.of_nat (length p)) BUFLEN); [|lia].
Qed.

Definition with_modules (b : boot_state) (m : boot_modules) : boot_state :=
  {| toggles := toggles b; var_expand_line_edit := var_expand_line_edit b; numbers := numbers b;
     curr_cfg := curr_cfg b; prev_cfg := prev_cfg b; modules := m |}.

Section instance.
Context (at_drive stale : list Z) (host : list Z -> handler) (mem_upper : Z) (files : list Z -> option (list Z)).
Context (lip_module : boot_modules -> boot_modules).

Definition module_host (name : list Z) : handler := fun arg b =>
  if bool_decide (name = bstr "module") then
    '(rc, m) ← module_func mem_upper files lip_module arg (modules b); Ret (rc, with_modules b m)
  else if bool_decide (name = bstr "modaddr") then
    '(rc, m) ← modaddr_func arg (modules b); Ret (rc, with_modules b m)
  else host name arg b.

#[local] Instance boot_loader : BootLoader boot_state := {
  exec_cmd := exec_line at_drive stale module_host;
  cmdlines b := (fun e => str_in (ram (modules b)) (cmdline e)) <$> mods (modules b)
}.

Hypothesis Hstale : Z.of_nat (length stale) = buffer_size.
Hypothesis Hend : 0 <= mem_upper /\ ram_end mem_upper + 0x2000 <= 2 ^ 32.
Hypothesis Hfiles : forall name bytes, files name = Some bytes ->
  ram_end mem_upper + 0x2000 + Z.of_nat (length bytes) <= 2 ^ 32.
(** No file ends with its command line at the end of a page ([terminator_lost]). *)
Hypothesis Hterm : forall name bytes, files name = Some bytes ->
  (Z.of_nat (length bytes) + Z.of_nat (length name)) mod 4096 <> 0.

(** A command with a plain argument. *)
Lemma exec_plain w p b i func : word w -> plain p -> Z.of_nat (length p) < buffer_size ->
  separator true (cur p) = false -> p <> [] -> triggers_only (toggles b) = false ->
  list_find (fun e => e.1 = w) (builtins stale module_host) = Some (i, (w, func)) ->
  exec_cmd (w ++ 32 :: p) b = ('(rc, b) ← func p b; Ret (if rc =? 0 then 1 else 0, b)).
Proof.
  intros Hw [Ht Hc] Hl Hs Hne Htr Hf. cbn [exec_cmd boot_loader].
  assert (Hparen : ch "(" ∉ p).
  { intros Hin. rewrite Forall_forall in Hc. by destruct (Hc _ Hin). }
  assert (Hback : ch "\" ∉ p).
  { intros Hin. rewrite Forall_forall in Hc. by destruct (Hc _ Hin). }
  assert (Htl : text (w ++ 32 :: p)) by (apply text_app; split; [apply Hw|by constructor]).
  assert (Hno : ch "\" ∉ w ++ 32 :: p).
  { rewrite not_elem_of_app, not_elem_of_cons. split; [|done]. destruct Hw as (_ & _ & Hw).
    intros Hin. eapply Forall_forall in Hw as [_ []]; [|exact Hin]. done. }
  rewrite exec_line_builtins, with_slashes_none, run_builtin_spec by (done || apply builtin_words || apply builtin_names).
  rewrite up_to_blank_word by done. cbn [fst snd]. rewrite Hf. unfold call.
  assert (Eb : skip_blank true (32 :: p) = p) by (destruct p; [done|]; cbn [cur head default] in Hs; cbn; by rewrite Hs).
  rewrite Eb, macro_plain by (done || unfold BUFLEN, buffer_size in *; lia). cbn [mbind C_bind].
  rewrite sprint_plain by done. cbn [mbind C_bind]. by rewrite Htr.
Qed.

(** A module's command line ends with a zero, and not at the end of a page: there the next
    module would take its place. *)
Definition closed_line (st : boot_modules) (e : module_entry) (x : list Z * list Z) : Prop :=
  let z := cmdline e + Z.of_nat (length x.1) in
  peek (ram st) z = 0 /\ z mod 4096 <> 0 /\ 0x100000 <= z <= cur_addr st.

Record boot_ready (n : nat) (b : boot_state) : Prop := {
  br_triggers : triggers_only (toggles b) = false;
  br_placed : exists l, well_placed mem_upper (modules b) l /\
    Forall (fun x => text x.1 /\ files x.1 = Some x.2) l /\ (length l + n <= MODS_MAX)%nat /\
    Forall2 (closed_line (modules b)) (mods (modules b)) l
}.

(** A file is in memory with its contents. *)
Definition boot_loaded (p : list Z) (b : boot_state) : Prop :=
  exists l bytes, well_placed mem_upper (modules b) l /\ (p, bytes) ∈ l /\ files p = Some bytes.

Lemma lines_exact b l : well_placed mem_upper (modules b) l -> Forall (fun x => text x.1 /\ files x.1 = Some x.2) l ->
  Forall2 (closed_line (modules b)) (mods (modules b)) l -> cmdlines b = fst <$> l.
Proof.
  intros Hp Ht Hz. cbn [cmdlines boot_loader]. pose proof (placed_entries _ _ _ _ _ (wp_mods _ _ _ Hp)) as He. clear Hp.
  induction Hz as [|e x es l (Z1 & Z2 & Z3) _ IH]; [done|]. apply Forall_cons_1 in Ht as [[Ht _] Hts].
  apply Forall2_cons in He as [(_ & _ & E & H) He]. rewrite !fmap_cons. f_equal; [|by apply IH].
  apply held_app in H as [_ H]. apply str_in_exact; [by rewrite E|by apply text_no_zero|done].
Qed.

Lemma closed_line_keep st st' es l : Forall2 (closed_line st) es l -> cur_addr st <= cur_addr st' ->
  (forall x, 0x100000 <= x <= cur_addr st -> x mod 4096 <> 0 -> peek (ram st') x = peek (ram st) x) ->
  Forall2 (closed_line st') es l.
Proof.
  intros H Hc Hm. eapply Forall2_impl; [exact H|]. intros e x (Z1 & Z2 & Z3). unfold closed_line. rewrite Hm by done.
  split_and!; (done || lia).
Qed.

Lemma path_arg p : good_path p -> plain_arg p /\ separator true (cur p) = false /\ p <> [].
Proof.
  intros (_ & Hh & Hl). destruct p as [|c p]; [done|]. injection Hh as ->. unfold STR_LEN in Hl.
  split; [split; [done|lia]|done].
Qed.

(** What a module command does to the state. *)
Lemma boot_module n p b : boot_ready (S n) b -> good_path p -> exists rc b',
  exec_cmd (bstr "module " ++ p) b = Ret (rc, b') /\
  if rc =? 0 then boot_ready (S n) b' /\ cmdlines b' = cmdlines b
  else boot_ready n b' /\ cmdlines b' = cmdlines b ++ [p].
Proof.
  intros [Ht (l & Hl & Htext & Hn & Hz)] Hp. destruct (path_arg p Hp) as (Ha & Hs & Hne).
  pose proof (lines_exact b l Hl Htext Hz) as Elines.
  destruct Hp as (Hpl & _ & Hlen). unfold STR_LEN in Hlen.
  change (bstr "module " ++ p) with (bstr "module" ++ 32 :: p).
  rewrite (exec_plain _ _ _ 1%nat (module_host (bstr "module"))); [|by split_and!; [by apply text_check|done|repeat constructor]
    |done|unfold buffer_size; lia|done|done|done|reflexivity].
  unfold module_host at 1. rewrite bool_decide_eq_true_2 by done.
  destruct (Z.lt_ge_cases (MB_CMDLINE_BUF + MB_CMDLINE_BUFLEN) (mb_cmdline (modules b) + Z.of_nat (length p) + 1))
    as [Hbig|Hroom].
  { assert (E : module_func mem_upper files lip_module p (modules b) = Ret (1, modules b)).
    { unfold module_func. destruct Ha as [-> _]. rewrite (wp_kernel _ _ _ Hl). cbv zeta. cbn [andb].
      by destruct (Z.ltb_spec (MB_CMDLINE_BUF + MB_CMDLINE_BUFLEN) (mb_cmdline (modules b) + Z.of_nat (length p) + 1)); [|lia]. }
    rewrite E. cbn [mbind C_bind]. exists 0, b. split; [by destruct b|]. split; [|done].
    split; [done|]. by exists l. }
  destruct (module_func_spec mem_upper files lip_module Hend Hfiles p _ l Hl Ha ltac:(lia) Hroom)
    as [(bytes & st' & e & Ef & _ & E & Hst' & A1 & A2 & A3 & A4 & A5)|(_ & st' & E & Hst' & U1 & U2 & U3)];
    rewrite E; cbn [mbind C_bind]; pose proof (placed_le _ _ _ _ _ (wp_mods _ _ _ Hl)) as Hcur.
  - exists 1, (with_modules b st'). split; [done|].
    assert (Htext' : Forall (fun x : list Z * list Z => text x.1 /\ files x.1 = Some x.2) (l ++ [(p, bytes)])).
    { apply Forall_app. split; [done|]. constructor; [|constructor]. by destruct Hpl. }
    assert (Hz' : Forall2 (closed_line st') (mods st') (l ++ [(p, bytes)])).
    { rewrite A1. apply Forall2_app.
      - apply (closed_line_keep (modules b)); [done|done|]. intros x Hx Hal. apply A4.
        destruct (page_up_spec (cur_addr (modules b))) as [M P]; [lia|by destruct (wp_cur _ _ _ Hl)|].
        assert (x <> page_up (cur_addr (modules b))) by congruence. lia.
      - constructor; [|constructor]. unfold closed_line. cbn [fst]. rewrite A5.
        pose proof (placed_entries _ _ _ _ _ (wp_mods _ _ _ Hst')) as He. rewrite A1 in He.
        apply Forall2_app_inv in He as [_ He]; [|by rewrite (placed_length _ _ _ _ _ (wp_mods _ _ _ Hl))].
        apply Forall2_cons in He as [(G1 & G2 & G3 & _) _]. cbn [snd] in G3. pose proof (Hterm _ _ Ef) as Hpg.
        split; [done|]. split; [|lia]. rewrite <- A5, G3.
        intros Hmod. apply Hpg. rewrite <- Z.add_assoc, Z.add_mod, G2, Z.add_0_l, Z.mod_mod in Hmod by done. done. }
    assert (Hready : boot_ready n (with_modules b st')).
    { split; [done|]. exists (l ++ [(p, bytes)]). split_and!; [done|done|rewrite length_app; cbn; lia|done]. }
    split; [done|]. rewrite (lines_exact (with_modules b st') _ Hst' Htext' Hz'), Elines. by rewrite fmap_app.
  - exists 0, (with_modules b st'). split; [done|].
    assert (Hz' : Forall2 (closed_line st') (mods st') l).
    { rewrite U1. apply (closed_line_keep (modules b)); [done|done|]. intros x Hx _. apply U3. lia. }
    split; [|by rewrite (lines_exact (with_modules b st') _ Hst' Htext Hz'), Elines].
    split; [done|]. by exists l.
Qed.

Definition boot_above (a : Z) (b : boot_state) : Prop :=
  cur_addr (modules b) <= a /\ page_up a <= ram_end mem_upper + 0x1FFF /\ a + 0xFFF < 2 ^ 32.

Lemma digits_length fuel : forall n mult ds, number_digits fuel n mult = Ret ds -> (length ds <= fuel)%nat.
Proof.
  induction fuel as [|fuel IH]; intros n mult ds H; cbn in H; [done|].
  destruct (n / mult =? 0); [injection H as <-; cbn; lia|].
  destruct (number_digits fuel (n / mult) mult) as [ds'| | |] eqn:E; try done.
  injection H as <-. cbn. by apply le_n_S, (IH _ _ _ E).
Qed.
Lemma digit_plain d : 0 <= d < 16 -> 0 < digit_char d < 256 /\ digit_char d <> ch "(" /\ digit_char d <> ch "\".
Proof.
  intros Hd. unfold digit_char.
  change (ch "(") with 40. change (ch "\") with 92. change (ch "0") with 48. change (ch "a") with 97.
  destruct (Z.ltb_spec 9 d); lia.
Qed.

Lemma boot_modaddr n a h b : boot_ready n b -> boot_above a b -> 0 <= a <= MAXINT ->
  convert_to_ascii (ch "x") a = Ret h ->
  exists rc b', exec_cmd (bstr "modaddr 0x" ++ h) b = Ret (rc, b') /\ boot_ready n b' /\ cmdlines b' = cmdlines b.
Proof.
  intros [Ht (l & Hl & Htext & Hn & Hz)] (A1 & A2 & A3) Ha Eh.
  destruct (number_parts a 16 (or_intror eq_refl) Ha) as (d & _ & Ed & Hall & _ & Pd).
  rewrite convert_spec in Eh by auto. change (ch "x" =? ch "x") with true in Eh. cbv iota in Eh. rewrite Ed in Eh.
  injection Eh as <-. pose proof (digits_length _ _ _ _ Ed) as Hlen. rewrite length_fmap in Hlen.
  set (h := reverse (digit_char <$> d)) in *.
  assert (Hh : Forall (fun c => 0 < c < 256 /\ c <> ch "(" /\ c <> ch "\") h).
  { unfold h. apply Forall_reverse. rewrite Forall_fmap. eapply Forall_impl; [exact Hall|]. intros c. apply digit_plain. }
  change (bstr "modaddr 0x" ++ h) with (bstr "modaddr" ++ 32 :: bstr "0x" ++ h).
  rewrite (exec_plain _ _ _ 2%nat (module_host (bstr "modaddr"))); [|by split_and!; [by apply text_check|done|repeat constructor]
    | | |done|done|done|reflexivity].
  - unfold module_host. rewrite bool_decide_eq_false_2, bool_decide_eq_true_2 by done. unfold modaddr_func.
    rewrite (wp_kernel _ _ _ Hl), parse_hex. rewrite <- (app_nil_r h). unfold h. rewrite Pd by done. cbn [mbind C_bind].
    do 2 eexists. split; [reflexivity|]. split; [|done]. split; [done|].
    exists l. split_and!; [|done|done|].
    + destruct Hl as [H1 H2 H3 H4]. split; cbn; [|done|done|done]. eapply placed_hi; [exact H1|done].
    + by apply (closed_line_keep (modules b)).
  - split.
    + apply text_app. split; [by apply text_check|]. eapply Forall_impl; [exact Hh|]. by intros c [].
    + apply Forall_app. split; [by repeat constructor|]. eapply Forall_impl; [exact Hh|]. by intros c (_ & ? & ?).
  - unfold h. rewrite length_app, length_reverse, length_fmap. change (length (bstr "0x")) with 2%nat.
    unfold buffer_size, digits_fuel in *. lia.
Qed.

Lemma boot_less n b : boot_ready (S n) b -> boot_ready n b.
Proof. intros [H1 (l & H2 & H3 & H4 & H5)]. split; [done|]. exists l. split_and!; [done|done|lia|done]. Qed.
Lemma boot_max n b : boot_ready n b -> (length (cmdlines b) <= MODS_MAX)%nat.
Proof.
  intros [_ (l & H2 & _ & H4 & _)]. cbn [cmdlines boot_loader]. rewrite length_fmap.
  rewrite (placed_length _ _ _ _ _ (wp_mods _ _ _ H2)). lia.
Qed.
Lemma boot_lines n p b : boot_ready n b -> p ∈ cmdlines b -> boot_loaded p b.
Proof.
  intros [_ (l & H2 & H3 & _ & H5)] Hp. rewrite (lines_exact b l H2 H3 H5) in Hp.
  apply list_elem_of_fmap in Hp as ([arg bytes] & -> & Hin). exists l, bytes. split_and!; [done|done|].
  rewrite Forall_forall in H3. by destruct (H3 _ Hin).
Qed.

Definition boot_laws : BootLoaderLaws boot_state := {|
  ready := boot_ready; above := boot_above; loaded := boot_loaded; ready_less := boot_less; ready_max := boot_max;
  lines_loaded := boot_lines; module_law := boot_module; modaddr_law := boot_modaddr
|}.
End instance.

(** ** Concrete systems *)

Definition demo_cfg : boot_cfg := {|
  psd := []; basedev := [(3, bstr "IBM1S506.ADD /A:0"); (4, bstr "OS2DASD.DMD")];
  device := [(2, bstr "C:\OS2\BOOT\TESTCFG.SYS"); (9, bstr "C:\OS2\MDOS\VEMM.SYS")];
  ifs := [(5, bstr "C:\OS2\HPFS.IFS /CACHE:64")]; call_ := []; run := [];
  set_ := [(7, bstr "DPATH=C:\OS2"); (8, bstr "VIDEO_DEVICES=VIO_VGA"); (9, bstr "VIO_VGA=DEVICE(BVHVGA,BVHMPA)")]; ixf := [];
  libpath := Some (bstr ".;C:\OS2\DLL"); country := Some (bstr "001,C:\OS2\SYSTEM\COUNTRY.SYS");
  devinfo_kbd := Some (bstr "KBD,US,C:\OS2\KEYBOARD.DCP"); devinfo_vio := Some (bstr "SCR,VGA,C:\OS2\BOOT\VIOTBL.DCP");
  codepage := bstr "437,850"; protshell := None
|}.

Lemma demo_cfg_good : good_cfg demo_cfg false [bstr "."; bstr "C:\OS2\DLL"] [bstr "BVHVGA"; bstr "BVHMPA"]
  (bstr "C:\OS2\SYSTEM\COUNTRY.SYS") (bstr "C:\OS2\KEYBOARD.DCP") (bstr "C:\OS2\BOOT\VIOTBL.DCP").
Proof.
  split.
  - constructor.
  - by apply names_good.
  - split; [reflexivity|]. apply Forall_singleton. by apply names_good.
  - split; [reflexivity|]. apply Forall_singleton. by apply names_good.
  - split; [reflexivity|]. apply Forall_singleton. by apply names_good.
  - split; [reflexivity|]. split; [|by exists (bstr "C:\OS2\DLL")]. constructor; [by left|]. constructor; [|constructor].
    right. split_and!; [|done|done| |by vm_compute].
    + split_and!; [by apply text_check|by repeat constructor|by repeat constructor].
    + apply (bool_decide_unpack _). by vm_compute.
  - split; [by apply names_good|]. do 2 eexists. split; [reflexivity|]. apply Forall_singleton. by apply names_good.
  - eapply (screen_list _ (bstr "VIO_VGA") (bstr "DEVICE") _ []).
    + reflexivity.
    + by vm_compute.
    + reflexivity.
    + by vm_compute.
    + apply (bool_decide_unpack _). by vm_compute.
    + done.
    + repeat (constructor; [split_and!; [apply (bool_decide_unpack _); by vm_compute|apply (bool_decide_unpack _); by vm_compute
        |by apply library_good|by vm_compute]|]). constructor.
  - assert (H : Forall good_name (unicode_files demo_cfg)) by (by apply names_good).
    rewrite Forall_forall in H. apply Forall_forall. intros m Hm. split; [by apply H|].
    assert (Hb : forallb (forallb (fun c => negb (grub_isspace c))) (unicode_files demo_cfg) = true) by (vm_compute; reflexivity).
    rewrite forallb_forall in Hb. apply list_elem_of_In, Hb in Hm. rewrite forallb_forall in Hm.
    apply Forall_forall. intros c Hc%list_elem_of_In%Hm. by apply negb_true_iff.
Qed.

(** Every file is there whose name is not too long. *)
Definition one_byte (n : list Z) : option (list Z) := if Z.of_nat (length n) <? 1000 then Some [1] else None.
#[local] Instance demo_loader : BootLoader boot_state := boot_loader hd0 stale0 note 65536 one_byte id.

Lemma demo_fits : 0 <= 65536 /\ ram_end 65536 + 0x2000 <= 2 ^ 32.
Proof. split; vm_compute; congruence. Qed.
Lemma demo_sizes n b : one_byte n = Some b -> ram_end 65536 + 0x2000 + Z.of_nat (length b) <= 2 ^ 32.
Proof. unfold one_byte. destruct (_ <? 1000); [|done]. intros [= <-]. vm_compute. congruence. Qed.
Lemma demo_terminated n b : one_byte n = Some b -> (Z.of_nat (length b) + Z.of_nat (length n)) mod 4096 <> 0.
Proof.
  unfold one_byte. destruct (Z.ltb_spec (Z.of_nat (length n)) 1000); [|done]. intros [= <-]. cbn [length].
  rewrite Z.mod_small by lia. lia.
Qed.
Definition demo_laws : BootLoaderLaws boot_state :=
  boot_laws hd0 stale0 note 65536 one_byte id eq_refl demo_fits demo_sizes demo_terminated.

Lemma demo_ready : boot_ready 65536 one_byte 43 first_state.
Proof.
  split; [done|]. exists []. split; [|split; [constructor|split; [vm_compute; lia|constructor]]].
  split; cbn; [lia|split; [by vm_compute|lia]|vm_compute; by split|done].
Qed.

Lemma demo_distinct : distinct (tried demo_cfg false (ch "C") [bstr "."; bstr "C:\OS2\DLL"] [bstr "BVHVGA"; bstr "BVHMPA"]
  (bstr "C:\OS2\SYSTEM\COUNTRY.SYS") (bstr "C:\OS2\KEYBOARD.DCP") (bstr "C:\OS2\BOOT\VIOTBL.DCP")).
Proof. apply distinct_check. vm_compute. reflexivity. Qed.

Lemma needed_files_loaded_witness : exists rc s',
  load_modules demo_cfg false (ch "C") 0x200000 first_state = (if rc =? 0 then load_messages demo_cfg s' else Ret (1, s')) /\
  (rc = 0 -> (exists p, p ∈ bstr <$> ["/os2/boot/ibm1s506.add"; "/os2/ibm1s506.add"; "//ibm1s506.add"]%string /\
      boot_loaded 65536 one_byte p s') /\
    boot_loaded 65536 one_byte (bstr "/os2/boot/testcfg.sys") s' /\
    boot_loaded 65536 one_byte (bstr "/os2/dll/bvhvga.dll") s').
Proof.
  destruct (needed_files_loaded (Hlaws := demo_laws) demo_cfg false (ch "C") 0x200000 _ _ _ _ _ 0%nat first_state
    demo_cfg_good demo_distinct) as (rc & s' & E & H).
  - apply Forall_forall. intros t _. constructor.
  - exact demo_ready.
  - split; [cbn; lia|]. split; [by vm_compute|lia].
  - unfold MAXINT. lia.
  - exists rc, s'. split; [exact E|]. intros Hrc. destruct (H Hrc) as [_ W]. rewrite Forall_forall in W.
    split_and!.
    + apply (W (file_target true (bstr "IBM1S506.ADD /A:0"))), (bool_decide_unpack _). by vm_compute.
    + destruct (W (file_target false (bstr "C:\OS2\BOOT\TESTCFG.SYS"))) as (p & Hp & Hload);
        [apply (bool_decide_unpack _); by vm_compute|]. apply list_elem_of_singleton in Hp as ->. exact Hload.
    + destruct (W (library_target [bstr "."; bstr "C:\OS2\DLL"] (bstr "bvhvga.dll"))) as (p & Hp & Hload);
        [apply (bool_decide_unpack _); by vm_compute|]. apply list_elem_of_singleton in Hp as ->. exact Hload.
Defined.

(** A loader that keeps just the command lines of the files of a system. *)
Definition file_loader (system : list Z -> bool) : BootLoader (list (list Z)) := {|
  exec_cmd line st := let p := drop 7 line in
    Ret (if starts_with line (bstr "module ") && system p then (1, st ++ [p]) else (0, st));
  cmdlines st := st
|}.

Definition with_sets (s : list (Z * list Z)) : boot_cfg := {|
  psd := []; basedev := basedev demo_cfg; device := device demo_cfg; ifs := ifs demo_cfg; call_ := []; run := [];
  set_ := s; ixf := []; libpath := libpath demo_cfg; country := country demo_cfg;
  devinfo_kbd := devinfo_kbd demo_cfg; devinfo_vio := devinfo_vio demo_cfg; codepage := codepage demo_cfg; protshell := None
|}.

Section files.
#[local] Instance all_files : BootLoader (list (list Z)) := file_loader (fun _ => true).

(** The commands for a system in which every file is in the first place. *)
Example modules_in_order : load_modules demo_cfg false (ch "C") 0x200000 [] = Ret (0, bstr <$>
  ["/os2ldr"; "/os2ldr.msg"; "/os2krnl"; "/os2dump"; "/os2dbcs"; "/os2dbcs.fnt"; "/os2ldr.fnt"; "/os2ldr.ini";
   "/kdb.ini"; "/altf2on.$$$"; "/os2norev.$$$"; "/os2logo";
   "/os2/boot/resource.sys"; "/os2/boot/clock01.sys"; "/os2/boot/screen01.sys"; "/os2/boot/kbdbase.sys";
   "/os2/boot/isapnp.snp"; "/os2/boot/pnp.sys"; "/os2/boot/ibm1s506.add"; "/os2/boot/os2dasd.dmd";
   "/os2/system/country.sys"; "/os2/keyboard.dcp"; "/os2/boot/viotbl.dcp";
   "/os2/dll/doscall1.dll"; "/os2/dll/sesmgr.dll"; "/os2/dll/msg.dll"; "/os2/dll/nls.dll"; "/os2/dll/os2char.dll";
   "/os2/dll/bvscalls.dll"; "/os2/dll/bmscalls.dll"; "/os2/dll/bkscalls.dll"; "/os2/dll/kbdcalls.dll";
   "/os2/dll/moucalls.dll"; "/os2/dll/quecalls.dll"; "/os2/dll/viocalls.dll"; "/os2/boot/testcfg.sys"; "/os2/hpfs.ifs";
   "/os2/dll/bvhvga.dll"; "/os2/dll/bvhmpa.dll"; "/os2/oso001.msg"]%string).
Proof. vm_compute. reflexivity. Qed.

(** A name that is a part of another one is taken to be loaded already. *)
Example part_of_other : preload_module (bstr "os2ldr") false [bstr "/os2ldr.msg"] = Ret (1, [bstr "/os2ldr.msg"]).
Proof. vm_compute. reflexivity. Qed.

(** With parameters a file that is loaded already is loaded again. *)
Example loaded_twice : preload_module (bstr "IBM1S506.ADD /V") true [bstr "/os2/boot/ibm1s506.add"] =
  Ret (1, [bstr "/os2/boot/ibm1s506.add"; bstr "/os2/boot/ibm1s506.add"]).
Proof. vm_compute. reflexivity. Qed.

(** A path with a blank is cut there. *)
Example blank_in_path : preload_library (Some (bstr "C:\MY DLL")) (bstr "nls.dll") [] = Ret (1, [bstr "/my"]).
Proof. vm_compute. reflexivity. Qed.

(** A variable whose name is the beginning of another's is taken for it. *)
Example beginning_of_name : cfg_getenv [(1, bstr "V=other"); (2, bstr "VIDEO_DEVICES=VIO_VGA")] (bstr "VIDEO_DEVICES") =
  Some (bstr "other").
Proof. reflexivity. Qed.

(** Without the closing parenthesis the names of the screen libraries never end. *)
Example no_parenthesis fuel p st : video_loop fuel p (bstr "BVHVGA") st = NoFuel.
Proof. induction fuel as [|fuel IH]; [done|]. cbn [video_loop]. exact IH. Qed.
End files.

Section no_files.
#[local] Instance no_files : BootLoader (list (list Z)) := file_loader (fun _ => false).

(** An empty entry at the end of LIBPATH, or a dot there, makes the search leave the
    string; a library that is found before does not come that far. *)
Example libpath_end : preload_library (Some (bstr "C:\OS2\DLL;")) (bstr "nls.dll") [] = Undef /\
  preload_library (Some (bstr "C:\OS2\DLL;.")) (bstr "nls.dll") [] = Undef.
Proof. split; vm_compute; reflexivity. Qed.

(** The file of messages that is not found on DPATH. *)
Example dpath_end : load_messages (with_sets [(1, bstr "DPATH=C:\OS2")]) [] = Undef.
Proof. vm_compute. reflexivity. Qed.

(** An option without a comma has no file, and a system without an IFS line no name. *)
Example no_comma : after_comma (bstr "001") = Undef.
Proof. reflexivity. Qed.
Example no_ifs : load_drivers {| psd := []; basedev := []; device := []; ifs := []; call_ := []; run := []; set_ := [];
  ixf := []; libpath := None; country := None; devinfo_kbd := None; devinfo_vio := None; codepage := [];
  protshell := None |} false 0 [] = Undef.
Proof. reflexivity. Qed.
End no_files.
